(* ===== verification/_CoqProject ===== *)
-Q . S2P
Prelude.v
GoStrings.v
GoTrim.v
Errs.v
Regexp.v
Slug.v
Address.v
Authz.v
Netip.v
Iptables.v
Exits.v
Ladder.v
Mesh.v
VipFilter.v
VipScript.v
Vip.v
VipShares.v
VipNode.v
JobLeaf.v
Jobs.v
Refs.v
RefsSpec.v
Store.v
Tier.v
Environment.v
Rows.v
ParamRows.v
Releases.v
Networks.v
Nodes.v
Images.v
Backup.v
BackupRedact.v
BackupArchives.v
BackupRows.v
Outside.v
BackupFlow.v
Volumes.v
BackupSafe.v
BackupCloses.v
GoNum.v
GoJson.v
Settings.v
GoPath.v
Sha256.v
HostGrants.v
Registry.v
TileRow.v
Docker.v
TileLines.v
TileCheck.v
TileValid.v
TileDiff.v
TileLeaf.v
Facts.v
Cleanup.v
Tiles.v
Daemon.v
TilesSafe.v
TileVerbs.v
Access.v
Shares.v
AccessSafe.v
Rollout.v
RolloutSafe.v
TileEdit.v
TileEffects.v
StopFirst.v
Revive.v
Resolve.v
