(* ===== verification/Prelude.v ===== *)
(** * The stackr verification library

    stackr is a panel that runs containers ("tiles") for organisations on a
    cluster of nodes: an org has stacks, a stack has environments on a ladder
    (dev, staging, prod) and PR environments beside it, an environment has
    tiles.  This library models the core rules of the Go code under
    [internal/] and proves them.  Paths below are relative to [src/internal/];
    [leaf/], [flow/] and [store/] are under [service/internal/].

    ** How the program is put together

    Handlers call the orchestrator ([service/]), which checks the caller
    ([authz/]), reads and writes rows through the leafs ([leaf/*]), and queues
    jobs.  A leaf owns one table behind a store interface ([store/]).  The job
    runner ([flow/jobs/]) runs the queued work, one job at a time per tile.
    Deploying a tile expands the refs in its values ([leaf/params/ref.go]),
    checks what it may have of the host ([leaf/hostgrant/]), rolls its replicas
    out over Docker ([flow/deploy/], [leaf/tile/]), gives it a virtual address
    ([vip/]), wires its network on the mesh ([mesh/]) and routes its traffic
    through the exits chosen for it ([exits/]).

    ** The files

    - [Prelude]: the result type of Go's [(T, error)] pairs and its notations,
      the tactics, sorting, climbing ladders, loops, hint databases.
    - [GoStrings], [Regexp], [Netip]: what the sources use of Go's [strings],
      [strconv], [regexp] and [net/netip].
    - [Iptables]: what the sources rely on of [iptables] and
      [iptables-restore]: how the text of a script is taken apart, quote marks
      and tabs among it, and how a packet walks the rules.
    - [Errs]: [service/errs/errs.go], error values with [errors.As].
    - [Slug]: [slug/slug.go], the grammar of names.
    - [Address]: [address/address.go], tile addresses, allow patterns, and the
      environment a PR env's slice lands in.
    - [Authz]: [authz/authz.go], the verdict [Can].
    - [Exits]: [exits/resolve.go] and [exits/plan.go], the exits of a tile and
      the commands that set them up and down, read as packet policies.
    - [Ladder]: [exits/ladder.go], the health tick that changes exits.  Its
      interface [ExitHost] is the runner and pinger; [ExitHostLaws] is the
      documented behaviour of [ip rule], and an instance meets it.
    - [Mesh]: [mesh/mesh.go], addresses, peers and routes.
    - [VipFilter]: [vip/filter.go], the tenant filter and what its rules decide
      for a typed packet; [VipScript]: the same for the text of the rules.
    - [Vip]: [vip/vip.go], the table of virtual addresses, over the interface
      [Firewall] of a node's iptables with its laws [FirewallLaws];
      [VipShares]: how connections are spread; [VipNode]: the table against a
      node, and an instance of the interface.
    - [JobLeaf]: [leaf/job/job.go] and [store/jobs.go], job rows.
    - [Jobs]: [flow/jobs/jobs.go], the runner as a state machine of events.
    - [Refs]: [leaf/params/ref.go], parsing and expanding refs; [RefsSpec]:
      what a value with refs stands for, with no word of the code's scanner.
    - [Store]: [store/store.go], a table as the interface [SlugTable] with
      laws, and the implementation [sql_table] that meets them.
    - [Tier]: [leaf/tier/tier.go], [store/tiers.go]; [Environment]:
      [leaf/environment/environment.go], [store/stacks.go]; both written
      against the interface of [Store].

    - [Rows]: the same CRUD for tables whose only key is their id, as lists.
    - [GoPath], [GoTrim], [GoNum], [GoJson], [Sha256]: [path.Clean], the laws of
      [strings.TrimSpace], [strconv]'s numbers with float64, [encoding/json] on
      the shapes that are read, and [crypto/sha256].
    - [ParamRows]: [leaf/params/params.go], the entries of a scope and their
      merge with stored secrets; [Facts]: [flow/deploy/facts.go], the blocks an
      env reads and the tiles its resolver sees, which is the snapshot [Refs]
      resolves against.
    - [Settings]: [leaf/settings/], the catalogue, the cascade of limits and
      protection, and the install-wide rows, over the interface [Json].
    - [Releases]: [leaf/release/release.go], numbered snapshots of what a stack
      runs, and the tables of releases, pins and images; [Images]:
      [leaf/image/image.go], the rows of images over the interface [Daemon] of
      a node's Docker with its laws; [Cleanup]: [service/cleanup.go] and
      [prune.go], what a disk sweep keeps and removes, and a daemon that meets
      the laws.
    - [Networks]: [docker/networks.go], the block a network takes and its
      pinned addresses; [Nodes]: [leaf/node/], joining nodes, their transit
      addresses and the blocks reserved a moment ago.
    - [Volumes], [Shares]: [leaf/volume/], the rows of volumes and of network
      shares, what a share mounts and what the sweeps of a node remove.
    - [Backup]: [leaf/backup/backup.go] and [store/backups.go], destinations,
      schedules and runs; [BackupRedact], [BackupArchives] and [BackupRows]
      prove what it does to error words, archives and tables.
    - [Outside]: programs over outside calls, as a small error monad with the
      history of the calls; the interfaces [Asks] and [Answers] of what answers.
    - [BackupFlow]: [flow/backup/backup.go], backups and restores as programs
      over a [World] that answers every outside call; [BackupSafe] and
      [BackupCloses] prove what they may touch and what they give back.
    - [HostGrants]: [leaf/hostgrant/hostgrant.go], what of the host a stack was
      granted.
    - [Registry]: [registry/registry.go], image references and tag policies.
    - [TileRow]: the row of a tile; [TileLines] and [TileCheck]:
      [leaf/tile/check.go], its lines and the checks of a save, with [TileValid]
      their specification; [TileDiff]: [leaf/tile/diff.go], what an edit earns;
      [TileLeaf]: [leaf/tile/tile.go] on its table, with [TileEdit] and
      [TileEffects] on what its calls keep and earn.
    - [Docker]: [docker/], the containers and the health gate, and the [World]
      of daemon, nodes and clock; [Tiles]: [leaf/tile/world.go] over it, with
      [TilesSafe] and [TileVerbs]; [Daemon]: the laws [Clock], [Ids], [Labelled]
      and [OneTruth] of such a world and a concrete one that meets them.
    - [Access]: [flow/deploy/mount_host.go], what of the host a tile asks for
      and gets, with [AccessSafe].
    - [Rollout]: [flow/deploy/deploy.go] and [spec.go], the container of a
      replica and both ways to roll out, with [RolloutSafe], [StopFirst] and
      [Revive]; [Resolve]: [resolve] of the same file, what that container is
      made from, over every part above it that it reads.

    The order of the files in [_CoqProject] is that of their dependence.

    A definition bears its Go name; a method [T.M] of a small type is [M] or
    [T_M], and a loop of a function is a definition of its own beside it.  A
    mutable struct is a record passed through its operations.  A Go [map] read
    in no order that matters is a [gmap]; one whose order of iteration could
    show is left to sorted lists, as the sources sort it too.

    ** What the theorems show

    - Jobs.  Over any list of events: the running rows are the running jobs and
      no two share a tile, a finished row never changes, each end is reported
      once, a swap is never interrupted; a pass starts the jobs that nothing is
      ahead of, within the worker limit; an enqueue replaces the older jobs it
      redoes and no others.
    - Refs.  Expansion is substitution of what each ref reads, against a
      specification of its own, its dependencies are the tile refs, refs print
      and parse back, no secret reaches a domain, no server param leaves the
      server file.
    - Authorisation.  The verdict in closed form, from the roles an account
      holds and the verb's entry of the table; keys only attenuate, levels are
      monotone, outsiders cannot tell a thing from its absence.
    - Virtual addresses.  The rules' text decides every packet as the policy
      does; no input adds a word to the script (a quote mark in the name of the
      mesh's interface would, which is a finding); after a call that succeeds the
      node decides as the table says, whatever was there before; each replica
      of n gets its share of connections; the delete loops end.
    - Backups.  Pruning keeps what it must and never leaves its root, roots do
      not overlap, a run's destination and its archive key outlive every call,
      an org sees its own destinations and the shared ones, keys stay out of
      error words, archive names sort by time, a boot closes what was left
      running.  A restore overwrites only with a way back, the orphan job
      deletes only what is away, and every path gives back what it took, the
      panel's scratch files among it.  Three findings: manual runs are pruned, a
      prune that cannot read its rows protects no archive, and a doubled short
      key garbles the word around it.
    - Tiles.  A row is saved exactly when it is lawful, in its normal form; no
      call leaves another; a save that earns no redeploy left what a deploy
      reads alone.  A container verb acts only on the tile's own containers;
      the health gate answers, and passes only what it saw run; freezing and
      stopping are whole or undone.
    - Deploys.  With overlap nothing old is touched before the new replicas are
      up and routed; without it two writers never run, and a failure leaves a
      healthy replica or asks the old ones back.  What a tile resolves to gets
      of the host only what was granted, and what a refused deploy asks for is
      what lets it pass once approved.  Findings: [Remove]'s guard when a list
      fails, old replicas that restart beside the new one, and a new one whose
      removal the daemon refused.
    - Values.  A merge of entries is a merge of maps that blanks no secret; an
      env reads its own blocks and the unlocked ones of its stack and org.
    - Volumes.  A volume keeps its name, node and data through every call until
      a delete names it while no tile mounts it; a share line mounts inside its
      share, and a sweep spares every claimed share volume.
    - Releases and images.  A release is a snapshot: later ones change none.  A
      sweep keeps what each env runs and may roll back to, with its rows and
      images, and everything a container uses or stackr did not make.  Finding:
      a pulled image is not kept by a release that pins it.
    - Nodes.  No two nodes share a transit address however they join; blocks
      reserved within a minute do not touch; a pinned address is free and not
      Docker's to hand out.  [StaticAddr_pins] holds a finding: a hash near
      2^32 may leave free addresses untried.
    - Settings.  Limits only tighten down the cascade, a protection pair comes
      from one level, merges are whole or nothing, a written knob is read back.
      [nan_wipes_the_server_rung] is a finding.
    - Mesh and exits.  Routes are shortest paths, no two peers share an allowed
      network; the forward chain and the fence enforce their policies on every
      packet; a teardown removes what its setup installed; the ladder moves
      only on the evidence of its probes, and after a clean tick the kernel has
      the rules of the reported rung.  [Tick_failed_apply_leaves_no_rules] is a
      finding: after a failed change the rules of the reported rung are gone, and
      no later tick that holds it repairs them.
    - Names.  Patterns admit what they say, allow lists stay in their org.
    - Ladders of names.  Tiers and environments keep unique legal slugs and
      strictly climbing rungs through every call; reorders accept exactly the
      permutations; an env promotes from the rung before it; a stale copy of an
      env never undoes a move; hues do not collide by accident.

    ** Bounds and fuel

    The breadth-first search of [Mesh.bfs] is given one more step than there
    are nodes, and [bfs] is proved to have emptied its queue by then.  The
    health gate [Docker.healthy] is given [healthy_fuel] polls, more than its
    timeout has; [TilesSafe.Healthy_answers] says it returns within them on a
    clock that moves.  JSON scanners are given the length of the text, or twice
    it where a byte takes two steps.  Other scanners recurse on the string.
    Counters, positions and ports are [Z], none near the width of Go's [int];
    what [strconv.Atoi] reads is bounded by 64 bits where that shows, float64
    is IEEE 754 with its NaN and infinities ([GoNum]), and addresses are 32- and
    128-bit numbers with their bounds kept.  The hue search tries each hue of
    the palette once, and that reaches all of them.

    ** What is not modelled

    A database that fails, the sealing of secret columns, SQL text, rendered
    messages, goroutine scheduling below a critical section (the runner's
    events are the critical sections), HTTP, the UI, the command-line programs.
    A sort by time keeps the table's order among equals, where SQL leaves it
    open.  Docker, object stores, the clock and the daemon's nodes are a
    [World] that may answer or refuse each call in any way; the bytes of
    archives stay outside, and removing a scratch file is taken to work.
    Third-party code is an argument: the grammars of image references and
    semantic versions ([Registry.Versions]), cron lines
    ([cron_ParseStandard]).  So are fresh ids, random keys, the pinger, the
    command runner, the proxy's address and the link host of a slice, and the
    pins an environment is placed by.  The flows that remain (resolving an
    image, waiting for dependencies, building, moving, upgrading, managed
    instances, promotion plans and configuration files) and the generated proxy
    configuration are left out for their size: they compose the parts above
    with calls to git, Docker and HTTP. *)
From Stdlib Require Export ZArith Lia Ascii String.
From stdpp Require Export base strings gmap fin_maps sorting list.
#[export] Set Default Goal Selector "!".
#[export] Set Warnings "-clear-no-such-hyp,-register-all".
Open Scope string_scope.
Open Scope Z_scope.
Open Scope list_scope.

(** ** Results: Go's [(T, error)] pairs *)

(** A call that returns [(T, error)] with the zero [T] on an error. *)
Inductive result (E A : Type) : Type :=
  | Ok (a : A)
  | Err (e : E).
Arguments Ok {E A} a.
Arguments Err {E A} e.

Declare Scope go_scope.
Delimit Scope go_scope with go.

(** [x <- c ;; k]: go on with the value of [c], or return its error. *)
Notation "x <-? c ;; k" :=
  (match c with Ok x => k | Err e => Err e end)
  (at level 60, c at next level, right associativity) : go_scope.
(** [c ;;? k]: [if err := c; err != nil { return err }]. *)
Notation "c ;;? k" :=
  (match c with Ok _ => k | Err e => Err e end)
  (at level 60, right associativity) : go_scope.
Open Scope go_scope.

Lemma Ok_inj {E A} (a b : A) : @Ok E A a = Ok b -> a = b.
Proof. congruence. Qed.

Definition is_ok {E A} (r : result E A) : bool :=
  match r with Ok _ => true | Err _ => false end.

(** ** The development's tactics *)

(** Turn boolean facts in the context and the goal into propositions. *)
Ltac bsimpl :=
  repeat match goal with
  | H : _ && _ = true |- _ => apply andb_true_iff in H; destruct H
  | H : _ || _ = false |- _ => apply orb_false_iff in H; destruct H
  | H : negb _ = true |- _ => apply negb_true_iff in H
  | H : negb _ = false |- _ => apply negb_false_iff in H
  | H : bool_decide _ = true |- _ => apply bool_decide_eq_true in H
  | H : bool_decide _ = false |- _ => apply bool_decide_eq_false in H
  | H : Z.eqb _ _ = true |- _ => apply Z.eqb_eq in H
  | H : Z.eqb _ _ = false |- _ => apply Z.eqb_neq in H
  | H : Z.ltb _ _ = true |- _ => apply Z.ltb_lt in H
  | H : Z.ltb _ _ = false |- _ => apply Z.ltb_ge in H
  | H : Z.leb _ _ = true |- _ => apply Z.leb_le in H
  | H : Z.leb _ _ = false |- _ => apply Z.leb_gt in H
  | H : Nat.leb _ _ = true |- _ => apply Nat.leb_le in H
  | H : Nat.leb _ _ = false |- _ => apply Nat.leb_gt in H
  | H : Nat.ltb _ _ = true |- _ => apply Nat.ltb_lt in H
  | H : Nat.ltb _ _ = false |- _ => apply Nat.ltb_ge in H
  | H : Nat.eqb _ _ = true |- _ => apply Nat.eqb_eq in H
  | H : Nat.eqb _ _ = false |- _ => apply Nat.eqb_neq in H
  | H : String.eqb _ _ = true |- _ => apply String.eqb_eq in H
  | H : String.eqb _ _ = false |- _ => apply String.eqb_neq in H
  | H : Ascii.eqb _ _ = true |- _ => apply Ascii.eqb_eq in H
  | H : Ascii.eqb _ _ = false |- _ => apply Ascii.eqb_neq in H
  end.
Ltac bcases :=
  repeat (case_match; simplify_eq/=; bsimpl); try done.

(** The hint database of the library: facts about lists, sorts and strings
    that close side conditions. *)
Create HintDb go discriminated.
#[export] Hint Constants Opaque : go.
Create Rewrite HintDb go_str.

(** ** Go's [slices] package *)

(** [slices.Contains]. *)
Definition contains {A} `{EqDecision A} (l : list A) (x : A) : bool :=
  bool_decide (x ∈ l).
Lemma contains_spec {A} `{EqDecision A} (l : list A) (x : A) : reflect (x ∈ l) (contains l x).
Proof. apply bool_decide_reflect. Qed.

(** [slices.ContainsFunc] is [existsb]; [slices.IndexFunc] with [None] for -1. *)
Fixpoint index_func {A} (p : A -> bool) (l : list A) : option nat :=
  match l with
  | [] => None
  | x :: l => if p x then Some 0%nat else S <$> index_func p l
  end.

(** The first element [p] accepts: [for ... { if p(x) { return x } }]. *)
Fixpoint find_first {A} (p : A -> bool) (l : list A) : option A :=
  match l with
  | [] => None
  | x :: l => if p x then Some x else find_first p l
  end.

Lemma existsb_false {A} (f : A -> bool) l x : existsb f l = false -> x ∈ l -> f x = false.
Proof. intros H Hx. apply not_true_iff_false. intros Hf. apply not_true_iff_false in H. apply H, existsb_exists. exists x. split; [by apply list_elem_of_In|done]. Qed.

Lemma find_first_None {A} (p : A -> bool) l :
  find_first p l = None <-> Forall (fun x => p x = false) l.
Proof.
  induction l as [|x l IH]; simpl; [done|]. rewrite Forall_cons, <- IH.
  destruct (p x); split; intros H; [done|by destruct H|by split|by destruct H].
Qed.

Lemma find_first_Some {A} (p : A -> bool) l x :
  find_first p l = Some x -> x ∈ l /\ p x = true.
Proof.
  induction l as [|y l IH]; simpl; [done|]. case_match eqn:E; [intros [= ->]|intros H].
  - split; [by left|done].
  - destruct (IH H). split; [by right|done].
Qed.

Lemma find_first_split {A} (p : A -> bool) l x :
  find_first p l = Some x ->
  exists pre post, l = pre ++ x :: post /\ Forall (fun y => p y = false) pre /\ p x = true.
Proof.
  induction l as [|y l IH]; simpl; [done|]. case_match eqn:E; [intros [= ->]; by exists [], l|].
  intros (pre & post & -> & ? & ?)%IH. exists (y :: pre), post. split_and!; [done|by constructor|done].
Qed.

Lemma find_first_app {A} (p : A -> bool) l1 l2 :
  find_first p (l1 ++ l2) = match find_first p l1 with Some x => Some x | None => find_first p l2 end.
Proof. induction l1 as [|x l1 IH]; simpl; [done|]. by destruct (p x). Qed.

Lemma map_inj_on {A B} (f : A -> B) l1 l2 :
  (forall a b, a ∈ l1 -> b ∈ l2 -> f a = f b -> a = b) -> map f l1 = map f l2 -> l1 = l2.
Proof.
  revert l2. induction l1 as [|a l1 IH]; intros [|b l2] Hf; simpl; try done. intros [= E1 E2]. f_equal.
  - apply Hf; [by left|by left|done].
  - apply (IH l2); [|exact E2]. intros x y Hx Hy E. apply Hf; [by right|by right|exact E].
Qed.

(** Loops that keep what [p] accepts use the standard library's boolean filter. *)
Lemma elem_of_filterb {A} (p : A -> bool) l x : x ∈ List.filter p l <-> x ∈ l /\ p x = true.
Proof. by rewrite !list_elem_of_In, filter_In. Qed.

(** [slices.Compact]: drops an element equal to the one before it. *)
Fixpoint compact {A} `{EqDecision A} (l : list A) : list A :=
  match l with
  | [] => []
  | x :: l' =>
      match l' with
      | [] => [x]
      | y :: _ => if decide (x = y) then compact l' else x :: compact l'
      end
  end.

(** [slices.SortFunc] and [slices.SortStableFunc]: an insertion sort, so ties
    keep their order. Go leaves the order of ties in [SortFunc] open; theorems
    that speak about a [SortFunc] call use [sort_perm] and [sort_sorted]. *)
Section Sort.
Context {A : Type} (leb : A -> A -> bool).

Fixpoint insert_sorted (x : A) (l : list A) : list A :=
  match l with
  | [] => [x]
  | y :: l' => if leb x y then x :: l else y :: insert_sorted x l'
  end.

Fixpoint sort (l : list A) : list A :=
  match l with
  | [] => []
  | x :: l' => insert_sorted x (sort l')
  end.

Lemma insert_sorted_perm x l : insert_sorted x l ≡ₚ x :: l.
Proof.
  induction l as [|y l IH]; simpl; [done|].
  case_match; [done|]. rewrite IH. by rewrite Permutation_swap.
Qed.

Lemma sort_perm l : sort l ≡ₚ l.
Proof. induction l as [|x l IH]; simpl; [done|]. by rewrite insert_sorted_perm, IH. Qed.

Lemma elem_of_sort x l : x ∈ sort l <-> x ∈ l.
Proof. by rewrite sort_perm. Qed.

Lemma length_sort l : length (sort l) = length l.
Proof. by rewrite sort_perm. Qed.

Hypothesis leb_total : forall x y, leb x y = true \/ leb y x = true.
Hypothesis leb_trans : forall x y z, leb x y = true -> leb y z = true -> leb x z = true.

Lemma insert_sorted_sorted x l :
  StronglySorted (fun a b => leb a b = true) l ->
  StronglySorted (fun a b => leb a b = true) (insert_sorted x l).
Proof.
  induction 1 as [|y l Hs IH Hy]; simpl; [by repeat constructor|].
  destruct (leb x y) eqn:E.
  - constructor; [by constructor|]. constructor; [done|].
    eapply Forall_impl; [exact Hy|]. intros z. by apply leb_trans.
  - constructor; [done|]. rewrite insert_sorted_perm. constructor; [|done].
    destruct (leb_total x y); congruence.
Qed.

(** A sorted permutation whose elements are strictly ordered is the sort. *)
Lemma sorted_unique s l :
  StronglySorted (fun a b => leb a b = true) s -> s ≡ₚ l ->
  StronglySorted (fun a b => leb a b = true /\ leb b a = false) l -> s = l.
Proof.
  intros Hs Hp Hl. revert s Hs Hp. induction Hl as [|x l Hl IH Hx]; intros s Hs Hp.
  { by apply Permutation_nil_r in Hp. }
  inv Hs as [|y s' Hs' Hy]; [by apply Permutation_nil_l in Hp|].
  assert (y = x) as ->.
  { assert (y ∈ x :: l) as Hyin by (rewrite <- Hp; left). apply elem_of_cons in Hyin as [->|Hyin]; [done|].
    assert (x ∈ y :: s') as Hxin by (rewrite Hp; left). apply elem_of_cons in Hxin as [->|Hxin]; [done|].
    apply (proj1 (Forall_forall _ _) Hx) in Hyin as [_ E]. apply (proj1 (Forall_forall _ _) Hy) in Hxin.
    congruence. }
  f_equal. apply IH; [done|]. by apply Permutation_cons_inv in Hp.
Qed.

Lemma sort_sorted l : StronglySorted (fun a b => leb a b = true) (sort l).
Proof. induction l; simpl; [constructor|by apply insert_sorted_sorted]. Qed.

Lemma sort_unique s l :
  s ≡ₚ l -> StronglySorted (fun a b => leb a b = true /\ leb b a = false) l -> sort s = l.
Proof. intros Hp. apply sorted_unique; [apply sort_sorted|]. by rewrite sort_perm. Qed.
End Sort.
#[export] Hint Resolve sort_perm : go.

(** Lists whose [key]s strictly climb: a ladder's rungs. *)
Section Climb.
Context {A : Type} (key : A -> Z).
Definition climbs : list A -> Prop := StronglySorted (fun a b => key a < key b).

Lemma climbs_intro (R : A -> A -> Prop) l :
  StronglySorted R l -> (forall a b, R a b -> key a <= key b) -> NoDup l ->
  (forall a b, a ∈ l -> b ∈ l -> key a = key b -> a = b) -> climbs l.
Proof.
  intros Hs HR. induction Hs as [|a l Hs IH Ha]; [constructor|].
  intros [Hn Hnd]%NoDup_cons Hinj. constructor.
  - apply IH; [done|]. intros x y Hx Hy. apply Hinj; by right.
  - apply Forall_forall. intros b Hb. pose proof (HR _ _ (proj1 (Forall_forall _ _) Ha _ Hb)).
    destruct (Z.eq_dec (key a) (key b)) as [E|]; [|lia]. exfalso. apply Hn.
    by rewrite (Hinj a b ltac:(by left) ltac:(by right) E).
Qed.

Lemma climbs_lookup l i k a b : climbs l -> l !! i = Some a -> l !! k = Some b -> (i < k)%nat -> key a < key b.
Proof.
  intros Hs. revert i k. induction Hs as [|x l Hs IH Hx]; intros i k Hi Hk Hlt; [done|].
  destruct k as [|k]; [lia|]. destruct i as [|i]; simpl in *; [|by apply (IH i k); [..|lia]].
  injection Hi as ->. apply (proj1 (Forall_forall _ _) Hx). by eapply list_elem_of_lookup_2.
Qed.

Lemma climbs_last l top t : climbs l -> last l = Some top -> t ∈ l -> key t <= key top.
Proof.
  intros Hs [l' ->]%last_Some Ht. apply elem_of_app in Ht as [Ht| ->%list_elem_of_singleton]; [|lia].
  pose proof (StronglySorted_app_1_elem_of _ _ _ t top Hs Ht ltac:(by left)). simpl in *. lia.
Qed.

(** The list put on rungs 0, 1, ... *)
Context (setp : A -> Z -> A).
Definition renumber (l : list A) : list A := imap (fun j a => setp a (Z.of_nat j)) l.

Lemma elem_of_renumber l a : a ∈ renumber l <-> exists j u, l !! j = Some u /\ a = setp u (Z.of_nat j).
Proof.
  unfold renumber. rewrite elem_of_lookup_imap. split; [intros (j & u & -> & ?); eauto|].
  intros (j & u & ? & ->). eauto.
Qed.

Lemma renumber_map {B} (f : A -> B) l : (forall a p, f (setp a p) = f a) -> map f (renumber l) = map f l.
Proof.
  intros Hf. unfold renumber. rewrite fmap_imap. etrans; [|exact (imap_const f l)].
  apply imap_ext. intros. apply Hf.
Qed.

Lemma renumber_climbs l : (forall a p, key (setp a p) = p) -> climbs (renumber l).
Proof.
  intros Hk. cut (forall n : nat, climbs (imap (fun j a => setp a (Z.of_nat (n + j))) l)); [intros H; exact (H 0%nat)|].
  induction l as [|a l IH]; intros n; [constructor|]. rewrite imap_cons. constructor.
  - specialize (IH (S n)). erewrite imap_ext; [exact IH|]. intros i x _. simpl. f_equal. lia.
  - apply Forall_forall. intros b (j & u & -> & _)%elem_of_lookup_imap. simpl. rewrite !Hk. lia.
Qed.

(** Sorting by any order the keys strictly decide gives the climbing list. *)
Lemma sort_climbs leb s l : (forall a b, leb a b = true \/ leb b a = true) ->
  (forall a b c, leb a b = true -> leb b c = true -> leb a c = true) ->
  (forall a b, key a < key b -> leb a b = true /\ leb b a = false) ->
  s ≡ₚ l -> climbs l -> sort leb s = l.
Proof.
  intros Ht Htr Hlt Hp Hl. apply (sort_unique leb Ht Htr); [done|]. clear Hp. induction Hl as [|a l _ IH Ha]; constructor; [done|].
  eapply Forall_impl; [exact Ha|]. intros b. apply Hlt.
Qed.
End Climb.

(** A loop that keeps [I] and gives each element its [P]. *)
Lemma fold_left_all {A B} (f : A -> B -> A) (I : A -> Prop) (P : B -> A -> Prop) l :
  (forall h x, x ∈ l -> I h -> I (f h x) /\ P x (f h x)) ->
  (forall h x y, x ∈ l -> y ∈ l -> I h -> P y h -> P y (f h x)) ->
  forall h, I h -> I (fold_left f l h) /\ forall x, x ∈ l -> P x (fold_left f l h).
Proof.
  intros Hi Hp. assert (forall l', (forall x, x ∈ l' -> x ∈ l) -> forall h, I h ->
    I (fold_left f l' h) /\ (forall x, x ∈ l' -> P x (fold_left f l' h)) /\
    forall y, y ∈ l -> P y h -> P y (fold_left f l' h)) as Hg; [|intros h Hh; by destruct (Hg l) with h as (? & ? & _)].
  induction l' as [|x l' IH]; intros Hl h Hh; simpl; [set_solver|].
  destruct (Hi h x (Hl x ltac:(by left)) Hh) as [Hx Px].
  destruct (IH ltac:(intros y Hy; apply Hl; by right) _ Hx) as (H1 & H2 & H3). split_and!; [done| |].
  - intros y [->|Hy]%elem_of_cons; [|by apply H2]. apply H3; [apply Hl; by left|done].
  - intros y Hy HP. apply H3; [done|]. apply Hp; [apply Hl; by left|done..].
Qed.

(** A slice filled behind a [seen] map: [if !seen[x] { seen[x] = true; out = append(out, x) }]. *)
Definition add_once {A} `{EqDecision A} (out : list A) (x : A) : list A :=
  if contains out x then out else out ++ [x].
Definition add_all {A} `{EqDecision A} (out xs : list A) : list A := fold_left add_once xs out.

Section AddOnce.
Context {A : Type} `{EqDecision A}.

Lemma elem_of_add_once (out : list A) x y : y ∈ add_once out x <-> y ∈ out \/ y = x.
Proof. unfold add_once, contains. case_bool_decide; set_solver. Qed.

Lemma add_once_nodup (out : list A) x : NoDup out -> NoDup (add_once out x).
Proof.
  intros Hn. unfold add_once, contains. case_bool_decide; [done|].
  apply NoDup_app. split_and!; [done|set_solver|apply NoDup_singleton].
Qed.

Lemma elem_of_add_all (out xs : list A) y : y ∈ add_all out xs <-> y ∈ out \/ y ∈ xs.
Proof.
  revert out. induction xs as [|x xs IH]; intros out; simpl; [set_solver|].
  rewrite IH, elem_of_add_once. set_solver.
Qed.

Lemma add_all_nodup (out xs : list A) : NoDup out -> NoDup (add_all out xs).
Proof.
  revert out. induction xs as [|x xs IH]; intros out Hn; simpl; [done|].
  by apply IH, add_once_nodup.
Qed.

Lemma add_all_prefix (out xs : list A) : exists ys, add_all out xs = out ++ ys /\ ys ⊆ xs.
Proof.
  revert out. induction xs as [|x xs IH]; intros out; simpl; [exists []; by rewrite app_nil_r|].
  destruct (IH (add_once out x)) as (ys & -> & Hs). unfold add_once.
  case_match; [exists ys|exists (x :: ys); rewrite <- app_assoc]; (split; [done|set_solver]).
Qed.
End AddOnce.
