(* ===== verification/GoStrings.v ===== *)
(** * The parts of Go's [strings] and [strconv] the program uses

    A Go string is a byte string, here Rocq's [string].  Every separator the
    modelled code passes is one byte, so [split], [cut] and [index_byte] take
    an [ascii].  The round trips between [split] and [join] are what the
    address and reference grammars rest on. *)
From Stdlib Require OrderedTypeEx.
From S2P Require Import Prelude.

(** ** Bytes *)

Definition byte_in (lo hi c : ascii) : bool :=
  (Nat.leb (nat_of_ascii lo) (nat_of_ascii c)) && (Nat.leb (nat_of_ascii c) (nat_of_ascii hi)).
Definition is_lower : ascii -> bool := byte_in "a" "z".
Definition is_upper : ascii -> bool := byte_in "A" "Z".
Definition is_digit : ascii -> bool := byte_in "0" "9".

Definition slen (s : string) : Z := Z.of_nat (String.length s).

Fixpoint all_bytes (p : ascii -> bool) (s : string) : bool :=
  match s with
  | EmptyString => true
  | String c s => p c && all_bytes p s
  end.

(** [strings.IndexByte(s, c) >= 0]. *)
Fixpoint has_byte (c : ascii) (s : string) : bool :=
  match s with
  | EmptyString => false
  | String d s => Ascii.eqb c d || has_byte c s
  end.

(** [strings.ContainsAny]: some byte of [s] is one of [cs]. *)
Definition contains_any (cs s : string) : bool :=
  negb (all_bytes (fun c => negb (has_byte c cs)) s).

(** ** Prefixes, suffixes, substrings *)

Fixpoint strip_prefix (p s : string) : option string :=
  match p, s with
  | EmptyString, _ => Some s
  | String a p, String b s => if Ascii.eqb a b then strip_prefix p s else None
  | _, _ => None
  end.

(** [strings.HasPrefix], [strings.TrimPrefix]. *)
Definition has_prefix (s p : string) : bool :=
  match strip_prefix p s with Some _ => true | None => false end.
Definition trim_prefix (s p : string) : string := default s (strip_prefix p s).

(** [strings.Contains]. *)
Fixpoint contains_str (s sub : string) : bool :=
  has_prefix s sub ||
  match s with EmptyString => false | String _ s => contains_str s sub end.

Definition rev_str (s : string) : string :=
  string_of_list_ascii (rev (list_ascii_of_string s)).

(** [strings.HasSuffix], [strings.TrimSuffix]. *)
Definition has_suffix (s p : string) : bool := has_prefix (rev_str s) (rev_str p).
Definition trim_suffix (s p : string) : string :=
  rev_str (trim_prefix (rev_str s) (rev_str p)).

(** ** [Split], [Join], [Cut] *)

Fixpoint split (sep : ascii) (s : string) : list string :=
  match s with
  | EmptyString => [EmptyString]
  | String c s =>
      if Ascii.eqb c sep then EmptyString :: split sep s
      else match split sep s with
           | [] => [String c EmptyString]
           | x :: xs => String c x :: xs
           end
  end.

Fixpoint join (sep : string) (l : list string) : string :=
  match l with
  | [] => EmptyString
  | x :: l' => match l' with [] => x | _ :: _ => x +:+ sep +:+ join sep l' end
  end.

(** [strings.Cut(s, sep)]: [Some (before, after)] when [sep] is there. *)
Fixpoint cut (sep : ascii) (s : string) : option (string * string) :=
  match s with
  | EmptyString => None
  | String c s =>
      if Ascii.eqb c sep then Some (EmptyString, s)
      else match cut sep s with
           | Some (b, a) => Some (String c b, a)
           | None => None
           end
  end.

(** ** White space *)

(** The white space of [unicode.IsSpace], as UTF-8: the six ASCII ones,
    U+0085, U+00A0 (two bytes) and U+1680, U+2000 to U+200A, U+2028, U+2029,
    U+202F, U+205F, U+3000 (three bytes). *)
Definition space1 (c : ascii) : bool :=
  let n := nat_of_ascii c in (Nat.leb 9 n && Nat.leb n 13) || Nat.eqb n 32.
Definition space2 (a b : ascii) : bool :=
  Nat.eqb (nat_of_ascii a) 194 && contains [133; 160]%nat (nat_of_ascii b).
Definition space3 (a b c : ascii) : bool :=
  match nat_of_ascii a, nat_of_ascii b, nat_of_ascii c with
  | 225, 154, 128 => true
  | 226, 128, n => (Nat.leb 128 n && Nat.leb n 138) || contains [168; 169; 175]%nat n
  | 226, 129, 159 => true
  | 227, 128, 128 => true
  | _, _, _ => false
  end%nat.

Section Trim.
(** [flip] reads the bytes of a rune last first, for the trailing side. *)
Context (flip : bool).

Fixpoint trim_left (s : string) : string :=
  match s with
  | EmptyString => EmptyString
  | String a s1 =>
      if space1 a then trim_left s1
      else match s1 with
      | EmptyString => s
      | String b s2 =>
          if (if flip then space2 b a else space2 a b) then trim_left s2
          else match s2 with
          | EmptyString => s
          | String c s3 =>
              if (if flip then space3 c b a else space3 a b c) then trim_left s3 else s
          end
      end
  end.
End Trim.

(** [strings.TrimSpace]. *)
Definition trim_space (s : string) : string :=
  rev_str (trim_left true (rev_str (trim_left false s))).

(** [strings.TrimRight(s, "/")] for a one byte cut set. *)
Fixpoint drop_byte (c : ascii) (s : string) : string :=
  match s with
  | EmptyString => EmptyString
  | String d s' => if Ascii.eqb c d then drop_byte c s' else s
  end.
Definition trim_byte_right (c : ascii) (s : string) : string :=
  rev_str (drop_byte c (rev_str s)).
Definition trim_byte (c : ascii) (s : string) : string :=
  trim_byte_right c (drop_byte c s).

(** ** [strconv.Itoa] *)

Definition digit (n : Z) : ascii := ascii_of_nat (48 + Z.to_nat n).
Fixpoint digits (fuel : nat) (n : Z) (acc : string) : string :=
  match fuel with
  | O => acc
  | S f =>
      let acc := String (digit (n mod 10)) acc in
      if n <? 10 then acc else digits f (n / 10) acc
  end.
(** 20 digits hold every 64-bit integer. *)
Definition itoa (n : Z) : string :=
  if n <? 0 then "-" +:+ digits 20 (- n) "" else digits 20 n "".

Definition hex_digit (n : Z) : ascii :=
  ascii_of_nat (if n <? 10 then 48 + Z.to_nat n else 87 + Z.to_nat n).
Fixpoint hex_digits (fuel : nat) (n : Z) (acc : string) : string :=
  match fuel with
  | O => acc
  | S f =>
      let acc := String (hex_digit (n mod 16)) acc in
      if n <? 16 then acc else hex_digits f (n / 16) acc
  end.
(** [fmt.Sprintf("0x%x", n)] for a non-negative [n]. *)
Definition hex0x (n : Z) : string := "0x" +:+ hex_digits 16 n "".

(** ** Runes: [for _, r := range s] *)

Definition code (c : ascii) : Z := Z.of_nat (nat_of_ascii c).
Definition rune_error : Z := 65533.
Definition cont_byte (x : Z) : bool := (128 <=? x) && (x <=? 191).
(** The first two bytes of a three and a four byte rune ([unicode/utf8]'s
    accept ranges: no overlong form, no surrogate, nothing above U+10FFFF). *)
Definition lead3 (x y : Z) : bool :=
  ((x =? 224) && (160 <=? y) && (y <=? 191)) ||
  ((x =? 237) && (128 <=? y) && (y <=? 159)) ||
  ((225 <=? x) && (x <=? 239) && negb (x =? 237) && cont_byte y).
Definition lead4 (x y : Z) : bool :=
  ((x =? 240) && (144 <=? y) && (y <=? 191)) ||
  ((x =? 244) && (128 <=? y) && (y <=? 143)) ||
  ((241 <=? x) && (x <=? 243) && cont_byte y).

(** The runes of a string; a byte that starts no valid encoding is one
    [rune_error]. *)
Fixpoint runes (s : string) : list Z :=
  match s with
  | EmptyString => []
  | String a s1 =>
      let x := code a in
      if x <? 128 then x :: runes s1 else
      match s1 with
      | EmptyString => [rune_error]
      | String b s2 =>
          let y := code b in
          if (194 <=? x) && (x <=? 223) && cont_byte y
          then (x - 192) * 64 + (y - 128) :: runes s2 else
          match s2 with
          | EmptyString => rune_error :: runes s1
          | String c s3 =>
              let z := code c in
              if lead3 x y && cont_byte z
              then ((x - 224) * 64 + (y - 128)) * 64 + (z - 128) :: runes s3 else
              match s3 with
              | EmptyString => rune_error :: runes s1
              | String d s4 =>
                  let w := code d in
                  if lead4 x y && cont_byte z && cont_byte w
                  then (((x - 240) * 64 + (y - 128)) * 64 + (z - 128)) * 64 + (w - 128) :: runes s4
                  else rune_error :: runes s1
              end
          end
      end
  end.

(** [unicode.ToLower] where it lands in ASCII: the letters A to Z, U+0130
    (to i) and the Kelvin sign U+212A (to k).  Every other rune above ASCII
    lowers to a rune above ASCII and is left as it is here. *)
Definition lower_rune (r : Z) : Z :=
  if (65 <=? r) && (r <=? 90) then r + 32
  else if r =? 304 then 105
  else if r =? 8490 then 107
  else r.

(** ** Lemmas *)

Lemma app_cons_str c s t : String c s +:+ t = String c (s +:+ t).
Proof. done. Qed.
Lemma app_nil_str t : "" +:+ t = t.
Proof. done. Qed.
Lemma app_nil_r_str s : s +:+ "" = s.
Proof. induction s as [|c s IH]; [done|]. by rewrite app_cons_str, IH. Qed.

Lemma app_assoc_str s t u : s +:+ (t +:+ u) = (s +:+ t) +:+ u.
Proof. induction s as [|c s IH]; [done|]. by rewrite !app_cons_str, IH. Qed.

#[export] Hint Rewrite app_cons_str app_nil_str app_nil_r_str : go_str.
Ltac str := autorewrite with go_str in *.

Lemma string_cons_app c s : String c s = String c "" +:+ s.
Proof. done. Qed.

Lemma list_ascii_app s t :
  list_ascii_of_string (s +:+ t) = list_ascii_of_string s ++ list_ascii_of_string t.
Proof. induction s as [|c s IH]; [done|]. str. simpl. by rewrite IH. Qed.

Lemma all_bytes_app p s t : all_bytes p (s +:+ t) = all_bytes p s && all_bytes p t.
Proof.
  induction s as [|c s IH]; [done|].
  str. simpl. by rewrite IH, andb_assoc.
Qed.

Lemma all_bytes_impl (p q : ascii -> bool) s :
  (forall c, p c = true -> q c = true) -> all_bytes p s = true -> all_bytes q s = true.
Proof.
  intros Hpq. induction s as [|c s IH]; [done|]. simpl. intros H. bsimpl.
  rewrite Hpq by done. auto.
Qed.

Lemma strip_prefix_spec p s t : strip_prefix p s = Some t <-> s = p +:+ t.
Proof.
  revert s. induction p as [|a p IH]; intros s.
  { str. simpl. split; congruence. }
  str. destruct s as [|b s]; [done|]. simpl. destruct (Ascii.eqb_spec a b) as [->|Hne].
  - rewrite IH. split; [by intros ->|by intros [= ->]].
  - split; [done|]. intros [=]. by subst.
Qed.

Lemma has_prefix_spec s p : has_prefix s p = true <-> exists t, s = p +:+ t.
Proof.
  unfold has_prefix. destruct (strip_prefix p s) as [t|] eqn:E.
  - apply strip_prefix_spec in E. split; [by exists t|done].
  - split; [done|]. intros [t Ht]. apply strip_prefix_spec in Ht. congruence.
Qed.

(** Splitting never loses a byte, and splitting a join gives the parts back. *)
Lemma split_nonempty sep s : split sep s <> [].
Proof. destruct s; simpl; [done|]. repeat case_match; done. Qed.

Lemma join_cons sep x l : l <> [] -> join sep (x :: l) = x +:+ sep +:+ join sep l.
Proof. by destruct l. Qed.

Lemma join_split sep s : join (String sep "") (split sep s) = s.
Proof.
  induction s as [|c s IH]; [done|]. simpl.
  pose proof (split_nonempty sep s) as Hne.
  destruct (Ascii.eqb_spec c sep) as [->|].
  - rewrite join_cons by done. rewrite IH. done.
  - destruct (split sep s) as [|x xs] eqn:E; [done|].
    destruct xs as [|y ys]; [simpl in *; by rewrite IH|].
    rewrite join_cons in IH |- * by done. rewrite <- IH. done.
Qed.

Lemma has_byte_app c s t : has_byte c (s +:+ t) = has_byte c s || has_byte c t.
Proof.
  induction s as [|d s IH]; [done|].
  change (has_byte c (String d s +:+ t)) with (Ascii.eqb c d || has_byte c (s +:+ t)). rewrite IH. apply orb_assoc.
Qed.

Lemma split_no_sep sep s : Forall (fun x => has_byte sep x = false) (split sep s).
Proof.
  induction s as [|c s IH]; simpl; [by repeat constructor|].
  destruct (Ascii.eqb_spec c sep) as [->|Hne]; [by constructor|].
  destruct (split sep s) as [|x xs]; inv IH; constructor; simpl; try done.
  - by rewrite (proj2 (Ascii.eqb_neq sep c)) by congruence.
  - by rewrite (proj2 (Ascii.eqb_neq sep c)) by congruence.
Qed.

Lemma split_single sep x : has_byte sep x = false -> split sep x = [x].
Proof.
  induction x as [|c x IH]; [done|]. simpl. intros H. bsimpl.
  rewrite (proj2 (Ascii.eqb_neq c sep)), IH by congruence. done.
Qed.

Lemma split_app sep x s : has_byte sep x = false ->
  split sep (x +:+ String sep s) = x :: split sep s.
Proof.
  induction x as [|c x IH]; simpl; intros H.
  - by rewrite Ascii.eqb_refl.
  - bsimpl. str. simpl.
    rewrite (proj2 (Ascii.eqb_neq c sep)), IH by congruence. done.
Qed.

Lemma split_join sep l :
  l <> [] -> Forall (fun x => has_byte sep x = false) l ->
  split sep (join (String sep "") l) = l.
Proof.
  intros Hne HF. induction HF as [|x l Hx HF IH]; [done|].
  destruct l as [|y l]; [by apply split_single|].
  rewrite join_cons by done. change (String sep "" +:+ join (String sep "") (y :: l))
    with (String sep (join (String sep "") (y :: l))).
  rewrite split_app by done. by rewrite IH.
Qed.

Lemma join_inj sep l1 l2 :
  l1 <> [] -> l2 <> [] ->
  Forall (fun x => has_byte sep x = false) l1 ->
  Forall (fun x => has_byte sep x = false) l2 ->
  join (String sep "") l1 = join (String sep "") l2 -> l1 = l2.
Proof.
  intros H1 H2 F1 F2 E. rewrite <- (split_join sep l1), <- (split_join sep l2) by done.
  by rewrite E.
Qed.

Lemma cut_spec sep s :
  match cut sep s with
  | Some (b, a) => s = b +:+ String sep a /\ has_byte sep b = false
  | None => has_byte sep s = false
  end.
Proof.
  induction s as [|c s IH]; simpl; [done|].
  destruct (Ascii.eqb_spec c sep) as [->|Hne]; [done|].
  assert (Ascii.eqb sep c = false) as E by (by apply Ascii.eqb_neq).
  destruct (cut sep s) as [[b a]|]; simpl; rewrite E; [|done].
  destruct IH as [-> ->]. done.
Qed.

Lemma rev_str_involutive s : rev_str (rev_str s) = s.
Proof.
  unfold rev_str. rewrite list_ascii_of_string_of_list_ascii, rev_involutive.
  apply string_of_list_ascii_of_string.
Qed.

(** ** The order of Go strings *)

Lemma leb_refl_str s : String.leb s s = true.
Proof. destruct (String.leb_total s s); done. Qed.

Lemma ltb_trans_str x y z :
  String.ltb x y = true -> String.ltb y z = true -> String.ltb x z = true.
Proof.
  unfold String.ltb. intros H1 H2.
  destruct (String.compare x y) eqn:E1; try done.
  destruct (String.compare y z) eqn:E2; try done.
  assert (String.compare x z = Lt) as ->; [|done].
  apply OrderedTypeEx.String_as_OT.cmp_lt. apply OrderedTypeEx.String_as_OT.cmp_lt in E1, E2.
  by eapply OrderedTypeEx.String_as_OT.lt_trans.
Qed.

Lemma leb_ltb_or_eq s t : String.leb s t = true <-> String.ltb s t = true \/ s = t.
Proof.
  unfold String.leb, String.ltb. destruct (String.compare s t) eqn:E.
  - apply String.compare_eq_iff in E. tauto.
  - tauto.
  - split; [done|]. intros [?| ->]; [done|].
    pose proof (leb_refl_str t) as H. unfold String.leb in H. by rewrite E in H.
Qed.

Lemma ltb_irrefl_str s : String.ltb s s = false.
Proof.
  unfold String.ltb. pose proof (String.compare_antisym s s) as H. by destruct (String.compare s s).
Qed.

Lemma leb_trans_str x y z :
  String.leb x y = true -> String.leb y z = true -> String.leb x z = true.
Proof.
  rewrite !leb_ltb_or_eq. intros [H1| ->] [H2| ->]; eauto using ltb_trans_str.
Qed.
#[export] Hint Resolve leb_refl_str String.leb_total leb_trans_str : go.

(** [slices.Sort] on strings. *)
Definition sort_strings : list string -> list string := sort String.leb.

Lemma sort_strings_sorted l :
  StronglySorted (fun a b => String.leb a b = true) (sort_strings l).
Proof. apply sort_sorted; [apply String.leb_total|apply leb_trans_str]. Qed.

(** ** ASCII strings *)

Definition is_ascii (c : ascii) : bool := code c <? 128.

Lemma code_bounds c : 0 <= code c < 256.
Proof. unfold code. pose proof (nat_ascii_bounded c). lia. Qed.

Lemma byte_in_spec lo hi c : byte_in lo hi c = true <-> code lo <= code c <= code hi.
Proof.
  unfold byte_in, code. rewrite andb_true_iff, !Nat.leb_le. lia.
Qed.

Lemma runes_ascii s : all_bytes is_ascii s = true -> runes s = map code (list_ascii_of_string s).
Proof.
  induction s as [|c s IH]; [done|]. simpl. intros H. bsimpl. unfold is_ascii in H.
  by rewrite H, IH.
Qed.

Definition rune_byte (r : Z) : ascii := ascii_of_nat (Z.to_nat r).
Lemma rune_byte_code c : rune_byte (code c) = c.
Proof. unfold rune_byte, code. by rewrite Nat2Z.id, ascii_nat_embedding. Qed.

(** [strings.Builder.WriteRune], [utf8.AppendRune]. *)
Definition write_rune (r : Z) : string :=
  let r := if (r <? 0) || (1114111 <? r) || ((55296 <=? r) && (r <=? 57343)) then rune_error else r in
  if r <? 128 then String (rune_byte r) ""
  else if r <? 2048 then String (rune_byte (192 + r / 64)) (String (rune_byte (128 + r mod 64)) "")
  else if r <? 65536 then
    String (rune_byte (224 + r / 4096)) (String (rune_byte (128 + r / 64 mod 64)) (String (rune_byte (128 + r mod 64)) ""))
  else String (rune_byte (240 + r / 262144)) (String (rune_byte (128 + r / 4096 mod 64))
         (String (rune_byte (128 + r / 64 mod 64)) (String (rune_byte (128 + r mod 64)) ""))).
Definition write_runes (rs : list Z) : string := foldr (fun r s => write_rune r +:+ s) "" rs.

(** ** Slices of a string: [s[n:]] and [s[:n]], cut short at its end. *)
Fixpoint str_drop (n : nat) (s : string) : string :=
  match n, s with
  | O, _ => s
  | S n, String _ s => str_drop n s
  | S _, EmptyString => ""
  end.
Fixpoint str_take (n : nat) (s : string) : string :=
  match n, s with
  | S n, String c s => String c (str_take n s)
  | _, _ => ""
  end.

Lemma str_take_drop n s : str_take n s +:+ str_drop n s = s.
Proof. revert s. induction n as [|n IH]; intros [|c s]; simpl; [done..|]. rewrite app_cons_str. by rewrite IH. Qed.

Lemma str_drop_add n m s : str_drop m (str_drop n s) = str_drop (n + m) s.
Proof. revert s. induction n as [|n IH]; intros [|c s]; simpl; [done..| |done]. by destruct m. Qed.

Lemma str_take_length n s : String.length (str_take n s) = Nat.min n (String.length s).
Proof. revert s. induction n as [|n IH]; intros [|c s]; simpl; [done..|]. by rewrite IH. Qed.

Lemma str_drop_length n s : String.length (str_drop n s) = (String.length s - n)%nat.
Proof. revert s. induction n as [|n IH]; intros [|c s]; simpl; [done..|]. by rewrite IH. Qed.

Lemma str_drop_all n s : (String.length s <= n)%nat -> str_drop n s = "".
Proof. revert s. induction n as [|n IH]; intros [|c s] Hl; simpl in *; [done|lia|done|]. apply IH. lia. Qed.

Lemma str_drop_app p q : str_drop (String.length p) (p +:+ q) = q.
Proof. induction p as [|c p IH]; [by destruct q|]. rewrite app_cons_str. exact IH. Qed.

(** Nothing to trim in ASCII text without white space. *)
Definition dense (c : ascii) : bool := is_ascii c && negb (space1 c).

Lemma space2_ascii a b : is_ascii a = true -> space2 a b = false.
Proof.
  unfold is_ascii, code, space2. intros Ha. bsimpl. destruct (Nat.eqb_spec (nat_of_ascii a) 194); [lia|done].
Qed.

Lemma space3_ascii a b c : is_ascii a = true -> space3 a b c = false.
Proof.
  unfold is_ascii, code, space3. intros Ha. bsimpl. set (n := nat_of_ascii a) in *. clearbody n.
  do 128 (destruct n as [|n]; [done|]). lia.
Qed.

Lemma trim_left_dense flip s : all_bytes dense s = true -> trim_left flip s = s.
Proof.
  unfold dense. destruct s as [|a [|b [|c s]]]; simpl; [done|..]; intros H; bsimpl;
    repeat match goal with H : space1 _ = false |- _ => rewrite H; clear H end; [done|..];
    destruct flip; rewrite ?space2_ascii, ?space3_ascii; done.
Qed.

Lemma all_bytes_rev p s : all_bytes p (rev_str s) = all_bytes p s.
Proof.
  unfold rev_str. assert (forall a, all_bytes p a = forallb p (list_ascii_of_string a)) as Hf.
  { induction a as [|c a IH]; simpl; [done|]. by rewrite IH. }
  rewrite !Hf, list_ascii_of_string_of_list_ascii. apply eq_true_iff_eq. rewrite !forallb_forall.
  setoid_rewrite <- in_rev. done.
Qed.

Lemma trim_space_dense s : all_bytes dense s = true -> trim_space s = s.
Proof.
  intros Hs. unfold trim_space. rewrite (trim_left_dense false) by done.
  rewrite trim_left_dense by (by rewrite all_bytes_rev). apply rev_str_involutive.
Qed.

Lemma length_app_str s t : String.length (s +:+ t) = (String.length s + String.length t)%nat.
Proof. induction s as [|c s IH]; [done|]. rewrite app_cons_str. simpl. by rewrite IH. Qed.

Lemma rev_str_app s t : rev_str (s +:+ t) = rev_str t +:+ rev_str s.
Proof.
  unfold rev_str. rewrite list_ascii_app, rev_app_distr. generalize (rev (list_ascii_of_string t)) (rev (list_ascii_of_string s)).
  intros l m. induction l as [|c l IH]; [done|]. cbn [app string_of_list_ascii]. by rewrite IH, app_cons_str.
Qed.
