(* ===== verification/GoTrim.v ===== *)
(** * Facts on [strings.TrimSpace] *)
From S2P Require Import Prelude GoStrings.

(** ** One rune of white space *)

(** The bytes of the white space rune [s] starts with. *)
Definition lead (flip : bool) (s : string) : nat :=
  match s with
  | EmptyString => 0
  | String a s1 =>
      if space1 a then 1
      else match s1 with
      | EmptyString => 0
      | String b s2 =>
          if (if flip then space2 b a else space2 a b) then 2
          else match s2 with
          | EmptyString => 0
          | String c _ => if (if flip then space3 c b a else space3 a b c) then 3 else 0
          end
      end
  end%nat.

Lemma trim_lead0 flip s : lead flip s = 0%nat -> trim_left flip s = s.
Proof. destruct s as [|a [|b [|c s]]]; cbn; repeat case_match; done. Qed.

Lemma trim_left_ind flip (P : string -> string -> Prop) :
  (forall s, lead flip s = 0%nat -> P s s) ->
  (forall p s t, (0 < String.length p)%nat -> P s t -> P (p +:+ s) t) ->
  forall s, P s (trim_left flip s).
Proof.
  intros H0 Hs. enough (forall n s, (String.length s <= n)%nat -> P s (trim_left flip s)) as H by (intros s; by apply (H (String.length s))).
  induction n as [|n IH]; intros [|a s]; cbn [String.length]; intros Hn; [by apply H0|lia|by apply H0|].
  cbn [trim_left]. destruct (space1 a) eqn:E1; [apply (Hs (String a "") s); [cbn; lia|apply IH; lia]|].
  destruct s as [|b s]; [apply H0; cbn; by rewrite E1|]. cbn [String.length] in Hn.
  destruct (if flip then _ else _) eqn:E2; [apply (Hs (String a (String b "")) s); [cbn; lia|apply IH; lia]|].
  destruct s as [|c s]; [apply H0; cbn; by rewrite E1, E2|]. cbn [String.length] in Hn.
  destruct (if flip then space3 _ _ _ else _) eqn:E3; [apply (Hs (String a (String b (String c ""))) s); [cbn; lia|apply IH; lia]|].
  apply H0. cbn. by rewrite E1, E2, E3.
Qed.

Lemma trim_left_suffix flip s : exists p, s = p +:+ trim_left flip s.
Proof. apply (trim_left_ind flip (fun s t => exists p, s = p +:+ t)); [by exists ""|]. intros p x t _ [q ->]. exists (p +:+ q). by rewrite app_assoc_str. Qed.

Lemma trim_left_lead flip s : lead flip (trim_left flip s) = 0%nat.
Proof. by apply (trim_left_ind flip (fun s t => lead flip t = 0%nat)). Qed.

(** A prefix starts with no more white space than the whole. *)
Lemma lead_prefix flip s t : lead flip (s +:+ t) = 0%nat -> lead flip s = 0%nat.
Proof.
  destruct s as [|a [|b [|c s]]]; [done|..]; rewrite ?app_cons_str; cbn; repeat case_match; done.
Qed.

(** ** [TrimSpace] *)

(** Nothing to trim on either side. *)
Definition tidy (s : string) : Prop := lead false s = 0%nat /\ lead true (rev_str s) = 0%nat.

Lemma tidy_trim s : tidy s -> trim_space s = s.
Proof. intros [H1 H2]. unfold trim_space. rewrite (trim_lead0 false), (trim_lead0 true) by done. apply rev_str_involutive. Qed.

Lemma trim_tidy s : tidy (trim_space s).
Proof.
  unfold trim_space, tidy. rewrite rev_str_involutive. split; [|apply trim_left_lead].
  set (y := trim_left false s). destruct (trim_left_suffix true (rev_str y)) as [p Ep].
  apply (f_equal rev_str) in Ep. rewrite rev_str_involutive, rev_str_app in Ep.
  apply (lead_prefix false _ (rev_str p)). rewrite <-Ep. apply trim_left_lead.
Qed.

Lemma trim_space_tidy s : trim_space s = s <-> tidy s.
Proof. split; [intros <-; apply trim_tidy|apply tidy_trim]. Qed.

Lemma has_byte_rev sep s : has_byte sep (rev_str s) = has_byte sep s.
Proof.
  assert (forall t, has_byte sep t = negb (all_bytes (fun c => negb (Ascii.eqb sep c)) t)) as Hf.
  { induction t as [|c t IH]; [done|]. cbn [has_byte all_bytes]. rewrite IH. by destruct (Ascii.eqb sep c). }
  by rewrite !Hf, all_bytes_rev.
Qed.

Lemma trim_space_no c s : has_byte c s = false -> has_byte c (trim_space s) = false.
Proof.
  intros H. unfold trim_space. rewrite has_byte_rev. destruct (trim_left_suffix true (rev_str (trim_left false s))) as [p Ep].
  destruct (trim_left_suffix false s) as [q Eq]. rewrite Eq, has_byte_app in H. apply orb_false_iff in H as [_ H].
  rewrite <-has_byte_rev, Ep, has_byte_app in H. by apply orb_false_iff in H as [_ H].
Qed.

(** An ASCII byte is no byte of a longer white space rune. *)
Lemma ascii_alone d b c : is_ascii d = true ->
  space2 d b = false /\ space3 d b c = false /\ space2 b d = false /\ space3 b d c = false /\ space3 b c d = false.
Proof.
  intros Hd. split_and!; [by apply space2_ascii|by apply space3_ascii|..]; revert Hd.
  - destruct d as [[] [] [] [] [] [] [] []]; try discriminate; intros _; unfold space2; apply andb_false_r.
  - destruct b as [[] [] [] [] [] [] [] []]; try reflexivity; destruct d as [[] [] [] [] [] [] [] []]; (discriminate || reflexivity).
  - destruct b as [[] [] [] [] [] [] [] []]; try reflexivity; destruct c as [[] [] [] [] [] [] [] []]; try reflexivity;
      destruct d as [[] [] [] [] [] [] [] []]; (discriminate || reflexivity).
Qed.

(** What follows an ASCII byte does not change what text starts with. *)
Lemma lead_more flip s t d : is_ascii d = true -> s <> "" -> lead flip s = 0%nat -> lead flip (s +:+ String d t) = 0%nat.
Proof.
  intros Hd Hne. destruct s as [|a [|b [|c s]]]; [done|..]; rewrite ?app_cons_str; change (String.append "" (String d t)) with (String d t);
    unfold lead; destruct (space1 a); try done.
  - destruct (ascii_alone d a a Hd) as (H1 & _ & H2 & _). rewrite H1, H2. destruct t as [|e t]; [by destruct flip|].
    destruct (ascii_alone d e a Hd) as (_ & _ & _ & H3 & _). destruct (ascii_alone d a e Hd) as (_ & _ & _ & H4 & _). rewrite H3, H4. by destruct flip.
  - destruct (ascii_alone d b a Hd) as (_ & H1 & _). destruct (ascii_alone d a b Hd) as (_ & _ & _ & _ & H2). rewrite H1, H2.
    destruct (if flip then space2 b a else space2 a b); [done|]. by destruct flip.
Qed.
