(* ===== verification/Errs.v ===== *)
(** * The error vocabulary ([internal/service/errs/errs.go])

    A message is kept as its format and arguments: the package's rule is that
    nothing branches on an error's words, so no definition renders one. *)
From S2P Require Import Prelude GoStrings.

(** The errors of the service layer.  [Errorf] is [fmt.Errorf] without [%w],
    [Wrap] with it, [JoinErr] is [errors.Join], [New] an [errors.New]
    sentinel, named by its variable. *)
Inductive error : Type :=
  | ErrNotFound
  | ErrRefused
  | ErrBusy
  | Conflict (m : msg)
  | Refused (m : msg)
  | Invalid (field label : string) (m : msg) (line : Z)
  | Unset (param : string)
  | NeedsApproval (stack what : string)
  | TooLarge (m : msg)
  | Errorf (m : msg)
  | Wrap (m : msg) (e : error)
  | JoinErr (es : list error)
  | New (name : string)
with msg : Type :=
  | Sprintf (fmt : string) (args : list arg)
with arg : Type :=
  | AStr (s : string)
  | AInt (n : Z)
  | AErr (e : error).

Coercion AStr : string >-> arg.
Coercion AInt : Z >-> arg.
Definition text (s : string) : msg := Sprintf s [].

Abbreviation res := (result error).

Definition Refusedf (f : string) (a : list arg) : error := Refused (Sprintf f a).
Definition Conflictf (f : string) (a : list arg) : error := Conflict (Sprintf f a).
Definition Invalidf (field f : string) (a : list arg) : error :=
  Invalid field "" (Sprintf f a) 0.

(** Induction that reaches the errors inside a join. *)
Section ErrorInd.
Context (P : error -> Prop).
Context (Hleaf : forall e, match e with Wrap _ _ | JoinErr _ => True | _ => P e end).
Context (Hwrap : forall m e, P e -> P (Wrap m e)).
Context (Hjoin : forall es, Forall P es -> P (JoinErr es)).

Fixpoint error_nested_ind (e : error) : P e :=
  match e return P e with
  | Wrap m e => Hwrap m e (error_nested_ind e)
  | JoinErr es =>
      Hjoin es ((fix go (es : list error) : Forall P es :=
                 match es return Forall P es with
                 | [] => Forall_nil_2 P
                 | e :: es => Forall_cons_2 P e es (error_nested_ind e) (go es)
                 end) es)
  | e => Hleaf e
  end.
End ErrorInd.

(** [errors.As] for a target type recognised by [sel]: the error itself, then
    what it wraps, depth first. *)
Section As.
Context {T : Type} (sel : error -> option T).

Fixpoint errors_as (e : error) : option T :=
  match sel e with
  | Some t => Some t
  | None =>
      match e with
      | Wrap _ e => errors_as e
      | JoinErr es =>
          (fix go es := match es with
           | [] => None
           | e :: es => match errors_as e with Some t => Some t | None => go es end
           end) es
      | _ => None
      end
  end.
End As.

Definition sel_invalid (e : error) : option (string * string * msg * Z) :=
  match e with Invalid f l m n => Some (f, l, m, n) | _ => None end.
Definition IsInvalid : error -> option (string * string * msg * Z) := errors_as sel_invalid.
Definition IsConflict : error -> option msg :=
  errors_as (fun e => match e with Conflict m => Some m | _ => None end).
Definition IsUnset : error -> option string :=
  errors_as (fun e => match e with Unset p => Some p | _ => None end).
Definition IsNeedsApproval : error -> option (string * string) :=
  errors_as (fun e => match e with NeedsApproval s w => Some (s, w) | _ => None end).
Definition IsTooLarge : error -> option msg :=
  errors_as (fun e => match e with TooLarge m => Some m | _ => None end).

(** [errors.Is(err, target)] for the sentinels; [Refused.Is] answers true for
    [ErrRefused]. *)
Definition is_refused : error -> bool := fun e =>
  match errors_as (fun e => match e with
    | ErrRefused | Refused _ => Some tt | _ => None end) e with Some _ => true | None => false end.
Definition is_not_found : error -> bool := fun e =>
  match errors_as (fun e => match e with
    | ErrNotFound => Some tt | _ => None end) e with Some _ => true | None => false end.
Definition is_sentinel (name : string) : error -> bool := fun e =>
  match errors_as (fun e => match e with
    | New n => if String.eqb n name then Some tt else None | _ => None end) e
  with Some _ => true | None => false end.

(** Every [Invalid] in an error, in order: the walk of [Invalids]. *)
Fixpoint Invalids (e : error) : list (string * string * msg * Z) :=
  match e with
  | Invalid f l m n => [(f, l, m, n)]
  | Wrap _ e => Invalids e
  | JoinErr es =>
      (fix go es := match es with [] => [] | e :: es => Invalids e ++ go es end) es
  | _ => []
  end.

(** [errors.Join(errs...)]: nil (here [None]) when every error is nil. *)
Definition errors_join (es : list error) : option error :=
  match es with [] => None | _ => Some (JoinErr es) end.

(** A save refused on several fields reports all of them, and the first
    one reported is the one the single-error test [IsInvalid] finds: the walk
    of [Invalids] and the walk of [errors.As] visit errors in the same order,
    whatever is wrapped or joined. *)
Theorem IsInvalid_head_Invalids e : IsInvalid e = head (Invalids e).
Proof.
  revert e. apply error_nested_ind; [by intros []|by intros m e IH|]. intros es IH.
  unfold IsInvalid in *. induction IH as [|e es He _ IHes]; [done|].
  simpl in *. rewrite He, IHes. by destruct (Invalids e).
Qed.
