(* ===== verification/Regexp.v ===== *)
(** * Go's [regexp] on the patterns the program compiles

    The program's anchored patterns are regular expressions in the textbook
    sense, so [MatchString] is modelled by Brzozowski derivatives.
    [re_match_lang] says that the matcher decides the language [lang], the
    reading every theorem about names uses. *)
From S2P Require Import Prelude GoStrings.

Inductive re : Type :=
  | RNone
  | REps
  | RChr (p : ascii -> bool)
  | RCat (r s : re)
  | RAlt (r s : re)
  | RStar (r : re).

Definition RPlus (r : re) : re := RCat r (RStar r).
Definition ROpt (r : re) : re := RAlt REps r.
Fixpoint RStr (s : string) : re :=
  match s with
  | EmptyString => REps
  | String c s => RCat (RChr (Ascii.eqb c)) (RStr s)
  end.
(** [r{n}] *)
Fixpoint RRep (n : nat) (r : re) : re :=
  match n with O => REps | S n => RCat r (RRep n r) end.
(** [r{0,n}] *)
Fixpoint RUpTo (n : nat) (r : re) : re :=
  match n with O => REps | S n => ROpt (RCat r (RUpTo n r)) end.

Inductive lang : re -> string -> Prop :=
  | lang_eps : lang REps ""
  | lang_chr p c : p c = true -> lang (RChr p) (String c "")
  | lang_cat r s x y : lang r x -> lang s y -> lang (RCat r s) (x +:+ y)
  | lang_alt_l r s x : lang r x -> lang (RAlt r s) x
  | lang_alt_r r s x : lang s x -> lang (RAlt r s) x
  | lang_star_nil r : lang (RStar r) ""
  | lang_star_cons r x y : lang r x -> lang (RStar r) y -> lang (RStar r) (x +:+ y).

Fixpoint nullable (r : re) : bool :=
  match r with
  | RNone | RChr _ => false
  | REps | RStar _ => true
  | RCat r s => nullable r && nullable s
  | RAlt r s => nullable r || nullable s
  end.

Fixpoint deriv (c : ascii) (r : re) : re :=
  match r with
  | RNone | REps => RNone
  | RChr p => if p c then REps else RNone
  | RCat r s =>
      if nullable r then RAlt (RCat (deriv c r) s) (deriv c s) else RCat (deriv c r) s
  | RAlt r s => RAlt (deriv c r) (deriv c s)
  | RStar r => RCat (deriv c r) (RStar r)
  end.

Fixpoint re_match (r : re) (s : string) : bool :=
  match s with
  | EmptyString => nullable r
  | String c s => re_match (deriv c r) s
  end.

Lemma nullable_lang r : nullable r = true <-> lang r "".
Proof.
  split.
  - induction r as [| |p|r1 IH1 r2 IH2|r1 IH1 r2 IH2|r IH]; simpl; intros H; try done.
    + constructor.
    + bsimpl. change "" with ("" +:+ ""). constructor; auto.
    + apply orb_true_iff in H as [H|H]; [apply lang_alt_l|apply lang_alt_r]; auto.
    + constructor.
  - intros H. remember "" as s eqn:E. revert E.
    induction H as [|p c Hp|r s x y Hx IHx Hy IHy|r s x Hx IHx|r s x Hx IHx|r|r x y]; simpl;
      try done; intros E.
    + destruct x; [|done]. rewrite IHx, IHy; done.
    + rewrite IHx; done.
    + rewrite IHx, orb_true_r; done.
Qed.

Lemma star_cons_inv r c s :
  lang (RStar r) (String c s) ->
  exists x y, s = x +:+ y /\ lang r (String c x) /\ lang (RStar r) y.
Proof.
  intros H. remember (RStar r) as r' eqn:Er. remember (String c s) as t eqn:Et.
  revert Er c s Et.
  induction H as [| | | | | |r' x y Hx _ Hy IHy]; intros [= ->] a u Et; [done|].
  destruct x as [|d x]; str; [by eapply IHy|].
  injection Et as -> <-. by exists x, y.
Qed.

Lemma deriv_lang c r s : lang (deriv c r) s <-> lang r (String c s).
Proof.
  revert s. induction r as [| |p|r1 IH1 r2 IH2|r1 IH1 r2 IH2|r IH]; intros s; simpl.
  - split; intros H; inv H.
  - split; intros H; inv H.
  - split.
    + case_match eqn:E; intros H; inv H. by constructor.
    + intros H. inv H. case_match; [constructor|congruence].
  - assert (lang (RCat (deriv c r1) r2) s <->
      exists x y, s = x +:+ y /\ lang r1 (String c x) /\ lang r2 y) as Hcat.
    { split.
      - intros H. inv H. do 2 eexists. split; [done|]. by rewrite <- IH1.
      - intros (x & y & -> & Hx & Hy). constructor; [by apply IH1|done]. }
    assert (lang (RCat r1 r2) (String c s) <->
      (nullable r1 = true /\ lang r2 (String c s)) \/
      exists x y, s = x +:+ y /\ lang r1 (String c x) /\ lang r2 y) as ->.
    { rewrite nullable_lang. split.
      - intros H. remember (String c s) as t eqn:Et. inv H.
        destruct x as [|d x]; str; simplify_eq; [by left|right]. by exists x, y.
      - intros [[H1 H2]|(x & y & -> & Hx & Hy)].
        + change (String c s) with ("" +:+ String c s). by constructor.
        + rewrite <- app_cons_str. by constructor. }
    destruct (nullable r1) eqn:En.
    + rewrite <- Hcat, <- IH2. split.
      * intros H. inv H; [by right|by left].
      * intros [[_ H]|H]; [by apply lang_alt_r|by apply lang_alt_l].
    + rewrite Hcat. split; [by right|]. intros [[? _]|H]; done.
  - split; intros H; inv H.
    + apply lang_alt_l. by apply IH1.
    + apply lang_alt_r. by apply IH2.
    + apply lang_alt_l. by apply IH1.
    + apply lang_alt_r. by apply IH2.
  - split.
    + intros H. inv H. rewrite <- app_cons_str. constructor; [by apply IH|done].
    + intros H. apply star_cons_inv in H as (x & y & -> & Hx & Hy).
      constructor; [by apply IH|done].
Qed.

(** The matcher decides the language of the pattern. *)
Lemma re_match_lang r s : re_match r s = true <-> lang r s.
Proof.
  revert r. induction s as [|c s IH]; intros r; simpl; [apply nullable_lang|].
  rewrite IH. apply deriv_lang.
Qed.

(** ** Reading common shapes *)

Lemma star_chr_lang p s : lang (RStar (RChr p)) s <-> all_bytes p s = true.
Proof.
  split.
  - intros H. remember (RStar (RChr p)) as r eqn:E. revert E.
    induction H as [| | | | | |r x y Hx _ Hy IHy]; intros [=]; subst; [done|].
    inv Hx. str. simpl. by rewrite H0, IHy.
  - induction s as [|c s IH]; simpl; intros H; [constructor|]. bsimpl.
    rewrite string_cons_app. constructor; [by constructor|auto].
Qed.

Lemma plus_chr_lang p s :
  lang (RPlus (RChr p)) s <-> s <> "" /\ all_bytes p s = true.
Proof.
  unfold RPlus. split.
  - intros H. inv H. inv H2. str. apply star_chr_lang in H4. simpl.
    by rewrite H0, H4.
  - intros [Hne H]. destruct s as [|c s]; [done|]. simpl in H. bsimpl.
    rewrite string_cons_app. constructor; [by constructor|by apply star_chr_lang].
Qed.

Lemma star_app r x y : lang (RStar r) x -> lang (RStar r) y -> lang (RStar r) (x +:+ y).
Proof.
  intros H. remember (RStar r) as r' eqn:E. revert E.
  induction H as [| | | | | |r' x1 x2 Hx _ Hy IHy]; intros [=]; subst; str; [done|].
  intros H2. rewrite <- app_assoc_str. constructor; auto.
Qed.

Lemma star_one r x : lang r x -> lang (RStar r) x.
Proof. intros H. rewrite <- (app_nil_r_str x). by repeat constructor. Qed.
