(* ===== verification/Slug.v ===== *)
(** * Names ([internal/service/internal/slug/slug.go])

    The one grammar of names: slugs for orgs, stacks, envs and tiles, POSIX
    names for params.  [Make] turns a display name into a slug. *)
From S2P Require Import Prelude GoStrings Regexp.

Definition slug_byte (c : ascii) : bool := is_lower c || is_digit c.
Definition name_head (c : ascii) : bool :=
  is_upper c || is_lower c || Ascii.eqb c "_".
Definition name_byte (c : ascii) : bool := name_head c || is_digit c.

(** [^[a-z0-9]+(-[a-z0-9]+)*$] *)
Definition slugRe : re :=
  RCat (RPlus (RChr slug_byte))
       (RStar (RCat (RChr (Ascii.eqb "-")) (RPlus (RChr slug_byte)))).
(** [^[A-Za-z_][A-Za-z0-9_]*$] *)
Definition envRe : re := RCat (RChr name_head) (RStar (RChr name_byte)).

(** ** Make *)

(** A rune that goes into a slug as it is. *)
Definition slug_rune (r : Z) : bool :=
  ((97 <=? r) && (r <=? 122)) || ((48 <=? r) && (r <=? 57)).

(** One turn of [Make]'s loop; [b] is the builder's content. *)
Definition make_step (st : string * bool) (r : Z) : string * bool :=
  let '(b, dash) := st in
  if slug_rune r then
    let b := if dash && (0 <? slen b) then b +:+ "-" else b in
    (b +:+ String (rune_byte r) "", false)
  else (b, true).

Definition Make (name : string) : string :=
  fst (fold_left make_step (map lower_rune (runes name)) ("", false)).

Definition Valid (s : string) : bool := re_match slugRe s.
Definition Reserved (s : string) : bool := String.eqb s "params" || String.eqb s "all".

Definition routeReserved : list string :=
  ["metrics"; "admin"; "login"; "logout"; "api"; "hooks"; "join"; "invite"; "cli";
   "account"; "static"; "dev"; "settings"; "setup"; "-"].
Definition RouteReserved (s : string) : bool := contains routeReserved s.

Definition ValidName (s : string) : bool := re_match envRe s.
Definition ValidEnvKey (s : string) : bool := re_match envRe s.

(** ** Suggest *)

Definition suggest_rune (r : Z) : ascii :=
  if ((97 <=? r) && (r <=? 122)) || ((65 <=? r) && (r <=? 90)) || ((48 <=? r) && (r <=? 57))
  then rune_byte r else "_"%char.

Definition Suggest (s : string) : string :=
  let out := trim_byte "_" (string_of_list_ascii (map suggest_rune (runes s))) in
  match out with
  | EmptyString => "my_value"
  | String c _ => if is_digit c then "_" +:+ out else out
  end.

(** The org slug a hostname would squat; "" for a single label. *)
Definition OfHost (host : string) : string :=
  match cut "." (trim_prefix host "*.") with
  | Some (label, _) => label
  | None => ""
  end.

(** ** The language of slugs *)

Definition dash_seg : re := RCat (RChr (Ascii.eqb "-")) (RPlus (RChr slug_byte)).

Lemma Valid_lang s : Valid s = true <-> lang slugRe s.
Proof. apply re_match_lang. Qed.

(** A slug is a run of slug bytes and a tail of [-run] parts. *)
Lemma slug_split s :
  Valid s = true <->
  exists h t, s = h +:+ t /\ h <> "" /\ all_bytes slug_byte h = true /\ lang (RStar dash_seg) t.
Proof.
  rewrite Valid_lang. split.
  - intros H. inv H. apply plus_chr_lang in H2 as [??]. by eexists _, _.
  - intros (h & t & -> & ? & ? & ?). constructor; [by apply plus_chr_lang|done].
Qed.

Lemma Valid_grow s c : Valid s = true -> slug_byte c = true -> Valid (s +:+ String c "") = true.
Proof.
  rewrite !Valid_lang. intros H Hc. unfold slugRe in *. inv H.
  apply plus_chr_lang in H2 as [Hne Hx].
  remember (RStar _) as r eqn:Er. revert Er.
  assert (forall y, lang (RStar dash_seg) y ->
    y = "" \/ lang (RStar dash_seg) (y +:+ String c "")) as Hgrow.
  { clear -Hc. intros y Hy. remember (RStar dash_seg) as r eqn:E. revert E.
    induction Hy as [| | | | | |r x y Hx _ Hy IHy]; intros [=]; subst; [by left|right].
    destruct (IHy eq_refl) as [->|IH].
    - str. rewrite <- (app_nil_r_str (x +:+ _)). constructor; [|constructor].
      inv Hx. rewrite <- app_assoc_str. constructor; [done|].
      apply plus_chr_lang in H3 as [? Hb]. apply plus_chr_lang. split.
      + by destruct y.
      + rewrite all_bytes_app, Hb. simpl. by rewrite Hc.
    - rewrite <- app_assoc_str. by constructor. }
  intros ->. destruct (Hgrow _ H4) as [->|Hy].
  - str. rewrite <- (app_nil_r_str (x +:+ String c "")).
    constructor; [|constructor]. apply plus_chr_lang. split; [by destruct x|].
    rewrite all_bytes_app, Hx. simpl. by rewrite Hc.
  - rewrite <- app_assoc_str. constructor; [by apply plus_chr_lang|done].
Qed.

Lemma Valid_dash b c :
  Valid b = true -> slug_byte c = true -> Valid (b +:+ "-" +:+ String c "") = true.
Proof.
  rewrite slug_split, Valid_lang. intros (h & t & -> & Hne & Hh & Ht) Hc.
  rewrite <- app_assoc_str. constructor; [by apply plus_chr_lang|].
  apply star_app; [done|]. apply star_one. constructor; [by constructor|].
  apply plus_chr_lang. simpl. by rewrite Hc.
Qed.

Lemma Valid_one c : slug_byte c = true -> Valid (String c "") = true.
Proof. intros Hc. unfold Valid. simpl. by rewrite Hc. Qed.

Lemma slug_byte_code c : slug_byte c = slug_rune (code c).
Proof.
  apply eq_true_iff_eq. unfold slug_byte, slug_rune, is_lower, is_digit.
  rewrite !orb_true_iff, !byte_in_spec, !andb_true_iff, !Z.leb_le. done.
Qed.

Lemma rune_byte_slug r : slug_rune r = true -> slug_byte (rune_byte r) = true.
Proof.
  intros H. rewrite slug_byte_code.
  assert (0 <= r < 256) as Hr.
  { unfold slug_rune in H. apply orb_true_iff in H as [H|H]; bsimpl; lia. }
  replace (code (rune_byte r)) with r; [done|].
  unfold code, rune_byte. rewrite nat_ascii_embedding; lia.
Qed.

(** What the builder holds at any point of the loop: nothing, or a slug. *)
Definition made (b : string) : Prop := b = "" \/ Valid b = true.

Lemma make_step_made st r : made (fst st) -> made (fst (make_step st r)).
Proof.
  destruct st as [b dash]. simpl. intros Hb. unfold make_step.
  destruct (slug_rune r) eqn:Er; [|done]. right. simpl.
  apply rune_byte_slug in Er. destruct Hb as [->|Hb].
  - rewrite andb_false_r. by apply Valid_one.
  - case_match; [|by apply Valid_grow]. rewrite <- app_assoc_str. by apply Valid_dash.
Qed.

Lemma make_loop_made rs st : made (fst st) -> made (fst (fold_left make_step rs st)).
Proof. revert st. induction rs; simpl; auto using make_step_made. Qed.

(** Whatever the display name, [Make] returns a slug of the grammar
    [Valid] accepts, or the empty string for a name with no letter or digit;
    so every name that passes the empty check is a valid slug. *)
Theorem Make_valid name : Make name = "" \/ Valid (Make name) = true.
Proof. apply make_loop_made. by left. Qed.

Lemma slug_byte_ascii c : slug_byte c = true -> is_ascii c = true /\ lower_rune (code c) = code c.
Proof.
  rewrite slug_byte_code. unfold slug_rune, is_ascii, lower_rune. intros H.
  apply orb_true_iff in H as [H|H]; bsimpl; split; try (apply Z.ltb_lt; lia).
  all: repeat case_match; bsimpl; lia.
Qed.

(** The loop on a run of slug bytes, with no pending hyphen. *)
Lemma make_run h b :
  all_bytes slug_byte h = true ->
  fold_left make_step (map lower_rune (map code (list_ascii_of_string h))) (b, false)
  = (b +:+ h, false).
Proof.
  revert b. induction h as [|c h IH]; intros b; simpl; [by str|].
  intros H. bsimpl. destruct (slug_byte_ascii _ H) as [_ ->].
  rewrite <- slug_byte_code, H, rune_byte_code, IH by done.
  by rewrite <- app_assoc_str.
Qed.

Lemma make_tail t b :
  lang (RStar dash_seg) t -> b <> "" ->
  fold_left make_step (map lower_rune (map code (list_ascii_of_string t))) (b, false)
  = (b +:+ t, false).
Proof.
  intros H. remember (RStar dash_seg) as r eqn:E. revert E b.
  induction H as [| | | | | |r x y Hx _ Hy IHy]; intros [=] b Hb; subst; [by str|].
  inv Hx. inv H1. apply Ascii.eqb_eq in H0 as <-. apply plus_chr_lang in H3 as [Hne Ha].
  destruct y0 as [|c y0]; [done|]. simpl in Ha. bsimpl. str. simpl.
  destruct (slug_byte_ascii _ H) as [_ ->].
  rewrite <- slug_byte_code, H, rune_byte_code. destruct b as [|d b]; [done|]. simpl.
  rewrite list_ascii_app, !map_app, fold_left_app, make_run, IHy by done.
  f_equal. rewrite <- !app_assoc_str. by str.
Qed.

Lemma slug_ascii s : Valid s = true -> all_bytes is_ascii s = true.
Proof.
  rewrite slug_split. intros (h & t & -> & _ & Hh & Ht). rewrite all_bytes_app.
  assert (forall c, slug_byte c = true -> is_ascii c = true) as Hsa by (intros c; apply slug_byte_ascii).
  rewrite (all_bytes_impl slug_byte) by done. simpl.
  remember (RStar dash_seg) as r eqn:E. revert E.
  induction Ht as [| | | | | |r x y Hx _ Hy IHy]; intros [=]; subst; [done|].
  rewrite all_bytes_app, IHy, andb_true_r by done.
  inv Hx. inv H1. apply Ascii.eqb_eq in H0 as <-. apply plus_chr_lang in H3 as [Hne Ha].
  str. simpl. by rewrite (all_bytes_impl slug_byte).
Qed.

(** [Make] leaves a slug as it is, so making a slug is idempotent and a
    slug typed as a name keeps the URL it names. *)
Theorem Make_slug s : Valid s = true -> Make s = s.
Proof.
  intros H. unfold Make. rewrite runes_ascii by (by apply slug_ascii).
  apply slug_split in H as (h & t & -> & Hne & Hh & Ht).
  rewrite list_ascii_app, !map_app, fold_left_app, make_run by done. str.
  by rewrite make_tail.
Qed.

Lemma Make_slug_witness : Valid "my-app-2" = true /\ Make "my-app-2" = "my-app-2".
Proof. split; [vm_compute; reflexivity|]. apply Make_slug. vm_compute. reflexivity. Defined.

Example Make_ex : Make "  My App: v2.0! " = "my-app-v2-0".
Proof. vm_compute. reflexivity. Qed.

(** ** Param names *)

Lemma ValidEnvKey_spec c s :
  ValidEnvKey (String c s) = true <-> name_head c = true /\ all_bytes name_byte s = true.
Proof.
  unfold ValidEnvKey. rewrite re_match_lang. split.
  - intros H. remember (String c s) as t eqn:Et. inv H. inv H2. str. simplify_eq.
    by apply star_chr_lang in H4.
  - intros [Hc Hs]. rewrite string_cons_app. constructor; [by constructor|].
    by apply star_chr_lang.
Qed.

Lemma list_all_bytes p l : Forall (fun c => p c = true) l -> all_bytes p (string_of_list_ascii l) = true.
Proof. induction 1; simpl; [done|]. by rewrite H. Qed.

Lemma all_bytes_list p s : all_bytes p s = true -> Forall (fun c => p c = true) (list_ascii_of_string s).
Proof. induction s; simpl; intros; bsimpl; auto. Qed.

Lemma drop_byte_all p c s : all_bytes p s = true -> all_bytes p (drop_byte c s) = true.
Proof. induction s as [|d s IH]; simpl; [done|]. intros H. bsimpl. case_match; [auto|]. simpl. by rewrite H, H0. Qed.

Lemma rev_str_all p s : all_bytes p s = true -> all_bytes p (rev_str s) = true.
Proof. intros H. apply list_all_bytes. apply Forall_rev. by apply all_bytes_list. Qed.

Lemma suggest_rune_byte r : name_byte (suggest_rune r) = true.
Proof.
  unfold suggest_rune. case_match eqn:E; [|done].
  assert (0 <= r < 256) as Hr.
  { repeat (apply orb_true_iff in E as [E|E]); bsimpl; lia. }
  assert (code (rune_byte r) = r) as Hc.
  { unfold code, rune_byte. rewrite nat_ascii_embedding; lia. }
  unfold name_byte, name_head. rewrite !orb_true_iff.
  unfold is_upper, is_lower, is_digit. rewrite !byte_in_spec, Hc.
  change (code "a") with 97. change (code "z") with 122. change (code "A") with 65.
  change (code "Z") with 90. change (code "0") with 48. change (code "9") with 57.
  apply orb_true_iff in E as [E|E]; [apply orb_true_iff in E as [E|E]|]; bsimpl; lia.
Qed.

(** The name [Suggest] puts in a refusal's example is always one that the
    param rule accepts, whatever the refused name was. *)
Theorem Suggest_valid s : ValidName (Suggest s) = true.
Proof.
  unfold Suggest. set (out := trim_byte _ _).
  assert (all_bytes name_byte out = true) as Hall.
  { unfold out, trim_byte, trim_byte_right. apply rev_str_all, drop_byte_all, rev_str_all, drop_byte_all.
    apply list_all_bytes. induction (runes s); simpl; constructor; auto using suggest_rune_byte. }
  destruct out as [|c o]; [reflexivity|]. cbn [all_bytes] in Hall. bsimpl.
  destruct (is_digit c) eqn:Ed.
  - change ("_" +:+ String c o) with (String "_" (String c o)). apply ValidEnvKey_spec.
    split; [done|]. simpl. by rewrite H, H0.
  - apply ValidEnvKey_spec. split; [|done]. unfold name_byte in H. by rewrite Ed, orb_false_r in H.
Qed.

(** A slug holds no other byte. *)
Lemma slug_no_byte s c : Valid s = true -> slug_byte c = false -> c <> "-"%char -> has_byte c s = false.
Proof.
  rewrite slug_split. intros (h & t & -> & _ & Hh & Ht) Hc Hd.
  assert (forall x, all_bytes slug_byte x = true -> has_byte c x = false) as Hrun.
  { induction x as [|d x IH]; [done|]. simpl. intros H. bsimpl. rewrite IH by done.
    rewrite orb_false_r. apply Ascii.eqb_neq. congruence. }
  assert (forall x y, has_byte c (x +:+ y) = has_byte c x || has_byte c y) as Happ.
  { induction x as [|d x IH]; intros y; [done|]. str. simpl. by rewrite IH, orb_assoc. }
  rewrite Happ, Hrun by done. simpl. remember (RStar dash_seg) as r eqn:E. revert E.
  induction Ht as [| | | | | |r x y Hx _ Hy IHy]; intros [=]; subst; [done|].
  rewrite Happ, IHy, orb_false_r by done. inv Hx. inv H1.
  apply Ascii.eqb_eq in H0 as <-. apply plus_chr_lang in H3 as [_ Ha]. str. simpl.
  rewrite Hrun by done. by rewrite (proj2 (Ascii.eqb_neq _ _)).
Qed.
