(* ===== verification/Address.v ===== *)
(** * Addresses and allow lists ([internal/service/internal/address/address.go])

    A tile's name across its org ([org:stack:env:tile]), the allow list a
    managed tile keeps, and the rule that picks the env a slice lands in. *)
From S2P Require Import Prelude GoStrings Errs Regexp Slug.

Definition star : string := "*".

Record Address := MkAddress { Org : string; Stack : string; Env : string; Tile : string }.
#[export] Instance Address_eq_dec : EqDecision Address.
Proof. solve_decision. Defined.

Definition segs (a : Address) : list string := [Org a; Stack a; Env a; Tile a].
Definition addr_string (a : Address) : string := join ":" (segs a).

(** One parsed allow entry: four segments, each a slug or a one-segment star. *)
Definition Pattern : Type := list string.

Definition parsePattern (orgSlug entry : string) : res Pattern :=
  let segs := split ":" entry in
  if contains segs "" then
    Err (Invalidf "allow" "A part is empty. Use org:stack:env:tile, or end with *." [])
  else if negb (String.eqb (hd "" segs) orgSlug) then
    Err (Invalidf "allow" "Start with this org, %s." [AStr orgSlug])
  else if Nat.ltb 4 (length segs) then
    Err (Invalidf "allow" "Use at most four parts, org:stack:env:tile." [])
  else match find_first (fun s => negb (String.eqb s star) && negb (Valid s)) segs with
  | Some s =>
      Err (Invalidf "allow" "%q is not a name. Use lower-case letters, digits and single hyphens, or *." [AStr s])
  | None =>
      if Nat.ltb (length segs) 4 && negb (String.eqb (List.last segs "") star) then
        Err (Invalidf "allow" "Use four parts, org:stack:env:tile, or end with *." [])
      else Ok (take 4 (segs ++ replicate (4 - length segs) star))
  end.

(** The first bad entry fails the whole list. *)
Fixpoint ParseAllow (orgSlug : string) (entries : list string) : res (list Pattern) :=
  match entries with
  | [] => Ok []
  | entry :: rest =>
      p <-? parsePattern orgSlug entry ;;
      ps <-? ParseAllow orgSlug rest ;;
      Ok (p :: ps)
  end.

Fixpoint match_segs (p got : list string) {struct got} : bool :=
  match got with
  | [] => true
  | g :: got =>
      match p with
      | [] => false
      | s :: p => (String.eqb s star || String.eqb s g) && match_segs p got
      end
  end.
Definition pattern_match (p : Pattern) (a : Address) : bool := match_segs p (segs a).

Definition Match (patterns : list Pattern) (a : Address) : bool :=
  existsb (fun p => pattern_match p a) patterns.

(** May the tile at [a] connect to the managed tile at [self]? *)
Definition Allowed (orgSlug : string) (entries : list string) (self a : Address) : res bool :=
  patterns <-? ParseAllow orgSlug entries ;;
  if String.eqb (Org a) (Org self) && String.eqb (Stack a) (Stack self)
     && String.eqb (Env a) (Env self)
  then Ok true
  else Ok (Match patterns a).

(** A slice tile's provision_from. *)
Record Target := MkTarget { tg_Stack : string; tg_Env : string; tg_Tile : string }.

Definition ParseTarget (s : string) : res Target :=
  match split ":" s with
  | [a; b; c] =>
      (fix check segs :=
        match segs with
        | [] => Ok (MkTarget a b c)
        | seg :: rest =>
            if String.eqb seg "" then
              Err (Invalidf "provision_from" "%s: a segment is empty" [AStr s])
            else if contains_str seg "${{" then check rest
            else if negb (Valid seg) then
              Err (Invalidf "provision_from"
                "%s: %q is not a slug (lower-case letters, digits and single hyphens)" [AStr s; AStr seg])
            else check rest
        end) [a; b; c]
  | _ => Err (Invalidf "provision_from" "%s: three segments, <stack>:<env>:<tile>" [AStr s])
  end.

Record Host := MkHost { TileID : string; Managed : bool; Ready : bool; Allow : list string }.

(** The target stack: [Pairs] is the target tile's env_pairs, [Envs] every env
    by slug, with [None] where the env has no tile of the target's slug. *)
Record Place := MkPlace {
  pl_Stack : string;
  Pairs : gmap string string;
  Envs : gmap string (option Host) }.

(** The names the consumer's env answers to: its own, then its base's. *)
Definition env_names (me : Address) (base : string) (tg : Target) : list string :=
  if String.eqb (tg_Env tg) (Env me) && negb (String.eqb base "")
  then [tg_Env tg; base] else [tg_Env tg].

(** The env of the target stack the slice lands in. *)
Definition resolve_env (me : Address) (base : string) (tg : Target) (pl : Place) : res string :=
  let names := env_names me base tg in
  let pair n := default "" (Pairs pl !! n) in
  if Nat.ltb 0 (size (Pairs pl)) then
    match find_first (fun n => negb (String.eqb (pair n) "")) names with
    | None => Err (Conflictf "%s's %s has no env pair for %s"
                     [AStr (pl_Stack pl); AStr (tg_Tile tg); AStr (tg_Env tg)])
    | Some n =>
        match Envs pl !! pair n with
        | None => Err (Conflictf "%s has no environment %s" [AStr (pl_Stack pl); AStr (pair n)])
        | Some _ => Ok (pair n)
        end
    end
  else
    match find_first (fun n => bool_decide (is_Some (Envs pl !! n))) names with
    | None => Err (Conflictf "%s has no environment %s" [AStr (pl_Stack pl); AStr (tg_Env tg)])
    | Some n => Ok n
    end.

Definition Resolve (orgSlug : string) (me : Address) (base : string) (tg : Target) (pl : Place)
    : res string :=
  env <-? resolve_env me base tg pl ;;
  let at_ := pl_Stack pl +:+ "/" +:+ env in
  match mjoin (Envs pl !! env) with
  | None => Err (Conflictf "%s has no tile called %s to cut it from" [AStr at_; AStr (tg_Tile tg)])
  | Some h =>
      if negb (Managed h) then
        Err (Conflictf "%s/%s is not a managed tile" [AStr at_; AStr (tg_Tile tg)])
      else if negb (Ready h) then
        Err (Conflictf "%s/%s has no instance yet; deploy it first" [AStr at_; AStr (tg_Tile tg)])
      else
        let self := MkAddress orgSlug (pl_Stack pl) env (tg_Tile tg) in
        match Allowed orgSlug (Allow h) self me with
        | Err err => Err (Conflictf "%s/%s: %v" [AStr at_; AStr (tg_Tile tg); AErr err])
        | Ok false => Err (Conflictf "%s/%s does not allow %s; add it to the Allow list of %s"
                             [AStr at_; AStr (tg_Tile tg); AStr (addr_string me); AStr (tg_Tile tg)])
        | Ok true => Ok env
        end
  end.

(** Rewrites segment [pos] of a reference from [old] to [nu]; [false] when
    nothing changed. *)
Definition RenameSeg (ref : string) (pos : nat) (above : list string) (old nu : string)
    : string * bool :=
  let segs := split ":" ref in
  if String.eqb old nu || Nat.leb (length segs) pos
     || negb (bool_decide (segs !! pos = Some old))
     || negb (bool_decide (take pos segs = above))
  then (ref, false)
  else (join ":" (<[pos := nu]> segs), true).

(** ** What an entry admits *)

(** The reference reading of an allow entry, on its written segments: a
    trailing star swallows every segment left, a star elsewhere one. *)
Fixpoint admits (written got : list string) : bool :=
  match written, got with
  | [], [] => true
  | w :: ws, g :: gs =>
      (bool_decide (w = star) && bool_decide (ws = [])) ||
      ((String.eqb w star || String.eqb w g) && admits ws gs)
  | _, _ => false
  end.

Lemma match_stars n got : (length got <= n)%nat -> match_segs (replicate n star) got = true.
Proof.
  revert n. induction got as [|g got IH]; intros n H; [done|].
  destruct n; simpl in *; [lia|]. apply IH. lia.
Qed.

Lemma match_expand ws got n :
  ws <> [] -> (length ws + n = length got)%nat -> (n = 0%nat \/ List.last ws "" = star) ->
  match_segs (ws ++ replicate n star) got = admits ws got.
Proof.
  revert got. induction ws as [|w ws IH]; intros got Hne Hlen Hlast; [done|].
  destruct got as [|g gs]; [simpl in *; lia|]. simpl in *.
  destruct ws as [|w' ws].
  - simpl in Hlen, Hlast. rewrite (bool_decide_eq_true_2 ([] = [])), andb_true_r by done.
    destruct (decide (w = star)) as [->|Hw]; simpl.
    + rewrite match_stars by lia. done.
    + destruct Hlast as [->|]; [|done].
      rewrite bool_decide_eq_false_2 by done. simpl. destruct gs; [done|simpl in *; lia].
  - rewrite (bool_decide_eq_false_2 (w' :: ws = [])), andb_false_r by done.
    rewrite orb_false_l. f_equal. apply IH; [done|simpl in *; lia|done].
Qed.

Lemma parsePattern_inv org entry p :
  parsePattern org entry = Ok p ->
  let ws := split ":" entry in
  head ws = Some org /\ (length ws <= 4)%nat /\
  Forall (fun s => s = star \/ Valid s = true) ws /\
  (length ws = 4%nat \/ List.last ws "" = star) /\
  p = ws ++ replicate (4 - length ws) star.
Proof.
  unfold parsePattern. pose proof (split_nonempty ":" entry) as Hne.
  destruct (contains _ _); [done|]. destruct (negb _) eqn:E1; [done|].
  destruct (Nat.ltb _ _) eqn:E2; [done|]. destruct (find_first _ _) eqn:E3; [done|].
  destruct (Nat.ltb _ _ && _) eqn:E4; [done|]. intros [= <-].
  apply find_first_None in E3. bsimpl. destruct (split ":" entry) as [|w ws] eqn:E; [done|].
  simpl in E1. subst w. split; [done|]. split; [done|]. split; [|split].
  - eapply Forall_impl; [exact E3|]. intros s Hs. cbv beta in Hs.
    apply andb_false_iff in Hs as [Hs|Hs]; bsimpl; auto.
  - apply andb_false_iff in E4 as [E4|E4]; bsimpl; [left; lia|by right].
  - rewrite take_ge; [done|]. rewrite length_app, length_replicate. lia.
Qed.

(** The expanded four-segment pattern matches exactly the addresses the
    written entry means: [org:*] every tile of the org, a star in the middle
    one segment, a trailing star everything below. *)
Theorem parsePattern_admits org entry p a :
  parsePattern org entry = Ok p ->
  pattern_match p a = admits (split ":" entry) (segs a).
Proof.
  intros (Hh & Hl & _ & Hlast & ->)%parsePattern_inv. apply match_expand.
  - apply split_nonempty.
  - simpl. lia.
  - destruct Hlast as [->|]; auto.
Qed.

Lemma parsePattern_admits_witness :
  let a := MkAddress "acme" "shop" "prod" "db" in
  match parsePattern "acme" "acme:*:prod:*" with
  | Ok p => pattern_match p a = admits (split ":" "acme:*:prod:*") (segs a)
            /\ pattern_match p a = true
  | Err _ => False
  end.
Proof.
  cbv zeta. destruct (parsePattern "acme" "acme:*:prod:*") as [p|e] eqn:E.
  - split; [by apply (parsePattern_admits "acme")|].
    vm_compute in E. injection E as <-. vm_compute. reflexivity.
  - vm_compute in E. discriminate E.
Defined.

Lemma ParseAllow_forall org entries ps :
  ParseAllow org entries = Ok ps -> Forall2 (fun e p => parsePattern org e = Ok p) entries ps.
Proof.
  revert ps. induction entries as [|e es IH]; simpl; intros ps H; [by inv H; constructor|].
  destruct (parsePattern org e) eqn:E; [|done].
  destruct (ParseAllow org es); [|done]. inv H. constructor; auto.
Qed.

Lemma pattern_own_org org entry p a :
  Valid org = true -> parsePattern org entry = Ok p -> pattern_match p a = true -> Org a = org.
Proof.
  intros Hv (Hh & _ & _ & _ & ->)%parsePattern_inv.
  destruct (split ":" entry) as [|w ws]; simplify_eq/=. unfold pattern_match. simpl.
  intros H. apply andb_true_iff in H as [H _]. apply orb_true_iff in H as [H|H]; bsimpl; [|done].
  subst. by vm_compute in Hv.
Qed.

(** No allow list reaches across orgs: a tile that may connect to a
    managed tile is a tile of the same org, whatever the list holds. *)
Theorem Allowed_own_org org entries self a :
  Valid org = true -> Org self = org ->
  Allowed org entries self a = Ok true -> Org a = org.
Proof.
  intros Hv <- H. unfold Allowed in H. destruct (ParseAllow _ _) as [ps|] eqn:E; [|done].
  destruct (String.eqb (Org a) (Org self)) eqn:Eo; [by bsimpl|]. simpl in H. injection H as H.
  apply ParseAllow_forall in E. unfold Match in H. apply existsb_exists in H as (p & Hp & Hm).
  apply list_elem_of_In in Hp. apply list_elem_of_lookup in Hp as [i Hi].
  destruct (Forall2_lookup_r _ _ _ _ _ E Hi) as (e & _ & He). by eapply pattern_own_org.
Qed.

Lemma Allowed_own_org_witness :
  let self := MkAddress "acme" "data" "prod" "pg" in
  let a := MkAddress "acme" "shop" "prod" "api" in
  Allowed "acme" ["acme:shop:*"] self a = Ok true /\ Org a = "acme".
Proof.
  cbv zeta. split; [vm_compute; reflexivity|].
  apply (Allowed_own_org "acme" ["acme:shop:*"] (MkAddress "acme" "data" "prod" "pg"));
    vm_compute; reflexivity.
Defined.

(** ** Resolve *)

(** [Resolve] picks an env exactly when the name maps to one, the target
    tile stands there, is managed, has its instance and lets the consumer in;
    each missing condition is a refusal, never a wrong env. *)
Theorem Resolve_spec org me base tg pl env :
  Resolve org me base tg pl = Ok env <->
  resolve_env me base tg pl = Ok env /\
  exists h, Envs pl !! env = Some (Some h) /\ Managed h = true /\ Ready h = true /\
    Allowed org (Allow h) (MkAddress org (pl_Stack pl) env (tg_Tile tg)) me = Ok true.
Proof.
  unfold Resolve. destruct (resolve_env me base tg pl) as [e|err]; [|split; [done|by intros [? _]]].
  destruct (Envs pl !! e) as [[h|]|] eqn:E; simpl.
  - split.
    + repeat case_match; intros; simplify_eq; bsimpl; eauto 10.
    + intros [[= ->] (h' & Eh & Hm & Hr & Ha)]. rewrite E in Eh. injection Eh as <-.
      by rewrite Hm, Hr, Ha.
  - split; [done|]. intros [[= ->] (h & ? & _)]. congruence.
  - split; [done|]. intros [[= ->] (h & ? & _)]. congruence.
Qed.

(** A PR env with no env pair and no env of its own name lands where its
    base env lands. *)
Theorem Resolve_pr_as_base me base tg pl env :
  base <> "" -> tg_Env tg = Env me ->
  default "" (Pairs pl !! tg_Env tg) = "" -> Envs pl !! tg_Env tg = None ->
  resolve_env me base tg pl = Ok env <->
  resolve_env (MkAddress (Org me) (Stack me) base (Tile me)) ""
    (MkTarget (tg_Stack tg) base (tg_Tile tg)) pl = Ok env.
Proof.
  intros Hb He Hp Hn. unfold resolve_env, env_names. simpl.
  rewrite He, String.eqb_refl, (proj2 (String.eqb_neq base "")) by done.
  rewrite andb_false_r. simpl. rewrite <- He, Hp, Hn. simpl.
  split; repeat case_match; congruence.
Qed.

Definition ex_place : Place := MkPlace "data" {["prod" := "live"]}
  {["live" := Some (MkHost "t1" true true ["acme:*"])]}.

Lemma Resolve_pr_as_base_witness :
  resolve_env (MkAddress "acme" "shop" "pr-7" "api") "prod" (MkTarget "data" "pr-7" "pg") ex_place
  = Ok "live".
Proof.
  apply (Resolve_pr_as_base (MkAddress "acme" "shop" "pr-7" "api") "prod"
    (MkTarget "data" "pr-7" "pg") ex_place "live"); vm_compute; congruence || reflexivity.
Defined.

Example Resolve_ex :
  Resolve "acme" (MkAddress "acme" "shop" "prod" "api") "" (MkTarget "data" "prod" "pg") ex_place
  = Ok "live".
Proof. vm_compute. reflexivity. Qed.

(** ** Round trips *)

Definition addr_ok (a : Address) : Prop := Forall (fun s => Valid s = true) (segs a).

Lemma addr_split a : addr_ok a -> split ":" (addr_string a) = segs a.
Proof.
  intros H. apply split_join; [done|]. eapply Forall_impl; [exact H|].
  intros s Hs. by apply slug_no_byte.
Qed.

Lemma valid_not_star s : Valid s = true -> s <> star /\ s <> "".
Proof. intros H. split; intros ->; by vm_compute in H. Qed.

(** An address printed and read back names the same tile: as an allow
    entry of its org it parses and admits that tile alone, and without the
    org it is the target [ParseTarget] reads. *)
Theorem address_roundtrip a b :
  addr_ok a ->
  (exists p, parsePattern (Org a) (addr_string a) = Ok p /\
             pattern_match p b = bool_decide (b = a)) /\
  ParseTarget (join ":" [Stack a; Env a; Tile a]) = Ok (MkTarget (Stack a) (Env a) (Tile a)).
Proof.
  intros Ha. pose proof Ha as Hs. apply addr_split in Hs. split.
  - exists (segs a). unfold parsePattern. rewrite Hs.
    assert (contains (segs a) "" = false) as ->.
    { apply bool_decide_eq_false. intros Hin. eapply Forall_forall in Ha; [|exact Hin].
      by vm_compute in Ha. }
    simpl hd. rewrite String.eqb_refl. simpl negb. simpl Nat.ltb.
    assert (find_first (fun s => negb (String.eqb s star) && negb (Valid s)) (segs a) = None) as ->.
    { apply find_first_None. eapply Forall_impl; [exact Ha|]. intros s E.
      simpl in E. by rewrite E, andb_false_r. }
    split; [done|]. destruct a as [o st e t], b as [o' st' e' t'].
    unfold addr_ok, segs in Ha. simpl in Ha. rewrite !Forall_cons in Ha. destruct_and! Ha.
    apply eq_true_iff_eq. rewrite bool_decide_eq_true. unfold pattern_match. simpl.
    rewrite !andb_true_r, !andb_true_iff, !orb_true_iff, !String.eqb_eq.
    repeat match goal with H : Valid ?s = true |- _ => apply valid_not_star in H as [? _] end.
    naive_solver.
  - unfold addr_ok, segs in Ha. rewrite !Forall_cons in Ha. destruct_and! Ha.
    unfold ParseTarget. rewrite split_join; [|done|by repeat (constructor; [by apply slug_no_byte|])].
    repeat match goal with H : Valid ?s = true |- _ =>
      rewrite ?H; apply valid_not_star in H as [_ H]; apply String.eqb_neq in H; rewrite H; simpl end.
    by repeat case_match.
Qed.

Lemma address_roundtrip_witness :
  let a := MkAddress "acme" "data" "prod" "pg" in
  ParseTarget (join ":" [Stack a; Env a; Tile a]) = Ok (MkTarget "data" "prod" "pg").
Proof.
  cbv zeta. apply (address_roundtrip (MkAddress "acme" "data" "prod" "pg") (MkAddress "" "" "" "")).
  repeat constructor.
Defined.

(** A rename rewrites one segment and keeps every other, only in a
    reference whose segments above it name the renamed thing, and renaming
    back restores the reference byte for byte. *)
Theorem RenameSeg_spec ref pos above old nu ref' :
  has_byte ":" nu = false ->
  RenameSeg ref pos above old nu = (ref', true) ->
  split ":" ref !! pos = Some old /\ take pos (split ":" ref) = above /\
  split ":" ref' = <[pos := nu]> (split ":" ref) /\
  RenameSeg ref' pos above nu old = (ref, true).
Proof.
  intros Hnu. unfold RenameSeg at 1. destruct (_ || _) eqn:E; [done|].
  intros [= <-]. bsimpl.
  assert (split ":" (join ":" (<[pos:=nu]> (split ":" ref))) = <[pos:=nu]> (split ":" ref)) as Hsp.
  { apply split_join.
    - intros Hn. apply (f_equal length) in Hn. rewrite length_insert in Hn.
      by apply (split_nonempty ":" ref), nil_length_inv.
    - apply Forall_insert; [apply split_no_sep|done]. }
  split; [done|]. split; [done|]. split; [done|].
  assert (pos < length (split ":" ref))%nat as Hlt by (by apply lookup_lt_Some in H1).
  unfold RenameSeg. rewrite Hsp.
  rewrite (proj2 (String.eqb_neq nu old)) by congruence.
  rewrite length_insert, (proj2 (Nat.leb_gt _ _)) by done.
  rewrite list_lookup_insert_eq by done. rewrite take_insert_ge by lia.
  rewrite !bool_decide_eq_true_2 by done. simpl.
  rewrite list_insert_insert_eq, list_insert_id by done. by rewrite join_split.
Qed.

Lemma RenameSeg_spec_witness :
  RenameSeg "data:prod:pg" 0 [] "data" "store" = ("store:prod:pg", true) /\
  RenameSeg "store:prod:pg" 0 [] "store" "data" = ("data:prod:pg", true).
Proof.
  split; [vm_compute; reflexivity|].
  apply (RenameSeg_spec "data:prod:pg" 0 [] "data" "store" "store:prod:pg"); vm_compute; reflexivity.
Defined.
