(* ===== verification/Authz.v ===== *)
(** * Authorisation ([internal/authz/authz.go])

    Facts in, verdict out: [Can] is the one place that decides who may do
    what.  A verb is its name; a level is Go's [int] with the ladder
    read < write < owner < admin. *)
From S2P Require Import Prelude GoStrings Errs.

Abbreviation Verb := string.
Abbreviation Level := Z.
Definition LevelRead : Level := 0.
Definition LevelWrite : Level := 1.
Definition LevelOwner : Level := 2.
Definition LevelAdmin : Level := 3.

Definition verbLevels : list (Verb * Level) :=
  [("org.read", LevelRead); ("member.list", LevelRead); ("registry.image.list", LevelRead);
   ("org.config.export", LevelRead); ("deployment.read", LevelRead); ("share.read", LevelRead);
   ("tile.read", LevelRead);

   ("stack.create", LevelWrite); ("stack.write", LevelWrite); ("env.write", LevelWrite);
   ("env.lock", LevelWrite); ("tile.write", LevelWrite); ("variable.write", LevelWrite);
   ("domain.write", LevelWrite); ("backup.write", LevelWrite); ("destination.write", LevelWrite);
   ("sharelink.mint", LevelWrite); ("stackplan.plan", LevelWrite); ("stackplan.approve", LevelWrite);
   ("org.graph.write", LevelWrite); ("connector.write", LevelWrite); ("deployment.cancel", LevelWrite);

   ("org.owner.read", LevelOwner); ("org.write", LevelOwner); ("member.manage", LevelOwner);
   ("org.config.bind", LevelOwner); ("orgdefaults.set", LevelOwner); ("orgplan.approve", LevelOwner);
   ("registry.credential.write", LevelOwner); ("registry.tag.delete", LevelOwner);
   ("domain.resource", LevelOwner); ("managed.allow", LevelOwner); ("org.setup.step", LevelOwner);
   ("org.setup.domain", LevelOwner); ("org.setup.connector", LevelOwner); ("share.write", LevelOwner);
   ("tier.write", LevelOwner); ("env.logs.purge", LevelOwner); ("placement.write", LevelOwner);
   ("dns.manage", LevelOwner); ("connector.manage", LevelOwner);

   ("admin.read", LevelAdmin); ("serverdefaults.set", LevelAdmin); ("node.manage", LevelAdmin);
   ("container.admin", LevelAdmin); ("proxy.admin", LevelAdmin); ("user.admin", LevelAdmin);
   ("org.create", LevelAdmin); ("route.admin", LevelAdmin); ("hostgrant.approve", LevelAdmin);
   ("audit.read", LevelAdmin); ("serverconfig.bind", LevelAdmin); ("serverplan.approve", LevelAdmin);
   ("connector.admin", LevelAdmin); ("serverparams.write", LevelAdmin)].

Fixpoint assoc (k : string) (l : list (string * Level)) : option Level :=
  match l with
  | [] => None
  | (k', v) :: l => if String.eqb k' k then Some v else assoc k l
  end.

(** An unregistered verb needs admin. *)
Definition LevelOf (v : Verb) : Level := default LevelAdmin (assoc v verbLevels).
Definition KnownVerb (v : Verb) : bool :=
  match assoc v verbLevels with Some _ => true | None => false end.

(** The request's principal. *)
Record User := MkUser {
  u_ID : string;
  Admin : bool;
  Active : bool;
  Roles : gmap string string;
  Key : bool;
  KeyOrg : string;
  KeyCapped : bool;
  KeyLevel : Level;
  KeyStack : string }.

Record Resource := MkResource { OrgID : string; StackID : string }.

Definition RoleLevel (role : string) : Level * bool :=
  if String.eqb role "owner" then (LevelOwner, true)
  else if String.eqb role "member" then (LevelWrite, true)
  else if String.eqb role "viewer" then (LevelRead, true)
  else (LevelRead, false).

Definition ParseLevel (s : string) : Level * bool :=
  if String.eqb s "admin" then (LevelAdmin, true) else RoleLevel s.

Definition roleOf (l : Level) : string :=
  nth (Z.to_nat l) ["viewer"; "member"; "owner"; "admin"] "".

Definition level (u : User) (orgID : string) : Level * bool :=
  if Admin u then (LevelAdmin, true) else RoleLevel (default "" (Roles u !! orgID)).

(** A live, active account. *)
Definition Self (u : User) : option error :=
  if String.eqb (u_ID u) "" || negb (Active u) then Some ErrRefused else None.

(** The verdict: [None] is Go's nil. *)
Definition Can (u : User) (v : Verb) (r : Resource) : option error :=
  match Self u with
  | Some err => Some err
  | None =>
  let need := LevelOf v in
  if need =? LevelAdmin then
    if negb (Admin u) then
      Some (Refusedf "admin commands need a stackr admin account" [])
    else if negb (String.eqb (KeyOrg u) "") then
      Some (Refusedf "this key is limited to one org; admin commands need a key from stackr login" [])
    else if negb (String.eqb (KeyStack u) "") then
      Some (Refusedf "this key is limited to one stack" [])
    else if KeyCapped u && (KeyLevel u <? LevelAdmin) then
      Some (Refusedf "this key is capped below admin" [])
    else None
  else if negb (String.eqb (KeyOrg u) "") && negb (String.eqb (KeyOrg u) (OrgID r)) then
    Some ErrNotFound
  else
  let '(have, member) := level u (OrgID r) in
  if negb member then Some ErrNotFound
  else
  let have := if KeyCapped u then Z.min have (KeyLevel u) else have in
  let stack :=
    if negb (String.eqb (KeyStack u) "") then
      if String.eqb (StackID r) "" then Some (Refusedf "this key is limited to one stack" [])
      else if negb (String.eqb (StackID r) (KeyStack u)) then Some ErrNotFound
      else None
    else None in
  match stack with
  | Some err => Some err
  | None =>
  if have <? need then Some (Refusedf "%s needs %s access" [AStr v; AStr (roleOf need)])
  else None
  end end.

(** Does a role change close the user's sessions and keys, and whose org's
    keys go ("" for every org). *)
Definition StandingChanged (orgID from to_ : string) : bool * string :=
  let '(fromLevel, _) := RoleLevel from in
  let '(toLevel, ok) := RoleLevel to_ in
  let toLevel := if negb ok then LevelRead else toLevel in
  if negb (String.eqb orgID "") && ((fromLevel <? LevelWrite) || (LevelWrite <=? toLevel))
  then (false, "") else (true, orgID).

(** ** The specification *)

(** The level a verb asks for: the table's, admin for a verb it does not name. *)
Definition requires (v : Verb) (l : Level) : Prop :=
  (v, l) ∈ verbLevels \/ (v ∉ map fst verbLevels) /\ l = LevelAdmin.

Definition has_role (u : User) (org role : string) : Prop := Roles u !! org = Some role.

(** The rights of the account itself, session or key aside: a stackr admin has
    every level everywhere, anyone else what the role held in the org carries. *)
Definition standing (u : User) (org : string) (l : Level) : Prop :=
  Admin u = true \/ (has_role u org "owner" /\ l <= LevelOwner) \/
  (has_role u org "member" /\ l <= LevelWrite) \/ (has_role u org "viewer" /\ l <= LevelRead).

(** In the org at all. *)
Definition belongs (u : User) (org : string) : Prop :=
  Admin u = true \/ has_role u org "owner" \/ has_role u org "member" \/ has_role u org "viewer".

(** The same rights by the code's own reckoning. *)
Definition ranked (u : User) (org : string) (l : Level) : Prop :=
  if decide (l = LevelAdmin) then Admin u = true
  else exists have, level u org = (have, true) /\ l <= have.

(** What a key adds: only limits. *)
Definition key_admits (u : User) (l : Level) (r : Resource) : Prop :=
  (KeyCapped u = true -> l <= KeyLevel u) /\
  (if decide (l = LevelAdmin) then KeyOrg u = "" /\ KeyStack u = ""
   else (KeyOrg u = "" \/ KeyOrg u = OrgID r) /\
        (KeyStack u = "" \/ (StackID r = KeyStack u))).

Lemma assoc_range v l : assoc v verbLevels = Some l -> LevelRead <= l <= LevelAdmin.
Proof.
  assert (Forall (fun p => LevelRead <= p.2 <= LevelAdmin) verbLevels) as H.
  { repeat constructor; vm_compute; congruence. }
  induction H as [|[k x] vs Hx _ IH]; simpl; [done|]. case_match; [by intros [= <-]|auto].
Qed.

Lemma LevelOf_range v : LevelRead <= LevelOf v <= LevelAdmin.
Proof.
  unfold LevelOf. destruct (assoc v verbLevels) eqn:E; simpl; [by eapply assoc_range|done].
Qed.

Lemma assoc_in v l : NoDup (map fst l) -> forall x, assoc v l = Some x <-> (v, x) ∈ l.
Proof.
  induction l as [|[k y] l IH]; simpl; intros Hn x; [set_solver|]. apply NoDup_cons in Hn as [Hk Hn].
  destruct (String.eqb_spec k v) as [->|Hv]; [|rewrite IH by done; set_solver]. rewrite elem_of_cons. split.
  - intros [= ->]. by left.
  - intros [[= ->]|Hx]; [done|]. destruct Hk. apply list_elem_of_fmap. by exists (v, x).
Qed.

Lemma assoc_names (v : string) (l : list (string * Level)) : v ∈ map fst l <-> exists x, (v, x) ∈ l.
Proof.
  split; [intros ([k x] & -> & Hx)%list_elem_of_fmap; by exists x|]. intros [x Hx]. apply list_elem_of_fmap. by exists (v, x).
Qed.

Lemma requires_LevelOf v l : requires v l <-> LevelOf v = l.
Proof.
  assert (NoDup (map fst verbLevels)) as Hn by (apply (bool_decide_eq_true_1 _); vm_compute; reflexivity).
  pose proof (assoc_in v _ Hn) as Ha. unfold requires, LevelOf. destruct (assoc v verbLevels) as [x|] eqn:E; simpl.
  - assert ((v, x) ∈ verbLevels) as Hx by by apply Ha. split; [|intros <-; by left].
    intros [Hl|[Hv _]]; [apply Ha in Hl; congruence|]. destruct (Hv (proj2 (assoc_names v verbLevels) (ex_intro _ x Hx))).
  - assert (v ∉ map fst verbLevels) as Hv.
    { intros Hi. apply assoc_names in Hi as [x Hx%Ha]. congruence. }
    split; [|intros <-; by right]. intros [Hl|[_ ->]]; [|done]. apply Ha in Hl. congruence.
Qed.

(** Every role name but three carries nothing. *)
Lemma level_spec u org : Admin u = false -> level u org =
  match Roles u !! org with
  | Some "owner" => (LevelOwner, true) | Some "member" => (LevelWrite, true) | Some "viewer" => (LevelRead, true)
  | _ => (LevelRead, false)
  end.
Proof.
  intros Ha. unfold level, RoleLevel. rewrite Ha. destruct (Roles u !! org) as [r|]; [|done]. simpl.
  destruct (String.eqb_spec r "owner") as [->|Ho]; [done|]. destruct (String.eqb_spec r "member") as [->|Hm]; [done|].
  destruct (String.eqb_spec r "viewer") as [->|Hv]; [done|]. repeat case_match; congruence.
Qed.

Lemma Self_None u : Self u = None <-> u_ID u <> "" /\ Active u = true.
Proof.
  unfold Self. destruct (String.eqb_spec (u_ID u) ""), (Active u); simpl; naive_solver.
Qed.

Lemma Can_admin u v r :
  Self u = None -> LevelOf v = LevelAdmin ->
  Can u v r = None <-> ranked u (OrgID r) LevelAdmin /\ key_admits u LevelAdmin r.
Proof.
  intros Hs E. unfold Can, ranked, key_admits. rewrite Hs, E. simpl.
  split.
  - intros H. repeat case_match; try discriminate; bsimpl; repeat split; auto.
    intros Hc. rewrite Hc in *. simpl in *. bsimpl. lia.
  - intros (-> & Hc & -> & ->). simpl. destruct (KeyCapped u); simpl; [|done].
    by rewrite (proj2 (Z.ltb_ge _ _)) by auto.
Qed.

Lemma Can_member u v r :
  Self u = None -> LevelOf v <> LevelAdmin ->
  Can u v r = None <-> ranked u (OrgID r) (LevelOf v) /\ key_admits u (LevelOf v) r.
Proof.
  intros Hs E. unfold Can, ranked, key_admits. rewrite Hs, !decide_False by done.
  rewrite (proj2 (Z.eqb_neq _ _)) by done. split.
  - intros H. destruct (negb _ && _) eqn:Ek; [done|].
    destruct (level u (OrgID r)) as [have [|]]; [|done]. simpl in H.
    assert (KeyOrg u = "" \/ KeyOrg u = OrgID r) as Ho.
    { apply andb_false_iff in Ek as [Ek|Ek]; bsimpl; auto. }
    repeat case_match; try discriminate; simplify_eq; bsimpl; split;
      try (eexists; split; [reflexivity|lia]); repeat split; auto; intros; lia || congruence.
  - intros ((have & -> & Hl) & Hc & Ho & Hk). simpl.
    replace (negb _ && _) with false.
    2: { symmetry. apply andb_false_iff. rewrite !negb_false_iff, !String.eqb_eq. tauto. }
    destruct (String.eqb_spec (KeyStack u) ""); simpl.
    + destruct (KeyCapped u); (rewrite (proj2 (Z.ltb_ge _ _)); [done|]); [specialize (Hc eq_refl)|]; lia.
    + destruct Hk as [Hk|Hk]; [done|]. rewrite Hk, String.eqb_refl.
      rewrite (proj2 (String.eqb_neq (KeyStack u) "")) by done. simpl.
      destruct (KeyCapped u); (rewrite (proj2 (Z.ltb_ge _ _)); [done|]); [specialize (Hc eq_refl)|]; lia.
Qed.

Lemma Can_iff u v r : Can u v r = None <->
  Self u = None /\ ranked u (OrgID r) (LevelOf v) /\ key_admits u (LevelOf v) r.
Proof.
  destruct (Self u) eqn:Hs; [split; [unfold Can; by rewrite Hs|by intros [? _]]|].
  destruct (decide (LevelOf v = LevelAdmin)) as [E|E]; [rewrite E, Can_admin by done|rewrite Can_member by done]; tauto.
Qed.

(** The levels of the roles, as the account holds them. *)
Lemma level_cases u org : level u org = (LevelAdmin, true) /\ Admin u = true \/
  level u org = (LevelOwner, true) /\ Admin u = false /\ has_role u org "owner" \/
  level u org = (LevelWrite, true) /\ Admin u = false /\ has_role u org "member" \/
  level u org = (LevelRead, true) /\ Admin u = false /\ has_role u org "viewer" \/
  level u org = (LevelRead, false) /\ ~ belongs u org.
Proof.
  destruct (Admin u) eqn:Ha; [left; unfold level; by rewrite Ha|]. unfold belongs, has_role. rewrite level_spec, Ha by done.
  destruct (Roles u !! org) as [r|]; [|naive_solver].
  destruct (decide (r = "owner")) as [->|Ho]; [naive_solver|]. destruct (decide (r = "member")) as [->|Hm]; [naive_solver|].
  destruct (decide (r = "viewer")) as [->|Hv]; [naive_solver|]. do 4 right. split; [|naive_solver].
  repeat case_match; congruence.
Qed.

Lemma ranked_standing u org l : l <= LevelAdmin -> ranked u org l <-> standing u org l.
Proof.
  intros Hl. unfold ranked, standing, has_role. unfold LevelAdmin, LevelOwner, LevelWrite, LevelRead in *.
  destruct (level_cases u org) as [(E & Ha)|[(E & Ha & Hr)|[(E & Ha & Hr)|[(E & Ha & Hr)|(E & Hn)]]]]; rewrite E; unfold has_role in *;
    unfold LevelAdmin, LevelOwner, LevelWrite, LevelRead in *; case_decide; subst; split.
  all: try rewrite Ha; try rewrite Hr; try (intros (h & [= <-] & ?)); try (by left); try (by right; left); try (by right; right; left); try (by right; right; right).
  all: try (intros Hs; eexists; split; [reflexivity|]; destruct Hs as [Hs|[[Hs ?]|[[Hs ?]|[Hs ?]]]]; done || lia).
  all: try (intros [Hs|[[Hs ?]|[[Hs ?]|[Hs ?]]]]; congruence || lia).
  all: try (intros Hs; left; congruence).
  all: intros Hs; exfalso; unfold belongs, has_role in Hn; naive_solver.
Qed.

(** The resource is one the request may not learn about: of another org than
    its key's, of an org its account is not in, or of another stack than its
    key's. *)
Definition hidden (u : User) (r : Resource) : Prop :=
  (KeyOrg u <> "" /\ KeyOrg u <> OrgID r) \/ ~ belongs u (OrgID r) \/
  (KeyStack u <> "" /\ StackID r <> "" /\ StackID r <> KeyStack u).

Lemma level_belongs u org : (level u org).2 = true <-> belongs u org.
Proof.
  destruct (level_cases u org) as [(E & Ha)|[(E & Ha & Hr)|[(E & Ha & Hr)|[(E & Ha & Hr)|(E & Hn)]]]]; rewrite E; simpl; unfold belongs; tauto || done.
Qed.

Lemma Can_hidden u v r : Can u v r = Some ErrNotFound <-> Self u = None /\ LevelOf v <> LevelAdmin /\ hidden u r.
Proof.
  destruct (Self u) as [e|] eqn:Hs.
  { split; [|by intros [? _]]. unfold Can. rewrite Hs. unfold Self in Hs. case_match; congruence. }
  destruct (decide (LevelOf v = LevelAdmin)) as [E|E].
  { split; [|tauto]. unfold Can. rewrite Hs, E. simpl. repeat case_match; discriminate. }
  unfold Can, hidden. rewrite Hs, (proj2 (Z.eqb_neq _ _)) by done. pose proof (level_belongs u (OrgID r)) as Hb.
  destruct (level u (OrgID r)) as [have member]. simpl in Hb. rewrite <-Hb. clear Hb.
  destruct (String.eqb_spec (KeyOrg u) "") as [E1|E1], (String.eqb_spec (KeyOrg u) (OrgID r)) as [E2|E2]; simpl; try (by naive_solver);
    (destruct member; simpl; [|by naive_solver]);
    (destruct (String.eqb_spec (KeyStack u) "") as [E3|E3]; simpl; [repeat case_match; naive_solver|]);
    (destruct (String.eqb_spec (StackID r) "") as [E4|E4]; simpl; [naive_solver|]);
    (destruct (String.eqb_spec (StackID r) (KeyStack u)) as [E5|E5]; simpl; [repeat case_match; naive_solver|naive_solver]).
Qed.

(** C36. The verdict in full.  A request passes exactly when the account is
    live, its standing in the resource's org carries the level the verb asks
    for (a stackr admin's carries all, an owner's, member's and viewer's role
    carries owner, write and read, anything else nothing, and a verb the table
    does not name asks for admin), and its key, if any, admits that level
    there.  A live account gets "not found", for a verb below admin, exactly
    where the resource is not its to know about; every other refusal says so. *)
Theorem Can_spec u v r :
  (Can u v r = None <-> u_ID u <> "" /\ Active u = true /\
    exists l, requires v l /\ standing u (OrgID r) l /\ key_admits u l r) /\
  (Can u v r = Some ErrNotFound <-> u_ID u <> "" /\ Active u = true /\ ~ requires v LevelAdmin /\ hidden u r).
Proof.
  rewrite Can_iff, Can_hidden, Self_None, requires_LevelOf, ranked_standing by apply LevelOf_range. split; [|tauto]. split.
  - intros ([Hu Ha] & Hs & Hk). split_and!; [done..|]. exists (LevelOf v). by rewrite requires_LevelOf.
  - intros (Hu & Ha & l & <-%requires_LevelOf & Hs & Hk). done.
Qed.

Definition ex_user : User :=
  MkUser "u1" false true {["acme" := "member"]} true "acme" true LevelWrite "shop".

Example Can_ex1 : Can ex_user "tile.write" (MkResource "acme" "shop") = None.
Proof. vm_compute. reflexivity. Qed.
Example Can_ex2 : Can ex_user "tile.write" (MkResource "other" "shop") = Some ErrNotFound.
Proof. vm_compute. reflexivity. Qed.

(** The same account by session, without its key. *)
Definition by_session (u : User) : User :=
  MkUser (u_ID u) (Admin u) (Active u) (Roles u) false "" false LevelRead "".

(** A key never carries rights of its own: whatever a key may do, its
    account may do by session, now, from its live roles. *)
Theorem key_attenuates u v r : Can u v r = None -> Can (by_session u) v r = None.
Proof.
  rewrite !Can_iff, !Self_None. intros (Hid & Hs & _). split; [done|]. split.
  - exact Hs.
  - split; [done|]. case_decide; simpl; auto.
Qed.

Lemma key_attenuates_witness :
  Can (by_session ex_user) "tile.write" (MkResource "acme" "shop") = None.
Proof. apply key_attenuates. vm_compute. reflexivity. Defined.

(** A check is a comparison on the ladder: who passes a verb passes every
    verb of the same or a lower level on the same resource. *)
Theorem Can_monotone u v w r :
  LevelOf w <= LevelOf v -> Can u v r = None -> Can u w r = None.
Proof.
  rewrite !Can_iff. intros Hle (Hid & Hs & Hc & Hk).
  pose proof (LevelOf_range v). pose proof (LevelOf_range w).
  split; [done|]. unfold ranked in *. split; [|split].
  - destruct (decide (LevelOf v = LevelAdmin)) as [E|E].
    + case_decide; [done|]. unfold level. rewrite Hs. exists LevelAdmin. split; [done|].
      unfold LevelAdmin in *. lia.
    + rewrite decide_False by (unfold LevelAdmin in *; lia).
      destruct Hs as (have & ? & ?). exists have. split; [done|lia].
  - intros Hcap. specialize (Hc Hcap). lia.
  - repeat case_decide; try tauto. unfold LevelAdmin in *. lia.
Qed.

Lemma Can_monotone_witness : Can ex_user "tile.read" (MkResource "acme" "shop") = None.
Proof.
  apply (Can_monotone ex_user "tile.write"); [vm_compute; congruence|vm_compute; reflexivity].
Defined.

(** Outside the org every answer is the same: to a live account with no
    role there, each verb below admin answers not found for every resource,
    so a probe cannot tell an id that exists from one that does not. *)
Theorem Can_outsider u v r :
  Self u = None -> (level u (OrgID r)).2 = false -> LevelOf v <> LevelAdmin ->
  Can u v r = Some ErrNotFound.
Proof.
  intros Hs Hl Hv. unfold Can. rewrite Hs, (proj2 (Z.eqb_neq _ _)) by done.
  destruct (negb _ && _); [done|]. destruct (level u (OrgID r)) as [h m]. simpl in Hl.
  by subst m.
Qed.

Lemma Can_outsider_witness : Can ex_user "org.read" (MkResource "rival" "x") = Some ErrNotFound.
Proof. apply Can_outsider; vm_compute; congruence || reflexivity. Defined.

(** Fail closed: a verb nobody registered is admin only. *)
Theorem unregistered_verb_admin u v r :
  KnownVerb v = false -> Can u v r = None -> Admin u = true.
Proof.
  unfold KnownVerb. intros Hk H.
  assert (LevelOf v = LevelAdmin) as E by (unfold LevelOf; by destruct (assoc v verbLevels)).
  apply Can_iff in H as (_ & Hs & _). rewrite E in Hs. exact Hs.
Qed.

Definition ex_admin : User := MkUser "root" true true ∅ false "" false LevelRead "".
Lemma unregistered_verb_admin_witness :
  Can ex_admin "tile.teleport" (MkResource "acme" "") = None /\ Admin ex_admin = true.
Proof.
  split; [vm_compute; reflexivity|].
  apply (unregistered_verb_admin ex_admin "tile.teleport" (MkResource "acme" "")); vm_compute; reflexivity.
Defined.

(** Losing write access in an org, or the account, is exactly what closes
    sessions and keys, and only the keys of that org go. *)
Theorem StandingChanged_spec org from to_ :
  let rung r := (RoleLevel r).1 in
  StandingChanged org from to_ =
    if decide (org = "" \/ (LevelWrite <= rung from /\ rung to_ < LevelWrite))
    then (true, org) else (false, "").
Proof.
  cbv zeta. unfold StandingChanged.
  assert ((if negb (RoleLevel to_).2 then LevelRead else (RoleLevel to_).1) = (RoleLevel to_).1) as Et.
  { unfold RoleLevel. by repeat case_match. }
  destruct (decide _) as [D|D];
    destruct (RoleLevel from) as [f okf], (RoleLevel to_) as [t okt]; simpl in *; rewrite Et;
    destruct (String.eqb_spec org "") as [->|Hne]; simpl; try done;
    try (exfalso; apply D; by left);
    destruct (Z.ltb_spec f LevelWrite), (Z.leb_spec LevelWrite t); simpl; try done;
    exfalso; first [destruct D as [?|[? ?]]; [done|lia] | apply D; right; lia].
Qed.
