(* ===== verification/Netip.v ===== *)
(** * Go's [net/netip] as the program uses it

    Addresses as 32- and 128-bit integers, prefixes, the parsers [ParseAddr]
    and [ParsePrefix] and the address classes.  [Contains] shifts the xor of
    two addresses, as the library does; [contains_mod] is its reading as
    division by the block size. *)
From S2P Require Import Prelude GoStrings.

(** The zero [netip.Addr] is [AInvalid]. *)
Inductive Addr : Type :=
  | AInvalid
  | A4 (x : Z)
  | A6 (x : Z) (zone : string).
#[export] Instance Addr_eq_dec : EqDecision Addr.
Proof. solve_decision. Defined.

Definition ip4 (a b c d : Z) : Addr := A4 (((a * 256 + b) * 256 + c) * 256 + d).

Definition IsValid (a : Addr) : bool := match a with AInvalid => false | _ => true end.
Definition Is4 (a : Addr) : bool := match a with A4 _ => true | _ => false end.
Definition Is6 (a : Addr) : bool := match a with A6 _ _ => true | _ => false end.
Definition BitLen (a : Addr) : Z := match a with AInvalid => 0 | A4 _ => 32 | A6 _ _ => 128 end.
Definition bits_of (a : Addr) : Z := match a with AInvalid => 0 | A4 x => x | A6 x _ => x end.

(** Drops the IPv4-mapped form ::ffff:a.b.c.d. *)
Definition Unmap (a : Addr) : Addr :=
  match a with
  | A6 x _ => if Z.shiftr x 32 =? 65535 then A4 (Z.land x 4294967295) else a
  | _ => a
  end.

Definition byte_of (x n : Z) : Z := Z.land (Z.shiftr x (8 * n)) 255.
Definition v4 (x : Z) (i : Z) : Z := byte_of x (3 - i).
Definition v6u16 (x : Z) (i : Z) : Z := Z.land (Z.shiftr x (16 * (7 - i))) 65535.

Definition IsUnspecified (a : Addr) : bool :=
  match a with
  | A4 x => x =? 0
  | A6 x z => (x =? 0) && String.eqb z ""
  | AInvalid => false
  end.
Definition IsLoopback (a : Addr) : bool :=
  match Unmap a with
  | A4 x => v4 x 0 =? 127
  | A6 x _ => x =? 1
  | AInvalid => false
  end.
Definition IsMulticast (a : Addr) : bool :=
  match Unmap a with
  | A4 x => Z.land (v4 x 0) 240 =? 224
  | A6 x _ => Z.shiftr (v6u16 x 0) 8 =? 255
  | AInvalid => false
  end.
Definition IsLinkLocalUnicast (a : Addr) : bool :=
  match Unmap a with
  | A4 x => (v4 x 0 =? 169) && (v4 x 1 =? 254)
  | A6 x _ => Z.land (v6u16 x 0) 65472 =? 65152
  | AInvalid => false
  end.
Definition IsLinkLocalMulticast (a : Addr) : bool :=
  match Unmap a with
  | A4 x => (v4 x 0 =? 224) && (v4 x 1 =? 0) && (v4 x 2 =? 0)
  | A6 x _ => Z.land (v6u16 x 0) 65295 =? 65282
  | AInvalid => false
  end.
Definition IsPrivate (a : Addr) : bool :=
  match Unmap a with
  | A4 x => (v4 x 0 =? 10) || ((v4 x 0 =? 172) && (Z.land (v4 x 1) 240 =? 16))
            || ((v4 x 0 =? 192) && (v4 x 1 =? 168))
  | A6 x _ => Z.land (Z.shiftr (v6u16 x 0) 8) 254 =? 252
  | AInvalid => false
  end.

(** ** Prefixes *)

Record Prefix := MkPrefix { p_ip : Addr; p_bits : Z }.
#[export] Instance Prefix_eq_dec : EqDecision Prefix.
Proof. solve_decision. Defined.

Definition no_zone (a : Addr) : Addr := match a with A6 x _ => A6 x "" | _ => a end.
(** [PrefixFrom] strips the zone; bits out of range give an invalid prefix. *)
Definition PrefixFrom (a : Addr) (bits : Z) : Prefix :=
  MkPrefix (no_zone a)
    (if IsValid a && (0 <=? bits) && (bits <=? BitLen a) then bits else -1).
Definition PrefixValid (p : Prefix) : bool := 0 <=? p_bits p.
Definition hasZone (a : Addr) : bool := match a with A6 _ z => negb (String.eqb z "") | _ => false end.

Definition Contains (p : Prefix) (a : Addr) : bool :=
  PrefixValid p && negb (hasZone a) && IsValid a && (BitLen a =? BitLen (p_ip p))
  && (Z.shiftr (Z.lxor (bits_of a) (bits_of (p_ip p))) (BitLen a - p_bits p) =? 0).

(** The prefix with its host bits zeroed. *)
Definition Masked (p : Prefix) : Prefix :=
  if PrefixValid p then
    let n := BitLen (p_ip p) - p_bits p in
    let x := Z.shiftl (Z.shiftr (bits_of (p_ip p)) n) n in
    MkPrefix (match p_ip p with A4 _ => A4 x | A6 _ z => A6 x z | AInvalid => AInvalid end) (p_bits p)
  else MkPrefix AInvalid (-1).

(** ** Parsing *)

Fixpoint dec_acc (s : string) (acc : Z) : option Z :=
  match s with
  | EmptyString => Some acc
  | String c s => if is_digit c then dec_acc s (acc * 10 + (code c - 48)) else None
  end.

(** [strconv.Atoi]; a value past 64 bits is an error there and far above every
    bound checked here. *)
Definition Atoi (s : string) : option Z :=
  let digits t := if String.eqb t "" then None else dec_acc t 0 in
  match s with
  | String "+" t => digits t
  | String "-" t => Z.opp <$> digits t
  | _ => digits s
  end.

(** One field of a dotted address: one to three digits, no leading zero, at
    most 255. *)
Definition v4_field (s : string) : option Z :=
  match s with
  | EmptyString => None
  | String c rest =>
      if Ascii.eqb c "0" && negb (String.eqb rest "") then None
      else if 3 <? slen s then None
      else match dec_acc s 0 with
           | Some n => if n <=? 255 then Some n else None
           | None => None
           end
  end.

Definition parseIPv4 (s : string) : option Addr :=
  match split "." s with
  | [a; b; c; d] =>
      match v4_field a, v4_field b, v4_field c, v4_field d with
      | Some a, Some b, Some c, Some d => Some (ip4 a b c d)
      | _, _, _, _ => None
      end
  | _ => None
  end.

Definition hex_val (c : ascii) : option Z :=
  if is_digit c then Some (code c - 48)
  else if byte_in "a" "f" c then Some (code c - 87)
  else if byte_in "A" "F" c then Some (code c - 55)
  else None.

(** A field's hex digits, at most four; what follows them. *)
Fixpoint hex_field (fuel : nat) (s : string) (acc : Z) : option (Z * string) :=
  match s with
  | EmptyString => Some (acc, s)
  | String c s' =>
      match hex_val c with
      | None => Some (acc, s)
      | Some v => match fuel with O => None | S f => hex_field f s' (acc * 16 + v) end
      end
  end.

(** [parseIPv6]'s loop: [i] 16-bit groups read into [acc], [ell] the group
    index of the ellipsis.  The result is the groups read and their number. *)
Fixpoint v6_loop (fuel : nat) (s : string) (i acc : Z) (ell : option Z)
    : option (string * Z * Z * option Z) :=
  match fuel with
  | O => Some (s, i, acc, ell)
  | S f =>
    match hex_field 4 s 0 with
    | None => None
    | Some (v, rest) =>
      if slen rest =? slen s then None
      else if has_prefix rest "." then
        if (match ell with None => negb (i =? 6) | Some _ => false end) || (8 <? i + 2) then None
        else match parseIPv4 s with
             | Some (A4 x) => Some ("", i + 2, acc * 4294967296 + x, ell)
             | _ => None
             end
      else
        let i := i + 1 in let acc := acc * 65536 + v in
        match rest with
        | EmptyString => Some ("", i, acc, ell)
        | String c s1 =>
            if negb (Ascii.eqb c ":") || String.eqb s1 "" then None
            else match strip_prefix ":" s1 with
            | None => v6_loop f s1 i acc ell
            | Some s2 =>
                match ell with
                | Some _ => None
                | None => if String.eqb s2 "" then Some ("", i, acc, Some i)
                          else v6_loop f s2 i acc (Some i)
                end
            end
        end
    end
  end.

(** Puts the groups after the ellipsis at the end of the address. *)
Definition v6_place (i acc : Z) (ell : Z) : Z :=
  let tail := 16 * (i - ell) in
  Z.lor (Z.shiftl (Z.shiftr acc tail) (16 * (8 - ell))) (Z.land acc (Z.ones tail)).

Definition parseIPv6 (s : string) : option Addr :=
  let '(s, zone, bad) :=
    match cut "%" s with
    | Some (a, z) => (a, z, String.eqb z "")
    | None => (s, "", false)
    end in
  if bad then None else
  let '(s, ell) :=
    match strip_prefix "::" s with Some t => (t, Some 0) | None => (s, None) end in
  match ell with
  | Some _ => if String.eqb s "" then Some (A6 0 zone) else
      match v6_loop 8 s 0 0 ell with
      | Some ("", i, acc, Some e) => if i <? 8 then Some (A6 (v6_place i acc e) zone) else None
      | _ => None
      end
  | None =>
      match v6_loop 8 s 0 0 None with
      | Some ("", i, acc, None) => if i =? 8 then Some (A6 acc zone) else None
      | Some ("", i, acc, Some e) => if i <? 8 then Some (A6 (v6_place i acc e) zone) else None
      | _ => None
      end
  end.

(** The first of '.', ':' and '%' says which form it is. *)
Fixpoint addr_form (s : string) : option ascii :=
  match s with
  | EmptyString => None
  | String c s =>
      if Ascii.eqb c "." || Ascii.eqb c ":" || Ascii.eqb c "%" then Some c else addr_form s
  end.
Definition ParseAddr (s : string) : option Addr :=
  match addr_form s with
  | Some "."%char => parseIPv4 s
  | Some ":"%char => parseIPv6 s
  | _ => None
  end.

(** The last '/' splits the address from the bits; no zone, no sign, no
    leading zero. *)
Definition cut_last (c : ascii) (s : string) : option (string * string) :=
  match cut c (rev_str s) with
  | Some (after, before) => Some (rev_str before, rev_str after)
  | None => None
  end.
Definition ParsePrefix (s : string) : option Prefix :=
  match cut_last "/" s with
  | None => None
  | Some (a, bits) =>
      match ParseAddr a with
      | None => None
      | Some ip =>
          if hasZone ip then None
          else match bits with
          | EmptyString => None
          | String c rest =>
              if negb (String.eqb rest "") && negb (byte_in "1" "9" c) then None
              else match dec_acc bits 0 with
              | None => None
              | Some n => if n <=? BitLen ip then Some (MkPrefix ip n) else None
              end
          end
      end
  end.

(** ** Printing *)

(** [fmt.Sprintf("%x", n)] for one 16-bit group. *)
Definition hex_group (n : Z) : string := hex_digits 4 n "".

(** The longest run of two or more zero groups, the first on a tie. *)
Fixpoint zero_run (fuel : nat) (x i : Z) : Z :=
  match fuel with
  | O => i
  | S f => if (i <? 8) && (v6u16 x i =? 0) then zero_run f x (i + 1) else i
  end.
Definition longest_run (x : Z) : option (Z * Z) :=
  fold_left (fun best i =>
    let j := zero_run 8 x i in
    if (2 <=? j - i) && (match best with Some (a, b) => b - a <? j - i | None => true end) then Some (i, j) else best)
    [0; 1; 2; 3; 4; 5; 6; 7] None.

Fixpoint groups (fuel : nat) (x i : Z) (run : option (Z * Z)) : string :=
  match fuel with
  | O => ""
  | S f =>
      if 8 <=? i then "" else
      match run with
      | Some (a, b) =>
          if i =? a then "::" +:+ (if 8 <=? b then "" else hex_group (v6u16 x b) +:+ groups f x (b + 1) run)
          else (if 0 <? i then ":" else "") +:+ hex_group (v6u16 x i) +:+ groups f x (i + 1) run
      | None => (if 0 <? i then ":" else "") +:+ hex_group (v6u16 x i) +:+ groups f x (i + 1) run
      end
  end.

Definition string4 (x : Z) : string := join "." (map (fun i => itoa (v4 x i)) [0; 1; 2; 3]).

(** [Addr.String]. *)
Definition addr_text (a : Addr) : string :=
  match a with
  | AInvalid => "invalid IP"
  | A4 x => string4 x
  | A6 x z =>
      (if Z.shiftr x 32 =? 65535 then "::ffff:" +:+ string4 (Z.land x 4294967295)
       else groups 8 x 0 (longest_run x)) +:+
      (if String.eqb z "" then "" else "%" +:+ z)
  end.

(** [Prefix.String]. *)
Definition prefix_text (p : Prefix) : string :=
  if PrefixValid p then addr_text (p_ip p) +:+ "/" +:+ itoa (p_bits p) else "invalid Prefix".

Example addr_text_ex1 : addr_text (ip4 10 208 0 1) = "10.208.0.1".
Proof. vm_compute. reflexivity. Qed.
Example addr_text_ex2 : addr_text (A6 (65152 * 2 ^ 112 + 65536 + 2) "eth0") = "fe80::1:2%eth0".
Proof. vm_compute. reflexivity. Qed.
Example addr_text_ex3 : addr_text (A6 1 "") = "::1" /\ addr_text (A6 (2 ^ 112) "") = "1::" /\
  addr_text (A6 (2 ^ 112 + 2 ^ 80 + 1) "") = "1:0:1::1".
Proof. vm_compute. done. Qed.

Example ParsePrefix_ex1 : ParsePrefix "10.251.0.1/30" = Some (MkPrefix (ip4 10 251 0 1) 30).
Proof. vm_compute. reflexivity. Qed.
Example ParsePrefix_ex2 : ParsePrefix "10.0.0.0/33" = None /\ ParsePrefix "10.0.0.01/8" = None.
Proof. vm_compute. done. Qed.
Example ParseAddr_ex6 : ParseAddr "fe80::1:2" = Some (A6 (65152 * 2 ^ 112 + 65536 + 2) "").
Proof. vm_compute. reflexivity. Qed.
Example ParseAddr_ex6b : ParseAddr "::ffff:1.2.3.4" = Some (A6 (65535 * 2 ^ 32 + 16909060) "").
Proof. vm_compute. reflexivity. Qed.

(** ** Lemmas *)

(** Membership is agreement of the leading bits. *)
Lemma contains_mod p x :
  Is4 (p_ip p) = true -> 0 <= p_bits p <= 32 ->
  Contains p (A4 x) = (x / 2 ^ (32 - p_bits p) =? bits_of (p_ip p) / 2 ^ (32 - p_bits p)).
Proof.
  destruct p as [ip n]. destruct ip as [|y|]; try done. simpl. intros _ Hn.
  unfold Contains, PrefixValid. simpl.
  rewrite (proj2 (Z.leb_le 0 n)) by lia. simpl.
  rewrite Z.shiftr_lxor, !Z.shiftr_div_pow2 by lia.
  apply eq_true_iff_eq. rewrite !Z.eqb_eq. apply Z.lxor_eq_0_iff.
Qed.

(** ** Decimal round trip *)

Lemma dec_acc_digit n s acc :
  0 <= n < 10 -> dec_acc (String (digit n) s) acc = dec_acc s (acc * 10 + n).
Proof.
  intros Hn.
  assert (code (digit n) = 48 + n) as Hc.
  { unfold code, digit. rewrite nat_ascii_embedding by lia. lia. }
  change (dec_acc (String (digit n) s) acc) with
    (if is_digit (digit n) then dec_acc s (acc * 10 + (code (digit n) - 48)) else None).
  replace (is_digit (digit n)) with true.
  - rewrite Hc. f_equal. lia.
  - symmetry. apply byte_in_spec. rewrite Hc.
    change (code "0") with 48. change (code "9") with 57. lia.
Qed.

Lemma dec_acc_digits f n s :
  0 <= n < 10 ^ Z.of_nat f -> dec_acc (digits f n s) 0 = dec_acc s n.
Proof.
  revert n s. induction f as [|f IH]; intros n s Hn.
  { simpl in *. by replace n with 0 by lia. }
  rewrite Nat2Z.inj_succ, Z.pow_succ_r in Hn by lia. cbn [digits].
  pose proof (Z.mod_pos_bound n 10 ltac:(lia)) as Hm.
  pose proof (Z.div_mod n 10 ltac:(lia)) as Hd.
  destruct (Z.ltb_spec n 10) as [Hlt|Hge].
  - rewrite dec_acc_digit by done. f_equal. rewrite Z.mod_small by lia. lia.
  - rewrite IH, dec_acc_digit by (try done; lia). f_equal. lia.
Qed.

(** Every 64-bit natural prints as the digits that read back as it. *)
Lemma dec_acc_itoa n : 0 <= n < 2 ^ 64 -> dec_acc (itoa n) 0 = Some n.
Proof.
  intros Hn. unfold itoa. rewrite (proj2 (Z.ltb_ge n 0)) by lia.
  rewrite dec_acc_digits; [done|]. split; [lia|].
  assert (2 ^ 64 < 10 ^ Z.of_nat 20) by (vm_compute; done). lia.
Qed.

Lemma digits_all f n acc : all_bytes is_digit acc = true -> all_bytes is_digit (digits f n acc) = true.
Proof.
  revert n acc. induction f as [|f IH]; intros n acc Ha; [done|]. cbn [digits].
  assert (all_bytes is_digit (String (digit (n mod 10)) acc) = true) as Hd.
  { change (is_digit (digit (n mod 10)) && all_bytes is_digit acc = true). rewrite Ha, andb_true_r. apply byte_in_spec.
    pose proof (Z.mod_pos_bound n 10 ltac:(lia)). unfold code, digit. rewrite nat_ascii_embedding by lia.
    change (Z.of_nat (nat_of_ascii "0")) with 48. change (Z.of_nat (nat_of_ascii "9")) with 57. lia. }
  case_match; [exact Hd|by apply IH].
Qed.

Lemma itoa_digits n : 0 <= n -> all_bytes is_digit (itoa n) = true.
Proof. intros Hn. unfold itoa. rewrite (proj2 (Z.ltb_ge n 0)) by lia. by apply digits_all. Qed.

Lemma Atoi_itoa n : 0 <= n < 2 ^ 64 -> Atoi (itoa n) = Some n.
Proof.
  intros Hn. pose proof (itoa_digits n ltac:(lia)) as Hd. pose proof (dec_acc_itoa n Hn) as Hp.
  assert (itoa n <> "") as Hne.
  { intros E. rewrite E in Hp. injection Hp as <-. vm_compute in E. discriminate. }
  unfold Atoi. destruct (itoa n) as [|c s]; [done|]. simpl in Hd. apply andb_true_iff in Hd as [Hc _].
  assert (match String c s with String "+" t => if String.eqb t "" then None else dec_acc t 0
    | String "-" t => Z.opp <$> (if String.eqb t "" then None else dec_acc t 0) | _ =>
      if String.eqb (String c s) "" then None else dec_acc (String c s) 0 end = dec_acc (String c s) 0) as E; [|by rewrite E].
  destruct c as [[] [] [] [] [] [] [] []]; try done; by vm_compute in Hc.
Qed.

Lemma itoa_inj n m : 0 <= n < 2 ^ 64 -> 0 <= m < 2 ^ 64 -> itoa n = itoa m -> n = m.
Proof.
  intros Hn Hm E. apply dec_acc_itoa in Hn, Hm. rewrite E in Hn. congruence.
Qed.

(** ** Printed addresses read back *)

(** The values a [netip.Addr] of four bytes and its prefixes take. *)
Definition addr4 (a : Addr) : Prop := exists x, a = A4 x /\ 0 <= x < 2 ^ 32.
Definition prefix4 (p : Prefix) : Prop := addr4 (p_ip p) /\ 0 <= p_bits p <= 32.

Definition addr4b (a : Addr) : bool := match a with A4 x => (0 <=? x) && (x <? 2 ^ 32) | _ => false end.
Definition prefix4b (p : Prefix) : bool := addr4b (p_ip p) && (0 <=? p_bits p) && (p_bits p <=? 32).

Lemma addr4b_ok a : addr4b a = true -> addr4 a.
Proof. destruct a as [|x|]; try done. intros H. exists x. simpl in H. split; [done|lia]. Qed.

Lemma prefix4b_ok p : prefix4b p = true -> prefix4 p.
Proof. unfold prefix4b. intros H. bsimpl. split; [by apply addr4b_ok|lia]. Qed.

Lemma v4_range x i : 0 <= v4 x i < 256.
Proof. unfold v4, byte_of. change 255 with (Z.ones 8). rewrite Z.land_ones by lia. apply Z.mod_pos_bound. lia. Qed.

Lemma v4_join x : 0 <= x < 2 ^ 32 -> ip4 (v4 x 0) (v4 x 1) (v4 x 2) (v4 x 3) = A4 x.
Proof.
  intros Hx. unfold ip4, v4, byte_of. f_equal. change 255 with (Z.ones 8). rewrite !Z.land_ones, !Z.shiftr_div_pow2 by lia.
  change (8 * (3 - 0)) with 24. change (8 * (3 - 1)) with 16. change (8 * (3 - 2)) with 8. change (8 * (3 - 3)) with 0.
  change (2 ^ 24) with 16777216. change (2 ^ 16) with 65536. change (2 ^ 8) with 256. change (2 ^ 0) with 1.
  change (2 ^ 32) with 4294967296 in Hx. Z.to_euclidean_division_equations. lia.
Qed.

(** The bytes an IPv4 text is made of. *)
Definition dotted (c : ascii) : bool := is_digit c || Ascii.eqb c ".".

Lemma field_facts n : 0 <= n < 256 ->
  v4_field (itoa n) = Some n /\ all_bytes is_digit (itoa n) = true /\ itoa n <> "" /\ has_byte "." (itoa n) = false.
Proof.
  intros Hn. rewrite <- (Z2Nat.id n) in * by lia. set (k := Z.to_nat n) in *.
  assert (Forall (fun k => v4_field (itoa (Z.of_nat k)) = Some (Z.of_nat k) /\
    all_bytes is_digit (itoa (Z.of_nat k)) = true /\ itoa (Z.of_nat k) <> "" /\ has_byte "." (itoa (Z.of_nat k)) = false)
    (seq 0 256)) as HF by (apply (bool_decide_unpack _); vm_compute; exact I).
  apply (proj1 (Forall_forall _ _) HF). apply elem_of_seq. lia.
Qed.

Lemma string4_split x : split "." (string4 x) = map (fun i => itoa (v4 x i)) [0; 1; 2; 3].
Proof.
  unfold string4. apply split_join; [done|]. rewrite Forall_map. apply Forall_forall.
  intros i _. simpl. apply field_facts, v4_range.
Qed.

Lemma parse_string4 x : 0 <= x < 2 ^ 32 -> parseIPv4 (string4 x) = Some (A4 x).
Proof.
  intros Hx. unfold parseIPv4. rewrite string4_split. cbn [map].
  rewrite !(proj1 (field_facts _ (v4_range x _))). by rewrite v4_join.
Qed.

Lemma string4_dotted x : all_bytes dotted (string4 x) = true.
Proof.
  assert (forall i, all_bytes dotted (itoa (v4 x i)) = true) as Hd.
  { intros i. eapply all_bytes_impl; [|apply field_facts, v4_range]. intros c Hc. unfold dotted. by rewrite Hc. }
  unfold string4. cbn [map join]. rewrite !all_bytes_app, !Hd. done.
Qed.

Lemma addr_form_app s t : all_bytes is_digit s = true -> addr_form (s +:+ "." +:+ t) = Some "."%char.
Proof.
  induction s as [|c s IH]; [done|]. intros H. simpl in H. bsimpl.
  change (addr_form (String c s +:+ "." +:+ t)) with
    (if Ascii.eqb c "." || Ascii.eqb c ":" || Ascii.eqb c "%" then Some c else addr_form (s +:+ "." +:+ t)).
  rewrite IH by done. assert (Ascii.eqb c "." || Ascii.eqb c ":" || Ascii.eqb c "%" = false) as ->; [|done].
  destruct (Ascii.eqb_spec c ".") as [->|]; [done|]. destruct (Ascii.eqb_spec c ":") as [->|]; [done|].
  by destruct (Ascii.eqb_spec c "%") as [->|].
Qed.

Lemma string4_form x : addr_form (string4 x) = Some "."%char.
Proof.
  unfold string4. cbn [map join]. apply addr_form_app. apply field_facts, v4_range.
Qed.

Lemma ParseAddr_text a : addr4 a -> ParseAddr (addr_text a) = Some a.
Proof.
  intros (x & -> & Hx). unfold ParseAddr, addr_text. rewrite string4_form. by apply parse_string4.
Qed.

Lemma cut_no sep s t : has_byte sep s = false -> cut sep (s +:+ String sep t) = Some (s, t).
Proof.
  induction s as [|c s IH]; intros H.
  - change (cut sep (String sep t) = Some ("", t)). simpl. by rewrite Ascii.eqb_refl.
  - simpl in H. apply orb_false_iff in H as [H1 H2].
    change (cut sep (String c s +:+ String sep t)) with
      (if Ascii.eqb c sep then Some ("", s +:+ String sep t)
       else match cut sep (s +:+ String sep t) with Some (b, a) => Some (String c b, a) | None => None end).
    rewrite IH by done. destruct (Ascii.eqb_spec c sep) as [->|]; [|done]. by rewrite Ascii.eqb_refl in H1.
Qed.

Lemma has_byte_all p c s : all_bytes p s = true -> p c = false -> has_byte c s = false.
Proof.
  induction s as [|d s IH]; [done|]. simpl. intros H Hc. bsimpl. rewrite IH by done.
  destruct (Ascii.eqb_spec c d) as [->|]; [congruence|done].
Qed.

Lemma cut_last_no sep s t : has_byte sep t = false -> cut_last sep (s +:+ String sep t) = Some (s, t).
Proof.
  intros Ht. unfold cut_last. change (String sep t) with (String sep "" +:+ t).
  rewrite rev_str_app, rev_str_app, <- app_assoc_str.
  change (rev_str (String sep "") +:+ rev_str s) with (String sep (rev_str s)).
  rewrite cut_no.
  - by rewrite !rev_str_involutive.
  - apply (has_byte_all (fun c => negb (Ascii.eqb sep c))); [|by rewrite Ascii.eqb_refl].
    rewrite all_bytes_rev. clear -Ht. induction t as [|c t IH]; [done|]. simpl in *. bsimpl.
    rewrite IH by done. by rewrite (proj2 (Ascii.eqb_neq sep c)).
Qed.

Lemma bits_facts n : 0 <= n <= 32 ->
  dec_acc (itoa n) 0 = Some n /\ all_bytes is_digit (itoa n) = true /\
  exists c rest, itoa n = String c rest /\ negb (String.eqb rest "") && negb (byte_in "1" "9" c) = false.
Proof.
  intros Hn. split; [apply dec_acc_itoa; lia|]. destruct (field_facts n) as (_ & Hd & Hne & _); [lia|]. split; [done|].
  rewrite <- (Z2Nat.id n) in * by lia. set (k := Z.to_nat n) in *.
  assert (Forall (fun k => match itoa (Z.of_nat k) with String c rest =>
    negb (String.eqb rest "") && negb (byte_in "1" "9" c) = false | EmptyString => False end) (seq 0 33)) as HF.
  { repeat constructor. }
  assert (k ∈ seq 0 33) as Hk by (apply elem_of_seq; lia).
  pose proof (proj1 (Forall_forall _ _) HF _ Hk) as Hf. simpl in Hf. destruct (itoa (Z.of_nat k)) as [|c rest]; [done|].
  by exists c, rest.
Qed.

Lemma ParsePrefix_text p : prefix4 p -> ParsePrefix (prefix_text p) = Some p.
Proof.
  intros [Ha Hb]. pose proof Ha as (x & Ex & Hx). destruct p as [ip n]. simpl in *.
  unfold prefix_text, PrefixValid. simpl. rewrite (proj2 (Z.leb_le 0 n)) by lia.
  destruct (bits_facts n Hb) as (Hd & Hdig & c & rest & Ei & Hc).
  change ("/" +:+ itoa n) with (String "/" (itoa n)). unfold ParsePrefix. rewrite cut_last_no by (by eapply has_byte_all).
  rewrite ParseAddr_text by done. subst ip. simpl hasZone. cbv iota. rewrite Ei, Hc, <- Ei, Hd. simpl BitLen.
  by rewrite (proj2 (Z.leb_le n 32)) by lia.
Qed.

(** *** Masks *)

Lemma shift_mask x n : 0 <= n -> 0 <= x -> 0 <= Z.shiftl (Z.shiftr x n) n <= x.
Proof.
  intros Hn Hx. rewrite Z.shiftl_mul_pow2, Z.shiftr_div_pow2 by lia.
  pose proof (Z.pow_pos_nonneg 2 n ltac:(lia) Hn). split; [apply Z.mul_nonneg_nonneg; [apply Z.div_pos; lia|lia]|].
  rewrite Z.mul_comm. by apply Z.mul_div_le.
Qed.

Lemma Masked4 p : prefix4 p -> prefix4 (Masked p).
Proof.
  intros [(x & Ex & Hx) Hb]. destruct p as [ip n]. simpl in *. subst ip. unfold Masked, PrefixValid. simpl.
  rewrite (proj2 (Z.leb_le 0 n)) by lia. split; [|done]. simpl. eexists. split; [reflexivity|].
  pose proof (shift_mask x (32 - n) ltac:(lia) ltac:(lia)). lia.
Qed.

Lemma Contains_other p a : Is4 (p_ip p) = true -> Is4 a = false -> Contains p a = false.
Proof.
  intros Hp Ha. unfold Contains. destruct (p_ip p) as [|x|]; try done.
  assert (IsValid a && (BitLen a =? BitLen (A4 x)) = false) as E by by destruct a.
  rewrite <- !andb_assoc. rewrite (andb_assoc (IsValid a)), E. simpl. by rewrite !andb_false_r.
Qed.

Lemma Contains_Masked p a : prefix4 p -> Contains (Masked p) a = Contains p a.
Proof.
  intros [(x & Ex & Hx) Hb]. destruct p as [ip n]. simpl in *. subst ip. unfold Masked, PrefixValid. simpl.
  rewrite (proj2 (Z.leb_le 0 n)) by lia. destruct a as [|y|y z].
  1, 3: by rewrite !Contains_other.
  rewrite !contains_mod by (done || (simpl; lia)). simpl. rewrite Z.shiftl_mul_pow2, Z.shiftr_div_pow2 by lia.
  rewrite Z.div_mul; [done|]. pose proof (Z.pow_pos_nonneg 2 (32 - n)). lia.
Qed.

(** *** What the parsers accept *)

Lemma dec_acc_ok s acc n : dec_acc s acc = Some n -> 0 <= acc -> 0 <= n /\ all_bytes is_digit s = true.
Proof.
  revert acc. induction s as [|c s IH]; intros acc; simpl; [intros [= <-]; done|].
  destruct (is_digit c) eqn:Ec; [|done]. intros Hd Ha. apply byte_in_spec in Ec as Hc.
  change (code "0") with 48 in Hc. apply IH in Hd as [? ->]; [done|lia].
Qed.

Lemma v4_field_ok s n : v4_field s = Some n -> 0 <= n < 256 /\ all_bytes is_digit s = true.
Proof.
  unfold v4_field. destruct s as [|c s]; [done|]. destruct (_ && _); [done|]. destruct (3 <? _); [done|].
  destruct (dec_acc (String c s) 0) as [m|] eqn:Ed; [|done]. destruct (Z.leb_spec m 255); [|done].
  intros [= <-]. apply dec_acc_ok in Ed; [|lia]. split; [lia|apply Ed].
Qed.

Lemma parseIPv4_ok s a : parseIPv4 s = Some a -> addr4 a /\ all_bytes dotted s = true.
Proof.
  unfold parseIPv4. pose proof (join_split "." s) as Hj. destruct (split "." s) as [|a0 [|a1 [|a2 [|a3 [|]]]]]; try done.
  destruct (v4_field a0) as [n0|] eqn:E0; [|done]. destruct (v4_field a1) as [n1|] eqn:E1; [|done].
  destruct (v4_field a2) as [n2|] eqn:E2; [|done]. destruct (v4_field a3) as [n3|] eqn:E3; [|done].
  intros [= <-]. apply v4_field_ok in E0 as [R0 D0], E1 as [R1 D1], E2 as [R2 D2], E3 as [R3 D3]. split.
  - eexists. split; [reflexivity|]. change (2 ^ 32) with 4294967296. lia.
  - assert (forall t, all_bytes is_digit t = true -> all_bytes dotted t = true) as Hd.
    { intros t. apply all_bytes_impl. intros c Hc. unfold dotted. by rewrite Hc. }
    rewrite <- Hj. cbn [join]. rewrite !all_bytes_app, (Hd a0), (Hd a1), (Hd a2), (Hd a3) by done. reflexivity.
Qed.

Lemma parseIPv6_not4 s a : parseIPv6 s = Some a -> Is4 a = false.
Proof.
  unfold parseIPv6. intros H. repeat case_match; simplify_eq; reflexivity.
Qed.

Lemma ParseAddr_ok s a : ParseAddr s = Some a -> Is4 a = true -> addr4 a /\ all_bytes dotted s = true.
Proof.
  unfold ParseAddr. intros H H4. repeat (case_match; try done).
  all: first [by apply parseIPv4_ok|apply parseIPv6_not4 in H; congruence].
Qed.

Lemma ParsePrefix_ok s p : ParsePrefix s = Some p -> Is4 (p_ip p) = true -> prefix4 p.
Proof.
  unfold ParsePrefix. destruct (cut_last "/" s) as [[a bits]|]; [|done].
  destruct (ParseAddr a) as [ip|] eqn:Ea; [|done]. destruct (hasZone ip); [done|].
  destruct bits as [|c rest]; [done|]. destruct (_ && _); [done|].
  destruct (dec_acc (String c rest) 0) as [n|] eqn:Ed; [|done].
  destruct (Z.leb_spec n (BitLen ip)) as [Hn|]; [|done]. intros [= <-] H4. cbn [p_ip] in H4.
  apply ParseAddr_ok in Ea as [Ha _]; [|done]. apply dec_acc_ok in Ed as [? _]; [|lia].
  split; [done|]. cbn [p_bits]. destruct Ha as (x & -> & _). simpl in Hn. lia.
Qed.

(** A printed IPv4 address or prefix has digits, dots and a slash only. *)
Definition netchar (c : ascii) : bool := dotted c || Ascii.eqb c "/".

Lemma addr_netchars a : addr4 a -> all_bytes netchar (addr_text a) = true.
Proof.
  intros (x & -> & _). eapply all_bytes_impl; [|apply string4_dotted]. intros c Hc. unfold netchar. by rewrite Hc.
Qed.

Lemma digits_netchars s : all_bytes is_digit s = true -> all_bytes netchar s = true.
Proof. apply all_bytes_impl. intros c Hc. unfold netchar, dotted. by rewrite Hc. Qed.

Lemma prefix_netchars p : prefix4 p -> all_bytes netchar (prefix_text p) = true.
Proof.
  intros [Ha Hb]. unfold prefix_text, PrefixValid. rewrite (proj2 (Z.leb_le 0 _)) by lia.
  rewrite all_bytes_app, (addr_netchars _ Ha), all_bytes_app, (digits_netchars (itoa (p_bits p))); [reflexivity|].
  by apply bits_facts.
Qed.
