(* ===== verification/Iptables.v ===== *)
(** * Reading iptables rules

    A rule is its words.  [walk] is the documented first-match reading of a
    chain for the matches stackr's packages write, user chains and [RETURN]
    included; [script_text] is a script as [iptables-restore] is fed it,
    [restore_read] how it takes it apart, quotes included, and [read_script] the
    same of a text without a quote mark. *)
From S2P Require Import Prelude GoStrings Netip.

Abbreviation line := (list string).

(** ** Scripts *)

Definition nl : ascii := "010".

Fixpoint script_text (ls : list line) : string :=
  match ls with
  | [] => ""
  | l :: ls => join " " l +:+ String nl (script_text ls)
  end.

Definition tab : ascii := "009".
Definition quote_mark : ascii := "034".
Definition backslash : ascii := "092".
Definition blank (c : ascii) : bool := Ascii.eqb c " " || Ascii.eqb c tab.
(** The word read so far, if there is one. *)
Definition word_end (cur : string) (ws : line) : line := if String.eqb cur "" then ws else cur :: ws.

(** [iptables-restore]'s words of a line: a blank ends a word, a quote mark
    starts text in which blanks are kept and a backslash takes the next byte as
    it is, and the mark that closes it ends the word. *)
Fixpoint restore_words (quoted escaped : bool) (cur s : string) : line :=
  match s with
  | EmptyString => word_end cur []
  | String c s =>
      let more := cur +:+ String c "" in
      if quoted then
        if escaped then restore_words true false more s
        else if Ascii.eqb c backslash then restore_words true true cur s
        else if Ascii.eqb c quote_mark then cur :: restore_words false false "" s
        else restore_words true false more s
      else if Ascii.eqb c quote_mark then restore_words true false cur s
      else if blank c then word_end cur (restore_words false false "" s)
      else restore_words false false more s
  end.
Example quote_joins : restore_words false false "" ("-i w" +:+ String quote_mark "g0 -j ACCEPT") = ["-i"; "wg0 -j ACCEPT"].
Proof. reflexivity. Qed.
(** The words between blanks. *)
Fixpoint blank_words (cur s : string) : line :=
  match s with
  | EmptyString => word_end cur []
  | String c s => if blank c then word_end cur (blank_words "" s) else blank_words (cur +:+ String c "") s
  end.
Definition full_lines (s : string) : list string := List.filter (fun l => negb (String.eqb l "")) (split nl s).
Definition restore_read (s : string) : list line := map (restore_words false false "") (full_lines s).
Definition read_script (s : string) : list line := map (blank_words "") (full_lines s).

(** A word no reader splits; [i] is the one word that may hold a quote mark. *)
Definition solid_for (i w : string) : bool :=
  negb (String.eqb w "") && negb (has_byte " " w) && negb (has_byte tab w) && negb (has_byte nl w) &&
  (negb (has_byte quote_mark w) || String.eqb w i).

(** The arguments after a prefix of words. *)
Fixpoint strip_args (p l : line) : option line :=
  match p, l with
  | [], _ => Some l
  | x :: p, y :: l => if String.eqb x y then strip_args p l else None
  | _, _ => None
  end.

(** The rules a script appends to chain [c] of the table it names last. *)
Definition rules_of (c : string) (ls : list line) : list line := omap (strip_args ["-A"; c]) ls.

(** ** Packets *)

(** A packet as the hooks see it: the destination and port before NAT too. *)
Record Pkt := MkPkt {
  k_in : string; k_out : string; k_src : Addr; k_dst : Addr; k_proto : string; k_dport : Z;
  k_icmp : string; k_state : string; k_odst : Addr; k_odport : Z }.

Inductive Verdict := VAccept | VDrop | VReturn.

Definition in_cidr (cidr : string) (a : Addr) : bool :=
  match ParsePrefix cidr with Some p => Contains p a | None => false end.

Definition is_port (x : string) (n : Z) : bool :=
  match Atoi x with Some m => m =? n | None => false end.
(** [lo:hi] or one port. *)
Definition port_in (x : string) (n : Z) : bool :=
  match cut ":" x with
  | None => is_port x n
  | Some (lo, hi) =>
      match Atoi lo, Atoi hi with Some l, Some h => (l <=? n) && (n <=? h) | _, _ => false end
  end.

(** An interface by its name, or by a prefix of it and a plus. *)
Definition iface_is (x n : string) : bool :=
  match rev_str x with String "+" r => has_prefix n (rev_str r) | _ => String.eqb x n end.

(** One match option and its value. *)
Definition matches (k x : string) (p : Pkt) : bool :=
  if String.eqb k "-i" then iface_is x (k_in p)
  else if String.eqb k "-o" then iface_is x (k_out p)
  else if String.eqb k "-s" then in_cidr x (k_src p)
  else if String.eqb k "-d" then in_cidr x (k_dst p)
  else if String.eqb k "-p" then String.eqb x (k_proto p)
  else if String.eqb k "-m" then true
  else if String.eqb k "--dport" then port_in x (k_dport p)
  else if String.eqb k "--dports" then existsb (fun y => is_port y (k_dport p)) (split "," x)
  else if String.eqb k "--ctstate" then contains (split "," x) (k_state p)
  else if String.eqb k "--ctorigdst" then bool_decide (ParseAddr x = Some (k_odst p))
  else if String.eqb k "--ctorigdstport" then port_in x (k_odport p)
  else if String.eqb k "--icmp-type" then String.eqb x (k_icmp p)
  else false.

(** The target of a rule the packet matches. *)
Fixpoint rule_target (r : line) (p : Pkt) : option string :=
  match r with
  | k :: x :: r =>
      if String.eqb k "-j" then Some x
      else if String.eqb k "!" then
        match r with
        | y :: r => if matches x y p then None else rule_target r p
        | [] => None
        end
      else if matches k x p then rule_target r p else None
  | _ => None
  end.

(** What walking a chain comes to: its end, a [RETURN], or a verdict. *)
Inductive Outcome := Falls | Returns | Final (v : Verdict).

Section Walk.
(** [call c] is the verdict of user chain [c], if it comes to one. *)
Context (call : string -> option Verdict).

Fixpoint walk (rules : list line) (p : Pkt) : Outcome :=
  match rules with
  | [] => Falls
  | r :: rules =>
      match rule_target r p with
      | None => walk rules p
      | Some t =>
          if String.eqb t "ACCEPT" then Final VAccept
          else if String.eqb t "DROP" then Final VDrop
          else if String.eqb t "RETURN" then Returns
          else match call t with Some v => Final v | None => walk rules p end
      end
  end.
End Walk.

(** The verdict of chain [c]; [fuel] bounds the depth of calls. *)
Fixpoint chain_verdict (fuel : nat) (chains : string -> list line) (c : string) (p : Pkt) : option Verdict :=
  match fuel with
  | O => None
  | S f =>
      match walk (fun t => chain_verdict f chains t p) (chains c) p with
      | Final v => Some v
      | _ => None
      end
  end.

(** ** Lemmas *)

Lemma strip_args_app p q l :
  strip_args (p ++ q) l = match strip_args p l with Some r => strip_args q r | None => None end.
Proof.
  revert l. induction p as [|x p IH]; intros l; [done|]. destruct l as [|y l]; [done|]. simpl.
  by destruct (String.eqb x y).
Qed.

Lemma strip_args_self p l : strip_args p (p ++ l) = Some l.
Proof. induction p as [|x p IH]; simpl; [done|]. by rewrite String.eqb_refl. Qed.

Lemma solid_inv i w : solid_for i w = true -> w <> "" /\ has_byte " " w = false /\ has_byte tab w = false /\ has_byte nl w = false.
Proof. unfold solid_for. intros H. by bsimpl. Qed.
Lemma solid_quote i w : solid_for i w = true -> has_byte quote_mark i = false -> has_byte quote_mark w = false.
Proof. unfold solid_for. rewrite andb_true_iff. intros [_ H] Hi. apply orb_true_iff in H as [H%negb_true_iff|H%String.eqb_eq]; [done|by subst]. Qed.
(** A word that holds none is solid for any. *)
Lemma solid_any i w : solid_for "" w = true -> solid_for i w = true.
Proof.
  intros H. pose proof (solid_inv "" w H) as (H1 & H2 & H3 & H4). unfold solid_for.
  by rewrite (proj2 (String.eqb_neq _ _)), H2, H3, H4, (solid_quote "" w H).
Qed.

Lemma join_no_nl i l : Forall (fun w => solid_for i w = true) l -> has_byte nl (join " " l) = false.
Proof.
  induction 1 as [|w l Hw HF IH]; [done|]. apply solid_inv in Hw as (_ & _ & _ & Hw). destruct l as [|w2 l]; [done|].
  rewrite join_cons by done. by rewrite !has_byte_app, IH, Hw.
Qed.

Lemma join_nonempty i l : l <> [] -> Forall (fun w => solid_for i w = true) l -> join " " l <> "".
Proof.
  intros Hne HF. destruct HF as [|w l Hw HF]; [done|]. apply solid_inv in Hw as [Hw _].
  destruct l as [|w2 l]; [done|]. rewrite join_cons by done. by destruct w.
Qed.

Lemma blank_word cur w s : has_byte " " w = false -> has_byte tab w = false -> blank_words cur (w +:+ s) = blank_words (cur +:+ w) s.
Proof.
  revert cur. induction w as [|c w IH]; intros cur H1 H2; [by str|]. cbn [has_byte] in H1, H2. apply orb_false_iff in H1 as [C1 H1], H2 as [C2 H2].
  rewrite app_cons_str. cbn [blank_words]. unfold blank. rewrite !(Ascii.eqb_sym c), C1, C2. cbn [orb]. rewrite IH by done.
  by rewrite <-app_assoc_str, app_cons_str, app_nil_str.
Qed.
Lemma blank_join i l : Forall (fun w => solid_for i w = true) l -> blank_words "" (join " " l) = l.
Proof.
  induction 1 as [|w l (Hn & H1 & H2 & _)%solid_inv HF IH]; [done|]. assert (word_end w [] = [w]) as Hw by (unfold word_end; by rewrite (proj2 (String.eqb_neq w ""))).
  destruct l as [|w2 l]; [cbn [join String.concat]; rewrite <-(app_nil_r_str w) at 1; by rewrite blank_word|].
  rewrite join_cons by done. rewrite blank_word by done. rewrite app_nil_str. change (" " +:+ ?x) with (String " " x).
  cbn [blank_words]. change (blank " ") with true. cbv iota. rewrite IH. unfold word_end. by rewrite (proj2 (String.eqb_neq w "")).
Qed.

(** A script of solid words is read as it was meant. *)
Lemma read_script_text i ls : Forall (fun l => l <> [] /\ Forall (fun w => solid_for i w = true) l) ls ->
  read_script (script_text ls) = ls.
Proof.
  unfold read_script, full_lines. induction 1 as [|l ls [Hne Hl] _ IH]; [done|]. simpl.
  rewrite split_app by (by eapply join_no_nl). simpl.
  rewrite (proj2 (String.eqb_neq _ _)) by (by eapply join_nonempty). simpl. by rewrite IH, (blank_join i).
Qed.

Lemma restore_words_plain cur s : has_byte quote_mark s = false -> restore_words false false cur s = blank_words cur s.
Proof.
  revert cur. induction s as [|c s IH]; intros cur; [done|]. cbn [has_byte restore_words blank_words]. intros [Hc Hs]%orb_false_iff.
  rewrite Ascii.eqb_sym, Hc. by rewrite !IH.
Qed.
Lemma script_unquoted i ls : Forall (fun l => l <> [] /\ Forall (fun w => solid_for i w = true) l) ls -> has_byte quote_mark i = false ->
  has_byte quote_mark (script_text ls) = false.
Proof.
  intros HF Hi. induction HF as [|l ls [_ Hl] _ IH]; [done|]. cbn [script_text]. rewrite has_byte_app. change (String nl ?x) with (String nl "" +:+ x).
  rewrite has_byte_app, IH, orb_false_r. clear IH. induction Hl as [|w l Hw Hl IH]; [done|]. apply solid_quote in Hw; [|done].
  destruct l as [|w2 l]; [by cbn [join String.concat]; rewrite Hw|]. rewrite join_cons by done. rewrite !has_byte_app, Hw. exact IH.
Qed.
Lemma split_byte sep c s : has_byte c s = false -> Forall (fun x => has_byte c x = false) (split sep s).
Proof.
  induction s as [|d s IH]; [by repeat constructor|]. cbn [has_byte split]. intros [Hd Hs]%orb_false_iff. specialize (IH Hs).
  destruct (Ascii.eqb d sep); [by constructor|]. destruct (split sep s) as [|x xs]; [by repeat constructor; cbn; rewrite Hd|].
  inv IH. constructor; [|done]. cbn [has_byte]. by rewrite Hd.
Qed.
(** Where no word holds a quote mark, [iptables-restore] reads the same. *)
Lemma restore_read_text i ls : Forall (fun l => l <> [] /\ Forall (fun w => solid_for i w = true) l) ls -> has_byte quote_mark i = false ->
  restore_read (script_text ls) = ls.
Proof.
  intros HF Hi. rewrite <-(read_script_text i ls HF) at 2. unfold restore_read, read_script. apply map_ext_in. intros l Hl%list_elem_of_In.
  apply restore_words_plain. pose proof (script_unquoted i ls HF Hi) as Hq. unfold full_lines in Hl. apply elem_of_filterb in Hl as [Hl _].
  by apply (proj1 (Forall_forall _ _) (split_byte nl _ _ Hq)).
Qed.

Section WalkLemmas.
Context (call : string -> option Verdict).

Lemma walk_app r1 r2 p :
  walk call (r1 ++ r2) p = match walk call r1 p with Falls => walk call r2 p | o => o end.
Proof.
  induction r1 as [|r r1 IH]; simpl; [done|]. destruct (rule_target r p) as [t|]; [|done].
  repeat (case_match; try done).
Qed.

(** A run of rules that differ only in what they match. *)
Lemma walk_map {A} (mk : A -> line) (m : A -> bool) t (l : list A) p :
  (forall x, x ∈ l -> rule_target (mk x) p = if m x then Some t else None) ->
  walk call (map mk l) p =
  if existsb m l then
    (if String.eqb t "ACCEPT" then Final VAccept else if String.eqb t "DROP" then Final VDrop
     else if String.eqb t "RETURN" then Returns
     else match call t with Some v => Final v | None => Falls end)
  else Falls.
Proof.
  induction l as [|x l IH]; simpl; intros Hm; [done|]. rewrite Hm by set_solver.
  rewrite IH by (intros y Hy; apply Hm; set_solver). destruct (m x); simpl; [|done].
  repeat (case_match; try done).
Qed.
End WalkLemmas.

Lemma rules_of_app c l1 l2 : rules_of c (l1 ++ l2) = rules_of c l1 ++ rules_of c l2.
Proof. apply omap_app. Qed.

Lemma rules_of_cons c l ls :
  rules_of c (l :: ls) = match strip_args ["-A"; c] l with Some r => r :: rules_of c ls | None => rules_of c ls end.
Proof. done. Qed.

Lemma rules_of_self c rs : rules_of c (map (app ["-A"; c]) rs) = rs.
Proof.
  induction rs as [|r rs IH]; [done|]. cbn [map]. by rewrite rules_of_cons, strip_args_self, IH.
Qed.

Lemma rules_of_other c d rs : c <> d -> rules_of c (map (app ["-A"; d]) rs) = [].
Proof.
  intros Hne. induction rs as [|r rs IH]; [done|]. cbn [map]. rewrite rules_of_cons, IH.
  cbn [strip_args app]. by rewrite String.eqb_refl, (proj2 (String.eqb_neq c d)).
Qed.

(** Rules in groups, each of which the packet takes or falls through. *)
Lemma walk_flat {A} call (f : A -> list line) (m : A -> bool) o (l : list A) p :
  (forall x, x ∈ l -> walk call (f x) p = if m x then o else Falls) ->
  walk call (concat (map f l)) p = if existsb m l then o else Falls.
Proof.
  induction l as [|x l IH]; intros Hm; simpl; [done|]. rewrite walk_app, Hm by set_solver.
  rewrite IH by (intros y Hy; apply Hm; set_solver). by destruct (m x), o, (existsb m l).
Qed.

(** How each word of a rule is read; the literals these rules write compute. *)
Create Rewrite HintDb ipt.

Section RuleWords.
Context (x y : string) (r : line) (p : Pkt).

Lemma rt_j : rule_target ("-j" :: x :: r) p = Some x.
Proof. done. Qed.
Lemma rt_i : rule_target ("-i" :: x :: r) p = if iface_is x (k_in p) then rule_target r p else None.
Proof. done. Qed.
Lemma rt_o : rule_target ("-o" :: x :: r) p = if iface_is x (k_out p) then rule_target r p else None.
Proof. done. Qed.
Lemma rt_s : rule_target ("-s" :: x :: r) p = if in_cidr x (k_src p) then rule_target r p else None.
Proof. done. Qed.
Lemma rt_d : rule_target ("-d" :: x :: r) p = if in_cidr x (k_dst p) then rule_target r p else None.
Proof. done. Qed.
Lemma rt_p : rule_target ("-p" :: x :: r) p = if String.eqb x (k_proto p) then rule_target r p else None.
Proof. done. Qed.
Lemma rt_m : rule_target ("-m" :: x :: r) p = rule_target r p.
Proof. done. Qed.
Lemma rt_dport : rule_target ("--dport" :: x :: r) p = if port_in x (k_dport p) then rule_target r p else None.
Proof. done. Qed.
Lemma rt_dports : rule_target ("--dports" :: x :: r) p =
  if existsb (fun y => is_port y (k_dport p)) (split "," x) then rule_target r p else None.
Proof. done. Qed.
Lemma rt_ctstate : rule_target ("--ctstate" :: x :: r) p =
  if contains (split "," x) (k_state p) then rule_target r p else None.
Proof. done. Qed.
Lemma rt_not : rule_target ("!" :: x :: y :: r) p = if matches x y p then None else rule_target r p.
Proof. done. Qed.
Lemma rt_origdst : rule_target ("--ctorigdst" :: x :: r) p =
  if bool_decide (ParseAddr x = Some (k_odst p)) then rule_target r p else None.
Proof. done. Qed.
Lemma rt_origport : rule_target ("--ctorigdstport" :: x :: r) p = if port_in x (k_odport p) then rule_target r p else None.
Proof. done. Qed.
Lemma rt_icmp : rule_target ("--icmp-type" :: x :: r) p = if String.eqb x (k_icmp p) then rule_target r p else None.
Proof. done. Qed.
End RuleWords.
#[export] Hint Rewrite rt_j rt_i rt_o rt_s rt_d rt_p rt_m rt_dport rt_dports rt_ctstate rt_not rt_origdst rt_origport
  rt_icmp : ipt.

(** ** Scripts, applied

    What [iptables-restore --noflush] does to the chains of the tables a
    script names: a declared chain is created or flushed, rules are appended
    to chains that are there, a chain is deleted when it is empty and nothing
    jumps to it, and [COMMIT] makes a table's changes the kernel's. *)

Abbreviation chains := (gmap (string * string) (list line)).

(** The target of a rule, options and their values apart. *)
Fixpoint jump_of (r : line) : option string :=
  match r with
  | k :: x :: r =>
      if String.eqb k "-j" then Some x
      else if String.eqb k "!" then match r with _ :: r => jump_of r | [] => None end
      else jump_of r
  | _ => None
  end.

Definition endings : list string := ["ACCEPT"; "DROP"; "RETURN"].
Definition builtin : list string := "DNAT" :: endings.

Record Restoring := MkRestoring { r_done : chains; r_work : chains; r_tbl : string }.

Definition target_ok (work : chains) (tbl : string) (r : line) : bool :=
  match jump_of r with Some t => contains builtin t || bool_decide (is_Some (work !! (tbl, t))) | None => true end.

Definition refers (c : string) (tbl : string) (work : chains) : bool :=
  existsb (fun kv => String.eqb kv.1.1 tbl && existsb (fun r => bool_decide (jump_of r = Some c)) kv.2) (map_to_list work).

Definition restore_line (st : Restoring) (l : line) : option Restoring :=
  match l with
  | [String "*" t] => Some (MkRestoring (r_done st) (r_done st) t)
  | ["COMMIT"] => Some (MkRestoring (r_work st) (r_work st) "")
  | [String ":" c; _; _] => Some (MkRestoring (r_done st) (<[(r_tbl st, c) := []]> (r_work st)) (r_tbl st))
  | "-A" :: c :: r =>
      match r_work st !! (r_tbl st, c) with
      | Some rs => if target_ok (r_work st) (r_tbl st) r then
          Some (MkRestoring (r_done st) (<[(r_tbl st, c) := rs ++ [r]]> (r_work st)) (r_tbl st)) else None
      | None => None
      end
  | ["-X"; c] =>
      match r_work st !! (r_tbl st, c) with
      | Some [] => if refers c (r_tbl st) (r_work st) then None
          else Some (MkRestoring (r_done st) (delete (r_tbl st, c) (r_work st)) (r_tbl st))
      | _ => None
      end
  | _ => None
  end.

Fixpoint restore_lines (st : Restoring) (ls : list line) : option Restoring :=
  match ls with
  | [] => Some st
  | l :: ls => match restore_line st l with Some st => restore_lines st ls | None => None end
  end.

Lemma restore_lines_app st l1 l2 :
  restore_lines st (l1 ++ l2) = match restore_lines st l1 with Some st => restore_lines st l2 | None => None end.
Proof. revert st. induction l1 as [|l l1 IH]; intros st; [done|]. simpl. by destruct (restore_line st l). Qed.

Definition declare (c : string) : line := [":" +:+ c; "-"; "[0:0]"].
Definition append (c : string) (rules : list line) : list line := map (app ["-A"; c]) rules.

Lemma restore_declare st c :
  restore_line st (declare c) = Some (MkRestoring (r_done st) (<[(r_tbl st, c) := []]> (r_work st)) (r_tbl st)).
Proof. by destruct c. Qed.

Lemma restore_declares cs d w t : exists w', restore_lines (MkRestoring d w t) (map declare cs) = Some (MkRestoring d w' t) /\
  forall k, w' !! k = if bool_decide (k.1 = t /\ k.2 ∈ cs) then Some [] else w !! k.
Proof.
  revert w. induction cs as [|c cs IH]; intros w.
  - exists w. split; [done|]. intros k. rewrite bool_decide_false by set_solver. done.
  - cbn [map restore_lines]. rewrite restore_declare. cbn [r_done r_work r_tbl]. destruct (IH (<[(t, c) := []]> w)) as (w' & E & Hw).
    exists w'. split; [done|]. intros [t' c']. rewrite Hw. simpl.
    destruct (decide (t' = t /\ c' ∈ cs)).
    { rewrite !bool_decide_true; set_solver. }
    rewrite bool_decide_false by done. destruct (decide ((t, c) = (t', c'))) as [[= -> ->]|Hne].
    + rewrite lookup_insert_eq, bool_decide_true; set_solver.
    + rewrite lookup_insert_ne by done. rewrite bool_decide_false; [done|]. set_solver.
Qed.

Lemma restore_append st c r : restore_line st ("-A" :: c :: r) =
  match r_work st !! (r_tbl st, c) with
  | Some rs => if target_ok (r_work st) (r_tbl st) r then
      Some (MkRestoring (r_done st) (<[(r_tbl st, c) := rs ++ [r]]> (r_work st)) (r_tbl st)) else None
  | None => None
  end.
Proof. by destruct r as [|x [|y r]]. Qed.

(** A line that appends to a chain that is there. *)
Definition append_ok (w : chains) (t : string) (l : line) : Prop :=
  exists c r, l = "-A" :: c :: r /\ is_Some (w !! (t, c)) /\ target_ok w t r = true.

Lemma target_ok_same (w w' : chains) t r : (forall k, is_Some (w !! k) <-> is_Some (w' !! k)) ->
  target_ok w' t r = target_ok w t r.
Proof.
  intros Hw. unfold target_ok. destruct (jump_of r) as [x|]; [|done]. f_equal. apply bool_decide_ext. by rewrite Hw.
Qed.

Lemma restore_appends ls d w t : Forall (append_ok w t) ls ->
  exists w', restore_lines (MkRestoring d w t) ls = Some (MkRestoring d w' t) /\
  forall k, w' !! k = if bool_decide (k.1 = t) then (fun rs => rs ++ rules_of k.2 ls) <$> w !! k else w !! k.
Proof.
  revert w. induction ls as [|l ls IH]; intros w HF.
  - exists w. split; [done|]. intros k. case_bool_decide; [|done]. destruct (w !! k); [|done]. simpl. by rewrite app_nil_r.
  - apply Forall_cons in HF as [(c & r & -> & [rs Hrs] & Ht) HF]. cbn [restore_lines]. rewrite restore_append.
    cbn [r_done r_work r_tbl]. rewrite Hrs, Ht. cbn [r_done r_work r_tbl].
    destruct (IH (<[(t, c) := rs ++ [r]]> w)) as (w' & E & Hw').
    { assert (forall k, is_Some (w !! k) <-> is_Some (<[(t, c) := rs ++ [r]]> w !! k)) as Hsame.
      { intros k. destruct (decide ((t, c) = k)) as [<-|]; [rewrite lookup_insert_eq, Hrs; by split; eauto|].
        by rewrite lookup_insert_ne. }
      eapply Forall_impl; [exact HF|]. intros l (c' & r' & -> & Hs & Ht'). exists c', r'.
      by rewrite <-Hsame, (target_ok_same w). }
    exists w'. split; [done|]. intros [t' c']. rewrite Hw'. simpl. destruct (decide (t' = t)) as [->|].
    2: { rewrite !bool_decide_false by done. apply lookup_insert_ne. congruence. }
    rewrite !bool_decide_true by done. destruct (String.eqb_spec c' c) as [->|Hne].
    + rewrite lookup_insert_eq, Hrs. simpl. by rewrite <-app_assoc.
    + rewrite lookup_insert_ne by congruence. done.
Qed.

Lemma refers_spec c t w : refers c t w = true <->
  exists c' rs r, w !! (t, c') = Some rs /\ r ∈ rs /\ jump_of r = Some c.
Proof.
  unfold refers. rewrite existsb_exists. split.
  - intros ([[t' c'] rs] & Hin & [E H]%andb_true_iff). apply list_elem_of_In, elem_of_map_to_list in Hin. simpl in *.
    apply String.eqb_eq in E as ->. apply existsb_exists in H as (r & Hr & Hj). apply list_elem_of_In in Hr. bsimpl.
    by exists c', rs, r.
  - intros (c' & rs & r & Hl & Hr & Hj). exists ((t, c'), rs). rewrite <-list_elem_of_In, elem_of_map_to_list. simpl.
    rewrite String.eqb_refl. split; [done|]. apply existsb_exists. exists r. rewrite <-list_elem_of_In. split; [done|].
    by apply bool_decide_eq_true.
Qed.

Lemma refers_delete c g t w : refers c t w = false -> refers c t (delete (t, g) w) = false.
Proof.
  rewrite <-!not_true_iff_false, !refers_spec. intros Hn (c' & rs & r & Hl & Hr). apply Hn. exists c', rs, r.
  by apply lookup_delete_Some in Hl as [_ Hl].
Qed.

Definition drop_chain (c : string) : line := ["-X"; c].

Lemma restore_drops gone d w t : NoDup gone ->
  (forall g, g ∈ gone -> w !! (t, g) = Some [] /\ refers g t w = false) ->
  exists w', restore_lines (MkRestoring d w t) (map drop_chain gone) = Some (MkRestoring d w' t) /\
  forall k, w' !! k = if bool_decide (k.1 = t /\ k.2 ∈ gone) then None else w !! k.
Proof.
  intros Hnd. revert w. induction Hnd as [|g gone Hg Hnd IH]; intros w Hw.
  - exists w. split; [done|]. intros k. by rewrite bool_decide_false by set_solver.
  - destruct (Hw g ltac:(set_solver)) as [Hgw Hr]. unfold drop_chain at 1. cbn [map restore_lines restore_line r_work r_tbl].
    rewrite Hgw, Hr. cbn [r_done]. destruct (IH (delete (t, g) w)) as (w' & E & Hw').
    { intros g' Hg'. destruct (Hw g' ltac:(set_solver)). rewrite lookup_delete_ne by congruence.
      split; [done|by apply refers_delete]. }
    exists w'. split; [done|]. intros [t' c']. rewrite Hw'. simpl. destruct (decide (t' = t /\ c' ∈ gone)).
    { rewrite !bool_decide_true; set_solver. }
    rewrite bool_decide_false by done. destruct (decide ((t, g) = (t', c'))) as [[= <- <-]|Hne].
    + rewrite lookup_delete_eq, bool_decide_true; set_solver.
    + rewrite lookup_delete_ne by done. rewrite bool_decide_false; [done|]. set_solver.
Qed.

(** A rule of a section: in a declared chain, to a builtin or a declared one. *)
Definition rule_in (cs : list string) (l : line) : Prop :=
  exists c r, l = "-A" :: c :: r /\ c ∈ cs /\ forall t, jump_of r = Some t -> t ∈ builtin ++ cs.

Lemma rules_of_in c r ls : r ∈ rules_of c ls -> "-A" :: c :: r ∈ ls.
Proof.
  unfold rules_of. rewrite list_elem_of_omap. intros (l & Hl & E). destruct l as [|a [|c' l]]; [done| |]; cbn [strip_args] in E.
  - by destruct (String.eqb "-A" a).
  - destruct (String.eqb_spec "-A" a) as [<-|]; [|done]. destruct (String.eqb_spec c c') as [<-|]; [|done]. by injection E as ->.
Qed.

Definition section (t : string) (cs : list string) (ls : list line) (gone : list string) : list line :=
  [[("*" +:+ t)]] ++ map declare cs ++ ls ++ map drop_chain gone ++ [["COMMIT"]].

(** What one table's section does. *)
Lemma restore_section d w0 t0 t cs ls gone : Forall (rule_in cs) ls -> NoDup gone -> (forall g, g ∈ gone -> g ∈ cs) ->
  (forall g, g ∈ gone -> rules_of g ls = [] /\ (forall c r, "-A" :: c :: r ∈ ls -> jump_of r <> Some g) /\
    (forall c rs r, c ∉ cs -> d !! (t, c) = Some rs -> r ∈ rs -> jump_of r <> Some g)) ->
  exists w', restore_lines (MkRestoring d w0 t0) (section t cs ls gone) = Some (MkRestoring w' w' "") /\
  forall k, w' !! k = if bool_decide (k.1 = t /\ k.2 ∈ gone) then None
    else if bool_decide (k.1 = t /\ k.2 ∈ cs) then Some (rules_of k.2 ls) else d !! k.
Proof.
  intros Hls Hnd Hsub Hg. unfold section. cbn [app restore_lines].
  change (restore_line _ [_]) with (Some (MkRestoring d d t)). cbv iota.
  destruct (restore_declares cs d d t) as (w1 & E1 & H1). rewrite restore_lines_app, E1.
  assert (forall c, c ∈ cs -> w1 !! (t, c) = Some []) as H1cs by (intros c Hc; by rewrite H1, bool_decide_true).
  destruct (restore_appends ls d w1 t) as (w2 & E2 & H2).
  { eapply Forall_impl; [exact Hls|]. intros l (c & r & -> & Hc & Hj). exists c, r. split; [done|]. rewrite H1cs by done.
    split; [by eexists|]. unfold target_ok. destruct (jump_of r) as [x|]; [|done]. specialize (Hj x eq_refl).
    apply elem_of_app in Hj as [Hj|Hj]; [by unfold contains; rewrite bool_decide_true|].
    rewrite H1cs by done. by rewrite (bool_decide_true (is_Some _)), orb_true_r by (by eexists). }
  rewrite restore_lines_app, E2.
  destruct (restore_drops gone d w2 t Hnd) as (w3 & E3 & H3).
  { intros g Hin. destruct (Hg g Hin) as (Hr & Hj & Hd). rewrite H2. simpl. rewrite bool_decide_true, H1cs by auto. simpl.
    rewrite Hr. split; [done|]. apply not_true_iff_false. rewrite refers_spec. intros (c' & rs & r & Hl & Hrs & Hjr).
    rewrite H2 in Hl. simpl in Hl. rewrite bool_decide_true in Hl by done. rewrite H1 in Hl. simpl in Hl.
    destruct (decide (c' ∈ cs)).
    - rewrite bool_decide_true in Hl by done. injection Hl as <-. simpl in Hrs. by eapply Hj, Hjr; apply rules_of_in.
    - rewrite bool_decide_false in Hl by naive_solver. destruct (d !! (t, c')) as [rs0|] eqn:Ed; [|done]. injection Hl as <-.
      apply elem_of_app in Hrs as [Hrs|Hrs]; [by eapply Hd|]. eapply Hj; [by apply rules_of_in|done]. }
  rewrite restore_lines_app, E3. exists w3. split; [done|]. intros [t' c']. rewrite H3, H2, H1. simpl.
  destruct (decide (t' = t)) as [->|]; [|by rewrite !bool_decide_false by naive_solver].
  destruct (decide (c' ∈ gone)); [by rewrite bool_decide_true|]. rewrite (bool_decide_false (_ /\ c' ∈ gone)) by naive_solver.
  rewrite (bool_decide_true (t = t)) by done. destruct (decide (c' ∈ cs)).
  - by rewrite !bool_decide_true.
  - rewrite !bool_decide_false by naive_solver. destruct (d !! (t, c')) as [rs|]; [|done]. simpl.
    replace (rules_of c' ls) with (@nil line); [by rewrite app_nil_r|]. destruct (rules_of c' ls) as [|r rs'] eqn:E; [done|].
    assert (r ∈ rules_of c' ls) as Hr%rules_of_in by (rewrite E; set_solver).
    apply (proj1 (Forall_forall _ _) Hls) in Hr as (c2 & r2 & [= -> ->] & Hc & _). done.
Qed.

Lemma rules_of_section c t cs ls gone : rules_of c (section t cs ls gone) = rules_of c ls.
Proof.
  unfold section. rewrite !rules_of_app.
  assert (rules_of c (map declare cs) = []) as -> by (by induction cs as [|x cs IH]).
  assert (rules_of c (map drop_chain gone) = []) as -> by (by induction gone as [|x gone IH]).
  by rewrite !app_nil_r.
Qed.

Definition restoring (K : chains) : Restoring := MkRestoring K K "".

(** A section that deletes no chain. *)
Lemma plain_section K0 t cs ls : Forall (rule_in cs) ls -> exists K1,
  restore_lines (restoring K0) (section t cs ls []) = Some (restoring K1) /\
  forall k, K1 !! k = if bool_decide (k.1 = t /\ k.2 ∈ cs) then Some (rules_of k.2 ls) else K0 !! k.
Proof.
  intros Hls. destruct (restore_section K0 K0 "" t cs ls []) as (K1 & E & HK); [done|apply NoDup_nil_2|set_solver..|].
  exists K1. split; [done|]. intros k. rewrite HK. by rewrite bool_decide_false by set_solver.
Qed.

(** What one line can do. *)
Inductive line_effect (st : Restoring) (l : line) : Restoring -> Prop :=
| le_table t : line_effect st l (MkRestoring (r_done st) (r_done st) t)
| le_commit : line_effect st l (MkRestoring (r_work st) (r_work st) "")
| le_declare c : line_effect st l (MkRestoring (r_done st) (<[(r_tbl st, c) := []]> (r_work st)) (r_tbl st))
| le_append c r rs : l = "-A" :: c :: r -> r_work st !! (r_tbl st, c) = Some rs ->
    line_effect st l (MkRestoring (r_done st) (<[(r_tbl st, c) := rs ++ [r]]> (r_work st)) (r_tbl st))
| le_drop c : line_effect st l (MkRestoring (r_done st) (delete (r_tbl st, c) (r_work st)) (r_tbl st)).

Lemma restore_line_effect st l st' : restore_line st l = Some st' -> line_effect st l st'.
Proof.
  unfold restore_line. intros E. repeat case_match; simplify_eq; econstructor; done.
Qed.

(** ** Chains that only differ out of reach *)

Lemma rule_target_jump r p t : rule_target r p = Some t -> jump_of r = Some t.
Proof.
  assert (forall n r, (length r <= n)%nat -> rule_target r p = Some t -> jump_of r = Some t) as H by
    (induction n as [|n IH]; intros [|k [|x r']] Hn; simpl in Hn |- *; try done; try lia;
     destruct (String.eqb k "-j"); [done|]; destruct (String.eqb k "!");
     [destruct r' as [|y r']; [done|]; destruct (matches x y p); [done|]; apply IH; simpl in Hn; lia
     |destruct (matches k x p); [|done]; apply IH; lia]).
  by apply (H (length r)).
Qed.

Lemma chain_verdict_ext f (ch1 ch2 : string -> list line) cs p c : (forall c, c ∈ cs -> ch1 c = ch2 c) ->
  (forall c r t, c ∈ cs -> r ∈ ch1 c -> jump_of r = Some t -> t ∈ endings ++ cs) -> c ∈ cs ->
  chain_verdict f ch1 c p = chain_verdict f ch2 c p.
Proof.
  intros Heq Hj. revert c. induction f as [|f IH]; intros c Hc; [done|]. simpl. rewrite <-(Heq c Hc).
  assert (forall rs, (forall r t, r ∈ rs -> jump_of r = Some t -> t ∈ endings ++ cs) ->
    walk (fun t => chain_verdict f ch1 t p) rs p = walk (fun t => chain_verdict f ch2 t p) rs p) as ->; [|done|by eauto].
  induction rs as [|r rs IHr]; intros Hrs; [done|]. cbn [walk]. rewrite IHr by set_solver.
  destruct (rule_target r p) as [t|] eqn:Et; [|done]. apply rule_target_jump, Hrs in Et; [|set_solver].
  apply elem_of_app in Et as [Et|Et]; [|by rewrite IH].
  revert t Et. apply Forall_forall. by repeat constructor.
Qed.
