(* ===== verification/Exits.v ===== *)
(** * Exit plans ([internal/exits/resolve.go], [internal/exits/plan.go])

    Which ladder of exits a tile uses, and the commands ([argv], never a shell
    line) a node and an exit run for one exit link.  Commands go through an
    injected runner; [run] below is that runner over a world [W]. *)
From S2P Require Import Prelude GoStrings Errs Netip Iptables.

(** ** Ladder resolution *)

Inductive Source := SourceTile | SourceEnv | SourceStack | SourceOrg | SourceNode
  | SourceDefault | SourceNone.
#[export] Instance Source_eq_dec : EqDecision Source.
Proof. solve_decision. Defined.

Record Levels := MkLevels {
  lv_Tile : list string; lv_Env : list string; lv_Stack : list string;
  lv_Org : list string; lv_Node : list string }.

Record Resolution := MkResolution { res_Source : Source; res_Nodes : list string }.

(** Drops empty ids and every duplicate after the first; [seen] is the map of
    the loop. *)
Fixpoint dedupe_from (seen : gset string) (l : list string) : list string :=
  match l with
  | [] => []
  | n :: l =>
      if String.eqb n "" || bool_decide (n ∈ seen) then dedupe_from seen l
      else n :: dedupe_from ({[n]} ∪ seen) l
  end.
Definition dedupe (l : list string) : list string := dedupe_from ∅ l.

Fixpoint resolve_levels (cs : list (Source * list string)) : Resolution :=
  match cs with
  | [] => MkResolution SourceNone []
  | (src, nodes) :: cs =>
      let n := dedupe nodes in
      if Nat.ltb 0 (length n) then MkResolution src n else resolve_levels cs
  end.

Definition candidates (l : Levels) (def : list string) : list (Source * list string) :=
  [(SourceTile, lv_Tile l); (SourceEnv, lv_Env l); (SourceStack, lv_Stack l);
   (SourceOrg, lv_Org l); (SourceNode, lv_Node l); (SourceDefault, def)].
Definition Resolve (l : Levels) (def : list string) : Resolution := resolve_levels (candidates l def).

(** Does the tile on node [self] need exit machinery? *)
Definition Routed (r : Resolution) (self : string) : bool :=
  existsb (fun n => negb (String.eqb n self)) (res_Nodes r).

(** ** Steps *)

Record Step := MkStep { Argv : list string; Chk : option (list string); IgnoreErr : bool }.

Section Apply.
Context {W : Type} (run : W -> list string -> option error * W).

(** Runs the steps in order and stops at the first real failure. *)
Fixpoint Apply (steps : list Step) (w : W) : option error * W :=
  match steps with
  | [] => (None, w)
  | s :: rest =>
      let do_argv w :=
        match run w (Argv s) with
        | (Some err, w) =>
            if IgnoreErr s then Apply rest w
            else (Some (Wrap (Sprintf "%v: %w" (map AStr (Argv s))) err), w)
        | (None, w) => Apply rest w
        end in
      match Chk s with
      | Some check =>
          match run w check with
          | (None, w) => Apply rest w
          | (Some _, w) => do_argv w
          end
      | None => do_argv w
      end
  end.
End Apply.

(** The destinations an exit never forwards to. *)
Definition Refused_dests : list string :=
  ["10.0.0.0/8"; "172.16.0.0/12"; "192.168.0.0/16"; "100.64.0.0/10"; "169.254.0.0/16"].

Definition cmd (a : list string) : Step := MkStep a None false.
Definition quiet (a : list string) : Step := MkStep a None true.
Definition ipt (table : string) (rule : list string) : list string :=
  ["iptables"; "-t"; table] ++ rule.

(** Add a rule if [-C] says it is missing; [pos] "" appends. *)
Definition once (table chain pos : string) (rule : list string) : Step :=
  let check := ipt table (["-C"; chain] ++ rule) in
  let add := if negb (String.eqb pos "") then ipt table ["-I"; chain; pos]
             else ipt table ["-A"; chain] in
  MkStep (add ++ rule) (Some check) false.

Definition bad_range (s : string) : error :=
  Wrap (Sprintf "exits: bad range %q: %w" [AStr s]) (New "netip.ParsePrefix").

Definition prefixes (inp : list string) : option error :=
  match inp with
  | [] => Some (Errorf (text "exits: no source ranges"))
  | _ => bad_range <$> find_first (fun s => bool_decide (ParsePrefix s = None)) inp
  end.

Definition ifaceName (n : string) : option error :=
  if String.eqb n "" || (15 <? slen n) then Some (Errorf (Sprintf "exits: bad interface name %q" [AStr n]))
  else None.

(** [net.SplitHostPort]: host and port around the last colon, an IPv6 host in
    brackets. *)
Definition SplitHostPort (s : string) : option (string * string) :=
  match cut_last ":" s with
  | None => None
  | Some (h, port) =>
      match strip_prefix "[" h with
      | Some inner =>
          match cut "]" inner with
          | Some (host, "") =>
              if has_byte "[" host || has_byte "[" port || has_byte "]" port then None
              else Some (host, port)
          | _ => None
          end
      | None =>
          if has_byte ":" h || has_byte "[" s || has_byte "]" s then None else Some (h, port)
      end
  end.

Definition hostPort (s : string) : option error :=
  match SplitHostPort s with
  | None => Some (Wrap (Sprintf "exits: bad endpoint %q: %w" [AStr s]) (New "net.SplitHostPort"))
  | Some (_, p) =>
      match Atoi p with
      | Some n => if (n <? 1) || (65535 <? n)
                  then Some (Errorf (Sprintf "exits: bad endpoint port %q" [AStr s])) else None
      | None => Some (Errorf (Sprintf "exits: bad endpoint port %q" [AStr s]))
      end
  end.

(** Go's [if err := f(); err != nil { return err }] on [option error]. *)
Notation "c ;;! k" := (match c with Some err => Some err | None => k end)
  (at level 60, right associativity) : go_scope.

(** ** The node side *)

Record Link := MkLink {
  l_Iface : string; l_KeyFile : string; l_Port : Z; l_PeerKey : string; l_Endpoint : string;
  l_Addr : string; l_Table : Z; l_Sources : list string; l_MTU : Z }.

Definition Link_validate (l : Link) : option error :=
  ifaceName (l_Iface l) ;;!
  (if String.eqb (l_KeyFile l) "" || String.eqb (l_PeerKey l) "" || (l_Port l <? 1) || (l_Table l <? 1)
   then Some (Errorf (Sprintf "exits: link %s needs key file, peer key, port and table" [AStr (l_Iface l)]))
   else None) ;;!
  (match ParsePrefix (l_Addr l) with
   | None => Some (Wrap (Sprintf "exits: bad transit address %q: %w" [AStr (l_Addr l)]) (New "netip.ParsePrefix"))
   | Some _ => None
   end) ;;!
  hostPort (l_Endpoint l) ;;!
  prefixes (l_Sources l).

Definition mtu_of (m : Z) : Z := if m =? 0 then 1420 else m.

Definition Link_Up (l : Link) : res (list Step) :=
  match Link_validate l with
  | Some err => Err err
  | None =>
      let mtu := mtu_of (l_MTU l) in
      let tbl := itoa (l_Table l) in
      let i := l_Iface l in
      Ok ([quiet ["ip"; "link"; "del"; i];
           cmd ["ip"; "link"; "add"; i; "type"; "wireguard"];
           cmd ["wg"; "set"; i; "listen-port"; itoa (l_Port l); "private-key"; l_KeyFile l;
                "peer"; l_PeerKey l; "endpoint"; l_Endpoint l; "allowed-ips"; "0.0.0.0/0";
                "persistent-keepalive"; "25"];
           cmd ["ip"; "addr"; "add"; l_Addr l; "dev"; i];
           cmd ["ip"; "link"; "set"; i; "mtu"; itoa mtu; "up"];
           cmd ["ip"; "route"; "replace"; "default"; "dev"; i; "table"; tbl];
           once "nat" "STACKR-NAT" "1" ["-o"; i; "-j"; "ACCEPT"];
           once "filter" "STACKR-XN" "1"
             ["-i"; i; "-m"; "conntrack"; "--ctstate"; "ESTABLISHED,RELATED"; "-j"; "ACCEPT"];
           once "filter" "STACKR-XN" "" ["-i"; i; "-j"; "DROP"]] ++
          map (fun src => once "raw" "STACKR-RAW" "1" ["-i"; i; "-d"; src; "-j"; "ACCEPT"]) (l_Sources l))
  end.

Definition Link_Down (l : Link) : list Step :=
  let i := l_Iface l in
  [quiet ["ip"; "route"; "flush"; "table"; itoa (l_Table l)];
   quiet ["ip"; "link"; "del"; i];
   quiet (ipt "nat" ["-D"; "STACKR-NAT"; "-o"; i; "-j"; "ACCEPT"]);
   quiet (ipt "filter" ["-D"; "STACKR-XN"; "-i"; i; "-m"; "conntrack"; "--ctstate";
                        "ESTABLISHED,RELATED"; "-j"; "ACCEPT"]);
   quiet (ipt "filter" ["-D"; "STACKR-XN"; "-i"; i; "-j"; "DROP"])] ++
  map (fun src => quiet (ipt "raw" ["-D"; "STACKR-RAW"; "-i"; i; "-d"; src; "-j"; "ACCEPT"])) (l_Sources l).

(** ** Subjects: what one ladder routes *)

Record Subject := MkSubject { s_Sources : list string; PrefBase : Z }.

Definition pref (s : Subject) (i off : Z) : string := itoa (PrefBase s + 2 * i + off).

Definition Subject_validate (s : Subject) : option error :=
  if PrefBase s <? 1 then Some (Errorf (text "exits: subject needs a rule priority base"))
  else prefixes (s_Sources s).

(** [for i, src := range s.Sources]. *)
Definition indexed {A} (l : list A) : list (Z * A) := imap (fun i x => (Z.of_nat i, x)) l.

Definition Clear (s : Subject) : list Step :=
  concat (map (fun '(i, _) =>
    [quiet ["ip"; "rule"; "del"; "pref"; pref s i 0];
     quiet ["ip"; "rule"; "del"; "pref"; pref s i 1]]) (indexed (s_Sources s))).

Definition suppress_rule (s : Subject) (i : Z) (src : string) : Step :=
  cmd ["ip"; "rule"; "add"; "pref"; pref s i 0; "from"; src; "lookup"; "main";
       "suppress_prefixlength"; "0"].

Definition Route (s : Subject) (table : Z) : res (list Step) :=
  match Subject_validate s with
  | Some err => Err err
  | None =>
      if table <? 1 then Err (Errorf (Sprintf "exits: bad table %d" [AInt table]))
      else Ok (Clear s ++ concat (map (fun '(i, src) =>
             [suppress_rule s i src;
              cmd ["ip"; "rule"; "add"; "pref"; pref s i 1; "from"; src; "lookup"; itoa table]])
             (indexed (s_Sources s))))
  end.

Definition Blackhole (s : Subject) : res (list Step) :=
  match Subject_validate s with
  | Some err => Err err
  | None =>
      Ok (Clear s ++ concat (map (fun '(i, src) =>
            [suppress_rule s i src;
             cmd ["ip"; "rule"; "add"; "pref"; pref s i 1; "from"; src; "blackhole"]])
            (indexed (s_Sources s))))
  end.

(** ** The exit side *)

Record Serve := MkServe {
  v_Iface : string; v_KeyFile : string; v_Port : Z; v_PeerKey : string; v_Endpoint : string;
  v_Addr : string; v_PeerAddr : string; v_Subnets : list string; v_Uplink : string;
  v_Table : Z; v_Mark : Z; v_Pref : Z; v_MTU : Z }.

Definition parse_check (fmt s : string) : option error :=
  match ParsePrefix s with
  | None => Some (Wrap (Sprintf fmt [AStr s]) (New "netip.ParsePrefix"))
  | Some _ => None
  end.

Definition Serve_validate (v : Serve) : option error :=
  ifaceName (v_Iface v) ;;!
  ifaceName (v_Uplink v) ;;!
  (if String.eqb (v_KeyFile v) "" || String.eqb (v_PeerKey v) "" || (v_Port v <? 1)
      || (v_Table v <? 1) || (v_Mark v <? 1) || (v_Pref v <? 1)
   then Some (Errorf (Sprintf "exits: serve %s needs key file, peer key, port, table, mark and pref"
                        [AStr (v_Iface v)]))
   else None) ;;!
  (if negb (String.eqb (v_Endpoint v) "") then hostPort (v_Endpoint v) else None) ;;!
  parse_check "exits: bad transit address %q: %w" (v_Addr v) ;;!
  parse_check "exits: bad peer address %q: %w" (v_PeerAddr v) ;;!
  prefixes (v_Subnets v).

(** What the interface accepts from the client: its assigned ranges and its
    transit address. *)
Definition AllowedIPs (v : Serve) : string := join "," (v_Subnets v ++ [v_PeerAddr v]).

Definition chain (v : Serve) (prefix : string) : string := prefix +:+ v_Iface v.

(** The rules of the forward filter chain, in order. *)
Definition filter_rules (v : Serve) : list (list string) :=
  let i := v_Iface v in
  [["-o"; i; "-m"; "conntrack"; "--ctstate"; "ESTABLISHED,RELATED"; "-j"; "ACCEPT"]] ++
  map (fun d => ["-i"; i; "-d"; d; "-j"; "DROP"]) Refused_dests ++
  [["-i"; i; "-o"; v_Uplink v; "-j"; "ACCEPT"]; ["-i"; i; "-j"; "DROP"]].

Definition Serve_Up (v : Serve) : res (list Step) :=
  match Serve_validate v with
  | Some err => Err err
  | None =>
      let mtu := mtu_of (v_MTU v) in
      let mark := hex0x (v_Mark v) in
      let tbl := itoa (v_Table v) in
      let pref := itoa (v_Pref v) in
      let i := v_Iface v in
      let mg := chain v "STACKR-XM-" in
      let nt := chain v "STACKR-XT-" in
      let fl := chain v "STACKR-XF-" in
      let wg := ["wg"; "set"; i; "listen-port"; itoa (v_Port v); "private-key"; v_KeyFile v;
                 "peer"; v_PeerKey v]
                ++ (if negb (String.eqb (v_Endpoint v) "") then ["endpoint"; v_Endpoint v] else [])
                ++ ["allowed-ips"; AllowedIPs v] in
      Ok ([quiet ["ip"; "link"; "del"; i];
           cmd ["ip"; "link"; "add"; i; "type"; "wireguard"];
           cmd wg;
           cmd ["ip"; "addr"; "add"; v_Addr v; "dev"; i];
           cmd ["ip"; "link"; "set"; i; "mtu"; itoa mtu; "up"]] ++
          concat (map (fun '(t, c) => [quiet (ipt t ["-N"; c]); cmd (ipt t ["-F"; c])])
            [("mangle", mg); ("nat", nt); ("filter", fl)]) ++
          [cmd (ipt "mangle" ["-A"; mg; "-i"; i; "-m"; "conntrack"; "--ctstate"; "NEW"; "-j";
                              "CONNMARK"; "--set-mark"; mark]);
           cmd (ipt "mangle" ["-A"; mg; "-m"; "connmark"; "--mark"; mark; "-j"; "CONNMARK";
                              "--restore-mark"])] ++
          map (fun sub => cmd (ipt "nat" ["-A"; nt; "-s"; sub; "-o"; v_Uplink v; "-j"; "MASQUERADE"]))
            (v_Subnets v) ++
          map (fun r => cmd (ipt "filter" (["-A"; fl] ++ r))) (filter_rules v) ++
          [once "mangle" "PREROUTING" "1" ["-j"; mg];
           once "nat" "POSTROUTING" "1" ["-j"; nt];
           once "filter" "DOCKER-USER" "1" ["-j"; fl];
           once "filter" "INPUT" "" ["-i"; i; "-j"; "DROP"];
           once "filter" "INPUT" "1"
             ["-i"; i; "-p"; "icmp"; "--icmp-type"; "echo-request"; "-j"; "ACCEPT"]] ++
          map (fun sub => cmd ["ip"; "route"; "replace"; sub; "dev"; i; "table"; tbl]) (v_Subnets v) ++
          [quiet ["ip"; "rule"; "del"; "pref"; pref];
           cmd ["ip"; "rule"; "add"; "pref"; pref; "fwmark"; mark; "lookup"; tbl]])
  end.

Definition Serve_Down (v : Serve) : list Step :=
  let i := v_Iface v in
  let mg := chain v "STACKR-XM-" in
  let nt := chain v "STACKR-XT-" in
  let fl := chain v "STACKR-XF-" in
  [quiet ["ip"; "rule"; "del"; "pref"; itoa (v_Pref v)];
   quiet ["ip"; "route"; "flush"; "table"; itoa (v_Table v)];
   quiet ["ip"; "link"; "del"; i];
   quiet (ipt "mangle" ["-D"; "PREROUTING"; "-j"; mg]);
   quiet (ipt "nat" ["-D"; "POSTROUTING"; "-j"; nt]);
   quiet (ipt "filter" ["-D"; "DOCKER-USER"; "-j"; fl]);
   quiet (ipt "filter" ["-D"; "INPUT"; "-i"; i; "-j"; "DROP"]);
   quiet (ipt "filter" ["-D"; "INPUT"; "-i"; i; "-p"; "icmp"; "--icmp-type"; "echo-request";
                        "-j"; "ACCEPT"])] ++
  concat (map (fun '(t, c) => [quiet (ipt t ["-F"; c]); quiet (ipt t ["-X"; c])])
    [("mangle", mg); ("nat", nt); ("filter", fl)]).

(** ** The fence of a node without egress *)

Record Fence := MkFence { f_Sources : list string; f_Uplink : string }.
Definition FenceChain : string := "STACKR-FENCE".

Definition fence_rules (f : Fence) : list (list string) :=
  [["-m"; "conntrack"; "--ctstate"; "DNAT"; "-j"; "RETURN"]] ++
  concat (map (fun src =>
    map (fun d => ["-s"; src; "-d"; d; "-j"; "RETURN"]) Refused_dests ++
    [["-s"; src; "-o"; f_Uplink f; "-j"; "DROP"]]) (f_Sources f)).

Definition Fence_Up (f : Fence) : res (list Step) :=
  match prefixes (f_Sources f) with
  | Some err => Err err
  | None =>
  match ifaceName (f_Uplink f) with
  | Some err => Err err
  | None =>
      Ok ([quiet (ipt "filter" ["-N"; FenceChain]); cmd (ipt "filter" ["-F"; FenceChain])] ++
          map (fun r => cmd (ipt "filter" (["-A"; FenceChain] ++ r))) (fence_rules f) ++
          [once "filter" "DOCKER-USER" "1" ["-j"; FenceChain]])
  end end.

Definition Fence_Down (f : Fence) : list Step :=
  [quiet (ipt "filter" ["-D"; "DOCKER-USER"; "-j"; FenceChain]);
   quiet (ipt "filter" ["-F"; FenceChain]);
   quiet (ipt "filter" ["-X"; FenceChain])].

(** ** Reading a chain

    The documented first-match reading of the rules appended to a filter
    chain, for the matches these plans use.  [None] is the end of the chain
    (the packet goes on in the calling chain). *)
Record Packet := MkPacket {
  pk_in : string; pk_out : string; pk_src : Addr; pk_dst : Addr; pk_state : list string }.

Definition target (t : string) : option Verdict :=
  if String.eqb t "ACCEPT" then Some VAccept
  else if String.eqb t "DROP" then Some VDrop
  else if String.eqb t "RETURN" then Some VReturn else None.

Fixpoint rule_verdict (r : list string) (p : Packet) : option Verdict :=
  match r with
  | k :: x :: r =>
      if String.eqb k "-j" then target x
      else if String.eqb k "-i" then if String.eqb x (pk_in p) then rule_verdict r p else None
      else if String.eqb k "-o" then if String.eqb x (pk_out p) then rule_verdict r p else None
      else if String.eqb k "-s" then if in_cidr x (pk_src p) then rule_verdict r p else None
      else if String.eqb k "-d" then if in_cidr x (pk_dst p) then rule_verdict r p else None
      else if String.eqb k "--ctstate" then
        if existsb (fun s => contains (pk_state p) s) (split "," x) then rule_verdict r p else None
      else if String.eqb k "-m" then rule_verdict r p
      else None
  | _ => None
  end.

Fixpoint eval_chain (rules : list (list string)) (p : Packet) : option Verdict :=
  match rules with
  | [] => None
  | r :: rules =>
      match rule_verdict r p with Some v => Some v | None => eval_chain rules p end
  end.

(** The rules a plan appends to filter chain [c]. *)
Definition appended_rule (c : string) (s : Step) : option (list string) :=
  strip_args (ipt "filter" ["-A"; c]) (Argv s).
Definition appended (c : string) (steps : list Step) : list (list string) :=
  omap (appended_rule c) steps.
#[global] Arguments appended : simpl never.
#[global] Arguments appended_rule : simpl never.

Definition is_refused_dest (a : Addr) : bool := existsb (fun d => in_cidr d a) Refused_dests.

(** ** Lemmas *)

Lemma eval_chain_app r1 r2 p :
  eval_chain (r1 ++ r2) p =
  match eval_chain r1 p with Some v => Some v | None => eval_chain r2 p end.
Proof. induction r1 as [|r r1 IH]; simpl; [done|]. by destruct (rule_verdict r p). Qed.

(** A run of rules that differ only in the destination they name. *)
Lemma eval_dest_rules (mk : string -> list string) (g : bool) v ds p :
  (forall d, rule_verdict (mk d) p = if g && in_cidr d (pk_dst p) then Some v else None) ->
  eval_chain (map mk ds) p =
  if g && existsb (fun d => in_cidr d (pk_dst p)) ds then Some v else None.
Proof.
  intros H. induction ds as [|d ds IH]; simpl; [by rewrite andb_false_r|].
  rewrite H, IH. by destruct g, (in_cidr d (pk_dst p)).
Qed.

Lemma appended_app c s1 s2 : appended c (s1 ++ s2) = appended c s1 ++ appended c s2.
Proof. apply omap_app. Qed.

Lemma appended_cons c s steps :
  appended c (s :: steps) =
  match appended_rule c s with Some r => r :: appended c steps | None => appended c steps end.
Proof. done. Qed.

(** Steps that append nothing to any filter chain. *)
Definition silent (s : Step) : bool :=
  bool_decide (strip_args (ipt "filter" ["-A"]) (Argv s) = None).

Lemma appended_silent c steps : forallb silent steps = true -> appended c steps = [].
Proof.
  induction steps as [|s steps IH]; [done|]. simpl. intros H. bsimpl.
  rewrite appended_cons, IH by done. unfold silent in H. bsimpl. unfold appended_rule.
  change (ipt "filter" ["-A"; c]) with (ipt "filter" ["-A"] ++ [c]).
  by rewrite strip_args_app, H.
Qed.

Lemma appended_rules c rules :
  appended c (map (fun r => cmd (ipt "filter" (["-A"; c] ++ r))) rules) = rules.
Proof.
  induction rules as [|r rules IH]; [done|]. rewrite map_cons, appended_cons, IH.
  unfold appended_rule. change (Argv _) with (ipt "filter" ["-A"; c] ++ r).
  by rewrite strip_args_self.
Qed.

Lemma forallb_map_true {A} (f : A -> Step) l :
  (forall x, silent (f x) = true) -> forallb silent (map f l) = true.
Proof. intros H. induction l; simpl; [done|]. by rewrite H. Qed.

(** The filter chain [Serve_Up] leaves is the chain it lists: no other step
    appends to it. *)
Lemma Serve_Up_filter v steps :
  v_Iface v <> "" -> Serve_Up v = Ok steps ->
  appended (chain v "STACKR-XF-") steps = filter_rules v.
Proof.
  intros Hi H. unfold Serve_Up in H. destruct (Serve_validate v); [done|]. apply Ok_inj in H as <-.
  rewrite !appended_app.
  rewrite (appended_silent _ [_; _; _; _; _]) by reflexivity.
  rewrite (appended_silent _ (concat _)) by reflexivity.
  rewrite (appended_silent _ [_; _]) by reflexivity.
  rewrite (appended_silent _ (map _ (v_Subnets v))) by (by apply forallb_map_true).
  rewrite appended_rules.
  rewrite (appended_silent _ (map _ (v_Subnets v))) by (by apply forallb_map_true).
  rewrite (appended_silent _ [_; _]) by reflexivity.
  assert (forall l, appended (chain v "STACKR-XF-") l = [] ->
    [] ++ [] ++ [] ++ [] ++ filter_rules v ++ appended (chain v "STACKR-XF-") l ++ [] ++ []
    = filter_rules v) as Hend by (intros l ->; by rewrite !app_nil_r).
  by apply Hend.
Qed.

(** The exit side of a link forwards a client's new traffic to the
    internet and to nothing else: read with first-match semantics, the filter
    chain [Serve_Up] fills drops every packet from the link to a private,
    shared or link-local address (cloud metadata is one), accepts one to any
    other address out the uplink, drops the rest of the link's packets, and
    otherwise only accepts replies back into the link. *)
Theorem Serve_forward_policy v steps p :
  Serve_Up v = Ok steps ->
  eval_chain (appended (chain v "STACKR-XF-") steps) p =
  if String.eqb (v_Iface v) (pk_out p) && (contains (pk_state p) "ESTABLISHED" || contains (pk_state p) "RELATED")
  then Some VAccept
  else if String.eqb (v_Iface v) (pk_in p) then
    if is_refused_dest (pk_dst p) then Some VDrop
    else if String.eqb (v_Uplink v) (pk_out p) then Some VAccept else Some VDrop
  else None.
Proof.
  intros H. assert (v_Iface v <> "") as Hi.
  { intros E. unfold Serve_Up, Serve_validate in H. rewrite E in H. done. }
  rewrite (Serve_Up_filter v steps) by done. unfold filter_rules.
  rewrite !eval_chain_app.
  rewrite (eval_dest_rules _ (String.eqb (v_Iface v) (pk_in p)) VDrop) by
    (intros d; simpl; by destruct (String.eqb _ _), (in_cidr _ _)).
  fold (is_refused_dest (pk_dst p)). simpl.
  destruct (String.eqb (v_Iface v) (pk_out p)); simpl;
    destruct (contains (pk_state p) "ESTABLISHED"), (contains (pk_state p) "RELATED"); simpl;
    try done;
    destruct (String.eqb (v_Iface v) (pk_in p)), (is_refused_dest (pk_dst p)),
      (String.eqb (v_Uplink v) (pk_out p)); done.
Qed.

Definition ex_serve : Serve :=
  MkServe "wgx-0a1b2c3d4e" "/k" 52000 "PUB" "" "10.251.0.2/30" "10.251.0.1/32" ["10.208.1.0/24"]
    "eth0" 100 7 1000 0.

Lemma Serve_forward_policy_witness :
  match Serve_Up ex_serve with
  | Ok steps =>
      eval_chain (appended (chain ex_serve "STACKR-XF-") steps)
        (MkPacket "wgx-0a1b2c3d4e" "eth0" (ip4 10 208 1 5) (ip4 169 254 169 254) ["NEW"])
      = Some VDrop
  | Err _ => False
  end.
Proof.
  destruct (Serve_Up ex_serve) as [steps|e] eqn:E; [|vm_compute in E; discriminate E].
  rewrite (Serve_forward_policy ex_serve steps); [vm_compute; reflexivity|exact E].
Defined.

Lemma eval_fence_src f src p rest :
  eval_chain ((map (fun d => ["-s"; src; "-d"; d; "-j"; "RETURN"]) Refused_dests ++
    [["-s"; src; "-o"; f_Uplink f; "-j"; "DROP"]]) ++ rest) p =
  if in_cidr src (pk_src p) && is_refused_dest (pk_dst p) then Some VReturn
  else if in_cidr src (pk_src p) && String.eqb (f_Uplink f) (pk_out p) then Some VDrop
  else eval_chain rest p.
Proof.
  rewrite !eval_chain_app.
  rewrite (eval_dest_rules _ (in_cidr src (pk_src p)) VReturn) by
    (intros d; simpl; by destruct (in_cidr src _), (in_cidr _ _)).
  fold (is_refused_dest (pk_dst p)). simpl.
  by destruct (in_cidr src _), (is_refused_dest _), (String.eqb (f_Uplink f) _).
Qed.

(** A node without egress keeps its envs off its own uplink and nothing
    more: the fence drops what an env range sends out the uplink to a public
    address, and lets private traffic, other interfaces and replies of
    published ports go on. *)
Theorem Fence_policy f steps p :
  Fence_Up f = Ok steps ->
  let from_env := existsb (fun s => in_cidr s (pk_src p)) (f_Sources f) in
  eval_chain (appended FenceChain steps) p =
  if contains (pk_state p) "DNAT" then Some VReturn
  else if from_env && is_refused_dest (pk_dst p) then Some VReturn
  else if from_env && String.eqb (f_Uplink f) (pk_out p) then Some VDrop
  else None.
Proof.
  intros H. cbv zeta. unfold Fence_Up in H. destruct (prefixes _); [done|].
  destruct (ifaceName _); [done|]. apply Ok_inj in H as <-.
  rewrite !appended_app, appended_rules.
  rewrite (appended_silent _ [_; _]) by reflexivity.
  assert (forall l, appended FenceChain l = [] ->
    [] ++ fence_rules f ++ appended FenceChain l = fence_rules f) as Hend
    by (intros l ->; by rewrite app_nil_r).
  rewrite Hend by reflexivity. unfold fence_rules. rewrite eval_chain_app.
  replace (eval_chain [_] p) with (if contains (pk_state p) "DNAT" then Some VReturn else None)
    by (simpl; by destruct (contains _ _)).
  destruct (contains (pk_state p) "DNAT"); [done|].
  induction (f_Sources f) as [|src srcs IH]; [done|]. cbn [map concat].
  rewrite eval_fence_src, IH. cbn [existsb].
  by destruct (in_cidr src _), (existsb _ srcs), (is_refused_dest _), (String.eqb (f_Uplink f) _).
Qed.

Definition ex_fence : Fence := MkFence ["10.208.1.0/24"; "10.208.2.0/24"] "eth0".
Lemma Fence_policy_witness :
  match Fence_Up ex_fence with
  | Ok steps =>
      eval_chain (appended FenceChain steps)
        (MkPacket "br-1" "eth0" (ip4 10 208 2 9) (ip4 1 1 1 1) []) = Some VDrop
  | Err _ => False
  end.
Proof.
  destruct (Fence_Up ex_fence) as [steps|e] eqn:E; [|vm_compute in E; discriminate E].
  rewrite (Fence_policy ex_fence steps); [vm_compute; reflexivity|exact E].
Defined.

(** ** Down undoes Up *)

(** The deletion of a rule a step adds when its check says it is missing. *)
Definition undo (check : list string) : Step := quiet (<[3%nat := "-D"]> check).
(** Every rule [up] puts into a chain of someone else is deleted by [down]. *)
Definition undoes (up down : list Step) : Prop :=
  Forall (fun s => match Chk s with Some c => undo c ∈ down | None => True end) up.

Lemma undoes_app u1 u2 d : undoes u1 d -> undoes u2 d -> undoes (u1 ++ u2) d.
Proof. intros H1 H2. by apply Forall_app. Qed.

Lemma undo_once t c pos r : Chk (once t c pos r) = Some (ipt t (["-C"; c] ++ r)).
Proof. done. Qed.

Lemma undoes_once t c pos rules up down :
  up = map (fun r => once t c pos r) rules ->
  (forall r, r ∈ rules -> quiet (ipt t (["-D"; c] ++ r)) ∈ down) ->
  undoes up down.
Proof.
  intros -> H. apply Forall_map, Forall_forall. intros r Hr. simpl. by apply H.
Qed.

Lemma undoes_none up down : Forall (fun s => Chk s = None) up -> undoes up down.
Proof. intros H. eapply Forall_impl; [exact H|]. by intros s ->. Qed.

Ltac in_list := first [left | right; in_list].

(** Taking an exit link down leaves no rule of it behind: each rule [Up]
    adds to a chain it shares (STACKR-NAT, STACKR-XN, STACKR-RAW on the node;
    PREROUTING, POSTROUTING, DOCKER-USER, INPUT on the exit; DOCKER-USER for
    a fence) is deleted, rule for rule, by [Down], for every source range. *)
Theorem Down_undoes_Up :
  (forall l steps, Link_Up l = Ok steps -> undoes steps (Link_Down l)) /\
  (forall v steps, Serve_Up v = Ok steps -> undoes steps (Serve_Down v)) /\
  (forall f steps, Fence_Up f = Ok steps -> undoes steps (Fence_Down f)).
Proof.
  split; [|split].
  - intros l steps H. unfold Link_Up in H. destruct (Link_validate l); [done|].
    apply Ok_inj in H as <-. apply undoes_app.
    + unfold Link_Down. repeat constructor; simpl; in_list.
    + apply (undoes_once "raw" "STACKR-RAW" "1"
        (map (fun src => ["-i"; l_Iface l; "-d"; src; "-j"; "ACCEPT"]) (l_Sources l)));
        [by rewrite map_map|].
      intros r Hr. apply list_elem_of_fmap in Hr as (src & -> & Hsrc).
      unfold Link_Down. apply elem_of_app. right.
      apply list_elem_of_fmap. by exists src.
  - intros v steps H. unfold Serve_Up in H. destruct (Serve_validate v); [done|].
    apply Ok_inj in H as <-.
    repeat apply undoes_app; try (apply undoes_none; repeat constructor; done);
      try (apply undoes_none; apply Forall_map, Forall_true; done).
    unfold Serve_Down. repeat constructor; simpl; in_list.
  - intros f steps H. unfold Fence_Up in H. destruct (prefixes _); [done|].
    destruct (ifaceName _); [done|]. apply Ok_inj in H as <-.
    repeat apply undoes_app; try (apply undoes_none; repeat constructor; done);
      try (apply undoes_none; apply Forall_map, Forall_true; done).
    repeat constructor; simpl; in_list.
Qed.

Lemma Down_undoes_Up_witness :
  match Serve_Up ex_serve with Ok steps => undoes steps (Serve_Down ex_serve) | Err _ => False end.
Proof.
  destruct (Serve_Up ex_serve) as [steps|e] eqn:E; [|vm_compute in E; discriminate E].
  apply Down_undoes_Up. exact E.
Defined.

(** ** Which ladder *)

Lemma dedupe_from_spec seen l :
  NoDup (dedupe_from seen l) /\ dedupe_from seen l `sublist_of` l /\
  (forall n, n ∈ dedupe_from seen l <-> n ∈ l /\ n <> "" /\ n ∉ seen).
Proof.
  revert seen. induction l as [|x l IH]; intros seen; simpl.
  { split; [constructor|]. split; [constructor|]. intros n. rewrite elem_of_nil. tauto. }
  destruct (String.eqb_spec x "") as [->|Hx]; simpl.
  { destruct (IH seen) as (? & ? & Hin). split; [done|]. split; [by constructor|].
    intros n. rewrite Hin, elem_of_cons. naive_solver. }
  destruct (decide (x ∈ seen)) as [Hs|Hs].
  - rewrite bool_decide_eq_true_2 by done. destruct (IH seen) as (? & ? & Hin).
    split; [done|]. split; [by constructor|]. intros n. rewrite Hin, elem_of_cons. naive_solver.
  - rewrite bool_decide_eq_false_2 by done. destruct (IH ({[x]} ∪ seen)) as (? & ? & Hin).
    split; [|split].
    + constructor; [|done]. rewrite Hin. set_solver.
    + by constructor.
    + intros n. rewrite !elem_of_cons, Hin, not_elem_of_union, not_elem_of_singleton.
      destruct (decide (n = x)); naive_solver.
Qed.

Lemma resolve_levels_spec cs :
  (resolve_levels cs = MkResolution SourceNone [] /\ Forall (fun c => dedupe c.2 = []) cs) \/
  exists pre src nodes post,
    cs = pre ++ (src, nodes) :: post /\ Forall (fun c => dedupe c.2 = []) pre /\
    dedupe nodes <> [] /\ resolve_levels cs = MkResolution src (dedupe nodes).
Proof.
  induction cs as [|[src nodes] cs IH]; [by left|]. simpl.
  destruct (dedupe nodes) as [|n ns] eqn:E; simpl.
  - destruct IH as [[-> HF]|(pre & s & ns & post & -> & HF & Hne & ->)].
    + left. by split; [|constructor].
    + right. exists ((src, nodes) :: pre), s, ns, post.
      split; [done|]. split; [by constructor|]. done.
  - right. exists [], src, nodes, cs. rewrite E. split; [done|]. split; [constructor|]. done.
Qed.

(** The ladder of a tile is one level's list and nothing is ever added to
    it: the first level of tile, env, stack, org, node and default that names
    a node, in its order, without blanks and duplicates; so a ladder of exits
    that all fail ends in no route, never in the node's own uplink. *)
Theorem Resolve_levels_spec l def :
  let r := Resolve l def in
  (r = MkResolution SourceNone [] /\
   forall src nodes n, (src, nodes) ∈ candidates l def -> n ∈ nodes -> n = "") \/
  exists pre nodes post,
    candidates l def = pre ++ (res_Source r, nodes) :: post /\
    (forall src ns n, (src, ns) ∈ pre -> n ∈ ns -> n = "") /\
    res_Nodes r <> [] /\ NoDup (res_Nodes r) /\ res_Nodes r `sublist_of` nodes /\
    (forall n, n ∈ res_Nodes r <-> n ∈ nodes /\ n <> "").
Proof.
  cbv zeta. unfold Resolve.
  assert (forall cs, Forall (fun c : Source * list string => dedupe c.2 = []) cs ->
    forall src ns n, (src, ns) ∈ cs -> n ∈ ns -> n = "") as Hblank.
  { intros cs HF src ns n Hin Hn. eapply Forall_forall in HF; [|exact Hin]. simpl in HF.
    destruct (decide (n = "")) as [|Hne]; [done|].
    assert (n ∈ dedupe ns) as Hd by (apply dedupe_from_spec; set_solver). rewrite HF in Hd. set_solver. }
  destruct (resolve_levels_spec (candidates l def)) as [[-> HF]|(pre & s & ns & post & Hc & HF & Hne & ->)].
  - left. split; [done|]. by apply Hblank.
  - right. exists pre, ns, post. simpl. split; [done|]. split; [by apply Hblank|].
    destruct (dedupe_from_spec ∅ ns) as (Hnd & Hsub & Hin).
    split; [done|]. split; [done|]. split; [done|]. intros n. unfold dedupe. rewrite Hin. set_solver.
Qed.
