(* ===== verification/Ladder.v ===== *)
(** * The exit ladder ([internal/exits/ladder.go])

    One ladder walks one subject down its exits when the live one stops
    answering and back up when a better one answers again.  [Tick] is one
    health pass.  The world [W] holds what the injected runner, pinger, clock
    and callback act on; [ExitHost] is that interface, [ExitHostLaws] the
    documented behaviour of [ip rule] the safety theorem rests on. *)
From S2P Require Import Prelude GoStrings Errs Netip Iptables Exits.

Record Rung := MkRung {
  r_NodeID : string; r_Own : bool; r_Iface : string; r_Table : Z; r_Target : string }.

(** [State]; [Since] is the clock's reading. *)
Record State := MkState {
  st_Active : Z; st_NodeID : string; st_Down : bool; st_Reason : msg; st_Since : Z }.

(** The fields of [Ladder] that change: the reported state, whether rules were
    ever applied, and each rung's streaks and last error. *)
Record Streaks := MkStreaks {
  st : State; init : bool; good : list Z; bad : list Z; errs : list (option error) }.

Class ExitHost (W : Type) := {
  run : W -> list string -> option error * W;
  ping : W -> Rung -> option error * W;
  now : W -> Z;
  on_change : W -> State -> W }.

(** What never changes while a ladder runs. *)
Record LadderCfg := MkLadder {
  Subj : Subject; Rungs : list Rung; FailAfter : Z; RecoverAfter : Z }.

Definition NewLadder : Streaks :=
  MkStreaks (MkState (-1) "" false (text "") 0) false [] [] [].

Definition orDefault (v d : Z) : Z := if v <? 1 then d else v.
Definition fail_after (l : LadderCfg) : Z := orDefault (FailAfter l) 3.
Definition recover_after (l : LadderCfg) : Z := orDefault (RecoverAfter l) 2.

Definition at_ (l : list Z) (i : nat) : Z := nth i l 0.

Section Ladder.
Context {W : Type} `{ExitHost W}.

(** Pings rung [i] and updates its streaks. *)
Definition probe (l : LadderCfg) (i : nat) (s : Streaks) (w : W) : bool * (Streaks * W) :=
  match Rungs l !! i with
  | None => (false, (s, w))
  | Some r =>
      match ping w r with
      | (None, w) =>
          (true, (MkStreaks (st s) (init s) (<[i := at_ (good s) i + 1]> (good s))
                    (<[i := 0]> (bad s)) (<[i := None]> (errs s)), w))
      | (Some err, w) =>
          (false, (MkStreaks (st s) (init s) (<[i := 0]> (good s))
                     (<[i := at_ (bad s) i + 1]> (bad s)) (<[i := Some err]> (errs s)), w))
      end
  end.

(** [for i := range is { if l.probe(ctx, i) && ok(i) { next = i; break } }]. *)
Fixpoint probe_until (l : LadderCfg) (ok : Streaks -> nat -> bool) (ixs : list nat)
    (s : Streaks) (w : W) : option nat * (Streaks * W) :=
  match ixs with
  | [] => (None, (s, w))
  | i :: ixs =>
      let '(up, (s, w)) := probe l i s w in
      if up && ok s i then (Some i, (s, w)) else probe_until l ok ixs s w
  end.

Definition reason (l : LadderCfg) (s : Streaks) : msg :=
  match Rungs l with
  | [] => text "no exits listed"
  | rungs =>
      Sprintf ("no exit answers (" +:+ join "; " (map (fun _ => "%s: %s") rungs) +:+ ")")
        (concat (zip_with (fun r e =>
           [AStr (r_NodeID r); match e with Some e => AErr e | None => AStr "" end]) rungs (errs s)))
  end.

(** The commands of rung [i], or of no rung ([-1]). *)
Definition rung_steps (l : LadderCfg) (i : Z) : res (list Step) :=
  if i <? 0 then Blackhole (Subj l)
  else match Rungs l !! Z.to_nat i with
  | None => Ok []
  | Some r => if r_Own r then Ok (Clear (Subj l)) else Route (Subj l) (r_Table r)
  end.

Definition apply (l : LadderCfg) (i : Z) (w : W) : option error * W :=
  match rung_steps l i with
  | Err err => (Some err, w)
  | Ok steps => Apply run steps w
  end.

Definition as_z (o : option nat) (d : Z) : Z :=
  match o with Some i => Z.of_nat i | None => d end.

(** The rung the pass picks. *)
Definition pick (l : LadderCfg) (s : Streaks) (w : W) : Z * (Streaks * W) :=
  let n := length (Rungs l) in
  let active := st_Active (st s) in
  let yes (_ : Streaks) (_ : nat) := true in
  if active <? 0 then
    let '(r, sw) := probe_until l yes (seq 0 n) s w in (as_z r active, sw)
  else
    let a := Z.to_nat active in
    let '(up, (s, w)) :=
      probe_until l (fun s i => recover_after l <=? at_ (good s) i) (seq 0 a) s w in
    match up with
    | Some i => (Z.of_nat i, (s, w))
    | None =>
        let '(live, (s, w)) := probe l a s w in
        if negb live && (fail_after l <=? at_ (bad s) a) then
          let '(down, (s, w)) := probe_until l yes (seq (S a) (n - S a)) s w in
          match down with
          | Some i => (Z.of_nat i, (s, w))
          | None =>
              (as_z (find_first (fun i => 0 <? at_ (good s) i) (seq 0 a)) (-1), (s, w))
          end
        else (active, (s, w))
    end.

Definition resize (l : LadderCfg) (s : Streaks) : Streaks :=
  let n := length (Rungs l) in
  if Nat.eqb (length (good s)) n then s
  else MkStreaks (st s) (init s) (replicate n 0) (replicate n 0) (replicate n None).

(** One health pass.  A rule failure is returned and leaves the reported
    state as it was. *)
Definition Tick (l : LadderCfg) (s : Streaks) (w : W) : option error * (Streaks * W) :=
  let s := resize l s in
  let '(next, (s, w)) := pick l s w in
  if init s && (next =? st_Active (st s)) && ((0 <=? next) || st_Down (st s)) then (None, (s, w))
  else
    match apply l next w with
    | (Some err, w) => (Some err, (s, w))
    | (None, w) =>
        let st' :=
          if 0 <=? next then
            MkState next (match Rungs l !! Z.to_nat next with Some r => r_NodeID r | None => "" end)
              false (text "") (now w)
          else MkState next "" true (reason l s) (now w) in
        (None, (MkStreaks st' true (good s) (bad s) (errs s), on_change w st'))
    end.
End Ladder.

(** ** Rules in force

    [rules] is the host's rule table by priority: an [ip rule add] that
    succeeds found the priority free and fills it, one that fails changes
    nothing, and a [del] frees the priority.  Pinging and the callback leave
    the table alone. *)
Definition add_argv (p : string) (args : list string) : list string :=
  ["ip"; "rule"; "add"; "pref"; p] ++ args.
Definition del_argv (p : string) : list string := ["ip"; "rule"; "del"; "pref"; p].

Class ExitHostLaws (W : Type) `{ExitHost W} := {
  rules : W -> gmap string (list string);
  add_law : forall w p args r w', run w (add_argv p args) = (r, w') ->
    match r with
    | None => rules w !! p = None /\ rules w' = <[p := args]> (rules w)
    | Some _ => rules w' = rules w
    end;
  del_law : forall w p r w', run w (del_argv p) = (r, w') -> rules w' = delete p (rules w);
  ping_law : forall w r, rules (ping w r).2 = rules w;
  change_law : forall w s, rules (on_change w s) = rules w }.

(** The priorities a subject owns, and the rules a rung asks for there. *)
Definition prefs (s : Subject) : list string :=
  concat (map (fun '(i, _) => [pref s i 0; pref s i 1]) (indexed (s_Sources s))).

Definition block (s : Subject) (act : string -> list string) : list (string * list string) :=
  concat (map (fun '(i, src) =>
    [(pref s i 0, ["from"; src; "lookup"; "main"; "suppress_prefixlength"; "0"]);
     (pref s i 1, "from" :: src :: act src)]) (indexed (s_Sources s))).

Definition expected (l : LadderCfg) (i : Z) : list (option (list string)) :=
  let s := Subj l in
  if i <? 0 then map (fun kv => Some kv.2) (block s (fun _ => ["blackhole"]))
  else match Rungs l !! Z.to_nat i with
  | Some r => if r_Own r then map (fun _ => None) (prefs s)
              else map (fun kv => Some kv.2) (block s (fun _ => ["lookup"; itoa (r_Table r)]))
  | None => []
  end.

Lemma block_prefs s act : map fst (block s act) = prefs s.
Proof.
  unfold block, prefs. induction (indexed (s_Sources s)) as [|[i src] xs IH]; simpl; [done|].
  by rewrite IH.
Qed.

Lemma Clear_dels s : Clear s = map (fun p => quiet (del_argv p)) (prefs s).
Proof.
  unfold Clear, prefs. induction (indexed (s_Sources s)) as [|[i src] xs IH]; simpl; [done|].
  by rewrite IH.
Qed.

Lemma adds_block s act :
  concat (map (fun '(i, src) =>
    [suppress_rule s i src; cmd (add_argv (pref s i 1) ("from" :: src :: act src))])
    (indexed (s_Sources s)))
  = map (fun kv => cmd (add_argv kv.1 kv.2)) (block s act).
Proof.
  unfold block. induction (indexed (s_Sources s)) as [|[i src] xs IH]; simpl; [done|].
  by rewrite IH.
Qed.

Section Rules.
Context {W : Type} `{ExitHostLaws W}.

Lemma Apply_app s1 s2 (w : W) :
  Apply run (s1 ++ s2) w =
  match Apply run s1 w with
  | (None, w) => Apply run s2 w
  | (Some e, w) => (Some e, w)
  end.
Proof.
  revert w. induction s1 as [|s s1 IH]; intros w; simpl; [done|].
  assert (Hgo : forall w, (let do_argv w := match run w (Argv s) with
      | (Some err, w) => if IgnoreErr s then Apply run (s1 ++ s2) w
          else (Some (Wrap (Sprintf "%v: %w" (map AStr (Argv s))) err), w)
      | (None, w) => Apply run (s1 ++ s2) w end in do_argv w) =
    match (match run w (Argv s) with
      | (Some err, w) => if IgnoreErr s then Apply run s1 w
          else (Some (Wrap (Sprintf "%v: %w" (map AStr (Argv s))) err), w)
      | (None, w) => Apply run s1 w end) with
    | (None, w) => Apply run s2 w | (Some e, w) => (Some e, w) end).
  { intros w0. simpl. destruct (run w0 (Argv s)) as [[e|] w1]; [|done].
    by destruct (IgnoreErr s). }
  destruct (Chk s) as [c|]; [|apply Hgo].
  destruct (run w c) as [[e|] w1]; [apply Hgo|done].
Qed.

Lemma Apply_dels ps (w : W) :
  exists w', Apply run (map (fun p => quiet (del_argv p)) ps) w = (None, w') /\
    forall p, rules w' !! p = if decide (p ∈ ps) then None else rules w !! p.
Proof.
  revert w. induction ps as [|q ps IH]; intros w; simpl.
  { exists w. split; [done|]. done. }
  destruct (run w (del_argv q)) as [r w1] eqn:E. pose proof (del_law _ _ _ _ E) as Hd.
  destruct (IH w1) as (w' & Ha & Hr). exists w'. split.
  { by destruct r. }
  intros p. rewrite Hr, Hd. destruct (decide (p = q)) as [->|Hne].
  - rewrite lookup_delete_eq. rewrite (decide_True (P := q ∈ q :: ps)) by set_solver.
    by case_decide.
  - rewrite lookup_delete_ne by done. repeat case_decide; set_solver.
Qed.

Lemma Apply_cmd a rest (w : W) :
  Apply run (cmd a :: rest) w =
  match run w a with
  | (Some err, w) => (Some (Wrap (Sprintf "%v: %w" (map AStr a)) err), w)
  | (None, w) => Apply run rest w
  end.
Proof. done. Qed.

(** Adding that succeeds puts every rule in, and touches no other. *)
Lemma Apply_adds kvs (w w' : W) :
  Apply run (map (fun kv => cmd (add_argv kv.1 kv.2)) kvs) w = (None, w') ->
  map (fun p => rules w' !! p) (map fst kvs) = map (fun kv => Some kv.2) kvs /\
  (forall p, p ∉ map fst kvs -> rules w' !! p = rules w !! p) /\
  (forall p, p ∈ map fst kvs -> rules w !! p = None).
Proof.
  revert w. induction kvs as [|[q a] kvs IH]; intros w Ha.
  { simpl in Ha. injection Ha as ->. split; [done|]. split; [done|]. set_solver. }
  rewrite map_cons, Apply_cmd in Ha. simpl fst in Ha. simpl snd in Ha.
  destruct (run w (add_argv q a)) as [r w1] eqn:E.
  pose proof (add_law _ _ _ _ _ E) as Hl. 
  destruct r as [e|]; [done|]. destruct Hl as [Hfree Hset].
  destruct (IH _ Ha) as (Hin & Hout & Hfr).
  assert (q ∉ map fst kvs) as Hq.
  { intros Hq. apply Hfr in Hq. rewrite Hset, lookup_insert_eq in Hq. done. }
  simpl. split; [|split].
  - rewrite Hin, Hout, Hset, lookup_insert_eq by done. done.
  - intros p Hp. rewrite Hout, Hset by set_solver. apply lookup_insert_ne. set_solver.
  - intros p [->|Hp]%elem_of_cons; [done|]. apply Hfr in Hp.
    rewrite Hset in Hp. by apply lookup_insert_None in Hp as [? _].
Qed.

(** The table after the steps of rung [i]. *)
Lemma apply_rules l i (w w' : W) :
  apply l i w = (None, w') -> (i < 0 \/ is_Some (Rungs l !! Z.to_nat i)) ->
  map (fun p => rules w' !! p) (prefs (Subj l)) = expected l i /\
  (forall p, p ∉ prefs (Subj l) -> rules w' !! p = rules w !! p).
Proof.
  intros Ha Hi. unfold apply in Ha. destruct (rung_steps l i) as [steps|] eqn:Es; [|done].
  set (s := Subj l) in *.
  destruct (Apply_dels (prefs s) w) as (w1 & H1 & Hr1).
  assert (forall act, Apply run (Clear s ++ map (fun kv => cmd (add_argv kv.1 kv.2)) (block s act)) w
    = (None, w') ->
    map (fun p => rules w' !! p) (prefs s) = map (fun kv => Some kv.2) (block s act) /\
    (forall p, p ∉ prefs s -> rules w' !! p = rules w !! p)) as Hadd.
  { intros act Hs. rewrite Clear_dels, Apply_app, H1 in Hs. apply Apply_adds in Hs as (Hin & Hout & _).
    rewrite block_prefs in Hin, Hout. split; [done|]. intros p Hp. rewrite Hout by done.
    by rewrite Hr1, decide_False. }
  unfold rung_steps in Es. unfold expected. fold s in Es |- *.
  destruct (Z.ltb_spec i 0) as [Hlt|Hge].
  - unfold Blackhole in Es. destruct (Subject_validate s); [done|]. apply Ok_inj in Es as <-.
    apply Hadd. rewrite <- adds_block. exact Ha.
  - destruct (Rungs l !! Z.to_nat i) as [r|]; [|by destruct Hi as [?|[? ?]]; [lia|]].
    destruct (r_Own r).
    + apply Ok_inj in Es as <-. rewrite Clear_dels, H1 in Ha. injection Ha as <-. split.
      * apply map_ext_in. intros p Hp%list_elem_of_In. by rewrite Hr1, decide_True.
      * intros p Hp. by rewrite Hr1, decide_False.
    + unfold Route in Es. destruct (Subject_validate s); [done|].
      destruct (r_Table r <? 1); [done|]. apply Ok_inj in Es as <-.
      apply Hadd. rewrite <- adds_block. exact Ha.
Qed.
End Rules.

(** ** What a pass does to the ladder's own state *)

(** The rung in use is none ([-1]) or one of the ladder's; the streaks are one
    per rung once the first pass has sized them. *)
Definition sized (l : LadderCfg) (s : Streaks) : Prop :=
  length (good s) = length (Rungs l) /\ length (bad s) = length (Rungs l) /\
  length (errs s) = length (Rungs l).
Definition in_range (l : LadderCfg) (i : Z) : Prop := -1 <= i < Z.of_nat (length (Rungs l)).

Section Pass.
Context {W : Type} `{ExitHostLaws W}.
Implicit Types (l : LadderCfg) (s : Streaks) (w : W).

(** What every probe leaves alone. *)
Definition frame (l : LadderCfg) (sw sw' : Streaks * W) : Prop :=
  st sw'.1 = st sw.1 /\ init sw'.1 = init sw.1 /\ rules sw'.2 = rules sw.2 /\
  (sized l sw.1 -> sized l sw'.1).

Lemma frame_refl l sw : frame l sw sw.
Proof. by split_and!. Qed.

Lemma frame_trans l a b c : frame l a b -> frame l b c -> frame l a c.
Proof. intros (?&?&?&?) (?&?&?&?). split_and!; [congruence..|]. intros Hs; auto. Qed.

Lemma probe_frame l i s w : frame l (s, w) (probe l i s w).2.
Proof.
  unfold probe. destruct (Rungs l !! i) as [r|]; [|apply frame_refl].
  pose proof (ping_law w r) as Hp. destruct (ping w r) as [[e|] w']; simpl in Hp;
    (split_and!; [done..|]); intros (?&?&?); split_and!; simpl; by rewrite length_insert.
Qed.

Lemma probe_until_frame l ok ixs s w : frame l (s, w) (probe_until l ok ixs s w).2.
Proof.
  revert s w. induction ixs as [|i ixs IH]; intros s w; simpl; [apply frame_refl|].
  pose proof (probe_frame l i s w) as Hp. destruct (probe l i s w) as [up [s1 w1]]. simpl in Hp.
  case_match; [done|]. eapply frame_trans; [exact Hp|apply IH].
Qed.

Lemma probe_until_in l ok ixs s w i :
  (probe_until l ok ixs s w).1 = Some i -> i ∈ ixs.
Proof.
  revert s w. induction ixs as [|j ixs IH]; intros s w; simpl; [done|].
  destruct (probe l j s w) as [up [s1 w1]]. case_match; simpl; [intros [= ->]; set_solver|].
  intros ?%IH. set_solver.
Qed.

Lemma pick_frame l s w : in_range l (st_Active (st s)) ->
  frame l (s, w) (pick l s w).2 /\ in_range l (pick l s w).1.
Proof.
  unfold pick, in_range. set (n := length (Rungs l)). intros Hr. cbv zeta.
  destruct (Z.ltb_spec (st_Active (st s)) 0) as [Hneg|Hpos].
  - pose proof (probe_until_frame l (fun _ _ => true) (seq 0 n) s w) as Hf.
    pose proof (probe_until_in l (fun _ _ => true) (seq 0 n) s w) as Hin.
    destruct (probe_until _ _ _ _ _) as [[i|] sw]; simpl in *; (split; [done|]); [|lia].
    specialize (Hin i eq_refl). apply elem_of_seq in Hin. lia.
  - set (a := Z.to_nat (st_Active (st s))).
    pose proof (probe_until_frame l (fun s i => recover_after l <=? at_ (good s) i) (seq 0 a) s w) as Hf.
    pose proof (probe_until_in l (fun s i => recover_after l <=? at_ (good s) i) (seq 0 a) s w) as Hin.
    destruct (probe_until _ _ (seq 0 a) s w) as [[i|] [s1 w1]]; simpl in Hf, Hin.
    { split; [done|]. specialize (Hin i eq_refl). apply elem_of_seq in Hin. simpl. lia. }
    clear Hin. pose proof (probe_frame l a s1 w1) as Hf2.
    destruct (probe l a s1 w1) as [live [s2 w2]]. simpl in Hf2.
    pose proof (frame_trans _ _ _ _ Hf Hf2) as Hf3.
    case_match; [|simpl; split; [done|lia]].
    pose proof (probe_until_frame l (fun _ _ => true) (seq (S a) (n - S a)) s2 w2) as Hf4.
    pose proof (probe_until_in l (fun _ _ => true) (seq (S a) (n - S a)) s2 w2) as Hin.
    destruct (probe_until _ _ (seq (S a) _) s2 w2) as [[i|] [s3 w3]]; simpl in Hf4, Hin;
      (split; [by eapply frame_trans|]); simpl.
    + specialize (Hin i eq_refl). apply elem_of_seq in Hin. lia.
    + destruct (find_first _ _) as [i|] eqn:Ef; simpl; [|lia].
      apply find_first_Some in Ef as [Ef%elem_of_seq _]. lia.
Qed.

Lemma resize_frame l s : st (resize l s) = st s /\ init (resize l s) = init s.
Proof. unfold resize. by case_match. Qed.

(** The rules of the reported state are the ones in the table. *)
Definition in_force (l : LadderCfg) (s : Streaks) (w : W) : Prop :=
  init s = true ->
  map (fun p => rules w !! p) (prefs (Subj l)) = expected l (st_Active (st s)).

Lemma reported l s w next s1 w1 :
  in_range l (st_Active (st s)) -> pick l (resize l s) w = (next, (s1, w1)) ->
  in_range l next /\ st s1 = st s /\ init s1 = init s /\ rules w1 = rules w.
Proof.
  intros Hr Hp. destruct (resize_frame l s) as [Hs Hi].
  destruct (pick_frame l (resize l s) w) as [(H1 & H2 & H3 & _) H4]; [by rewrite Hs|].
  rewrite Hp in *. simpl in *. split; [done|]. split; [congruence|]. by split; [congruence|].
Qed.

(** A health pass that reports no error leaves the kernel with exactly the
    rules of the rung it reports, at both of the subject's priorities of every
    source: the exit's table behind the suppress rule, nothing for the own
    uplink, a blackhole when Down; every other priority keeps its rule. *)
Theorem Tick_in_force l s w s' w' :
  in_range l (st_Active (st s)) -> in_force l s w ->
  Tick l s w = (None, (s', w')) ->
  in_range l (st_Active (st s')) /\ init s' = true /\ in_force l s' w' /\
  (forall p, p ∉ prefs (Subj l) -> rules w' !! p = rules w !! p).
Proof.
  intros Hr Hf Ht. unfold Tick in Ht.
  destruct (pick l (resize l s) w) as [next [s1 w1]] eqn:Hp.
  destruct (reported _ _ _ _ _ _ Hr Hp) as (Hn & Hs & Hi & Hw).
  destruct (init s1 && _ && _) eqn:Eq.
  - injection Ht as <- <-. bsimpl. split; [by rewrite Hs|]. split; [done|]. split.
    + intros Hi'. rewrite Hw, Hs. apply Hf. congruence.
    + intros p _. by rewrite Hw.
  - destruct (apply l next w1) as [[e|] w2] eqn:Ha; [done|]. injection Ht as <- <-.
    destruct (apply_rules l next w1 w2) as [Hin Hout]; [done| |].
    { destruct (decide (next < 0)) as [|Hge]; [by left|]. right. apply lookup_lt_is_Some.
      unfold in_range in Hn. lia. }
    unfold in_force. simpl.
    replace (st_Active (if 0 <=? next then _ else _)) with next by (by case_match).
    split; [done|]. split; [done|]. split.
    + intros _. rewrite <- Hin. apply map_ext. intros p. by rewrite change_law.
    + intros p Hp'. by rewrite change_law, Hout, Hw.
Qed.
End Pass.

(** ** Streaks count probes

    A host that also writes down every ping and its outcome, newest first. *)
#[export] Instance Rung_eq_dec : EqDecision Rung.
Proof. solve_decision. Defined.

Definition probe_log := list (Rung * bool).

#[export] Instance logged (W : Type) `{ExitHost W} : ExitHost (W * probe_log) := {
  run w argv := let '(r, w') := run w.1 argv in (r, (w', w.2));
  ping w r := let '(e, w') := ping w.1 r in
              (e, (w', (r, match e with None => true | Some _ => false end) :: w.2));
  now w := now w.1;
  on_change w s := (on_change w.1 s, w.2) }.

(** How many of the last probes of [r], counted back from now, had the outcome [up]. *)
Fixpoint streak (up : bool) (r : Rung) (log : probe_log) : Z :=
  match log with
  | [] => 0
  | (r', b) :: log =>
      if decide (r' = r) then if Bool.eqb b up then streak up r log + 1 else 0
      else streak up r log
  end.

Lemma streak_nonneg up r log : 0 <= streak up r log.
Proof. induction log as [|[r' b] log IH]; simpl; [lia|]. repeat case_match; lia. Qed.

(** A rung that was probed and did not just answer has just failed. *)
Lemma streak_either r b log : (r, b) ∈ log -> streak true r log <= 0 -> 1 <= streak false r log.
Proof.
  intros Hin Hs. induction log as [|[r' b'] log IH]; [by apply not_elem_of_nil in Hin|].
  pose proof (streak_nonneg true r log). pose proof (streak_nonneg false r log). simpl in *.
  destruct (decide (r' = r)) as [->|Hne].
  - destruct b'; simpl in *; lia.
  - apply IH; [set_solver|done].
Qed.

Lemma streak_failed r l0 log :
  r ∈ map fst l0 -> Forall (fun p => p.2 = false) l0 -> 1 <= streak false r (l0 ++ log).
Proof.
  induction l0 as [|[r' b'] l0 IH]; simpl; [set_solver|]. intros Hin [Hb HF]%Forall_cons.
  simpl in Hb. subst b'. pose proof (streak_nonneg false r (l0 ++ log)).
  destruct (decide (r' = r)) as [->|Hne]; simpl; [lia|]. apply IH; [set_solver|done].
Qed.

(** The streaks of [s] are the ones of the log. *)
Definition counted (l : LadderCfg) (s : Streaks) (log : probe_log) : Prop :=
  sized l s /\ forall i r, Rungs l !! i = Some r ->
    at_ (good s) i = streak true r log /\ at_ (bad s) i = streak false r log.

Lemma at_insert xs i j v : (i < length xs)%nat ->
  at_ (<[i := v]> xs) j = if decide (i = j) then v else at_ xs j.
Proof.
  intros Hi. unfold at_. rewrite !nth_lookup. destruct (decide (i = j)) as [->|Hne].
  - by rewrite list_lookup_insert_eq.
  - by rewrite list_lookup_insert_ne.
Qed.

Lemma streak_other up r l0 log : r ∉ map fst l0 -> streak up r (l0 ++ log) = streak up r log.
Proof.
  induction l0 as [|[r' b] l0 IH]; simpl; [done|]. intros Hr.
  rewrite decide_False by set_solver. apply IH. set_solver.
Qed.

Section Log.
Context {W : Type} `{ExitHost W} (l : LadderCfg) (Hnd : NoDup (Rungs l)).
Implicit Types (s : Streaks) (w : W * probe_log).

Lemma rung_index i j r : Rungs l !! i = Some r -> Rungs l !! j = Some r -> i = j.
Proof. intros. by eapply NoDup_lookup. Qed.

Lemma probe_counted i r s w up s' w' :
  counted l s w.2 -> Rungs l !! i = Some r -> probe l i s w = (up, (s', w')) ->
  counted l s' w'.2 /\ w'.2 = (r, up) :: w.2 /\ st s' = st s /\ init s' = init s.
Proof.
  intros ((Hg & Hb & He) & Hc) Hi Hp. unfold probe in Hp. rewrite Hi in Hp. simpl in Hp.
  assert (i < length (Rungs l))%nat as Hlt by (apply lookup_lt_Some in Hi; lia).
  destruct (ping w.1 r) as [[e|] w1]; injection Hp as <- <- <-;
    (split; [|done]); (split; [split_and!; simpl; by rewrite length_insert|]);
    intros j r' Hj; simpl; rewrite !at_insert by lia;
    destruct (Hc _ _ Hj), (Hc _ _ Hi), (decide (i = j)) as [->|Hne], (decide (r = r')) as [->|Hne'];
    simplify_eq/=; try (split; lia);
    by (exfalso; apply Hne; eapply rung_index).
Qed.

(** A loop of probes: what it appends to the log. *)
Lemma probe_until_counted ok ixs s w res s' w' :
  counted l s w.2 -> Forall (fun i => is_Some (Rungs l !! i)) ixs ->
  probe_until l ok ixs s w = (res, (s', w')) ->
  counted l s' w'.2 /\ st s' = st s /\ init s' = init s /\
  exists l0, w'.2 = l0 ++ w.2 /\
    (forall r, r ∈ map fst l0 -> exists i, i ∈ ixs /\ Rungs l !! i = Some r) /\
    (forall i, res = Some i -> i ∈ ixs /\ ok s' i = true /\
       exists r l1, Rungs l !! i = Some r /\ l0 = (r, true) :: l1 /\
         ((forall s i, ok s i = true) -> Forall (fun p => p.2 = false) l1 /\
            exists n, (n < length ixs)%nat /\ ixs !! n = Some i /\
            forall j k r', ixs !! j = Some k -> (j < n)%nat -> Rungs l !! k = Some r' ->
              r' ∈ map fst l1)) /\
    (res = None -> (forall i r, i ∈ ixs -> Rungs l !! i = Some r -> exists b, (r, b) ∈ l0) /\
       ((forall s i, ok s i = true) -> Forall (fun p => p.2 = false) l0)).
Proof.
  revert s w. induction ixs as [|i ixs IH]; intros s w Hc HF Hp; simpl in Hp.
  { injection Hp as <- <- <-. split_and!; [done..|]. exists []. split_and!; [done|set_solver|done|].
    intros _. split; [set_solver|done]. }
  apply Forall_cons in HF as [[r Hr] HF].
  destruct (probe l i s w) as [up [s1 w1]] eqn:E1.
  destruct (probe_counted _ _ _ _ _ _ _ Hc Hr E1) as (Hc1 & Hl1 & Hs1 & Hi1).
  destruct (up && ok s1 i) eqn:Eu.
  - injection Hp as <- <- <-. bsimpl. subst up. split_and!; [done..|].
    exists [(r, true)]. split_and!; [done|set_solver| |done]. intros ? [= <-].
    split_and!; [set_solver|done|]. exists r, []. split_and!; [done..|]. intros _.
    split; [constructor|]. exists 0%nat. simpl. split_and!; [lia|done|]. intros j k r' _ ?. lia.
  - destruct (IH _ _ Hc1 HF Hp) as (Hc' & Hs' & Hi' & l0 & Hl0 & Hown & Hsome & Hnone).
    split_and!; [done|congruence|congruence|]. exists (l0 ++ [(r, up)]).
    rewrite <- app_assoc. simpl. split_and!; [by rewrite Hl0, Hl1| | |].
    + intros r'. rewrite map_app. intros [Hr'|Hr']%elem_of_app.
      * destruct (Hown _ Hr') as (k & ? & ?). exists k. split; [set_solver|done].
      * exists i. simpl in Hr'. split; [set_solver|]. by apply list_elem_of_singleton in Hr' as ->.
    + intros k Hk. destruct (Hsome _ Hk) as (Hin & Hok & r' & l1 & Hr' & -> & Hyes).
      split_and!; [set_solver|done|]. exists r', (l1 ++ [(r, up)]). split_and!; [done..|].
      intros Hy. destruct (Hyes Hy) as (Hfalse & n & Hn & Hnk & Hbefore).
      rewrite Hy, andb_true_r in Eu. subst up. split.
      * apply Forall_app. split; [done|]. by repeat constructor.
      * exists (S n). simpl. split_and!; [lia|done|]. intros j k' r'' Hj Hlt Hrk.
        rewrite map_app. apply elem_of_app. destruct j as [|j]; simpl in Hj.
        -- injection Hj as <-. right. rewrite Hr in Hrk. injection Hrk as <-. set_solver.
        -- left. eapply Hbefore; [exact Hj|lia|exact Hrk].
    + intros Hk. destruct (Hnone Hk) as [Hall Hfalse]. split.
      * intros k r' [->|Hin]%elem_of_cons Hr'.
        -- exists up. rewrite Hr in Hr'. injection Hr' as <-. set_solver.
        -- destruct (Hall _ _ Hin Hr') as [b ?]. exists b. set_solver.
      * intros Hy. rewrite Hy, andb_true_r in Eu. subst up.
        apply Forall_app. split; [by apply Hfalse|]. by repeat constructor.
Qed.
End Log.

(** The lives of a ladder: fresh, then any number of passes, failed ones too,
    while the world around it moves as it likes. *)
Inductive history {W : Type} `{ExitHost W} (l : LadderCfg) : Streaks -> W * probe_log -> Prop :=
  | h_new (w : W) : history l NewLadder (w, [])
  | h_world s w w' log : history l s (w, log) -> history l s (w', log)
  | h_tick s (w : W * probe_log) e s' w' :
      history l s w -> Tick l s w = (e, (s', w')) -> history l s' w'.

Section Hysteresis.
Context {W : Type} `{ExitHost W} (l : LadderCfg) (Hnd : NoDup (Rungs l)).
Implicit Types (s : Streaks) (w : W * probe_log).

Lemma Apply_log steps w e w' :
  Apply run steps w = (e, w') -> w'.2 = w.2.
Proof.
  revert w. induction steps as [|s steps IH]; intros w Ha; simpl in Ha; [by injection Ha as _ <-|].
  repeat case_match; simplify_eq/=; try (by apply IH in Ha); done.
Qed.

Lemma seq_rungs a n : (a + n <= length (Rungs l))%nat ->
  Forall (fun i => is_Some (Rungs l !! i)) (seq a n).
Proof.
  intros Hle. apply Forall_forall. intros i Hi%elem_of_seq. apply lookup_lt_is_Some. lia.
Qed.

Definition failed_all (log : probe_log) (n : nat) : Prop :=
  forall i r, (i < n)%nat -> Rungs l !! i = Some r -> 1 <= streak false r log.

(** Where a pass goes, told by the probes alone. *)
Definition moves (a b : Z) (log : probe_log) : Prop :=
  if a <? 0 then
    (b = a /\ failed_all log (length (Rungs l))) \/
    (exists r, Rungs l !! Z.to_nat b = Some r /\ 0 <= b /\ 1 <= streak true r log /\
       failed_all log (Z.to_nat b))
  else
    b = a \/
    (0 <= b < a /\ exists r, Rungs l !! Z.to_nat b = Some r /\ recover_after l <= streak true r log) \/
    (exists ra, Rungs l !! Z.to_nat a = Some ra /\ fail_after l <= streak false ra log /\
       ((b = -1 /\ failed_all log (length (Rungs l))) \/
        (0 <= b /\ b <> a /\ exists r, Rungs l !! Z.to_nat b = Some r /\ 1 <= streak true r log))).

Lemma counted_up s log i r :
  counted l s log -> Rungs l !! i = Some r -> 0 < at_ (good s) i -> 1 <= streak true r log.
Proof. intros [_ Hc] Hi Hp. destruct (Hc _ _ Hi) as [Hg _]. lia. Qed.

Lemma climb_fresh s w res s' w' :
  counted l s w.2 -> probe_until l (fun _ _ => true) (seq 0 (length (Rungs l))) s w = (res, (s', w')) ->
  counted l s' w'.2 /\ st s' = st s /\ init s' = init s /\
  match res with
  | None => failed_all w'.2 (length (Rungs l))
  | Some i => exists r, Rungs l !! i = Some r /\ 1 <= streak true r w'.2 /\ failed_all w'.2 i
  end.
Proof.
  set (n := length (Rungs l)). intros Hc Hp.
  destruct (probe_until_counted l Hnd _ _ _ _ _ _ _ Hc (seq_rungs 0 n ltac:(lia)) Hp)
    as (Hc1 & Hs1 & Hi1 & l0 & Hl0 & Hown & Hsome & Hnone).
  do 3 (split; [done|]). destruct res as [i|].
  - destruct (Hsome _ eq_refl) as (Hin & _ & r & l1 & Hri & -> & Hyes).
    destruct (Hyes ltac:(done)) as (Hf & k & Hk & Hki & Hbef). exists r.
    rewrite lookup_seq in Hki. split_and!; [done| |].
    + rewrite Hl0. simpl. rewrite decide_True by done. simpl.
      pose proof (streak_nonneg true r (l1 ++ w.2)). lia.
    + intros j rj Hj Hrj. rewrite Hl0. simpl. destruct (decide (r = rj)) as [->|_].
      { assert (i = j) by (by eapply rung_index). lia. }
      apply streak_failed; [|done]. eapply (Hbef j j); [|lia|done]. apply lookup_seq. lia.
  - intros i r Hi Hri. destruct (Hnone eq_refl) as [Hall Hf].
    rewrite Hl0. apply streak_failed; [|by apply Hf].
    destruct (Hall i r) as [b Hb]; [by apply elem_of_seq; lia|done|].
    apply list_elem_of_fmap. by exists (r, b).
Qed.

(** Giving up rung [a] after every rung above was probed and failed to
    qualify: the rungs below are probed, then one above that answered will do. *)
Lemma climb_down a ra s w res s' w' :
  counted l s w.2 -> Rungs l !! a = Some ra -> 1 <= streak false ra w.2 ->
  (forall i r, (i < a)%nat -> Rungs l !! i = Some r -> exists b, (r, b) ∈ w.2) ->
  probe_until l (fun _ _ => true) (seq (S a) (length (Rungs l) - S a)) s w = (res, (s', w')) ->
  let b := match res with Some i => Z.of_nat i
           | None => as_z (find_first (fun i => 0 <? at_ (good s') i) (seq 0 a)) (-1) end in
  counted l s' w'.2 /\ st s' = st s /\ init s' = init s /\ in_range l b /\
  streak false ra w'.2 = streak false ra w.2 /\
  ((b = -1 /\ failed_all w'.2 (length (Rungs l))) \/
   (0 <= b /\ b <> Z.of_nat a /\ exists r, Rungs l !! Z.to_nat b = Some r /\ 1 <= streak true r w'.2)).
Proof.
  set (n := length (Rungs l)). intros Hc Hra Hfa Habove Hp.
  assert (a < n)%nat as Han by (by apply lookup_lt_Some in Hra).
  destruct (probe_until_counted l Hnd _ _ _ _ _ _ _ Hc (seq_rungs (S a) (n - S a) ltac:(lia)) Hp)
    as (Hc1 & Hs1 & Hi1 & l0 & Hl0 & Hown & Hsome & Hnone).
  assert (streak false ra w'.2 = streak false ra w.2) as Hsame.
  { rewrite Hl0. apply streak_other. intros (i & Hin%elem_of_seq & Hi)%Hown.
    assert (i = a) by (by eapply rung_index). lia. }
  destruct res as [i|]; cbv zeta.
  - destruct (Hsome _ eq_refl) as (Hin%elem_of_seq & _ & r & l1 & Hri & -> & _).
    unfold in_range. split_and!; [done..|lia|lia|done|]. right. split_and!; [lia|lia|]. exists r. rewrite Nat2Z.id.
    split; [done|]. rewrite Hl0. simpl. rewrite decide_True by done. simpl.
    pose proof (streak_nonneg true r (l1 ++ w.2)). lia.
  - destruct (find_first _ _) as [i|] eqn:Ef; simpl.
    + apply find_first_Some in Ef as [Hin%elem_of_seq Hg]. bsimpl.
      destruct (lookup_lt_is_Some_2 (Rungs l) i ltac:(lia)) as [r Hr].
      unfold in_range. split_and!; [done..|lia|lia|done|]. right. split_and!; [lia|lia|]. exists r. rewrite Nat2Z.id.
      split; [done|]. by eapply counted_up.
    + unfold in_range. split_and!; [done..|lia|lia|done|]. left. split; [done|]. intros i r Hi Hri.
      destruct (Hnone eq_refl) as [Hall Hf]. destruct (decide (i < a)%nat) as [Hlt|Hge].
      * destruct (Habove _ _ Hlt Hri) as [b Hb]. apply (streak_either r b).
        { rewrite Hl0. set_solver. }
        assert ((0 <? at_ (good s') i) = false) as Hg.
        { apply find_first_None in Ef. apply (proj1 (Forall_forall _ _) Ef). apply elem_of_seq. lia. }
        bsimpl. destruct Hc1 as [_ Hc1]. destruct (Hc1 _ _ Hri). lia.
      * destruct (decide (i = a)) as [->|Hne]; [rewrite Hra in Hri; injection Hri as <-; lia|].
        rewrite Hl0. apply streak_failed; [|by apply Hf].
        destruct (Hall i r) as [b Hb]; [by apply elem_of_seq; lia|done|].
        apply list_elem_of_fmap. by exists (r, b).
Qed.

Lemma fail_after_pos : 1 <= fail_after l.
Proof. unfold fail_after, orDefault. case_match; bsimpl; lia. Qed.

Lemma pick_moves s w next s' w' :
  in_range l (st_Active (st s)) -> counted l s w.2 -> pick l s w = (next, (s', w')) ->
  counted l s' w'.2 /\ st s' = st s /\ init s' = init s /\ in_range l next /\
  moves (st_Active (st s)) next w'.2.
Proof.
  unfold pick, moves, in_range. set (n := length (Rungs l)). intros Hr Hc Hp. cbv zeta in Hp.
  destruct (Z.ltb_spec (st_Active (st s)) 0) as [Hneg|Hpos].
  - destruct (probe_until _ _ _ _ _) as [res [s1 w1]] eqn:E1. injection Hp as <- <- <-.
    destruct (climb_fresh _ _ _ _ _ Hc E1) as (Hc1 & Hs1 & Hi1 & Hres).
    destruct res as [i|]; simpl; [|by split_and!; [done..|lia|lia|left]].
    destruct Hres as (r & Hri & Hup & Hf). apply lookup_lt_Some in Hri as Hlt.
    split_and!; [done..|lia|unfold n; lia|right]. exists r. rewrite Nat2Z.id. split_and!; [done|lia|done..].
  - set (a := Z.to_nat (st_Active (st s))) in *.
    destruct (probe_until _ _ (seq 0 a) s w) as [res [s1 w1]] eqn:E1.
    destruct (probe_until_counted l Hnd _ _ _ _ _ _ _ Hc (seq_rungs 0 a ltac:(lia)) E1)
      as (Hc1 & Hs1 & Hi1 & l0 & Hl0 & Hown & Hsome & Hnone).
    destruct res as [i|].
    { injection Hp as <- <- <-. destruct (Hsome _ eq_refl) as (Hin%elem_of_seq & Hok & r & l1 & Hri & _).
      split_and!; [done..|lia|lia|]. right; left. split; [lia|]. exists r. rewrite Nat2Z.id.
      split; [done|]. bsimpl. destruct Hc1 as [_ Hc1]. destruct (Hc1 _ _ Hri). lia. }
    destruct (lookup_lt_is_Some_2 (Rungs l) a ltac:(lia)) as [ra Hra].
    destruct (probe l a s1 w1) as [live [s2 w2]] eqn:E2.
    destruct (probe_counted l Hnd _ _ _ _ _ _ _ Hc1 Hra E2) as (Hc2 & Hl2 & Hs2 & Hi2).
    destruct (negb live && _) eqn:Eg.
    2:{ injection Hp as <- <- <-. split_and!; [done|congruence|congruence|lia|lia|by left]. }
    bsimpl. subst live. pose proof fail_after_pos.
    destruct Hc2 as [Hsz Hc2]. destruct (Hc2 _ _ Hra) as [_ Hbad].
    destruct (probe_until _ _ (seq (S a) _) s2 w2) as [down [s3 w3]] eqn:E3.
    destruct (climb_down a ra s2 w2 down s3 w3) as (Hc3 & Hs3 & Hi3 & Hb & Hsame & Hcase); [done|done|lia| |done|].
    { intros i r Hi Hri. destruct (Hnone eq_refl) as [Hall _].
      destruct (Hall i r) as [b Hb]; [by apply elem_of_seq; lia|done|]. exists b. rewrite Hl2, Hl0. set_solver. }
    replace (Z.of_nat a) with (st_Active (st s)) in Hcase by lia.
    assert (next = match down with Some i => Z.of_nat i
      | None => as_z (find_first (fun i => 0 <? at_ (good s3) i) (seq 0 a)) (-1) end /\ s' = s3 /\ w' = w3)
      as (-> & -> & ->) by (destruct down; by injection Hp as <- <- <-).
    destruct Hb. split_and!; [done|congruence|congruence|lia|done|].
    right; right. exists ra. split_and!; [done|lia|done].
Qed.

Lemma resize_sized s : sized l s -> resize l s = s.
Proof. intros (Hg & _). unfold resize. by rewrite Hg, Nat.eqb_refl. Qed.

Lemma Tick_moves s w e s' w' :
  in_range l (st_Active (st s)) -> counted l (resize l s) w.2 -> Tick l s w = (e, (s', w')) ->
  in_range l (st_Active (st s')) /\ counted l (resize l s') w'.2 /\
  (e = None -> moves (st_Active (st s)) (st_Active (st s')) w'.2).
Proof.
  intros Hr Hc Ht. unfold Tick in Ht. destruct (resize_frame l s) as [Hst _].
  destruct (pick l (resize l s) w) as [next [s1 w1]] eqn:Hp.
  destruct (pick_moves _ _ _ _ _ ltac:(by rewrite Hst) Hc Hp) as (Hc1 & Hs1 & Hi1 & Hn & Hm).
  rewrite Hst in Hs1, Hm. destruct (init s1 && _ && _) eqn:Eq.
  - injection Ht as <- <- <-. bsimpl. rewrite resize_sized by apply Hc1.
    split_and!; [by rewrite Hs1|done|]. intros _. replace (st_Active (st s1)) with next by done. done.
  - destruct (apply l next w1) as [[er|] w2] eqn:Ha;
      (assert (w2.2 = w1.2) as Hlog by
        (unfold apply in Ha; destruct (rung_steps l next);
           [by eapply Apply_log|by injection Ha as _ <-]));
      injection Ht as <- <- <-.
    + rewrite resize_sized, Hlog by apply Hc1. by rewrite Hs1.
    + simpl. replace (st_Active (if 0 <=? next then _ else _)) with next by (by case_match).
      rewrite Hlog. split_and!; [done| |done].
      rewrite resize_sized; [|apply Hc1]. exact Hc1.
Qed.

Lemma history_counted s w : history l s w ->
  in_range l (st_Active (st s)) /\ counted l (resize l s) w.2.
Proof.
  induction 1 as [w|s w w' log _ [IHr IHc]|s w e s' w' _ [IHr IHc] Ht]; [|done|].
  - split; [unfold in_range; simpl; lia|]. unfold resize.
    assert (forall i, at_ (replicate (length (Rungs l)) 0) i = 0) as Hz.
    { intros i. unfold at_. rewrite nth_lookup.
      destruct (replicate _ _ !! i) eqn:E; [|done]. by apply lookup_replicate in E as [-> _]. }
    case_match eqn:E.
    + apply Nat.eqb_eq in E. change (0%nat = length (Rungs l)) in E. split; [by split_and!|]. intros i r Hi.
      apply lookup_lt_Some in Hi. lia.
    + split; [split_and!; simpl; apply length_replicate|]. intros i r Hi. simpl. by rewrite !Hz.
  - destruct (Tick_moves _ _ _ _ _ IHr IHc Ht) as (? & ? & _). done.
Qed.

(** C38. A ladder leaves the rung it is on only on evidence from its probes: it
    climbs to a rung above whose last [RecoverAfter] probes all answered, or
    gives the rung up after [FailAfter] probes in a row failed, and then to a
    rung whose last probe answered, or to the blackhole when the last probe of
    every rung failed; and from the blackhole it takes the first rung of the
    list that answers, and only stays when none does. *)
Theorem ladder_moves_on_evidence s w s' w' :
  history l s w -> Tick l s w = (None, (s', w')) ->
  moves (st_Active (st s)) (st_Active (st s')) w'.2.
Proof.
  intros Hh Ht. destruct (history_counted _ _ Hh) as [Hr Hc].
  destruct (Tick_moves _ _ _ _ _ Hr Hc Ht) as (_ & _ & Hm). by apply Hm.
Qed.
End Hysteresis.

(** ** A change of rules that fails *)

Section Failed.
Context {W : Type} `{ExitHostLaws W}.
Implicit Types (l : LadderCfg) (s : Streaks) (w : W).

(** The subject's priorities are Go [int]s. *)
Definition fits (s : Subject) : Prop := PrefBase s + 2 * Z.of_nat (length (s_Sources s)) < 2 ^ 63.

Lemma prefs_from b k (l : list string) :
  concat (map (fun '(i, _) => [itoa (b + 2 * i + 0); itoa (b + 2 * i + 1)]) (imap (fun i x => (Z.of_nat (k + i), x)) l))
  = map itoa (seqZ (b + 2 * Z.of_nat k) (2 * Z.of_nat (length l))).
Proof.
  revert k. induction l as [|x l IH]; intros k; [done|]. rewrite imap_cons. cbn [map concat app length].
  assert (imap ((fun i x => (Z.of_nat (k + i), x)) ∘ S) l = imap (fun i x => (Z.of_nat (S k + i), x)) l) as ->
    by (apply imap_ext; intros; unfold compose; simpl; f_equal; lia).
  rewrite IH. rewrite (seqZ_cons (b + 2 * Z.of_nat k)) by lia. rewrite (seqZ_cons (Z.succ (b + 2 * Z.of_nat k))) by lia. cbn [map]. change app with (@List.app string). cbn [List.app].
  replace (Z.of_nat (k + 0)) with (Z.of_nat k) by lia. replace (b + 2 * Z.of_nat k + 0) with (b + 2 * Z.of_nat k) by lia.
  replace (b + 2 * Z.of_nat k + 1) with (Z.succ (b + 2 * Z.of_nat k)) by lia.
  replace (Z.succ (Z.succ (b + 2 * Z.of_nat k))) with (b + 2 * Z.of_nat (S k)) by lia.
  replace (Z.pred (Z.pred (2 * Z.of_nat (S (length l))))) with (2 * Z.of_nat (length l)) by lia. done.
Qed.

Lemma prefs_nodup (sub : Subject) : 1 <= PrefBase sub -> fits sub -> NoDup (prefs sub).
Proof.
  unfold fits. intros Hb Hfit. change (prefs sub) with (concat (map (fun '(i, _) => [itoa (PrefBase sub + 2 * i + 0); itoa (PrefBase sub + 2 * i + 1)])
    (imap (fun i x => (Z.of_nat (0 + i), x)) (s_Sources sub)))). rewrite prefs_from.
  apply NoDup_fmap_2_strong; [|apply NoDup_seqZ]. intros x y Hx%elem_of_seqZ Hy%elem_of_seqZ. apply itoa_inj; lia.
Qed.

(** Adding that fails at one rule keeps those before it and adds none after. *)
Lemma Apply_adds_err kvs w e w' : NoDup (map fst kvs) ->
  Apply run (map (fun kv => cmd (add_argv kv.1 kv.2)) kvs) w = (Some e, w') ->
  exists k, (k < length kvs)%nat /\
    (forall j p a, kvs !! j = Some (p, a) -> rules w' !! p = if decide (j < k)%nat then Some a else rules w !! p) /\
    (forall p, p ∉ map fst kvs -> rules w' !! p = rules w !! p).
Proof.
  revert w. induction kvs as [|[q a] kvs IH]; intros w Hn Ha; [done|]. apply NoDup_cons in Hn as [Hq Hn].
  rewrite map_cons, Apply_cmd in Ha. simpl fst in Ha. simpl snd in Ha.
  destruct (run w (add_argv q a)) as [r w1] eqn:E. pose proof (add_law _ _ _ _ _ E) as Hl. destruct r as [er|].
  - injection Ha as _ <-. exists 0%nat. simpl. rewrite Hl. split_and!; [lia|by intros|done].
  - destruct Hl as [_ Hset]. destruct (IH _ Hn Ha) as (k & Hk & Hin & Hout). exists (S k). simpl. split_and!; [lia| |].
    + intros [|j] p a' Hj; simpl in Hj.
      * injection Hj as <- <-. by rewrite decide_True, Hout, Hset, lookup_insert_eq by (done || lia).
      * rewrite (Hin j p a' Hj), Hset. assert (p <> q) as Hp.
        { intros ->. apply Hq, (list_elem_of_fmap_2 fst _ (q, a')). by eapply list_elem_of_lookup_2. }
        rewrite lookup_insert_ne by done. repeat case_decide; done || lia.
    + intros p Hp. rewrite Hout, Hset by set_solver. apply lookup_insert_ne. set_solver.
Qed.

(** The change was refused before a command ran. *)
Definition refused l w w1 : Prop := rules w1 = rules w /\ exists next err, rung_steps l next = Err err.

(** The subject's old rules are gone and the new ones stop after the first
    [k], short of the last; other priorities keep theirs. *)
Definition half_done l w w1 : Prop :=
  (exists next k, (k < length (prefs (Subj l)))%nat /\
     map (fun p => rules w1 !! p) (prefs (Subj l)) = take k (expected l next) ++ replicate (length (prefs (Subj l)) - k) None) /\
  forall p, p ∉ prefs (Subj l) -> rules w1 !! p = rules w !! p.

Lemma adds_half_done act (sub : Subject) w e w' : 1 <= PrefBase sub -> fits sub ->
  Apply run (Clear sub ++ map (fun kv => cmd (add_argv kv.1 kv.2)) (block sub act)) w = (Some e, w') ->
  (exists k, (k < length (prefs sub))%nat /\
     map (fun p => rules w' !! p) (prefs sub) =
       take k (map (fun kv => Some kv.2) (block sub act)) ++ replicate (length (prefs sub) - k) None) /\
  forall p, p ∉ prefs sub -> rules w' !! p = rules w !! p.
Proof.
  intros Hb Hfit Ha. destruct (Apply_dels (prefs sub) w) as (w1 & H1 & Hr1). rewrite Clear_dels, Apply_app, H1 in Ha.
  apply Apply_adds_err in Ha as (k & Hk & Hin & Hout); [|rewrite block_prefs; by apply prefs_nodup].
  rewrite block_prefs in Hout. assert (length (prefs sub) = length (block sub act)) as Hlen by (by rewrite <-(block_prefs sub act), length_map).
  split.
  - exists k. split; [lia|]. rewrite <-(block_prefs sub act) at 1. apply list_eq. intros j. rewrite map_map, list_lookup_fmap.
    destruct (block sub act !! j) as [[p a]|] eqn:Ej; simpl.
    + rewrite (Hin j p a Ej). apply lookup_lt_Some in Ej as Hj. case_decide as Hd.
      * rewrite lookup_app_l by (rewrite length_take, length_map; lia). rewrite lookup_take_lt by done. by rewrite list_lookup_fmap, Ej.
      * rewrite lookup_app_r by (rewrite length_take, length_map; lia). rewrite Hr1, decide_True.
        { symmetry. apply lookup_replicate. split; [done|]. rewrite length_take, length_map. lia. }
        rewrite <-(block_prefs sub act). apply (list_elem_of_fmap_2 fst _ (p, a)). by eapply list_elem_of_lookup_2.
    + apply lookup_ge_None in Ej. symmetry. apply lookup_ge_None. rewrite length_app, length_take, length_map, length_replicate. lia.
  - intros p Hp. by rewrite Hout, Hr1, decide_False.
Qed.

Lemma validated (sub : Subject) : Subject_validate sub = None -> 1 <= PrefBase sub.
Proof. unfold Subject_validate. destruct (Z.ltb_spec (PrefBase sub) 1); [done|lia]. Qed.

Lemma apply_fails l i w e w' : fits (Subj l) -> apply l i w = (Some e, w') ->
  refused l w w' \/ half_done l w w'.
Proof.
  intros Hfit Ha. unfold apply in Ha. destruct (rung_steps l i) as [steps|er] eqn:Es.
  2: { injection Ha as _ <-. left. split; [done|]. by exists i, er. }
  right. pose proof Es as Es'. unfold rung_steps in Es. destruct (Z.ltb_spec i 0) as [Hlt|Hge].
  - unfold Blackhole in Es. destruct (Subject_validate (Subj l)) eqn:Ev; [done|]. apply Ok_inj in Es as <-.
    destruct (adds_half_done (fun _ => ["blackhole"]) (Subj l) w e w' (validated _ Ev) Hfit) as [(k & Hk & Hr) Ho]; [rewrite <-adds_block; exact Ha|].
    split; [|done]. exists i, k. split; [done|]. unfold expected. by rewrite (proj2 (Z.ltb_lt _ _)).
  - destruct (Rungs l !! Z.to_nat i) as [r|] eqn:Er; [|apply Ok_inj in Es as <-; done]. destruct (r_Own r) eqn:Eo.
    + apply Ok_inj in Es as <-. destruct (Apply_dels (prefs (Subj l)) w) as (w1 & H1 & _). rewrite Clear_dels, H1 in Ha. done.
    + unfold Route in Es. destruct (Subject_validate (Subj l)) eqn:Ev; [done|]. destruct (r_Table r <? 1); [done|]. apply Ok_inj in Es as <-.
      destruct (adds_half_done (fun _ => ["lookup"; itoa (r_Table r)]) (Subj l) w e w' (validated _ Ev) Hfit) as [(k & Hk & Hr) Ho]; [rewrite <-adds_block; exact Ha|].
      split; [|done]. exists i, k. split; [done|]. unfold expected. by rewrite (proj2 (Z.ltb_ge _ _)), Er, Eo by done.
Qed.

(** A pass that holds: it picks the rung the ladder reports. *)
Definition holds l s w : Prop := (pick l (resize l s) w).1 = st_Active (st s).

(** The first exit answers: a ladder on it holds. *)
Lemma first_exit_holds l s w r : st_Active (st s) = 0 -> Rungs l !! 0%nat = Some r -> (ping w r).1 = None -> holds l s w.
Proof.
  intros Ha Hr Hp. unfold holds, pick. destruct (resize_frame l s) as [-> _]. rewrite Ha. simpl.
  change (Z.to_nat 0) with 0%nat. unfold probe at 1. rewrite Hr. by destruct (ping w r) as [[e|] w'].
Qed.

(** Any number of passes that hold, the world free to move between them
    but for its rules. *)
Inductive steady l : Streaks * W -> Streaks * W -> Prop :=
| steady_none s w w' : rules w' = rules w -> steady l (s, w) (s, w')
| steady_pass sw s w e s' w' w'' : steady l sw (s, w) -> holds l s w -> Tick l s w = (e, (s', w')) ->
    rules w'' = rules w' -> steady l sw (s', w'').

Definition settled l s : Prop :=
  in_range l (st_Active (st s)) /\ init s = true /\ (0 <= st_Active (st s) \/ st_Down (st s) = true).

Lemma held_tick l s w e s' w' : settled l s -> holds l s w -> Tick l s w = (e, (s', w')) ->
  e = None /\ st s' = st s /\ init s' = init s /\ rules w' = rules w.
Proof.
  intros (Hr & Hi & Hd) Hh Ht. unfold Tick, holds in *. destruct (pick l (resize l s) w) as [next [s1 w1]] eqn:Hp.
  destruct (reported _ _ _ _ _ _ Hr Hp) as (_ & Hs & Hi1 & Hw). simpl in Hh. subst next.
  assert (init s1 && (st_Active (st s) =? st_Active (st s1)) && ((0 <=? st_Active (st s)) || st_Down (st s1)) = true) as Hc.
  { rewrite Hi1, Hi, Hs, Z.eqb_refl. simpl. apply orb_true_iff. by rewrite Z.leb_le. }
  rewrite Hc in Ht. injection Ht as <- <- <-. done.
Qed.

Lemma steady_keeps l s w s2 w2 : settled l s -> steady l (s, w) (s2, w2) ->
  settled l s2 /\ st s2 = st s /\ rules w2 = rules w.
Proof.
  intros Hs Hd. remember (s, w) as a eqn:Ea. remember (s2, w2) as b eqn:Eb. revert s2 w2 Eb.
  induction Hd as [s0 w0 w' Hw|sw s0 w0 e s' w' w'' Hd IH Hh Ht Hw]; intros s2 w2 [= -> ->].
  - by injection Ea as -> ->.
  - destruct (IH Ea _ _ eq_refl) as (H1 & H2 & H3). destruct (held_tick _ _ _ _ _ _ H1 Hh Ht) as (_ & E1 & E2 & E3).
    unfold settled in *. rewrite E1, E2. split_and!; [tauto..|congruence|congruence].
Qed.

(** The rung reported wants rules: the blackhole, or an exit elsewhere. *)
Definition wants_rules l s : Prop :=
  st_Active (st s) < 0 \/ exists r, Rungs l !! Z.to_nat (st_Active (st s)) = Some r /\ r_Own r = false.

Lemma wants_expected l s : in_range l (st_Active (st s)) -> wants_rules l s -> None ∉ expected l (st_Active (st s)).
Proof.
  unfold wants_rules, expected. intros Hr Hw. assert (forall act, None ∉ map (fun kv : string * list string => Some kv.2) (block (Subj l) act)) as Hn.
  { intros act (kv & ? & _)%list_elem_of_fmap. done. }
  destruct (Z.ltb_spec (st_Active (st s)) 0) as [Hlt|Hge]; [apply Hn|]. destruct Hw as [?|(r & -> & ->)]; [lia|]. apply Hn.
Qed.

(** C39. The code keeps the reported state when the change of rules fails, "so
    the next tick tries again".  For any ladder and any host: the failed pass
    reports the rung it was on, and unless the change was refused before a
    command ran, the subject's old rules are deleted and some new one, at least
    the last, is missing.  From there no number of passes that hold the
    reported rung (its exit answers and none above has recovered) reports an
    error or touches a rule: where that rung wants rules, the blackhole of a
    ladder that is down among them, they are not in force after any of them. *)
Theorem Tick_failed_apply_leaves_no_rules l s w e s1 w1 :
  settled l s -> fits (Subj l) -> Tick l s w = (Some e, (s1, w1)) ->
  st s1 = st s /\ (refused l w w1 \/ half_done l w w1) /\
  forall s2 w2, steady l (s1, w1) (s2, w2) ->
    st s2 = st s /\ rules w2 = rules w1 /\ (holds l s2 w2 -> (Tick l s2 w2).1 = None) /\
    (half_done l w w1 -> wants_rules l s -> ~ in_force l s2 w2).
Proof.
  intros (Hr & Hi & Hd) Hfit Ht. unfold Tick in Ht. destruct (pick l (resize l s) w) as [next [s0 w0]] eqn:Hp.
  destruct (reported _ _ _ _ _ _ Hr Hp) as (_ & Hs & Hi0 & Hw). destruct (init s0 && _ && _); [done|].
  destruct (apply l next w0) as [[er|] wa] eqn:Ha; [|done]. injection Ht as -> <- <-.
  assert (settled l s0) as Hset by (unfold settled; rewrite Hs, Hi0; done). split; [done|]. split.
  { destruct (apply_fails _ _ _ _ _ Hfit Ha) as [[E X]|[X E]]; [left; split; [congruence|done]|right; split; [done|]].
    intros p Hp'. by rewrite E, Hw. }
  intros s2 w2 Hd2. destruct (steady_keeps _ _ _ _ _ Hset Hd2) as (Hset2 & E2 & R2). split_and!; [congruence|done| |].
  - intros Hh. destruct (Tick l s2 w2) as [e2 [s3 w3]] eqn:Et. by apply (held_tick _ _ _ _ _ _ Hset2 Hh Et).
  - intros [(nx & k & Hk & Hm) _] Hwant Hf. specialize (Hf (proj1 (proj2 Hset2))). rewrite R2, E2, Hs, Hm in Hf.
    apply (wants_expected l s Hr Hwant). rewrite <-Hf. apply elem_of_app. right. apply elem_of_replicate. split; [done|lia].
Qed.
End Failed.

(** ** A small host, to run ladders on *)

Record Toy := MkToy {
  t_rules : gmap string (list string); t_up : list string; t_full : bool; t_seen : list State }.

Definition toy_run (w : Toy) (argv : list string) : option error * Toy :=
  let fail := Some (Errorf (text "RTNETLINK answers")) in
  match strip_args ["ip"; "rule"; "add"; "pref"] argv, strip_args ["ip"; "rule"; "del"; "pref"] argv with
  | Some (p :: args), _ =>
      if t_full w then (fail, w)
      else match t_rules w !! p with
      | Some _ => (fail, w)
      | None => (None, MkToy (<[p := args]> (t_rules w)) (t_up w) (t_full w) (t_seen w))
      end
  | _, Some (p :: _) =>
      (match t_rules w !! p with Some _ => None | None => fail end,
       MkToy (delete p (t_rules w)) (t_up w) (t_full w) (t_seen w))
  | _, _ => (None, w)
  end.

#[export] Instance toy_host : ExitHost Toy := {
  run := toy_run;
  ping w r := (if contains (t_up w) (r_NodeID r) then None else Some (Errorf (text "no reply")), w);
  now _ := 0;
  on_change w s := MkToy (t_rules w) (t_up w) (t_full w) (t_seen w ++ [s]) }.

Lemma add_del_argv p args : strip_args ["ip"; "rule"; "add"; "pref"] (del_argv p) = None /\
  strip_args ["ip"; "rule"; "add"; "pref"] (add_argv p args) = Some (p :: args) /\
  strip_args ["ip"; "rule"; "del"; "pref"] (del_argv p) = Some [p].
Proof. done. Qed.

#[export] Instance toy_laws : ExitHostLaws Toy.
Proof.
  refine {| rules := t_rules |}; try done.
  - intros w p args r w'. unfold run, toy_host, toy_run.
    destruct (add_del_argv p args) as (_ & -> & _).
    destruct (t_full w); [by intros [= <- <-]|]. destruct (t_rules w !! p) eqn:E; by intros [= <- <-].
  - intros w p r w'. unfold run, toy_host, toy_run.
    destruct (add_del_argv p []) as (-> & _ & ->). by intros [= <- <-].
Defined.

Definition ex_ladder : LadderCfg :=
  MkLadder (MkSubject ["10.208.1.0/24"] 1000)
    [MkRung "vps" false "exit-vps" 100 "10.251.0.1"; MkRung "home" false "exit-home" 200 "10.251.0.2"] 1 2.
Definition toy_up (up : list string) (w : Toy) : Toy := MkToy (t_rules w) up (t_full w) (t_seen w).
Definition toy0 : Toy := MkToy ∅ ["vps"; "home"] false [].
Definition ex_first : Streaks * Toy := (Tick ex_ladder NewLadder toy0).2.

(** The second pass: the first exit is silent, the ladder steps down. *)
Definition ex_second : Streaks * Toy := (Tick ex_ladder ex_first.1 (toy_up ["home"] ex_first.2)).2.

Lemma Tick_in_force_witness :
  st_Active (st ex_first.1) = 0 /\ st_Active (st ex_second.1) = 1 /\
  map (fun p => rules ex_second.2 !! p) ["1000"; "1001"] =
    [Some ["from"; "10.208.1.0/24"; "lookup"; "main"; "suppress_prefixlength"; "0"];
     Some ["from"; "10.208.1.0/24"; "lookup"; "200"]] /\
  in_force ex_ladder ex_second.1 ex_second.2.
Proof.
  split; [by vm_compute|]. split; [by vm_compute|]. split; [by vm_compute|].
  destruct (Tick_in_force ex_ladder ex_first.1 (toy_up ["home"] ex_first.2) ex_second.1 ex_second.2)
    as (_ & _ & Hf & _).
  - vm_compute. split; congruence.
  - intros _. by vm_compute.
  - by vm_compute.
  - exact Hf.
Defined.

Definition ex_first_log : Streaks * (Toy * probe_log) := (Tick ex_ladder NewLadder (toy0, [])).2.
Definition ex_second_log : Streaks * (Toy * probe_log) :=
  (Tick ex_ladder ex_first_log.1 (toy_up ["home"] ex_first_log.2.1, ex_first_log.2.2)).2.

Lemma ladder_moves_on_evidence_witness :
  st_Active (st ex_second_log.1) = 1 /\
  moves ex_ladder 0 (st_Active (st ex_second_log.1)) ex_second_log.2.2.
Proof.
  split; [by vm_compute|].
  apply (ladder_moves_on_evidence ex_ladder
    ltac:(apply (bool_decide_unpack _); by vm_compute)
    ex_first_log.1 (toy_up ["home"] ex_first_log.2.1, ex_first_log.2.2) ex_second_log.1 ex_second_log.2).
  - apply h_world with (w := ex_first_log.2.1).
    apply (h_tick _ NewLadder (toy0, []) None); [constructor|by vm_compute].
  - by vm_compute.
Defined.

(** The ladder on its first exit, whose step down to the second fails at the
    first [ip rule add]: the first exit answers again, and two passes later its
    rules are still missing. *)
Definition ex_failed : Streaks * Toy := (Tick ex_ladder ex_first.1 (MkToy (t_rules ex_first.2) ["home"] true (t_seen ex_first.2))).2.
Definition ex_healthy : Streaks * Toy :=
  let w := ex_failed.2 in (Tick ex_ladder ex_failed.1 (MkToy (t_rules w) ["vps"; "home"] false (t_seen w))).2.
Definition ex_later : Streaks * Toy := (Tick ex_ladder ex_healthy.1 ex_healthy.2).2.

Lemma Tick_failed_apply_leaves_no_rules_witness :
  in_force ex_ladder ex_first.1 ex_first.2 /\ st ex_later.1 = st ex_first.1 /\
  map (fun p => rules ex_later.2 !! p) (prefs (Subj ex_ladder)) = [None; None] /\ ~ in_force ex_ladder ex_later.1 ex_later.2.
Proof.
  destruct (Tick_failed_apply_leaves_no_rules ex_ladder ex_first.1 (MkToy (t_rules ex_first.2) ["home"] true (t_seen ex_first.2))
    (match (Tick ex_ladder ex_first.1 (MkToy (t_rules ex_first.2) ["home"] true (t_seen ex_first.2))).1 with Some e => e | None => ErrBusy end)
    ex_failed.1 ex_failed.2) as (_ & Hhow & Hst).
  - split; [vm_compute; split; congruence|]. split; [by vm_compute|]. left. vm_compute. congruence.
  - vm_compute. congruence.
  - by vm_compute.
  - destruct (Hst ex_later.1 ex_later.2) as (E1 & _ & _ & Hf).
    + apply (steady_pass _ _ ex_healthy.1 ex_healthy.2 None ex_later.1 ex_later.2); [|by vm_compute..].
      apply (steady_pass _ _ ex_failed.1 (MkToy (t_rules ex_failed.2) ["vps"; "home"] false (t_seen ex_failed.2)) None ex_healthy.1 ex_healthy.2); [|by vm_compute..].
      by apply steady_none.
    + split_and!; [by vm_compute|done|by vm_compute|]. apply Hf.
      * destruct Hhow as [[Hr _]|Hh]; [|exact Hh]. apply (f_equal (fun m => m !! "1001")) in Hr. vm_compute in Hr. discriminate Hr.
      * right. eexists. split; [by vm_compute|done].
Defined.
