(* ===== verification/Mesh.v ===== *)
(** * The node mesh ([internal/mesh/mesh.go])

    The controller's pure logic of the WireGuard mesh: the address plan, the
    transit allocation, the filter on what nodes report, peer lists and the
    relayed routes. *)
From S2P Require Import Prelude GoStrings Errs Netip.

Definition Supernet : Prefix := PrefixFrom (ip4 10 208 0 0) 12.
Definition Transit : Prefix := PrefixFrom (ip4 10 207 255 0) 24.
Definition ExitNet : Prefix := PrefixFrom (ip4 10 251 0 0) 22.
Definition ControllerTransit : Addr := ip4 10 207 255 6.
Definition ErrNoTransit : error := Errorf (text "mesh: no free transit address left").

(** The address plan's prefixes are the source's literals. *)
Example plan_parses :
  ParsePrefix "10.208.0.0/12" = Some Supernet /\ ParsePrefix "10.207.255.0/24" = Some Transit /\
  ParsePrefix "10.251.0.0/22" = Some ExitNet /\ ParseAddr "10.207.255.6" = Some ControllerTransit.
Proof. by vm_compute. Qed.

(** ** Transit addresses *)

(** [a[3] = byte(i)] on the transit net's address. *)
Definition transit_addr (i : Z) : Addr := A4 (Z.lor (Z.land (bits_of (p_ip Transit)) (Z.lnot 255)) i).

Definition AllocTransit (taken : list Addr) : res Addr :=
  match find_first (fun c => negb (bool_decide (c = ControllerTransit)) && negb (contains taken c))
          (map transit_addr (seqZ 1 254)) with
  | Some c => Ok c
  | None => Err ErrNoTransit
  end.

Definition Slot (transit : Addr) : Z :=
  if Contains Transit transit then v4 (bits_of transit) 3 else 0.

(** ** Reported addresses *)

Definition metadata : Addr := ip4 169 254 169 254.

Definition UsableEndpoint (a : Addr) : bool :=
  let a := Unmap a in
  if negb (IsValid a) || IsUnspecified a || IsLoopback a || IsMulticast a || IsLinkLocalUnicast a
     || IsLinkLocalMulticast a || bool_decide (a = metadata)
  then false
  else negb (Contains Supernet a) && negb (Contains Transit a) && negb (Contains ExitNet a).

Definition FilterAddrs (inp : list Addr) : list Addr :=
  add_all [] (List.filter UsableEndpoint (map Unmap inp)).

Record Node := MkNode {
  n_ID : string; n_PublicKey : string; n_Transit : Addr; n_Subnets : list Prefix; n_Port : Z;
  n_Ifaces : list Prefix; n_Public : list Addr }.

Definition AddrPort : Type := Addr * Z.

Record Peer := MkPeer {
  p_NodeID : string; p_PublicKey : string; p_AllowedIPs : list Prefix; p_Candidates : list AddrPort }.

Definition lanAddrs (self other : Node) : list Addr :=
  List.filter (fun a =>
      UsableEndpoint a && IsPrivate a &&
      existsb (fun mine => Contains (Masked mine) a && negb (bool_decide (Unmap (p_ip mine) = a)))
        (n_Ifaces self))
    (map (fun p => Unmap (p_ip p)) (n_Ifaces other)).

Definition SameLAN (a b : Node) : bool := (0 <? Z.of_nat (length (lanAddrs a b))).

Definition HasV6 (n : Node) : bool := existsb Is6 (FilterAddrs (n_Public n)).

Definition Candidates (self other : Node) : list AddrPort :=
  let v6 := HasV6 self in
  let add := add_all (A := AddrPort) in
  add (add [] (map (fun a => (a, n_Port other)) (lanAddrs self other)))
    (map (fun a => (a, n_Port other))
       (List.filter (fun a => Is4 a || v6) (FilterAddrs (n_Public other)))).

(** ** Peer lists *)

Definition own_ips (o : Node) : list Prefix := n_Subnets o ++ [PrefixFrom (n_Transit o) 32].

Definition eligible (self o : Node) : bool :=
  negb (String.eqb (n_ID o) (n_ID self) || String.eqb (n_PublicKey o) ""
        || negb (Contains Transit (n_Transit o))).

(** The hop that carries [self]'s traffic for [o], [""] for a direct tunnel;
    no [next] is a nil [NextHop]. *)
Definition hop_of (next : option (string -> string -> string)) (self o : Node) : string :=
  match next with Some f => f (n_ID self) (n_ID o) | None => "" end.
Definition relayed (next : option (string -> string -> string)) (self o : Node) : bool :=
  let hop := hop_of next self o in
  negb (String.eqb hop "") && negb (String.eqb hop (n_ID o)).

(** The loop's variables: [out], [idx], [moves]. *)
Record PeerLoop := MkPeerLoop {
  pl_out : list Peer; pl_idx : gmap string nat; pl_moves : list (string * list Prefix) }.

Definition peer_step (self : Node) (next : option (string -> string -> string)) (s : PeerLoop) (o : Node)
    : PeerLoop :=
  if negb (eligible self o) then s
  else
    let own := own_ips o in
    let mv := relayed next self o in
    let p := MkPeer (n_ID o) (n_PublicKey o) (if mv then [] else own) (Candidates self o) in
    MkPeerLoop (pl_out s ++ [p]) (<[n_ID o := length (pl_out s)]> (pl_idx s))
      (if mv then pl_moves s ++ [(hop_of next self o, own)] else pl_moves s).

Definition allow_more (ps : list Prefix) (p : Peer) : Peer :=
  MkPeer (p_NodeID p) (p_PublicKey p) (p_AllowedIPs p ++ ps) (p_Candidates p).

Definition move_step (idx : gmap string nat) (out : list Peer) (m : string * list Prefix) : list Peer :=
  match idx !! m.1 with
  | Some i => alter (allow_more m.2) i out
  | None => out
  end.

Definition Peers (self : Node) (all : list Node) (next : option (string -> string -> string)) : list Peer :=
  let s := fold_left (peer_step self next) all (MkPeerLoop [] ∅ []) in
  fold_left (move_step (pl_idx s)) (pl_moves s) (pl_out s).

(** ** Relayed routes *)

Section Routes.
Variables (up : string -> string -> bool) (pub : string -> bool).

Definition node_leb (a b : string) : bool :=
  if Bool.eqb (pub a) (pub b) then String.leb a b else pub a.

(** One pop of the queue: every node of [order] not yet seen and up with [x]. *)
Definition visit_step (x : string) (qd : list string * gmap string nat) (y : string)
    : list string * gmap string nat :=
  let '(queue, dist) := qd in
  match dist !! y with
  | Some _ => qd
  | None =>
      if negb (String.eqb y x) && up x y then
        (queue ++ [y], <[y := S (default 0%nat (dist !! x))]> dist)
      else qd
  end.
Definition visit (order : list string) (x : string) (queue : list string) (dist : gmap string nat) :=
  fold_left (visit_step x) order (queue, dist).

(** The BFS loop; [None] when the fuel runs out. *)
Fixpoint bfs (fuel : nat) (order queue : list string) (dist : gmap string nat)
    : option (gmap string nat) :=
  match queue with
  | [] => Some dist
  | x :: queue =>
      match fuel with
      | O => None
      | S fuel => let '(queue, dist) := visit order x queue dist in bfs fuel order queue dist
      end
  end.

Definition distances (ids : list string) (dst : string) : option (gmap string nat) :=
  bfs (S (length ids)) (sort node_leb ids) [dst] {[dst := 0%nat]}.

(** [src]'s next hop to [dst], when it needs one. *)
Definition next_hop (order : list string) (dist : gmap string nat) (src : string) : option string :=
  match dist !! src with
  | None => None
  | Some d =>
      if (d <? 2)%nat then None
      else find_first (fun n =>
        match dist !! n with Some dn => Nat.eqb dn (d - 1) && up src n | None => false end) order
  end.

Definition routes_to (ids order : list string) (dst : string) (out : gmap (string * string) string)
    : gmap (string * string) string :=
  match distances ids dst with
  | None => out
  | Some dist =>
      fold_left (fun out src =>
        match next_hop order dist src with Some n => <[(src, dst) := n]> out | None => out end) ids out
  end.

Definition Routes (ids : list string) : gmap (string * string) string :=
  fold_left (fun out dst => routes_to ids (sort node_leb ids) dst out) ids ∅.
End Routes.

Definition PairKey (a b : string) : string * string :=
  if String.ltb b a then (b, a) else (a, b).

(** ** The transit allocation *)

Definition transit_base : Z := bits_of (p_ip Transit).

Lemma transit_addrs : map transit_addr (seqZ 1 254) = map (fun i => A4 (transit_base + i)) (seqZ 1 254).
Proof. by vm_compute. Qed.

Lemma transit_base_eq : transit_base = 708607 * 2 ^ 8.
Proof. by vm_compute. Qed.

Lemma byte0_mod x : v4 x 3 = x mod 256.
Proof. unfold v4, byte_of. change 255 with (Z.ones 8). by rewrite Z.land_ones, Z.shiftr_0_r by lia. Qed.

Lemma transit_contains a : Contains Transit a = true <-> exists i, 0 <= i < 256 /\ a = A4 (transit_base + i).
Proof.
  split.
  - intros Hc. assert (exists x, a = A4 x) as [x ->].
    { unfold Contains in Hc. bsimpl. destruct a; simpl in *; try lia. by eexists. }
    rewrite contains_mod in Hc by (done || (change (p_bits Transit) with 24; lia)).
    change (p_bits Transit) with 24 in Hc. change (bits_of (p_ip Transit)) with transit_base in Hc. bsimpl.
    change (32 - 24) with 8 in Hc. exists (x mod 2 ^ 8).
    split; [by apply Z.mod_pos_bound|]. f_equal. rewrite (Z.div_mod x (2 ^ 8)) at 1 by done. by rewrite Hc.
  - intros (i & Hi & ->).
    rewrite contains_mod by (done || (change (p_bits Transit) with 24; lia)).
    change (p_bits Transit) with 24. apply Z.eqb_eq.
    change (bits_of (p_ip Transit)) with transit_base. rewrite transit_base_eq.
    change (32 - 24) with 8. rewrite Z.div_add_l, Z.div_mul, Z.div_small by lia. lia.
Qed.

Lemma Slot_addr i : 0 <= i < 256 -> Slot (A4 (transit_base + i)) = i.
Proof.
  intros Hi. unfold Slot. rewrite (proj2 (transit_contains _)) by eauto.
  simpl bits_of. rewrite byte0_mod. rewrite transit_base_eq. change (2 ^ 8) with 256.
  rewrite Z.add_comm, Z.mod_add by lia. by apply Z.mod_small.
Qed.

Definition free (taken : list Addr) (a : Addr) : Prop := a <> ControllerTransit /\ a ∉ taken.

(** A new node gets the lowest free address of the transit net that is
    neither the controller's nor .0 or .255, so two nodes never share an address
    or a slot; the allocation fails only when all 253 are taken. *)
Theorem AllocTransit_spec taken :
  match AllocTransit taken with
  | Ok a => Contains Transit a = true /\ 1 <= Slot a <= 254 /\ free taken a /\
      (forall b, Contains Transit b = true -> 1 <= Slot b < Slot a -> ~ free taken b)
  | Err e => e = ErrNoTransit /\
      (forall b, Contains Transit b = true -> 1 <= Slot b <= 254 -> ~ free taken b)
  end.
Proof.
  unfold AllocTransit. rewrite transit_addrs.
  set (p := fun c => negb (bool_decide (c = ControllerTransit)) && negb (contains taken c)).
  assert (forall b, p b = false -> ~ free taken b) as Hp.
  { intros b Hb [H1 H2]. unfold p, contains in Hb. by rewrite !bool_decide_false in Hb. }
  destruct (find_first _ _) as [a|] eqn:E.
  - apply find_first_split in E as (pre & post & Hl & Hpre & Hpa).
    apply fmap_app_inv in Hl as (is1 & is2 & Hpre' & Hpost & Hs).
    destruct is2 as [|i is2]; simplify_eq/=.
    assert (seqZ 1 254 !! length is1 = Some i) as Hi by (rewrite Hs; by apply list_lookup_middle).
    apply lookup_seqZ in Hi as [Hi ?].
    assert (forall j, 1 <= j < i -> j ∈ is1) as Hbelow.
    { intros j Hj. assert (seqZ 1 254 !! Z.to_nat (j - 1) = Some j) as Hlk.
      { apply lookup_seqZ. lia. }
      rewrite Hs, lookup_app_l in Hlk by lia. by eapply list_elem_of_lookup_2. }
    rewrite Slot_addr by lia. split_and!; [apply transit_contains; exists i; split; [lia|done]|lia..| |].
    + unfold p, contains in Hpa. bsimpl. unfold free. split; assumption.
    + intros b (j & Hj & ->)%transit_contains Hlt. rewrite Slot_addr in Hlt by lia. apply Hp.
      apply (proj1 (Forall_forall _ _) Hpre), list_elem_of_fmap. eauto.
  - apply find_first_None in E. split; [done|].
    intros b (j & Hj & ->)%transit_contains Hlt. rewrite Slot_addr in Hlt by lia. apply Hp.
    apply (proj1 (Forall_forall _ _) E), list_elem_of_fmap. exists j. split; [done|].
    apply elem_of_seqZ. lia.
Qed.

(** ** Endpoints *)

Lemma FilterAddrs_spec inp a :
  a ∈ FilterAddrs inp <-> UsableEndpoint a = true /\ exists b, b ∈ inp /\ a = Unmap b.
Proof.
  unfold FilterAddrs. rewrite elem_of_add_all, elem_of_filterb, list_elem_of_fmap. split; [intros [H|((b & -> & Hb) & Hu)]; [set_solver|eauto]|].
  intros (Hu & b & Hb & ->). right. eauto.
Qed.

Lemma lanAddrs_spec self other a :
  a ∈ lanAddrs self other <->
  UsableEndpoint a = true /\ IsPrivate a = true /\
  (exists p, p ∈ n_Ifaces other /\ a = Unmap (p_ip p)) /\
  (exists m, m ∈ n_Ifaces self /\ Contains (Masked m) a = true /\ Unmap (p_ip m) <> a).
Proof.
  unfold lanAddrs. rewrite elem_of_filterb, list_elem_of_fmap.
  rewrite !andb_true_iff, existsb_exists. split.
  - intros ((p & -> & Hp) & (Hu & Hpr) & m & Hm & Hc). bsimpl. split_and!; [done..|by exists p|].
    exists m. split; [by apply list_elem_of_In|done].
  - intros (Hu & Hpr & (p & Hp & ->) & m & Hm & Hc & Hne). split; [by exists p|]. split; [done|].
    exists m. split; [by apply list_elem_of_In|]. by rewrite Hc, bool_decide_false.
Qed.

(** The endpoints tried for a peer are exactly its usable addresses that can
    be reached: a private one when the two share that subnet, a public one
    unless it is IPv6 and self has none; each once, on the peer's port, and the
    shared subnet's before any other.  None is inside the mesh's own networks or
    the metadata service, whatever a node reported. *)
Theorem Candidates_spec self other :
  NoDup (Candidates self other) /\
  (forall ap, ap ∈ Candidates self other <->
     ap.2 = n_Port other /\
     (ap.1 ∈ lanAddrs self other \/
      (ap.1 ∈ FilterAddrs (n_Public other) /\ (Is4 ap.1 = true \/ HasV6 self = true)))) /\
  (exists lan wan, Candidates self other = lan ++ wan /\
     (forall ap, ap ∈ lan <-> ap.2 = n_Port other /\ ap.1 ∈ lanAddrs self other)) /\
  Forall (fun ap => UsableEndpoint ap.1 = true /\ Unmap ap.1 <> metadata /\
    Forall (fun p => Contains p (Unmap ap.1) = false) [Supernet; Transit; ExitNet]) (Candidates self other).
Proof.
  assert (Hin : forall ap, ap ∈ Candidates self other <->
     ap.2 = n_Port other /\
     (ap.1 ∈ lanAddrs self other \/
      (ap.1 ∈ FilterAddrs (n_Public other) /\ (Is4 ap.1 = true \/ HasV6 self = true)))).
  { intros [a port]. unfold Candidates. rewrite !elem_of_add_all, !list_elem_of_fmap.
    setoid_rewrite elem_of_filterb. setoid_rewrite orb_true_iff. simpl. split.
    - intros [[?|(x & [= -> ->] & ?)]|(x & [= -> ->] & ? & ?)]; [set_solver|..]; auto.
    - intros [-> [?|[? ?]]]; [left; right|right]; eauto. }
  split; [|split; [exact Hin|split]].
  - unfold Candidates. apply add_all_nodup, add_all_nodup, NoDup_nil_2.
  - unfold Candidates. set (lan := add_all [] _). destruct (add_all_prefix lan
      (map (fun a => (a, n_Port other))
         (List.filter (fun a => Is4 a || HasV6 self) (FilterAddrs (n_Public other)))))
      as (wan & Hw & _). exists lan, wan. split; [exact Hw|]. intros [a port]. unfold lan.
    rewrite elem_of_add_all, list_elem_of_fmap. simpl. split.
    + intros [?|(x & [= -> ->] & ?)]; [set_solver|done].
    + intros [-> ?]. right. eauto.
  - apply Forall_forall. intros ap [_ Hap]%Hin.
    assert (UsableEndpoint ap.1 = true) as Hu.
    { destruct Hap as [Hl|[Hf _]]; [by apply lanAddrs_spec in Hl as [? _]|].
      by apply FilterAddrs_spec in Hf as [? _]. }
    split; [done|]. unfold UsableEndpoint in Hu. destruct (_ || _) eqn:E in Hu; [done|]. bsimpl.
    split; [done|]. by repeat constructor.
Qed.

(** ** Peer lists *)

Definition listed (self : Node) (all : list Node) : list Node := List.filter (eligible self) all.

Lemma peer_loop self next all s0 :
  let s := fold_left (peer_step self next) all s0 in
  let ns := listed self all in
  pl_out s = pl_out s0 ++ map (fun o => MkPeer (n_ID o) (n_PublicKey o)
    (if relayed next self o then [] else own_ips o) (Candidates self o)) ns /\
  pl_moves s = pl_moves s0 ++
    map (fun o => (hop_of next self o, own_ips o)) (List.filter (relayed next self) ns).
Proof.
  cbv zeta. revert s0. induction all as [|o all IH]; intros s0; [by rewrite !app_nil_r|].
  cbn [fold_left]. destruct (IH (peer_step self next s0 o)) as [-> ->].
  unfold listed. simpl. unfold peer_step. destruct (eligible self o); simpl; [|done].
  rewrite <- !app_assoc. split; [done|]. by destruct (relayed next self o); rewrite <- ?app_assoc.
Qed.

(** [idx] finds a listed node's entry, and nothing else. *)
Lemma peer_idx self next all s0 :
  (forall i id, pl_idx s0 !! id = Some i -> p_NodeID <$> pl_out s0 !! i = Some id) ->
  (forall id, id ∈ map p_NodeID (pl_out s0) -> is_Some (pl_idx s0 !! id)) ->
  let s := fold_left (peer_step self next) all s0 in
  (forall i id, pl_idx s !! id = Some i -> p_NodeID <$> pl_out s !! i = Some id) /\
  (forall id, id ∈ map p_NodeID (pl_out s) -> is_Some (pl_idx s !! id)).
Proof.
  revert s0. induction all as [|o all IH]; intros s0 H1 H2; [done|]. cbn [fold_left].
  apply IH; unfold peer_step; destruct (eligible self o); simpl; try done.
  - intros i id. rewrite lookup_insert_Some. intros [[<- <-]|[_ Hi]].
    + rewrite lookup_app_r, Nat.sub_diag by lia. done.
    + apply H1 in Hi. destruct (pl_out s0 !! i) eqn:E; [|done].
      by rewrite (lookup_app_l_Some _ _ _ _ E).
  - intros id. rewrite map_app. intros [Hi|Hi]%elem_of_app.
    + destruct (decide (n_ID o = id)) as [->|]; [rewrite lookup_insert_eq; eauto|].
      rewrite lookup_insert_ne by done. by apply H2.
    + simpl in Hi. apply list_elem_of_singleton in Hi as ->. rewrite lookup_insert_eq. eauto.
Qed.

Lemma alter_allowed ps i (out : list Peer) : (i < length out)%nat ->
  concat (map p_AllowedIPs (alter (allow_more ps) i out)) ≡ₚ concat (map p_AllowedIPs out) ++ ps.
Proof.
  revert i. induction out as [|p out IH]; intros [|i] Hi; simpl in Hi; try lia.
  - simpl. rewrite <- !app_assoc. by rewrite (Permutation_app_comm ps).
  - change (concat (map p_AllowedIPs (p :: alter (allow_more ps) i out)))
      with (p_AllowedIPs p ++ concat (map p_AllowedIPs (alter (allow_more ps) i out))).
    etrans; [apply Permutation_app_head, (IH i); lia|]. simpl. by rewrite app_assoc.
Qed.

Lemma moves_allowed (idx : gmap string nat) ms out :
  (forall i id, idx !! id = Some i -> (i < length out)%nat) ->
  concat (map p_AllowedIPs (fold_left (move_step idx) ms out)) ≡ₚ
  concat (map p_AllowedIPs out) ++
    concat (map snd (List.filter (fun m => bool_decide (is_Some (idx !! m.1))) ms)) /\
  map p_NodeID (fold_left (move_step idx) ms out) = map p_NodeID out.
Proof.
  revert out. induction ms as [|m ms IH]; intros out Hb; simpl; [by rewrite app_nil_r|].
  unfold move_step at 2 4. destruct (idx !! m.1) as [i|] eqn:E.
  - rewrite bool_decide_true by eauto. destruct (IH (alter (allow_more m.2) i out)) as [-> ->].
    { intros j id Hj. rewrite length_alter. by eapply Hb. }
    split.
    + rewrite alter_allowed by (by eapply Hb). simpl. by rewrite <- app_assoc.
    + clear. revert i. induction out as [|p out IH]; intros [|i]; simpl; [done..|]. f_equal. apply IH.
  - rewrite bool_decide_false by (by intros [? ?]). by apply IH.
Qed.

(** A listed node whose networks end up on some peer: its own, or its next hop's. *)
Definition delivered (self : Node) (next : option (string -> string -> string)) (all : list Node)
    (o : Node) : bool :=
  negb (relayed next self o) || contains (map n_ID (listed self all)) (hop_of next self o).

Lemma split_moves {A B} (r d : A -> bool) (f : A -> list B) (xs : list A) :
  concat (map (fun o => if r o then [] else f o) xs) ++ concat (map f (List.filter d (List.filter r xs)))
  ≡ₚ concat (map f (List.filter (fun o => negb (r o) || d o) xs)).
Proof.
  induction xs as [|o xs IH]; simpl; [done|]. destruct (r o); simpl; [|by rewrite <- app_assoc, IH].
  destruct (d o); simpl; [|done]. rewrite <- IH. by rewrite !app_assoc, (Permutation_app_comm _ (f o)), <- app_assoc.
Qed.

(** A node's peer list has one entry per other node with a key and a transit
    address, in order; together the entries carry every such node's networks and
    transit address exactly once, on its own entry or on its next hop's, and
    drop only those whose next hop is not a peer.  So AllowedIPs never overlap
    when the nodes' networks do not. *)
Theorem Peers_allowed self all next :
  map p_NodeID (Peers self all next) = map n_ID (listed self all) /\
  concat (map p_AllowedIPs (Peers self all next)) ≡ₚ
    concat (map own_ips (List.filter (delivered self next all) (listed self all))).
Proof.
  unfold Peers. set (s := fold_left (peer_step self next) all (MkPeerLoop [] ∅ [])).
  destruct (peer_loop self next all (MkPeerLoop [] ∅ [])) as [Hout Hmoves]. fold s in Hout, Hmoves.
  destruct (peer_idx self next all (MkPeerLoop [] ∅ [])) as [Hi1 Hi2]; [done|set_solver|].
  fold s in Hi1, Hi2. simpl in Hout, Hmoves.
  assert (Hid : map p_NodeID (pl_out s) = map n_ID (listed self all)) by (by rewrite Hout, map_map).
  destruct (moves_allowed (pl_idx s) (pl_moves s) (pl_out s)) as [Hall Hids].
  { intros i id Hi%Hi1. destruct (pl_out s !! i) eqn:E; [|done]. by apply lookup_lt_Some in E. }
  split; [by rewrite Hids|]. rewrite Hall, Hout, Hmoves. unfold delivered.
  rewrite <- split_moves, map_map. simpl. apply Permutation_app_head.
  replace (map snd (List.filter _ (map _ _))) with
    (map own_ips (List.filter (fun o => contains (map n_ID (listed self all)) (hop_of next self o))
       (List.filter (relayed next self) (listed self all)))); [done|].
  clear Hout Hmoves Hall Hids. induction (List.filter (relayed next self) (listed self all)) as [|o os IH]; simpl; [done|].
  replace (bool_decide (is_Some (pl_idx s !! hop_of next self o))) with
    (contains (map n_ID (listed self all)) (hop_of next self o)).
  - destruct (contains _ _); simpl; by rewrite IH.
  - unfold contains. apply bool_decide_ext. rewrite <- Hid. split; [apply Hi2|].
    intros [i Hi%Hi1]. destruct (pl_out s !! i) as [p|] eqn:E; [|done]. injection Hi as <-.
    apply list_elem_of_fmap. exists p. split; [done|]. by eapply list_elem_of_lookup_2.
Qed.

(** ** Relayed routes *)

Section RoutesLaws.
Context (up : string -> string -> bool) (pub : string -> bool).

(** The distances seen so far: [dst] is at 0, every other node one step past
    a neighbour, the queue in order and never more than one step long, and
    every node that left the queue has its neighbours seen. *)
Record bfs_inv (order : list string) (dst : string) (queue : list string) (dist : gmap string nat) := {
  bi_dst : forall y, dist !! y = Some 0%nat <-> y = dst;
  bi_pred : forall y d, dist !! y = Some (S d) -> y ∈ order /\ exists x, dist !! x = Some d /\ up x y = true;
  bi_seen : forall x, x ∈ queue -> is_Some (dist !! x);
  bi_done : forall x d, dist !! x = Some d -> x ∉ queue ->
    forall y, y ∈ order -> up x y = true -> exists dy, dist !! y = Some dy /\ (dy <= S d)%nat;
  bi_head : forall x q, queue = x :: q -> forall y dx dy,
    dist !! x = Some dx -> dist !! y = Some dy -> (dy <= S dx)%nat;
  bi_mono : StronglySorted Nat.le (map (fun x => default 0%nat (dist !! x)) queue) }.

(** What one pop adds: exactly the unseen neighbours, one step further. *)
Lemma visit_spec x dx ys queue dist :
  dist !! x = Some dx ->
  exists new dist', fold_left (visit_step up x) ys (queue, dist) = (queue ++ new, dist') /\
    (forall y, y ∈ new -> dist !! y = None /\ y ∈ ys /\ up x y = true) /\
    (forall y, dist' !! y = if decide (y ∈ new) then Some (S dx) else dist !! y) /\
    (forall y, y ∈ ys -> up x y = true -> is_Some (dist' !! y)) /\ NoDup new.
Proof.
  revert queue dist. induction ys as [|y ys IH]; intros queue dist Hx; cbn [fold_left].
  { exists [], dist. rewrite app_nil_r. split_and!; [done|set_solver|done|set_solver|constructor]. }
  unfold visit_step at 2.
  assert (Hskip : (forall z, z = y -> up x z = true -> is_Some (dist !! z)) ->
    exists new dist', fold_left (visit_step up x) ys (queue, dist) = (queue ++ new, dist') /\
      (forall z, z ∈ new -> dist !! z = None /\ z ∈ y :: ys /\ up x z = true) /\
      (forall z, dist' !! z = if decide (z ∈ new) then Some (S dx) else dist !! z) /\
      (forall z, z ∈ y :: ys -> up x z = true -> is_Some (dist' !! z)) /\ NoDup new).
  { intros Hy. destruct (IH queue dist Hx) as (new & dist' & Hf & Hnew & Hd & Hs & Hnd).
    exists new, dist'. split_and!; [done| |done| |done].
    - intros z Hz. destruct (Hnew z Hz) as (? & ? & ?). set_solver.
    - intros z [->|Hz]%elem_of_cons Hu; [|by apply Hs].
      rewrite Hd. case_decide; [by eexists|by apply Hy]. }
  destruct (dist !! y) as [dy|] eqn:Hy; [apply Hskip; intros z -> _; eauto|].
  destruct (negb (String.eqb y x) && up x y) eqn:Eu.
  - bsimpl. rewrite Hx. simpl.
    destruct (IH (queue ++ [y]) (<[y := S dx]> dist)) as (new & dist' & Hf & Hnew & Hd & Hs & Hnd).
    { by rewrite lookup_insert_ne. }
    exists (y :: new), dist'. rewrite Hf, <- app_assoc. split_and!; [done|..].
    + intros z [->|Hz]%elem_of_cons; [set_solver|].
      destruct (Hnew z Hz) as (Hn & ? & ?). apply lookup_insert_None in Hn as [? _]. set_solver.
    + intros z. rewrite Hd. destruct (decide (z = y)) as [->|Hne].
      * rewrite lookup_insert_eq, (decide_True (P := y ∈ y :: new)) by set_solver. by case_decide.
      * rewrite lookup_insert_ne by done. repeat case_decide; set_solver.
    + intros z [->|Hz]%elem_of_cons Hu; [|by apply Hs].
      rewrite Hd. case_decide; [by eexists|]. rewrite lookup_insert_eq. eauto.
    + constructor; [|done]. intros Hin. destruct (Hnew y Hin) as (Hn & _).
      by rewrite lookup_insert_eq in Hn.
  - apply Hskip. intros z -> Hu. rewrite Hu, andb_true_r in Eu. bsimpl. subst y. congruence.
Qed.

Lemma sorted_app (l1 l2 : list nat) k :
  StronglySorted Nat.le l1 -> Forall (fun x => (x <= k)%nat) l1 -> Forall (fun y => y = k) l2 ->
  StronglySorted Nat.le (l1 ++ l2).
Proof.
  intros Hs Hle Hk. induction Hs as [|x l Hs IH Hx]; simpl.
  - clear Hle. induction Hk as [|y l2 -> Hk IH]; constructor; [done|].
    eapply Forall_impl; [exact Hk|]. simpl. lia.
  - apply Forall_cons in Hle as [Hxk Hle]. constructor; [by apply IH|].
    apply Forall_app. split; [done|]. eapply Forall_impl; [exact Hk|]. simpl. lia.
Qed.

Lemma bfs_step order dst x queue dist queue' dist' :
  bfs_inv order dst (x :: queue) dist -> visit up order x queue dist = (queue', dist') ->
  bfs_inv order dst queue' dist'.
Proof.
  intros [Hdst Hpred Hseen Hdone Hhead Hmono] Hv.
  destruct (Hseen x ltac:(set_solver)) as [dx Hx].
  destruct (visit_spec x dx order queue dist Hx) as (new & d' & Hf & Hnew & Hd & Hs & Hnd).
  unfold visit in Hv. rewrite Hf in Hv. injection Hv as <- <-.
  assert (Hext : forall z v, dist !! z = Some v -> d' !! z = Some v).
  { intros z v Hz. rewrite Hd, decide_False; [done|]. intros [? _]%Hnew. congruence. }
  assert (Hbound : forall y dy, d' !! y = Some dy -> (dy <= S dx)%nat).
  { intros y dy. rewrite Hd. case_decide; [by intros [= <-]|]. by apply (Hhead x queue). }
  simpl in Hmono. rewrite Hx in Hmono. simpl in Hmono. inv Hmono as [|? ? Hsq Hxq].
  assert (Hq : forall y, y ∈ queue -> exists dy, dist !! y = Some dy /\ (dx <= dy)%nat).
  { intros y Hy. destruct (Hseen y ltac:(set_solver)) as [dy Hdy]. exists dy. split; [done|].
    assert (dy ∈ map (fun x => default 0%nat (dist !! x)) queue) as Hin.
    { apply list_elem_of_fmap. exists y. by rewrite Hdy. }
    by apply (proj1 (Forall_forall _ _) Hxq). }
  constructor.
  - intros y. rewrite Hd. case_decide as Hn; [|apply Hdst]. split; [done|]. intros ->.
    apply Hnew in Hn as [Hn _]. by rewrite (proj2 (Hdst dst)) in Hn.
  - intros y d. rewrite Hd. case_decide as Hn.
    + intros [= <-]. apply Hnew in Hn as (_ & ? & ?). split; [done|]. exists x. auto.
    + intros (? & x0 & ? & ?)%Hpred. split; [done|]. exists x0. auto.
  - intros y [Hy|Hy]%elem_of_app; rewrite Hd; case_decide; eauto; [|done]. apply Hseen. set_solver.
  - intros z d Hz Hzn y Hy Hu. rewrite Hd, decide_False in Hz by set_solver.
    destruct (decide (z = x)) as [->|Hne].
    + destruct (Hs y Hy Hu) as [dy Hdy]. exists dy. split; [done|].
      rewrite Hx in Hz. injection Hz as <-. by eapply Hbound.
    + destruct (Hdone z d Hz ltac:(set_solver) y Hy Hu) as (dy & ? & ?). eauto.
  - intros h t Ht y dh dy Hh Hy. apply Hbound in Hy. enough (dx <= dh)%nat by lia.
    assert (h ∈ queue ++ new) as [Hin|Hin]%elem_of_app by (rewrite Ht; set_solver).
    + destruct (Hq h Hin) as (v & Hv & ?). apply Hext in Hv. simplify_eq. lia.
    + rewrite Hd, decide_True in Hh by done. injection Hh as <-. lia.
  - rewrite map_app. apply (sorted_app _ _ (S dx)).
    + replace (map _ queue) with (map (fun x => default 0%nat (dist !! x)) queue); [done|].
      apply map_ext_in. intros y Hy%list_elem_of_In. destruct (Hq y Hy) as (v & Hv & _).
      by rewrite Hv, (Hext _ _ Hv).
    + apply Forall_map, Forall_forall. intros y Hy. destruct (Hq y Hy) as (v & Hv & _).
      rewrite (Hext _ _ Hv). simpl. apply Hext in Hv. by eapply Hbound.
    + apply Forall_map, Forall_forall. intros y Hy. by rewrite Hd, decide_True.
Qed.

Definition unseen (dist : gmap string nat) (order : list string) : list string :=
  List.filter (fun y => bool_decide (dist !! y = None)) order.

Lemma visit_unseen x dx order queue dist queue' dist' :
  dist !! x = Some dx -> visit up order x queue dist = (queue', dist') ->
  (length queue' + length (unseen dist' order) <= length queue + length (unseen dist order))%nat.
Proof.
  intros Hx Hv. destruct (visit_spec x dx order queue dist Hx) as (new & d' & Hf & Hnew & Hd & Hs & Hnd).
  unfold visit in Hv. rewrite Hf in Hv. injection Hv as <- <-. rewrite length_app.
  enough (length new + length (unseen d' order) <= length (unseen dist order))%nat by lia.
  assert (length new <= length (List.filter (fun y => bool_decide (y ∈ new)) (unseen dist order)))%nat as H1.
  { apply submseteq_length, NoDup_submseteq; [done|]. intros y Hy. destruct (Hnew y Hy) as (? & ? & _).
    unfold unseen. rewrite !elem_of_filterb. by rewrite !bool_decide_true. }
  assert (length (unseen d' order) =
    length (List.filter (fun y => negb (bool_decide (y ∈ new))) (unseen dist order))) as H2.
  { f_equal. unfold unseen. clear Hnew Hs H1 Hf. induction order as [|y ys IH]; simpl; [done|].
    rewrite Hd. case_decide as Hy; destruct (dist !! y) eqn:E; simpl; rewrite ?IH; try done;
      try (by rewrite (bool_decide_true (y ∈ new))); by rewrite (bool_decide_false (y ∈ new)). }
  rewrite H2. revert H1. clear. generalize (unseen dist order). intros us.
  enough (length us = length (List.filter (fun y => bool_decide (y ∈ new)) us) +
    length (List.filter (fun y => negb (bool_decide (y ∈ new))) us))%nat by lia.
  induction us as [|u us IH]; simpl; [done|]. case_bool_decide; simpl; lia.
Qed.

(** The loop ends within its fuel, with the invariant at an empty queue. *)
Lemma bfs_total fuel order dst queue dist :
  bfs_inv order dst queue dist -> (length queue + length (unseen dist order) <= fuel)%nat ->
  exists dist', bfs up fuel order queue dist = Some dist' /\ bfs_inv order dst [] dist'.
Proof.
  revert queue dist. induction fuel as [|fuel IH]; intros [|x queue] dist Hi Hf; simpl in *; try lia; eauto.
  destruct (visit up order x queue dist) as [queue' dist'] eqn:Hv.
  destruct (bi_seen _ _ _ _ Hi x ltac:(set_solver)) as [dx Hx].
  pose proof (visit_unseen _ _ _ _ _ _ _ Hx Hv). apply IH; [by eapply bfs_step|lia].
Qed.

Lemma unseen_length dist order : (length (unseen dist order) <= length order)%nat.
Proof. apply List.filter_length_le. Qed.

Lemma distances_total ids dst : exists dist,
  distances up pub ids dst = Some dist /\ bfs_inv (sort (node_leb pub) ids) dst [] dist.
Proof.
  apply bfs_total.
  - constructor; simpl.
    + intros y. rewrite lookup_singleton_Some. naive_solver.
    + intros y d. by rewrite lookup_singleton_Some; intros [_ ?].
    + intros x ->%list_elem_of_singleton. rewrite lookup_singleton_eq. eauto.
    + intros x d [<- _]%lookup_singleton_Some. set_solver.
    + intros x q [= -> <-] y dx dy [_ <-]%lookup_singleton_Some [_ <-]%lookup_singleton_Some. lia.
    + repeat constructor.
  - pose proof (unseen_length {[dst := 0%nat]} (sort (node_leb pub) ids)).
    rewrite length_sort in *. simpl. lia.
Qed.

(** A working tunnel between two nodes of the cluster. *)
Definition tunnel (ids : list string) (a b : string) : Prop := a ∈ ids /\ b ∈ ids /\ up a b = true.

Lemma dist_walk order ids dst dist y d :
  (forall x, x ∈ order <-> x ∈ ids) -> dst ∈ ids -> bfs_inv order dst [] dist ->
  dist !! y = Some d -> nsteps (tunnel ids) d dst y.
Proof.
  intros Ho Hdst Hi. revert y. induction d as [|d IH]; intros y Hy.
  - apply (bi_dst _ _ _ _ Hi) in Hy as ->. constructor.
  - destruct (bi_pred _ _ _ _ Hi _ _ Hy) as (Hin & x & Hx & Hu).
    eapply nsteps_r; [by apply IH|]. split_and!; [|by apply Ho|done].
    destruct d as [|d]; [by apply (bi_dst _ _ _ _ Hi) in Hx as ->|].
    apply Ho. by destruct (bi_pred _ _ _ _ Hi _ _ Hx).
Qed.

Lemma walk_dist order ids dst dist y k :
  (forall x, x ∈ order <-> x ∈ ids) -> bfs_inv order dst [] dist ->
  nsteps (tunnel ids) k dst y -> exists d, dist !! y = Some d /\ (d <= k)%nat.
Proof.
  intros Ho Hi. revert y. induction k as [|k IH]; intros y Hn.
  - inv Hn. exists 0%nat. split; [by apply (bi_dst _ _ _ _ Hi)|done].
  - apply nsteps_inv_r in Hn as (x & Hx & (_ & Hy & Hu)). destruct (IH _ Hx) as (d & Hd & Hle).
    destruct (bi_done _ _ _ _ Hi x d Hd ltac:(set_solver) y (proj2 (Ho y) Hy) Hu) as (dy & ? & ?).
    exists dy. split; [done|lia].
Qed.

Lemma walk_sym ids k a b : (forall a b, up a b = up b a) ->
  nsteps (tunnel ids) k a b -> nsteps (tunnel ids) k b a.
Proof.
  intros Hsym. induction 1 as [|k a b c (Ha & Hb & Hu) _ IH]; [constructor|].
  eapply nsteps_r; [exact IH|]. rewrite Hsym in Hu. done.
Qed.

Lemma fold_hops f dst (ids : list string) out k :
  fold_left (fun out src => match f src with Some n => <[(src, dst) := n]> out | None => out end)
    ids out !! k =
  if decide (k.2 = dst /\ k.1 ∈ ids) then match f k.1 with Some n => Some n | None => out !! k end
  else (out : gmap (string * string) string) !! k.
Proof.
  destruct k as [src d]. simpl. revert out. induction ids as [|i ids IH]; intros out; simpl.
  { case_decide as H; [|done]. destruct H as [_ H]. by apply not_elem_of_nil in H. }
  rewrite IH. destruct (decide (i = src)) as [->|Hne].
  - destruct (f src) as [n|] eqn:E.
    + destruct (decide (d = dst)) as [->|Hd].
      * rewrite lookup_insert_eq, (decide_True (P := dst = dst /\ src ∈ src :: ids)) by set_solver.
        by case_decide.
      * rewrite lookup_insert_ne by congruence. repeat case_decide; naive_solver.
    + repeat case_decide; done.
  - destruct (f i); [rewrite lookup_insert_ne by congruence|];
      repeat case_decide; destruct_and?; try done; exfalso; set_solver.
Qed.

(** The table's entry is the BFS's choice. *)
Lemma Routes_lookup ids src dst dist :
  src ∈ ids -> dst ∈ ids -> distances up pub ids dst = Some dist ->
  Routes up pub ids !! (src, dst) = next_hop up (sort (node_leb pub) ids) dist src.
Proof.
  intros Hsrc Hdst Hd. unfold Routes.
  assert (forall ds out, out !! (src, dst) = None ->
    fold_left (fun out dst => routes_to up pub ids (sort (node_leb pub) ids) dst out) ds out !! (src, dst) =
    if decide (dst ∈ ds) then next_hop up (sort (node_leb pub) ids) dist src else None) as Hgo.
  { assert (forall ds out, out !! (src, dst) = next_hop up (sort (node_leb pub) ids) dist src ->
      fold_left (fun out dst => routes_to up pub ids (sort (node_leb pub) ids) dst out) ds out !! (src, dst)
      = next_hop up (sort (node_leb pub) ids) dist src) as Hkeep.
    { induction ds as [|d ds IH]; intros out Ho; simpl; [done|]. apply IH. unfold routes_to.
      destruct (distances_total ids d) as (dist' & Hd' & _). rewrite Hd', fold_hops. simpl.
      case_decide as Hc; [|done]. destruct Hc as [-> _]. rewrite Hd in Hd'. injection Hd' as <-.
      by destruct (next_hop _ _ _ _). }
    induction ds as [|d ds IH]; intros out Ho; simpl.
    { done. }
    destruct (decide (d = dst)) as [->|Hne].
    - rewrite (decide_True (P := dst ∈ dst :: ds)) by set_solver. apply Hkeep. unfold routes_to.
      rewrite Hd, fold_hops, decide_True, Ho by done. by destruct (next_hop _ _ _ _).
    - rewrite IH; [repeat case_decide; set_solver|]. unfold routes_to.
      destruct (distances_total ids d) as (dist' & -> & _).
      rewrite fold_hops, decide_False by (simpl; naive_solver). done. }
  by rewrite Hgo, decide_True.
Qed.

Lemma node_leb_total a b : node_leb pub a b = true \/ node_leb pub b a = true.
Proof. unfold node_leb. destruct (pub a), (pub b); simpl; auto using String.leb_total. Qed.
Lemma node_leb_trans a b c : node_leb pub a b = true -> node_leb pub b c = true -> node_leb pub a c = true.
Proof. unfold node_leb. destruct (pub a), (pub b), (pub c); simpl; try done; apply leb_trans_str. Qed.

(** C37. The routing table is exactly hop-count shortest paths over the working
    tunnels: a pair gets an entry when it is neither up nor unconnected, and
    then the next hop is a working neighbour that is one hop closer to the
    destination on a shortest path (so following the tables never loops), the
    first such neighbour with public ones before the rest and then by id. *)
Theorem Routes_shortest ids src dst :
  (forall a b, up a b = up b a) -> src ∈ ids -> dst ∈ ids ->
  match Routes up pub ids !! (src, dst) with
  | Some n => exists d, (2 <= d)%nat /\ nsteps (tunnel ids) d src dst /\
      (forall k, nsteps (tunnel ids) k src dst -> (d <= k)%nat) /\
      tunnel ids src n /\ nsteps (tunnel ids) (d - 1) n dst /\
      (forall m, tunnel ids src m -> nsteps (tunnel ids) (d - 1) m dst -> node_leb pub n m = true)
  | None => src = dst \/ up src dst = true \/ (forall k, ~ nsteps (tunnel ids) k src dst)
  end.
Proof.
  intros Hsym Hsrc Hdst. destruct (distances_total ids dst) as (dist & Hd & Hi).
  rewrite (Routes_lookup ids src dst dist) by done.
  assert (Ho : forall x, x ∈ sort (node_leb pub) ids <-> x ∈ ids) by (intros; apply elem_of_sort).
  assert (Hto : forall x d, dist !! x = Some d -> nsteps (tunnel ids) d x dst).
  { intros x d Hx. apply walk_sym; [done|]. by eapply dist_walk. }
  assert (Hof : forall x k, nsteps (tunnel ids) k x dst -> exists d, dist !! x = Some d /\ (d <= k)%nat).
  { intros x k Hk. eapply walk_dist; [done..|]. by apply walk_sym. }
  unfold next_hop. destruct (dist !! src) as [d|] eqn:Es.
  2:{ right; right. intros k (d & ? & _)%Hof. congruence. }
  destruct (Nat.ltb_spec d 2) as [Hlt|Hge].
  { apply Hto in Es. destruct d as [|[|d]]; [inv Es; by left| |lia].
    apply nsteps_once_inv in Es as (_ & _ & ?). auto. }
  set (p := fun n => match dist !! n with Some dn => Nat.eqb dn (d - 1) && up src n | None => false end).
  assert (Hp : forall m, tunnel ids src m -> nsteps (tunnel ids) (d - 1) m dst -> p m = true).
  { intros m (_ & Hm & Hu) Hw. destruct (Hof _ _ Hw) as (dm & Hdm & Hle). unfold p. rewrite Hdm, Hu, andb_true_r.
    apply Nat.eqb_eq. enough (d <= S dm)%nat by lia.
    destruct (Hof src (S dm)) as (d' & ? & ?); [by eapply nsteps_l; [|by apply Hto]|]. simplify_eq. lia. }
  destruct (find_first p _) as [n|] eqn:En.
  - apply find_first_split in En as (pre & post & Hs & Hpre & Hpn).
    assert (n ∈ ids) as Hn by (apply Ho; rewrite Hs; set_solver).
    pose proof (sort_sorted (node_leb pub) node_leb_total node_leb_trans ids) as Hsorted. rewrite Hs in Hsorted.
    unfold p in Hpn. destruct (dist !! n) as [dn|] eqn:Edn; [|done]. bsimpl. subst dn.
    exists d. split; [done|]. split; [by apply Hto|]. split; [|split; [by split_and!|split; [by apply Hto|]]].
    + intros k (d' & ? & ?)%Hof. simplify_eq. lia.
    + intros m Hm Hw. pose proof (Hp m Hm Hw) as Hpm. destruct Hm as (_ & Hm & _).
      apply Ho in Hm. rewrite Hs in Hm. apply elem_of_app in Hm as [Hm|[->|Hm]%elem_of_cons].
      * eapply Forall_forall in Hpre; [|exact Hm]. simpl in Hpre. congruence.
      * unfold node_leb. rewrite Bool.eqb_reflx. apply leb_refl_str.
      * apply StronglySorted_app_1_r in Hsorted. inv Hsorted as [|? ? _ Hall].
        by apply (proj1 (Forall_forall _ _) Hall).
  - exfalso. apply find_first_None in En. destruct d as [|d]; [lia|].
    destruct (bi_pred _ _ _ _ Hi _ _ Es) as (_ & x & Hx & Hu).
    assert (x ∈ ids) as Hxi.
    { destruct d as [|d]; [lia|]. apply Ho. by destruct (bi_pred _ _ _ _ Hi _ _ Hx). }
    eapply Forall_forall in En; [|by apply Ho]. simpl in En. rewrite Hp in En; [done| |].
    + split_and!; [done..|]. by rewrite Hsym.
    + replace (S d - 1)%nat with d by lia. by apply Hto.
Qed.
End RoutesLaws.

Definition ex_up (a b : string) : bool :=
  let p := PairKey a b in contains [("a", "b"); ("b", "c"); ("a", "d"); ("c", "d")] p.
Lemma Routes_shortest_witness :
  Routes ex_up (String.eqb "d") ["a"; "b"; "c"; "d"] !! ("a", "c") = Some "d" /\
  exists d, (2 <= d)%nat /\ nsteps (tunnel ex_up ["a"; "b"; "c"; "d"]) d "a" "c".
Proof.
  pose proof (Routes_shortest ex_up (String.eqb "d") ["a"; "b"; "c"; "d"] "a" "c") as H.
  assert (Routes ex_up (String.eqb "d") ["a"; "b"; "c"; "d"] !! ("a", "c") = Some "d") as E by by vm_compute.
  rewrite E in H. split; [exact E|]. destruct H as (d & ? & ? & _); [|set_solver..|by exists d].
  intros a b. unfold ex_up, PairKey. f_equal.
  destruct (String.ltb b a) eqn:E1, (String.ltb a b) eqn:E2; try done.
  - pose proof (ltb_trans_str _ _ _ E1 E2) as Ht. by rewrite ltb_irrefl_str in Ht.
  - destruct (String.leb_total a b) as [Hl|Hl]; apply leb_ltb_or_eq in Hl as [?| ->]; congruence.
Defined.
