(* ===== verification/VipFilter.v ===== *)
(** * The tenant filter of a node ([service/internal/vip/filter.go])

    What a container of this node may reach through the host ([STACKR-FWD])
    and on it ([STACKR-IN]).  The filter is text for [iptables-restore]; here
    it is the words of each line, and the theorems say what the text, read as
    [iptables] reads it, lets through. *)
From S2P Require Import Prelude GoStrings Errs Netip Iptables Mesh.

Definition FwdChain : string := "STACKR-FWD".
Definition InChain : string := "STACKR-IN".
Definition XNChain : string := "STACKR-XN".
Definition FwdOwnChain : string := "STACKR-FWD-OWN".
Definition InOwnChain : string := "STACKR-IN-OWN".
Definition RawChain : string := "STACKR-RAW".
Definition NATChain : string := "STACKR-NAT".

Definition ExitPortLo : Z := 52000.
Definition ExitPortHi : Z := 52255.
Definition WorkerAPIPort : Z := 7443.

Record Entry := MkEntry { Replicas : list string; Lan : list string }.

Record Flow := MkFlow { f_Src : Prefix; f_VIP : Addr; f_Port : Z; f_Out : bool }.

(** The zero [Prefix] and [Addr] are the invalid ones. *)
Record Base := MkBase {
  Range : Prefix; Own : list Prefix; Cluster : Prefix; Resolvers : list string; ProxyIP : string;
  HostProxy : bool; Front : list string; PanelBind : string; PanelPort : Z; WGIface : string;
  WGController : Addr; WGPanelPort : Z; Flows : list Flow; early : gmap string (list string) }.

Definition meshOn (b : Base) : bool :=
  negb (String.eqb (WGIface b) "") && PrefixValid (Cluster b) && PrefixValid (Range b).

Definition private : list string :=
  ["10.0.0.0/8"; "172.16.0.0/12"; "192.168.0.0/16"; "169.254.0.0/16"; "100.64.0.0/10"].

Record lanSpec := MkLan { l_dst : Prefix; l_port : Z }.

Definition bad_port (line : string) : error := Errorf (Sprintf "vip: lan %q has a bad port" [AStr line]).
Definition bad_lan (line : string) : error :=
  Errorf (Sprintf "vip: lan %q is not an IPv4 address or CIDR" [AStr line]).

(** The prefix or address [s] is, if it is an IPv4 one. *)
Definition prefix_or_addr (s : string) : option (Prefix + Addr) :=
  match ParsePrefix s with
  | Some p => if Is4 (p_ip p) then Some (inl p) else
      match ParseAddr s with Some a => if Is4 a then Some (inr a) else None | None => None end
  | None => match ParseAddr s with Some a => if Is4 a then Some (inr a) else None | None => None end
  end.

Definition parseLan (line : string) : res lanSpec :=
  let s := trim_prefix (trim_space line) "lan:" in
  sp <-? match cut_last ":" s with
    | Some (h, port) =>
        match Atoi port with
        | Some p => if (p <? 1) || (65535 <? p) then Err (bad_port line) else Ok (h, p)
        | None => Err (bad_port line)
        end
    | None => Ok (s, 0)
    end ;;
  match prefix_or_addr sp.1 with
  | Some (inl p) => Ok (MkLan (Masked p) sp.2)
  | Some (inr a) => Ok (MkLan (PrefixFrom a 32) sp.2)
  | None => Err (bad_lan line)
  end.

Definition bad_target (s : string) : error :=
  Errorf (Sprintf "vip: %q is not an IPv4 address or CIDR" [AStr s]).
Definition target (s : string) : res string :=
  match prefix_or_addr s with
  | Some (inl p) => Ok (prefix_text (Masked p))
  | Some (inr a) => Ok (addr_text a +:+ "/32")
  | None => Err (bad_target s)
  end.

(** ** The checks *)

Definition not_addr (s : string) : error := Errorf (Sprintf "vip: %q is not an IPv4 address" [AStr s]).
Definition is_v4 (s : string) : bool := match ParseAddr s with Some a => Is4 a | None => false end.
Definition bad_panel_port (n : Z) : error := Errorf (Sprintf "vip: panel port %d out of range" [AInt n]).

(** [if err := f(x); err != nil { return err }] in a loop. *)
Fixpoint first_err {A} (f : A -> option error) (l : list A) : option error :=
  match l with
  | [] => None
  | x :: l => match f x with Some e => Some e | None => first_err f l end
  end.
Definition err_of {A} (r : res A) : option error := match r with Ok _ => None | Err e => Some e end.

(** The checks in order; the first error is the answer. *)
Definition check (b : Base) : option error :=
  if negb (PrefixValid (Range b)) then None
  else first_err (fun e => e) [
    if Is4 (p_ip (Range b)) then None
    else Some (Errorf (Sprintf "vip: range %s is not IPv4" [AStr (prefix_text (Range b))]));
    first_err (fun o => if Is4 (p_ip o) then None
      else Some (Errorf (Sprintf "vip: network %s is not IPv4" [AStr (prefix_text o)]))) (Own b);
    if PrefixValid (Cluster b) && negb (Is4 (p_ip (Cluster b))) then
      Some (Errorf (Sprintf "vip: cluster range %s is not IPv4" [AStr (prefix_text (Cluster b))])) else None;
    first_err (fun r => err_of (target r)) (Resolvers b);
    first_err (fun f => err_of (target f)) (Front b);
    if negb (String.eqb (WGIface b) "") &&
       ((15 <? slen (WGIface b)) || contains_any (String " " (String "009" (String nl "/"))) (WGIface b)) then
      Some (Errorf (Sprintf "vip: %q is not an interface name" [AStr (WGIface b)])) else None;
    if IsValid (WGController b) && negb (Is4 (WGController b)) then
      Some (Errorf (Sprintf "vip: %s is not an IPv4 address" [AStr (addr_text (WGController b))])) else None;
    if (WGPanelPort b <? 0) || (65535 <? WGPanelPort b) then Some (bad_panel_port (WGPanelPort b)) else None;
    first_err (fun a => if String.eqb a "" || is_v4 a then None else Some (not_addr a)) [ProxyIP b; PanelBind b];
    if (PanelPort b <? 0) || (65535 <? PanelPort b) then Some (bad_panel_port (PanelPort b)) else None].

(** ** The rules *)

Definition clusterNets (b : Base) : list string :=
  if PrefixValid (Cluster b) then [prefix_text (Masked (Cluster b)); prefix_text Transit] else [].

(** [b]'s keys get a prefix, so they clash with no address. *)
Definition merged (a b : gmap string Entry) : gmap string Entry := kmap (String.append "early-") b ∪ a.

(** The words of one grant for one replica; a line that does not parse gives
    the zero prefix in the source, and is refused before it gets here. *)
Definition lan_rule (rep line : string) : list (list string) :=
  let l := match parseLan line with Ok l => l | Err _ => MkLan (MkPrefix AInvalid (-1)) 0 end in
  let head := ["-s"; rep +:+ "/32"; "-d"; prefix_text (l_dst l)] in
  if l_port l =? 0 then [head ++ ["-j"; "RETURN"]]
  else map (fun proto => head ++ ["-p"; proto; "--dport"; itoa (l_port l); "-j"; "RETURN"]) ["tcp"; "udp"].

Definition entry_rules (e : Entry) : list (list string) :=
  concat (map (fun rep => concat (map (lan_rule rep) (Lan e))) (Replicas e)).

Definition lanRules (next : gmap string Entry) (early : gmap string (list string)) : list (list string) :=
  let pending := map_imap (fun ip lan => Some (MkEntry [ip] lan)) early in
  let all := merged next pending in
  concat (map (fun v => match all !! v with Some e => entry_rules e | None => [] end)
    (sort_strings (map fst (map_to_list all)))).

Definition own_nets (b : Base) : list string := map (fun o => prefix_text (Masked o)) (Own b).
Definition target_of (s : string) : string := match target s with Ok d => d | Err _ => "" end.

Definition dns_rules (b : Base) : list line :=
  concat (map (fun r => map (fun proto => ["-d"; target_of r; "-p"; proto; "--dport"; "53"; "-j"; "RETURN"])
    ["udp"; "tcp"]) (Resolvers b)).

Definition fwd_rules (b : Base) : list line :=
  (if meshOn b then
     concat (map (fun s => map (fun d =>
       ["-i"; WGIface b; "-o"; WGIface b; "-s"; s; "-d"; d; "-j"; "ACCEPT"]) (clusterNets b)) (clusterNets b))
   else []) ++
  [["-m"; "conntrack"; "!"; "--ctstate"; "NEW"; "-j"; "RETURN"]] ++
  (if meshOn b then [["-i"; WGIface b; "-j"; XNChain]] else []) ++
  map (fun o => ["-s"; o; "-j"; FwdOwnChain]) (own_nets b) ++
  [["-j"; "RETURN"]].

Definition fwd_own_rules (next : gmap string Entry) (b : Base) : list line :=
  map (fun o => ["-d"; o; "-j"; "RETURN"]) (own_nets b) ++
  (match clusterNets b with [] => [] | _ => [["-j"; XNChain]] end) ++
  map (fun c => ["-d"; c; "-j"; "DROP"]) (clusterNets b) ++
  dns_rules b ++
  (if String.eqb (ProxyIP b) "" then []
   else [["-d"; ProxyIP b +:+ "/32"; "-p"; "tcp"; "-m"; "multiport"; "--dports"; "80,443"; "-j"; "ACCEPT"]]) ++
  map (fun fr => ["-d"; target_of fr; "-p"; "tcp"; "-m"; "multiport"; "--dports"; "80,443"; "-j"; "RETURN"]) (Front b) ++
  lanRules next (early b) ++
  map (fun p => ["-d"; p; "-j"; "DROP"]) private.

Definition in_rules (b : Base) : list line :=
  [["-m"; "conntrack"; "!"; "--ctstate"; "NEW"; "-j"; "RETURN"]; ["-i"; "lo"; "-j"; "RETURN"]] ++
  (if String.eqb (WGIface b) "" then []
   else
     [["-i"; WGIface b; "-p"; "udp"; "--dport"; itoa ExitPortLo +:+ ":" +:+ itoa ExitPortHi; "-j"; "RETURN"];
      if IsValid (WGController b) then
        ["-i"; WGIface b; "-s"; addr_text (WGController b) +:+ "/32"; "-p"; "tcp"; "--dport"; itoa WorkerAPIPort;
         "-j"; "RETURN"]
      else ["-i"; WGIface b; "-p"; "tcp"; "--dport"; itoa WorkerAPIPort; "-j"; "RETURN"]] ++
     (if 0 <? WGPanelPort b then
        [["-i"; WGIface b; "-p"; "tcp"; "--dport"; itoa (WGPanelPort b); "-j"; "RETURN"]] else []) ++
     [["-i"; WGIface b; "-s"; prefix_text Transit; "-d"; prefix_text Transit; "-p"; "icmp"; "--icmp-type";
       "echo-request"; "-j"; "RETURN"];
      ["-i"; WGIface b; "-j"; "DROP"]]) ++
  map (fun o => ["-s"; o; "-j"; InOwnChain]) (own_nets b).

Definition in_own_rules (next : gmap string Entry) (b : Base) : list line :=
  dns_rules b ++
  map (fun c => ["-d"; c; "-j"; "DROP"]) (clusterNets b) ++
  lanRules next (early b) ++
  (if negb (String.eqb (PanelBind b) "") && (0 <? PanelPort b) then
     [["-d"; PanelBind b +:+ "/32"; "-p"; "tcp"; "--dport"; itoa (PanelPort b); "-j"; "DROP"]] else []) ++
  (if HostProxy b then [["-p"; "tcp"; "-m"; "multiport"; "--dports"; "80,443"; "-j"; "RETURN"]] else []) ++
  [["-j"; "DROP"]].

Definition xn_rule (b : Base) (fl : Flow) : line :=
  if f_Out fl then
    ["-s"; prefix_text (Masked (f_Src fl)); "-d"; addr_text (f_VIP fl) +:+ "/32"; "-p"; "tcp";
     "--dport"; itoa (f_Port fl); "-j"; "ACCEPT"]
  else
    ["-i"; WGIface b; "-s"; prefix_text (Masked (f_Src fl)); "-p"; "tcp"; "-m"; "conntrack"; "--ctstate"; "NEW";
     "--ctorigdst"; addr_text (f_VIP fl); "--ctorigdstport"; itoa (f_Port fl); "-j"; "ACCEPT"].

Definition filter_chains : list string := [FwdChain; InChain; XNChain; FwdOwnChain; InOwnChain].

Definition renderFilter (next : gmap string Entry) (b : Base) : list line :=
  [["*filter"]] ++ map declare filter_chains ++
  append FwdChain (fwd_rules b) ++ append FwdOwnChain (fwd_own_rules next b) ++
  append InChain (in_rules b) ++ append InOwnChain (in_own_rules next b) ++
  append XNChain (map (xn_rule b) (Flows b)) ++
  [["COMMIT"]].

(** ** What the rules say

    The policy over addresses instead of text.  A new connection is what the
    filter decides on; replies ride on conntrack. *)

Definition in_nets (ns : list Prefix) (a : Addr) : bool := existsb (fun o => Contains o a) ns.
Definition cluster_nets (b : Base) : list Prefix :=
  if PrefixValid (Cluster b) then [Cluster b; Transit] else [].

Definition is_new (p : Pkt) : bool := String.eqb "NEW" (k_state p).
Definition proto (x : string) (p : Pkt) : bool := String.eqb x (k_proto p).
Definition is_addr (s : string) (a : Addr) : bool := bool_decide (ParseAddr s = Some a).

Definition flow_accepts (b : Base) (p : Pkt) : bool :=
  existsb (fun fl =>
    Contains (f_Src fl) (k_src p) && proto "tcp" p &&
    (if f_Out fl then bool_decide (f_VIP fl = k_dst p) && (f_Port fl =? k_dport p)
     else iface_is (WGIface b) (k_in p) && is_new p &&
          bool_decide (f_VIP fl = k_odst p) && (f_Port fl =? k_odport p))) (Flows b).

(** A resolver or front address, as the prefix it stands for. *)
Definition target_net (s : string) : Prefix :=
  match prefix_or_addr s with
  | Some (inl p) => p
  | Some (inr a) => MkPrefix a 32
  | None => MkPrefix AInvalid (-1)
  end.

Definition web (p : Pkt) : bool := proto "tcp" p && ((80 =? k_dport p) || (443 =? k_dport p)).
Definition dns_ok (b : Base) (p : Pkt) : bool :=
  in_nets (map target_net (Resolvers b)) (k_dst p) && (proto "udp" p || proto "tcp" p) && (53 =? k_dport p).
Definition proxy_ok (b : Base) (p : Pkt) : bool := is_addr (ProxyIP b) (k_dst p) && web p.
Definition front_ok (b : Base) (p : Pkt) : bool := in_nets (map target_net (Front b)) (k_dst p) && web p.

(** One grant line opens one replica's traffic to its network, on its port
    when it names one. *)
Definition grants (rep line : string) (p : Pkt) : bool :=
  is_addr rep (k_src p) &&
  match parseLan line with
  | Ok l => Contains (l_dst l) (k_dst p) &&
            ((l_port l =? 0) || ((proto "tcp" p || proto "udp" p) && (l_port l =? k_dport p)))
  | Err _ => false
  end.
Definition entry_grants (p : Pkt) (e : Entry) : bool :=
  existsb (fun rep => existsb (fun l => grants rep l p) (Lan e)) (Replicas e).
(** By a routed VIP, or by a replica still at its health gate. *)
Definition lan_ok (next : gmap string Entry) (b : Base) (p : Pkt) : bool :=
  existsb (fun kv => entry_grants p kv.2) (map_to_list next) ||
  existsb (fun kv => existsb (fun l => grants kv.1 l p) kv.2) (map_to_list (early b)).

Definition private_nets : list Prefix :=
  [MkPrefix (ip4 10 0 0 0) 8; MkPrefix (ip4 172 16 0 0) 12; MkPrefix (ip4 192 168 0 0) 16;
   MkPrefix (ip4 169 254 0 0) 16; MkPrefix (ip4 100 64 0 0) 10].

(** From a container of this node to an address that is not one. *)
Definition own_policy (next : gmap string Entry) (b : Base) (p : Pkt) : option Verdict :=
  if in_nets (Own b) (k_dst p) then None
  else if PrefixValid (Cluster b) && flow_accepts b p then Some VAccept
  else if in_nets (cluster_nets b) (k_dst p) then Some VDrop
  else if dns_ok b p then None
  else if proxy_ok b p then Some VAccept
  else if front_ok b p || lan_ok next b p then None
  else if in_nets private_nets (k_dst p) then Some VDrop
  else None.

(** [None] goes on to Docker's own rules. *)
Definition fwd_policy (next : gmap string Entry) (b : Base) (p : Pkt) : option Verdict :=
  if meshOn b && iface_is (WGIface b) (k_in p) && iface_is (WGIface b) (k_out p) &&
     in_nets (cluster_nets b) (k_src p) && in_nets (cluster_nets b) (k_dst p) then Some VAccept
  else if negb (is_new p) then None
  else if meshOn b && iface_is (WGIface b) (k_in p) && flow_accepts b p then Some VAccept
  else if in_nets (Own b) (k_src p) then own_policy next b p
  else None.

(** What a peer on the mesh interface may reach on the host. *)
Definition wg_exit (p : Pkt) : bool := proto "udp" p && ((ExitPortLo <=? k_dport p) && (k_dport p <=? ExitPortHi)).
Definition wg_api (b : Base) (p : Pkt) : bool :=
  proto "tcp" p && (WorkerAPIPort =? k_dport p) &&
  (negb (IsValid (WGController b)) || bool_decide (WGController b = k_src p)).
Definition wg_panel (b : Base) (p : Pkt) : bool :=
  (0 <? WGPanelPort b) && (proto "tcp" p && (WGPanelPort b =? k_dport p)).
Definition wg_ping (p : Pkt) : bool :=
  Contains Transit (k_src p) && Contains Transit (k_dst p) && proto "icmp" p && String.eqb "echo-request" (k_icmp p).
Definition panel_locked (b : Base) (p : Pkt) : bool :=
  negb (String.eqb (PanelBind b) "") && (0 <? PanelPort b) &&
  (is_addr (PanelBind b) (k_dst p) && proto "tcp" p && (PanelPort b =? k_dport p)).

Definition in_policy (next : gmap string Entry) (b : Base) (p : Pkt) : option Verdict :=
  let wg := negb (String.eqb (WGIface b) "") && iface_is (WGIface b) (k_in p) in
  if negb (is_new p) || String.eqb "lo" (k_in p) then None
  else if wg then
    if wg_exit p || wg_api b p || wg_panel b p || wg_ping p then None else Some VDrop
  else if in_nets (Own b) (k_src p) then
    if dns_ok b p then None
    else if in_nets (cluster_nets b) (k_dst p) then Some VDrop
    else if lan_ok next b p then None
    else if panel_locked b p then Some VDrop
    else if HostProxy b && web p then None
    else Some VDrop
  else None.

(** What [Table] lets reach a script ([apply]), and what the types of
    [net/netip] give: networks are IPv4 prefixes, flows are IPv4. *)
Record checked (next : gmap string Entry) (b : Base) : Prop := {
  ck_base : check b = None;
  ck_range : PrefixValid (Range b) = true;
  ck_own : Forall prefix4 (Own b);
  ck_cluster : PrefixValid (Cluster b) = true -> prefix4 (Cluster b);
  ck_ctl : IsValid (WGController b) = true -> addr4 (WGController b);
  ck_flows : Forall (fun fl => prefix4 (f_Src fl) /\ addr4 (f_VIP fl) /\ 0 <= f_Port fl <= 65535) (Flows b);
  ck_vips : forall v e, next !! v = Some e -> is_v4 v = true;
  ck_reps : forall v e, next !! v = Some e -> Forall (fun r => is_v4 r = true) (Replicas e) /\
    Forall (fun l => is_ok (parseLan l) = true) (Lan e);
  ck_early : forall ip ls, early b !! ip = Some ls -> is_v4 ip = true /\ Forall (fun l => is_ok (parseLan l) = true) ls }.

(** ** Text against addresses *)

Lemma in_cidr_masked o a : prefix4 o -> in_cidr (prefix_text (Masked o)) a = Contains o a.
Proof.
  intros Ho. unfold in_cidr. rewrite ParsePrefix_text by (by apply Masked4). by apply Contains_Masked.
Qed.

Lemma Contains_host x a : Contains (MkPrefix (A4 x) 32) a = bool_decide (A4 x = a).
Proof.
  destruct a as [|y|y z].
  1, 3: by rewrite Contains_other, bool_decide_false.
  rewrite contains_mod by (done || (simpl; lia)). simpl. change (2 ^ (32 - 32)) with 1. rewrite !Z.div_1_r.
  apply eq_true_iff_eq. rewrite Z.eqb_eq, bool_decide_eq_true. split; congruence.
Qed.

Lemma ParsePrefix_host s a : ParseAddr s = Some a -> Is4 a = true -> ParsePrefix (s +:+ "/32") = Some (MkPrefix a 32).
Proof.
  intros Ha H4. unfold ParsePrefix. change "/32" with (String "/" "32"). rewrite cut_last_no by done.
  rewrite Ha. destruct a; done.
Qed.

Lemma in_cidr_host s a : is_v4 s = true -> in_cidr (s +:+ "/32") a = is_addr s a.
Proof.
  unfold is_v4, in_cidr, is_addr. destruct (ParseAddr s) as [x|] eqn:Ex; [|done]. intros H4.
  rewrite (ParsePrefix_host s x) by done. destruct x as [|x|]; try done. rewrite Contains_host.
  apply bool_decide_ext. split; congruence.
Qed.

Lemma is_v4_text a : addr4 a -> is_v4 (addr_text a) = true.
Proof. intros Ha. unfold is_v4. rewrite ParseAddr_text by done. by destruct Ha as (x & -> & _). Qed.

Lemma is_addr_text a b : addr4 a -> is_addr (addr_text a) b = bool_decide (a = b).
Proof. intros Ha. unfold is_addr. rewrite ParseAddr_text by done. apply bool_decide_ext. split; congruence. Qed.

Lemma prefix_or_addr_ok s : match prefix_or_addr s with
  | Some (inl p) => prefix4 p /\ Is4 (p_ip p) = true
  | Some (inr a) => addr4 a /\ ParseAddr s = Some a
  | None => True
  end.
Proof.
  unfold prefix_or_addr. destruct (ParsePrefix s) as [p|] eqn:Ep; [destruct (Is4 (p_ip p)) eqn:E4|].
  - split; [|done]. by eapply ParsePrefix_ok.
  - destruct (ParseAddr s) as [a|] eqn:Ea; [|done]. destruct (Is4 a) eqn:E; [|done].
    split; [|done]. by eapply ParseAddr_ok.
  - destruct (ParseAddr s) as [a|] eqn:Ea; [|done]. destruct (Is4 a) eqn:E; [|done].
    split; [|done]. by eapply ParseAddr_ok.
Qed.

Lemma in_cidr_target s a : is_ok (target s) = true -> in_cidr (target_of s) a = Contains (target_net s) a.
Proof.
  unfold target_of, target, target_net. pose proof (prefix_or_addr_ok s) as Hok.
  destruct (prefix_or_addr s) as [[p|x]|]; [| |done]; intros _.
  - by apply in_cidr_masked, Hok.
  - destruct Hok as [Hx Hp]. rewrite in_cidr_host by (by apply is_v4_text). rewrite is_addr_text by done.
    destruct Hx as (y & -> & _). by rewrite Contains_host.
Qed.

Lemma Masked_host a : addr4 a -> Masked (PrefixFrom a 32) = PrefixFrom a 32 /\ PrefixFrom a 32 = MkPrefix a 32.
Proof.
  intros (x & -> & Hx). split; [|done]. unfold Masked. simpl. by rewrite Z.shiftr_0_r, Z.shiftl_0_r.
Qed.

Lemma Masked_twice p : prefix4 p -> Masked (Masked p) = Masked p.
Proof.
  intros [(x & Ex & Hx) Hb]. destruct p as [ip n]. simpl in *. subst ip. unfold Masked, PrefixValid. simpl.
  rewrite !(proj2 (Z.leb_le 0 n)) by lia. simpl. rewrite (proj2 (Z.leb_le 0 n)) by lia. do 2 f_equal.
  rewrite Z.shiftr_shiftl_l by lia. by replace (32 - n - (32 - n)) with 0 by lia.
Qed.

Lemma parseLan_net line l : parseLan line = Ok l ->
  prefix4 (l_dst l) /\ Masked (l_dst l) = l_dst l /\ 0 <= l_port l <= 65535.
Proof.
  unfold parseLan. set (s := trim_prefix _ _).
  destruct (match cut_last ":" s with Some _ => _ | None => _ end) as [[h q]|] eqn:Ecut; [|done].
  assert (0 <= q <= 65535) as Hq.
  { destruct (cut_last ":" s) as [[h' port]|]; [|injection Ecut as <- <-; lia].
    destruct (Atoi port) as [n|]; [|done]. destruct (Z.ltb_spec n 1); [done|]. destruct (Z.ltb_spec 65535 n); [done|].
    injection Ecut as <- <-. lia. }
  simpl. pose proof (prefix_or_addr_ok h) as Hok. destruct (prefix_or_addr h) as [[p|a]|]; [| |done].
  - intros <-%Ok_inj. simpl. destruct Hok. split_and!; [by apply Masked4|by apply Masked_twice|lia..].
  - intros <-%Ok_inj. simpl. destruct Hok as [Ha _]. destruct (Masked_host a Ha) as [Hm Hp].
    split_and!; [|done|lia..]. rewrite Hp. split; [done|simpl; lia].
Qed.

Lemma is_port_itoa n m : 0 <= n < 2 ^ 64 -> is_port (itoa n) m = (n =? m).
Proof. intros Hn. unfold is_port. by rewrite Atoi_itoa. Qed.

Lemma port_in_itoa n m : 0 <= n < 2 ^ 64 -> port_in (itoa n) m = (n =? m).
Proof.
  intros Hn. unfold port_in. pose proof (cut_spec ":" (itoa n)) as Hc.
  destruct (cut ":" (itoa n)) as [[x y]|]; [|by apply is_port_itoa]. exfalso. destruct Hc as [E _].
  pose proof (itoa_digits n ltac:(lia)) as Hd. rewrite E, all_bytes_app in Hd. apply andb_true_iff in Hd as [_ Hd].
  simpl in Hd. done.
Qed.

(** ** Each run of rules *)

Definition rules (next : gmap string Entry) (b : Base) (c : string) : list line := rules_of c (renderFilter next b).

Lemma rules_eq next b :
  rules next b FwdChain = fwd_rules b /\ rules next b FwdOwnChain = fwd_own_rules next b /\
  rules next b InChain = in_rules b /\ rules next b InOwnChain = in_own_rules next b /\
  rules next b XNChain = map (xn_rule b) (Flows b).
Proof.
  unfold rules, renderFilter, append. rewrite !rules_of_app.
  split_and!; rewrite rules_of_self, !rules_of_other by done; simpl; by rewrite ?app_nil_r.
Qed.

Lemma existsb_map {A B} (f : A -> B) m l : existsb m (map f l) = existsb (fun x => m (f x)) l.
Proof. induction l as [|x l IH]; simpl; [done|]. by rewrite IH. Qed.

Lemma existsb_ext_in {A} (f g : A -> bool) l : (forall x, x ∈ l -> f x = g x) -> existsb f l = existsb g l.
Proof.
  induction l as [|x l IH]; intros Hf; simpl; [done|]. rewrite Hf by set_solver.
  by rewrite IH by (intros y Hy; apply Hf; set_solver).
Qed.

Lemma existsb_and_l {A} (a : bool) (f : A -> bool) l : existsb (fun x => a && f x) l = a && existsb f l.
Proof. induction l as [|x l IH]; simpl; [by rewrite andb_false_r|]. rewrite IH. by destruct a. Qed.

Lemma existsb_and_r {A} (a : bool) (f : A -> bool) l : existsb (fun x => f x && a) l = existsb f l && a.
Proof. induction l as [|x l IH]; simpl; [done|]. rewrite IH. by destruct (f x), (existsb f l), a. Qed.

Lemma first_err_None {A} (f : A -> option error) l : first_err f l = None -> forall x, x ∈ l -> f x = None.
Proof.
  induction l as [|y l IH]; simpl; [set_solver|]. destruct (f y) eqn:E; [done|].
  intros Hl x [->|Hx]%elem_of_cons; auto.
Qed.

Lemma err_of_None {A} (r : res A) : err_of r = None -> is_ok r = true.
Proof. by destruct r. Qed.

Lemma guard_None (c : bool) (e : error) : (if c then Some e else None) = None -> c = false.
Proof. by destruct c. Qed.

(** A name an [iptables] rule takes as one word. *)
Definition iface_ok (s : string) : Prop := contains_any (String " " (String "009" (String nl "/"))) s = false.

(** What the checks leave. *)
Lemma check_parts next b : checked next b ->
  (forall r, r ∈ Resolvers b -> is_ok (target r) = true) /\ (forall r, r ∈ Front b -> is_ok (target r) = true) /\
  (ProxyIP b <> "" -> is_v4 (ProxyIP b) = true) /\ (PanelBind b <> "" -> is_v4 (PanelBind b) = true) /\
  0 <= WGPanelPort b <= 65535 /\ 0 <= PanelPort b <= 65535 /\ (WGIface b <> "" -> iface_ok (WGIface b)).
Proof.
  intros Hck. pose proof (ck_base _ _ Hck) as Hc. unfold check in Hc. rewrite (ck_range _ _ Hck) in Hc.
  simpl negb in Hc. cbv iota in Hc. pose proof (first_err_None _ _ Hc) as Hall. clear Hc.
  rewrite <-(Forall_forall (fun e => e = None)) in Hall.
  apply Forall_cons in Hall as [_ Hall]. apply Forall_cons in Hall as [_ Hall]. apply Forall_cons in Hall as [_ Hall].
  apply Forall_cons in Hall as [Hr Hall]. apply Forall_cons in Hall as [Hf Hall]. apply Forall_cons in Hall as [Hw Hall].
  apply Forall_cons in Hall as [_ Hall]. apply Forall_cons in Hall as [Hp Hall]. apply Forall_cons in Hall as [Ha Hall].
  apply Forall_cons in Hall as [Hq _].
  apply guard_None in Hw, Hp, Hq. pose proof (first_err_None _ _ Ha) as Haddr.
  assert (forall a, a ∈ [ProxyIP b; PanelBind b] -> a <> "" -> is_v4 a = true) as Hv.
  { intros a Hin Hne. specialize (Haddr a Hin). simpl in Haddr. rewrite (proj2 (String.eqb_neq _ _) Hne) in Haddr.
    by destruct (is_v4 a). }
  split_and!; try lia.
  - intros r Hin. by apply err_of_None, (first_err_None _ _ Hr).
  - intros r Hin. by apply err_of_None, (first_err_None _ _ Hf).
  - apply Hv. set_solver.
  - apply Hv. set_solver.
  - intros Hne. rewrite (proj2 (String.eqb_neq _ _) Hne) in Hw. by apply orb_false_iff in Hw as [_ Hw].
Qed.

Lemma in_nets_map ns a : Forall prefix4 ns ->
  existsb (fun o => in_cidr o a) (map (fun o => prefix_text (Masked o)) ns) = in_nets ns a.
Proof.
  intros HF. rewrite existsb_map. apply existsb_ext_in. intros o Ho. apply in_cidr_masked.
  by apply (proj1 (Forall_forall _ _) HF).
Qed.

Lemma Transit4 : prefix4 Transit.
Proof. split; [by eexists|]. simpl. lia. Qed.

Lemma in_cluster next b a : checked next b ->
  existsb (fun c => in_cidr c a) (clusterNets b) = in_nets (cluster_nets b) a.
Proof.
  intros Hck. unfold clusterNets, cluster_nets. destruct (PrefixValid (Cluster b)) eqn:E; [|done].
  change (prefix_text Transit) with (prefix_text (Masked Transit)).
  apply (in_nets_map [Cluster b; Transit]).
  apply Forall_cons; split; [by apply (ck_cluster _ _ Hck)|]. apply Forall_singleton, Transit4.
Qed.

Lemma in_private a : existsb (fun c => in_cidr c a) private = in_nets private_nets a.
Proof. done. Qed.

(** ** Each run of rules, walked *)

Section Runs.
Context (next : gmap string Entry) (b : Base) (p : Pkt) (Hck : checked next b).
Context (call : string -> option Verdict).

Lemma port53 : port_in "53" (k_dport p) = (53 =? k_dport p).
Proof. done. Qed.

Lemma web_ports : existsb (fun y => is_port y (k_dport p)) (split "," "80,443") = (80 =? k_dport p) || (443 =? k_dport p).
Proof. change (split "," "80,443") with ["80"; "443"]. simpl. by rewrite orb_false_r. Qed.

Lemma new_state : contains (split "," "NEW") (k_state p) = is_new p.
Proof.
  change (split "," "NEW") with ["NEW"]. unfold contains, is_new. apply eq_true_iff_eq.
  rewrite bool_decide_eq_true, list_elem_of_singleton, String.eqb_eq. naive_solver.
Qed.

Ltac step := cbn [app]; autorewrite with ipt.

Lemma walk_nets (k : string) (t : string) (get : Pkt -> Addr) ns :
  (forall x r, rule_target (k :: x :: r) p = if in_cidr x (get p) then rule_target r p else None) ->
  walk call (map (fun o => [k; o; "-j"; t]) ns) p =
  if existsb (fun o => in_cidr o (get p)) ns then
    walk call [["-j"; t]] p
  else Falls.
Proof.
  intros Hk. rewrite (walk_map call _ (fun o => in_cidr o (get p)) t); [done|].
  intros o _. by rewrite Hk, rt_j.
Qed.

Lemma own_src a : existsb (fun o => in_cidr o a) (own_nets b) = in_nets (Own b) a.
Proof. apply in_nets_map, (ck_own _ _ Hck). Qed.

Lemma walk_xn : walk call (map (xn_rule b) (Flows b)) p = if flow_accepts b p then Final VAccept else Falls.
Proof.
  rewrite (walk_map call _ (fun fl =>
    Contains (f_Src fl) (k_src p) && proto "tcp" p &&
    (if f_Out fl then bool_decide (f_VIP fl = k_dst p) && (f_Port fl =? k_dport p)
     else iface_is (WGIface b) (k_in p) && is_new p &&
          bool_decide (f_VIP fl = k_odst p) && (f_Port fl =? k_odport p))) "ACCEPT"); [done|].
  intros fl Hfl. pose proof (proj1 (Forall_forall _ _) (ck_flows _ _ Hck) fl Hfl) as (Hs & Hv & Hp).
  unfold xn_rule. destruct (f_Out fl); step.
  - rewrite in_cidr_masked, in_cidr_host, is_addr_text, port_in_itoa by (done || lia || by apply is_v4_text).
    unfold proto. repeat case_match; bsimpl; try done; by simplify_eq.
  - rewrite in_cidr_masked, port_in_itoa by (done || lia).
    rewrite new_state. fold (is_addr (addr_text (f_VIP fl)) (k_odst p)). rewrite is_addr_text by done.
    unfold proto. repeat case_match; bsimpl; try done; by simplify_eq.
Qed.

(** *** Grants *)

Lemma walk_lan_rule rep line : is_v4 rep = true -> is_ok (parseLan line) = true ->
  walk call (lan_rule rep line) p = if grants rep line p then Returns else Falls.
Proof.
  intros Hr Hl. unfold lan_rule, grants. destruct (parseLan line) as [l|] eqn:El; [|done].
  destruct (parseLan_net line l El) as (H4 & Hm & Hp).
  pose proof (in_cidr_masked (l_dst l) (k_dst p) H4) as Hd. rewrite Hm in Hd.
  destruct (Z.eqb_spec (l_port l) 0) as [E|E].
  - cbn [walk]. step. rewrite in_cidr_host, Hd by done. destruct (is_addr rep (k_src p)), (Contains _ _); done.
  - cbn [walk map]. step. rewrite in_cidr_host, Hd, port_in_itoa by (done || lia). unfold proto.
    by destruct (is_addr rep (k_src p)), (Contains _ _), (_ =? _), (String.eqb "tcp" (k_proto p)),
      (String.eqb "udp" (k_proto p)).
Qed.

Lemma walk_entry e : Forall (fun r => is_v4 r = true) (Replicas e) -> Forall (fun l => is_ok (parseLan l) = true) (Lan e) ->
  walk call (entry_rules e) p = if entry_grants p e then Returns else Falls.
Proof.
  intros Hr Hl. apply walk_flat. intros rep Hrep. apply walk_flat. intros l Hin.
  apply walk_lan_rule; [by apply (proj1 (Forall_forall _ _) Hr)|by apply (proj1 (Forall_forall _ _) Hl)].
Qed.

Lemma is_v4_dotted s : is_v4 s = true -> all_bytes dotted s = true.
Proof. unfold is_v4. destruct (ParseAddr s) as [a|] eqn:E; [|done]. intros H4. by apply (ParseAddr_ok s a). Qed.

Lemma early_not_v4 s : is_v4 ("early-" +:+ s) = false.
Proof. apply not_true_iff_false. intros H%is_v4_dotted. done. Qed.

Lemma merged_lookup early v e : (forall v e, next !! v = Some e -> is_v4 v = true) ->
  merged next early !! v = Some e <-> next !! v = Some e \/ exists ip, v = "early-" +:+ ip /\ early !! ip = Some e.
Proof.
  intros Hv. unfold merged. rewrite lookup_union_Some_raw. split.
  - intros [H|[_ H]]; [right|by left]. apply lookup_kmap_Some in H as (ip & -> & H); [by exists ip|apply _].
  - intros [H|(ip & -> & H)]; [right|left; by rewrite lookup_kmap by apply _].
    split; [|done]. apply lookup_kmap_None; [apply _|]. intros ip ->. apply Hv in H. by rewrite early_not_v4 in H.
Qed.

(** Every entry the grants are written from is a checked one. *)
Lemma merged_entries v e : merged next (map_imap (fun ip lan => Some (MkEntry [ip] lan)) (early b)) !! v = Some e ->
  Forall (fun r => is_v4 r = true) (Replicas e) /\ Forall (fun l => is_ok (parseLan l) = true) (Lan e).
Proof.
  intros [H|(ip & _ & H)]%merged_lookup; [by apply (ck_reps _ _ Hck) in H| |apply (ck_vips _ _ Hck)].
  rewrite map_lookup_imap in H. apply bind_Some in H as (ls & H & [= <-]).
  apply (ck_early _ _ Hck) in H as [H1 H2]. split; [by apply Forall_singleton|done].
Qed.

Lemma walk_lan : walk call (lanRules next (early b)) p = if lan_ok next b p then Returns else Falls.
Proof.
  unfold lanRules. set (pending := map_imap _ (early b)). set (all := merged next pending).
  rewrite (walk_flat call _ (fun v => match all !! v with Some e => entry_grants p e | None => false end) Returns).
  2: { intros v _. destruct (all !! v) as [e|] eqn:Ev; [|done]. destruct (merged_entries v e Ev). by apply walk_entry. }
  replace (existsb _ _) with (lan_ok next b p); [done|]. apply eq_true_iff_eq.
  unfold lan_ok. rewrite orb_true_iff, !existsb_exists. split.
  - intros [([v e] & Hin & Hg)|([ip ls] & Hin & Hg)]; apply list_elem_of_In, elem_of_map_to_list in Hin; simpl in Hg.
    + assert (all !! v = Some e) as Ha by (apply merged_lookup; [apply (ck_vips _ _ Hck)|by left]).
      exists v. rewrite Ha. split; [|done]. apply list_elem_of_In, elem_of_sort, list_elem_of_fmap.
      exists (v, e). by rewrite elem_of_map_to_list.
    + assert (all !! ("early-" +:+ ip) = Some (MkEntry [ip] ls)) as Ha.
      { apply merged_lookup; [apply (ck_vips _ _ Hck)|right; exists ip; split; [done|]].
        unfold pending. by rewrite map_lookup_imap, Hin. }
      exists ("early-" +:+ ip). rewrite Ha. unfold entry_grants. simpl. rewrite Hg. split; [|done].
      apply list_elem_of_In, elem_of_sort, list_elem_of_fmap. eexists (_, _). by rewrite elem_of_map_to_list.
  - intros (v & _ & Hg). destruct (all !! v) as [e|] eqn:Ev; [|done].
    apply merged_lookup in Ev as [Ev|(ip & -> & Ev)]; [left; exists (v, e)|right|apply (ck_vips _ _ Hck)].
    + by rewrite <-list_elem_of_In, elem_of_map_to_list.
    + unfold pending in Ev. rewrite map_lookup_imap in Ev. apply bind_Some in Ev as (ls & Ev & [= <-]).
      exists (ip, ls). rewrite <-list_elem_of_In, elem_of_map_to_list. split; [done|].
      unfold entry_grants in Hg. simpl in Hg. by rewrite orb_false_r in Hg.
Qed.

(** *** The other runs *)

Definition verdict (o : Outcome) : option Verdict := match o with Final v => Some v | _ => None end.

Lemma walk_dns : walk call (dns_rules b) p = if dns_ok b p then Returns else Falls.
Proof.
  destruct (check_parts _ _ Hck) as (Hr & _). unfold dns_rules, dns_ok, in_nets.
  rewrite (walk_flat call _ (fun r => Contains (target_net r) (k_dst p) && (proto "udp" p || proto "tcp" p) &&
    (53 =? k_dport p)) Returns).
  - by rewrite !existsb_and_r, existsb_map.
  - intros r Hin. cbn [map walk]. step. rewrite in_cidr_target, port53 by auto. unfold proto.
    by destruct (Contains _ _), (_ =? _), (String.eqb "tcp" (k_proto p)), (String.eqb "udp" (k_proto p)).
Qed.

Lemma walk_front : walk call (map (fun fr => ["-d"; target_of fr; "-p"; "tcp"; "-m"; "multiport"; "--dports"; "80,443";
  "-j"; "RETURN"]) (Front b)) p = if front_ok b p then Returns else Falls.
Proof.
  destruct (check_parts _ _ Hck) as (_ & Hf & _).
  rewrite (walk_map call _ (fun fr => Contains (target_net fr) (k_dst p) && web p) "RETURN").
  - unfold front_ok, in_nets. by rewrite existsb_and_r, existsb_map.
  - intros fr Hin. step. rewrite in_cidr_target by auto. rewrite web_ports. unfold web, proto.
    by destruct (Contains _ _), (String.eqb "tcp" (k_proto p)), (_ || _).
Qed.

Lemma walk_proxy : walk call (if String.eqb (ProxyIP b) "" then []
   else [["-d"; ProxyIP b +:+ "/32"; "-p"; "tcp"; "-m"; "multiport"; "--dports"; "80,443"; "-j"; "ACCEPT"]]) p =
  if proxy_ok b p then Final VAccept else Falls.
Proof.
  destruct (check_parts _ _ Hck) as (_ & _ & Hp & _). unfold proxy_ok.
  destruct (String.eqb_spec (ProxyIP b) "") as [->|Hne]; [done|]. cbn [walk]. step.
  rewrite in_cidr_host by auto. rewrite web_ports. unfold web, proto.
  by destruct (is_addr _ _), (String.eqb "tcp" (k_proto p)), (_ || _).
Qed.

Lemma walk_nets_d t ns : walk call (map (fun o => ["-d"; o; "-j"; t]) ns) p =
  if existsb (fun o => in_cidr o (k_dst p)) ns then walk call [["-j"; t]] p else Falls.
Proof. apply (walk_nets "-d" t k_dst). intros. apply rt_d. Qed.

Lemma walk_nets_s t ns : walk call (map (fun o => ["-s"; o; "-j"; t]) ns) p =
  if existsb (fun o => in_cidr o (k_src p)) ns then walk call [["-j"; t]] p else Falls.
Proof. apply (walk_nets "-s" t k_src). intros. apply rt_s. Qed.

Lemma walk_xn_jump (Hxn : call XNChain = if flow_accepts b p then Some VAccept else None) :
  walk call [["-j"; XNChain]] p = if flow_accepts b p then Final VAccept else Falls.
Proof. cbn [walk]. rewrite rt_j, Hxn. by destruct (flow_accepts b p). Qed.

Lemma walk_fwd_own : call XNChain = (if flow_accepts b p then Some VAccept else None) ->
  verdict (walk call (fwd_own_rules next b) p) = own_policy next b p.
Proof.
  intros Hxn. unfold fwd_own_rules, own_policy. rewrite !walk_app, !walk_nets_d, own_src, (in_cluster next), in_private by done.
  rewrite walk_dns, walk_proxy, walk_front, walk_lan.
  destruct (in_nets (Own b) (k_dst p)); [done|].
  replace (walk call _ p) with (if PrefixValid (Cluster b) && flow_accepts b p then Final VAccept else Falls).
  2: { unfold clusterNets. destruct (PrefixValid (Cluster b)); [|done]. by rewrite walk_xn_jump. }
  destruct (PrefixValid (Cluster b) && flow_accepts b p); [done|].
  destruct (in_nets (cluster_nets b) (k_dst p)); [done|]. destruct (dns_ok b p); [done|].
  destruct (proxy_ok b p); [done|]. destruct (front_ok b p); [done|]. destruct (lan_ok next b p); [done|].
  by destruct (in_nets private_nets (k_dst p)).
Qed.

Lemma walk_hop : walk call (if meshOn b then
     concat (map (fun s => map (fun d =>
       ["-i"; WGIface b; "-o"; WGIface b; "-s"; s; "-d"; d; "-j"; "ACCEPT"]) (clusterNets b)) (clusterNets b))
   else []) p =
  if meshOn b && iface_is (WGIface b) (k_in p) && iface_is (WGIface b) (k_out p) &&
     in_nets (cluster_nets b) (k_src p) && in_nets (cluster_nets b) (k_dst p) then Final VAccept else Falls.
Proof.
  destruct (meshOn b); [|done]. rewrite <-!(in_cluster next) by done.
  rewrite (walk_flat call _ (fun s => iface_is (WGIface b) (k_in p) && iface_is (WGIface b) (k_out p) &&
    in_cidr s (k_src p) && existsb (fun c => in_cidr c (k_dst p)) (clusterNets b)) (Final VAccept)).
  - by rewrite existsb_and_r, existsb_and_l.
  - intros s _. rewrite (walk_map call _ (fun d => iface_is (WGIface b) (k_in p) && iface_is (WGIface b) (k_out p) &&
      in_cidr s (k_src p) && in_cidr d (k_dst p)) "ACCEPT").
    + by rewrite existsb_and_l.
    + intros d _. step. by destruct (iface_is _ (k_in p)), (iface_is _ (k_out p)), (in_cidr s _), (in_cidr d _).
Qed.

(** One rule, when [c] writes it. *)
Lemma walk_drop (c : bool) r (m : bool) : (c = true -> rule_target r p = if m then Some "DROP" else None) ->
  walk call (if c then [r] else []) p = if c && m then Final VDrop else Falls.
Proof. destruct c; [|done]. intros E. cbn [walk]. rewrite E by done. by destruct m. Qed.

Lemma walk_in_own : verdict (walk call (in_own_rules next b) p) =
  if dns_ok b p then None
  else if in_nets (cluster_nets b) (k_dst p) then Some VDrop
  else if lan_ok next b p then None
  else if panel_locked b p then Some VDrop
  else if HostProxy b && web p then None
  else Some VDrop.
Proof.
  destruct (check_parts _ _ Hck) as (_ & _ & _ & Hb & _ & Hpp & _). unfold in_own_rules.
  rewrite !walk_app, walk_nets_d, (in_cluster next), walk_dns, walk_lan by done.
  destruct (dns_ok b p); [done|]. destruct (in_nets (cluster_nets b) (k_dst p)); [done|]. destruct (lan_ok next b p); [done|].
  rewrite (walk_drop (negb (String.eqb (PanelBind b) "") && (0 <? PanelPort b)) _ (is_addr (PanelBind b) (k_dst p) &&
    proto "tcp" p && (PanelPort b =? k_dport p))).
  2: { intros [Hne _]%andb_true_iff. apply negb_true_iff, String.eqb_neq in Hne. autorewrite with ipt.
    rewrite in_cidr_host, port_in_itoa by (auto || lia). unfold proto.
    by destruct (is_addr _ _), (String.eqb "tcp" (k_proto p)), (PanelPort b =? _). }
  fold (panel_locked b p). destruct (panel_locked b p); [done|]. unfold web, proto.
  destruct (HostProxy b); [|done]. cbn [walk]. autorewrite with ipt. rewrite web_ports.
  by destruct (String.eqb "tcp" (k_proto p)), (_ || _).
Qed.

(** From the mesh interface onto the host. *)
Definition wg_rules : list line :=
  [["-i"; WGIface b; "-p"; "udp"; "--dport"; itoa ExitPortLo +:+ ":" +:+ itoa ExitPortHi; "-j"; "RETURN"];
   if IsValid (WGController b) then
     ["-i"; WGIface b; "-s"; addr_text (WGController b) +:+ "/32"; "-p"; "tcp"; "--dport"; itoa WorkerAPIPort;
      "-j"; "RETURN"]
   else ["-i"; WGIface b; "-p"; "tcp"; "--dport"; itoa WorkerAPIPort; "-j"; "RETURN"]] ++
  (if 0 <? WGPanelPort b then
     [["-i"; WGIface b; "-p"; "tcp"; "--dport"; itoa (WGPanelPort b); "-j"; "RETURN"]] else []) ++
  [["-i"; WGIface b; "-s"; prefix_text Transit; "-d"; prefix_text Transit; "-p"; "icmp"; "--icmp-type";
    "echo-request"; "-j"; "RETURN"];
   ["-i"; WGIface b; "-j"; "DROP"]].

Lemma exit_ports n : port_in (itoa ExitPortLo +:+ ":" +:+ itoa ExitPortHi) n = (ExitPortLo <=? n) && (n <=? ExitPortHi).
Proof. done. Qed.

Lemma rule_off (r : line) : iface_is (WGIface b) (k_in p) = false -> rule_target ("-i" :: WGIface b :: r) p = None.
Proof. intros E. by rewrite rt_i, E. Qed.

Lemma walk_return r rs (m : bool) : rule_target r p = (if m then Some "RETURN" else None) ->
  walk call (r :: rs) p = if m then Returns else walk call rs p.
Proof. intros E. cbn [walk]. rewrite E. by destruct m. Qed.

Lemma walk_wg_on : iface_is (WGIface b) (k_in p) = true ->
  walk call wg_rules p = if wg_exit p || wg_api b p || wg_panel b p || wg_ping p then Returns else Final VDrop.
Proof.
  intros Ei. destruct (check_parts _ _ Hck) as (_ & _ & _ & _ & Hw & _). unfold wg_rules. cbn [app].
  rewrite (walk_return _ _ (wg_exit p)).
  2: { unfold wg_exit, proto. autorewrite with ipt. rewrite Ei, exit_ports. by destruct (String.eqb "udp" (k_proto p)). }
  rewrite (walk_return _ _ (wg_api b p)).
  2: { unfold wg_api, proto. destruct (IsValid (WGController b)) eqn:Ev; autorewrite with ipt; rewrite Ei, port_in_itoa by done.
    - rewrite in_cidr_host, is_addr_text by (by (apply (ck_ctl _ _ Hck)) || by (apply is_v4_text, (ck_ctl _ _ Hck))).
      by destruct (bool_decide _), (String.eqb "tcp" (k_proto p)), (_ =? _).
    - by destruct (String.eqb "tcp" (k_proto p)), (_ =? _). }
  rewrite walk_app. replace (walk call (if 0 <? WGPanelPort b then _ else []) p) with
    (if wg_panel b p then Returns else Falls).
  2: { unfold wg_panel. destruct (0 <? WGPanelPort b); [|done]. symmetry. apply walk_return. autorewrite with ipt.
    rewrite Ei, port_in_itoa by lia. unfold proto. by destruct (String.eqb "tcp" (k_proto p)). }
  rewrite (walk_return _ _ (wg_ping p)).
  2: { unfold wg_ping, proto. autorewrite with ipt. rewrite Ei. change (prefix_text Transit) with (prefix_text (Masked Transit)).
    rewrite !in_cidr_masked by apply Transit4.
    by destruct (Contains _ _), (Contains _ (k_dst p)), (String.eqb "icmp" (k_proto p)). }
  cbn [walk]. rewrite rt_i, Ei, rt_j.
  by destruct (wg_exit p), (wg_api b p), (wg_panel b p), (wg_ping p).
Qed.

Lemma walk_wg : walk call wg_rules p =
  if iface_is (WGIface b) (k_in p) then
    (if wg_exit p || wg_api b p || wg_panel b p || wg_ping p then Returns else Final VDrop)
  else Falls.
Proof.
  destruct (iface_is (WGIface b) (k_in p)) eqn:Ei; [by apply walk_wg_on|]. unfold wg_rules.
  by destruct (IsValid (WGController b)), (0 <? WGPanelPort b); cbn [app walk]; rewrite !rule_off.
Qed.
End Runs.

(** ** The policy *)

Lemma chain_verdict_S f next b c p :
  chain_verdict (S f) (rules next b) c p = verdict (walk (fun t => chain_verdict f (rules next b) t p) (rules next b c) p).
Proof. simpl. by destruct (walk _ _ p). Qed.

Lemma chain_xn f next b p : checked next b ->
  chain_verdict (S f) (rules next b) XNChain p = if flow_accepts b p then Some VAccept else None.
Proof.
  intros Hck. destruct (rules_eq next b) as (_ & _ & _ & _ & E). rewrite chain_verdict_S, E, (walk_xn next) by done.
  by destruct (flow_accepts b p).
Qed.

(** The [STACKR-FWD] rules decide the typed policy. *)
Lemma fwd_verdict next b p : checked next b ->
  chain_verdict 3 (rules next b) FwdChain p = fwd_policy next b p.
Proof.
  intros Hck. destruct (rules_eq next b) as (E1 & E2 & _). rewrite chain_verdict_S, E1. unfold fwd_rules, fwd_policy.
  set (call := fun t => chain_verdict 2 (rules next b) t p).
  assert (call XNChain = if flow_accepts b p then Some VAccept else None) as Hxn by (by apply chain_xn).
  assert (call FwdOwnChain = own_policy next b p) as Hown.
  { unfold call. rewrite chain_verdict_S, E2. apply walk_fwd_own; [done|by apply chain_xn]. }
  rewrite walk_app, (walk_hop next) by done.
  destruct (meshOn b && _ && _ && _ && _); [done|].
  rewrite walk_app. cbn [walk]. rewrite rt_m, rt_not, rt_j. cbn [matches String.eqb Ascii.eqb].
  change (matches "--ctstate" "NEW" p) with (contains (split "," "NEW") (k_state p)). rewrite new_state.
  destruct (is_new p); [|done]. cbn [negb].
  rewrite !walk_app, walk_nets_s, (own_src next) by done.
  destruct (in_nets (Own b) (k_src p)); cbn [walk]; rewrite !rt_j; cbn [String.eqb Ascii.eqb]; [|];
  destruct (meshOn b); cbn [walk andb]; rewrite ?rt_i, ?rt_j; destruct (iface_is (WGIface b) (k_in p)); simpl;
  rewrite ?Hxn, ?Hown; destruct (flow_accepts b p); simpl; try done; by destruct (own_policy next b p).
Qed.

(** The [STACKR-IN] rules do. *)
Lemma in_verdict next b p : checked next b ->
  chain_verdict 3 (rules next b) InChain p = in_policy next b p.
Proof.
  intros Hck. destruct (rules_eq next b) as (_ & _ & E1 & E2 & _). rewrite chain_verdict_S, E1. unfold in_rules, in_policy.
  set (call := fun t => chain_verdict 2 (rules next b) t p).
  assert (call InOwnChain = verdict (walk (fun t => chain_verdict 1 (rules next b) t p) (in_own_rules next b) p)) as Hown.
  { unfold call. by rewrite chain_verdict_S, E2. }
  rewrite (walk_in_own next b p Hck) in Hown. cbv zeta.
  rewrite walk_app, (walk_return _ _ _ _ (negb (is_new p))).
  2: { rewrite rt_m, rt_not, rt_j. change (matches "--ctstate" "NEW" p) with (contains (split "," "NEW") (k_state p)).
    rewrite new_state. by destruct (is_new p). }
  rewrite (walk_return _ _ _ _ (String.eqb "lo" (k_in p))) by (by rewrite rt_i, rt_j).
  destruct (is_new p); [|done]. cbn [negb orb]. destruct (String.eqb "lo" (k_in p)); [done|]. cbn [walk].
  rewrite walk_app.
  replace (walk call (if String.eqb (WGIface b) "" then _ else _) p) with
    (if String.eqb (WGIface b) "" then Falls else walk call (wg_rules b) p) by (by destruct (String.eqb (WGIface b) "")).
  rewrite (walk_wg next) by done. rewrite walk_nets_s, (own_src next) by done.
  rewrite <-Hown. cbn [walk]. rewrite rt_j.
  destruct (String.eqb (WGIface b) ""), (iface_is (WGIface b) (k_in p)); cbn [negb andb];
  try (by destruct (_ || _)); destruct (in_nets (Own b) (k_src p)); try done; simpl; by destruct (call InOwnChain).
Qed.
