(* ===== verification/VipScript.v ===== *)
(** * The words of the tenant filter's script

    What [iptables-restore] reads is what was meant: no address, name or port
    of the inputs adds a word or a line, and every rule jumps to a chain the
    section declares. *)
From S2P Require Import Prelude GoStrings Errs Netip Iptables Mesh VipFilter.

(** [i] is the one word that may hold a quote mark: the name of the interface. *)
Definition line_for (i : string) (l : line) : Prop := l <> [] /\ Forall (fun w => solid_for i w = true) l.

(** A rule whose target the section declares, too. *)
Definition rule_for (i : string) (l : line) : Prop :=
  line_for i l /\ forall t, jump_of l = Some t -> t ∈ endings ++ filter_chains.

Create HintDb words.

Section Solid.
Context (i : string).
#[local] Abbreviation solid := (solid_for i).

Lemma solid_net w : all_bytes netchar w = true -> w <> "" -> solid w = true.
Proof.
  intros Hw Hne. unfold solid_for. rewrite (proj2 (String.eqb_neq _ _)) by done.
  by rewrite !(has_byte_all netchar _ w).
Qed.

Lemma app_nonempty s t : t <> "" -> s +:+ t <> "".
Proof. by destruct s. Qed.

Lemma solid_prefix q : prefix4 q -> solid (prefix_text q) = true.
Proof.
  intros Hq. apply solid_net; [by apply prefix_netchars|]. intros E. pose proof (ParsePrefix_text q Hq) as Hp.
  by rewrite E in Hp.
Qed.

Lemma solid_masked q : prefix4 q -> solid (prefix_text (Masked q)) = true.
Proof. intros Hq. by apply solid_prefix, Masked4. Qed.

Lemma solid_host s : is_v4 s = true -> solid (s +:+ "/32") = true.
Proof.
  intros Hs%is_v4_dotted. apply solid_net; [|by apply app_nonempty]. rewrite all_bytes_app. apply andb_true_iff. split; [|done].
  eapply all_bytes_impl; [|exact Hs]. intros c Hc. unfold netchar. by rewrite Hc.
Qed.

Lemma solid_v4 s : is_v4 s = true -> solid s = true.
Proof.
  intros Hs. apply solid_net; [|by intros ->]. eapply all_bytes_impl; [|by apply is_v4_dotted].
  intros c Hc. unfold netchar. by rewrite Hc.
Qed.

Lemma solid_addr a : addr4 a -> solid (addr_text a) = true.
Proof. intros Ha. by apply solid_v4, is_v4_text. Qed.

Lemma solid_addr_host a : addr4 a -> solid (addr_text a +:+ "/32") = true.
Proof. intros Ha. by apply solid_host, is_v4_text. Qed.

Lemma solid_itoa n : 0 <= n < 2 ^ 64 -> solid (itoa n) = true.
Proof.
  intros Hn. apply solid_net; [by apply digits_netchars, itoa_digits; lia|]. intros E. pose proof (Atoi_itoa n Hn) as H.
  by rewrite E in H.
Qed.

Lemma solid_target s : is_ok (target s) = true -> solid (target_of s) = true.
Proof.
  unfold target_of, target. pose proof (prefix_or_addr_ok s) as Hok.
  destruct (prefix_or_addr s) as [[q|x]|]; [| |done]; intros _; [by apply solid_masked, Hok|by apply solid_addr_host, Hok].
Qed.

Lemma has_byte_any cs c s : contains_any cs s = false -> has_byte c cs = true -> has_byte c s = false.
Proof.
  unfold contains_any. rewrite negb_false_iff. intros Hs Hc. apply (has_byte_all _ _ _ Hs). by rewrite Hc.
Qed.

Lemma solid_iface : i <> "" -> iface_ok i -> solid i = true.
Proof.
  intros Hne Hs. unfold solid_for. rewrite (proj2 (String.eqb_neq _ _)), String.eqb_refl, orb_true_r by done.
  by rewrite !(has_byte_any _ _ _ Hs).
Qed.
End Solid.
#[export] Hint Resolve solid_prefix solid_masked solid_host solid_v4 solid_addr solid_addr_host solid_itoa solid_target : words.
#[export] Hint Resolve Transit4 : words.
#[export] Hint Extern 2 (solid_for _ _ = true) => reflexivity : words.

(** A line is not empty, its words are solid, and it jumps where it may. *)
Ltac line_words := split; [done|repeat (apply Forall_cons; split); try apply Forall_nil; eauto with words].
Ltac rule_words := split; [line_words|simpl; intros ? [= <-]; unfold endings, filter_chains; set_solver].

Lemma Forall_flat {A} (P : line -> Prop) (f : A -> list line) l :
  (forall x, x ∈ l -> Forall P (f x)) -> Forall P (concat (map f l)).
Proof. intros Hf. apply Forall_concat, Forall_fmap, Forall_forall. intros x Hx. by apply Hf. Qed.

Lemma Forall_line {A} (P : line -> Prop) (f : A -> line) l : (forall x, x ∈ l -> P (f x)) -> Forall P (map f l).
Proof. intros Hf. apply Forall_fmap, Forall_forall. intros x Hx. by apply Hf. Qed.

Section Words.
Context (next : gmap string Entry) (b : Base) (Hck : checked next b).
#[local] Abbreviation solid := (solid_for (WGIface b)).
#[local] Abbreviation line_ok := (line_for (WGIface b)).
#[local] Abbreviation rule_ok := (rule_for (WGIface b)).
(** Flows from the mesh name its interface. *)
Context (Hfl : WGIface b = "" -> Forall (fun fl => f_Out fl = true) (Flows b)).

Lemma iface_word : WGIface b <> "" -> solid (WGIface b) = true.
Proof. intros Hne. apply solid_iface; [done|]. by apply (check_parts _ _ Hck). Qed.

Lemma mesh_iface : meshOn b = true -> WGIface b <> "".
Proof. unfold meshOn. intros H Hw. by rewrite Hw in H. Qed.

Lemma own_words : Forall (fun w => solid w = true) (own_nets b).
Proof.
  apply Forall_fmap, Forall_forall. intros o Ho. apply solid_masked. by apply (proj1 (Forall_forall _ _) (ck_own _ _ Hck)).
Qed.

Lemma cluster_words : Forall (fun w => solid w = true) (clusterNets b).
Proof.
  unfold clusterNets. destruct (PrefixValid (Cluster b)) eqn:E; [|done].
  repeat (apply Forall_cons; split); [apply solid_masked; by apply (ck_cluster _ _ Hck)|done..].
Qed.

Lemma word_in l w : Forall (fun w => solid w = true) l -> w ∈ l -> solid w = true.
Proof. intros HF. by apply (proj1 (Forall_forall _ _) HF). Qed.

Lemma dns_lines : Forall rule_ok (dns_rules b).
Proof.
  destruct (check_parts _ _ Hck) as (Hr & _). apply Forall_flat. intros r Hin. apply Forall_line.
  intros pr [->|[->|[]%not_elem_of_nil]%elem_of_cons]%elem_of_cons; rule_words.
Qed.

Lemma lan_rule_lines rep l : is_v4 rep = true -> is_ok (parseLan l) = true -> Forall rule_ok (lan_rule rep l).
Proof.
  intros Hr Hl. unfold lan_rule. destruct (parseLan l) as [s|] eqn:El; [|done].
  destruct (parseLan_net l s El) as (H4 & _ & Hp). destruct (l_port s =? 0).
  - apply Forall_singleton. rule_words.
  - assert (0 <= l_port s < 2 ^ 64) by lia.
    apply Forall_line. intros pr [->|[->|[]%not_elem_of_nil]%elem_of_cons]%elem_of_cons; rule_words.
Qed.

Lemma lan_lines : Forall rule_ok (lanRules next (early b)).
Proof.
  unfold lanRules. set (all := merged next _). apply Forall_flat. intros v _. destruct (all !! v) as [e|] eqn:Ev; [|done].
  destruct (merged_entries _ _ Hck v e Ev) as [Hr Hl]. apply Forall_flat. intros r Hin. apply Forall_flat. intros l Hin2.
  apply lan_rule_lines; [by apply (proj1 (Forall_forall _ _) Hr)|by apply (proj1 (Forall_forall _ _) Hl)].
Qed.

Lemma fwd_lines : Forall rule_ok (fwd_rules b).
Proof.
  unfold fwd_rules. repeat (apply Forall_app; split).
  - destruct (meshOn b) eqn:E; [|done]. pose proof (iface_word (mesh_iface E)).
    apply Forall_flat. intros s Hs. apply Forall_line. intros d Hd.
    pose proof (word_in _ _ cluster_words Hs). pose proof (word_in _ _ cluster_words Hd). rule_words.
  - apply Forall_singleton. rule_words.
  - destruct (meshOn b) eqn:E; [|done]. pose proof (iface_word (mesh_iface E)). apply Forall_singleton. rule_words.
  - apply Forall_line. intros o Ho. pose proof (word_in _ _ own_words Ho). rule_words.
  - apply Forall_singleton. rule_words.
Qed.

Lemma drop_lines k t l : k = "-s" \/ k = "-d" -> t ∈ endings ++ filter_chains -> Forall (fun w => solid w = true) l ->
  Forall rule_ok (map (fun c => [k; c; "-j"; t]) l).
Proof.
  intros Hk Ht HF. apply Forall_line. intros c Hc. pose proof (word_in _ _ HF Hc).
  assert (solid t = true) by (revert t Ht; apply Forall_forall; by repeat constructor).
  split; [destruct Hk as [-> | ->]; line_words|]. destruct Hk as [-> | ->]; simpl; by intros ? [= <-].
Qed.

Lemma fwd_own_lines : Forall rule_ok (fwd_own_rules next b).
Proof.
  destruct (check_parts _ _ Hck) as (_ & Hf & Hp & _). unfold fwd_own_rules. repeat (apply Forall_app; split).
  - apply drop_lines; [by auto|unfold endings, filter_chains; set_solver|apply own_words].
  - destruct (clusterNets b); [done|]. apply Forall_singleton. rule_words.
  - apply drop_lines; [by auto|unfold endings, filter_chains; set_solver|apply cluster_words].
  - apply dns_lines.
  - destruct (String.eqb_spec (ProxyIP b) ""); [done|]. apply Forall_singleton. rule_words.
  - apply Forall_line. intros fr Hin. rule_words.
  - apply lan_lines.
  - apply drop_lines; [by auto|unfold endings, filter_chains; set_solver|]. repeat (apply Forall_cons; split); done.
Qed.

Lemma in_lines : Forall rule_ok (in_rules b).
Proof.
  destruct (check_parts _ _ Hck) as (_ & _ & _ & _ & Hw & _). unfold in_rules. apply Forall_app; split.
  { repeat (apply Forall_cons; split); try done; rule_words. }
  apply Forall_app; split; [|apply drop_lines; [by auto|unfold endings, filter_chains; set_solver|apply own_words]].
  destruct (String.eqb_spec (WGIface b) "") as [|Hne]; [done|]. apply iface_word in Hne.
  repeat (apply Forall_app; split).
  - repeat (apply Forall_cons; split); try done; [rule_words|]. destruct (IsValid (WGController b)) eqn:E; [|rule_words].
    apply (ck_ctl _ _ Hck) in E. rule_words.
  - destruct (0 <? WGPanelPort b); [|done]. assert (0 <= WGPanelPort b < 2 ^ 64) by lia. apply Forall_singleton. rule_words.
  - repeat (apply Forall_cons; split); try done; rule_words.
Qed.

Lemma in_own_lines : Forall rule_ok (in_own_rules next b).
Proof.
  destruct (check_parts _ _ Hck) as (_ & _ & _ & Hb & _ & Hp & _). unfold in_own_rules. repeat (apply Forall_app; split).
  - apply dns_lines.
  - apply drop_lines; [by auto|unfold endings, filter_chains; set_solver|apply cluster_words].
  - apply lan_lines.
  - destruct (String.eqb_spec (PanelBind b) "") as [|Hne]; [done|]. destruct (0 <? PanelPort b); [|done].
    assert (0 <= PanelPort b < 2 ^ 64) by lia. apply Forall_singleton. rule_words.
  - destruct (HostProxy b); [|done]. apply Forall_singleton. rule_words.
  - apply Forall_singleton. rule_words.
Qed.

Lemma xn_lines : Forall rule_ok (map (xn_rule b) (Flows b)).
Proof.
  apply Forall_line. intros fl Hin. pose proof (proj1 (Forall_forall _ _) (ck_flows _ _ Hck) fl Hin) as (Hs & Hv & Hp).
  assert (0 <= f_Port fl < 2 ^ 64) by lia. unfold xn_rule. destruct (f_Out fl) eqn:Ho; [rule_words|].
  assert (WGIface b <> "") as Hw%iface_word; [|rule_words]. intros Hw. apply Hfl in Hw.
  by rewrite (proj1 (Forall_forall _ _) Hw fl Hin) in Ho.
Qed.

Lemma append_lines c rs : solid c = true -> Forall rule_ok rs -> Forall line_ok (append c rs).
Proof.
  intros Hc HF. apply Forall_fmap. eapply Forall_impl; [exact HF|]. intros r [[_ Hr] _]. split; [done|].
  by repeat (apply Forall_cons; split).
Qed.

Lemma filter_lines : Forall line_ok (renderFilter next b).
Proof.
  unfold renderFilter. apply Forall_app; split; [by apply Forall_singleton; line_words|].
  apply Forall_app; split. { apply Forall_line. intros c Hc. revert c Hc. apply Forall_forall.
    repeat (apply Forall_cons; split); try done; line_words. }
  repeat (apply Forall_app; split); [apply append_lines; [done|]..|apply Forall_singleton; line_words].
  - apply fwd_lines.
  - apply fwd_own_lines.
  - apply in_lines.
  - apply in_own_lines.
  - apply xn_lines.
Qed.
End Words.

Section Restored.
Context (next : gmap string Entry) (b : Base) (Hck : checked next b).
Context (Hfl : WGIface b = "" -> Forall (fun fl => f_Out fl = true) (Flows b)).

(** The filter's section of a script. *)
Definition filter_body : list line :=
  append FwdChain (fwd_rules b) ++ append FwdOwnChain (fwd_own_rules next b) ++
  append InChain (in_rules b) ++ append InOwnChain (in_own_rules next b) ++
  append XNChain (map (xn_rule b) (Flows b)).

Lemma renderFilter_section : renderFilter next b = section "filter" filter_chains filter_body [].
Proof. unfold renderFilter, section, filter_body. by rewrite <-!app_assoc. Qed.

Lemma append_rules c rs : c ∈ filter_chains -> Forall (rule_for (WGIface b)) rs -> Forall (rule_in filter_chains) (append c rs).
Proof.
  intros Hc HF. apply Forall_fmap. eapply Forall_impl; [exact HF|]. intros r [_ Hr]. exists c, r.
  split_and!; [done..|]. intros t Ht%Hr. unfold builtin. set_solver.
Qed.

Lemma filter_rules : Forall (rule_in filter_chains) filter_body.
Proof.
  unfold filter_body. repeat (apply Forall_app; split); apply append_rules.
  1, 3, 5, 7, 9: unfold filter_chains; set_solver.
  - by apply (fwd_lines next).
  - by apply fwd_own_lines.
  - by apply (in_lines next).
  - by apply in_own_lines.
  - by apply (xn_lines next).
Qed.
End Restored.

(** What the filter's rules jump to. *)
Lemma filter_jumps next b c r t : checked next b -> (WGIface b = "" -> Forall (fun fl => f_Out fl = true) (Flows b)) ->
  c ∈ filter_chains -> r ∈ rules next b c -> jump_of r = Some t -> t ∈ endings ++ filter_chains.
Proof.
  intros Hck Hfl Hc Hr. assert (Forall (rule_for (WGIface b)) (rules next b c)) as HF.
  { destruct (rules_eq next b) as (E1 & E2 & E3 & E4 & E5). clear Hr; revert c Hc. unfold filter_chains. apply Forall_forall.
    repeat (apply Forall_cons_2); try apply Forall_nil_2; rewrite ?E1, ?E2, ?E3, ?E4, ?E5.
    - by apply (fwd_lines next).
    - by apply (in_lines next).
    - by apply (xn_lines next).
    - by apply fwd_own_lines.
    - by apply in_own_lines. }
  by apply (proj1 (Forall_forall _ _) HF).
Qed.

(** ** The text that is fed to [iptables-restore] *)

Definition read_filter (next : gmap string Entry) (b : Base) (c : string) : list line :=
  rules_of c (read_script (script_text (renderFilter next b))).

Lemma read_filter_rules next b c : checked next b -> (WGIface b = "" -> Forall (fun fl => f_Out fl = true) (Flows b)) ->
  read_filter next b c = rules next b c.
Proof. intros Hck Hfl. unfold read_filter, rules. by rewrite (read_script_text (WGIface b)) by (by apply filter_lines). Qed.

(** C30. What a container of this node may reach through the host: the text of
    the [STACKR-FWD] rules, read as iptables reads it with its user chains,
    decides exactly the typed policy.  Whatever the grants, a new connection
    from a container to the cluster's own ranges passes only by a declared
    flow, and one to a private range only by DNS, the proxy, the front proxy or
    a grant its tile holds. *)
Theorem FWD_policy next b p : checked next b -> (WGIface b = "" -> Forall (fun fl => f_Out fl = true) (Flows b)) ->
  chain_verdict 3 (read_filter next b) FwdChain p = fwd_policy next b p.
Proof.
  intros Hck Hfl. rewrite <-fwd_verdict by done. apply (chain_verdict_ext _ _ _ filter_chains).
  - intros c _. by apply read_filter_rules.
  - intros c r t Hc Hr. rewrite read_filter_rules in Hr by done. by apply (filter_jumps next b c).
  - unfold filter_chains. set_solver.
Qed.

(** What reaches the host itself: the text of the [STACKR-IN] rules decides
    exactly the typed policy.  The mesh interface lets in the exit links, the
    worker API (from the controller alone when it is known), the panel's renewal
    port and pings; a container of this node reaches DNS, its grants and, on an
    ingress worker, the proxy, never the panel or the cluster's addresses;
    nothing else of its own networks gets in. *)
Theorem IN_policy next b p : checked next b -> (WGIface b = "" -> Forall (fun fl => f_Out fl = true) (Flows b)) ->
  chain_verdict 3 (read_filter next b) InChain p = in_policy next b p.
Proof.
  intros Hck Hfl. rewrite <-in_verdict by done. apply (chain_verdict_ext _ _ _ filter_chains).
  - intros c _. by apply read_filter_rules.
  - intros c r t Hc Hr. rewrite read_filter_rules in Hr by done. by apply (filter_jumps next b c).
  - unfold filter_chains. set_solver.
Qed.

(** ** A node of the tests *)

Definition testBase : Base := {|
  Range := MkPrefix (ip4 10 208 0 0) 12; Own := [MkPrefix (ip4 10 213 1 0) 24; MkPrefix (ip4 10 213 2 0) 24];
  Cluster := MkPrefix (ip4 10 208 0 0) 12; Resolvers := ["192.168.1.1"]; ProxyIP := "172.17.0.2"; HostProxy := false;
  Front := ["192.168.1.100"; "173.245.48.0/20"]; PanelBind := "172.17.0.1"; PanelPort := 8080; WGIface := "";
  WGController := AInvalid; WGPanelPort := 0; Flows := []; early := ∅ |}.

Definition testVIPs : gmap string Entry :=
  <["10.213.1.2" := MkEntry ["10.213.1.3"; "10.213.1.4"] ["lan:192.168.1.10:8123"]]>
  (<["10.213.2.2" := MkEntry ["10.213.2.3"] ["lan:10.1.2.5/24"]]> (<["10.213.3.2" := MkEntry ["10.213.3.3"] []]> ∅)).

(** The table the Go test expects, line for line. *)
Example testBase_filter : map (join " ") (renderFilter testVIPs testBase) = [
  "*filter";
  ":STACKR-FWD - [0:0]";
  ":STACKR-IN - [0:0]";
  ":STACKR-XN - [0:0]";
  ":STACKR-FWD-OWN - [0:0]";
  ":STACKR-IN-OWN - [0:0]";
  "-A STACKR-FWD -m conntrack ! --ctstate NEW -j RETURN";
  "-A STACKR-FWD -s 10.213.1.0/24 -j STACKR-FWD-OWN";
  "-A STACKR-FWD -s 10.213.2.0/24 -j STACKR-FWD-OWN";
  "-A STACKR-FWD -j RETURN";
  "-A STACKR-FWD-OWN -d 10.213.1.0/24 -j RETURN";
  "-A STACKR-FWD-OWN -d 10.213.2.0/24 -j RETURN";
  "-A STACKR-FWD-OWN -j STACKR-XN";
  "-A STACKR-FWD-OWN -d 10.208.0.0/12 -j DROP";
  "-A STACKR-FWD-OWN -d 10.207.255.0/24 -j DROP";
  "-A STACKR-FWD-OWN -d 192.168.1.1/32 -p udp --dport 53 -j RETURN";
  "-A STACKR-FWD-OWN -d 192.168.1.1/32 -p tcp --dport 53 -j RETURN";
  "-A STACKR-FWD-OWN -d 172.17.0.2/32 -p tcp -m multiport --dports 80,443 -j ACCEPT";
  "-A STACKR-FWD-OWN -d 192.168.1.100/32 -p tcp -m multiport --dports 80,443 -j RETURN";
  "-A STACKR-FWD-OWN -d 173.245.48.0/20 -p tcp -m multiport --dports 80,443 -j RETURN";
  "-A STACKR-FWD-OWN -s 10.213.1.3/32 -d 192.168.1.10/32 -p tcp --dport 8123 -j RETURN";
  "-A STACKR-FWD-OWN -s 10.213.1.3/32 -d 192.168.1.10/32 -p udp --dport 8123 -j RETURN";
  "-A STACKR-FWD-OWN -s 10.213.1.4/32 -d 192.168.1.10/32 -p tcp --dport 8123 -j RETURN";
  "-A STACKR-FWD-OWN -s 10.213.1.4/32 -d 192.168.1.10/32 -p udp --dport 8123 -j RETURN";
  "-A STACKR-FWD-OWN -s 10.213.2.3/32 -d 10.1.2.0/24 -j RETURN";
  "-A STACKR-FWD-OWN -d 10.0.0.0/8 -j DROP";
  "-A STACKR-FWD-OWN -d 172.16.0.0/12 -j DROP";
  "-A STACKR-FWD-OWN -d 192.168.0.0/16 -j DROP";
  "-A STACKR-FWD-OWN -d 169.254.0.0/16 -j DROP";
  "-A STACKR-FWD-OWN -d 100.64.0.0/10 -j DROP";
  "-A STACKR-IN -m conntrack ! --ctstate NEW -j RETURN";
  "-A STACKR-IN -i lo -j RETURN";
  "-A STACKR-IN -s 10.213.1.0/24 -j STACKR-IN-OWN";
  "-A STACKR-IN -s 10.213.2.0/24 -j STACKR-IN-OWN";
  "-A STACKR-IN-OWN -d 192.168.1.1/32 -p udp --dport 53 -j RETURN";
  "-A STACKR-IN-OWN -d 192.168.1.1/32 -p tcp --dport 53 -j RETURN";
  "-A STACKR-IN-OWN -d 10.208.0.0/12 -j DROP";
  "-A STACKR-IN-OWN -d 10.207.255.0/24 -j DROP";
  "-A STACKR-IN-OWN -s 10.213.1.3/32 -d 192.168.1.10/32 -p tcp --dport 8123 -j RETURN";
  "-A STACKR-IN-OWN -s 10.213.1.3/32 -d 192.168.1.10/32 -p udp --dport 8123 -j RETURN";
  "-A STACKR-IN-OWN -s 10.213.1.4/32 -d 192.168.1.10/32 -p tcp --dport 8123 -j RETURN";
  "-A STACKR-IN-OWN -s 10.213.1.4/32 -d 192.168.1.10/32 -p udp --dport 8123 -j RETURN";
  "-A STACKR-IN-OWN -s 10.213.2.3/32 -d 10.1.2.0/24 -j RETURN";
  "-A STACKR-IN-OWN -d 172.17.0.1/32 -p tcp --dport 8080 -j DROP";
  "-A STACKR-IN-OWN -j DROP";
  "COMMIT"].
Proof. vm_compute. reflexivity. Qed.

Lemma testBase_checked : checked testVIPs testBase.
Proof.
  assert (forall (v : string) (e : Entry), testVIPs !! v = Some e -> is_v4 v = true /\
    Forall (fun r => is_v4 r = true) (Replicas e) /\ Forall (fun l => is_ok (parseLan l) = true) (Lan e)) as Hall.
  { change (map_Forall (fun v e => is_v4 v = true /\
      Forall (fun r => is_v4 r = true) (Replicas e) /\ Forall (fun l => is_ok (parseLan l) = true) (Lan e)) testVIPs).
    apply (bool_decide_eq_true_1 _). vm_compute. reflexivity. }
  split; try done.
  - by repeat (apply Forall_cons_2; [by apply prefix4b_ok|]).
  - intros _. by apply prefix4b_ok.
  - intros v e Hv. by apply Hall in Hv as [Hv _].
  - intros v e Hv. by apply Hall in Hv as [_ Hv].
Qed.

Definition test_packet (src dst : Addr) (proto : string) (port : Z) : Pkt :=
  MkPkt "br0" "eth0" src dst proto port "" "NEW" dst port.

(** The replica the grant names reaches the LAN camera; its neighbour, and the
    link it was not granted, do not. *)
Lemma FWD_policy_witness :
  chain_verdict 3 (read_filter testVIPs testBase) FwdChain (test_packet (ip4 10 213 1 3) (ip4 192 168 1 10) "tcp" 8123) = None /\
  chain_verdict 3 (read_filter testVIPs testBase) FwdChain (test_packet (ip4 10 213 2 3) (ip4 192 168 1 10) "tcp" 8123) = Some VDrop /\
  chain_verdict 3 (read_filter testVIPs testBase) FwdChain (test_packet (ip4 10 213 1 3) (ip4 10 214 0 9) "tcp" 5432) = Some VDrop.
Proof.
  split; [|split]; rewrite (FWD_policy testVIPs testBase _ testBase_checked (fun _ => List.Forall_nil _)); vm_compute; reflexivity.
Defined.

Lemma IN_policy_witness :
  chain_verdict 3 (read_filter testVIPs testBase) InChain (test_packet (ip4 10 213 1 3) (ip4 172 17 0 1) "tcp" 8080) = Some VDrop /\
  chain_verdict 3 (read_filter testVIPs testBase) InChain (test_packet (ip4 10 213 1 3) (ip4 192 168 1 1) "udp" 53) = None.
Proof.
  split; rewrite (IN_policy testVIPs testBase _ testBase_checked (fun _ => List.Forall_nil _)); vm_compute; reflexivity.
Defined.
