(* ===== verification/Vip.v ===== *)
(** * Virtual IPs ([service/internal/vip/vip.go])

    The table of virtual IPs and their replicas, the script that makes it a
    node's rules, and the calls that keep it there.  The node's [iptables] is
    outside: a class of what the calls do ([Firewall]) and of what is relied on
    ([FirewallLaws]). *)
From S2P Require Import Prelude GoStrings Errs Netip Iptables Mesh VipFilter VipScript.

Definition Chain : string := "STACKR-VIP".
Definition vipChain (ip : string) : string := "STKR-" +:+ ip.

(** ** Shares

    [1/float64(left)] printed with [%.5f]: the nearest double, ties to even,
    then its five decimals, ties to even again. *)

(** [a / b] rounded to the nearest integer, ties to even. *)
Definition round_even (a b : Z) : Z :=
  let q := a / b in
  let r := a mod b in
  if 2 * r <? b then q else if b <? 2 * r then q + 1 else if Z.even q then q else q + 1.

(** The double nearest to [1/n]: a 53-bit mantissa over [2^k]. *)
Definition recip_exp (n : Z) : Z := 52 + Z.log2_up n.
Definition recip (n : Z) : Z := round_even (2 ^ recip_exp n) n.

(** The double in hundred-thousandths, as [%.5f] rounds it. *)
Definition prob5 (n : Z) : Z := round_even (recip n * 100000) (2 ^ recip_exp n).
Definition pad5 (n : Z) : string := string_of_list_ascii (map (fun d => digit (n / d mod 10)) [10000; 1000; 100; 10; 1]).
Definition prob_text (n : Z) : string := itoa (prob5 n / 100000) +:+ "." +:+ pad5 (prob5 n mod 100000).

(** Rule i of n takes 1/(n-i) of what is left. *)
Fixpoint spread_rules (ips : list string) : list line :=
  match ips with
  | [] => []
  | [ip] => [["-j"; "DNAT"; "--to-destination"; ip]]
  | ip :: rest =>
      ["-m"; "statistic"; "--mode"; "random"; "--probability"; prob_text (Z.of_nat (length ips)); "-j"; "DNAT";
       "--to-destination"; ip] :: spread_rules rest
  end.

(** ** The script *)

Definition keys_of (m : gmap string Entry) : list string := sort_strings (map fst (map_to_list m)).
Definition gone (prev next : gmap string Entry) : list string :=
  List.filter (fun v => negb (bool_decide (is_Some (next !! v)))) (keys_of prev).

Definition vip_jump (v : string) : line := ["-d"; v +:+ "/32"; "-j"; vipChain v].
Definition replicas_of (next : gmap string Entry) (v : string) : list string :=
  match next !! v with Some e => Replicas e | None => [] end.
Definition vip_lines (next : gmap string Entry) (v : string) : list line :=
  ("-A" :: Chain :: vip_jump v) :: append (vipChain v) (spread_rules (replicas_of next v)).

Definition nat_rules (b : Base) : list line :=
  if meshOn b then [["-o"; WGIface b; "-s"; prefix_text (Masked (Cluster b)); "-j"; "ACCEPT"]] else [].
Definition raw_rules (b : Base) : list line :=
  if meshOn b then
    map (fun src => ["-i"; WGIface b; "-s"; src; "-d"; prefix_text (Masked (Range b)); "-j"; "ACCEPT"]) (clusterNets b)
  else [].

Definition nat_chains (prev next : gmap string Entry) (b : Base) : list string :=
  [Chain] ++ (if PrefixValid (Range b) then [NATChain] else []) ++ map vipChain (keys_of next ++ gone prev next).
Definition nat_body (next : gmap string Entry) (b : Base) : list line :=
  append NATChain (nat_rules b) ++ concat (map (vip_lines next) (keys_of next)).

Definition Render (prev next : gmap string Entry) (b : Base) : list line :=
  section "nat" (nat_chains prev next b) (nat_body next b) (map vipChain (gone prev next)) ++
  (if PrefixValid (Range b) then
     section "raw" [RawChain] (append RawChain (raw_rules b)) [] ++ renderFilter next b
   else []).

(** ** The calls *)

Class Firewall (W : Type) := {
  Restore : W -> list line -> W * option error;
  Exec : W -> list string -> W * option error;
  Read : W -> list string -> option string }.

Record Table := MkTable { vips : gmap string Entry; base : Base; pending : gmap string (list string) }.

Definition no_base : Base := {|
  Range := MkPrefix AInvalid (-1); Own := []; Cluster := MkPrefix AInvalid (-1); Resolvers := []; ProxyIP := "";
  HostProxy := false; Front := []; PanelBind := ""; PanelPort := 0; WGIface := ""; WGController := AInvalid;
  WGPanelPort := 0; Flows := []; early := ∅ |}.
Definition New : Table := MkTable ∅ no_base ∅.

Definition with_early (b : Base) (e : gmap string (list string)) : Base := {|
  Range := Range b; Own := Own b; Cluster := Cluster b; Resolvers := Resolvers b; ProxyIP := ProxyIP b;
  HostProxy := HostProxy b; Front := Front b; PanelBind := PanelBind b; PanelPort := PanelPort b; WGIface := WGIface b;
  WGController := WGController b; WGPanelPort := WGPanelPort b; Flows := Flows b; early := e |}.

(** [iptables] on a table, the filter one unnamed. *)
Definition ipt (table : string) (args : list string) : list string :=
  "iptables" :: (if String.eqb table "" then [] else ["-t"; table]) ++ args.

Record hook := MkHook { h_table : string; h_name : string; h_chain : string }.

(** An entry's checks: its address, its replicas', its grants. *)
Definition entry_err (v : string) (e : Entry) : option error :=
  match first_err (fun ip => if is_v4 ip then None else Some (not_addr ip)) (v :: Replicas e) with
  | Some err => Some err
  | None => first_err (fun l => err_of (parseLan l)) (Lan e)
  end.

(** Replicas a VIP routes to are no longer early. *)
Definition still_early (next : gmap string Entry) (e : gmap string (list string)) : gmap string (list string) :=
  filter (fun kv => kv.1 ∉ concat (map (fun n => Replicas n.2) (map_to_list next))) e.

(** The checks of [apply]; Go ranges its maps in any order, so which of two
    errors is named may differ, not whether there is one. *)
Definition apply_err (next : gmap string Entry) (early : gmap string (list string)) (b : Base) : option error :=
  first_err (fun e => e) [
    first_err (fun kv => entry_err kv.1 kv.2) (map_to_list next);
    first_err (fun kv => first_err (fun l => err_of (parseLan l)) kv.2) (map_to_list early);
    check b].

Section Calls.
Context {W : Type} `{Firewall W}.

(** A step over the world; [None] is a loop that has used its fuel. *)
Abbreviation act := (option (W * option error)).

Definition exec_ok (w : W) (argv : list string) : W * bool :=
  let '(w, e) := Exec w argv in (w, match e with None => true | Some _ => false end).

(** [for t.Exec(...) == nil {}]. *)
Fixpoint exec_all (fuel : nat) (w : W) (argv : list string) : option W :=
  match fuel with
  | O => None
  | S f => match Exec w argv with (w, None) => exec_all f w argv | (w, Some _) => Some w end
  end.

(** One call after the other, the first error ends it. *)
Definition and_then (x : act) (f : W -> act) : act :=
  match x with Some (w, None) => f w | _ => x end.
Fixpoint each {A} (f : A -> W -> act) (l : list A) (w : W) : act :=
  match l with [] => Some (w, None) | x :: l => and_then (f x w) (each f l) end.

Definition first_line (h : hook) : string := "-A " +:+ h_name h +:+ " -j " +:+ h_chain h.

Definition first (fuel : nat) (h : hook) (w : W) : act :=
  let again := match exec_all fuel w (ipt (h_table h) ["-D"; h_name h; "-j"; h_chain h]) with
    | Some w => Some (Exec w (ipt (h_table h) ["-I"; h_name h; "1"; "-j"; h_chain h]))
    | None => None
    end in
  match Read w (ipt (h_table h) ["-S"; h_name h; "1"]) with
  | Some out => if String.eqb (trim_space out) (first_line h) then Some (w, None) else again
  | None => again
  end.

(** [-C] fails when the jump is missing; only then insert it. *)
Definition jump_nat (name : string) (w : W) : act :=
  let '(w, there) := exec_ok w (ipt "nat" ["-C"; name; "-j"; Chain]) in
  if there then Some (w, None) else Some (Exec w (ipt "nat" ["-I"; name; "-j"; Chain])).

(** The hook [FwdChain] hangs off, and the jump an older build left gone. *)
Definition fwd_hook (fuel : nat) (w : W) : option (W * string) :=
  let '(w, docker) := exec_ok w (ipt "" ["-S"; "DOCKER-USER"]) in
  if docker then (fun w => (w, "DOCKER-USER")) <$> exec_all fuel w (ipt "" ["-D"; "FORWARD"; "-j"; FwdChain])
  else Some (w, "FORWARD").

Definition hooks (fwd : string) : list hook :=
  [MkHook "raw" "PREROUTING" RawChain; MkHook "nat" "POSTROUTING" NATChain; MkHook "" fwd FwdChain;
   MkHook "" "INPUT" InChain].

Definition place (fuel : nat) (b : Base) (w : W) : act :=
  and_then (each jump_nat ["PREROUTING"; "OUTPUT"] w) (fun w =>
  if negb (PrefixValid (Range b)) then Some (w, None)
  else match fwd_hook fuel w with
    | Some (w, fwd) => each (first fuel) (hooks fwd) w
    | None => None
    end).

Definition apply (fuel : nat) (w : W) (t : Table) (next : gmap string Entry) (b : Base) : option (W * Table * option error) :=
  let early := still_early next (pending t) in
  match apply_err next early b with
  | Some e => Some (w, t, Some e)
  | None =>
      match Restore w (Render (vips t) next (with_early b early)) with
      | (w, Some e) => Some (w, t, Some e)
      | (w, None) => (fun we => (we.1, MkTable next b early, we.2)) <$> place fuel b w
      end
  end.

(** ** The table's operations *)

Definition Set_ (fuel : nat) (w : W) (t : Table) (vip : string) (replicas lan : list string) :=
  apply fuel w t (<[vip := MkEntry replicas lan]> (vips t)) (base t).
Definition Remove (fuel : nat) (w : W) (t : Table) (vip : string) := apply fuel w t (delete vip (vips t)) (base t).
Definition Rebuild (fuel : nat) (w : W) (t : Table) (all : gmap string Entry) (b : Base) := apply fuel w t all b.
Definition Merge (fuel : nat) (w : W) (t : Table) (all : gmap string Entry) (drop : list string) (b : Base) :=
  apply fuel w t (all ∪ foldl (fun m v => delete v m) (vips t) drop) b.

(** On an error the address is put back as it was. *)
Definition Allow (fuel : nat) (w : W) (t : Table) (ip : string) (lan : list string) : option (W * Table * option error) :=
  if negb (is_v4 ip) then Some (w, t, Some (not_addr ip))
  else match lan, pending t !! ip with
    | [], None => Some (w, t, None)
    | _, old =>
        let early := match lan with [] => delete ip (pending t) | _ => <[ip := lan]> (pending t) end in
        match apply fuel w (MkTable (vips t) (base t) early) (vips t) (base t) with
        | Some (w, t', Some e) =>
            Some (w, MkTable (vips t') (base t')
              (match old with Some o => <[ip := o]> (pending t') | None => delete ip (pending t') end), Some e)
        | r => r
        end
    end.

Definition Full (t : Table) : list line := Render ∅ (vips t) (with_early (base t) (pending t)).

Definition Legacy (w : W) : W * bool := let '(w, ok) := exec_ok w (ipt "" ["-S"; "DOCKER-USER"]) in (w, negb ok).

(** ** The live move's opening *)

Definition move_rules (fwd src : string) (lo hi : Z) : list (string * line) :=
  let ports := itoa lo +:+ ":" +:+ itoa hi in
  [("INPUT", ["-s"; src; "-p"; "tcp"; "--dport"; ports; "-m"; "comment"; "--comment"; "stackr-move"; "-j"; "ACCEPT"]);
   (fwd, ["-s"; src; "-p"; "tcp"; "-m"; "conntrack"; "--ctorigdstport"; ports; "-m"; "comment"; "--comment";
     "stackr-move"; "-j"; "ACCEPT"])].

Definition allow_rule (fuel : nat) (on : bool) (r : string * line) (w : W) : act :=
  if negb on then (fun w => (w, None)) <$> exec_all fuel w (ipt "" ("-D" :: r.1 :: r.2))
  else let '(w, there) := exec_ok w (ipt "" ("-C" :: r.1 :: r.2)) in
    if there then Some (w, None) else Some (Exec w (ipt "" ("-I" :: r.1 :: "1" :: r.2))).

Definition AllowTCP (fuel : nat) (w : W) (src : string) (lo hi : Z) (on : bool) : act :=
  let '(w, docker) := exec_ok w (ipt "" ["-S"; "DOCKER-USER"]) in
  each (allow_rule fuel on) (move_rules (if docker then "DOCKER-USER" else "FORWARD") src lo hi) w.
End Calls.

(** ** What is relied on

    The chains and hooks of a node, as the manual of [iptables] describes the
    calls.  A restore that fails may have committed the tables before the one
    it failed on. *)

Definition hook_names : list string := ["PREROUTING"; "OUTPUT"; "POSTROUTING"; "INPUT"; "FORWARD"; "DOCKER-USER"].

Class FirewallLaws (W : Type) `{Firewall W} := {
  fw_chains : W -> chains;
  fw_hook : W -> string -> string -> list line;
  restore_done w ls w' : Restore w ls = (w', None) ->
    exists st, restore_lines (restoring (fw_chains w)) ls = Some st /\ fw_chains w' = r_done st;
  restore_failed w ls w' e : Restore w ls = (w', Some e) ->
    exists k st, restore_lines (restoring (fw_chains w)) (take k ls) = Some st /\ fw_chains w' = r_done st;
  restore_hooks w ls t h : fw_hook (Restore w ls).1 t h = fw_hook w t h;
  exec_same w t op h r : op ∈ ["-C"; "-S"; "-D"; "-I"] -> h ∈ hook_names ->
    fw_chains (Exec w (ipt t (op :: h :: r))).1 = fw_chains w /\
    (op ∈ ["-C"; "-S"] \/ (Exec w (ipt t (op :: h :: r))).2 <> None ->
       forall t' h', fw_hook (Exec w (ipt t (op :: h :: r))).1 t' h' = fw_hook w t' h') /\
    (forall t' h', (t', h') <> (t, h) -> fw_hook (Exec w (ipt t (op :: h :: r))).1 t' h' = fw_hook w t' h');
  exec_check w w' t h r : h ∈ hook_names -> Exec w (ipt t ("-C" :: h :: r)) = (w', None) -> r ∈ fw_hook w t h;
  exec_insert w w' t h x : h ∈ hook_names -> Exec w (ipt t ["-I"; h; "-j"; x]) = (w', None) ->
    fw_hook w' t h = ["-j"; x] :: fw_hook w t h;
  exec_first w w' t h r : h ∈ hook_names -> Exec w (ipt t ("-I" :: h :: "1" :: r)) = (w', None) ->
    fw_hook w' t h = r :: fw_hook w t h;
  exec_delete w w' t h r : h ∈ hook_names -> Exec w (ipt t ("-D" :: h :: r)) = (w', None) ->
    exists l1 l2, fw_hook w t h = l1 ++ r :: l2 /\ fw_hook w' t h = l1 ++ l2;
  read_top w t h x out : h ∈ hook_names -> Read w (ipt t ["-S"; h; "1"]) = Some out ->
    trim_space out = "-A " +:+ h +:+ " -j " +:+ x -> head (fw_hook w t h) = Some ["-j"; x] }.

(** ** The rules a table stands for *)

(** The kernel's chains are the ones of [next] under [b]. *)
Record holds (next : gmap string Entry) (b : Base) (K : chains) : Prop := {
  h_vips : K !! ("nat", Chain) = Some (map vip_jump (keys_of next));
  h_vip v e : next !! v = Some e -> K !! ("nat", vipChain v) = Some (spread_rules (Replicas e));
  h_nat : PrefixValid (Range b) = true -> K !! ("nat", NATChain) = Some (nat_rules b);
  h_raw : PrefixValid (Range b) = true -> K !! ("raw", RawChain) = Some (raw_rules b);
  h_filter c : PrefixValid (Range b) = true -> c ∈ filter_chains -> K !! ("filter", c) = Some (rules next b c) }.

(** Only [Chain] jumps to a VIP's chain; true of a node stackr never touched,
    and of every one it did. *)
Definition tidy (K : chains) : Prop :=
  forall c rs r v, K !! ("nat", c) = Some rs -> r ∈ rs -> jump_of r = Some (vipChain v) -> c = Chain.

(** The inputs' networks are IPv4 prefixes and their ports are ports: what
    [netip]'s types give and the callers of [Table] keep. *)
Record typed (b : Base) : Prop := {
  ty_own : Forall prefix4 (Own b);
  ty_cluster : PrefixValid (Cluster b) = true -> prefix4 (Cluster b);
  ty_range : PrefixValid (Range b) = true -> prefix4 (Range b);
  ty_ctl : IsValid (WGController b) = true -> addr4 (WGController b);
  ty_flows : Forall (fun fl => prefix4 (f_Src fl) /\ addr4 (f_VIP fl) /\ 0 <= f_Port fl <= 65535) (Flows b);
  ty_iface : WGIface b = "" -> Forall (fun fl => f_Out fl = true) (Flows b) }.

(** Every address of the table is one. *)
Record table_ok (next : gmap string Entry) (early : gmap string (list string)) (b : Base) : Prop := {
  to_err : apply_err next early b = None;
  to_typed : typed b;
  to_early ip ls : early !! ip = Some ls -> is_v4 ip = true }.

(** ** The script installs the table *)

Lemma rules_of_flat {A} c (f : A -> list line) l : rules_of c (concat (map f l)) = concat (map (fun x => rules_of c (f x)) l).
Proof. induction l as [|x l IH]; simpl; [done|]. by rewrite rules_of_app, IH. Qed.

Lemma concat_nils {A B} (f : A -> list B) l : (forall x, x ∈ l -> f x = []) -> concat (map f l) = [].
Proof. induction l as [|x l IH]; intros Hf; [done|]. cbn [map concat]. rewrite Hf by set_solver. rewrite IH by set_solver. done. Qed.

Lemma concat_ones {A B} (f : A -> B) l : concat (map (fun x => [f x]) l) = map f l.
Proof. induction l as [|x l IH]; [done|]. simpl. by rewrite IH. Qed.

(** One of the list's keys, each of them once. *)
Lemma concat_only {B} (f : string -> list B) v l : NoDup l -> v ∈ l ->
  concat (map (fun x => if String.eqb v x then f x else []) l) = f v.
Proof.
  induction 1 as [|x l Hx Hnd IH]; [set_solver|]. intros [->|Hv]%elem_of_cons; simpl.
  - rewrite String.eqb_refl, concat_nils; [apply app_nil_r|]. intros y Hy.
    rewrite (proj2 (String.eqb_neq x y)); [done|]. by intros ->.
  - rewrite (proj2 (String.eqb_neq v x)); [by apply IH|]. by intros ->.
Qed.

Lemma elem_of_keys m v : v ∈ keys_of m <-> is_Some (m !! v).
Proof.
  unfold keys_of. rewrite (elem_of_sort String.leb), list_elem_of_fmap. split.
  - intros ([w e] & -> & Hin). apply elem_of_map_to_list in Hin. by exists e.
  - intros [e He]. exists (v, e). by rewrite elem_of_map_to_list.
Qed.

Lemma NoDup_keys m : NoDup (keys_of m).
Proof. unfold keys_of, sort_strings. rewrite sort_perm. apply NoDup_fst_map_to_list. Qed.

Lemma elem_of_gone prev next v : v ∈ gone prev next <-> is_Some (prev !! v) /\ next !! v = None.
Proof.
  unfold gone. rewrite list_elem_of_In, filter_In, <-list_elem_of_In, elem_of_keys, negb_true_iff, bool_decide_eq_false.
  by rewrite <-eq_None_not_Some.
Qed.

Lemma NoDup_gone prev next : NoDup (gone prev next).
Proof. apply NoDup_ListNoDup, List.NoDup_filter, NoDup_ListNoDup, NoDup_keys. Qed.

Lemma vipChain_inj v w : vipChain v = vipChain w -> v = w.
Proof. unfold vipChain. intros E. by injection E. Qed.

Lemma spread_jumps ips r : r ∈ spread_rules ips -> jump_of r = Some "DNAT".
Proof.
  induction ips as [|ip ips IH]; [set_solver|]. destruct ips as [|ip2 ips]; [by intros ->%list_elem_of_singleton|].
  cbn [spread_rules]. by intros [->|Hr]%elem_of_cons; [|apply IH].
Qed.

Lemma vip_lines_rules next v c : rules_of c (vip_lines next v) =
  if String.eqb Chain c then [vip_jump v]
  else if String.eqb (vipChain v) c then spread_rules (replicas_of next v) else [].
Proof.
  unfold vip_lines, append. rewrite rules_of_cons. cbn [strip_args]. rewrite String.eqb_refl, (String.eqb_sym c Chain).
  destruct (String.eqb_spec Chain c) as [<-|Hc]; [by rewrite rules_of_other|].
  destruct (String.eqb_spec (vipChain v) c) as [<-|Hv]; [apply rules_of_self|]. by rewrite rules_of_other.
Qed.

Lemma nat_body_Chain next b : rules_of Chain (nat_body next b) = map vip_jump (keys_of next).
Proof.
  unfold nat_body, append at 1. rewrite rules_of_app, rules_of_other, rules_of_flat by done. cbn [app].
  rewrite <-(concat_ones vip_jump). f_equal. apply map_ext. intros v. by rewrite vip_lines_rules.
Qed.

Lemma nat_body_NAT next b : rules_of NATChain (nat_body next b) = nat_rules b.
Proof.
  unfold nat_body, append at 1. rewrite rules_of_app, rules_of_self, rules_of_flat, concat_nils; [apply app_nil_r|].
  intros v _. by rewrite vip_lines_rules.
Qed.

Lemma nat_body_vip next b v : rules_of (vipChain v) (nat_body next b) = spread_rules (replicas_of next v).
Proof.
  unfold nat_body, append at 1. rewrite rules_of_app, rules_of_other, rules_of_flat by done. cbn [app].
  rewrite (map_ext _ (fun x => if String.eqb v x then spread_rules (replicas_of next x) else [])).
  2: { intros x. rewrite vip_lines_rules. change (String.eqb Chain (vipChain v)) with false. cbv iota. destruct (String.eqb_spec v x) as [->|Hne]; [by rewrite String.eqb_refl|].
    rewrite (proj2 (String.eqb_neq _ _)); [done|]. by intros E%vipChain_inj. }
  destruct (decide (v ∈ keys_of next)) as [Hv|Hv].
  - by apply (concat_only (fun x => spread_rules (replicas_of next x))); [apply NoDup_keys|].
  - rewrite elem_of_keys, <-eq_None_not_Some in Hv. unfold replicas_of at 2. rewrite Hv. apply concat_nils.
    intros x Hx. destruct (String.eqb_spec v x) as [->|]; [|done]. unfold replicas_of. by rewrite Hv.
Qed.

Lemma meshOn_range b : meshOn b = true -> PrefixValid (Range b) = true.
Proof. unfold meshOn. intros H. by bsimpl. Qed.

Lemma meshOn_cluster b : meshOn b = true -> PrefixValid (Cluster b) = true.
Proof. unfold meshOn. intros H. by bsimpl. Qed.

Lemma nat_body_rules prev next b : Forall (rule_in (nat_chains prev next b)) (nat_body next b).
Proof.
  unfold nat_body. apply Forall_app; split.
  - unfold nat_rules, append. destruct (meshOn b) eqn:E; [|done]. apply Forall_singleton. eexists NATChain, _.
    split; [done|]. split; [unfold nat_chains; rewrite meshOn_range by done; set_solver|].
    intros t [= <-]. unfold builtin. set_solver.
  - apply Forall_concat, Forall_fmap, Forall_forall. intros v Hv. simpl.
    assert (vipChain v ∈ nat_chains prev next b) as Hvc.
    { unfold nat_chains. apply elem_of_app. right. apply elem_of_app. right. apply list_elem_of_fmap. exists v. set_solver. }
    apply Forall_cons; split.
    + exists Chain, (vip_jump v). split; [done|]. split; [unfold nat_chains; set_solver|]. intros t [= <-].
      apply elem_of_app. by right.
    + apply Forall_fmap, Forall_forall. intros r Hr. exists (vipChain v), r. split; [done|].
      split; [done|]. intros t Ht. rewrite (spread_jumps _ _ Hr) in Ht. injection Ht as <-. unfold builtin. set_solver.
Qed.

(** What the body jumps to among the VIPs' chains: only from [Chain], only to
    a VIP of [next]. *)
Lemma nat_body_jumps next b c r v : "-A" :: c :: r ∈ nat_body next b -> jump_of r = Some (vipChain v) ->
  c = Chain /\ v ∈ keys_of next.
Proof.
  unfold nat_body. rewrite elem_of_app. intros [Hin|Hin] Hj.
  - unfold append, nat_rules in Hin. destruct (meshOn b); [|set_solver].
    apply list_elem_of_singleton in Hin as [= -> ->]. done.
  - apply list_elem_of_In, in_concat in Hin as (ls & Hls & Hin). apply list_elem_of_In, list_elem_of_fmap in Hls as (w & -> & Hw).
    apply list_elem_of_In, elem_of_cons in Hin as [[= -> ->]|Hin].
    + apply (inj Some), vipChain_inj in Hj as ->. done.
    + apply list_elem_of_fmap in Hin as (r' & [= -> ->] & Hr'). by rewrite (spread_jumps _ _ Hr') in Hj.
Qed.

Lemma raw_rules_in b : Forall (rule_in [RawChain]) (append RawChain (raw_rules b)).
Proof.
  unfold raw_rules, append. destruct (meshOn b); [|done]. apply Forall_fmap, Forall_fmap, Forall_forall. intros s _.
  exists RawChain. eexists. split; [done|]. split; [set_solver|]. intros t [= <-]. unfold builtin. set_solver.
Qed.

(** ** One script, any kernel *)

Section Installs.
Context (prev next : gmap string Entry) (b : Base) (K : chains).
Context (Htidy : tidy K).
Context (Hck : PrefixValid (Range b) = true -> checked next b).
Context (Hfl : WGIface b = "" -> Forall (fun fl => f_Out fl = true) (Flows b)).

(** The nat table's section. *)
Lemma nat_installs : exists K1,
  restore_lines (restoring K) (section "nat" (nat_chains prev next b) (nat_body next b) (map vipChain (gone prev next))) =
    Some (restoring K1) /\
  forall k, K1 !! k = if bool_decide (k.1 = "nat" /\ k.2 ∈ map vipChain (gone prev next)) then None
    else if bool_decide (k.1 = "nat" /\ k.2 ∈ nat_chains prev next b) then Some (rules_of k.2 (nat_body next b)) else K !! k.
Proof.
  apply restore_section.
  - apply nat_body_rules.
  - apply NoDup_fmap; [|apply NoDup_gone]. intros x y. apply vipChain_inj.
  - intros g Hg. unfold nat_chains. apply list_elem_of_fmap in Hg as (v & -> & Hv). apply elem_of_app. right.
    apply elem_of_app. right. apply list_elem_of_fmap. exists v. set_solver.
  - intros g (v & -> & Hv)%list_elem_of_fmap. apply elem_of_gone in Hv as [_ Hn]. split_and!.
    + rewrite nat_body_vip. unfold replicas_of. by rewrite Hn.
    + intros c r Hin Hj. apply (nat_body_jumps _ _ _ _ _ Hin) in Hj as [_ Hv%elem_of_keys]. rewrite Hn in Hv. by destruct Hv.
    + intros c rs r Hc Hl Hr Hj. apply Hc. rewrite (Htidy c rs r v Hl Hr Hj). unfold nat_chains. set_solver.
Qed.

Lemma filter_body_rules c : rules_of c (filter_body next b) = rules next b c.
Proof. unfold rules. by rewrite renderFilter_section, rules_of_section. Qed.

(** The chains of stackr's in each table. *)
Definition ours (k : string * string) : Prop :=
  (k.1 = "nat" /\ k.2 ∈ nat_chains prev next b) \/
  (PrefixValid (Range b) = true /\ ((k.1 = "raw" /\ k.2 = RawChain) \/ (k.1 = "filter" /\ k.2 ∈ filter_chains))).

Lemma bd_same (t : string) P `{Decision P} : bool_decide (t = t /\ P) = bool_decide P.
Proof. apply bool_decide_ext. naive_solver. Qed.

Lemma script_runs : exists K',
  restore_lines (restoring K) (Render prev next b) = Some (restoring K') /\
  (forall c, K' !! ("nat", c) = if bool_decide (c ∈ map vipChain (gone prev next)) then None
    else if bool_decide (c ∈ nat_chains prev next b) then Some (rules_of c (nat_body next b)) else K !! ("nat", c)) /\
  (PrefixValid (Range b) = true -> K' !! ("raw", RawChain) = Some (raw_rules b) /\
    forall c, c ∈ filter_chains -> K' !! ("filter", c) = Some (rules next b c)) /\
  (forall k, ~ ours k -> K' !! k = K !! k).
Proof.
  destruct nat_installs as (K1 & E1 & H1). unfold Render. rewrite restore_lines_app, E1. unfold ours.
  destruct (decide (PrefixValid (Range b) = true)) as [Er|Er].
  - destruct (plain_section K1 "raw" _ _ (raw_rules_in b)) as (K2 & E2 & H2).
    destruct (plain_section K2 "filter" _ _ (filter_rules next b (Hck Er) Hfl)) as (K3 & E3 & H3).
    rewrite Er, restore_lines_app, E2, renderFilter_section, E3. exists K3. split; [done|]. split_and!.
    + intros c. rewrite H3, bool_decide_false, H2, bool_decide_false, H1 by (by intros [? _]).
      cbn [fst snd]. by rewrite !bd_same.
    + intros _. split.
      * rewrite H3, bool_decide_false, H2, bool_decide_true by (by repeat constructor || by intros [? _]). simpl.
        by unfold append; rewrite rules_of_self.
      * intros c Hc. rewrite H3, bool_decide_true by done. f_equal. apply filter_body_rules.
    + intros k Hk. rewrite H3, bool_decide_false, H2, bool_decide_false, H1 by set_solver.
      rewrite !bool_decide_false; [done|set_solver|]. intros [Hn Hg]. apply Hk. left. split; [done|].
      unfold nat_chains. apply elem_of_app. right. apply elem_of_app. right. revert Hg. rewrite !list_elem_of_fmap. set_solver.
  - assert (PrefixValid (Range b) = false) as -> by (by destruct (PrefixValid (Range b))). exists K1. split; [done|]. split_and!; [|done|].
    + intros c. rewrite H1. cbn [fst snd]. by rewrite !bd_same.
    + intros k Hk. rewrite H1, !bool_decide_false; [done|set_solver|]. intros [Hn Hg]. apply Hk. left. split; [done|].
      unfold nat_chains. apply elem_of_app. right. apply elem_of_app. right. revert Hg. rewrite !list_elem_of_fmap. set_solver.
Qed.

Lemma chain_in_nat v : v ∈ keys_of next -> vipChain v ∈ nat_chains prev next b /\ vipChain v ∉ map vipChain (gone prev next).
Proof.
  intros Hv. split.
  - unfold nat_chains. apply elem_of_app. right. apply elem_of_app. right. apply list_elem_of_fmap. exists v. set_solver.
  - intros (w & <-%vipChain_inj & Hw)%list_elem_of_fmap. apply elem_of_gone in Hw as [_ Hn].
    apply elem_of_keys in Hv as [e He]. congruence.
Qed.

Lemma not_vip c l : (forall v, c <> vipChain v) -> c ∉ map vipChain l.
Proof. intros Hc (v & -> & _)%list_elem_of_fmap. by destruct (Hc v). Qed.

(** The script runs on any tidy kernel, whatever it held, and leaves the
    rules of [next]; the chains of VIPs that went are deleted, nothing else is
    touched. *)
Lemma script_installs : exists K',
  restore_lines (restoring K) (Render prev next b) = Some (restoring K') /\ holds next b K' /\ tidy K' /\
  (forall v, v ∈ gone prev next -> K' !! ("nat", vipChain v) = None) /\ (forall k, ~ ours k -> K' !! k = K !! k).
Proof.
  destruct script_runs as (K' & E & Hnat & Hrange & Hrest). exists K'. split; [done|].
  assert (K' !! ("nat", Chain) = Some (map vip_jump (keys_of next))) as Hch.
  { rewrite Hnat, bool_decide_false, bool_decide_true, nat_body_Chain; [done| |by apply not_vip].
    unfold nat_chains. set_solver. }
  split; [split|split; [|split]].
  - done.
  - intros v e Hv. destruct (chain_in_nat v) as [H1 H2]; [by apply elem_of_keys; exists e|].
    rewrite Hnat, bool_decide_false, bool_decide_true, nat_body_vip by done. unfold replicas_of. by rewrite Hv.
  - intros Hr. rewrite Hnat, bool_decide_false, bool_decide_true, nat_body_NAT; [done| |by apply not_vip].
    unfold nat_chains. rewrite Hr. set_solver.
  - intros Hr. by apply Hrange.
  - intros c Hr Hc. by apply Hrange.
  - intros c rs r v Hl Hr Hj. rewrite Hnat in Hl. destruct (bool_decide (c ∈ map _ _)); [done|].
    destruct (bool_decide (c ∈ nat_chains prev next b)); [|by eapply Htidy].
    injection Hl as <-. apply rules_of_in in Hr. by apply (nat_body_jumps _ _ _ _ _ Hr) in Hj as [? _].
  - intros v Hv. rewrite Hnat, bool_decide_true; [done|]. apply list_elem_of_fmap. by exists v.
  - done.
Qed.
End Installs.

(** A script that stops early leaves a tidy kernel too. *)
Definition tidy_line (l : line) : Prop := forall c r v, l = "-A" :: c :: r -> jump_of r = Some (vipChain v) -> c = Chain.

Lemma tidy_step st l st' : tidy_line l -> tidy (r_done st) /\ tidy (r_work st) -> restore_line st l = Some st' ->
  tidy (r_done st') /\ tidy (r_work st').
Proof.
  intros Hl [Hd Hw] [t| |c|c r rs Hlr Hrs|c]%restore_line_effect; simpl; try done; (split; [done|]);
  intros c' rs' r' v Hl' Hr' Hj.
  - apply lookup_insert_Some in Hl' as [[_ <-]|[_ Hl']]; [by set_solver|by eapply Hw].
  - apply lookup_insert_Some in Hl' as [[[= Ht <-] <-]|[_ Hl']]; [|by eapply Hw]. rewrite Ht in Hrs.
    apply elem_of_app in Hr' as [Hr'|Hr'%list_elem_of_singleton]; [by eapply Hw|subst r'; by eapply Hl].
  - apply lookup_delete_Some in Hl' as [_ Hl']. by eapply Hw.
Qed.

Lemma tidy_lines ls st st' : Forall tidy_line ls -> tidy (r_done st) /\ tidy (r_work st) ->
  restore_lines st ls = Some st' -> tidy (r_done st').
Proof.
  intros HF. revert st. induction HF as [|l ls Hl _ IH]; intros st Ht; simpl; [by intros [= <-]; destruct Ht|].
  destruct (restore_line st l) as [st1|] eqn:E; [|done]. apply IH. by eapply tidy_step.
Qed.

(** A section whose jumps to VIPs' chains are all from [Chain]. *)
Lemma tidy_section t cs ls gs : Forall tidy_line ls -> Forall tidy_line (section t cs ls gs).
Proof.
  intros HF. assert (forall x xs, x <> "-A" -> tidy_line (x :: xs)) as Hx by (intros x xs Hx c r v [= -> _]; done).
  unfold section. repeat (apply Forall_app; split);
  [by apply Forall_singleton, Hx|apply Forall_line; intros x _; by apply Hx|done|apply Forall_line; intros x _; by apply Hx|
   by apply Forall_singleton, Hx].
Qed.

Lemma tidy_rules cs ls : (forall v, vipChain v ∉ cs) -> Forall (rule_in cs) ls -> Forall tidy_line ls.
Proof.
  intros Hcs HF. eapply Forall_impl; [exact HF|]. intros l (c & r & -> & _ & Hj) c' r' v [= <- <-] E.
  apply Hj, elem_of_app in E as [E|E]; [|by apply Hcs in E]. unfold builtin in E. set_solver.
Qed.

Lemma tidy_Render prev next b : (PrefixValid (Range b) = true -> checked next b) ->
  (WGIface b = "" -> Forall (fun fl => f_Out fl = true) (Flows b)) -> Forall tidy_line (Render prev next b).
Proof.
  intros Hck Hfl. unfold Render. apply Forall_app; split.
  - apply tidy_section, Forall_forall. intros l Hl c r v -> Hj. by apply (nat_body_jumps _ _ _ _ _ Hl) in Hj as [-> _].
  - destruct (PrefixValid (Range b)) eqn:Er; [|done]. apply Forall_app; split.
    + apply tidy_section, (tidy_rules [RawChain]); [set_solver|apply raw_rules_in].
    + rewrite renderFilter_section. apply tidy_section, (tidy_rules filter_chains); [unfold filter_chains; set_solver|].
      apply filter_rules; auto.
Qed.

(** The Go test's script. *)
Example Render_test : map (join " ") (Render
    (<["10.0.0.9" := MkEntry ["10.0.0.3"] []]> (<["10.0.0.5" := MkEntry ["10.0.0.3"] []]> ∅))
    (<["10.0.0.5" := MkEntry ["10.0.0.6"; "10.0.0.7"; "10.0.0.8"] []]> (<["10.0.1.2" := MkEntry ["10.0.1.3"] []]> ∅))
    no_base) = [
  "*nat";
  ":STACKR-VIP - [0:0]";
  ":STKR-10.0.0.5 - [0:0]";
  ":STKR-10.0.1.2 - [0:0]";
  ":STKR-10.0.0.9 - [0:0]";
  "-A STACKR-VIP -d 10.0.0.5/32 -j STKR-10.0.0.5";
  "-A STKR-10.0.0.5 -m statistic --mode random --probability 0.33333 -j DNAT --to-destination 10.0.0.6";
  "-A STKR-10.0.0.5 -m statistic --mode random --probability 0.50000 -j DNAT --to-destination 10.0.0.7";
  "-A STKR-10.0.0.5 -j DNAT --to-destination 10.0.0.8";
  "-A STACKR-VIP -d 10.0.1.2/32 -j STKR-10.0.1.2";
  "-A STKR-10.0.1.2 -j DNAT --to-destination 10.0.1.3";
  "-X STKR-10.0.0.9";
  "COMMIT"].
Proof. vm_compute. reflexivity. Qed.

(** ** The printed probability *)

Lemma round_even_near a b : 0 < b -> Z.abs (2 * (round_even a b * b - a)) <= b.
Proof.
  intros Hb. unfold round_even. pose proof (Z.div_mod a b ltac:(lia)). pose proof (Z.mod_pos_bound a b Hb).
  destruct (Z.ltb_spec (2 * (a mod b)) b); [nia|]. destruct (Z.ltb_spec b (2 * (a mod b))); [nia|].
  destruct (Z.even (a / b)); nia.
Qed.

Lemma recip_exp_big n : 1 <= n -> 0 < 2 ^ recip_exp n /\ n * 2 ^ 52 <= 2 ^ recip_exp n.
Proof.
  intros Hn. unfold recip_exp. pose proof (Z.log2_up_nonneg n). split; [apply Z.pow_pos_nonneg; lia|].
  rewrite Z.pow_add_r by lia. assert (n <= 2 ^ Z.log2_up n); [|nia].
  destruct (Z.eq_dec n 1) as [->|]; [done|]. apply Z.log2_up_spec. lia.
Qed.

(** Two roundings cost no more than the last one. *)
Lemma prob5_near n : 1 <= n -> 2 * Z.abs (prob5 n * n - 100000) <= n.
Proof.
  intros Hn. destruct (recip_exp_big n Hn) as [Hk Hkn]. unfold prob5.
  pose proof (round_even_near (2 ^ recip_exp n) n ltac:(lia)) as Hm. fold (recip n) in Hm.
  pose proof (round_even_near (recip n * 100000) (2 ^ recip_exp n) Hk) as Hv.
  set (v := round_even _ _) in *. set (m := recip n) in *. set (K := 2 ^ recip_exp n) in *. clearbody v m K.
  assert (2 * K * (v * n - 100000) = n * (2 * (v * K - m * 100000)) + 100000 * (2 * (m * n - K))) as E by ring.
  assert (Z.abs (2 * K * (v * n - 100000)) <= n * K + 100000 * n) as H.
  { rewrite E. etransitivity; [apply Z.abs_triangle|]. rewrite !(Z.abs_mul n), (Z.abs_mul 100000), (Z.abs_eq n) by lia.
    change (Z.abs 100000) with 100000. nia. }
  rewrite Z.abs_mul, (Z.abs_eq (2 * K)) in H by lia. change (2 ^ 52) with 4503599627370496 in Hkn. nia.
Qed.

Lemma prob5_range n : 1 <= n -> 0 <= prob5 n <= 100000.
Proof.
  intros Hn. pose proof (prob5_near n Hn). split.
  - destruct (Z.le_gt_cases 0 (prob5 n)); [done|]. nia.
  - destruct (Z.le_gt_cases (prob5 n) 100000); [done|]. nia.
Qed.

(** ** The script's text *)

Lemma solid_app i s t : solid_for "" s = true -> solid_for "" t = true -> solid_for i (s +:+ t) = true.
Proof.
  intros Hs Ht. pose proof (solid_quote _ _ Hs eq_refl) as Q1. pose proof (solid_quote _ _ Ht eq_refl) as Q2.
  apply solid_inv in Hs as (Hs & H1 & H2 & H3), Ht as (_ & H4 & H5 & H6). unfold solid_for.
  rewrite !has_byte_app, H1, H2, H3, H4, H5, H6, Q1, Q2. rewrite (proj2 (String.eqb_neq _ _)); [done|]. by destruct s.
Qed.

Lemma solid_chain i v : is_v4 v = true -> solid_for i (vipChain v) = true.
Proof. intros Hv. apply solid_app; [done|by apply solid_v4]. Qed.

Lemma solid_digits i s : all_bytes is_digit s = true -> s <> "" -> solid_for i s = true.
Proof. intros Hs Hne. apply solid_net; [by apply digits_netchars|done]. Qed.

Lemma digit_is_digit n : 0 <= n < 10 -> is_digit (digit n) = true.
Proof.
  intros Hn. apply byte_in_spec. unfold code, digit. rewrite nat_ascii_embedding by lia.
  change (Z.of_nat (nat_of_ascii "0")) with 48. change (Z.of_nat (nat_of_ascii "9")) with 57. lia.
Qed.

Lemma solid_pad5 i n : solid_for i (pad5 n) = true.
Proof.
  apply solid_digits; [|done]. unfold pad5. cbn [map string_of_list_ascii all_bytes].
  by rewrite !digit_is_digit by (apply Z.mod_pos_bound; lia).
Qed.

Section Text.
Context (i : string).
#[local] Abbreviation solid := (solid_for i).
#[local] Abbreviation line_ok := (line_for i).

Lemma spread_lines ips : (forall r, r ∈ ips -> is_v4 r = true) -> Forall line_ok (spread_rules ips).
Proof.
  intros Hips. induction ips as [|ip ips IH]; [done|]. pose proof (solid_v4 i ip (Hips ip ltac:(set_solver))) as Hip.
  destruct ips as [|ip2 rest]; [apply Forall_singleton; line_words|]. cbn [spread_rules]. apply Forall_cons; split.
  - assert (solid (prob_text (Z.of_nat (length (ip :: ip2 :: rest)))) = true); [|line_words].
    destruct (prob5_range (Z.of_nat (length (ip :: ip2 :: rest))) ltac:(simpl; lia)). unfold prob_text.
    apply solid_app; [|apply solid_app; [done|apply solid_pad5]]. apply solid_itoa.
    split; [by apply Z.div_pos|]. eapply Z.le_lt_trans; [apply Z.div_le_mono; [|done]; lia|done].
  - apply IH. intros r Hr. apply Hips. set_solver.
Qed.

Lemma prefixed c ls : solid c = true -> Forall line_ok ls -> Forall line_ok (append c ls).
Proof.
  intros Hc HF. apply Forall_fmap. eapply Forall_impl; [exact HF|]. intros r [_ Hr]. split; [done|].
  by repeat (apply Forall_cons; split).
Qed.

Lemma section_lines t cs ls gs : (t = "nat" \/ t = "raw") -> Forall (fun w => solid_for "" w = true) cs -> Forall line_ok ls ->
  Forall (fun w => solid_for "" w = true) gs -> Forall line_ok (section t cs ls gs).
Proof.
  intros Ht Hcs Hls Hgs. unfold section. repeat (apply Forall_app; split).
  - apply Forall_singleton. by destruct Ht as [->| ->]; line_words.
  - apply Forall_fmap. eapply Forall_impl; [exact Hcs|]. intros c Hc. assert (solid (":" +:+ c) = true) by (by apply solid_app).
    line_words.
  - done.
  - apply Forall_fmap. eapply Forall_impl; [exact Hgs|]. intros c Hc. apply (solid_any i) in Hc. line_words.
  - apply Forall_singleton. line_words.
Qed.
End Text.

(** C31. No address, name, port or grant of the inputs adds a word or a line:
    the text fed to [iptables-restore], taken apart as it takes it apart at
    blanks, tabs, lines and quote marks, is the rules that were meant.  The
    name of the mesh's interface must hold no quote mark, which the checks do
    not refuse. *)
Theorem Render_text prev next b : (forall v, v ∈ keys_of prev -> is_v4 v = true) ->
  (forall v e, next !! v = Some e -> is_v4 v = true /\ Forall (fun r => is_v4 r = true) (Replicas e)) ->
  (PrefixValid (Range b) = true -> checked next b /\ prefix4 (Range b)) ->
  (WGIface b = "" -> Forall (fun fl => f_Out fl = true) (Flows b)) ->
  has_byte quote_mark (WGIface b) = false ->
  restore_read (script_text (Render prev next b)) = Render prev next b.
Proof.
  intros Hprev Hnext Hck Hfl Hq. apply (restore_read_text (WGIface b)); [|done]. unfold Render. apply Forall_app; split.
  - assert (forall v, v ∈ keys_of next -> is_v4 v = true) as Hn by (intros v [e He]%elem_of_keys; by apply (Hnext v e)).
    apply section_lines; [by left| | |].
    + unfold nat_chains. apply Forall_app; split; [by repeat constructor|]. apply Forall_app; split.
      { destruct (PrefixValid _); by repeat constructor. }
      apply Forall_fmap, Forall_forall. intros v Hv. apply solid_chain. apply elem_of_app in Hv as [Hv|Hv]; [by apply Hn|].
      apply Hprev, elem_of_keys. by apply elem_of_gone in Hv as [Hv _].
    + unfold nat_body. apply Forall_app; split.
      * apply prefixed; [done|]. unfold nat_rules. destruct (meshOn b) eqn:Em; [|done]. apply Forall_singleton.
        destruct (Hck (meshOn_range b Em)) as [Hc _]. pose proof (iface_word _ _ Hc (mesh_iface b Em)).
        pose proof (solid_masked (WGIface b) _ (ck_cluster _ _ Hc (meshOn_cluster b Em))). line_words.
      * apply Forall_flat. intros v Hv. apply Forall_cons; split.
        { pose proof (solid_host (WGIface b) v (Hn v Hv)). pose proof (solid_chain (WGIface b) v (Hn v Hv)). line_words. }
        apply prefixed; [by apply solid_chain, Hn|]. apply spread_lines. intros r. unfold replicas_of.
        destruct (next !! v) as [e|] eqn:Ev; [|set_solver]. destruct (Hnext v e Ev) as [_ HF].
        by apply (proj1 (Forall_forall _ _) HF).
    + apply Forall_fmap, Forall_forall. intros v Hv. apply solid_chain, Hprev, elem_of_keys. by apply elem_of_gone in Hv as [Hv _].
  - destruct (PrefixValid (Range b)); [|done]. destruct (Hck eq_refl) as [Hc Hr]. apply Forall_app; split; [|by apply filter_lines].
    apply section_lines; [by right|by repeat constructor| |done]. apply prefixed; [done|]. unfold raw_rules.
    destruct (meshOn b) eqn:Em; [|done]. pose proof (iface_word _ _ Hc (mesh_iface b Em)). pose proof (solid_masked (WGIface b) _ Hr).
    apply Forall_line. intros s Hs. pose proof (word_in _ _ _ (cluster_words _ _ Hc) Hs). line_words.
Qed.

(** The tests' node, from an older table. *)
Lemma Render_text_witness :
  restore_read (script_text (Render {["10.213.9.2" := MkEntry [] []]} testVIPs testBase)) =
    Render {["10.213.9.2" := MkEntry [] []]} testVIPs testBase /\
  ["-X"; "STKR-10.213.9.2"] ∈ restore_read (script_text (Render {["10.213.9.2" := MkEntry [] []]} testVIPs testBase)).
Proof.
  rewrite (Render_text {["10.213.9.2" := MkEntry [] []]} testVIPs testBase).
  - split; [reflexivity|]. apply (bool_decide_eq_true_1 _). vm_compute. reflexivity.
  - intros v Hv. change (keys_of {["10.213.9.2" := MkEntry [] []]}) with ["10.213.9.2"] in Hv.
    apply list_elem_of_singleton in Hv as ->. reflexivity.
  - intros v e Hv. split; [apply (ck_vips _ _ testBase_checked v e Hv)|apply (ck_reps _ _ testBase_checked v e Hv)].
  - intros _. split; [exact testBase_checked|by apply prefix4b_ok].
  - intros _. apply List.Forall_nil.
  - reflexivity.
Defined.
