(* ===== verification/VipShares.v ===== *)
(** * The share each replica gets of a virtual IP's connections

    A VIP's rules are tried in order, each taking its printed probability of
    the connections that reach it. *)
From S2P Require Import Prelude GoStrings Errs Netip Iptables Mesh VipFilter VipScript Vip.
From Stdlib Require Import QArith Qabs Lqa.

Local Open Scope Z_scope.

(** ** Reading the rules *)

(** A decimal number, as a fraction. *)
Definition read_prob (s : string) : option Q :=
  match cut "." s with
  | Some (i, f) =>
      match dec_acc i 0, dec_acc f 0 with
      | Some a, Some b => let d := 10 ^ slen f in Some ((a * d + b) # Z.to_pos d)
      | _, _ => None
      end
  | None => None
  end.

Definition dnat_to (r : line) : option string :=
  match strip_args ["-j"; "DNAT"; "--to-destination"] r with Some [ip] => Some ip | _ => None end.

(** Where connections go, and what share of [left] each place gets. *)
Fixpoint spread (left : Q) (rules : list line) : list (string * Q) :=
  match rules with
  | [] => []
  | r :: rules =>
      match strip_args ["-m"; "statistic"; "--mode"; "random"; "--probability"] r with
      | Some (x :: r) =>
          match read_prob x, dnat_to r with
          | Some p, Some ip => (ip, (left * p)%Q) :: spread (left * (1 - p))%Q rules
          | _, _ => spread left rules
          end
      | _ =>
          match dnat_to r with
          | Some ip => [(ip, left)]
          | None => spread left rules
          end
      end
  end.

(** ** The printed probability *)

Lemma read_pad5 x acc : 0 <= x < 100000 -> dec_acc (pad5 x) acc = Some (acc * 100000 + x).
Proof.
  intros Hx. unfold pad5. cbn [map string_of_list_ascii].
  rewrite !dec_acc_digit by (apply Z.mod_pos_bound; lia). cbn [dec_acc]. f_equal.
  rewrite Z.div_1_r. Z.to_euclidean_division_equations. lia.
Qed.

Lemma read_prob_text n : 1 <= n -> read_prob (prob_text n) = Some (prob5 n # 100000).
Proof.
  intros Hn. pose proof (prob5_range n Hn) as Hr. unfold read_prob, prob_text. set (v := prob5 n) in *. clearbody v.
  assert (0 <= v / 100000 < 2) as Hq by (Z.to_euclidean_division_equations; lia).
  pose proof (Z.mod_pos_bound v 100000 ltac:(lia)) as Hm.
  change (itoa (v / 100000) +:+ "." +:+ pad5 (v mod 100000)) with (itoa (v / 100000) +:+ String "." (pad5 (v mod 100000))).
  rewrite cut_no by (apply (has_byte_all is_digit); [apply itoa_digits; lia|done]).
  rewrite dec_acc_itoa, read_pad5 by lia. change (slen (pad5 (v mod 100000))) with 5. simpl.
  do 2 f_equal. pose proof (Z.div_mod v 100000 ltac:(lia)). lia.
Qed.

(** ** Shares *)

Local Open Scope Q_scope.

(** Half a hundred-thousandth: what printing costs a probability. *)
Definition tick : Q := 1 # 200000.
Definition within (e x y : Q) : Prop := - e <= x - y /\ x - y <= e.
Definition sum (l : list Q) : Q := foldr Qplus 0 l.

Lemma prob_within n : (1 <= n)%Z -> 0 <= (prob5 n # 100000) /\ (prob5 n # 100000) <= 1 /\
  within (inject_Z n * tick) (inject_Z n * (prob5 n # 100000)) 1.
Proof.
  intros Hn. pose proof (prob5_near n Hn). pose proof (prob5_range n Hn). unfold within, tick, inject_Z, Qle, Qminus, Qplus, Qmult, Qopp.
  simpl. lia.
Qed.

Lemma spread_cons left ip ip2 rest :
  spread left (spread_rules (ip :: ip2 :: rest)) =
  let p := prob5 (Z.of_nat (length (ip :: ip2 :: rest))) # 100000 in
  (ip, left * p) :: spread (left * (1 - p)) (spread_rules (ip2 :: rest)).
Proof.
  cbn [spread_rules spread].
  change (strip_args ["-m"; "statistic"; "--mode"; "random"; "--probability"] _) with
    (Some [prob_text (Z.of_nat (length (ip :: ip2 :: rest))); "-j"; "DNAT"; "--to-destination"; ip]). cbv iota.
  rewrite read_prob_text by (simpl; lia). done.
Qed.

(** One step of the error's growth. *)
Lemma share_step (n m : Z) left p E : (1 <= m <= n)%Z -> 0 <= p <= 1 -> 0 <= E ->
  within (inject_Z m * tick) (inject_Z m * p) 1 -> within E (left * inject_Z n) (inject_Z m) ->
  within (E + inject_Z n * tick) (left * p * inject_Z n) 1 /\
  within (E + inject_Z n * tick) (left * (1 - p) * inject_Z n) (inject_Z (m - 1)).
Proof.
  intros Hm Hp HE [H1 H2] [H3 H4]. unfold within in *.
  assert (inject_Z m <= inject_Z n) as Hmn by (rewrite <-Zle_Qle; lia).
  assert (0 <= tick) as Ht by (unfold tick; lra).
  assert (inject_Z (m - 1) == inject_Z m - 1) as -> by (unfold Z.sub; by rewrite inject_Z_plus).
  set (l := left * inject_Z n) in *. set (M := inject_Z m) in *. set (N := inject_Z n) in *.
  assert (left * p * N == l * p) as -> by (unfold l; ring). assert (left * (1 - p) * N == l * (1 - p)) as -> by (unfold l; ring).
  assert (M * tick <= N * tick) as Hmt by nra.
  assert (- E <= (l - M) * p <= E) by nra. assert (- E <= (l - M) * (1 - p) <= E) by nra.
  repeat split; nra.
Qed.

Lemma spread_sum ips left : ips <> [] -> sum (map snd (spread left (spread_rules ips))) == left.
Proof.
  revert left. induction ips as [|ip ips IH]; intros left Hne; [done|]. destruct ips as [|ip2 rest]; [simpl; lra|].
  rewrite spread_cons. cbn [map snd sum foldr]. fold (sum (map snd (spread (left * (1 - (prob5 (Z.of_nat (length (ip :: ip2 :: rest))) # 100000))) (spread_rules (ip2 :: rest))))).
  rewrite IH by done. lra.
Qed.

Lemma spread_places ips left : map fst (spread left (spread_rules ips)) = ips.
Proof.
  revert left. induction ips as [|ip ips IH]; intros left; [done|]. destruct ips as [|ip2 rest]; [done|].
  rewrite spread_cons. cbn [map fst]. by rewrite IH.
Qed.

Lemma spread_shares (n : Z) ips left E : (Z.of_nat (length ips) <= n)%Z -> 0 <= E ->
  within E (left * inject_Z n) (inject_Z (Z.of_nat (length ips))) ->
  Forall (fun s => within (E + inject_Z (Z.of_nat (length ips)) * (inject_Z n * tick)) (s * inject_Z n) 1)
    (map snd (spread left (spread_rules ips))).
Proof.
  revert left E. induction ips as [|ip ips IH]; intros left E Hn HE Hw; [apply Forall_nil_2|].
  assert (0 <= inject_Z n * tick) as Ht.
  { unfold tick. assert (0 <= inject_Z n); [|lra]. change 0 with (inject_Z 0). rewrite <-Zle_Qle. simpl in Hn. lia. }
  destruct ips as [|ip2 rest].
  - apply Forall_cons_2; [|apply Forall_nil_2]. change (inject_Z (Z.of_nat (length [ip]))) with 1 in *.
    unfold within in *. cbn [snd]. lra.
  - rewrite spread_cons. set (m := Z.of_nat (length (ip :: ip2 :: rest))) in *. set (p := prob5 m # 100000).
    destruct (prob_within m) as (Hp0 & Hp1 & Hp); [unfold m; simpl; lia|]. fold p in Hp0, Hp1, Hp. cbn [map snd].
    destruct (share_step n m left p E) as [Hs Hl]; [unfold m in *; simpl in *; lia|done..|].
    assert (inject_Z m == inject_Z (Z.of_nat (length (ip2 :: rest))) + 1) as Em.
    { unfold m. cbn [length]. rewrite Nat2Z.inj_succ. unfold Z.succ. by rewrite inject_Z_plus. }
    assert (0 <= inject_Z (Z.of_nat (length (ip2 :: rest)))) as Hlen by (change 0 with (inject_Z 0); rewrite <-Zle_Qle; lia).
    apply Forall_cons_2.
    + destruct Hs. split; nra.
    + assert (m - 1 = Z.of_nat (length (ip2 :: rest)))%Z as E1 by (unfold m; simpl; lia). rewrite E1 in Hl.
      eapply Forall_impl; [apply (IH _ (E + inject_Z n * tick)); [simpl in *; lia|lra|exact Hl]|].
      intros s [H1 H2]. split; nra.
Qed.

(** Replicas share a VIP's connections evenly and lose none: every replica
    is a place connections go, in the table's order, the shares add up to one,
    and each of [n] is within [n] half-hundred-thousandths of [1/n], although
    the script prints every probability to five decimals of a double. *)
Theorem VIP_shares next b v e : next !! v = Some e -> Replicas e <> [] ->
  let n := inject_Z (Z.of_nat (length (Replicas e))) in
  let shares := spread 1 (rules_of (vipChain v) (nat_body next b)) in
  map fst shares = Replicas e /\ sum (map snd shares) == 1 /\
  Forall (fun s => Qabs (s - 1 / n) <= n * (1 # 200000)) (map snd shares).
Proof.
  intros Hv Hne n shares. unfold shares. rewrite nat_body_vip. unfold replicas_of. rewrite Hv.
  split; [apply spread_places|]. split; [by apply spread_sum|].
  assert (0 < n) as Hn.
  { unfold n. change 0 with (inject_Z 0). rewrite <-Zlt_Qlt. destruct (Replicas e); [done|simpl; lia]. }
  eapply Forall_impl; [apply (spread_shares (Z.of_nat (length (Replicas e))) _ 1 0)|].
  - lia.
  - lra.
  - fold n. unfold within. lra.
  - fold n. intros s [H1 H2]. apply Qabs_Qle_condition. fold tick. set (t := n * tick) in *.
    assert (s - 1 / n == (s * n - 1) / n) as -> by (field; lra). split.
    + apply Qle_shift_div_l; [done|]. nra.
    + apply Qle_shift_div_r; [done|]. nra.
Qed.

(** Seven replicas. *)
Lemma VIP_shares_witness :
  let next := <["10.0.0.5" := MkEntry ["10.0.0.6"; "10.0.0.7"; "10.0.0.8"; "10.0.0.9"; "10.0.0.10"; "10.0.0.11"; "10.0.0.12"] []]> ∅ in
  let shares := spread 1 (rules_of (vipChain "10.0.0.5") (nat_body next no_base)) in
  sum (map snd shares) == 1 /\ Forall (fun s => Qabs (s - 1 / 7) <= 7 * (1 # 200000)) (map snd shares).
Proof.
  intros next shares. apply (VIP_shares next no_base "10.0.0.5" (MkEntry ["10.0.0.6"; "10.0.0.7"; "10.0.0.8"; "10.0.0.9"; "10.0.0.10"; "10.0.0.11"; "10.0.0.12"] [])).
  - reflexivity.
  - done.
Defined.
