(* ===== verification/VipNode.v ===== *)
(** * The table of virtual IPs and its node

    [Table]'s operations against a node's rules: whatever failed before, an
    operation that succeeds leaves the node enforcing the table. *)
From S2P Require Import Prelude GoStrings Errs Netip Iptables Mesh VipFilter VipScript Vip.

(** ** What a call does to a node *)

Lemma chosen_early next e ip ls : still_early next e !! ip = Some ls -> e !! ip = Some ls.
Proof. unfold still_early. by intros [? _]%map_lookup_filter_Some. Qed.

Lemma check_early b e : check (with_early b e) = check b.
Proof. done. Qed.

Lemma entry_err_None v e : entry_err v e = None ->
  is_v4 v = true /\ Forall (fun r => is_v4 r = true) (Replicas e) /\ Forall (fun l => is_ok (parseLan l) = true) (Lan e).
Proof.
  unfold entry_err. destruct (first_err _ (v :: Replicas e)) eqn:E; [done|]. intros El.
  pose proof (first_err_None _ _ E) as Ha. pose proof (first_err_None _ _ El) as Hl.
  assert (forall ip, ip ∈ v :: Replicas e -> is_v4 ip = true) as Hv.
  { intros ip Hip. specialize (Ha ip Hip). simpl in Ha. by destruct (is_v4 ip). }
  split_and!; [apply Hv; set_solver|apply Forall_forall; intros r Hr; apply Hv; set_solver|].
  apply Forall_forall. intros l Hin. by apply err_of_None, Hl.
Qed.

(** The checks let through only what the filter's theorems ask for. *)
Lemma apply_err_checked next e b : apply_err next e b = None -> typed b -> (forall ip ls, e !! ip = Some ls -> is_v4 ip = true) ->
  PrefixValid (Range b) = true -> checked next (with_early b e).
Proof.
  intros Hc Hty He Hr. pose proof (first_err_None _ _ Hc) as Hall. clear Hc.
  assert (first_err (fun kv => entry_err kv.1 kv.2) (map_to_list next) = None) as Hn by (apply Hall; set_solver).
  assert (first_err (fun kv => first_err (fun l => err_of (parseLan l)) kv.2) (map_to_list e) = None) as Hearly by (apply Hall; set_solver).
  assert (check b = None) as Hb by (apply Hall; set_solver). clear Hall.
  pose proof (first_err_None _ _ Hn) as Hn'. pose proof (first_err_None _ _ Hearly) as He'.
  assert (forall v en, next !! v = Some en -> entry_err v en = None) as Hent.
  { intros v en Hv. apply (Hn' (v, en)). by apply elem_of_map_to_list. }
  destruct Hty. split; try done.
  - intros v en Hv. by apply Hent, entry_err_None in Hv as [Hv _].
  - intros v en Hv. by apply Hent, entry_err_None in Hv as [_ Hv].
  - intros ip ls Hip. split; [by eapply He|]. apply Forall_forall. intros l Hl.
    apply err_of_None. assert (first_err (fun l => err_of (parseLan l)) ls = None) as Hls.
    { apply (He' (ip, ls)). by apply elem_of_map_to_list. }
    by apply (first_err_None _ _ Hls).
Qed.

Section Node.
Context {W : Type} `{FW : Firewall W} `{!FirewallLaws W}.

Definition same_rules (w w' : W) : Prop := fw_chains w' = fw_chains w.
(** Every hook but [k]'s is as it was. *)
Definition hooks_but (k : string * string) (w w' : W) : Prop :=
  forall t h, (t, h) <> k -> fw_hook w' t h = fw_hook w t h.

Lemma exec_steps w t op h r : op ∈ ["-C"; "-S"; "-D"; "-I"] -> h ∈ hook_names ->
  same_rules w (Exec w (ipt t (op :: h :: r))).1 /\ hooks_but (t, h) w (Exec w (ipt t (op :: h :: r))).1.
Proof. intros Hop Hh. destruct (exec_same w t op h r Hop Hh) as (H1 & _ & H2). by split. Qed.

Lemma exec_all_steps fuel w w' t h r : h ∈ hook_names -> exec_all fuel w (ipt t ("-D" :: h :: r)) = Some w' ->
  same_rules w w' /\ hooks_but (t, h) w w'.
Proof.
  intros Hh. revert w. induction fuel as [|f IH]; intros w; [done|]. simpl.
  destruct (exec_steps w t "-D" h r ltac:(set_solver) Hh) as [H1 H2].
  destruct (Exec w _) as [w1 [e|]]; simpl in *; [by intros [= <-]|]. intros [H3 H4]%IH. split; [congruence|].
  intros t' h' Hne. by rewrite H4, H2.
Qed.

(** The loop ends: each turn takes a rule of the hook away. *)
Lemma exec_all_ends fuel w t h r : h ∈ hook_names -> (length (fw_hook w t h) < fuel)%nat ->
  exists w', exec_all fuel w (ipt t ("-D" :: h :: r)) = Some w'.
Proof.
  intros Hh. revert w. induction fuel as [|f IH]; intros w Hf; [lia|]. simpl.
  destruct (Exec w _) as [w1 [e|]] eqn:E; [by exists w1|].
  destruct (exec_delete _ _ _ _ _ Hh E) as (l1 & l2 & E1 & E2). apply IH. rewrite E2.
  rewrite E1 in Hf. rewrite !length_app in *. simpl in Hf. lia.
Qed.

Definition topped (h : hook) (w : W) : Prop := head (fw_hook w (h_table h) (h_name h)) = Some ["-j"; h_chain h].

Lemma first_steps fuel h w w' r : h_name h ∈ hook_names -> first fuel h w = Some (w', r) ->
  same_rules w w' /\ hooks_but (h_table h, h_name h) w w' /\ (r = None -> topped h w').
Proof.
  intros Hh. unfold first. set (again := match exec_all _ _ _ with Some _ => _ | None => _ end).
  assert (again = Some (w', r) -> same_rules w w' /\ hooks_but (h_table h, h_name h) w w' /\ (r = None -> topped h w')) as Hagain.
  { unfold again. destruct (exec_all _ _ _) as [w1|] eqn:E; [|done]. apply exec_all_steps in E as [H1 H2]; [|done].
    destruct (exec_steps w1 (h_table h) "-I" (h_name h) ["1"; "-j"; h_chain h] ltac:(set_solver) Hh) as [H3 H4].
    intros [= Ei]. rewrite Ei in *. simpl in *. split_and!; [congruence|intros t' h' Hne; by rewrite H4, H2|].
    intros ->. unfold topped. by rewrite (exec_first _ _ _ _ _ Hh Ei). }
  destruct (Read w _) as [out|] eqn:Er; [|done]. destruct (String.eqb_spec (trim_space out) (first_line h)) as [E|]; [|done].
  intros [= <- <-]. split_and!; [done|done|]. intros _. by eapply read_top.
Qed.

Lemma first_ends fuel h w : h_name h ∈ hook_names -> (length (fw_hook w (h_table h) (h_name h)) < fuel)%nat ->
  exists r, first fuel h w = Some r.
Proof.
  intros Hh Hf. unfold first. destruct (exec_all_ends fuel w (h_table h) (h_name h) ["-j"; h_chain h] Hh Hf) as [w1 ->].
  destruct (Read w _) as [out|]; [destruct (String.eqb _ _)|]; by eexists.
Qed.

(** Steps over hooks that all differ. *)
Lemma each_first_steps fuel hs w w' r : NoDup (map (fun h => (h_table h, h_name h)) hs) ->
  Forall (fun h => h_name h ∈ hook_names) hs -> each (first fuel) hs w = Some (w', r) ->
  same_rules w w' /\ (forall t n, (t, n) ∉ map (fun h => (h_table h, h_name h)) hs -> fw_hook w' t n = fw_hook w t n) /\
  (r = None -> Forall (fun h => topped h w') hs).
Proof.
  intros Hnd Hn. revert w Hnd. induction Hn as [|h hs Hh _ IH]; intros w Hnd; cbn [each].
  { intros [= <- <-]. by repeat split. }
  cbn [map] in Hnd. apply NoDup_cons in Hnd as [Hni Hnd]. unfold and_then.
  destruct (first fuel h w) as [[w1 [e|]]|] eqn:E; [| |done]; apply first_steps in E as (H1 & H2 & H3); try done.
  - intros [= <- <-]. split_and!; [done| |done]. intros t n Ht. apply H2. set_solver.
  - intros (H4 & H5 & H6)%IH; [|done]. split_and!; [congruence| |].
    + intros t n Ht. rewrite H5, H2; set_solver.
    + intros Hr. apply Forall_cons; split; [|by apply H6]. unfold topped. rewrite H5 by done. by apply H3.
Qed.

Lemma exec_check_same w w' t h r e : h ∈ hook_names -> Exec w (ipt t ("-C" :: h :: r)) = (w', e) ->
  same_rules w w' /\ (forall t' h', fw_hook w' t' h' = fw_hook w t' h').
Proof.
  intros Hh E. destruct (exec_same w t "-C" h r ltac:(set_solver) Hh) as (H1 & H2 & _). rewrite E in *. simpl in *.
  split; [done|]. apply H2. left. set_solver.
Qed.

Lemma jump_nat_steps n w w' r : n ∈ hook_names -> jump_nat n w = Some (w', r) ->
  same_rules w w' /\ hooks_but ("nat", n) w w' /\ (r = None -> ["-j"; Chain] ∈ fw_hook w' "nat" n).
Proof.
  intros Hn. unfold jump_nat, exec_ok. destruct (Exec w (ipt "nat" ["-C"; n; "-j"; Chain])) as [w1 [e|]] eqn:E.
  - destruct (exec_check_same _ _ _ _ _ _ Hn E) as [H1 H2].
    destruct (exec_steps w1 "nat" "-I" n ["-j"; Chain] ltac:(set_solver) Hn) as [H3 H4]. intros [= Ei]. rewrite Ei in *. simpl in *.
    split_and!; [congruence|intros t h Hne; by rewrite H4, H2|]. intros ->. rewrite (exec_insert _ _ _ _ _ Hn Ei). set_solver.
  - destruct (exec_check_same _ _ _ _ _ _ Hn E) as [H1 H2]. intros [= <- <-]. split_and!; [done|intros t h _; apply H2|].
    intros _. rewrite H2. by apply (exec_check _ _ _ _ _ Hn E).
Qed.

Lemma docker_same w : forall t h, fw_hook (Exec w (ipt "" ["-S"; "DOCKER-USER"])).1 t h = fw_hook w t h.
Proof. apply (exec_same w "" "-S" "DOCKER-USER" []); [set_solver|unfold hook_names; set_solver|left; set_solver]. Qed.

Lemma fwd_hook_steps fuel w w' fwd : fwd_hook fuel w = Some (w', fwd) ->
  same_rules w w' /\ (forall t h, (t, h) <> ("", "FORWARD") \/ fwd = "FORWARD" -> fw_hook w' t h = fw_hook w t h) /\
  fwd ∈ ["FORWARD"; "DOCKER-USER"].
Proof.
  unfold fwd_hook, exec_ok. destruct (exec_steps w "" "-S" "DOCKER-USER" []) as [H1 _];
    [set_solver|unfold hook_names; set_solver|]. pose proof (docker_same w) as H2.
  destruct (Exec w (ipt "" ["-S"; "DOCKER-USER"])) as [w1 [e|]]; simpl in *.
  - intros [= <- <-]. split_and!; [done|intros t h _; apply H2|set_solver].
  - destruct (exec_all fuel w1 _) as [w2|] eqn:E; [|done]. intros [= <- <-].
    apply exec_all_steps in E as [H3 H4]; [|unfold hook_names; set_solver].
    split_and!; [congruence| |set_solver]. intros t h [Hne|]; [|done]. by rewrite H4.
Qed.

(** Traffic gets to the chains: the VIPs' jumps are there, and with a filter
    ours are the first rules of their hooks. *)
Definition hooked (b : Base) (w : W) : Prop :=
  (forall n, n ∈ ["PREROUTING"; "OUTPUT"] -> ["-j"; Chain] ∈ fw_hook w "nat" n) /\
  (PrefixValid (Range b) = true -> exists fwd, fwd ∈ ["FORWARD"; "DOCKER-USER"] /\ Forall (fun h => topped h w) (hooks fwd)).

Lemma hooks_differ fwd : fwd ∈ ["FORWARD"; "DOCKER-USER"] ->
  NoDup (map (fun h => (h_table h, h_name h)) (hooks fwd)) /\ Forall (fun h => h_name h ∈ hook_names) (hooks fwd).
Proof. revert fwd. apply Forall_forall. by apply (bool_decide_eq_true_1 _). Qed.

Lemma and_then_inv (x : option (W * option error)) f w' r : and_then x f = Some (w', r) ->
  (exists e, x = Some (w', Some e) /\ r = Some e) \/ (exists w1, x = Some (w1, None) /\ f w1 = Some (w', r)).
Proof.
  destruct x as [[w1 [e|]]|]; simpl; [|by right; exists w1|done]. intros [= <- <-]. left. by exists e.
Qed.

Lemma jumps_nat_steps w w' r : each jump_nat ["PREROUTING"; "OUTPUT"] w = Some (w', r) ->
  same_rules w w' /\ (r = None -> forall n, n ∈ ["PREROUTING"; "OUTPUT"] -> ["-j"; Chain] ∈ fw_hook w' "nat" n).
Proof.
  assert ("PREROUTING" ∈ hook_names /\ "OUTPUT" ∈ hook_names) as [Hp Ho] by (unfold hook_names; set_solver).
  cbn [each]. intros [(e & (H1 & _)%jump_nat_steps & ->)|(w1 & (H1 & H2 & H3)%jump_nat_steps & Hr)]%and_then_inv; try done.
  apply and_then_inv in Hr as [(e & (H4 & _)%jump_nat_steps & ->)|(w2 & (H4 & H5 & H6)%jump_nat_steps & [= <- <-])]; try done.
  { split; [congruence|done]. }
  split; [congruence|]. intros _ n Hn. apply elem_of_cons in Hn as [->|Hn]; [rewrite H5 by done; by apply H3|].
  apply list_elem_of_singleton in Hn as ->. by apply H6.
Qed.

Lemma place_steps fuel b w w' r : place fuel b w = Some (w', r) -> same_rules w w' /\ (r = None -> hooked b w').
Proof.
  unfold place. intros [(e & (H1 & _)%jumps_nat_steps & ->)|(w2 & (H1 & Hn)%jumps_nat_steps & Hr)]%and_then_inv; [done|].
  specialize (Hn eq_refl). revert Hr. unfold hooked. destruct (PrefixValid (Range b)) eqn:Er; cbn [negb].
  2: { intros [= <- <-]. by split. }
  destruct (fwd_hook fuel w2) as [[w3 fwd]|] eqn:E3; [|done]. apply fwd_hook_steps in E3 as (H7 & H8 & Hfwd).
  intros E4. apply each_first_steps in E4 as (H9 & H10 & H11).
  - split; [congruence|]. intros Hr. split; [|intros _; by exists fwd; auto].
    intros n Hin. assert (("nat", n) ∉ map (fun h => (h_table h, h_name h)) (hooks fwd)) as Hni by (unfold hooks; simpl; set_solver).
    rewrite H10, H8 by (done || by left). by apply Hn.
  - by apply hooks_differ.
  - by apply hooks_differ.
Qed.

(** The hook loops end when the fuel covers the rules they may delete. *)
Definition roomy (fuel : nat) (w : W) : Prop := forall t h, h ∈ hook_names -> (length (fw_hook w t h) < fuel)%nat.

Lemma each_first_ends fuel hs w : NoDup (map (fun h => (h_table h, h_name h)) hs) ->
  Forall (fun h => h_name h ∈ hook_names /\ (length (fw_hook w (h_table h) (h_name h)) < fuel)%nat) hs ->
  exists r, each (first fuel) hs w = Some r.
Proof.
  intros Hnd HF. revert w HF. induction hs as [|h hs IH]; intros w HF; [by eexists|]. cbn [map] in Hnd.
  apply NoDup_cons in Hnd as [Hni Hnd]. apply Forall_cons in HF as [[Hh Hf] HF]. cbn [each].
  destruct (first_ends fuel h w Hh Hf) as [[w1 [e|]] E]; rewrite E; simpl; [by eexists|].
  apply first_steps in E as (_ & H2 & _); [|done]. apply IH; [done|]. apply Forall_forall. intros g Hg.
  pose proof (proj1 (Forall_forall _ _) HF g Hg) as [Hgn Hgl]. split; [done|]. rewrite H2; [done|]. intros E.
  apply Hni. rewrite <-E. apply list_elem_of_fmap. by exists g.
Qed.

Lemma place_ends fuel b w : roomy fuel w -> exists r, place fuel b w = Some r.
Proof.
  intros Hr. assert ("PREROUTING" ∈ hook_names /\ "OUTPUT" ∈ hook_names) as [Hp Ho] by (unfold hook_names; set_solver).
  assert (forall n w, exists w1 r, jump_nat n w = Some (w1, r)) as Hj.
  { intros n w1. unfold jump_nat, exec_ok. destruct (Exec w1 _) as [w2 [e|]]; [|by eauto]. destruct (Exec w2 _). by eauto. }
  unfold place. cbn [each]. destruct (Hj "PREROUTING" w) as (w1 & [e|] & E1); rewrite E1; cbn [and_then]; [by eexists|].
  destruct (Hj "OUTPUT" w1) as (w2 & [e|] & E2); rewrite E2; cbn [and_then]; [by eexists|].
  destruct (negb _); [by eexists|]. apply jump_nat_steps in E1 as (_ & H1 & _), E2 as (_ & H2 & _); try done.
  assert (forall t h, h ∈ hook_names -> (t, h) <> ("nat", "PREROUTING") -> (t, h) <> ("nat", "OUTPUT") ->
    (length (fw_hook w2 t h) < fuel)%nat) as Hl by (intros t h Hh N1 N2; rewrite H2, H1 by done; by apply Hr).
  destruct (fwd_hook fuel w2) as [[w3 fwd]|] eqn:E3.
  - apply fwd_hook_steps in E3 as (_ & H3 & Hfwd). destruct (hooks_differ fwd Hfwd) as [Hnd Hnames].
    apply each_first_ends; [done|]. apply Forall_forall. intros h Hh.
    split; [by apply (proj1 (Forall_forall _ _) Hnames)|].
    assert (h ∈ [MkHook "raw" "PREROUTING" RawChain; MkHook "nat" "POSTROUTING" NATChain; MkHook "" "INPUT" InChain] \/
      h = MkHook "" fwd FwdChain) as [Hin| ->] by (unfold hooks in Hh; set_solver).
    + rewrite H3; [|left; clear Hh; revert h Hin; apply Forall_forall; by apply (bool_decide_eq_true_1 _)].
      apply Hl; clear Hh; revert h Hin; apply Forall_forall; by apply (bool_decide_eq_true_1 _).
    + simpl. apply elem_of_cons in Hfwd as [->|Hfwd%list_elem_of_singleton]; [|subst fwd]; rewrite H3 by ((by left) || (by right));
      apply Hl; done || (unfold hook_names; set_solver).
  - exfalso. revert E3. unfold fwd_hook, exec_ok. pose proof (docker_same w2) as Hsame.
    destruct (Exec w2 (ipt "" ["-S"; "DOCKER-USER"])) as [w3 [e|]] eqn:E; [done|]. simpl in Hsame.
    destruct (exec_all_ends fuel w3 "" "FORWARD" ["-j"; FwdChain]) as [w4 E4]; [unfold hook_names; set_solver| |by rewrite E4].
    rewrite Hsame. apply Hl; done || (unfold hook_names; set_solver).
Qed.

(** ** The table and its node *)

(** The node enforces the table, and traffic gets to its rules. *)
Definition synced (w : W) (t : Table) : Prop :=
  holds (vips t) (with_early (base t) (pending t)) (fw_chains w) /\ hooked (base t) w /\
  (PrefixValid (Range (base t)) = true -> checked (vips t) (with_early (base t) (pending t))).

Definition sane (w : W) (t : Table) : Prop :=
  tidy (fw_chains w) /\ typed (base t) /\ forall ip ls, pending t !! ip = Some ls -> is_v4 ip = true.

Lemma apply_steps fuel w t next b w' t' r : tidy (fw_chains w) -> typed b ->
  (forall ip ls, pending t !! ip = Some ls -> is_v4 ip = true) -> apply fuel w t next b = Some (w', t', r) ->
  tidy (fw_chains w') /\ (t' = t \/ t' = MkTable next b (still_early next (pending t))) /\
  (r = None -> t' = MkTable next b (still_early next (pending t)) /\ synced w' t').
Proof.
  intros Htd Hty He. unfold apply. destruct (apply_err next _ b) as [e|] eqn:Ec.
  { intros [= <- <- <-]. split_and!; [done|by left|done]. }
  set (early := still_early next (pending t)) in *. set (b' := with_early b early).
  assert (forall ip ls, early !! ip = Some ls -> is_v4 ip = true) as He' by (intros ip ls H%chosen_early; by eapply He).
  assert (PrefixValid (Range b') = true -> checked next b') as Hck by exact (apply_err_checked next early b Ec Hty He').
  assert (WGIface b' = "" -> Forall (fun fl => f_Out fl = true) (Flows b')) as Hfl by exact (ty_iface _ Hty).
  destruct (Restore w _) as [w1 [e|]] eqn:Er.
  - intros [= <- <- <-]. destruct (restore_failed _ _ _ _ Er) as (k & st & Ek & ->).
    split_and!; [|by left|done]. refine (tidy_lines _ _ _ _ _ Ek); [|by split].
    apply Forall_take, tidy_Render; [exact Hck|exact Hfl].
  - destruct (place fuel b w1) as [[w2 r2]|] eqn:Ep; [|done]. intros [= <- <- <-]. simpl.
    apply place_steps in Ep as [Hs Hh]. destruct (restore_done _ _ _ Er) as (st & Est & Hst).
    destruct (script_installs (vips t) next b' (fw_chains w) Htd Hck Hfl) as (K' & EK & Hholds & Htidy & _).
    rewrite EK in Est. injection Est as <-. unfold same_rules in Hs. rewrite Hs, Hst. split_and!; [done|by right|].
    intros ->. split; [done|]. unfold synced. simpl. rewrite Hs, Hst. split_and!; [done|by apply Hh|done].
Qed.

Inductive Op :=
| OSet (vip : string) (replicas lan : list string)
| ORemove (vip : string)
| ORebuild (all : gmap string Entry) (b : Base)
| OMerge (all : gmap string Entry) (drop : list string) (b : Base)
| OAllow (ip : string) (lan : list string).

Definition run_op (fuel : nat) (o : Op) (w : W) (t : Table) : option (W * Table * option error) :=
  match o with
  | OSet vip replicas lan => Set_ fuel w t vip replicas lan
  | ORemove vip => Remove fuel w t vip
  | ORebuild all b => Rebuild fuel w t all b
  | OMerge all drop b => Merge fuel w t all drop b
  | OAllow ip lan => Allow fuel w t ip lan
  end.

Definition op_typed (o : Op) : Prop :=
  match o with ORebuild _ b | OMerge _ _ b => typed b | _ => True end.

(** The virtual IPs an operation asks for. *)
Definition wanted (o : Op) (m : gmap string Entry) : gmap string Entry :=
  match o with
  | OSet vip replicas lan => <[vip := MkEntry replicas lan]> m
  | ORemove vip => delete vip m
  | ORebuild all _ => all
  | OMerge all drop _ => all ∪ filter (fun kv => kv.1 ∉ drop) m
  | OAllow _ _ => m
  end.
(** The early grants it asks for: a routed replica has none. *)
Definition wanted_early (o : Op) (m : gmap string Entry) (e : gmap string (list string)) : gmap string (list string) :=
  still_early (wanted o m) (match o with OAllow ip [] => delete ip e | OAllow ip lan => <[ip := lan]> e | _ => e end).

Inductive reach (fuel : nat) : W -> Table -> Prop :=
| reach_new w : tidy (fw_chains w) -> reach fuel w New
| reach_op w t o w' t' r : reach fuel w t -> op_typed o -> run_op fuel o w t = Some (w', t', r) -> reach fuel w' t'.

Lemma typed_no_base : typed no_base.
Proof. by split; try done; apply Forall_nil. Qed.

Lemma drop_all (m : gmap string Entry) drop : foldl (fun m v => delete v m) m drop = filter (fun kv => kv.1 ∉ drop) m.
Proof.
  revert m. induction drop as [|v drop IH]; intros m; simpl.
  - symmetry. apply map_filter_id. set_solver.
  - rewrite IH. apply map_eq. intros k. apply option_eq. intros e. rewrite !map_lookup_filter_Some, lookup_delete_Some. set_solver.
Qed.

(** Clearing grants a replica does not have asks nothing of the node. *)
Definition idle (o : Op) (t : Table) : Prop :=
  match o with OAllow ip [] => pending t !! ip = None | _ => False end.

Definition follows (o : Op) (w : W) (t : Table) (w' : W) (t' : Table) (r : option error) : Prop :=
  (vips t' = vips t \/ vips t' = wanted o (vips t)) /\
  (r = None -> (idle o t /\ w' = w /\ t' = t) \/
    (vips t' = wanted o (vips t) /\ pending t' = wanted_early o (vips t) (pending t) /\ synced w' t')).

Lemma apply_follows fuel o w t next b e w' t' r : sane w (MkTable (vips t) (base t) e) -> typed b -> next = wanted o (vips t) ->
  still_early next e = wanted_early o (vips t) (pending t) ->
  apply fuel w (MkTable (vips t) (base t) e) next b = Some (w', t', r) -> sane w' t' /\ follows o w t w' t' r.
Proof.
  intros (Htd & Hty & He) Hb -> Hse E. simpl in He. apply apply_steps in E as (H1 & H2 & H3); try done. simpl in H2, H3.
  split; [split; [done|]|split].
  - destruct H2 as [->| ->]; simpl; [done|]. split; [done|]. intros ip ls H%chosen_early. by eapply He.
  - destruct H2 as [->| ->]; auto.
  - intros Hr. destruct (H3 Hr) as [-> Hs]. right. by rewrite <-Hse.
Qed.

Lemma allow_steps fuel ip lan w t w' t' r : sane w t -> Allow fuel w t ip lan = Some (w', t', r) ->
  sane w' t' /\ follows (OAllow ip lan) w t w' t' r.
Proof.
  intros (Htd & Hty & He). unfold Allow. destruct (is_v4 ip) eqn:Eip; cbn [negb].
  2: { intros [= <- <- <-]. split; [done|]. split; [by left|done]. }
  set (e' := match lan with [] => delete ip (pending t) | _ => <[ip := lan]> (pending t) end).
  assert (forall i ls, e' !! i = Some ls -> is_v4 i = true) as He'.
  { intros i ls Hi. unfold e' in Hi. destruct lan; [by apply lookup_delete_Some in Hi as [_ Hi%He]|].
    apply lookup_insert_Some in Hi as [[<- _]|[_ Hi]]; [done|by eapply He]. }
  assert (forall x, x = pending t !! ip -> match apply fuel w (MkTable (vips t) (base t) e') (vips t) (base t) with
    | Some (w, t', Some e) => Some (w, MkTable (vips t') (base t') (match x with Some o => <[ip := o]> (pending t')
        | None => delete ip (pending t') end), Some e)
    | r => r end = Some (w', t', r) -> sane w' t' /\ follows (OAllow ip lan) w t w' t' r) as Hcase.
  { intros x Hold Hx. destruct (apply _ _ _ _ _) as [[[w1 t1] r1]|] eqn:E; [|done].
    apply (apply_follows _ (OAllow ip lan)) in E as [(H1 & H2 & H3) H4]; try done.
    destruct r1 as [e|]; injection Hx as <- <- <-; [|by split]. destruct H4 as [H4 _]. split; [|by split].
    split; [done|]. split; [done|]. simpl.
    intros i ls. destruct x as [o|]; [|by intros [_ Hi%H3]%lookup_delete_Some].
    intros [[<- _]|[_ Hi]]%lookup_insert_Some; [done|by eapply H3]. }
  destruct lan as [|l lan]; [destruct (pending t !! ip) as [o|] eqn:Eo|].
  - exact (Hcase (Some o) eq_refl).
  - intros [= <- <- <-]. split; [done|]. split; [by left|]. intros _. by left.
  - exact (Hcase (pending t !! ip) eq_refl).
Qed.

Lemma op_steps fuel o w t w' t' r : sane w t -> op_typed o -> run_op fuel o w t = Some (w', t', r) ->
  sane w' t' /\ follows o w t w' t' r.
Proof.
  destruct t as [m b0 e]. intros Hs Ho. assert (typed b0) as Hb by apply Hs.
  destruct o as [vip reps lan|vip|all b|all drop b|ip lan]; simpl in Ho |- *; [..|by apply allow_steps];
  intros E; refine (apply_follows fuel _ w (MkTable m b0 e) _ _ e w' t' r Hs _ _ _ E); try done.
  1-2: unfold wanted_early; simpl; by rewrite drop_all.
Qed.

Lemma reach_sane fuel w t : reach fuel w t -> sane w t.
Proof.
  induction 1 as [w Hw|w t o w' t' r _ IH Ho E].
  - split; [done|]. split; [apply typed_no_base|done].
  - by apply (op_steps fuel o w t w' t' r).
Qed.

(** The table refines a map of virtual IPs, on a node that may hold
    anything and after any history of failed calls: an operation that succeeds
    leaves the map it asks for, no early grant for a replica a VIP lists, and a
    node whose chains are exactly that table's, with traffic led into them; one
    that fails leaves the map as it was or as asked. *)
Theorem Table_refines fuel o w t w' t' r : reach fuel w t -> op_typed o -> run_op fuel o w t = Some (w', t', r) ->
  (vips t' = vips t \/ vips t' = wanted o (vips t)) /\
  (r = None -> (idle o t /\ w' = w /\ t' = t) \/
    (vips t' = wanted o (vips t) /\ pending t' = wanted_early o (vips t) (pending t) /\
     holds (vips t') (with_early (base t') (pending t')) (fw_chains w') /\ hooked (base t') w')).
Proof.
  intros Hr Ho E. destruct (op_steps fuel o w t w' t' r (reach_sane _ _ _ Hr) Ho E) as (_ & Hv & Hn).
  split; [done|]. intros HNone. destruct (Hn HNone) as [|(H1 & H2 & H3 & H4 & _)]; auto.
Qed.

(** A filter chain of the node. *)
Definition node_filter (w : W) (c : string) : list line :=
  match fw_chains w !! ("filter", c) with Some rs => rs | None => [] end.

Lemma node_verdict w t c p : sane w t -> synced w t -> PrefixValid (Range (base t)) = true -> c ∈ filter_chains ->
  chain_verdict 3 (node_filter w) c p = chain_verdict 3 (rules (vips t) (with_early (base t) (pending t))) c p.
Proof.
  intros (_ & Hty & _) (Hh & _ & Hck) Hr Hc.
  assert (forall c, c ∈ filter_chains -> node_filter w c = rules (vips t) (with_early (base t) (pending t)) c) as Heq.
  { intros d Hd. unfold node_filter. by rewrite (h_filter _ _ _ Hh d Hr Hd). }
  apply (chain_verdict_ext _ _ _ filter_chains); [done| |done]. intros d rl x Hd Hrl Hj. rewrite Heq in Hrl by done.
  eapply filter_jumps; [by apply Hck|exact (ty_iface _ Hty)|exact Hd|exact Hrl|exact Hj].
Qed.

(** C29. After any history, an operation that succeeds leaves the node deciding
    every packet as the table's policy says, whatever rules were there before:
    what containers may reach through the host and what reaches the host
    itself, and both chains are the first rule of the hooks that lead to them. *)
Theorem Node_enforces fuel o w t w' t' p : reach fuel w t -> op_typed o -> run_op fuel o w t = Some (w', t', None) ->
  ~ idle o t -> PrefixValid (Range (base t')) = true ->
  let b := with_early (base t') (pending t') in
  chain_verdict 3 (node_filter w') FwdChain p = fwd_policy (vips t') b p /\
  chain_verdict 3 (node_filter w') InChain p = in_policy (vips t') b p /\
  exists fwd, fwd ∈ ["FORWARD"; "DOCKER-USER"] /\ head (fw_hook w' "" fwd) = Some ["-j"; FwdChain] /\
    head (fw_hook w' "" "INPUT") = Some ["-j"; InChain].
Proof.
  intros Hr Ho E Hni Hrng b. destruct (op_steps fuel o w t w' t' None (reach_sane _ _ _ Hr) Ho E) as (Hs & _ & Hn).
  destruct (Hn eq_refl) as [[? _]|(_ & _ & Hsync)]; [done|]. rewrite !(node_verdict w' t') by (done || by apply (bool_decide_eq_true_1 _)).
  destruct Hsync as (_ & [_ Hh] & Hck). destruct (Hh Hrng) as (fwd & Hf & HF). specialize (Hck Hrng).
  rewrite fwd_verdict, in_verdict by done. split_and!; [done..|]. exists fwd. split; [done|].
  unfold hooks in HF. do 2 apply Forall_cons in HF as [_ HF]. apply Forall_cons in HF as [H1 HF].
  apply Forall_cons in HF as [H2 _]. done.
Qed.

(** The chains that are a table's. *)
Definition table_chain (t : Table) (k : string * string) : Prop :=
  k = ("nat", Chain) \/ (exists v, is_Some (vips t !! v) /\ k = ("nat", vipChain v)) \/
  (PrefixValid (Range (base t)) = true /\
    (k = ("nat", NATChain) \/ k = ("raw", RawChain) \/ (k.1 = "filter" /\ k.2 ∈ filter_chains))).

(** Replay after a reboot: [Full], run on a node that lost its rules (or on
    any tidy one), is accepted and brings back every chain the last successful
    operation left. *)
Theorem Full_replays fuel o w t w' t' K : reach fuel w t -> op_typed o -> run_op fuel o w t = Some (w', t', None) ->
  ~ idle o t -> tidy K ->
  exists K', restore_lines (restoring K) (Full t') = Some (restoring K') /\
    forall k, table_chain t' k -> K' !! k = fw_chains w' !! k.
Proof.
  intros Hr Ho E Hni Htd. destruct (op_steps fuel o w t w' t' None (reach_sane _ _ _ Hr) Ho E) as ((_ & Hty & _) & _ & Hn).
  destruct (Hn eq_refl) as [[? _]|(_ & _ & Hh & _ & Hck)]; [done|].
  destruct (script_installs ∅ (vips t') (with_early (base t') (pending t')) K Htd Hck (ty_iface _ Hty)) as (K' & EK & HK & _).
  exists K'. split; [done|]. intros k [->|[(v & [e He] & ->)|(Hrng & [->|[->|[Hk Hc]]])]].
  - by rewrite (h_vips _ _ _ HK), (h_vips _ _ _ Hh).
  - by rewrite (h_vip _ _ _ HK v e He), (h_vip _ _ _ Hh v e He).
  - by rewrite (h_nat _ _ _ HK Hrng), (h_nat _ _ _ Hh Hrng).
  - by rewrite (h_raw _ _ _ HK Hrng), (h_raw _ _ _ Hh Hrng).
  - destruct k as [tb c]. simpl in Hk, Hc. subst tb. by rewrite (h_filter _ _ _ HK c Hrng Hc), (h_filter _ _ _ Hh c Hrng Hc).
Qed.

(** Every operation returns: the loops that delete a jump until the delete
    fails end, since each turn takes a rule of a hook away, and a hook has
    finitely many. *)
Theorem Table_returns fuel o w t : roomy fuel w -> exists r, run_op fuel o w t = Some r.
Proof.
  intros Hf. assert (forall tb next b, exists r, apply fuel w tb next b = Some r) as Ha.
  { intros tb next b. unfold apply. destruct (apply_err _ _ _); [by eexists|].
    pose proof (restore_hooks w (Render (vips tb) next (with_early b (still_early next (pending tb))))) as Hh.
    destruct (Restore w _) as [w1 [e|]]; [by eexists|]. simpl in Hh.
    destruct (place_ends fuel b w1) as [x ->]; [|by eexists]. intros tt h Hn. rewrite Hh. by apply Hf. }
  destruct o as [vip reps lan|vip|all b|all drop b|ip lan]; simpl; [apply Ha..|].
  unfold Allow. destruct (negb (is_v4 ip)); [by eexists|].
  destruct lan as [|l lan], (pending t !! ip) as [o|]; try (by eexists);
  (destruct (Ha (MkTable (vips t) (base t) (<[ip := l :: lan]> (pending t))) (vips t) (base t)) as [[[w1 t1] [e|]] E] || 
   destruct (Ha (MkTable (vips t) (base t) (delete ip (pending t))) (vips t) (base t)) as [[[w1 t1] [e|]] E]); rewrite E; by eexists.
Qed.
End Node.

(** ** A node in memory

    [iptables] as the laws describe it, on lists of rules. *)
Record World := MkWorld { w_chains : chains; w_hooks : gmap (string * string) (list line) }.

Definition w_hook (w : World) (t h : string) : list line := match w_hooks w !! (t, h) with Some rs => rs | None => [] end.
Definition set_hook (w : World) (t h : string) (rs : list line) : World := MkWorld (w_chains w) (<[(t, h) := rs]> (w_hooks w)).
Definition no_rule : error := Errorf (text "iptables: no such rule").

(** The table, the operation, the chain and the rest of a call. *)
Definition parse_ipt (argv : list string) : option (string * string * string * line) :=
  match argv with
  | _ :: a :: l =>
      if String.eqb a "-t" then match l with t :: op :: h :: r => Some (t, op, h, r) | _ => None end
      else match l with h :: r => Some ("", a, h, r) | [] => None end
  | _ => None
  end.

Fixpoint remove_one (r : line) (rs : list line) : list line :=
  match rs with
  | [] => []
  | x :: rs => if decide (x = r) then rs else x :: remove_one r rs
  end.

Definition world_exec (w : World) (argv : list string) : World * option error :=
  match parse_ipt argv with
  | Some (t, op, h, r) =>
      if String.eqb op "-C" then (w, if contains (w_hook w t h) r then None else Some no_rule)
      else if String.eqb op "-D" then
        if contains (w_hook w t h) r then (set_hook w t h (remove_one r (w_hook w t h)), None) else (w, Some no_rule)
      else if String.eqb op "-I" then
        (set_hook w t h (match r with x :: r' => (if String.eqb x "1" then r' else r) :: w_hook w t h | [] => w_hook w t h end), None)
      else (w, None)
  | None => (w, Some no_rule)
  end.

Definition world_read (w : World) (argv : list string) : option string :=
  match parse_ipt argv with
  | Some (t, _, h, _) =>
      match w_hook w t h with
      | ["-j"; x] :: _ => let out := "-A " +:+ h +:+ " -j " +:+ x in if String.eqb (trim_space out) out then Some out else None
      | _ => None
      end
  | None => None
  end.

#[export] Instance world_firewall : Firewall World := {
  Restore w ls := match restore_lines (restoring (w_chains w)) ls with
    | Some st => (MkWorld (r_done st) (w_hooks w), None) | None => (w, Some no_rule) end;
  Exec := world_exec;
  Read := world_read }.

Lemma parse_ipt_ok t op h r : op <> "-t" -> parse_ipt (ipt t (op :: h :: r)) = Some (t, op, h, r).
Proof.
  intros Hop. unfold ipt, parse_ipt. destruct (String.eqb_spec t "") as [->|]; cbn [app].
  - by rewrite (proj2 (String.eqb_neq _ _)).
  - by rewrite String.eqb_refl.
Qed.

Lemma w_hook_set w t h rs t' h' : w_hook (set_hook w t h rs) t' h' = if decide ((t', h') = (t, h)) then rs else w_hook w t' h'.
Proof.
  unfold w_hook, set_hook. simpl. destruct (decide _) as [[= -> ->]|Hne]; [by rewrite lookup_insert_eq|]. by rewrite lookup_insert_ne.
Qed.

Lemma remove_one_split r rs : r ∈ rs -> exists l1 l2, rs = l1 ++ r :: l2 /\ remove_one r rs = l1 ++ l2.
Proof.
  induction rs as [|x rs IH]; [set_solver|]. intros Hr. simpl. destruct (decide (x = r)) as [->|Hne]; [by exists [], rs|].
  destruct IH as (l1 & l2 & -> & ->); [set_solver|]. by exists (x :: l1), l2.
Qed.

Lemma not_listed (x : string) (l : list string) : x ∈ l -> bool_decide (x ∈ l) = false -> False.
Proof. by intros Hx H%bool_decide_eq_false. Qed.

Lemma append_inj s t u : s +:+ t = s +:+ u -> t = u.
Proof. induction s as [|c s IH]; [done|]. intros E. apply IH. by injection E. Qed.

#[export] Instance world_laws : FirewallLaws World.
Proof.
  refine {| fw_chains := w_chains; fw_hook := w_hook |}.
  - intros w ls w'. simpl. destruct (restore_lines _ ls) as [st|]; [|done]. intros [= <-]. by exists st.
  - intros w ls w' e. simpl. destruct (restore_lines _ ls) as [st|]; [done|]. intros [= <- _]. exists 0%nat, (restoring (w_chains w)). done.
  - intros w ls t h. simpl. by destruct (restore_lines _ ls).
  - intros w t op h r Hop Hh. assert (op <> "-t") as Hne by (intros ->; exact (not_listed _ _ Hop eq_refl)).
    simpl. unfold world_exec. rewrite parse_ipt_ok by done.
    destruct (String.eqb_spec op "-C") as [->|]; [done|]. destruct (String.eqb_spec op "-D") as [->|].
    { destruct (contains _ r); simpl; [|done]. split_and!; [done| |].
      - intros [Hc|?]; [destruct (not_listed _ _ Hc eq_refl)|done].
      - intros t' h' Hk. rewrite w_hook_set. by destruct (decide _). }
    destruct (String.eqb_spec op "-I") as [->|]; [|done]. simpl. split_and!; [done| |].
    + intros [Hc|?]; [destruct (not_listed _ _ Hc eq_refl)|done].
    + intros t' h' Hk. rewrite w_hook_set. by destruct (decide _).
  - intros w w' t h r Hh. simpl. unfold world_exec. rewrite parse_ipt_ok by done. unfold contains. simpl.
    case_bool_decide; by intros [= <-].
  - intros w w' t h x Hh. simpl. unfold world_exec. rewrite parse_ipt_ok by done. simpl. intros [= <-].
    rewrite w_hook_set. by rewrite decide_True.
  - intros w w' t h r Hh. simpl. unfold world_exec. rewrite parse_ipt_ok by done. simpl. intros [= <-].
    rewrite w_hook_set. by rewrite decide_True.
  - intros w w' t h r Hh. simpl. unfold world_exec. rewrite parse_ipt_ok by done. unfold contains. simpl.
    case_bool_decide as Hr; [|done]. intros [= <-]. rewrite w_hook_set, decide_True by done. by apply remove_one_split.
  - intros w t h x out Hh. simpl. unfold world_read. rewrite parse_ipt_ok by done.
    destruct (w_hook w t h) as [|rl rs] eqn:E; [done|]. intros Hout Htrim.
    destruct rl as [|a [|y [|]]]; repeat case_match; try done; simplify_eq.
    match goal with H : String.eqb _ _ = true |- _ => apply String.eqb_eq in H; rewrite H in Htrim end.
    do 3 apply append_inj in Htrim. by subst.
Defined.

(** ** The tests' node *)

Definition fresh : World := MkWorld ∅ {[("", "FORWARD") := [["-j"; "DOCKER-USER"]; ["-j"; FwdChain]]]}.
Definition boot : Op := ORebuild ∅ testBase.
Definition grant : Op := OSet "10.213.1.2" ["10.213.1.3"] ["lan:10.0.0.0/8"].

Definition after (o : Op) (wt : World * Table) : World * Table :=
  match run_op 9 o wt.1 wt.2 with Some (w, t, None) => (w, t) | _ => wt end.
Definition booted : World * Table := after boot (fresh, New).
Definition granted : World * Table := after grant booted.

Lemma test_typed : typed testBase.
Proof. split; try done; try (intros _; by apply prefix4b_ok). by repeat (apply Forall_cons_2; [by apply prefix4b_ok|]). Qed.

Lemma tidy_empty : tidy ∅.
Proof. intros c rs r v Hl. by rewrite lookup_empty in Hl. Qed.

Lemma fresh_reach : reach 9 fresh New.
Proof. apply reach_new, tidy_empty. Qed.

Lemma boot_runs : run_op 9 boot fresh New = Some (booted.1, booted.2, None).
Proof. vm_compute. reflexivity. Qed.

Lemma booted_reach : reach 9 booted.1 booted.2.
Proof. exact (reach_op 9 fresh New boot _ _ None fresh_reach test_typed boot_runs). Qed.

Lemma grant_runs : run_op 9 grant booted.1 booted.2 = Some (granted.1, granted.2, None).
Proof. vm_compute. reflexivity. Qed.

(** The grant opens [10.0.0.0/8] to the replica, but not the cluster's range
    inside it; the older build's jump in [FORWARD] is gone. *)
Lemma Node_enforces_witness :
  chain_verdict 3 (node_filter granted.1) FwdChain (test_packet (ip4 10 213 1 3) (ip4 10 1 2 3) "tcp" 80) = None /\
  chain_verdict 3 (node_filter granted.1) FwdChain (test_packet (ip4 10 213 1 3) (ip4 10 214 0 9) "tcp" 80) = Some VDrop /\
  chain_verdict 3 (node_filter booted.1) FwdChain (test_packet (ip4 10 213 1 3) (ip4 10 1 2 3) "tcp" 80) = Some VDrop.
Proof.
  split; [|split].
  - rewrite (proj1 (Node_enforces 9 grant booted.1 booted.2 granted.1 granted.2 (test_packet (ip4 10 213 1 3) (ip4 10 1 2 3) "tcp" 80)
      booted_reach I grant_runs (fun H => H) eq_refl)). vm_compute. reflexivity.
  - vm_compute. reflexivity.
  - vm_compute. reflexivity.
Defined.

Lemma Table_refines_witness :
  vips granted.2 = {["10.213.1.2" := MkEntry ["10.213.1.3"] ["lan:10.0.0.0/8"]]} /\
  holds (vips granted.2) (with_early (base granted.2) (pending granted.2)) (fw_chains granted.1).
Proof.
  destruct (Table_refines 9 grant booted.1 booted.2 granted.1 granted.2 None booted_reach I grant_runs) as [_ H].
  destruct (H eq_refl) as [[[] _]|(Hv & _ & Hh & _)]. split; [|exact Hh]. rewrite Hv. vm_compute. reflexivity.
Defined.

Lemma Full_replays_witness : exists K',
  restore_lines (restoring ∅) (Full granted.2) = Some (restoring K') /\
  K' !! ("nat", vipChain "10.213.1.2") = Some [["-j"; "DNAT"; "--to-destination"; "10.213.1.3"]].
Proof.
  destruct (Full_replays 9 grant booted.1 booted.2 granted.1 granted.2 ∅ booted_reach I grant_runs (fun H => H)) as (K' & E & H).
  - exact tidy_empty.
  - exists K'. split; [exact E|]. rewrite H; [vm_compute; reflexivity|]. right. left. exists "10.213.1.2".
    split; [vm_compute; eexists; reflexivity|reflexivity].
Defined.

Lemma Table_returns_witness : exists r, run_op 9 grant booted.1 booted.2 = Some r.
Proof.
  apply Table_returns. intros t h Hh. change (w_hook booted.1 t h) with (w_hook booted.1 t h).
  simpl. unfold w_hook. destruct (w_hooks booted.1 !! (t, h)) as [rs|] eqn:E; [|simpl; lia].
  revert E. assert (map_Forall (fun (_ : string * string) (rs : list line) => (length rs < 9)%nat) (w_hooks booted.1)) as HF.
  { apply (bool_decide_eq_true_1 _). vm_compute. reflexivity. }
  intros E. apply (HF _ _ E).
Defined.
