(* ===== verification/JobLeaf.v ===== *)
(** * The jobs table ([leaf/job/job.go], [store/jobs.go])

    The states of a job, its lock set, who waits for whom, the row operations
    and the log poll.  The table is a map by id; a [time.Time] is the clock's
    reading.  A database call that fails is not modelled: every write lands. *)
From S2P Require Import Prelude GoStrings Errs.

Definition Queued := "queued".
Definition Running := "running".
Definition Waiting := "waiting".
Definition Done := "done".
Definition Failed := "failed".
Definition Superseded := "superseded".
Definition Cancelled := "cancelled".
Definition Skipped := "skipped".

Definition Live (state : string) : bool := contains [Queued; Running; Waiting] state.
Definition Terminal (state : string) : bool := negb (Live state).
Definition Cancellable (state : string) : bool := String.eqb state Queued || String.eqb state Waiting.

Definition LockSet (tileIDs : list string) : list string := compact (sort_strings tileIDs).
Definition All := "*".
Definition WorkerRollout := "worker-rollout".

Definition Overlaps (a b : list string) : bool :=
  if contains a All || contains b All then true else existsb (contains b) a.

Record Job := MkJob {
  ID : string; Kind : string; j_State : string; ReleaseID : option string; j_LockSet : list string;
  Payload : string; WaitingParam : option string; LogPath : string; j_Error : msg; CreatedAt : Z;
  ActorID : string; ActorKeyID : string; StartedAt : option Z; FinishedAt : option Z }.

Definition in_state (state : string) (j : Job) : bool := String.eqb (j_State j) state.

Definition Ahead (j : Job) (live : list Job) : list Job :=
  List.filter (fun o =>
    negb (String.eqb (ID o) (ID j) || negb (Overlaps (j_LockSet j) (j_LockSet o))) &&
    (in_state Running o || (in_state Queued o && (CreatedAt o <? CreatedAt j)))) live.

Definition RunningAhead (j : Job) (live : list Job) : Z :=
  Z.of_nat (length (List.filter (in_state Running) (Ahead j live))).

Definition RunningJobs (n : Z) : string := if n =? 1 then "1 running job" else itoa n +:+ " running jobs".

Definition Waits (j : Job) (live : list Job) (held : bool) : string :=
  if negb (in_state Queued j) then ""
  else
    let ahead := Ahead j live in
    if held then "Waits for the panel upgrade"
    else if contains (j_LockSet j) All then
      let n := RunningAhead j live in
      if 0 <? n then "Waits for " +:+ RunningJobs n else ""
    else match find_first (fun o => contains (j_LockSet o) All) ahead with
    | Some o => if String.eqb (Kind o) WorkerRollout then "Waits for the worker upgrade"
                else "Waits for the panel upgrade"
    | None => ""
    end.

Definition Supersedes (newer older : Job) : bool :=
  if negb (String.eqb (Kind newer) (Kind older)) then false
  else forallb (contains (j_LockSet newer)) (j_LockSet older).

(** ** The rows *)

Abbreviation Rows := (gmap string Job).

Definition with_state (j : Job) (state : string) : Job :=
  MkJob (ID j) (Kind j) state (ReleaseID j) (j_LockSet j) (Payload j) (WaitingParam j) (LogPath j)
    (j_Error j) (CreatedAt j) (ActorID j) (ActorKeyID j) (StartedAt j) (FinishedAt j).

(** [UPDATE jobs ... WHERE id]: no row, nothing written. *)
Definition Update (rows : Rows) (j : Job) : Rows :=
  match rows !! ID j with Some _ => <[ID j := j]> rows | None => rows end.

(** [ListByState] is newest first; [List] turns it oldest first. *)
Definition newer_first (a b : Job) : bool := CreatedAt b <=? CreatedAt a.
Definition older_first (a b : Job) : bool := CreatedAt a <=? CreatedAt b.
Definition ListByState (rows : Rows) (states : list string) : list Job :=
  sort newer_first (List.filter (fun j => contains states (j_State j)) (map snd (map_to_list rows))).
Definition List_jobs (rows : Rows) (states : list string) : list Job :=
  sort older_first (ListByState rows states).

Definition new_job (id kind : string) (lock : list string) (payload : string) (releaseID : option string)
    (logDir actor key : string) (now : Z) : Job :=
  MkJob id kind Queued releaseID (LockSet lock) payload None (logDir +:+ "/" +:+ id +:+ ".log") (text "")
    now actor key None None.

Definition started (j : Job) (now : Z) : Job :=
  MkJob (ID j) (Kind j) Running (ReleaseID j) (j_LockSet j) (Payload j) None (LogPath j) (text "")
    (CreatedAt j) (ActorID j) (ActorKeyID j) (Some now) (FinishedAt j).

Definition finished (j : Job) (state : string) (reason : msg) (now : Z) : Job :=
  MkJob (ID j) (Kind j) state (ReleaseID j) (j_LockSet j) (Payload j) (WaitingParam j) (LogPath j) reason
    (CreatedAt j) (ActorID j) (ActorKeyID j) (StartedAt j) (Some now).

Definition Finish (rows : Rows) (j : Job) (state : string) (reason : msg) (now : Z) : Rows :=
  Update rows (finished j state reason now).

(** [UPDATE jobs SET state = 'waiting', waiting_param, payload WHERE id AND state = 'running']. *)
Definition ParkIfRunning (rows : Rows) (id param payload : string) : Rows :=
  match rows !! id with
  | Some j =>
      if in_state Running j then
        <[id := MkJob (ID j) (Kind j) Waiting (ReleaseID j) (j_LockSet j) payload (Some param) (LogPath j)
                  (j_Error j) (CreatedAt j) (ActorID j) (ActorKeyID j) (StartedAt j) (FinishedAt j)]> rows
      else rows
  | None => rows
  end.

(** [UPDATE jobs SET state = 'queued', waiting_param = NULL WHERE id AND state = 'waiting']. *)
Definition RequeueIfWaiting (rows : Rows) (id : string) : Rows :=
  match rows !! id with
  | Some j =>
      if in_state Waiting j then
        <[id := MkJob (ID j) (Kind j) Queued (ReleaseID j) (j_LockSet j) (Payload j) None (LogPath j)
                  (j_Error j) (CreatedAt j) (ActorID j) (ActorKeyID j) (StartedAt j) (FinishedAt j)]> rows
      else rows
  | None => rows
  end.

Definition Requeue (rows : Rows) (j : Job) : Rows := RequeueIfWaiting rows (ID j).
Definition Park (rows : Rows) (j : Job) (param : string) : Rows := ParkIfRunning rows (ID j) param (Payload j).

(** [ListTouching] reads the newest [limit] rows whose lock set holds a tile. *)
Definition ListTouching (rows : Rows) (tileIDs : list string) (kind : string) (limit : nat) : list Job :=
  take limit (sort newer_first
    (List.filter (fun j => existsb (contains (j_LockSet j)) tileIDs &&
                           (String.eqb kind "" || String.eqb (Kind j) kind))
       (map snd (map_to_list rows)))).

Definition Last (rows : Rows) (tileID : string) : option Job := head (ListTouching rows [tileID] "" 1).
Definition LastDone (rows : Rows) (tileID kind : string) : option Job :=
  find_first (in_state Done) (ListTouching rows [tileID] kind 100).

(** ** The log *)

Definition MaxChunk : Z := 65536.
Definition NoLog : string := "(no log on this box for this job)" +:+ String (ascii_of_nat 10) "".
Record Log := MkLog { Chunk : string; Next : Z; End_ : bool }.

(** [f.ReadAt] of at most [n] bytes: the bytes and whether the end was met. *)
Definition ReadAt (f : string) (n offset : Z) : option (string * bool) :=
  if offset <? 0 then None
  else let b := str_take (Z.to_nat n) (str_drop (Z.to_nat offset) f) in Some (b, slen b <? n).

(** [Poll] on a row and its log file, [None] for a file that does not exist. *)
Definition Poll (j : Job) (file : option string) (offset : Z) : res Log :=
  match file with
  | None =>
      let e := Terminal (j_State j) in
      Ok (if e && (offset =? 0) then MkLog NoLog (slen NoLog) e else MkLog "" offset e)
  | Some f =>
      match ReadAt f MaxChunk offset with
      | None => Err (New "negative offset")
      | Some (b, eof) => Ok (MkLog b (offset + slen b) (Terminal (j_State j) && eof))
      end
  end.

(** ** Laws *)

Lemma compact_elem {A} `{EqDecision A} (l : list A) x : x ∈ compact l <-> x ∈ l.
Proof.
  induction l as [|y l IH]; [done|]. destruct l as [|z l]; [done|].
  change (compact (y :: z :: l)) with (if decide (y = z) then compact (z :: l) else y :: compact (z :: l)).
  case_decide; subst; set_solver.
Qed.

Lemma compact_sorted (l : list string) :
  StronglySorted (fun a b => String.leb a b = true) l ->
  StronglySorted (fun a b => String.ltb a b = true) (compact l).
Proof.
  induction 1 as [|x l Hs IH Hx]; [constructor|]. destruct l as [|y l]; [repeat constructor|].
  change (compact (x :: y :: l)) with (if decide (x = y) then compact (y :: l) else x :: compact (y :: l)).
  case_decide as E; [done|]. constructor; [done|]. apply Forall_forall. intros z Hz.
  rewrite compact_elem in Hz.
  assert (String.ltb x y = true) as Hxy.
  { apply Forall_cons in Hx as [Hxy _]. by apply leb_ltb_or_eq in Hxy as [?| ->]. }
  apply elem_of_cons in Hz as [->|Hz]; [done|]. inv Hs as [|? ? _ Hy].
  pose proof (proj1 (Forall_forall _ _) Hy z Hz) as Hyz. simpl in Hyz.
  apply leb_ltb_or_eq in Hyz as [?| ->]; [by eapply ltb_trans_str|done].
Qed.

(** A lock set is the touched tiles, each once, in strictly ascending order,
    whatever order and repetition they came in; so two requests for the same
    tiles store equal lock sets. *)
Theorem LockSet_canonical tiles :
  StronglySorted (fun a b => String.ltb a b = true) (LockSet tiles) /\
  (forall t, t ∈ LockSet tiles <-> t ∈ tiles).
Proof.
  unfold LockSet. split; [by apply compact_sorted, sort_strings_sorted|].
  intros t. rewrite compact_elem. apply elem_of_sort.
Qed.

Lemma Overlaps_spec a b :
  Overlaps a b = true <-> All ∈ a \/ All ∈ b \/ exists t, t ∈ a /\ t ∈ b.
Proof.
  unfold Overlaps, contains. destruct (bool_decide (All ∈ a)) eqn:E1; bsimpl; [naive_solver|].
  destruct (bool_decide (All ∈ b)) eqn:E2; bsimpl; [naive_solver|]. simpl.
  rewrite existsb_exists. split.
  - intros (t & Ht%list_elem_of_In & Hb). bsimpl. eauto.
  - intros [?|[?|(t & ? & ?)]]; [done..|]. exists t. split; [by apply list_elem_of_In|].
    by apply bool_decide_eq_true.
Qed.

Lemma Overlaps_sym a b : Overlaps a b = Overlaps b a.
Proof. apply eq_true_iff_eq. rewrite !Overlaps_spec. naive_solver. Qed.

Lemma elem_of_rows (rs : Rows) j :
  j ∈ map snd (map_to_list rs) <-> exists id, rs !! id = Some j.
Proof.
  rewrite list_elem_of_fmap. split.
  - intros ([id j'] & -> & Hin). exists id. by apply elem_of_map_to_list in Hin.
  - intros [id Hid]. exists (id, j). split; [done|]. by apply elem_of_map_to_list.
Qed.

Lemma elem_of_List (rs : Rows) states j :
  j ∈ List_jobs rs states <-> (exists id, rs !! id = Some j) /\ j_State j ∈ states.
Proof.
  unfold List_jobs, ListByState. rewrite !elem_of_sort, elem_of_filterb, elem_of_rows.
  unfold contains. by rewrite bool_decide_eq_true.
Qed.

(** Rows are kept under their own id. *)
Definition keyed (rs : Rows) : Prop := forall id j, rs !! id = Some j -> ID j = id.

Lemma List_lookup rs states j : keyed rs -> j ∈ List_jobs rs states -> rs !! ID j = Some j.
Proof. intros Hk [[id Hid] _]%elem_of_List. by rewrite (Hk _ _ Hid). Qed.

Lemma filterb_sublist {A} (p : A -> bool) (l : list A) : List.filter p l `sublist_of` l.
Proof. induction l as [|x l IH]; simpl; [done|]. destruct (p x); by constructor. Qed.

Lemma NoDup_map_filterb {A B} (f : A -> B) (p : A -> bool) l :
  NoDup (map f l) -> NoDup (map f (List.filter p l)).
Proof. intros Hn. eapply sublist_NoDup; [exact Hn|]. apply (fmap_sublist f), filterb_sublist. Qed.

Lemma List_nodup rs states : keyed rs -> NoDup (map ID (List_jobs rs states)).
Proof.
  intros Hk. unfold List_jobs, ListByState.
  assert (NoDup (map ID (map snd (map_to_list rs)))) as Hn.
  { replace (map ID (map snd (map_to_list rs))) with (map fst (map_to_list rs)).
    - apply NoDup_fst_map_to_list.
    - rewrite map_map. apply map_ext_in. intros [id j] Hin%list_elem_of_In.
      apply elem_of_map_to_list in Hin. symmetry. by apply Hk. }
  rewrite !(Permutation_map ID (sort_perm _ _)). by apply NoDup_map_filterb.
Qed.

Lemma List_sorted rs states : StronglySorted (fun a b => CreatedAt a <= CreatedAt b) (List_jobs rs states).
Proof.
  assert (forall x y, older_first x y = true <-> CreatedAt x <= CreatedAt y) as Ho.
  { intros x y. unfold older_first. apply Z.leb_le. }
  assert (StronglySorted (fun a b => older_first a b = true) (List_jobs rs states)) as H.
  { apply sort_sorted.
    - intros x y. rewrite !Ho. lia.
    - intros x y z. rewrite !Ho. lia. }
  induction H as [|x l _ IH Hx]; constructor; [done|]. eapply Forall_impl; [exact Hx|].
  intros y. apply Ho.
Qed.

(** ** Polling a log

    The client's loop: ask from the last [Next] until [End]. *)
Fixpoint poll_all (fuel : nat) (j : Job) (file : option string) (offset : Z) : option string :=
  match fuel with
  | O => None
  | S fuel =>
      match Poll j file offset with
      | Err _ => None
      | Ok l => if End_ l then Some (Chunk l) else (fun rest => Chunk l +:+ rest) <$> poll_all fuel j file (Next l)
      end
  end.

Lemma poll_from fuel j f n :
  Terminal (j_State j) = true -> (n <= String.length f)%nat ->
  slen (str_drop n f) < Z.of_nat fuel * MaxChunk ->
  poll_all fuel j (Some f) (Z.of_nat n) = Some (str_drop n f).
Proof.
  intros Ht. revert n. unfold slen. induction fuel as [|fuel IH]; intros n Hn Hf; [lia|].
  cbn [poll_all]. unfold Poll, ReadAt. rewrite (proj2 (Z.ltb_ge _ _)) by lia. rewrite Nat2Z.id, Ht.
  cbn [End_ Chunk Next andb]. set (b := str_take (Z.to_nat MaxChunk) (str_drop n f)).
  assert (Hb : String.length b = Nat.min (Z.to_nat MaxChunk) (String.length f - n)).
  { unfold b. by rewrite str_take_length, str_drop_length. }
  pose proof (str_take_drop (Z.to_nat MaxChunk) (str_drop n f)) as Hsplit. fold b in Hsplit.
  unfold slen. assert (0 < MaxChunk) as Hpos by done. destruct (Z.ltb_spec (Z.of_nat (String.length b)) MaxChunk) as [Hlt|Hge].
  - rewrite str_drop_all, app_nil_r_str in Hsplit; [congruence|]. rewrite str_drop_length. lia.
  - rewrite str_drop_add in Hsplit. replace (Z.of_nat n + Z.of_nat (String.length b))
      with (Z.of_nat (n + Z.to_nat MaxChunk)) by lia.
    rewrite IH; [simpl; by rewrite Hsplit|lia|]. rewrite str_drop_length in *. lia.
Qed.

(** Polling a finished job from the start reads its whole log, chunk after
    chunk without a gap or a repeat, and ends: one poll more than the log has
    full chunks is enough. *)
Theorem poll_reads_the_log fuel j f :
  Terminal (j_State j) = true -> slen f < Z.of_nat fuel * MaxChunk ->
  poll_all fuel j (Some f) 0 = Some f.
Proof. intros Ht Hf. by apply (poll_from fuel j f 0); [|lia|]. Qed.

Lemma poll_reads_the_log_witness :
  poll_all 1 (finished (new_job "1" "deploy" [] "" None "" "" "" 0) Done (text "") 1) (Some "deploying web") 0
  = Some "deploying web".
Proof. apply poll_reads_the_log; by vm_compute. Defined.
