(* ===== verification/Jobs.v ===== *)
(** * The job queue ([flow/jobs/jobs.go])

    The runner as a state machine.  [Runner] holds the jobs table and what the
    process keeps in memory; every handler of the source is a function on it,
    and an [event] is one critical section (what runs under the runner's lock)
    or one thing a handler's goroutine does in between.  A run is any list of
    events, so every interleaving of jobs, cancels, enqueues and restarts the
    lock allows is one. *)
From S2P Require Import Prelude GoStrings Errs JobLeaf.

(** What ended a job's context. *)
Inductive Cause := CauseSuperseded | CauseCancelled | CauseShutdown | DeadlineExceeded.
#[export] Instance Cause_eq_dec : EqDecision Cause.
Proof. solve_decision. Defined.

Definition ErrSuperseded : error := New "ErrSuperseded".
Definition ErrSkipped : error := New "ErrSkipped".
Definition ErrFinished : error := Conflictf "the job already finished" [].

(** [active], with its goroutine's own variables: the row it was started with,
    the payload of [rn.Job], the cause of the parent context and of the one the
    handler sees, and what [call] returned once the handler is back. *)
Record active := MkActive {
  a_lock : list string; a_cause : option Cause; a_ctx : option Cause;
  swapping : bool; superseded : bool; idle : bool;
  a_job : Job; a_payload : string; a_result : option (string * msg * string) }.

Record Runner := MkRunner {
  rows : Rows; running : gmap string active; parked : gmap string string;
  deployed : gmap string (list string); log_lines : list (string * msg); ended : list string }.

Definition set_rows (r : Runner) (v : Rows) : Runner :=
  MkRunner v (running r) (parked r) (deployed r) (log_lines r) (ended r).
Definition set_running (r : Runner) (v : gmap string active) : Runner :=
  MkRunner (rows r) v (parked r) (deployed r) (log_lines r) (ended r).
Definition set_ended (r : Runner) (id : string) : Runner :=
  MkRunner (rows r) (running r) (parked r) (deployed r) (log_lines r) (ended r ++ [id]).

(** [a.cancel(cause)]: the first cause stays; the handler's context takes it
    unless its deadline came first. *)
Definition cancel (c : Cause) (a : active) : active :=
  MkActive (a_lock a) (Some (default c (a_cause a))) (Some (default c (a_ctx a)))
    (swapping a) (superseded a) (idle a) (a_job a) (a_payload a) (a_result a).
Definition deadline (a : active) : active :=
  MkActive (a_lock a) (a_cause a) (Some (default DeadlineExceeded (a_ctx a)))
    (swapping a) (superseded a) (idle a) (a_job a) (a_payload a) (a_result a).
Definition set_swapping (a : active) : active :=
  MkActive (a_lock a) (a_cause a) (a_ctx a) true (superseded a) (idle a) (a_job a) (a_payload a) (a_result a).
Definition set_superseded (a : active) : active :=
  MkActive (a_lock a) (a_cause a) (a_ctx a) (swapping a) true (idle a) (a_job a) (a_payload a) (a_result a).
Definition set_idle (v : bool) (a : active) : active :=
  MkActive (a_lock a) (a_cause a) (a_ctx a) (swapping a) (superseded a) v (a_job a) (a_payload a) (a_result a).
Definition set_payload (v : string) (a : active) : active :=
  MkActive (a_lock a) (a_cause a) (a_ctx a) (swapping a) (superseded a) (idle a) (a_job a) v (a_result a).
Definition set_result (v : string * msg * string) (a : active) : active :=
  MkActive (a_lock a) (a_cause a) (a_ctx a) (swapping a) (superseded a) (idle a) (a_job a) (a_payload a) (Some v).

(** ** What a handler calls *)

Definition Swap (r : Runner) (id : string) : option error * Runner :=
  match running r !! id with
  | None => (None, r)
  | Some a =>
      if superseded a then (Some ErrSuperseded, r)
      else (None, set_running r (<[id := set_swapping a]> (running r)))
  end.

(** [Idle] and the func it returns. *)
Definition Idle (r : Runner) (id : string) (v : bool) : Runner :=
  set_running r (alter (set_idle v) id (running r)).

Definition newline : ascii := ascii_of_nat 10.
Fixpoint count_byte (c : ascii) (s : string) : Z :=
  match s with
  | EmptyString => 0
  | String b s => (if Ascii.eqb b c then 1 else 0) + count_byte c s
  end.

Definition once_line (line : string) : bool :=
  (has_prefix line "deploying " || has_prefix line "warning: ")
  && (count_byte newline line =? 1) && has_suffix line (String newline "").

(** [onceLog.Write]. *)
Definition Write (r : Runner) (id line : string) : Runner :=
  let seen := contains (default [] (deployed r !! id)) line in
  let deployed' :=
    if once_line line then <[id := default [] (deployed r !! id) ++ [line]]> (deployed r) else deployed r in
  let drop := once_line line && seen in
  MkRunner (rows r) (running r) (parked r) deployed'
    (if drop then log_lines r else log_lines r ++ [(id, text line)]) (ended r).

(** ** The handler's return *)

Inductive outcome :=
  | NoHandler | LogFailed (e : error) | Panicked (p : string) | Returned (err : option error).

(** [call]: the outcome as a state, a reason and a param. *)
Definition call (kind cap : string) (cause : option Cause) (o : outcome) : string * msg * string :=
  match o with
  | NoHandler => (Failed, Sprintf "no handler for job kind %q" [AStr kind], "")
  | LogFailed e => (Failed, Sprintf "opening the job log: %s" [AErr e], "")
  | Panicked p => (Failed, Sprintf "panic: %v" [AStr p], "")
  | Returned None => (Done, text "", "")
  | Returned (Some err) =>
      if bool_decide (cause = Some CauseSuperseded) || is_sentinel "ErrSuperseded" err then (Superseded, text "", "")
      else if bool_decide (cause = Some CauseCancelled) then (Cancelled, text "", "")
      else if bool_decide (cause = Some DeadlineExceeded) then
        (Failed, text ("stopped after the " +:+ cap +:+ " cap"), "")
      else if is_sentinel "ErrSkipped" err then (Skipped, Sprintf "%s" [AErr err], "")
      else match IsUnset err with
      | Some p => (Waiting, text "", p)
      | None =>
          match IsNeedsApproval err with
          | Some (_, what) => (Waiting, text "", what)
          | None => (Failed, Sprintf "%s" [AErr err], "")
          end
      end
  end.

(** The line a park writes, unless the job's log last named the same param. *)
Definition park_line (o : outcome) : msg :=
  match o with
  | Returned (Some err) =>
      match IsUnset err with
      | Some p => Sprintf "waiting: %v; the job resumes once it is" [AErr (Unset p)]
      | None =>
          match IsNeedsApproval err with
          | Some (s, w) => Sprintf "%v" [AErr (NeedsApproval s w)]
          | None => text ""
          end
      end
  | _ => text ""
  end.

Definition call_end (cap : string) (o : outcome) (r : Runner) (id : string) : Runner :=
  match running r !! id with
  | None => r
  | Some a =>
      match a_result a with
      | Some _ => r
      | None =>
          let res := call (Kind (a_job a)) cap (a_ctx a) o in
          let '(state, _, param) := res in
          let r' := set_running r (<[id := set_result res a]> (running r)) in
          if String.eqb state Waiting then
            let said := bool_decide (default "" (parked r !! id) = param) in
            MkRunner (rows r') (running r') (<[id := param]> (parked r')) (deployed r')
              (if said then log_lines r' else log_lines r' ++ [(id, park_line o)]) (ended r')
          else r'
      end
  end.

(** The end of [run], under the lock: the row's write and the job leaving
    [running]. *)
Definition run_end (now : Z) (r : Runner) (id : string) : Runner :=
  match running r !! id with
  | None => r
  | Some a =>
      match a_result a with
      | None => r
      | Some (state, reason, param) =>
          let r := set_running r (delete id (running r)) in
          let state' :=
            if String.eqb state Waiting then
              match a_cause a with
              | Some CauseSuperseded => Superseded
              | Some _ => Cancelled
              | None => Waiting
              end
            else state in
          if String.eqb state' Waiting then set_rows r (ParkIfRunning (rows r) (ID (a_job a)) param (a_payload a))
          else
            let r := MkRunner (rows r) (running r) (delete id (parked r)) (delete id (deployed r))
                       (log_lines r) (ended r) in
            set_ended (set_rows r (Finish (rows r) (a_job a) state' reason now)) id
      end
  end.

(** ** The queue *)

Definition busyWorkers (r : Runner) : Z :=
  Z.of_nat (length (List.filter (fun kv => negb (idle kv.2)) (map_to_list (running r)))).

Definition start (now : Z) (j : Job) (r : Runner) : Runner :=
  let j := started j now in
  set_running (set_rows r (Update (rows r) j))
    (<[ID j := MkActive (j_LockSet j) None None false false false j (Payload j) None]> (running r)).

Definition busy_locks (r : Runner) : list (list string) := map (fun kv => a_lock kv.2) (map_to_list (running r)).

(** [hold] answers [opt.Hold()] when job [id] would start. *)
Fixpoint pass_loop (n : Z) (hold : string -> bool) (now : Z) (busy : list (list string)) (queued : list Job)
    (r : Runner) : Runner :=
  match queued with
  | [] => r
  | j :: queued =>
      if n <=? busyWorkers r then r
      else
        let blocked := existsb (Overlaps (j_LockSet j)) busy in
        let busy := busy ++ [j_LockSet j] in
        if blocked then pass_loop n hold now busy queued r
        else if hold (ID j) then r
        else pass_loop n hold now busy queued (start now j r)
  end.

Definition pass (n : Z) (hold : string -> bool) (now : Z) (r : Runner) : Runner :=
  pass_loop n hold now (busy_locks r) (List_jobs (rows r) [Queued]) r.

(** One waiting job of [unpark]; [paramSet] is [opt.ParamSet], if any. *)
Definition unpark_one (paramSet : option (Job -> res bool)) (r : Runner) (j : Job) : Runner :=
  let skip :=
    match paramSet, WaitingParam j with
    | Some f, Some _ => match f j with Ok ok => negb ok | Err _ => true end
    | _, _ => false
    end in
  if skip then r else set_rows r (Requeue (rows r) j).

Definition finish_ended (now : Z) (state : string) (reason : msg) (r : Runner) (j : Job) : Runner :=
  set_ended (set_rows r (Finish (rows r) j state reason now)) (ID j).

Definition supersede_one (now : Z) (j : Job) (r : Runner) (o : Job) : Runner :=
  if negb (Overlaps (j_LockSet j) (j_LockSet o)) || negb (Supersedes j o) then r
  else match running r !! ID o with
  | Some a =>
      if swapping a then r
      else set_running r (<[ID o := cancel CauseSuperseded (set_superseded a)]> (running r))
  | None =>
      if negb (in_state Running o) then finish_ended now Superseded (text "") r o else r
  end.

(** A request to queue: the values [Create] stores. *)
Record Request := MkRequest {
  q_id : string; q_kind : string; q_lock : list string; q_payload : string; q_release : option string;
  q_logDir : string; q_actor : string; q_key : string }.

Definition request_job (q : Request) (now : Z) : Job :=
  new_job (q_id q) (q_kind q) (q_lock q) (q_payload q) (q_release q) (q_logDir q) (q_actor q) (q_key q) now.

(** An id already in the table is a key violation: [Create] fails. *)
Definition Create (r : Runner) (j : Job) : res Runner :=
  match rows r !! ID j with
  | Some _ => Err (New "UNIQUE constraint failed: jobs.id")
  | None => Ok (set_rows r (<[ID j := j]> (rows r)))
  end.

Definition Enqueue (now : Z) (q : Request) (r : Runner) : res Runner :=
  let older := List_jobs (rows r) [Queued; Waiting; Running] in
  let j := request_job q now in
  r <-? Create r j ;;
  Ok (fold_left (supersede_one now j) older r).

Definition Skip (now : Z) (q : Request) (reason : msg) (r : Runner) : res Runner :=
  let j := request_job q now in
  r <-? Create r j ;;
  Ok (set_rows r (Finish (rows r) j Skipped reason now)).

Definition Cancel (now : Z) (id : string) (r : Runner) : res Runner :=
  match running r !! id with
  | Some a =>
      if swapping a then
        Err (Conflictf "the job is swapping containers and cannot be stopped now" [])
      else Ok (set_running r (<[id := cancel CauseCancelled a]> (running r)))
  | None =>
      match rows r !! id with
      | None => Err ErrNotFound
      | Some j =>
          if negb (Cancellable (j_State j)) then Err ErrFinished
          else Ok (finish_ended now Cancelled (text "") r j)
      end
  end.

(** [Start] in a new process: the memory is empty, the rows are the old ones. *)
Definition boot_one (survived : Job -> bool) (now : Z) (r : Runner) (j : Job) : Runner :=
  if survived j then finish_ended now Done (text "") r j
  else finish_ended now Failed (text "stackrd restarted while this job ran; run it again") r j.
Definition Start (survived : Job -> bool) (now : Z) (r : Runner) : Runner :=
  let r := MkRunner (rows r) ∅ ∅ ∅ (log_lines r) (ended r) in
  fold_left (boot_one survived now) (List_jobs (rows r) [Running]) r.

(** [Close] cancels what runs; the handlers return in their own time. *)
Definition Close (r : Runner) : Runner := set_running r (cancel CauseShutdown <$> running r).

(** ** Runs *)

Inductive event :=
  | EPass (n : Z) (hold : string -> bool) (now : Z)
  | EUnpark (paramSet : option (Job -> res bool)) (j : Job)
  | EEnqueue (now : Z) (q : Request)
  | ESkip (now : Z) (q : Request) (reason : msg)
  | ECancel (now : Z) (id : string)
  | ESwap (id : string)
  | EIdle (id : string) (v : bool)
  | EWrite (id line : string)
  | EPayload (id payload : string)
  | EDeadline (id : string)
  | EReturn (cap : string) (o : outcome) (id : string)
  | ERunEnd (now : Z) (id : string)
  | EClose
  | EBoot (survived : Job -> bool) (now : Z).

Definition or_same (r : Runner) (x : res Runner) : Runner := match x with Ok r' => r' | Err _ => r end.

Definition step (r : Runner) (e : event) : Runner :=
  match e with
  | EPass n hold now => pass n hold now r
  | EUnpark ps j => unpark_one ps r j
  | EEnqueue now q => or_same r (Enqueue now q r)
  | ESkip now q reason => or_same r (Skip now q reason r)
  | ECancel now id => or_same r (Cancel now id r)
  | ESwap id => (Swap r id).2
  | EIdle id v => Idle r id v
  | EWrite id line => Write r id line
  | EPayload id p => set_running r (alter (set_payload p) id (running r))
  | EDeadline id => set_running r (alter deadline id (running r))
  | EReturn cap o id => call_end cap o r id
  | ERunEnd now id => run_end now r id
  | EClose => Close r
  | EBoot survived now => Start survived now r
  end.

Definition fresh : Runner := MkRunner ∅ ∅ ∅ ∅ [] [].
Definition reachable (r : Runner) : Prop := exists es, fold_left step es fresh = r.

(** ** The invariant *)

Definition result_ok (res : option (string * msg * string)) : Prop :=
  match res with Some (state, _, _) => state = Waiting \/ Terminal state = true | None => True end.

(** A running job's memory against its row. *)
Definition tracks (rs : Rows) (id : string) (a : active) : Prop :=
  ID (a_job a) = id /\ j_LockSet (a_job a) = a_lock a /\ StartedAt (a_job a) <> None /\
  ~ (superseded a = true /\ swapping a = true) /\ result_ok (a_result a) /\
  exists j, rs !! id = Some j /\ j_State j = Running /\ j_LockSet j = a_lock a.

(** How a finished row came to be: its end was reported, or it never ran. *)
Definition accounted (r : Runner) (id : string) (j : Job) : Prop :=
  id ∈ ended r \/ (j_State j = Skipped /\ StartedAt j = None).

Record Inv (r : Runner) : Prop := {
  iv_keyed : keyed (rows r);
  iv_run : forall id a, running r !! id = Some a -> tracks (rows r) id a;
  iv_db : forall id j, rows r !! id = Some j -> j_State j = Running -> is_Some (running r !! id);
  iv_disj : forall i k a b, i <> k -> running r !! i = Some a -> running r !! k = Some b ->
    Overlaps (a_lock a) (a_lock b) = false;
  iv_ended : NoDup (ended r) /\
    forall id, id ∈ ended r -> exists j, rows r !! id = Some j /\ Terminal (j_State j) = true;
  iv_fin : forall id j, rows r !! id = Some j -> Terminal (j_State j) = true -> accounted r id j }.

(** No finished row moves. *)
Definition frozen (r r' : Runner) : Prop :=
  forall id j, rows r !! id = Some j -> Terminal (j_State j) = true -> rows r' !! id = Some j.

Definition good (r r' : Runner) : Prop := Inv r -> Inv r' /\ frozen r r'.

Lemma good_refl r : good r r.
Proof. intros Hi. split; [done|]. intros id j ? _. done. Qed.
Lemma good_trans a b c : good a b -> good b c -> good a c.
Proof. intros H1 H2 Hi. destruct (H1 Hi) as [Hb F1]. destruct (H2 Hb) as [? F2]. split; [done|]. unfold frozen in *. eauto. Qed.
#[export] Hint Resolve good_refl : go.

Lemma Update_eq rs j id : rs !! ID j = Some id -> Update rs j = <[ID j := j]> rs.
Proof. intros E. unfold Update. by rewrite E. Qed.

Lemma live_state st : Live st = true <-> st = Queued \/ st = Running \/ st = Waiting.
Proof. unfold Live, contains. rewrite bool_decide_eq_true. set_solver. Qed.

Lemma terminal_not st : Terminal st = true -> st <> Queued /\ st <> Running /\ st <> Waiting.
Proof. unfold Terminal. intros H. bsimpl. split_and!; intros ->; done. Qed.

(** Finishing a queued or parked row, with its end reported. *)
Lemma good_finish r j now st reason :
  rows r !! ID j = Some j -> (j_State j = Queued \/ j_State j = Waiting) -> Terminal st = true ->
  good r (finish_ended now st reason r j).
Proof.
  intros Hj Hst Ht [Hk Hrun Hdb Hdis [Hnd Hend] Hfin].
  assert (Hnt : forall j', rows r !! ID j = Some j' -> Terminal (j_State j') = false).
  { intros j' Hj'. rewrite Hj in Hj'. injection Hj' as <-. by destruct Hst as [-> | ->]. }
  unfold finish_ended, Finish. rewrite (Update_eq _ (finished j st reason now) j) by done. simpl.
  split.
  - constructor; simpl.
    + intros id j0. rewrite lookup_insert_Some. intros [[<- <-]|[_ ?]]; [done|eauto].
    + intros id a Ha. destruct (Hrun _ _ Ha) as (? & ? & ? & ? & ? & j0 & ? & Hs & ?).
      split_and!; try done. exists j0. rewrite lookup_insert_ne; [done|].
      intros <-. simplify_eq. by destruct Hst as [E|E]; rewrite E in Hs.
    + intros id j0. rewrite lookup_insert_Some. intros [[<- <-]|[_ ?]] Hs; [|by eapply Hdb].
      simpl in Hs. by apply terminal_not in Ht as (_ & ? & _).
    + done.
    + split.
      * apply NoDup_app. split_and!; [done| |apply NoDup_singleton].
        intros id Hin ->%list_elem_of_singleton. destruct (Hend _ Hin) as (j0 & E & Ht').
        by rewrite (Hnt _ E) in Ht'.
      * intros id [Hin| ->%list_elem_of_singleton]%elem_of_app.
        -- destruct (Hend _ Hin) as (j0 & E & ?). destruct (decide (ID j = id)) as [<-|].
           ++ rewrite lookup_insert_eq. by eexists.
           ++ rewrite lookup_insert_ne by done. eauto.
        -- rewrite lookup_insert_eq. by eexists.
    + intros id j0. unfold accounted. simpl. rewrite lookup_insert_Some.
      intros [[<- <-]|[_ ?]] ?; [left; set_solver|]. destruct (Hfin id j0); [done..| |by right].
      left. set_solver.
  - intros id j0 Hid Ht'. simpl. destruct (decide (ID j = id)) as [<-|].
    + by rewrite (Hnt _ Hid) in Ht'.
    + by rewrite lookup_insert_ne.
Qed.

(** Changing what a running job's memory says, not what it is. *)
Lemma good_active r id a a' :
  running r !! id = Some a -> a_lock a' = a_lock a -> a_job a' = a_job a ->
  (~ (superseded a = true /\ swapping a = true) -> ~ (superseded a' = true /\ swapping a' = true)) ->
  (result_ok (a_result a) -> result_ok (a_result a')) ->
  good r (set_running r (<[id := a']> (running r))).
Proof.
  intros Ha Hl Hj Hss Hres [Hk Hrun Hdb Hdis Hend Hfin]. split; [|by intros ?? E _]. constructor; simpl; try done.
  - intros id' b. rewrite lookup_insert_Some. intros [[<- <-]|[_ Hb]]; [|by apply Hrun].
    destruct (Hrun _ _ Ha) as (? & ? & ? & ? & ? & Hrow). unfold tracks. rewrite Hl, Hj. auto 8.
  - intros id' j Hid Hs. destruct (decide (id = id')) as [<-|]; [rewrite lookup_insert_eq; eauto|].
    rewrite lookup_insert_ne by done. by eapply Hdb.
  - intros i k b c Hne. rewrite !lookup_insert_Some.
    intros [[<- <-]|[? Hb]] [[<- <-]|[? Hc]]; try done; rewrite ?Hl; eauto.
Qed.

Lemma good_alter r id f :
  (forall a, a_lock (f a) = a_lock a /\ a_job (f a) = a_job a /\ superseded (f a) = superseded a /\
     swapping (f a) = swapping a /\ a_result (f a) = a_result a) ->
  good r (set_running r (alter f id (running r))).
Proof.
  intros Hf. destruct (running r !! id) as [a|] eqn:Ha.
  - rewrite (alter_alt_Some _ _ _ a) by done. destruct (Hf a) as (? & ? & Hs & Hw & Hr).
    apply (good_active r id a); [done..| |]; [by rewrite Hs, Hw|by rewrite Hr].
  - replace (alter f id (running r)) with (running r); [destruct r; apply good_refl|].
    apply map_eq. intros i. rewrite lookup_alter. case_decide as E; [subst i|done]. by rewrite Ha.
Qed.

(** A job with no row yet. *)
Lemma good_create r j :
  rows r !! ID j = None -> j_State j = Queued -> good r (set_rows r (<[ID j := j]> (rows r))).
Proof.
  intros Hj Hs [Hk Hrun Hdb Hdis [Hnd Hend] Hfin].
  assert (Hold : forall id j0, rows r !! id = Some j0 -> <[ID j := j]> (rows r) !! id = Some j0).
  { intros id j0 E. rewrite lookup_insert_ne; [done|]. intros <-. congruence. }
  split; [|intros id j0 E _; by apply Hold]. constructor; simpl; try done.
  - intros id j0. rewrite lookup_insert_Some. intros [[<- <-]|[_ ?]]; [done|eauto].
  - intros id a Ha. destruct (Hrun _ _ Ha) as (? & ? & ? & ? & ? & j0 & ? & ? & ?).
    split_and!; try done. exists j0. by rewrite (Hold _ j0).
  - intros id j0. rewrite lookup_insert_Some. intros [[<- <-]|[_ ?]] E; [by rewrite Hs in E|by eapply Hdb].
  - split; [done|]. intros id Hin. destruct (Hend _ Hin) as (j0 & E & ?). exists j0. by rewrite (Hold _ j0).
  - intros id j0. rewrite lookup_insert_Some. intros [[<- <-]|[_ ?]] E; [by rewrite Hs in E|by apply Hfin].
Qed.

Lemma good_same r r' : rows r' = rows r -> running r' = running r -> ended r' = ended r -> good r r'.
Proof.
  destruct r, r'. simpl. intros -> -> -> [Hk Hrun Hdb Hdis Hend Hfin].
  split; [by constructor|by intros ?? E _].
Qed.

(** The row of a queued job becomes running, and its memory starts. *)
Lemma good_start r j now :
  rows r !! ID j = Some j -> j_State j = Queued ->
  (forall id a, running r !! id = Some a -> Overlaps (j_LockSet j) (a_lock a) = false) ->
  good r (start now j r).
Proof.
  intros Hj Hs Hfree [Hk Hrun Hdb Hdis [Hnd Hend] Hfin].
  assert (Hnone : running r !! ID j = None).
  { destruct (running r !! ID j) as [a|] eqn:E; [|done].
    destruct (Hrun _ _ E) as (_ & _ & _ & _ & _ & j0 & E' & Hs' & _). simplify_eq. by rewrite Hs in Hs'. }
  assert (Hnt : Terminal (j_State j) = false) by (by rewrite Hs).
  unfold start. rewrite (Update_eq _ (started j now) j) by done. simpl. split.
  - constructor; simpl.
    + intros id j0. rewrite lookup_insert_Some. intros [[<- <-]|[_ ?]]; [done|eauto].
    + intros id a. rewrite lookup_insert_Some. intros [[<- <-]|[Hne Ha]].
      * unfold tracks. simpl. split_and!; [done..|by intros [??]|done|]. exists (started j now).
        by rewrite lookup_insert_eq.
      * destruct (Hrun _ _ Ha) as (? & ? & ? & ? & ? & j0 & ? & ? & ?). split_and!; try done.
        exists j0. by rewrite lookup_insert_ne.
    + intros id j0 Hid Hs0. destruct (decide (ID j = id)) as [<-|]; [rewrite lookup_insert_eq; eauto|].
      rewrite lookup_insert_ne by done. rewrite lookup_insert_ne in Hid by done. by eapply Hdb.
    + intros i k a b Hne. rewrite !lookup_insert_Some.
      intros [[<- <-]|[? Ha]] [[<- <-]|[? Hb]]; try done; simpl; eauto.
      rewrite Overlaps_sym. eauto.
    + split; [done|]. intros id Hin. destruct (Hend _ Hin) as (j0 & E & ?).
      exists j0. rewrite lookup_insert_ne; [done|]. intros <-. simplify_eq. congruence.
    + intros id j0. rewrite lookup_insert_Some. intros [[<- <-]|[_ ?]] E; [done|by apply Hfin].
  - intros id j0 E Ht. simpl. rewrite lookup_insert_ne; [done|]. intros <-. simplify_eq. congruence.
Qed.

Lemma good_skip r j now reason :
  rows r !! ID j = None -> StartedAt j = None ->
  good r (set_rows r (Finish (<[ID j := j]> (rows r)) j Skipped reason now)).
Proof.
  intros Hj Hst [Hk Hrun Hdb Hdis [Hnd Hend] Hfin].
  unfold Finish. rewrite (Update_eq _ (finished j Skipped reason now) j) by apply lookup_insert_eq.
  simpl. rewrite insert_insert_eq. set (j' := finished j Skipped reason now).
  assert (Hold : forall id j0, rows r !! id = Some j0 -> <[ID j := j']> (rows r) !! id = Some j0).
  { intros id j0 E. rewrite lookup_insert_ne; [done|]. intros <-. congruence. }
  split; [|intros id j0 E _; by apply Hold]. constructor; simpl; try done.
  - intros id j0. rewrite lookup_insert_Some. intros [[<- <-]|[_ ?]]; [done|eauto].
  - intros id a Ha. destruct (Hrun _ _ Ha) as (? & ? & ? & ? & ? & j0 & ? & ? & ?).
    split_and!; try done. exists j0. by rewrite (Hold _ j0).
  - intros id j0. rewrite lookup_insert_Some. intros [[<- <-]|[_ ?]] E; [done|by eapply Hdb].
  - split; [done|]. intros id Hin. destruct (Hend _ Hin) as (j0 & E & ?). exists j0. by rewrite (Hold _ j0).
  - intros id j0. rewrite lookup_insert_Some. intros [[<- <-]|[_ ?]] E; [by right|by apply Hfin].
Qed.

(** A job leaves [running]: its row moves to [j'], which ends it or parks it. *)
Lemma good_leave r id a j' (fin : bool) :
  running r !! id = Some a -> ID j' = id ->
  (if fin then Terminal (j_State j') = true else j_State j' = Waiting) ->
  let r' := MkRunner (<[id := j']> (rows r)) (delete id (running r)) (parked r) (deployed r)
              (log_lines r) (if fin then ended r ++ [id] else ended r) in
  good r r'.
Proof.
  intros Ha Hid Hst r' [Hk Hrun Hdb Hdis [Hnd Hend] Hfin].
  destruct (Hrun _ _ Ha) as (_ & _ & _ & _ & _ & j0 & Hj0 & Hs0 & _).
  assert (Hnt : Terminal (j_State j0) = false) by (by rewrite Hs0).
  assert (Hnr : j_State j' <> Running).
  { destruct fin; [by destruct (terminal_not _ Hst) as (_ & ? & _)|by rewrite Hst]. }
  split.
  - constructor; simpl.
    + intros id' j1. rewrite lookup_insert_Some. intros [[<- <-]|[_ ?]]; [done|eauto].
    + intros id' b. rewrite lookup_delete_Some. intros [Hne Hb].
      destruct (Hrun _ _ Hb) as (? & ? & ? & ? & ? & j1 & ? & ? & ?). split_and!; try done.
      exists j1. by rewrite lookup_insert_ne.
    + intros id' j1. rewrite lookup_insert_Some. intros [[<- <-]|[Hne ?]] ?; [done|].
      rewrite lookup_delete_ne by done. by eapply Hdb.
    + intros i k b c Hne. rewrite !lookup_delete_Some. intros [? ?] [? ?]. by eapply (Hdis i k).
    + assert (id ∉ ended r) as Hnin.
      { intros Hin. destruct (Hend _ Hin) as (j1 & E & Ht). congruence. }
      split.
      * destruct fin; [|done]. apply NoDup_app. split_and!; [done|set_solver|apply NoDup_singleton].
      * intros id' Hin. destruct (decide (id = id')) as [<-|Hne].
        { destruct fin; [|done]. exists j'. by rewrite lookup_insert_eq. }
        rewrite lookup_insert_ne by done. apply Hend. destruct fin; set_solver.
    + intros id' j1. unfold accounted. simpl. rewrite lookup_insert_Some. intros [[<- <-]|[Hne E]] Ht.
      * destruct fin; [left; set_solver|]. rewrite Hst in Ht. done.
      * destruct (Hfin _ _ E Ht) as [?|?]; [left; destruct fin; set_solver|by right].
  - intros id' j1 E Ht. simpl. rewrite lookup_insert_ne; [done|]. intros <-. congruence.
Qed.

Lemma call_ok kind cap cause o : result_ok (Some (call kind cap cause o)).
Proof.
  unfold call. destruct o as [|e|p|[err|]]; try (by right).
  repeat case_match; first [by left|by right].
Qed.

Lemma good_call_end cap o r id : good r (call_end cap o r id).
Proof.
  unfold call_end. destruct (running r !! id) as [a|] eqn:Ha; [|apply good_refl].
  destruct (a_result a) eqn:Hr; [apply good_refl|].
  pose proof (call_ok (Kind (a_job a)) cap (a_ctx a) o) as Hok.
  destruct (call _ _ _ _) as [[state m] param] eqn:Ec.
  assert (good r (set_running r (<[id := set_result (state, m, param) a]> (running r)))) as Hg.
  { apply (good_active r id a); [done..|]. intros _. exact Hok. }
  destruct (String.eqb state Waiting); [|exact Hg].
  eapply good_trans; [exact Hg|]. by apply good_same.
Qed.

Lemma good_run_end now r id : good r (run_end now r id).
Proof.
  intros Hi. revert Hi. unfold run_end. destruct (running r !! id) as [a|] eqn:Ha; [|apply good_refl].
  destruct (a_result a) as [[[state m] param]|] eqn:Hr; [|apply good_refl].
  intros Hi. destruct (iv_run _ Hi _ _ Ha) as (Hid & Hl & Hst & Hss & Hres & j0 & Hj0 & Hs0 & Hl0).
  rewrite Hr in Hres. simpl in Hres.
  set (state' := if String.eqb state Waiting then _ else _).
  assert (state' = Waiting \/ Terminal state' = true) as Hs'.
  { unfold state'. destruct (String.eqb_spec state Waiting); [|by destruct Hres; [|right]].
    destruct (a_cause a) as [[]|]; first [by left|by right]. }
  destruct (String.eqb_spec state' Waiting) as [Hw|Hw].
  - revert Hi. set (j' := MkJob (ID j0) (Kind j0) Waiting (ReleaseID j0) (j_LockSet j0) (a_payload a)
      (Some param) (LogPath j0) (j_Error j0) (CreatedAt j0) (ActorID j0) (ActorKeyID j0)
      (StartedAt j0) (FinishedAt j0)).
    replace (set_rows _ _) with (MkRunner (<[id := j']> (rows r)) (delete id (running r)) (parked r)
      (deployed r) (log_lines r) (ended r)).
    + intros Hi. apply (good_leave r id a j' false); [done|exact (iv_keyed _ Hi _ _ Hj0)|done|done].
    + unfold set_rows, ParkIfRunning. simpl. rewrite Hid, Hj0. unfold in_state.
      by rewrite Hs0.
  - destruct Hs' as [?|Ht]; [done|]. revert Hi. unfold Finish.
    rewrite (Update_eq _ (finished (a_job a) state' m now) j0) by (simpl; by rewrite Hid).
    simpl. rewrite Hid. intros Hi.
    destruct (good_leave r id a (finished (a_job a) state' m now) true) as [HI HF]; [done..|].
    refine (good_trans _ _ _ (fun _ => conj HI HF) _ Hi). by apply good_same.
Qed.

Lemma good_requeue r id : good r (set_rows r (RequeueIfWaiting (rows r) id)).
Proof.
  unfold RequeueIfWaiting. destruct (rows r !! id) as [j|] eqn:Hj; [|by apply good_same].
  unfold in_state. destruct (String.eqb_spec (j_State j) Waiting) as [Hw|]; [|by apply good_same].
  intros [Hk Hrun Hdb Hdis [Hnd Hend] Hfin].
  assert (Hnt : Terminal (j_State j) = false) by (by rewrite Hw).
  split.
  - constructor; simpl; try done.
    + intros id' j1. rewrite lookup_insert_Some. intros [[<- <-]|[_ ?]]; [exact (Hk _ _ Hj)|eauto].
    + intros id' a Ha. destruct (Hrun _ _ Ha) as (? & ? & ? & ? & ? & j1 & ? & Hs & ?).
      split_and!; try done. exists j1. rewrite lookup_insert_ne; [done|]. intros <-. simplify_eq.
      by rewrite Hw in Hs.
    + intros id' j1. rewrite lookup_insert_Some. intros [[<- <-]|[_ ?]] Hs; [done|by eapply Hdb].
    + split; [done|]. intros id' Hin. destruct (Hend _ Hin) as (j1 & E & ?). exists j1.
      rewrite lookup_insert_ne; [done|]. intros <-. congruence.
    + intros id' j1. rewrite lookup_insert_Some. intros [[<- <-]|[_ ?]] ?; [done|by apply Hfin].
  - intros id' j1 E Ht. simpl. rewrite lookup_insert_ne; [done|]. intros <-. congruence.
Qed.

(** A snapshot of rows still as they were read. *)
Definition current (r : Runner) (js : list Job) : Prop :=
  NoDup (map ID js) /\ Forall (fun j => rows r !! ID j = Some j) js.

Lemma current_list r states : Inv r -> current r (List_jobs (rows r) states).
Proof.
  intros Hi. split; [by apply List_nodup, iv_keyed|]. apply Forall_forall. intros j Hj.
  by eapply List_lookup; [apply iv_keyed|].
Qed.

(** Writing the head of a snapshot leaves the rest of it current. *)
Lemma current_tail r j js r' :
  current r (j :: js) -> (forall id, id <> ID j -> rows r' !! id = rows r !! id) -> current r' js.
Proof.
  intros [Hnd HF] Hsame. simpl in Hnd. apply NoDup_cons in Hnd as [Hnin Hnd].
  apply Forall_cons in HF as [_ HF]. split; [done|]. apply Forall_forall. intros o Ho.
  rewrite Hsame; [by apply (proj1 (Forall_forall _ _) HF)|]. intros E. apply Hnin. rewrite <- E.
  apply list_elem_of_fmap. eauto.
Qed.

Lemma Update_other rs j id : id <> ID j -> Update rs j !! id = rs !! id.
Proof. intros Hne. unfold Update. case_match; [by rewrite lookup_insert_ne|done]. Qed.

Lemma good_pass_loop n hold now busy queued r :
  Inv r -> current r queued -> Forall (fun j => j_State j = Queued) queued ->
  (forall id a, running r !! id = Some a -> a_lock a ∈ busy) ->
  Inv (pass_loop n hold now busy queued r) /\ frozen r (pass_loop n hold now busy queued r).
Proof.
  revert busy r. induction queued as [|j queued IH]; intros busy r Hi Hc Hq Hb; simpl; [by apply good_refl|].
  case_match; [by apply good_refl|]. pose proof Hc as [Hnd HF].
  apply Forall_cons in HF as [Hj HF]. apply Forall_cons in Hq as [Hs Hq].
  destruct (existsb _ busy) eqn:Eb.
  - apply IH; [done| |done|]; [|set_solver].
    apply (current_tail r j queued r); done.
  - case_match; [by apply good_refl|].
    assert (Hfree : forall id a, running r !! id = Some a -> Overlaps (j_LockSet j) (a_lock a) = false).
    { intros id a Ha. apply Hb in Ha. apply not_true_iff_false. intros Ho.
      apply not_true_iff_false in Eb. apply Eb, existsb_exists. exists (a_lock a).
      by rewrite <- list_elem_of_In. }
    destruct (good_start r j now Hj Hs Hfree Hi) as [Hi1 Hf1].
    destruct (IH (busy ++ [j_LockSet j]) (start now j r)) as [Hi2 Hf2]; [done| |done| |].
    + eapply current_tail; [exact Hc|]. intros id Hne. unfold start. simpl. by apply Update_other.
    + intros id a. unfold start. simpl. rewrite lookup_insert_Some.
      intros [[<- <-]|[_ Ha]]; [set_solver|]. apply Hb in Ha. set_solver.
    + split; [done|]. unfold frozen in *. eauto.
Qed.

Lemma busy_locks_elem r id a : running r !! id = Some a -> a_lock a ∈ busy_locks r.
Proof.
  intros Ha. apply list_elem_of_fmap. exists (id, a). split; [done|]. by apply elem_of_map_to_list.
Qed.

Lemma queued_states rs states : Forall (fun j => j_State j ∈ states) (List_jobs rs states).
Proof. apply Forall_forall. by intros j [_ ?]%elem_of_List. Qed.

Lemma good_pass n hold now r : good r (pass n hold now r).
Proof.
  intros Hi. apply good_pass_loop; [done|by apply current_list| |apply busy_locks_elem].
  eapply Forall_impl; [apply queued_states|]. intros j. simpl. by rewrite list_elem_of_singleton.
Qed.

Lemma good_supersede now j older r :
  Inv r -> current r older -> Forall (fun o => j_State o ∈ [Queued; Waiting; Running]) older ->
  Inv (fold_left (supersede_one now j) older r) /\ frozen r (fold_left (supersede_one now j) older r).
Proof.
  revert r. induction older as [|o older IH]; intros r Hi Hc Hl; simpl; [by apply good_refl|].
  pose proof Hc as [_ HF]. apply Forall_cons in HF as [Ho _]. apply Forall_cons in Hl as [Hs Hl].
  assert (good r (supersede_one now j r o) /\
    forall id, id <> ID o -> rows (supersede_one now j r o) !! id = rows r !! id) as [Hg Hsame].
  { unfold supersede_one. case_match; [split; [apply good_refl|done]|].
    destruct (running r !! ID o) as [a|] eqn:Ha.
    - destruct (swapping a) eqn:Es; [split; [apply good_refl|done]|]. split; [|done].
      apply (good_active r (ID o) a); [done..| |done]. simpl. rewrite Es. by intros _ [_ ?].
    - unfold in_state. destruct (String.eqb_spec (j_State o) Running) as [|Hr]; simpl;
        [split; [apply good_refl|done]|].
      split; [|intros id Hne; simpl; by apply Update_other].
      apply good_finish; [done| |done]. set_solver. }
  destruct (Hg Hi) as [Hi1 Hf1]. destruct (IH (supersede_one now j r o)) as [Hi2 Hf2]; [done| |done|].
  - by eapply current_tail.
  - split; [done|]. unfold frozen in *. eauto.
Qed.

Lemma good_enqueue now q r : good r (or_same r (Enqueue now q r)).
Proof.
  intros Hi. unfold Enqueue, Create. set (j := request_job q now).
  destruct (rows r !! ID j) eqn:Hj; [by apply good_refl|]. simpl or_same.
  destruct (good_create r j Hj eq_refl Hi) as [Hi1 Hf1].
  set (r1 := set_rows r (<[ID j := j]> (rows r))) in *.
  destruct (good_supersede now j (List_jobs (rows r) [Queued; Waiting; Running]) r1) as [Hi2 Hf2]; [done| | |].
  - destruct (current_list r [Queued; Waiting; Running] Hi) as [Hnd HF]. split; [done|].
    eapply Forall_impl; [exact HF|]. intros o Ho. simpl. rewrite lookup_insert_ne; [done|].
    intros E. cbv beta in Ho. rewrite <- E in Ho. change (rows r !! q_id q = None) in Hj. congruence.
  - apply queued_states.
  - split; [done|]. unfold frozen in *. eauto.
Qed.

Lemma good_cancel now id r : good r (or_same r (Cancel now id r)).
Proof.
  unfold Cancel. destruct (running r !! id) as [a|] eqn:Ha.
  - destruct (swapping a); [apply good_refl|]. by apply (good_active r id a).
  - destruct (rows r !! id) as [j|] eqn:Hj; [|apply good_refl].
    destruct (negb _) eqn:Ec; [apply good_refl|]. intros Hi. simpl.
    apply good_finish; [by rewrite (iv_keyed _ Hi _ _ Hj)| |done|done].
    bsimpl. unfold Cancellable in Ec. apply orb_true_iff in Ec as [?|?]; bsimpl; auto.
Qed.

Lemma good_close r : good r (Close r).
Proof.
  intros [Hk Hrun Hdb Hdis Hend Hfin]. split; [|by intros ?? E _]. constructor; simpl; try done.
  - intros id a. rewrite lookup_fmap, fmap_Some. intros (b & Hb & ->). by apply (Hrun _ _ Hb).
  - intros id j Hj Hs. rewrite lookup_fmap. destruct (Hdb _ _ Hj Hs) as [a ->]. by eexists.
  - intros i k a b Hne. rewrite !lookup_fmap, !fmap_Some. intros (a' & ? & ->) (b' & ? & ->).
    by apply (Hdis i k a' b').
Qed.

(** A new process: the rows alone, with the old process's jobs still running. *)
Definition BootInv (r : Runner) (stale : list Job) : Prop :=
  running r = ∅ /\ keyed (rows r) /\ current r stale /\
  (forall id j, rows r !! id = Some j -> j_State j = Running <-> j ∈ stale) /\
  (NoDup (ended r) /\ forall id, id ∈ ended r -> exists j, rows r !! id = Some j /\ Terminal (j_State j) = true) /\
  (forall id j, rows r !! id = Some j -> Terminal (j_State j) = true -> accounted r id j).

Lemma boot_step r j stale now st reason :
  BootInv r (j :: stale) -> Terminal st = true ->
  BootInv (finish_ended now st reason r j) stale /\ frozen r (finish_ended now st reason r j).
Proof.
  intros (Hrun & Hk & Hc & Hst & [Hnd Hend] & Hfin) Ht.
  pose proof Hc as [Hnodup HF]. apply Forall_cons in HF as [Hj HF].
  apply NoDup_cons in Hnodup as [Hnin Hnodup].
  assert (Hs : j_State j = Running) by (apply (Hst _ _ Hj); set_solver).
  assert (Hnt : Terminal (j_State j) = false) by (by rewrite Hs).
  unfold finish_ended, Finish. rewrite (Update_eq _ (finished j st reason now) j) by done. simpl.
  split; [split_and!|].
  - done.
  - intros id j0. simpl. rewrite lookup_insert_Some. intros [[<- <-]|[_ ?]]; [done|by apply Hk].
  - eapply current_tail; [exact Hc|]. intros id Hne. simpl. by rewrite lookup_insert_ne.
  - intros id j0. simpl. rewrite lookup_insert_Some. intros [[<- <-]|[Hne E]].
    + simpl. split.
      * intros ->. done.
      * intros Hin. destruct Hnin. apply list_elem_of_fmap. by exists (finished j st reason now).
    + rewrite (Hst _ _ E). split; [|set_solver]. intros [->|?]%elem_of_cons; [|done].
      apply Hk in E. congruence.
  - simpl. apply NoDup_app. split_and!; [done| |apply NoDup_singleton].
    intros id Hin ->%list_elem_of_singleton. destruct (Hend _ Hin) as (j0 & E & ?). congruence.
  - simpl. intros id [Hin| ->%list_elem_of_singleton]%elem_of_app.
    + destruct (Hend _ Hin) as (j0 & E & ?). destruct (decide (ID j = id)) as [<-|]; [congruence|].
      rewrite lookup_insert_ne by done. eauto.
    + rewrite lookup_insert_eq. by eexists.
  - intros id j0. unfold accounted. simpl. rewrite lookup_insert_Some.
    intros [[<- <-]|[_ E]] Ht0; [left; set_solver|].
    destruct (Hfin _ _ E Ht0) as [?|?]; [left; set_solver|by right].
  - intros id j0 E Ht0. simpl. rewrite lookup_insert_ne; [done|]. intros <-. congruence.
Qed.

Lemma good_boot survived now r : good r (Start survived now r).
Proof.
  intros Hi. unfold Start. set (r0 := MkRunner (rows r) ∅ ∅ ∅ (log_lines r) (ended r)).
  assert (BootInv r0 (List_jobs (rows r) [Running])) as Hb.
  { pose proof (current_list r [Running] Hi). destruct Hi as [Hk Hrun Hdb Hdis Hend Hfin].
    do 3 (split; [done|]). split; [|done]. intros id j Hj. rewrite elem_of_List, list_elem_of_singleton.
    split; [eauto|by intros [_ ?]]. }
  assert (frozen r r0) as Hf0 by (intros ?? E _; exact E).
  enough (Inv (fold_left (boot_one survived now) (List_jobs (rows r) [Running]) r0) /\
    frozen r0 (fold_left (boot_one survived now) (List_jobs (rows r) [Running]) r0)) as [H1 H2].
  { split; [done|]. unfold frozen in *. eauto. }
  clear Hf0. revert Hb. generalize (List_jobs (rows r) [Running]) r0. clear r0 Hi.
  intros stale. induction stale as [|j stale IH]; intros r0 Hb; simpl.
  - destruct Hb as (Hrun & Hk & _ & Hst & Hend & Hfin). split; [|by intros ?? E _].
    constructor; try done.
    + intros id a. by rewrite Hrun, lookup_empty.
    + intros id j Hj Hs. apply (Hst _ _ Hj) in Hs. by apply not_elem_of_nil in Hs.
    + intros i k a b _. by rewrite Hrun, lookup_empty.
  - assert (BootInv (boot_one survived now r0 j) stale /\ frozen r0 (boot_one survived now r0 j)) as [Hb1 Hf1].
    { unfold boot_one. destruct (survived j); by apply boot_step. }
    destruct (IH _ Hb1) as [Hi2 Hf2]. split; [done|]. unfold frozen in *. eauto.
Qed.

Lemma good_step r e : good r (step r e).
Proof.
  destruct e; cbn [step].
  - apply good_pass.
  - unfold unpark_one. repeat case_match; first [apply good_refl|apply good_requeue].
  - apply good_enqueue.
  - intros Hi. unfold Skip, Create. destruct (rows r !! _) eqn:Hj; [by apply good_refl|].
    by apply (good_skip r (request_job q now) now reason).
  - apply good_cancel.
  - unfold Swap. destruct (running r !! id) as [a|] eqn:Ha; [|apply good_refl].
    destruct (superseded a) eqn:Es; [apply good_refl|].
    apply (good_active r id a); [done..| |done]. simpl. rewrite Es. by intros _ [? _].
  - by apply good_alter.
  - by apply good_same.
  - by apply good_alter.
  - by apply good_alter.
  - apply good_call_end.
  - apply good_run_end.
  - apply good_close.
  - apply good_boot.
Qed.

Lemma fresh_inv : Inv fresh.
Proof.
  constructor; simpl; try (by intros ?? E; rewrite lookup_empty in E).
  - by intros ????? E; rewrite lookup_empty in E.
  - split; [constructor|]. set_solver.
Qed.

Lemma reachable_inv r : reachable r -> Inv r.
Proof.
  intros [es <-]. assert (forall r, Inv r -> Inv (fold_left step es r)) as H.
  { induction es as [|e es IH]; intros r Hi; simpl; [done|]. apply IH. by destruct (good_step r e Hi). }
  apply H, fresh_inv.
Qed.

(** ** What the queue promises *)

(** C1. Two jobs that run at once never share a tile, and nothing runs beside a
    job that holds every tile: whatever is enqueued, cancelled, parked, swapped
    or restarted in between, a row says running exactly when the process runs
    it, and the locks of two running rows do not overlap. *)
Theorem running_jobs_exclusive r :
  reachable r ->
  (forall id, (exists j, rows r !! id = Some j /\ j_State j = Running) <-> is_Some (running r !! id)) /\
  (forall i k a b, i <> k -> rows r !! i = Some a -> rows r !! k = Some b ->
     j_State a = Running -> j_State b = Running -> Overlaps (j_LockSet a) (j_LockSet b) = false).
Proof.
  intros Hr%reachable_inv. split.
  - intros id. split; [intros (j & Hj & Hs); by eapply iv_db|]. intros [a Ha].
    destruct (iv_run _ Hr _ _ Ha) as (_ & _ & _ & _ & _ & j & ? & ? & _). eauto.
  - intros i k a b Hne Ha Hb Hsa Hsb.
    destruct (iv_db _ Hr _ _ Ha Hsa) as [x Hx], (iv_db _ Hr _ _ Hb Hsb) as [y Hy].
    destruct (iv_run _ Hr _ _ Hx) as (_ & _ & _ & _ & _ & a' & ? & _ & El).
    destruct (iv_run _ Hr _ _ Hy) as (_ & _ & _ & _ & _ & b' & ? & _ & El'). simplify_eq.
    rewrite El, El'. by apply (iv_disj _ Hr i k).
Qed.

(** A finished job is final: no pass, cancel, enqueue, late handler, park,
    requeue or restart changes its row again. *)
Theorem finished_job_is_final r e id j :
  reachable r -> rows r !! id = Some j -> Terminal (j_State j) = true ->
  rows (step r e) !! id = Some j.
Proof. intros Hr%reachable_inv. destruct (good_step r e Hr) as [_ Hf]. apply Hf. Qed.

(** The end of a job is reported exactly once, and only when its row is
    finished for good; every finished row was reported, the skipped ones that
    never ran apart, which hold nothing. *)
Theorem end_reported_once r id j :
  reachable r -> rows r !! id = Some j ->
  NoDup (ended r) /\
  (id ∈ ended r -> Terminal (j_State j) = true) /\
  (Terminal (j_State j) = true -> id ∈ ended r \/ (j_State j = Skipped /\ StartedAt j = None)).
Proof.
  intros Hr%reachable_inv Hj. destruct (iv_ended _ Hr) as [Hnd Hend]. split_and!; [done| |].
  - intros Hin. destruct (Hend _ Hin) as (j' & ? & ?). by simplify_eq.
  - by apply (iv_fin _ Hr).
Qed.

(** *** The pass *)

Lemma busyWorkers_insert r id a v :
  running r !! id = None ->
  busyWorkers (MkRunner v (<[id := a]> (running r)) (parked r) (deployed r) (log_lines r) (ended r)) =
  (if idle a then 0 else 1) + busyWorkers r.
Proof.
  intros Hn. unfold busyWorkers. simpl.
  assert (forall l k : list (string * active), l ≡ₚ k ->
    length (List.filter (fun kv => negb (idle kv.2)) l) =
    length (List.filter (fun kv => negb (idle kv.2)) k)) as Hp.
  { induction 1 as [|x l k _ IH|x y l|]; simpl; repeat case_match; simpl; congruence. }
  rewrite (Hp _ _ (map_to_list_insert _ _ _ Hn)). simpl. destruct (idle a); simpl; lia.
Qed.

(** The pass left to right: what may start, what may not, and when it stops. *)
Definition clear_of (j : Job) (bs : list (list string)) : Prop :=
  Forall (fun b => Overlaps (j_LockSet j) b = false) bs.

Lemma clear_of_existsb j bs : existsb (Overlaps (j_LockSet j)) bs = false <-> clear_of j bs.
Proof.
  unfold clear_of. induction bs as [|b bs IH]; simpl; [done|].
  rewrite orb_false_iff, Forall_cons, IH. done.
Qed.

Definition starts (now : Z) (r' : Runner) (j : Job) : Prop := rows r' !! ID j = Some (started j now).

(** A pass that stops here leaves every row as it is. *)
Lemma stopped n now busy queued r : current r queued ->
  (forall id, id ∉ map ID queued -> rows r !! id = rows r !! id) /\
  (forall pre j post, queued = pre ++ j :: post ->
     rows r !! ID j = Some j \/ (starts now r j /\ clear_of j (busy ++ map j_LockSet pre))) /\
  busyWorkers r <= Z.max n (busyWorkers r).
Proof.
  intros [_ HF]. split_and!; [done| |lia]. intros pre j post E. left.
  apply (proj1 (Forall_forall _ _) HF). rewrite E. set_solver.
Qed.

Lemma queued_not_running r j : Inv r -> rows r !! ID j = Some j -> j_State j = Queued -> running r !! ID j = None.
Proof.
  intros Hi Hj Hs. destruct (running r !! ID j) as [a|] eqn:E; [|done].
  destruct (iv_run _ Hi _ _ E) as (_ & _ & _ & _ & _ & j1 & ? & Hs' & _). simplify_eq. by rewrite Hs in Hs'.
Qed.

Lemma pass_loop_spec n hold now busy queued r :
  Inv r -> current r queued -> Forall (fun j => j_State j = Queued) queued ->
  (forall id a, running r !! id = Some a -> a_lock a ∈ busy) ->
  let r' := pass_loop n hold now busy queued r in
  (forall id, id ∉ map ID queued -> rows r' !! id = rows r !! id) /\
  (forall pre j post, queued = pre ++ j :: post ->
     rows r' !! ID j = Some j \/ (starts now r' j /\ clear_of j (busy ++ map j_LockSet pre))) /\
  ((forall j, j ∈ queued -> hold (ID j) = false) -> n <= busyWorkers r' \/
     forall pre j post, queued = pre ++ j :: post -> clear_of j (busy ++ map j_LockSet pre) -> starts now r' j) /\
  busyWorkers r' <= Z.max n (busyWorkers r).
Proof.
  revert busy r. induction queued as [|j0 queued IH]; intros busy r Hi Hc Hq Hb; simpl.
  { split_and!; [done|by intros [] ???|right; by intros [] ???|lia]. }
  pose proof (stopped n now busy (j0 :: queued) r Hc) as Hstop.
  destruct (Z.leb_spec n (busyWorkers r)) as [Hfull|Hroom].
  { destruct Hstop as (? & ? & ?). split_and!; [done..|by left|done]. }
  pose proof Hc as [Hnd HF]. apply NoDup_cons in Hnd as [Hnin Hnd].
  apply Forall_cons in HF as [Hj HF]. apply Forall_cons in Hq as [Hs Hq].
  destruct (existsb _ busy) eqn:Eb.
  - destruct (IH (busy ++ [j_LockSet j0]) r Hi) as (H1 & H2 & H3 & H4); [by apply (current_tail r j0)|done|set_solver|].
    split_and!; [| | |done].
    + intros id Hid. apply H1. set_solver.
    + intros [|p pre] j post [= <- ->]; [left; by rewrite H1|].
      destruct (H2 pre j post eq_refl) as [?|[? Hcl]]; [by left|right]. split; [done|].
      by rewrite <- app_assoc in Hcl.
    + intros Hh. destruct H3 as [?|H3]; [set_solver|by left|right].
      intros [|p pre] j post [= <- ->] Hcl.
      * rewrite app_nil_r in Hcl. apply clear_of_existsb in Hcl. congruence.
      * apply (H3 pre j post eq_refl). by rewrite <- app_assoc.
  - destruct (hold (ID j0)) eqn:Eh.
    { destruct Hstop as (? & ? & ?). split_and!; [done..| |done].
      intros Hh. rewrite Hh in Eh by set_solver. done. }
    apply clear_of_existsb in Eb.
    assert (Hfree : forall id a, running r !! id = Some a -> Overlaps (j_LockSet j0) (a_lock a) = false).
    { intros id a Ha. by apply (proj1 (Forall_forall _ _) Eb), (Hb id). }
    destruct (good_start r j0 now Hj Hs Hfree Hi) as [Hi1 _].
    pose proof (queued_not_running r j0 Hi Hj Hs) as Hnone.
    destruct (IH (busy ++ [j_LockSet j0]) (start now j0 r) Hi1) as (H1 & H2 & H3 & H4).
    + eapply current_tail; [exact Hc|]. intros id Hne. simpl. by apply Update_other.
    + done.
    + intros id a. simpl. rewrite lookup_insert_Some. intros [[<- <-]|[_ Ha]]; [set_solver|].
      apply Hb in Ha. set_solver.
    + assert (Hst : starts now (pass_loop n hold now (busy ++ [j_LockSet j0]) queued (start now j0 r)) j0).
      { unfold starts. rewrite H1 by done. simpl. rewrite (Update_eq _ (started j0 now) j0) by done.
        apply lookup_insert_eq. }
      split_and!.
      * intros id Hid. rewrite H1 by set_solver. simpl. apply Update_other. set_solver.
      * intros [|p pre] j post [= <- ->]; [right; by rewrite app_nil_r|].
        destruct (H2 pre j post eq_refl) as [?|[? Hcl]]; [by left|right]. split; [done|].
        by rewrite <- app_assoc in Hcl.
      * intros Hh. destruct H3 as [?|H3]; [set_solver|by left|right].
        intros [|p pre] j post [= <- ->] Hcl; [done|]. apply (H3 pre j post eq_refl). by rewrite <- app_assoc.
      * unfold start in H4 at 2. unfold set_running, set_rows in H4. simpl in H4.
        rewrite busyWorkers_insert in H4 by done. simpl in H4. lia.
Qed.

Lemma elem_of_Ahead j live o :
  o ∈ Ahead j live <-> o ∈ live /\ ID o <> ID j /\ Overlaps (j_LockSet j) (j_LockSet o) = true /\
    (j_State o = Running \/ (j_State o = Queued /\ CreatedAt o < CreatedAt j)).
Proof.
  unfold Ahead. rewrite elem_of_filterb, andb_true_iff, negb_true_iff, orb_false_iff, negb_false_iff,
    orb_true_iff, andb_true_iff, Z.ltb_lt. unfold in_state. rewrite !String.eqb_eq, String.eqb_neq. naive_solver.
Qed.

Definition all_rows (r : Runner) : list Job := map snd (map_to_list (rows r)).

Lemma not_ahead_clear r j pre post :
  Inv r -> List_jobs (rows r) [Queued] = pre ++ j :: post ->
  clear_of j (busy_locks r ++ map j_LockSet pre) -> Ahead j (all_rows r) = [].
Proof.
  intros Hi Hl Hcl. destruct (Ahead j (all_rows r)) as [|o os] eqn:E; [done|].
  assert (o ∈ Ahead j (all_rows r)) as Ho by (rewrite E; set_solver).
  apply elem_of_Ahead in Ho as ([id Hid]%elem_of_rows & Hne & Hov & Hst).
  assert (j_LockSet o ∈ busy_locks r ++ map j_LockSet pre) as Hin.
  { destruct Hst as [Hs|[Hs Hlt]].
    - destruct (iv_db _ Hi _ _ Hid Hs) as [a Ha]. destruct (iv_run _ Hi _ _ Ha) as (_ & _ & _ & _ & _ & o' & ? & _ & El).
      simplify_eq. rewrite El. pose proof (busy_locks_elem _ _ _ Ha). set_solver.
    - assert (o ∈ List_jobs (rows r) [Queued]) as Hin by (apply elem_of_List; split; [eauto|set_solver]).
      pose proof (List_sorted (rows r) [Queued]) as Hsort. rewrite Hl in Hin, Hsort.
      apply elem_of_app in Hin as [?|[->|Hin]%elem_of_cons]; [|done|].
      + apply elem_of_app. right. apply list_elem_of_fmap. eauto.
      + apply StronglySorted_app_1_r in Hsort. inv Hsort as [|? ? _ Hall].
        pose proof (proj1 (Forall_forall _ _) Hall _ Hin). simpl in *. lia. }
  pose proof (proj1 (Forall_forall _ _) Hcl _ Hin). simpl in *. congruence.
Qed.

Lemma ahead_clear r j pre post :
  Inv r -> j_State j = Queued -> List_jobs (rows r) [Queued] = pre ++ j :: post ->
  (forall id o, rows r !! id = Some o -> j_State o = Queued -> ID o <> ID j -> CreatedAt o = CreatedAt j ->
     Overlaps (j_LockSet j) (j_LockSet o) = false) ->
  Ahead j (all_rows r) = [] -> clear_of j (busy_locks r ++ map j_LockSet pre).
Proof.
  intros Hi Hs Hl Htie Ha.
  assert (Hno : forall o, o ∉ Ahead j (all_rows r)) by (rewrite Ha; set_solver).
  assert (Hrow : forall id o, rows r !! id = Some o -> o ∈ all_rows r) by (intros; apply elem_of_rows; eauto).
  apply Forall_app. split; apply Forall_forall.
  - intros b ([id a] & -> & Hin)%list_elem_of_fmap. apply elem_of_map_to_list in Hin. simpl.
    destruct (iv_run _ Hi _ _ Hin) as (_ & _ & _ & _ & _ & o & Ho & Hso & <-).
    apply not_true_iff_false. intros Hov. apply (Hno o), elem_of_Ahead. split_and!; [eauto| |done|by left].
    intros E. assert (rows r !! ID j = Some j) as Hj.
    { apply (List_lookup _ [Queued]); [by apply iv_keyed|]. rewrite Hl. set_solver. }
    rewrite (iv_keyed _ Hi _ _ Ho) in E. subst id. simplify_eq. by rewrite Hs in Hso.
  - intros b (o & -> & Hin)%list_elem_of_fmap. simpl.
    assert (o ∈ List_jobs (rows r) [Queued]) as Hlo by (rewrite Hl; set_solver).
    apply elem_of_List in Hlo as [[id Ho] Hso%list_elem_of_singleton].
    assert (ID o <> ID j) as Hne.
    { pose proof (List_nodup (rows r) [Queued] (iv_keyed _ Hi)) as Hnd. rewrite Hl, map_app in Hnd.
      apply NoDup_app in Hnd as (_ & Hd & _). intros E. apply (Hd (ID o)).
      - apply list_elem_of_fmap. eauto.
      - rewrite E. simpl. set_solver. }
    assert (CreatedAt o <= CreatedAt j) as Hle.
    { pose proof (List_sorted (rows r) [Queued]) as Hsort. rewrite Hl in Hsort.
      apply (StronglySorted_app_1_elem_of (fun a b => CreatedAt a <= CreatedAt b) pre (j :: post)); [done..|set_solver]. }
    destruct (decide (CreatedAt o = CreatedAt j)) as [?|Hneq]; [by eapply Htie|].
    apply not_true_iff_false. intros Hov. apply (Hno o), elem_of_Ahead. split_and!; [eauto|done..|].
    right. split; [done|lia].
Qed.

(** C2. A pass starts a queued job only when nothing is ahead of it, neither a
    running job nor an older queued one it shares a tile with, exactly as
    [Ahead] tells the user; a job with nothing ahead does start unless the
    workers are full; the pass never goes over the workers and leaves every row
    that was not queued alone. *)
Theorem pass_in_order r n hold now j :
  reachable r -> rows r !! ID j = Some j -> j_State j = Queued ->
  let r' := pass n hold now r in
  (rows r' !! ID j = Some j \/
   (rows r' !! ID j = Some (started j now) /\ Ahead j (all_rows r) = [])) /\
  ((forall id, hold id = false) ->
   (forall id o, rows r !! id = Some o -> j_State o = Queued -> ID o <> ID j -> CreatedAt o = CreatedAt j ->
      Overlaps (j_LockSet j) (j_LockSet o) = false) ->
   Ahead j (all_rows r) = [] ->
   n <= busyWorkers r' \/ rows r' !! ID j = Some (started j now)) /\
  busyWorkers r' <= Z.max n (busyWorkers r) /\
  (forall id o, rows r !! id = Some o -> j_State o <> Queued -> rows r' !! id = Some o).
Proof.
  intros Hi%reachable_inv Hj Hs r'.
  destruct (pass_loop_spec n hold now (busy_locks r) (List_jobs (rows r) [Queued]) r Hi) as (H1 & H2 & H3 & H4).
  { by apply current_list. }
  { eapply Forall_impl; [apply queued_states|]. intros o. simpl. by rewrite list_elem_of_singleton. }
  { apply busy_locks_elem. }
  fold (pass n hold now r) in H1, H2, H3, H4. fold r' in H1, H2, H3, H4.
  assert (j ∈ List_jobs (rows r) [Queued]) as Hin by (apply elem_of_List; split; [eauto|set_solver]).
  apply list_elem_of_split in Hin as (pre & post & Hl). split_and!; [| |done|].
  - destruct (H2 _ _ _ Hl) as [?|[? Hcl]]; [by left|right]. split; [done|]. by eapply not_ahead_clear.
  - intros Hh Htie Ha. destruct H3 as [?|H3]; [auto|by left|right]. apply (H3 _ _ _ Hl). by eapply ahead_clear.
  - intros id o Ho Hso. rewrite H1; [done|]. intros (o' & E & Hin)%list_elem_of_fmap.
    pose proof (List_lookup _ _ _ (iv_keyed _ Hi) Hin) as Ho'. apply elem_of_List in Hin as [_ Hq%list_elem_of_singleton].
    rewrite <- E in Ho'. congruence.
Qed.

(** *** The Railway rule *)

(** What enqueueing [j] does to an older live job [o]. *)
Definition replaces (j o : Job) : bool := Overlaps (j_LockSet j) (j_LockSet o) && Supersedes j o.

Lemma supersede_one_spec now j r o :
  rows r !! ID o = Some o ->
  let r' := supersede_one now j r o in
  (forall id, id <> ID o -> rows r' !! id = rows r !! id /\ running r' !! id = running r !! id) /\
  (replaces j o = false -> r' = r) /\
  (replaces j o = true -> match running r !! ID o with
    | Some a => rows r' = rows r /\ running r' !! ID o =
        Some (if swapping a then a else cancel CauseSuperseded (set_superseded a))
    | None => running r' = running r /\ (j_State o <> Running ->
        rows r' !! ID o = Some (finished o Superseded (text "") now))
    end).
Proof.
  intros Ho r'. unfold r', supersede_one, replaces.
  destruct (Overlaps _ _), (Supersedes j o); simpl; try (by split_and!).
  destruct (running r !! ID o) as [a|] eqn:Ha.
  - destruct (swapping a); [by split_and!|]. simpl. split_and!; [|done|].
    + intros id Hne. by rewrite lookup_insert_ne.
    + intros _. by rewrite lookup_insert_eq.
  - unfold in_state. destruct (String.eqb_spec (j_State o) Running); simpl; [by split_and!|].
    split_and!; [|done|].
    + intros id Hne. split; [by apply Update_other|done].
    + intros _. split; [done|]. intros _. unfold Finish.
      rewrite (Update_eq _ (finished o Superseded (text "") now) o) by done. apply lookup_insert_eq.
Qed.

Lemma supersede_all now j older r o :
  current r older -> o ∈ older ->
  let r' := fold_left (supersede_one now j) older r in
  (replaces j o = false -> rows r' !! ID o = Some o /\ running r' !! ID o = running r !! ID o) /\
  (replaces j o = true -> match running r !! ID o with
    | Some a => rows r' !! ID o = Some o /\ running r' !! ID o =
        Some (if swapping a then a else cancel CauseSuperseded (set_superseded a))
    | None => running r' !! ID o = None /\ (j_State o <> Running ->
        rows r' !! ID o = Some (finished o Superseded (text "") now))
    end).
Proof.
  assert (Hkeep : forall older r id, current r older -> id ∉ map ID older ->
    rows (fold_left (supersede_one now j) older r) !! id = rows r !! id /\
    running (fold_left (supersede_one now j) older r) !! id = running r !! id).
  { clear. induction older as [|o older IH]; intros r id Hc Hnin; [done|]. simpl.
    pose proof Hc as [_ HF]. apply Forall_cons in HF as [Ho _].
    destruct (supersede_one_spec now j r o Ho) as (Hoth & _). simpl in Hnin.
    destruct (IH (supersede_one now j r o) id) as [-> ->].
    - eapply current_tail; [exact Hc|]. intros id' Hne. by destruct (Hoth id' Hne).
    - set_solver.
    - apply Hoth. set_solver. }
  revert r. induction older as [|o' older IH]; intros r Hc Hin; [by apply not_elem_of_nil in Hin|].
  pose proof Hc as [Hnd HF]. apply Forall_cons in HF as [Ho' HF].
  apply NoDup_cons in Hnd as [Hnin Hnd]. destruct (supersede_one_spec now j r o' Ho') as (Hoth & Hno & Hyes).
  assert (current (supersede_one now j r o') older) as Hc'.
  { eapply current_tail; [exact Hc|]. intros id' Hne. by destruct (Hoth id' Hne). }
  apply elem_of_cons in Hin as [->|Hin]; simpl.
  - destruct (Hkeep older (supersede_one now j r o') (ID o') Hc' Hnin) as [-> ->]. split.
    + intros E. by rewrite (Hno E).
    + intros E. specialize (Hyes E). destruct (running r !! ID o') eqn:Ea.
      * destruct Hyes as [-> ->]. done.
      * destruct Hyes as [-> ?]. done.
  - destruct (IH _ Hc' Hin) as [H1 H2]. assert (ID o <> ID o') as Hne.
    { intros E. apply Hnin. rewrite <- E. apply list_elem_of_fmap. eauto. }
    destruct (Hoth _ Hne) as [_ Er]. rewrite Er in H1, H2. done.
Qed.

Lemma Enqueue_spec now q r r' id o :
  Inv r -> Enqueue now q r = Ok r' -> rows r !! id = Some o -> Live (j_State o) = true ->
  let j := request_job q now in
  rows r' !! q_id q = Some j /\
  if replaces j o then
    match running r !! id with
    | Some a => rows r' !! id = Some o /\ running r' !! id =
        Some (if swapping a then a else cancel CauseSuperseded (set_superseded a))
    | None => rows r' !! id = Some (finished o Superseded (text "") now)
    end
  else rows r' !! id = Some o /\ running r' !! id = running r !! id.
Proof.
  intros Hi He Ho Hlive j. unfold Enqueue, Create in He. fold j in He.
  destruct (rows r !! ID j) eqn:Hj; [done|]. apply Ok_inj in He as <-.
  set (r1 := set_rows r (<[ID j := j]> (rows r))).
  assert (ID o = id) as Eid by (by apply (iv_keyed _ Hi)). subst id.
  destruct (current_list r [Queued; Waiting; Running] Hi) as [Hnd HF].
  assert (ID j ∉ map ID (List_jobs (rows r) [Queued; Waiting; Running])) as Hnin.
  { intros (x & E & Hx)%list_elem_of_fmap. apply (List_lookup _ _ _ (iv_keyed _ Hi)) in Hx. congruence. }
  assert (current r1 (List_jobs (rows r) [Queued; Waiting; Running])) as Hc.
  { split; [done|]. apply Forall_forall. intros x Hx. unfold r1. simpl. rewrite lookup_insert_ne.
    - by apply (proj1 (Forall_forall _ _) HF).
    - intros E. apply Hnin. simpl. rewrite E. apply list_elem_of_fmap. eauto. }
  split.
  - destruct (good_supersede now j (List_jobs (rows r) [Queued; Waiting; Running]) r1) as [_ _].
    { by apply good_create. } { done. } { apply queued_states. }
    revert Hc Hnin. generalize (List_jobs (rows r) [Queued; Waiting; Running]).
    assert (rows r1 !! q_id q = Some j) as H1 by apply lookup_insert_eq. revert H1. clearbody r1. clear.
    intros H1 older. revert r1 H1. induction older as [|x older IH]; intros r1 H1 Hc Hnin; [done|].
    pose proof Hc as [_ HF]. apply Forall_cons in HF as [Hx _].
    destruct (supersede_one_spec now j r1 x Hx) as (Hoth & _). simpl. apply IH.
    + destruct (Hoth (q_id q)) as [-> _]; [|done]. intros E. apply Hnin. simpl. set_solver.
    + eapply current_tail; [exact Hc|]. intros id' Hne. by destruct (Hoth id' Hne).
    + intros E. apply Hnin. simpl. set_solver.
  - apply live_state in Hlive as Hst.
    destruct (supersede_all now j (List_jobs (rows r) [Queued; Waiting; Running]) r1 o Hc) as [H1 H2].
    { apply elem_of_List. split; [eauto|set_solver]. }
    destruct (replaces j o); [|by apply H1]. specialize (H2 eq_refl). simpl in H2.
    destruct (running r !! ID o) as [a|] eqn:Ea; [done|]. apply H2. intros E.
    destruct (iv_db _ Hi _ _ Ho E). congruence.
Qed.

(** The Railway rule: enqueueing a job replaces exactly the older live jobs
    of its kind whose every tile it redoes.  A queued or parked one becomes
    superseded, never failed; a running one is told to stop unless it is
    swapping containers, which is never interrupted; every other job's row and
    memory are untouched, and the new job is queued behind them. *)
Theorem Enqueue_railway now q r r' id o :
  reachable r -> Enqueue now q r = Ok r' -> rows r !! id = Some o -> Live (j_State o) = true ->
  let j := request_job q now in
  rows r' !! q_id q = Some j /\
  if replaces j o then
    match running r !! id with
    | Some a => rows r' !! id = Some o /\ running r' !! id =
        Some (if swapping a then a else cancel CauseSuperseded (set_superseded a))
    | None => rows r' !! id = Some (finished o Superseded (text "") now)
    end
  else rows r' !! id = Some o /\ running r' !! id = running r !! id.
Proof. intros Hi%reachable_inv. by apply Enqueue_spec. Qed.

(** *** The swap phase *)

Lemma pass_loop_running n hold now busy queued r id :
  id ∉ map ID queued -> running (pass_loop n hold now busy queued r) !! id = running r !! id.
Proof.
  revert busy r. induction queued as [|j queued IH]; intros busy r Hn; simpl; [done|].
  assert ((id ∉ map ID queued) /\ id <> ID j) as [Hn1 Hn2] by (simpl in Hn; set_solver).
  repeat case_match; try done; [by apply IH|]. rewrite IH by done. unfold start. simpl.
  by rewrite lookup_insert_ne.
Qed.

Definition untouched (r r' : Runner) (id : string) (a : active) : Prop :=
  exists a', running r' !! id = Some a' /\ swapping a' = true /\ a_cause a' = a_cause a /\
    rows r' !! id = rows r !! id.

Lemma untouched_refl r id a : running r !! id = Some a -> swapping a = true -> untouched r r id a.
Proof. intros. by exists a. Qed.

Lemma untouched_alter r id a f id' :
  running r !! id = Some a -> swapping a = true ->
  (forall b, swapping (f b) = swapping b /\ a_cause (f b) = a_cause b) ->
  untouched r (set_running r (alter f id' (running r))) id a.
Proof.
  intros Ha Hs Hf. unfold untouched. simpl. destruct (decide (id' = id)) as [->|Hne].
  - rewrite lookup_alter_eq, Ha. exists (f a). destruct (Hf a) as [Hw Hc]. simpl. by rewrite Hw, Hc.
  - rewrite lookup_alter_ne by done. eauto.
Qed.

(** A job in its swap phase, and what each event does to it. *)
Section Swapping.
Context (r : Runner) (id : string) (a : active) (j : Job).
Context (Hi : Inv r) (Ha : running r !! id = Some a) (Hs : swapping a = true).
Context (Hj : rows r !! id = Some j) (Hrun : j_State j = Running).

Lemma untouched_pass n hold now : untouched r (pass n hold now r) id a.
Proof.
  assert (id ∉ map ID (List_jobs (rows r) [Queued])) as Hn.
  { intros (o & E & Ho)%list_elem_of_fmap. pose proof (List_lookup _ _ _ (iv_keyed _ Hi) Ho) as Hr.
    apply elem_of_List in Ho as [_ Hq%list_elem_of_singleton]. rewrite <- E, Hj in Hr.
    injection Hr as <-. by rewrite Hq in Hrun. }
  destruct (pass_loop_spec n hold now (busy_locks r) (List_jobs (rows r) [Queued]) r Hi) as (Hrows & _).
  { by apply current_list. }
  { eapply Forall_impl; [apply queued_states|]. intros o. simpl. by rewrite list_elem_of_singleton. }
  { apply busy_locks_elem. }
  exists a. unfold pass. split_and!; [by rewrite pass_loop_running|done..|by apply Hrows].
Qed.

Lemma untouched_unpark ps j' : untouched r (unpark_one ps r j') id a.
Proof.
  unfold unpark_one. case_match; [by apply untouched_refl|]. exists a. split_and!; [done..|].
  simpl. unfold Requeue, RequeueIfWaiting.
  destruct (rows r !! ID j') as [o|] eqn:Ho; [|done].
  unfold in_state. destruct (String.eqb_spec (j_State o) Waiting) as [Ew|]; [|done].
  apply lookup_insert_ne. intros E. rewrite E, Hj in Ho. injection Ho as <-. by rewrite Hrun in Ew.
Qed.

Lemma untouched_enqueue now q r' : Enqueue now q r = Ok r' -> untouched r r' id a.
Proof.
  intros Eq. destruct (Enqueue_spec now q r r' id j Hi Eq Hj) as [_ Hspec]; [by rewrite Hrun|].
  exists a. destruct (replaces _ _); rewrite Ha in Hspec; [rewrite Hs in Hspec|]; by destruct Hspec as [-> ->].
Qed.

Lemma untouched_cancel now id' r' : Cancel now id' r = Ok r' -> untouched r r' id a.
Proof.
  unfold Cancel. destruct (running r !! id') as [b|] eqn:Hb.
  - destruct (swapping b) eqn:Eb; [done|]. intros <-%Ok_inj. exists a. simpl.
    rewrite lookup_insert_ne by (intros ->; congruence). done.
  - destruct (rows r !! id') as [o|] eqn:Ho; [|done]. destruct (negb _); [done|]. intros <-%Ok_inj.
    exists a. split_and!; [done..|]. simpl. apply Update_other. simpl. rewrite (iv_keyed _ Hi _ _ Ho).
    intros ->. congruence.
Qed.

Lemma untouched_swap id' : untouched r (Swap r id').2 id a.
Proof.
  unfold Swap. destruct (running r !! id') as [b|] eqn:Hb; [|by apply untouched_refl].
  destruct (superseded b); [by apply untouched_refl|]. unfold untouched. simpl.
  destruct (decide (id' = id)) as [->|]; [rewrite lookup_insert_eq|rewrite lookup_insert_ne by done]; [|by exists a].
  simplify_eq. by exists (set_swapping a).
Qed.

Lemma untouched_call_end cap o id' : untouched r (call_end cap o r id') id a.
Proof.
  unfold call_end. destruct (running r !! id') as [b|] eqn:Hb; [|by apply untouched_refl].
  destruct (a_result b); [by apply untouched_refl|]. destruct (call _ _ _ _) as [[state m] param] eqn:Ec.
  assert (exists a', <[id' := set_result (state, m, param) b]> (running r) !! id = Some a' /\
    swapping a' = true /\ a_cause a' = a_cause a) as (a' & ? & ? & ?).
  { destruct (decide (id' = id)) as [->|]; [rewrite lookup_insert_eq|rewrite lookup_insert_ne by done]; [|by exists a].
    simplify_eq. by exists (set_result (state, m, param) a). }
  exists a'. by case_match.
Qed.

Lemma untouched_run_end now id' : id' <> id -> untouched r (run_end now r id') id a.
Proof.
  intros Hne. unfold run_end. destruct (running r !! id') as [b|] eqn:Hb; [|by apply untouched_refl].
  destruct (a_result b) as [[[state m] param]|]; [|by apply untouched_refl].
  destruct (iv_run _ Hi _ _ Hb) as (Hidb & _). exists a. case_match; simpl; rewrite lookup_delete_ne by done;
    (split_and!; [done..|]).
  - unfold ParkIfRunning. rewrite Hidb. repeat case_match; try done; by rewrite lookup_insert_ne.
  - apply Update_other. simpl. congruence.
Qed.

Lemma untouched_skip now q why r' : Skip now q why r = Ok r' -> untouched r r' id a.
Proof.
  unfold Skip, Create. destruct (rows r !! ID _) eqn:Hq; [done|]. intros <-%Ok_inj. exists a.
  split_and!; [done..|]. simpl. unfold Finish. assert (id <> q_id q) by (intros ->; simpl in Hq; congruence).
  rewrite Update_other by done. by rewrite lookup_insert_ne.
Qed.
End Swapping.

(** From the moment a handler is swapping containers its job is never
    aborted: a cancel is refused as a conflict, a newer job waits instead of
    superseding it, and no event but its own end or the process's changes its
    row or stops its context. *)
Theorem swap_never_interrupted r e id a :
  reachable r -> running r !! id = Some a -> swapping a = true ->
  match e with EClose | EBoot _ _ => False | ERunEnd _ id' => id' <> id | _ => True end ->
  untouched r (step r e) id a /\ superseded a = false /\
  forall now, exists m, Cancel now id r = Err (Conflict m).
Proof.
  intros Hi%reachable_inv Ha Hs He.
  destruct (iv_run _ Hi _ _ Ha) as (_ & _ & _ & Hss & _ & j & Hj & Hrun & _).
  assert (Hid : ID j = id) by (by apply (iv_keyed _ Hi)).
  split; [|split; [by destruct (superseded a); [destruct Hss|]|]].
  2:{ intros now. unfold Cancel. rewrite Ha, Hs. by eexists. }
  destruct e; cbn [step] in *; try done; try (by apply untouched_alter); try (by apply untouched_refl).
  - by eapply untouched_pass.
  - by eapply untouched_unpark.
  - unfold or_same. destruct (Enqueue now q r) eqn:E; [by eapply untouched_enqueue|by apply untouched_refl].
  - destruct (Skip _ _ _ _) eqn:E; [by eapply untouched_skip|by apply untouched_refl].
  - destruct (Cancel _ _ _) eqn:E; [by eapply untouched_cancel|by apply untouched_refl].
  - by eapply untouched_swap.
  - by exists a.
  - by eapply untouched_call_end.
  - by eapply untouched_run_end.
Qed.

(** *** A run *)

Definition ex_req (id : string) (lock : list string) : Request :=
  MkRequest id "deploy" lock "{}" None "/jobs" "ann" "".
Definition ex_hold (_ : string) : bool := false.

(** Two deploys of one tile and one of another; the first is swapping when the
    third, a newer deploy of its tile, comes in. *)
Definition ex_events : list event :=
  [EEnqueue 1 (ex_req "a" ["t1"]); EEnqueue 2 (ex_req "b" ["t2"; "t2"]); EPass 2 ex_hold 3;
   ESwap "a"; EEnqueue 4 (ex_req "c" ["t1"]); EPass 2 ex_hold 5].
Definition ex_runner : Runner := fold_left step ex_events fresh.

Lemma ex_reachable : reachable ex_runner.
Proof. by exists ex_events. Qed.

Definition ex_row (r : Runner) (id : string) : Job :=
  default (new_job "" "" [] "" None "" "" "" 0) (rows r !! id).
Definition ex_active (r : Runner) (id : string) : active :=
  default (MkActive [] None None false false false (ex_row r id) "" None) (running r !! id).

Lemma running_jobs_exclusive_witness :
  j_State (ex_row ex_runner "a") = Running /\ j_State (ex_row ex_runner "b") = Running /\
  Overlaps (j_LockSet (ex_row ex_runner "a")) (j_LockSet (ex_row ex_runner "b")) = false.
Proof.
  split; [by vm_compute|]. split; [by vm_compute|].
  apply (proj2 (running_jobs_exclusive ex_runner ex_reachable) "a" "b"); [done|by vm_compute..].
Defined.

Definition ex_ended : Runner := step (step ex_runner (EReturn "30m0s" (Returned None) "b")) (ERunEnd 6 "b").
Lemma ex_ended_reachable : reachable ex_ended.
Proof. by exists (ex_events ++ [EReturn "30m0s" (Returned None) "b"; ERunEnd 6 "b"]). Qed.

Lemma finished_job_is_final_witness :
  j_State (ex_row ex_ended "b") = Done /\
  rows (step ex_ended (EBoot (fun _ => false) 9)) !! "b" = Some (ex_row ex_ended "b").
Proof.
  split; [by vm_compute|].
  apply (finished_job_is_final ex_ended (EBoot (fun _ => false) 9) "b" (ex_row ex_ended "b"));
    [apply ex_ended_reachable|by vm_compute..].
Defined.

Lemma end_reported_once_witness :
  ended ex_ended = ["b"] /\ Terminal (j_State (ex_row ex_ended "b")) = true.
Proof.
  split; [by vm_compute|].
  apply (end_reported_once ex_ended "b" (ex_row ex_ended "b")); [apply ex_ended_reachable|by vm_compute|].
  apply (bool_decide_unpack _). by vm_compute.
Defined.

Lemma pass_in_order_witness :
  j_State (ex_row ex_runner "c") = Queued /\
  (rows (pass 5 ex_hold 7 ex_runner) !! "c" = Some (ex_row ex_runner "c") \/
   (rows (pass 5 ex_hold 7 ex_runner) !! "c" = Some (started (ex_row ex_runner "c") 7) /\
    Ahead (ex_row ex_runner "c") (all_rows ex_runner) = [])).
Proof.
  split; [by vm_compute|].
  apply (pass_in_order ex_runner 5 ex_hold 7 (ex_row ex_runner "c")); [apply ex_reachable|by vm_compute..].
Defined.

Definition ex_before : Runner := fold_left step (take 3 ex_events) fresh.
Definition ex_after : Runner := or_same ex_before (Enqueue 4 (ex_req "d" ["t2"]) ex_before).
Lemma Enqueue_railway_witness :
  superseded (ex_active ex_after "b") = true /\
  rows ex_after !! "d" = Some (request_job (ex_req "d" ["t2"]) 4).
Proof.
  split; [by vm_compute|].
  refine (proj1 (Enqueue_railway 4 (ex_req "d" ["t2"]) ex_before ex_after "b" (ex_row ex_before "b") _ _ _ _));
    [by exists (take 3 ex_events)|by vm_compute..].
Defined.

Lemma swap_never_interrupted_witness :
  swapping (ex_active ex_runner "a") = true /\
  untouched ex_runner (step ex_runner (ECancel 8 "a")) "a" (ex_active ex_runner "a").
Proof.
  split; [by vm_compute|].
  apply (swap_never_interrupted ex_runner (ECancel 8 "a") "a" (ex_active ex_runner "a"));
    [apply ex_reachable|by vm_compute..|done].
Defined.
