(* ===== verification/Refs.v ===== *)
(** * Param references ([leaf/params/ref.go])

    The one resolver of [${{ ... }}]: the grammar of a ref, where each kind may
    stand, what it reads, and the expansion of a value.  Map-valued snapshots
    are [gmap]s, the resolver's three sets are [gset]s. *)
From S2P Require Import Prelude GoStrings Errs Slug.

(** ** Finding refs: [refRe] is a dollar, two braces, no closing brace, two closing braces *)

(** The body of a match at the head of [s]: no [}] before the closing [}}]. *)
Definition match_at (s : string) : option string :=
  match strip_prefix "${{" s with
  | None => None
  | Some r =>
      match cut "}" r with
      | Some (body, r) => match strip_prefix "}" r with Some _ => Some body | None => None end
      | None => None
      end
  end.

Inductive token := TByte (c : ascii) | TRef (body : string).

(** Leftmost non-overlapping matches; [skip] bytes are still inside the last one. *)
Fixpoint tokens_from (skip : nat) (s : string) : list token :=
  match s with
  | EmptyString => []
  | String c r =>
      match skip with
      | S k => tokens_from k r
      | O =>
          match match_at s with
          | Some body => TRef body :: tokens_from (4 + String.length body) r
          | None => TByte c :: tokens_from 0 r
          end
      end
  end.
Definition tokens (s : string) : list token := tokens_from 0 s.

Definition ref_body (t : token) : option string := match t with TRef b => Some b | TByte _ => None end.
Definition bodies (s : string) : list string := omap ref_body (tokens s).

Definition HasRef (s : string) : bool := match bodies s with [] => false | _ => true end.
Definition Refs (s : string) : list string := map trim_space (bodies s).

(** ** The grammar *)

Inductive Kind :=
  | KindParam | KindOrgParam | KindSelf | KindTile | KindStackr | KindBackup | KindEnv | KindServerParam.
#[export] Instance Kind_eq_dec : EqDecision Kind.
Proof. solve_decision. Defined.
Definition kind_text (k : Kind) : string :=
  match k with
  | KindParam => "param" | KindOrgParam => "org_param" | KindSelf => "self" | KindTile => "tile"
  | KindStackr => "stackr" | KindBackup => "backup" | KindEnv => "env" | KindServerParam => "server_param"
  end.

Record Ref := MkRef {
  rf_Kind : Kind; rf_Slug : string; rf_Env : string; rf_Name : string; rf_Source : string }.

Definition ProxyIP := "PROXY_IP".
Definition ProxyCIDR := "PROXY_CIDR".
Definition platformNames : list string := [ProxyIP; ProxyCIDR].

Definition Removed (source form : string) : error :=
  Errorf (Sprintf "%s: %s refs are gone; declare a slice tile, see DECIDE 194" [AStr source; AStr form]).

(** The [[x]] qualifier of the collection [c]: the collection without it, and [x]. *)
Definition qualifier (src c : string) : res (string * string) :=
  match cut "[" c with
  | None => Ok (c, "")
  | Some (pre, post) =>
      let e := trim_suffix post "]" in
      if String.eqb e post || negb (Valid e) then
        Err (Errorf (Sprintf "%s: want %s[<env>], where <env> is a slug or pr" [AStr src; AStr pre]))
      else Ok (pre, e)
  end.

Definition bad_name (what src n : string) : error :=
  Errorf (Sprintf ("%s: %q is not a valid " +:+ what) [AStr src; AStr n]).

(** The tail checks of a ref with a collection or a name to check. *)
Definition check_ref (r : Ref) : res Ref :=
  let collection := match rf_Kind r with KindParam | KindOrgParam | KindServerParam => true | _ => false end in
  if collection && negb (ValidName (rf_Slug r)) then
    Err (bad_name "collection name" (rf_Source r) (rf_Slug r))
  else
    let valid := match rf_Kind r with KindTile | KindSelf => ValidEnvKey | _ => ValidName end in
    if negb (valid (rf_Name r)) then Err (bad_name "name" (rf_Source r) (rf_Name r)) else Ok r.

(** The second switch: [p] is the body's parts, [p0] to [p3] the first four. *)
Definition parse_kind (src : string) (p : list string) (env : string) : res Ref :=
  let n := length p in
  let p0 := nth 0 p "" in let p1 := nth 1 p "" in let p2 := nth 2 p "" in let p3 := nth 3 p "" in
  if Nat.eqb n 3 && String.eqb p0 "params" then check_ref (MkRef KindParam p1 env p2 src)
  else if Nat.eqb n 4 && String.eqb p0 "org" && String.eqb p1 "params" then
    check_ref (MkRef KindOrgParam p2 env p3 src)
  else if Nat.eqb n 4 && String.eqb p0 "server" && String.eqb p1 "params" then
    check_ref (MkRef KindServerParam p2 env p3 src)
  else if String.eqb p0 "server" then
    Err (Errorf (Sprintf "%s: want server.params.<collection>.<name>" [AStr src]))
  else if Nat.eqb n 3 && String.eqb p0 "org" && String.eqb p1 "backups" then
    if negb (Valid p2) then Err (bad_name "name" src p2) else Ok (MkRef KindBackup "" env p2 src)
  else if Nat.eqb n 2 && String.eqb p0 "env" then
    if negb (String.eqb p1 "name") then
      Err (Errorf (Sprintf "%s: the only env ref is ${{ env.name }}" [AStr src]))
    else Ok (MkRef KindEnv "" env p1 src)
  else if Nat.eqb n 2 && String.eqb p0 "self" then check_ref (MkRef KindSelf "" env p1 src)
  else if Nat.eqb n 2 && String.eqb p0 "stackr" then
    if negb (contains platformNames p1) then
      Err (Errorf (Sprintf "%s: %q is not a stackr value (want %s or %s)"
        [AStr src; AStr p1; AStr ProxyCIDR; AStr ProxyIP]))
    else Ok (MkRef KindStackr "" env p1 src)
  else if Nat.eqb n 3 && (String.eqb p0 "tile" || String.eqb p0 "stack" || String.eqb p0 "org") then
    if String.eqb p1 "params" then
      Err (Errorf (Sprintf "%s: params is reserved; write ${{ %s.params.<collection>.<name> }}"
        [AStr src; AStr p0]))
    else if negb (String.eqb p0 "tile") then Err (Removed src (p0 +:+ "." +:+ p1))
    else if negb (Valid p1) then Err (bad_name "tile name" src p1)
    else check_ref (MkRef KindTile p1 env p2 src)
  else Err (Errorf (Sprintf "%s: want params.<collection>.<name>, org.params.<collection>.<name>, self.<output>, tile.<slug>.<output>, stackr.<NAME>, org.backups.<name> or env.name" [AStr src])).

Definition Parse (body : string) : res Ref :=
  let b := trim_space body in
  let p := split "." b in
  let src := "${{ " +:+ b +:+ " }}" in
  let plain :=
    if contains_any "[]" b then
      Err (Errorf (Sprintf "%s: an [env] qualifier is only valid on params.<collection>[<env>].<name> and org.params.<collection>[<tier>].<name>" [AStr src]))
    else parse_kind src p "" in
  match p with
  | [h; c; n] =>
      if String.eqb h "params" then
        ce <-? qualifier src c ;; parse_kind src [h; ce.1; n] ce.2
      else plain
  | [o; h; c; n] =>
      if String.eqb o "org" && String.eqb h "params" then
        ce <-? qualifier src c ;; parse_kind src [o; h; ce.1; n] ce.2
      else plain
  | _ => plain
  end.

(** ** Where a ref may stand *)

Inductive Where := InEnv | InCommand | InDomain | InBackupDest | InProvisionFrom | InServerFile.
#[export] Instance Where_eq_dec : EqDecision Where.
Proof. solve_decision. Defined.
Definition where_text (w : Where) : string :=
  match w with
  | InEnv => "env" | InCommand => "command" | InDomain => "domain" | InBackupDest => "backup_dest"
  | InProvisionFrom => "provision_from" | InServerFile => "server_file"
  end.

Definition allowed (w : Where) (k : Kind) : bool :=
  match w with
  | InEnv | InCommand => match k with KindBackup | KindEnv | KindServerParam => false | _ => true end
  | InProvisionFrom => match k with KindParam | KindEnv => true | _ => false end
  | InDomain => match k with KindParam | KindOrgParam => true | _ => false end
  | InBackupDest => match k with KindBackup => true | _ => false end
  | InServerFile => match k with KindServerParam => true | _ => false end
  end.

(** ** What a ref reads *)

Record Value := MkValue { V : string; Secret : bool }.
Record Block := MkBlock { Locked : bool; Values : gmap string Value }.
Record Source := MkSource {
  Outputs : gmap string string; Slice : bool; Managed : bool; Attached : bool;
  Network : string; s_Host : string }.
Record Snapshot := MkSnapshot {
  s_Env : string; EnvParams : gmap string Value; OrgParams : gmap string Value; Tier : string;
  Other : gmap string Block; ServerParams : gmap string Value; Stackr : gmap string string;
  Backups : gmap string string; Self : Source; Tiles : gmap string Source }.

(** The resolver's sets: the slugs referenced, the networks to join, the host lines. *)
Record Resolver := MkResolver { deps : gset string; nets : gset string; hosts : gset string }.
Definition NewResolver : Resolver := MkResolver ∅ ∅ ∅.

Definition errorf1 (f : string) (a : list arg) : error := Errorf (Sprintf f a).

(** The closure [param] of [lookup]. *)
Definition param (w : Where) (r : Ref) (key : string) (v : option Value) (unset : string) : res string :=
  match v with
  | None => Err (Unset unset)
  | Some v =>
      if Secret v && bool_decide (w = InDomain) then
        Err (errorf1 "%s: %s is a secret, and a domain is public" [AStr (rf_Source r); AStr key])
      else if Secret v && bool_decide (w = InProvisionFrom) then
        Err (errorf1 "%s: %s is a secret, and a provision_from target reaches plans and logs"
               [AStr (rf_Source r); AStr key])
      else Ok (V v)
  end.

Definition qualified (snap : Snapshot) (w : Where) (r : Ref) : res string :=
  let key := rf_Slug r +:+ "." +:+ rf_Name r in
  let name := rf_Slug r +:+ "[" +:+ rf_Env r +:+ "]." +:+ rf_Name r in
  let '(vals, unset, own, what, pre) :=
    if bool_decide (rf_Kind r = KindOrgParam) then
      (OrgParams snap, "org." +:+ name,
       negb (String.eqb (Tier snap) "") && String.eqb (rf_Env r) (Tier snap), "tier", "org:")
    else (EnvParams snap, name, String.eqb (rf_Env r) (s_Env snap), "env", "stack:") in
  if own then param w r key (vals !! key) unset
  else match Other snap !! (pre +:+ rf_Env r) with
  | None => Err (errorf1 "%s: no %s %s" [AStr (rf_Source r); AStr what; AStr (rf_Env r)])
  | Some b =>
      if Locked b then
        Err (errorf1 "%s: %s is locked; unlock it to read it from here" [AStr (rf_Source r); AStr (rf_Env r)])
      else param w r key (Values b !! key) unset
  end.

Definition tile (snap : Snapshot) (r : Ref) (rr : Resolver) : res string * Resolver :=
  match Tiles snap !! rf_Slug r with
  | None => (Err (errorf1 "%s: no tile or slice in this environment named %q"
                    [AStr (rf_Source r); AStr (rf_Slug r)]), rr)
  | Some src =>
      if Managed src then
        (Err (errorf1 "%s: %s is a managed tile; refs read a slice cut from it (a slice tile with provision_from <stack>:<env>:%s)"
                [AStr (rf_Source r); AStr (rf_Slug r); AStr (rf_Slug r)]), rr)
      else if Slice src && negb (Attached src) then
        (Err (errorf1 "%s: slice %s is not bound to this tile" [AStr (rf_Source r); AStr (rf_Slug r)]), rr)
      else match Outputs src !! rf_Name r with
      | None => (Err (errorf1 "%s: %s publishes no output named %q"
                        [AStr (rf_Source r); AStr (rf_Slug r); AStr (rf_Name r)]), rr)
      | Some v =>
          (Ok v,
           MkResolver (deps rr ∪ {[rf_Slug r]})
             (if negb (String.eqb (s_Host src) "") then nets rr
              else if negb (String.eqb (Network src) "") then nets rr ∪ {[Network src]} else nets rr)
             (if negb (String.eqb (s_Host src) "") then hosts rr ∪ {[s_Host src]} else hosts rr))
      end
  end.

Definition lookup (snap : Snapshot) (w : Where) (r : Ref) (rr : Resolver) : res string * Resolver :=
  let key := rf_Slug r +:+ "." +:+ rf_Name r in
  if negb (String.eqb (rf_Env r) "") then (qualified snap w r, rr)
  else match rf_Kind r with
  | KindParam => (param w r key (EnvParams snap !! key) key, rr)
  | KindOrgParam => (param w r key (OrgParams snap !! key) ("org." +:+ key), rr)
  | KindServerParam => (param w r key (ServerParams snap !! key) ("server.params." +:+ key), rr)
  | KindStackr =>
      let v := default "" (Stackr snap !! rf_Name r) in
      (if negb (String.eqb v "") then Ok v
       else Err (errorf1 "%s: only a tile with a domain has one; the proxy reaches the tile over that domain's network"
                   [AStr (rf_Source r)]), rr)
  | KindEnv =>
      (if String.eqb (s_Env snap) "" then Err (errorf1 "%s: no environment here" [AStr (rf_Source r)])
       else Ok (s_Env snap), rr)
  | KindBackup =>
      (match Backups snap !! rf_Name r with
       | Some v => Ok v
       | None => Err (errorf1 "%s: this org has no backup destination named %q"
                        [AStr (rf_Source r); AStr (rf_Name r)])
       end, rr)
  | KindSelf =>
      (match Outputs (Self snap) !! rf_Name r with
       | Some v => Ok v
       | None => Err (errorf1 "%s: this tile publishes no output named %q"
                        [AStr (rf_Source r); AStr (rf_Name r)])
       end, rr)
  | KindTile => tile snap r rr
  end.

Definition serverRefErr (r : Ref) (w : Where) : error :=
  errorf1 "%s: server params are readable only in the server file (stackr-server.yml), never in %s"
    [AStr (rf_Source r); AStr (where_text w)].

Definition one (snap : Snapshot) (w : Where) (body : string) (rr : Resolver) : res string * Resolver :=
  match Parse body with
  | Err err => (Err err, rr)
  | Ok r =>
      if bool_decide (rf_Kind r = KindServerParam) && negb (bool_decide (w = InServerFile)) then
        (Err (serverRefErr r w), rr)
      else if negb (allowed w (rf_Kind r)) then
        (Err (errorf1 "%s: a %s ref is not allowed in %s"
                [AStr (rf_Source r); AStr (kind_text (rf_Kind r)); AStr (where_text w)]), rr)
      else lookup snap w r rr
  end.

(** [ReplaceAllStringFunc]: every ref is looked up, the first error is kept. *)
Fixpoint replace_all (snap : Snapshot) (w : Where) (ts : list token) (out : string) (first : option error)
    (rr : Resolver) : string * option error * Resolver :=
  match ts with
  | [] => (out, first, rr)
  | TByte c :: ts => replace_all snap w ts (out +:+ String c "") first rr
  | TRef body :: ts =>
      let '(v, rr) := one snap w body rr in
      match v with
      | Ok v => replace_all snap w ts (out +:+ v) first rr
      | Err err =>
          replace_all snap w ts out (match first with Some _ => first | None => Some err end) rr
      end
  end.

Definition Expand (snap : Snapshot) (w : Where) (val : string) (rr : Resolver) : res string * Resolver :=
  if negb (HasRef val) then (Ok val, rr)
  else
    let '(out, first, rr) := replace_all snap w (tokens val) "" None rr in
    (match first with Some err => Err err | None => Ok out end, rr).

Definition server_ref (w : Where) (body : string) : option error :=
  match Parse body with
  | Ok r => if bool_decide (rf_Kind r = KindServerParam) then Some (serverRefErr r w) else None
  | Err _ => None
  end.

Definition RefuseServerRefs (w : Where) (vals : list string) : option error :=
  head (omap (server_ref w) (concat (map Refs vals))).

Fixpoint server_refs (bs : list string) : res (list string) :=
  match bs with
  | [] => Ok []
  | body :: bs =>
      r <-? Parse body ;;
      if negb (bool_decide (rf_Kind r = KindServerParam)) then
        Err (errorf1 "%s: the server file reads only ${{ server.params.<collection>.<name> }}" [AStr (rf_Source r)])
      else out <-? server_refs bs ;; Ok ((rf_Slug r +:+ "." +:+ rf_Name r) :: out)
  end.
Definition ServerRefs (s : string) : res (list string) := server_refs (Refs s).

(** ** A service tile's outputs *)

Record Domain := MkDomain { d_Host : string; HTTPS : bool; Redirect : bool }.
Record Endpoint := MkEndpoint { Alias : string; Port : Z; Protocol : string; Domains : list Domain }.

Definition outputs (e : Endpoint) : gmap string string :=
  if Port e =? 0 then ∅
  else
    let port := itoa (Port e) in
    let proto := if String.eqb (Protocol e) "" then "http" else Protocol e in
    let out : gmap string string := <["host" := Alias e]> (<["port" := port]> ∅) in
    let out :=
      if String.eqb proto "http" || String.eqb proto "https" then
        <["url" := proto +:+ "://" +:+ Alias e +:+ ":" +:+ port]> out
      else out in
    match find_first (fun d => negb (Redirect d)) (Domains e) with
    | None => out
    | Some d =>
        let scheme := if HTTPS d then "https" else "http" in
        <["public_url" := scheme +:+ "://" +:+ d_Host d]> (<["public_domain" := d_Host d]> out)
    end.

(** ** Laws *)

(** What a value is made of: its plain bytes, its refs, in order. *)
Definition render (t : token) : string := match t with TByte c => String c "" | TRef b => "${{" +:+ b +:+ "}}" end.
Definition render_all (ts : list token) : string := foldr (fun t s => render t +:+ s) "" ts.

Lemma match_at_sound s body : match_at s = Some body -> exists r, s = "${{" +:+ body +:+ "}}" +:+ r.
Proof.
  unfold match_at. destruct (strip_prefix "${{" s) as [r|] eqn:E1; [|done].
  apply strip_prefix_spec in E1 as ->. pose proof (cut_spec "}" r) as Hc.
  destruct (cut "}" r) as [[b a]|]; [|done]. destruct Hc as [-> Hb].
  destruct (strip_prefix "}" a) as [a'|] eqn:E2; [|done].
  apply strip_prefix_spec in E2 as ->. intros [= ->]. exists a'. by str.
Qed.

Lemma render_tokens_from k s : render_all (tokens_from k s) = str_drop k s.
Proof.
  revert k. induction s as [|c s IH]; intros k; [by destruct k|]. destruct k as [|k]; [|apply IH].
  cbn [tokens_from]. destruct (match_at (String c s)) as [body|] eqn:E.
  - cbn [render_all foldr]. fold (render_all (tokens_from (4 + String.length body) s)). rewrite IH.
    apply match_at_sound in E as [r Hr]. cbn [render str_drop]. rewrite Hr.
    replace (str_drop (4 + String.length body) s) with r; [by rewrite <- !app_assoc_str|].
    change (str_drop (4 + String.length body) s) with (str_drop (5 + String.length body) (String c s)).
    rewrite Hr. replace (5 + String.length body)%nat with (String.length ("${{" +:+ body +:+ "}}")).
    + replace ("${{" +:+ body +:+ "}}" +:+ r) with (("${{" +:+ body +:+ "}}") +:+ r) by (by rewrite <- !app_assoc_str).
      by rewrite str_drop_app.
    + rewrite !length_app_str. simpl. lia.
  - cbn [render_all foldr render]. fold (render_all (tokens_from 0 s)). rewrite IH. by destruct s.
Qed.

(** The tokens are the value, cut. *)
Lemma render_tokens s : render_all (tokens s) = s.
Proof. apply render_tokens_from. Qed.

(** A lookup's answer does not depend on the resolver's sets. *)
Definition resolve (snap : Snapshot) (w : Where) (body : string) : res string :=
  (one snap w body NewResolver).1.

Lemma one_resolve snap w body rr : (one snap w body rr).1 = resolve snap w body.
Proof.
  unfold resolve, one. destruct (Parse body) as [r|]; [|done]. repeat (case_match; [done|]).
  unfold lookup. case_match; [done|]. destruct (rf_Kind r); try done.
  unfold tile. by repeat case_match.
Qed.

(** The reference expansion: every ref replaced, the first failure instead. *)
Fixpoint substitute (snap : Snapshot) (w : Where) (ts : list token) : res string :=
  match ts with
  | [] => Ok ""
  | TByte c :: ts => s <-? substitute snap w ts ;; Ok (String c s)
  | TRef body :: ts => v <-? resolve snap w body ;; s <-? substitute snap w ts ;; Ok (v +:+ s)
  end.

Lemma replace_all_spec snap w ts out first rr :
  let '(out', first', _) := replace_all snap w ts out first rr in
  match first with
  | Some e => first' = Some e
  | None => match substitute snap w ts with
            | Ok s => first' = None /\ out' = out +:+ s
            | Err e => first' = Some e
            end
  end.
Proof.
  revert out first rr. induction ts as [|[c|body] ts IH]; intros out first rr; simpl.
  - destruct first; [done|]. by str.
  - specialize (IH (out +:+ String c "") first rr). destruct (replace_all _ _ _ _ _ _) as [[o f] rr'].
    destruct first; [done|]. destruct (substitute snap w ts); [|done]. destruct IH as [-> ->].
    by rewrite <- app_assoc_str.
  - pose proof (one_resolve snap w body rr) as Hone. destruct (one snap w body rr) as [v rr1].
    simpl in Hone. subst v. destruct (resolve snap w body) as [v|e].
    + specialize (IH (out +:+ v) first rr1). destruct (replace_all _ _ _ _ _ _) as [[o f] rr'].
      destruct first; [done|]. destruct (substitute snap w ts); [|done]. destruct IH as [-> ->].
      by rewrite <- app_assoc_str.
    + specialize (IH out (match first with Some _ => first | None => Some e end) rr1).
      destruct (replace_all _ _ _ _ _ _) as [[o f] rr']. by destruct first.
Qed.

Lemma substitute_plain snap w ts :
  omap ref_body ts = [] -> substitute snap w ts = Ok (render_all ts).
Proof.
  induction ts as [|[c|b] ts IH]; simpl; [done| |done]. intros E.
  rewrite IH by done. by str.
Qed.

Lemma Expand_eq snap w val rr : (Expand snap w val rr).1 = substitute snap w (tokens val).
Proof.
  unfold Expand, HasRef, bodies.
  destruct (omap ref_body (tokens val)) as [|b bs] eqn:E; simpl.
  - rewrite substitute_plain by done. by rewrite render_tokens.
  - pose proof (replace_all_spec snap w (tokens val) "" None rr) as H.
    destruct (replace_all _ _ _ _ _ _) as [[out first] rr']. simpl in H.
    destruct (substitute snap w (tokens val)); [by destruct H as [-> ->]|by rewrite H].
Qed.

(** *** What a place cannot see *)

Definition hide (v : Value) : Value := if Secret v then MkValue "" true else v.
(** The snapshot with every secret's value blanked. *)
Definition blind (s : Snapshot) : Snapshot :=
  MkSnapshot (s_Env s) (hide <$> EnvParams s) (hide <$> OrgParams s) (Tier s)
    ((fun b => MkBlock (Locked b) (hide <$> Values b)) <$> Other s) (hide <$> ServerParams s)
    (Stackr s) (Backups s) (Self s) (Tiles s).
(** The snapshot of a caller that never loads the server scope. *)
Definition without_server (s : Snapshot) : Snapshot :=
  MkSnapshot (s_Env s) (EnvParams s) (OrgParams s) (Tier s) (Other s) ∅ (Stackr s) (Backups s) (Self s) (Tiles s).

Lemma substitute_ext snap snap' w ts :
  (forall body, resolve snap w body = resolve snap' w body) ->
  substitute snap w ts = substitute snap' w ts.
Proof. intros H. induction ts as [|[c|b] ts IH]; simpl; [done|by rewrite IH|by rewrite H, IH]. Qed.

Lemma param_hide w r key v unset :
  w = InDomain \/ w = InProvisionFrom ->
  param w r key (hide <$> v) unset = param w r key v unset.
Proof.
  intros Hw. destruct v as [[v []]|]; [|done..]. unfold param. simpl.
  by destruct Hw as [-> | ->].
Qed.

Lemma resolve_blind snap w body :
  w = InDomain \/ w = InProvisionFrom -> resolve snap w body = resolve (blind snap) w body.
Proof.
  intros Hw. unfold resolve, one. destruct (Parse body) as [r|]; [|done].
  case_match; [done|]. destruct (allowed w (rf_Kind r)) eqn:Ea; [|done]. simpl.
  unfold lookup. case_match.
  - simpl. unfold qualified. simpl. destruct (bool_decide (rf_Kind r = KindOrgParam)); simpl;
      (case_match; [by rewrite lookup_fmap, param_hide|]);
      rewrite lookup_fmap; destruct (Other snap !! _) as [b|]; try done; simpl;
      (case_match; [done|]); by rewrite lookup_fmap, param_hide.
  - destruct Hw as [-> | ->]; destruct (rf_Kind r); try done; simpl;
      rewrite lookup_fmap; by rewrite param_hide by auto.
Qed.

(** C28. A secret never shows in a domain or a provision_from target: what such a
    value expands to, and any error it gives, is the same whatever the secrets'
    values are. *)
Theorem Expand_hides_secrets snap val rr :
  (Expand snap InDomain val rr).1 = (Expand (blind snap) InDomain val rr).1 /\
  (Expand snap InProvisionFrom val rr).1 = (Expand (blind snap) InProvisionFrom val rr).1.
Proof.
  rewrite !Expand_eq. split; apply substitute_ext; intros body; apply resolve_blind; auto.
Qed.

Lemma qualified_server snap w r : qualified snap w r = qualified (without_server snap) w r.
Proof. done. Qed.

Lemma resolve_server snap w body : w <> InServerFile ->
  resolve snap w body = resolve (without_server snap) w body.
Proof.
  intros Hw. unfold resolve, one. destruct (Parse body) as [r|]; [|done].
  destruct (bool_decide (rf_Kind r = KindServerParam)) eqn:Ek; simpl.
  - by rewrite (bool_decide_false (w = InServerFile)).
  - bsimpl. case_match; [done|]. unfold lookup. case_match; [done|]. by destruct (rf_Kind r).
Qed.

(** The server scope stays with the server file: no value of a tile, command,
    domain, backup destination or slice reads a server param, whatever the
    snapshot holds, and a save that lets a value through has no ref in it that
    the deploy would refuse for that reason. *)
Theorem server_params_stay snap val rr :
  Forall (fun w => (Expand snap w val rr).1 = (Expand (without_server snap) w val rr).1 /\
      (RefuseServerRefs w [val] = None <->
       Forall (fun b => forall r, Parse b = Ok r -> rf_Kind r <> KindServerParam) (Refs val)))
    [InEnv; InCommand; InDomain; InBackupDest; InProvisionFrom].
Proof.
  assert (forall w, w <> InServerFile ->
    (Expand snap w val rr).1 = (Expand (without_server snap) w val rr).1 /\
    (RefuseServerRefs w [val] = None <->
     Forall (fun b => forall r, Parse b = Ok r -> rf_Kind r <> KindServerParam) (Refs val))) as H.
  { intros w Hw. split; [rewrite !Expand_eq; apply substitute_ext; intros; by apply resolve_server|].
    unfold RefuseServerRefs. simpl. rewrite app_nil_r. induction (Refs val) as [|b bs IH]; simpl; [done|].
    rewrite Forall_cons, <- IH. unfold server_ref. destruct (Parse b) as [r|e]; simpl.
    - case_bool_decide as E; simpl; [|split; [intros; split; [by intros ? [= <-]|done]|by intros [_ ?]]].
      split; [done|]. intros [H _]. by destruct (H r eq_refl).
    - split; [intros; by split|by intros [_ ?]]. }
  repeat constructor; by apply H.
Qed.

(** *** Dependencies *)

Definition tile_slug (body : string) : option string :=
  match Parse body with
  | Ok r => if bool_decide (rf_Kind r = KindTile) then Some (rf_Slug r) else None
  | Err _ => None
  end.

Lemma check_ref_same r r' : check_ref r = Ok r' -> r' = r.
Proof. unfold check_ref. destruct (_ && _); [done|]. destruct (negb _); [done|]. by intros [= ->]. Qed.

Lemma parse_kind_env src p env r : parse_kind src p env = Ok r -> rf_Env r = env.
Proof.
  unfold parse_kind. cbv zeta. repeat case_match; try done;
    try (intros ->%check_ref_same; done); by intros <-%Ok_inj.
Qed.

(** A [[x]] qualifier is only ever on a param. *)
Lemma Parse_qualified body r : Parse body = Ok r -> rf_Env r <> "" ->
  rf_Kind r = KindParam \/ rf_Kind r = KindOrgParam.
Proof.
  unfold Parse. cbv zeta.
  assert (forall src p, (if contains_any "[]" (trim_space body) then
      Err (Errorf (Sprintf "%s: an [env] qualifier is only valid on params.<collection>[<env>].<name> and org.params.<collection>[<tier>].<name>" [AStr src]))
    else parse_kind src p "") = Ok r -> rf_Env r <> "" -> rf_Kind r = KindParam \/ rf_Kind r = KindOrgParam) as Hplain.
  { intros src p. case_match; [done|]. by intros ->%parse_kind_env. }
  destruct (split "." (trim_space body)) as [|o [|h [|c [|n [|? ?]]]]]; try apply Hplain.
  - destruct (String.eqb_spec o "params") as [->|]; [|apply Hplain].
    destruct (qualifier _ _) as [ce|]; [|done]. unfold parse_kind. simpl. intros ->%check_ref_same. by left.
  - destruct (String.eqb o "org" && String.eqb h "params") eqn:E; [|apply Hplain]. bsimpl. subst.
    destruct (qualifier _ _) as [ce|]; [|done]. unfold parse_kind. simpl. intros ->%check_ref_same. by right.
Qed.

Lemma one_deps snap w body rr v :
  (one snap w body rr).1 = Ok v ->
  deps (one snap w body rr).2 = deps rr ∪ list_to_set (option_list (tile_slug body)).
Proof.
  unfold one, tile_slug. destruct (Parse body) as [r|] eqn:Ep; [|done].
  case_match; [done|]. case_match; [done|]. unfold lookup. case_match eqn:Ee.
  - bsimpl. simpl. intros _. destruct (Parse_qualified _ _ Ep Ee) as [-> | ->]; simpl; set_solver.
  - destruct (rf_Kind r); simpl; try (intros _; set_solver).
    unfold tile. repeat case_match; simpl; try done; intros _; set_solver.
Qed.

Lemma replace_all_deps snap w ts out rr out' rr' :
  replace_all snap w ts out None rr = (out', None, rr') ->
  deps rr' = deps rr ∪ list_to_set (omap tile_slug (omap ref_body ts)).
Proof.
  revert out rr. induction ts as [|[c|body] ts IH]; intros out rr; simpl.
  - intros [= _ <-]. set_solver.
  - apply IH.
  - pose proof (one_deps snap w body rr) as Hd. destruct (one snap w body rr) as [[v|e] rr1]; simpl in Hd.
    + intros H%IH. rewrite H, (Hd v eq_refl). destruct (tile_slug body); simpl; set_solver.
    + intros H. pose proof (replace_all_spec snap w ts out (Some e) rr1) as Hs. by rewrite H in Hs.
Qed.

(** The dependencies of a value that expands are exactly the slugs of its
    tile refs, added to those already known: no tile a container reads from is
    missing from its deploy order, and none is there that it does not read. *)
Theorem Expand_deps snap w val rr v rr' :
  Expand snap w val rr = (Ok v, rr') ->
  deps rr' = deps rr ∪ list_to_set (omap tile_slug (bodies val)).
Proof.
  unfold Expand, HasRef. destruct (bodies val) as [|b bs] eqn:E; simpl.
  - intros [= _ <-]. set_solver.
  - destruct (replace_all _ _ _ _ _ _) as [[out first] rr1] eqn:Er. destruct first; [done|].
    intros [= _ <-]. rewrite (replace_all_deps _ _ _ _ _ _ _ Er). fold (bodies val). by rewrite E.
Qed.

Definition ex_snap : Snapshot :=
  MkSnapshot "prod" {["app.PORT" := MkValue "8080" false]} ∅ "" ∅ ∅ ∅ ∅ (MkSource ∅ false false false "" "")
    {["db" := MkSource {["url" := "pg://db"]} true false true "shared" ""]}.
Definition ex_val : string := "${{ tile.db.url }}?p=${{params.app.PORT}}".
Lemma Expand_deps_witness :
  (Expand ex_snap InEnv ex_val NewResolver).1 = Ok "pg://db?p=8080" /\
  deps (Expand ex_snap InEnv ex_val NewResolver).2 = ∅ ∪ list_to_set (omap tile_slug (bodies ex_val)) /\
  omap tile_slug (bodies ex_val) = ["db"].
Proof.
  split; [by vm_compute|]. split; [|by vm_compute].
  refine (Expand_deps ex_snap InEnv ex_val NewResolver "pg://db?p=8080" _ _). by vm_compute.
Defined.

(** *** Printing a ref *)

Definition print (r : Ref) : string :=
  let c := if String.eqb (rf_Env r) "" then rf_Slug r else rf_Slug r +:+ "[" +:+ rf_Env r +:+ "]" in
  join "." match rf_Kind r with
  | KindParam => ["params"; c; rf_Name r]
  | KindOrgParam => ["org"; "params"; c; rf_Name r]
  | KindServerParam => ["server"; "params"; c; rf_Name r]
  | KindSelf => ["self"; rf_Name r]
  | KindTile => ["tile"; rf_Slug r; rf_Name r]
  | KindStackr => ["stackr"; rf_Name r]
  | KindBackup => ["org"; "backups"; rf_Name r]
  | KindEnv => ["env"; "name"]
  end.

Definition well_formed (r : Ref) : bool :=
  String.eqb (rf_Source r) ("${{ " +:+ print r +:+ " }}") &&
  (String.eqb (rf_Env r) "" ||
   (Valid (rf_Env r) && match rf_Kind r with KindParam | KindOrgParam => true | _ => false end)) &&
  match rf_Kind r with
  | KindParam | KindOrgParam | KindServerParam => ValidName (rf_Slug r) && ValidName (rf_Name r)
  | KindSelf => String.eqb (rf_Slug r) "" && ValidEnvKey (rf_Name r)
  | KindTile => Valid (rf_Slug r) && negb (String.eqb (rf_Slug r) "params") && ValidEnvKey (rf_Name r)
  | KindStackr => String.eqb (rf_Slug r) "" && contains platformNames (rf_Name r)
  | KindBackup => String.eqb (rf_Slug r) "" && Valid (rf_Name r)
  | KindEnv => String.eqb (rf_Slug r) "" && String.eqb (rf_Name r) "name"
  end.

(** The bytes of a slug or a name. *)
Definition word_byte (c : ascii) : bool := name_byte c || Ascii.eqb c "-".
Definition ref_byte (c : ascii) : bool := word_byte c || Ascii.eqb c "[" || Ascii.eqb c "]".

Lemma all_bytes_has (p : ascii -> bool) s :
  (forall c, p c = false -> has_byte c s = false) -> all_bytes p s = true.
Proof.
  induction s as [|d s IH]; simpl; [done|]. intros H. apply andb_true_iff. split.
  - destruct (p d) eqn:E; [done|]. specialize (H d E). apply orb_false_iff in H as [H _].
    by rewrite Ascii.eqb_refl in H.
  - apply IH. intros c Hc. by apply H, orb_false_iff in Hc as [_ ?].
Qed.

Lemma all_bytes_no (p : ascii -> bool) s c : all_bytes p s = true -> p c = false -> has_byte c s = false.
Proof.
  induction s as [|d s IH]; simpl; [done|]. intros H Hc. bsimpl. rewrite IH by done.
  rewrite orb_false_r. apply Ascii.eqb_neq. congruence.
Qed.

Lemma slug_words s : Valid s = true -> all_bytes word_byte s = true.
Proof.
  intros Hs. apply all_bytes_has. intros c Hc.
  assert (slug_byte c = false /\ Ascii.eqb c "-" = false) as [H1 H2].
  { revert Hc. destruct c as [[] [] [] [] [] [] [] []]; vm_compute; split; congruence. }
  bsimpl. by apply slug_no_byte.
Qed.

Lemma name_words s : ValidName s = true -> all_bytes word_byte s = true.
Proof.
  destruct s as [|c s]; [by intros H; vm_compute in H|]. intros [Hh Ht]%ValidEnvKey_spec. simpl.
  unfold word_byte at 1, name_byte at 1. rewrite Hh. simpl.
  eapply all_bytes_impl; [|exact Ht]. intros d Hd. unfold word_byte. by rewrite Hd.
Qed.

Lemma ref_byte_dense c : ref_byte c = true -> dense c = true /\ Ascii.eqb c "." = false.
Proof. destruct c as [[] [] [] [] [] [] [] []]; vm_compute; split; congruence. Qed.

Lemma all_bytes_join p sep l :
  all_bytes p sep = true -> Forall (fun x => all_bytes p x = true) l -> all_bytes p (join sep l) = true.
Proof.
  intros Hsep. induction 1 as [|x l Hx Hl IH]; [done|]. destruct l as [|y l]; [done|].
  rewrite join_cons by done. by rewrite !all_bytes_app, Hx, Hsep, IH.
Qed.

(** What [Parse] cuts a printed ref into. *)
Lemma parts_ok parts : parts <> [] -> Forall (fun x => all_bytes ref_byte x = true) parts ->
  trim_space (join "." parts) = join "." parts /\ split "." (join "." parts) = parts.
Proof.
  intros Hne HF. split.
  - apply trim_space_dense, all_bytes_join; [done|]. eapply Forall_impl; [exact HF|]. intros x Hx.
    simpl in Hx. eapply all_bytes_impl; [|exact Hx]. intros c Hc. by apply ref_byte_dense.
  - apply split_join; [done|]. eapply Forall_impl; [exact HF|]. intros x Hx. by apply (all_bytes_no ref_byte x "." Hx).
Qed.

Lemma words_ref s : all_bytes word_byte s = true -> all_bytes ref_byte s = true.
Proof. intros Hs. eapply all_bytes_impl; [|exact Hs]. intros c Hc. unfold ref_byte. by rewrite Hc. Qed.

Lemma contains_any_words parts :
  Forall (fun x => all_bytes word_byte x = true) parts -> contains_any "[]" (join "." parts) = false.
Proof.
  intros HF. unfold contains_any. apply negb_false_iff, all_bytes_join; [done|].
  eapply Forall_impl; [exact HF|]. intros x Hx. simpl in Hx. eapply all_bytes_impl; [|exact Hx].
  intros c. destruct c as [[] [] [] [] [] [] [] []]; vm_compute; congruence.
Qed.

Lemma plain_parts parts : parts <> [] -> Forall (fun x => all_bytes word_byte x = true) parts ->
  trim_space (join "." parts) = join "." parts /\ split "." (join "." parts) = parts /\
  contains_any "[]" (join "." parts) = false.
Proof.
  intros Hne HF. destruct (parts_ok parts) as [Ht Hs]; [done| |].
  - eapply Forall_impl; [exact HF|]. apply words_ref.
  - split_and!; [done..|]. by apply contains_any_words.
Qed.

Lemma qualifier_print src c e :
  all_bytes word_byte c = true -> (e = "" \/ Valid e = true) ->
  qualifier src (if String.eqb e "" then c else c +:+ "[" +:+ e +:+ "]") = Ok (c, e).
Proof.
  intros Hc He. unfold qualifier. destruct (String.eqb_spec e "") as [->|Hne].
  - pose proof (cut_spec "[" c) as Hcut. destruct (cut "[" c) as [[b a]|]; [|done].
    destruct Hcut as [-> _]. rewrite all_bytes_app in Hc. simpl in Hc. by rewrite andb_false_r in Hc.
  - destruct He as [|He]; [done|].
    assert (cut "[" (c +:+ "[" +:+ e +:+ "]") = Some (c, e +:+ "]")) as ->.
    { clear He. induction c as [|d c IH]; [done|]. simpl in Hc. bsimpl. rewrite app_cons_str.
      simpl. rewrite IH by done. destruct (Ascii.eqb_spec d "[") as [->|]; done. }
    assert (trim_suffix (e +:+ "]") "]" = e) as ->.
    { unfold trim_suffix, trim_prefix. replace (rev_str (e +:+ "]")) with ("]" +:+ rev_str e).
      - change (rev_str "]") with "]".
        assert (strip_prefix "]" ("]" +:+ rev_str e) = Some (rev_str e)) as -> by (by apply strip_prefix_spec).
        apply rev_str_involutive.
      - unfold rev_str. rewrite list_ascii_app, rev_app_distr. done. }
    rewrite He. destruct (String.eqb_spec e (e +:+ "]")) as [E|]; [|done].
    apply (f_equal String.length) in E. rewrite length_app_str in E. simpl in E. lia.
Qed.

Lemma qualified_words c e : all_bytes word_byte c = true -> (e = "" \/ Valid e = true) ->
  all_bytes ref_byte (if String.eqb e "" then c else c +:+ "[" +:+ e +:+ "]") = true.
Proof.
  intros Hcw He. destruct (String.eqb_spec e "") as [|Hne]; [by apply words_ref|].
  destruct He as [|He]; [done|]. rewrite !all_bytes_app, (words_ref c), (words_ref e) by
    (done || by apply slug_words). done.
Qed.

Ltac use_true := repeat match goal with H : ?x = true |- context [?x] => rewrite H end.

(** Every ref has one written form that reads back as itself: printing a
    well-formed ref of any kind, its [[env]] qualifier included, and parsing the
    body gives the ref again. *)
Theorem Parse_print r : well_formed r = true -> Parse (print r) = Ok r.
Proof.
  intros Hwf. unfold well_formed in Hwf. bsimpl.
  assert (He : rf_Env r = "" \/ Valid (rf_Env r) = true).
  { apply orb_true_iff in H1 as [?|?]; bsimpl; auto. }
  pose proof (fun c => qualified_words c (rf_Env r)) as Hc.
  destruct r as [k sl e n src]. unfold print in *. simpl in *. subst src. revert H1 H0 Hc.
  unfold Parse. cbn [rf_Kind rf_Slug rf_Env rf_Name rf_Source].
  set (cc := if String.eqb e "" then sl else sl +:+ "[" +:+ e +:+ "]").
  destruct k; intros H1 H0 Hc; bsimpl;
    repeat match goal with
    | H : ValidName ?x = true |- _ => pose proof (name_words x H); revert H
    | H : ValidEnvKey ?x = true |- _ => pose proof (name_words x H); revert H
    | H : Valid ?x = true |- _ => pose proof (slug_words x H); revert H
    end; intros;
    try (rewrite andb_false_r, orb_false_r in H1; bsimpl; subst); subst cc.
  - destruct (parts_ok ["params"; if String.eqb e "" then sl else sl +:+ "[" +:+ e +:+ "]"; n]) as [Ht Hs];
      [done|rewrite !Forall_cons, Forall_nil; split_and!; auto using words_ref|].
    rewrite Ht, Hs. simpl. rewrite qualifier_print by done. unfold parse_kind, check_ref. simpl.
    by use_true.
  - destruct (parts_ok ["org"; "params"; if String.eqb e "" then sl else sl +:+ "[" +:+ e +:+ "]"; n]) as [Ht Hs];
      [done|rewrite !Forall_cons, Forall_nil; split_and!; auto using words_ref|].
    rewrite Ht, Hs. simpl. rewrite qualifier_print by done. unfold parse_kind, check_ref. simpl.
    by use_true.
  - destruct (plain_parts ["self"; n]) as (Ht & Hs & Hp);
      [done|rewrite !Forall_cons, Forall_nil; by split_and!|].
    rewrite Ht, Hs, Hp. unfold parse_kind, check_ref. simpl. by use_true.
  - destruct (plain_parts ["tile"; sl; n]) as (Ht & Hs & Hp);
      [done|rewrite !Forall_cons, Forall_nil; by split_and!|].
    rewrite Ht, Hs, Hp. unfold parse_kind. simpl. rewrite (proj2 (String.eqb_neq sl "params")) by done.
    use_true. simpl. unfold check_ref. simpl. by use_true.
  - match goal with H : contains _ n = true |- _ => apply bool_decide_eq_true in H end.
    assert (n = ProxyIP \/ n = ProxyCIDR) as [-> | ->] by set_solver; by vm_compute.
  - destruct (plain_parts ["org"; "backups"; n]) as (Ht & Hs & Hp);
      [done|rewrite !Forall_cons, Forall_nil; by split_and!|].
    rewrite Ht, Hs, Hp. unfold parse_kind. simpl. by use_true.
  - by vm_compute.
  - destruct (plain_parts ["server"; "params"; sl; n]) as (Ht & Hs & Hp);
      [done|rewrite !Forall_cons, Forall_nil; by split_and!|].
    change (if String.eqb "" "" then sl else sl +:+ "[" +:+ "" +:+ "]") with sl.
    rewrite Ht, Hs, Hp. unfold parse_kind, check_ref. simpl. by use_true.
Qed.

Lemma Parse_print_witness :
  well_formed (MkRef KindParam "app" "pr" "PORT" "${{ params.app[pr].PORT }}") = true /\
  Parse "params.app[pr].PORT" = Ok (MkRef KindParam "app" "pr" "PORT" "${{ params.app[pr].PORT }}").
Proof.
  split; [by vm_compute|].
  apply (Parse_print (MkRef KindParam "app" "pr" "PORT" "${{ params.app[pr].PORT }}")). by vm_compute.
Defined.
