(* ===== verification/RefsSpec.v ===== *)
(** * What an expanded value is, without the resolver ([leaf/params/ref.go])

    A text is cut at its leftmost ref, each written form of a ref reads one
    place of the snapshot, and a value expands to its text with every ref
    replaced by what that place holds.  [Refs] is proved to do exactly this. *)
From S2P Require Import Prelude GoStrings GoTrim Errs Slug Refs.

(** ** The specification *)

(** A ref of [s]: a dollar, two braces, a body with no closing brace, two
    closing braces. *)
Definition ref_at (s pre body post : string) : Prop := s = pre +:+ "${{" +:+ body +:+ "}}" +:+ post /\ has_byte "}" body = false.
Definition first_ref (s pre body post : string) : Prop :=
  ref_at s pre body post /\ forall pre' body' post', ref_at s pre' body' post' -> (String.length pre <= String.length pre')%nat.

(** Where each kind of ref may stand. *)
Definition places (k : Kind) : list Where :=
  match k with
  | KindParam => [InEnv; InCommand; InDomain; InProvisionFrom]
  | KindOrgParam => [InEnv; InCommand; InDomain]
  | KindSelf | KindTile | KindStackr => [InEnv; InCommand]
  | KindBackup => [InBackupDest]
  | KindEnv => [InProvisionFrom]
  | KindServerParam => [InServerFile]
  end.

(** The block of params a ref reads, and the name of the param. *)
Definition param_key (r : Ref) : string := rf_Slug r +:+ "." +:+ rf_Name r.
Definition qualified_key (r : Ref) : string := rf_Slug r +:+ "[" +:+ rf_Env r +:+ "]." +:+ rf_Name r.
Inductive block_of (snap : Snapshot) (r : Ref) : gmap string Value -> string -> Prop :=
  | block_env : rf_Kind r = KindParam -> rf_Env r = "" -> block_of snap r (EnvParams snap) (param_key r)
  | block_own_env : rf_Kind r = KindParam -> rf_Env r <> "" -> rf_Env r = s_Env snap -> block_of snap r (EnvParams snap) (qualified_key r)
  | block_other_env b : rf_Kind r = KindParam -> rf_Env r <> "" -> rf_Env r <> s_Env snap ->
      Other snap !! ("stack:" +:+ rf_Env r) = Some b -> Locked b = false -> block_of snap r (Values b) (qualified_key r)
  | block_org : rf_Kind r = KindOrgParam -> rf_Env r = "" -> block_of snap r (OrgParams snap) ("org." +:+ param_key r)
  | block_own_tier : rf_Kind r = KindOrgParam -> rf_Env r <> "" -> rf_Env r = Tier snap -> block_of snap r (OrgParams snap) ("org." +:+ qualified_key r)
  | block_other_tier b : rf_Kind r = KindOrgParam -> rf_Env r <> "" -> rf_Env r <> Tier snap ->
      Other snap !! ("org:" +:+ rf_Env r) = Some b -> Locked b = false -> block_of snap r (Values b) ("org." +:+ qualified_key r)
  | block_server : rf_Kind r = KindServerParam -> block_of snap r (ServerParams snap) ("server.params." +:+ param_key r).

(** What a ref reads in the place [w]. *)
Inductive reads (snap : Snapshot) (w : Where) (r : Ref) : string -> Prop :=
  | reads_param m name v : block_of snap r m name -> m !! param_key r = Some v ->
      (Secret v = true -> w <> InDomain /\ w <> InProvisionFrom) -> reads snap w r (V v)
  | reads_self v : rf_Kind r = KindSelf -> Outputs (Self snap) !! rf_Name r = Some v -> reads snap w r v
  | reads_tile src v : rf_Kind r = KindTile -> Tiles snap !! rf_Slug r = Some src -> Managed src = false ->
      (Slice src = true -> Attached src = true) -> Outputs src !! rf_Name r = Some v -> reads snap w r v
  | reads_stackr v : rf_Kind r = KindStackr -> Stackr snap !! rf_Name r = Some v -> v <> "" -> reads snap w r v
  | reads_backup v : rf_Kind r = KindBackup -> Backups snap !! rf_Name r = Some v -> reads snap w r v
  | reads_env : rf_Kind r = KindEnv -> s_Env snap <> "" -> reads snap w r (s_Env snap).

(** A body is a ref: a well-formed one, written out, with space around. *)
Definition written (body : string) (r : Ref) : Prop := trim_space body = print r /\ well_formed r = true.
Definition stands (snap : Snapshot) (w : Where) (body v : string) : Prop :=
  exists r, written body r /\ w ∈ places (rf_Kind r) /\ reads snap w r v.

Inductive expands (snap : Snapshot) (w : Where) : string -> string -> Prop :=
  | expands_plain s : (forall pre body post, ~ ref_at s pre body post) -> expands snap w s s
  | expands_ref s pre body post v t : first_ref s pre body post -> stands snap w body v -> expands snap w post t ->
      expands snap w s (pre +:+ v +:+ t).
(** The first ref of a value that reads nothing. *)
Inductive stuck (snap : Snapshot) (w : Where) : string -> string -> Prop :=
  | stuck_here s pre body post : first_ref s pre body post -> (forall v, ~ stands snap w body v) -> stuck snap w s body
  | stuck_later s pre body post v b : first_ref s pre body post -> stands snap w body v -> stuck snap w post b -> stuck snap w s b.
(** The param a body names, where it has no value. *)
Definition unset (snap : Snapshot) (w : Where) (body name : string) : Prop :=
  exists r m, written body r /\ w ∈ places (rf_Kind r) /\ block_of snap r m name /\ m !! param_key r = None.

(** ** Cutting a value *)

Lemma match_at_complete body r : has_byte "}" body = false -> match_at ("${{" +:+ body +:+ "}}" +:+ r) = Some body.
Proof.
  intros Hb. unfold match_at. rewrite (proj2 (strip_prefix_spec "${{" _ (body +:+ "}}" +:+ r)) eq_refl).
  change ("}}" +:+ r) with (String "}" ("}" +:+ r)).
  assert (cut "}" (body +:+ String "}" ("}" +:+ r)) = Some (body, "}" +:+ r)) as ->.
  { induction body as [|c body IH]; [done|]. cbn [has_byte] in Hb. apply orb_false_iff in Hb as [Hc Hb]. rewrite app_cons_str. cbn [cut].
    rewrite Ascii.eqb_sym, Hc. by rewrite IH. }
  by rewrite (proj2 (strip_prefix_spec "}" _ r) eq_refl).
Qed.
Lemma match_at_body s body : match_at s = Some body -> has_byte "}" body = false.
Proof.
  unfold match_at. destruct (strip_prefix "${{" s) as [r|]; [|done]. pose proof (cut_spec "}" r) as Hc.
  destruct (cut "}" r) as [[b a]|]; [|done]. destruct Hc as [_ Hb]. destruct (strip_prefix "}" a); [|done]. by intros [= <-].
Qed.
Lemma tokens_drop k s : tokens_from k s = tokens (str_drop k s).
Proof. revert s. induction k as [|k IH]; intros [|c s]; [done..|]. exact (IH s). Qed.
Definition bytes_of (s : string) : list token := map TByte (list_ascii_of_string s).

(** A value is plain, or cut at its first ref. *)
Lemma tokens_cases s : (tokens s = bytes_of s /\ forall pre body post, ~ ref_at s pre body post) \/
  exists pre body post, first_ref s pre body post /\ tokens s = bytes_of pre ++ TRef body :: tokens post /\ (String.length post < String.length s)%nat.
Proof.
  induction s as [|c s IH]; [left; split; [done|]; intros pre body post [E _]; by destruct pre|].
  unfold tokens. cbn [tokens_from]. destruct (match_at (String c s)) as [body|] eqn:E.
  - right. pose proof (match_at_body _ _ E) as Hb. apply match_at_sound in E as [post Hs]. exists "", body, post. split; [|split].
    + split; [by split|]. intros. cbn. lia.
    + cbn [bytes_of map app list_ascii_of_string]. f_equal. rewrite tokens_drop. f_equal.
      change (str_drop (4 + String.length body) s) with (str_drop (5 + String.length body) (String c s)). rewrite Hs.
      replace (5 + String.length body)%nat with (String.length ("${{" +:+ body +:+ "}}")) by (rewrite !length_app_str; cbn; lia).
      replace ("${{" +:+ body +:+ "}}" +:+ post) with (("${{" +:+ body +:+ "}}") +:+ post) by (by rewrite <-!app_assoc_str). apply str_drop_app.
    + rewrite Hs, !length_app_str. cbn. lia.
  - assert (forall pre body post, ref_at (String c s) pre body post -> exists pre', pre = String c pre' /\ ref_at s pre' body post) as Hat.
    { intros [|d pre] body post [Hs Hb].
      - rewrite app_nil_str in Hs. rewrite Hs, match_at_complete in E; done.
      - rewrite app_cons_str in Hs. injection Hs as <- Hs. exists pre. by split. }
    fold (tokens s). destruct IH as [[-> Hn]|(pre & body & post & [Hr Hmin] & -> & Hl)].
    + left. split; [done|]. intros pre body post (pre' & -> & Hp)%Hat. by apply (Hn pre' body post).
    + right. exists (String c pre), body, post. split; [|split; [done|cbn; lia]]. split.
      * destruct Hr as [-> Hb]. by split.
      * intros p' b' q' (p & -> & Hp)%Hat. apply Hmin in Hp. cbn. lia.
Qed.

Lemma first_ref_unique s pre body post pre' body' post' : first_ref s pre body post -> first_ref s pre' body' post' ->
  pre = pre' /\ body = body' /\ post = post'.
Proof.
  intros [[E Hb] H1] [[E' Hb'] H2]. pose proof (H1 _ _ _ (conj E' Hb')) as L1. pose proof (H2 _ _ _ (conj E Hb)) as L2.
  assert (forall (a b x y : string), String.length a = String.length b -> a +:+ x = b +:+ y -> a = b /\ x = y) as Happ.
  { induction a as [|c a IH]; intros [|d b] x y; try done; cbn [String.length]. intros [= Hl]. rewrite !app_cons_str. intros [= -> Ht].
    by destruct (IH _ _ _ Hl Ht) as [-> ->]. }
  rewrite E in E'. destruct (Happ pre pre' _ _ ltac:(lia) E') as [-> Ht]. split; [done|].
  apply (f_equal (fun s => match_at s)) in Ht as Hm. rewrite !match_at_complete in Hm by done. injection Hm as <-. split; [done|].
  assert (forall p, "${{" +:+ body +:+ "}}" +:+ p = ("${{" +:+ body +:+ "}}") +:+ p) as Hc by (intros p; by rewrite <-!app_assoc_str).
  rewrite !Hc in Ht. by destruct (Happ _ _ post post' eq_refl Ht) as [_ ->].
Qed.

(** ** A body that parses is a ref, written out *)

Definition parts_of (r : Ref) : list string :=
  match rf_Kind r with
  | KindParam => ["params"; rf_Slug r; rf_Name r]
  | KindOrgParam => ["org"; "params"; rf_Slug r; rf_Name r]
  | KindServerParam => ["server"; "params"; rf_Slug r; rf_Name r]
  | KindSelf => ["self"; rf_Name r]
  | KindTile => ["tile"; rf_Slug r; rf_Name r]
  | KindStackr => ["stackr"; rf_Name r]
  | KindBackup => ["org"; "backups"; rf_Name r]
  | KindEnv => ["env"; "name"]
  end.
Definition names_ok (r : Ref) : bool :=
  match rf_Kind r with
  | KindParam | KindOrgParam | KindServerParam => ValidName (rf_Slug r) && ValidName (rf_Name r)
  | KindSelf => String.eqb (rf_Slug r) "" && ValidEnvKey (rf_Name r)
  | KindTile => Valid (rf_Slug r) && negb (String.eqb (rf_Slug r) "params") && ValidEnvKey (rf_Name r)
  | KindStackr => String.eqb (rf_Slug r) "" && contains platformNames (rf_Name r)
  | KindBackup => String.eqb (rf_Slug r) "" && Valid (rf_Name r)
  | KindEnv => String.eqb (rf_Slug r) "" && String.eqb (rf_Name r) "name"
  end.
Lemma check_ref_ok r r' : check_ref r = Ok r' -> r' = r /\
  match rf_Kind r with KindParam | KindOrgParam | KindServerParam => ValidName (rf_Slug r) = true | _ => True end /\
  match rf_Kind r with KindTile | KindSelf => ValidEnvKey (rf_Name r) = true | _ => ValidName (rf_Name r) = true end.
Proof.
  unfold check_ref. destruct (rf_Kind r); cbn [andb]; repeat (case_match; [done|]); intros <-%Ok_inj; bsimpl; by split_and!.
Qed.
Lemma eqb_len (p : list string) n : Nat.eqb (length p) n = true -> length p = n.
Proof. apply Nat.eqb_eq. Qed.
Ltac part_list p H :=
  apply eqb_len in H; destruct p as [|? [|? [|? [|? [|? ?]]]]]; try discriminate H; clear H; cbn [nth] in *; bsimpl; subst.
Lemma parse_kind_ok src p env r : parse_kind src p env = Ok r -> p = parts_of r /\ rf_Source r = src /\ rf_Env r = env /\ names_ok r = true.
Proof.
  unfold parse_kind. cbv zeta. unfold parts_of, names_ok.
  destruct (Nat.eqb (length p) 3 && _) eqn:E1.
  { apply andb_true_iff in E1 as [E1 ?]. part_list p E1. intros (-> & H1 & H2)%check_ref_ok. cbn in *. by rewrite H1, H2. }
  destruct (Nat.eqb (length p) 4 && _ && _) eqn:E2 in |- *.
  { rewrite <-andb_assoc in E2. apply andb_true_iff in E2 as [E2 ?]. part_list p E2. intros (-> & H3 & H4)%check_ref_ok. cbn in *. by rewrite H3, H4. }
  destruct (Nat.eqb (length p) 4 && _ && _) eqn:E3 in |- *.
  { rewrite <-andb_assoc in E3. apply andb_true_iff in E3 as [E3 ?]. part_list p E3. intros (-> & H3 & H4)%check_ref_ok. cbn in *. by rewrite H3, H4. }
  destruct (String.eqb (nth 0 p "") "server"); [done|].
  destruct (Nat.eqb (length p) 3 && _ && _) eqn:E4 in |- *.
  { rewrite <-andb_assoc in E4. apply andb_true_iff in E4 as [E4 ?]. part_list p E4. destruct (Valid _) eqn:Hv; [|done]. intros <-%Ok_inj. by cbn. }
  destruct (Nat.eqb (length p) 2 && String.eqb (nth 0 p "") "env") eqn:E5.
  { apply andb_true_iff in E5 as [E5 ?]. part_list p E5. destruct (String.eqb_spec s0 "name") as [->|]; [|done]. by intros <-%Ok_inj. }
  destruct (Nat.eqb (length p) 2 && String.eqb (nth 0 p "") "self") eqn:E6.
  { apply andb_true_iff in E6 as [E6 ?]. part_list p E6. intros (-> & _ & H4)%check_ref_ok. by cbn in *. }
  destruct (Nat.eqb (length p) 2 && _) eqn:E7 in |- *.
  { apply andb_true_iff in E7 as [E7 ?]. part_list p E7. destruct (contains platformNames s0) eqn:Hc; [|done]. intros <-%Ok_inj. by cbn [rf_Kind rf_Name rf_Slug]. }
  destruct (Nat.eqb (length p) 3 && _) eqn:E8 in |- *; [|done].
  apply andb_true_iff in E8 as [E8 Eo]. apply eqb_len in E8. destruct p as [|h [|sl [|n [|? ?]]]]; try discriminate E8. cbn [nth] in *.
  destruct (String.eqb_spec sl "params"); [done|]. destruct (String.eqb_spec h "tile") as [->|]; [|done]. cbn [negb].
  destruct (Valid sl) eqn:Hv; [|done]. cbn [negb]. intros (-> & _ & H4)%check_ref_ok. cbn [rf_Kind rf_Slug rf_Name rf_Source rf_Env] in *. rewrite Hv, H4. by rewrite (proj2 (String.eqb_neq sl "params")).
Qed.
Lemma qualifier_ok src c c' e : qualifier src c = Ok (c', e) -> (e = "" /\ c = c') \/ (Valid e = true /\ c = c' +:+ "[" +:+ e +:+ "]").
Proof.
  unfold qualifier. pose proof (cut_spec "[" c) as Hc. destruct (cut "[" c) as [[pre post]|]; [|intros [= <- <-]; by left].
  destruct Hc as [-> _]. cbv zeta. destruct (String.eqb_spec (trim_suffix post "]") post) as [|Hne]; [done|]. cbn [orb].
  destruct (Valid _) eqn:Hv; [|done]. intros [= <- <-]. right. split; [done|]. f_equal.
  assert (post = trim_suffix post "]" +:+ "]") as Hp; [|by rewrite Hp at 1].
  unfold trim_suffix, trim_prefix in Hne |- *. change (rev_str "]") with "]" in *.
  destruct (strip_prefix "]" (rev_str post)) as [x|] eqn:E.
  - apply strip_prefix_spec in E. rewrite <-(rev_str_involutive post), E at 1. by rewrite rev_str_app.
  - cbn [default] in Hne. destruct Hne. apply rev_str_involutive.
Qed.

Lemma written_name body r : trim_space body = join "." (parts_of r) -> rf_Source r = "${{ " +:+ trim_space body +:+ " }}" -> rf_Env r = "" -> names_ok r = true -> written body r.
Proof.
  intros Hb Hs He Hn. assert (print r = join "." (parts_of r)) as Hp.
  { unfold print, parts_of. rewrite He. destruct r as [[] ? ? ? ?]; cbn in *; done. }
  split; [by rewrite Hp|]. unfold well_formed. rewrite Hp, <-Hb, Hs, He, !String.eqb_refl. exact Hn.
Qed.
Lemma written_qualified body k c e n src : k = KindParam \/ k = KindOrgParam -> Valid e = true ->
  trim_space body = join "." (parts_of (MkRef k (c +:+ "[" +:+ e +:+ "]") "" n src)) -> src = "${{ " +:+ trim_space body +:+ " }}" ->
  names_ok (MkRef k c e n src) = true -> written body (MkRef k c e n src).
Proof.
  intros Hk Hv Hb Hs Hn. assert (String.eqb e "" = false) as He by (apply String.eqb_neq; by intros ->).
  assert (print (MkRef k c e n src) = trim_space body) as Hp by (rewrite Hb; unfold print; cbn [rf_Kind rf_Slug rf_Env rf_Name]; rewrite He; by destruct Hk as [-> | ->]).
  split; [done|]. unfold well_formed. rewrite Hp. unfold names_ok in Hn. destruct Hk as [-> | ->]; cbn [rf_Kind rf_Slug rf_Env rf_Name rf_Source] in *;
    rewrite Hn, Hv, He, <-Hs, String.eqb_refl; done.
Qed.
Lemma Parse_written body r : Parse body = Ok r -> written body r.
Proof.
  unfold Parse. cbv zeta. pose proof (join_split "." (trim_space body)) as Hj. pose proof (fun a b c => written_name body r a b c) as Hw.
  set (b := trim_space body) in *. set (src := "${{ " +:+ b +:+ " }}") in *. change (String "." "") with "." in Hj.
  assert (forall p, split "." b = p -> parse_kind src p "" = Ok r -> written body r) as Hplain.
  { intros p Hp (-> & Hs & He & Hn)%parse_kind_ok. apply Hw; [|done..]. by rewrite <-Hj, Hp. }
  destruct (split "." b) as [|o [|h [|c [|n [|? ?]]]]] eqn:Es; try (destruct (contains_any "[]" b); [done|by apply Hplain]).
  - destruct (String.eqb_spec o "params") as [->|]; [|destruct (contains_any "[]" b); [done|by apply Hplain]].
    destruct (qualifier src h) as [[c' e]|] eqn:Eq; [|done]. cbn [fst snd]. apply qualifier_ok in Eq as [[-> ->]|[Hv ->]]; [by apply Hplain|].
    intros (Hp & Hs & He & Hn)%parse_kind_ok. destruct r as [k sl e' n' s']. cbn [rf_Source rf_Env] in *. subst s' e'.
    assert (k = KindParam) as -> by (unfold parts_of in Hp; cbn in Hp; by destruct k). cbn in Hp. injection Hp as -> ->. apply written_qualified; auto.
  - destruct (String.eqb o "org" && String.eqb h "params") eqn:Eo; [|destruct (contains_any "[]" b); [done|by apply Hplain]]. bsimpl. subst o h.
    destruct (qualifier src c) as [[c' e]|] eqn:Eq; [|done]. cbn [fst snd]. apply qualifier_ok in Eq as [[-> ->]|[Hv ->]]; [by apply Hplain|].
    intros (Hp & Hs & He & Hn)%parse_kind_ok. destruct r as [k sl e' n' s']. cbn [rf_Source rf_Env] in *. subst s' e'.
    assert (k = KindOrgParam) as -> by (unfold parts_of in Hp; cbn in Hp; by destruct k). cbn in Hp. injection Hp as -> ->. apply written_qualified; auto.
Qed.
Lemma Parse_iff body r : Parse body = Ok r <-> written body r.
Proof.
  split; [apply Parse_written|]. intros [Hp Hw]. rewrite <-(Parse_print r Hw), <-Hp. unfold Parse.
  by rewrite (tidy_trim (trim_space body)) by apply trim_tidy.
Qed.
Lemma check_ref_not_unset r p : check_ref r <> Err (Unset p).
Proof. unfold check_ref. destruct (_ && _); [done|]. by destruct (negb _). Qed.
Lemma parse_kind_not_unset src ps env p : parse_kind src ps env <> Err (Unset p).
Proof.
  pose proof check_ref_not_unset as Hc. unfold parse_kind. cbv zeta.
  repeat match goal with
  | |- (if ?b then _ else _) <> _ => destruct b
  | |- check_ref _ <> _ => apply Hc
  | |- _ <> _ => done
  end.
Qed.
Lemma Parse_not_unset body p : Parse body <> Err (Unset p).
Proof.
  assert (forall src c, qualifier src c <> Err (Unset p)) as Hq by (intros src c; unfold qualifier; destruct (cut "[" c) as [[? ?]|]; [|done]; by destruct (_ || _)).
  pose proof parse_kind_not_unset as Hk. unfold Parse. cbv zeta.
  destruct (split "." (trim_space body)) as [|a [|b [|c [|d [|? ?]]]]]; try (destruct (contains_any _ _); [done|apply Hk]).
  - destruct (String.eqb a "params"); [|destruct (contains_any _ _); [done|apply Hk]].
    match goal with |- context [qualifier ?s ?c] => destruct (qualifier s c) as [ce|e] eqn:E; [apply Hk|]; intros [= ->]; by apply (Hq s c) end.
  - destruct (_ && _); [|destruct (contains_any _ _); [done|apply Hk]].
    match goal with |- context [qualifier ?s ?c] => destruct (qualifier s c) as [ce|e] eqn:E; [apply Hk|]; intros [= ->]; by apply (Hq s c) end.
Qed.

(** ** What a ref reads *)

Lemma allowed_places w k : allowed w k = true <-> w ∈ places k.
Proof. split; [destruct w, k; try done; intros _; set_solver|destruct w, k; try done; intros H; exfalso; set_solver]. Qed.

(** The block of a ref, computed. *)
Definition block (snap : Snapshot) (r : Ref) : option (gmap string Value * string) :=
  let other pre name := match Other snap !! (pre +:+ rf_Env r) with Some b => if Locked b then None else Some (Values b, name) | None => None end in
  match rf_Kind r with
  | KindParam =>
      if String.eqb (rf_Env r) "" then Some (EnvParams snap, param_key r)
      else if String.eqb (rf_Env r) (s_Env snap) then Some (EnvParams snap, qualified_key r) else other "stack:" (qualified_key r)
  | KindOrgParam =>
      if String.eqb (rf_Env r) "" then Some (OrgParams snap, "org." +:+ param_key r)
      else if String.eqb (rf_Env r) (Tier snap) then Some (OrgParams snap, "org." +:+ qualified_key r) else other "org:" ("org." +:+ qualified_key r)
  | KindServerParam => Some (ServerParams snap, "server.params." +:+ param_key r)
  | _ => None
  end.
Lemma block_iff snap r m n : block_of snap r m n <-> block snap r = Some (m, n).
Proof.
  unfold block. cbv zeta. split.
  - intros H; inv H; repeat match goal with E : rf_Kind r = _ |- _ => rewrite E end; try done;
      repeat match goal with
      | E : rf_Env r = "" |- _ => rewrite E; cbn [String.eqb]
      | E : rf_Env r <> "" |- _ => rewrite (proj2 (String.eqb_neq (rf_Env r) "")) by exact E; clear E
      end; try done;
      repeat match goal with
      | E : rf_Env r = _ |- _ => rewrite <-E, String.eqb_refl
      | E : rf_Env r <> ?x |- _ => rewrite (proj2 (String.eqb_neq (rf_Env r) x)) by exact E
      | E : Other _ !! _ = _ |- _ => rewrite E
      | E : Locked _ = _ |- _ => rewrite E
      end; done.
  - destruct (rf_Kind r) eqn:Ek; try done; [| |by intros [= <- <-]; apply block_server];
      (destruct (String.eqb_spec (rf_Env r) "") as [E|E]; [intros [= <- <-]; (by apply block_env) || (by apply block_org)|]).
    + destruct (String.eqb_spec (rf_Env r) (s_Env snap)); [intros [= <- <-]; by apply block_own_env|].
      destruct (Other snap !! _) as [b|] eqn:Eo; [|done]. destruct (Locked b) eqn:El; [done|]. intros [= <- <-]. by apply block_other_env.
    + destruct (String.eqb_spec (rf_Env r) (Tier snap)); [intros [= <- <-]; by apply block_own_tier|].
      destruct (Other snap !! _) as [b|] eqn:Eo; [|done]. destruct (Locked b) eqn:El; [done|]. intros [= <- <-]. by apply block_other_tier.
Qed.

Definition is_param (k : Kind) : bool := match k with KindParam | KindOrgParam | KindServerParam => true | _ => false end.
Lemma well_formed_env r : well_formed r = true -> rf_Env r <> "" -> rf_Kind r = KindParam \/ rf_Kind r = KindOrgParam.
Proof.
  unfold well_formed. intros [[_ H]%andb_true_iff _]%andb_true_iff He. apply orb_true_iff in H as [H%String.eqb_eq|[_ H]%andb_true_iff]; [done|].
  destruct (rf_Kind r); auto; done.
Qed.
Lemma lookup_block snap w r rr : well_formed r = true -> is_param (rf_Kind r) = true ->
  match block snap r with
  | Some (m, n) => (lookup snap w r rr).1 = param w r (param_key r) (m !! param_key r) n
  | None => exists m, (lookup snap w r rr).1 = Err (Errorf m)
  end.
Proof.
  intros Hw Hk. pose proof (well_formed_env r Hw) as He. unfold lookup, block, qualified. cbv zeta. destruct (String.eqb_spec (rf_Env r) "") as [E|E]; cbn [negb].
  - by destruct (rf_Kind r).
  - destruct (He E) as [-> | ->]; cbn [fst]; [change (bool_decide (KindParam = KindOrgParam)) with false|change (bool_decide (KindOrgParam = KindOrgParam)) with true]; cbv iota beta.
    + destruct (String.eqb (rf_Env r) (s_Env snap)); [done|]. destruct (Other snap !! _) as [b|]; [|by eexists]. by destruct (Locked b); [eexists|].
    + destruct (String.eqb_spec (rf_Env r) (Tier snap)) as [<-|Hne].
      * rewrite (proj2 (String.eqb_neq (rf_Env r) "")) by done. done.
      * rewrite andb_false_r. destruct (Other snap !! _) as [b|]; [|by eexists]. by destruct (Locked b); [eexists|].
Qed.

Lemma param_ok w r key v name x : param w r key v name = Ok x <->
  exists val, v = Some val /\ x = V val /\ (Secret val = true -> w <> InDomain /\ w <> InProvisionFrom).
Proof.
  unfold param. destruct v as [val|]; [|split; [done|by intros (? & ? & _)]]. split.
  - intros H. exists val. destruct (Secret val), w; cbn in H; try done; injection H as <-; done.
  - intros (val' & [= <-] & -> & Hs). destruct (Secret val); [|done]. destruct (Hs eq_refl). by destruct w.
Qed.
Lemma param_unset w r key v name p : param w r key v name = Err (Unset p) <-> v = None /\ p = name.
Proof.
  unfold param. destruct v as [val|]; [|split; [by intros [= ->]|by intros [_ ->]]]. split; [|by intros [? _]].
  destruct (Secret val), w; done.
Qed.

Lemma lookup_reads snap w r rr v : well_formed r = true -> (lookup snap w r rr).1 = Ok v <-> reads snap w r v.
Proof.
  intros Hw. destruct (is_param (rf_Kind r)) eqn:Ek.
  - pose proof (lookup_block snap w r rr Hw Ek) as Hl. pose proof (block_iff snap r) as Hb. destruct (block snap r) as [[m n]|] eqn:E.
    + rewrite Hl, param_ok. split.
      * intros (val & Hv & -> & Hs). apply (reads_param _ _ _ m n); [by apply Hb|done|done].
      * intros H. inv H as [m' n' val Hbl Hv Hs| | | | |]; try (by rewrite H0 in Ek). apply Hb in Hbl as [= <- <-]. by exists val.
    + destruct Hl as [e ->]. split; [done|]. intros H. inv H as [m' n' val Hbl Hv Hs| | | | |]; try (by rewrite H0 in Ek). by apply Hb in Hbl.
  - assert (rf_Env r = "") as He.
    { destruct (String.eqb_spec (rf_Env r) ""); [done|]. by destruct (well_formed_env r Hw) as [E|E]; [done|rewrite E in Ek..]. }
    unfold lookup. rewrite He. cbn [String.eqb negb]. destruct (rf_Kind r) eqn:Hk; try done; cbn [fst]; split.
    all: try (intros H; inv H as [m' n' val Hbl Hv Hs| | | | |]; try congruence; [exfalso; inv Hbl; congruence|]).
    + destruct (Outputs (Self snap) !! rf_Name r) eqn:Eo; [|done]. intros [= <-]. by apply reads_self.
    + by rewrite H1.
    + unfold tile. destruct (Tiles snap !! rf_Slug r) as [src|] eqn:Et; [|done]. destruct (Managed src) eqn:Em; [done|].
      destruct (Slice src) eqn:Es; cbn [andb]; [destruct (Attached src) eqn:Ea; [|done]|]; cbn [negb];
        (destruct (Outputs src !! rf_Name r) eqn:Eo; [|done]; intros [= <-]; by apply (reads_tile _ _ _ src); [..|rewrite Es|]).
    + unfold tile. rewrite H1, H2, H4. destruct (Slice src); [rewrite H3 by done|]; done.
    + destruct (Stackr snap !! rf_Name r) as [x|] eqn:Es; cbn [from_option id]; [|done]. destruct (String.eqb_spec x ""); [done|]. intros [= <-]. by apply reads_stackr.
    + rewrite H1. cbn [from_option id]. by rewrite (proj2 (String.eqb_neq v "")).
    + destruct (Backups snap !! rf_Name r) eqn:Eb; [|done]. intros [= <-]. by apply reads_backup.
    + by rewrite H1.
    + destruct (String.eqb_spec (s_Env snap) ""); [done|]. intros [= <-]. by apply reads_env.
    + by rewrite (proj2 (String.eqb_neq (s_Env snap) "")).
Qed.
Lemma lookup_unset snap w r rr p : well_formed r = true -> (lookup snap w r rr).1 = Err (Unset p) <->
  exists m, block_of snap r m p /\ m !! param_key r = None.
Proof.
  intros Hw. destruct (is_param (rf_Kind r)) eqn:Ek.
  - pose proof (lookup_block snap w r rr Hw Ek) as Hl. setoid_rewrite block_iff. destruct (block snap r) as [[m n]|] eqn:E.
    + rewrite Hl, param_unset. split; [intros [? ->]; by exists m|by intros (m' & [= <- <-] & ?)].
    + destruct Hl as [e ->]. split; [done|by intros (? & ? & _)].
  - assert (rf_Env r = "") as He.
    { destruct (String.eqb_spec (rf_Env r) ""); [done|]. by destruct (well_formed_env r Hw) as [E|E]; [done|rewrite E in Ek..]. }
    split; [|intros (m & Hb & _); inv Hb; by rewrite H in Ek]. unfold lookup, tile. rewrite He. cbn [String.eqb negb].
    destruct (rf_Kind r) eqn:Hk; try done; cbn [fst]; repeat case_match; done.
Qed.

Lemma resolve_stands snap w body v : resolve snap w body = Ok v <-> stands snap w body v.
Proof.
  unfold resolve, one, stands. setoid_rewrite <-Parse_iff. destruct (Parse body) as [r|e] eqn:Ep; [|split; [done|by intros (? & ? & _)]].
  apply Parse_iff in Ep as [Hp Hw]. pose proof (lookup_reads snap w r NewResolver v Hw) as Hl. pose proof (allowed_places w (rf_Kind r)) as Ha.
  destruct (bool_decide (rf_Kind r = KindServerParam) && _) eqn:Es; [|destruct (allowed w (rf_Kind r)); cbn [negb]].
  - bsimpl. split; [done|]. intros (r' & [= <-] & Hin & _). rewrite H in Hin. apply list_elem_of_singleton in Hin. done.
  - rewrite Hl. split; [intros H; exists r; split; [done|]; split; [by apply Ha|done]|by intros (r' & [= <-] & _ & H)].
  - split; [done|]. intros (r' & [= <-] & Hin & _). by apply Ha in Hin.
Qed.
Lemma resolve_unset snap w body p : resolve snap w body = Err (Unset p) <-> unset snap w body p.
Proof.
  unfold resolve, one, unset. setoid_rewrite <-Parse_iff. destruct (Parse body) as [r|e] eqn:Ep.
  2:{ split; [|by intros (? & ? & ? & _)]. cbn [fst]. intros [= ->]. by apply Parse_not_unset in Ep. }
  apply Parse_iff in Ep as [Hp Hw]. pose proof (lookup_unset snap w r NewResolver p Hw) as Hl. pose proof (allowed_places w (rf_Kind r)) as Ha.
  destruct (bool_decide (rf_Kind r = KindServerParam) && _) eqn:Es; [|destruct (allowed w (rf_Kind r)); cbn [negb]].
  - bsimpl. split; [done|]. intros (r' & m & [= <-] & Hin & _). rewrite H in Hin. apply list_elem_of_singleton in Hin. done.
  - rewrite Hl. split; [intros (m & H); exists r, m; split; [done|]; split; [by apply Ha|done]|intros (r' & m & [= <-] & _ & H); by exists m].
  - split; [done|]. intros (r' & m & [= <-] & Hin & _). by apply Ha in Hin.
Qed.

(** ** Expansion *)

Lemma substitute_bytes snap w pre ts : substitute snap w (bytes_of pre ++ ts) = (t <-? substitute snap w ts ;; Ok (pre +:+ t)).
Proof.
  induction pre as [|c pre IH]; [change (bytes_of "" ++ ts) with ts; by destruct (substitute snap w ts)|]. cbn [bytes_of map list_ascii_of_string app substitute]. fold (bytes_of pre). rewrite IH.
  by destruct (substitute snap w ts).
Qed.
Lemma substitute_ref snap w pre body post v : substitute snap w (bytes_of pre ++ TRef body :: tokens post) = v <->
  match resolve snap w body with
  | Ok x => match substitute snap w (tokens post) with Ok t => v = Ok (pre +:+ x +:+ t) | Err e => v = Err e end
  | Err e => v = Err e
  end.
Proof.
  rewrite substitute_bytes. cbn [substitute]. destruct (resolve snap w body) as [x|]; [|split; by intros ->].
  destruct (substitute snap w (tokens post)); split; by intros ->.
Qed.
Lemma substitute_spec snap w s :
  (forall t, substitute snap w (tokens s) = Ok t <-> expands snap w s t) /\
  (forall e, substitute snap w (tokens s) = Err e -> exists body, stuck snap w s body /\ forall p, e = Unset p <-> unset snap w body p).
Proof.
  remember (String.length s) as n eqn:En. revert s En. induction n as [n IH] using lt_wf_ind. intros s ->.
  destruct (tokens_cases s) as [[-> Hn]|(pre & body & post & Hf & -> & Hl)].
  - rewrite <-(app_nil_r (bytes_of s)), substitute_bytes. cbn [substitute]. rewrite app_nil_r_str. split; [|done]. intros t. split; [intros [= <-]; by constructor|].
    intros H. inv H as [|? pre body post ? ? [Hra _]]; [done|by destruct (Hn pre body post)].
  - destruct (IH _ Hl post eq_refl) as [IHo IHe]. setoid_rewrite substitute_ref. pose proof (fun v => resolve_stands snap w body v) as Hr. pose proof (fun p => resolve_unset snap w body p) as Hu.
    destruct (resolve snap w body) as [x|e]; split.
    + intros t. destruct (substitute snap w (tokens post)) as [t'|e]; split; try done.
      * intros [= ->]. apply (expands_ref _ _ _ pre body post); [done|by apply Hr|by apply IHo].
      * intros H. inv H as [? Hno|? pre' body' post' v t0 Hf' Hs He]; [by destruct (Hno pre body post); apply Hf|].
        destruct (first_ref_unique _ _ _ _ _ _ _ Hf Hf') as (<- & <- & <-). apply Hr in Hs as [= ->]. by apply IHo in He as [= ->].
      * intros H. inv H as [? Hno|? pre' body' post' v t0 Hf' Hs He]; [by destruct (Hno pre body post); apply Hf|].
        destruct (first_ref_unique _ _ _ _ _ _ _ Hf Hf') as (<- & <- & <-). by apply IHo in He.
    + intros e. destruct (substitute snap w (tokens post)) as [t'|e']; [done|]. intros [= ->]. destruct (IHe e' eq_refl) as (b & Hb & Hp).
      exists b. split; [|done]. eapply stuck_later; [exact Hf|by apply Hr|done].
    + intros t. split; [done|]. intros H. inv H as [? Hno|? pre' body' post' v t0 Hf' Hs He]; [by destruct (Hno pre body post); apply Hf|].
      destruct (first_ref_unique _ _ _ _ _ _ _ Hf Hf') as (<- & <- & <-). by apply Hr in Hs.
    + intros e' [= ->]. exists body. split; [|intros p; rewrite <-Hu; split; [by intros ->|by intros [= ->]]].
      eapply stuck_here; [exact Hf|]. intros v Hs. by apply Hr in Hs.
Qed.

(** C27. Nothing unresolved reaches a container.  A value expands to a text exactly
    when that is its own text with every ref, taken left to right and none
    inside another, replaced by what it reads: a param of its own block or of an
    unlocked one, an output of this tile or of a service, an attached slice, a
    platform value, a backup destination or the env's name, each only where its
    kind may stand, and no secret where the value is public.  Otherwise the error is that of the first ref
    that reads nothing, and it names a param exactly when that ref names a
    param that its block does not hold. *)
Theorem Expand_substitutes snap w s rr :
  (forall t, (Expand snap w s rr).1 = Ok t <-> expands snap w s t) /\
  (forall e, (Expand snap w s rr).1 = Err e -> exists body, stuck snap w s body /\ forall p, e = Unset p <-> unset snap w body p).
Proof. rewrite Expand_eq. apply substitute_spec. Qed.

(** Concretely: a param, a qualified one and text between. *)
Definition ex_values : Snapshot :=
  MkSnapshot "prod" {["app.PORT" := MkValue "8080" false]} ∅ "" {["stack:pr" := MkBlock false {["app.KEY" := MkValue "k9" true]}]} ∅ ∅ ∅
    (MkSource ∅ false false false "" "") ∅.
Lemma Expand_substitutes_witness :
  expands ex_values InEnv "p=${{ params.app.PORT }}&k=${{params.app[pr].KEY}}" "p=8080&k=k9" /\
  (exists body, stuck ex_values InEnv "a ${{ params.app.HOST }}" body /\ unset ex_values InEnv body "app.HOST").
Proof.
  split.
  - apply (Expand_substitutes ex_values InEnv _ NewResolver). by vm_compute.
  - destruct (proj2 (Expand_substitutes ex_values InEnv "a ${{ params.app.HOST }}" NewResolver) (Unset "app.HOST")) as (b & Hs & Hu); [by vm_compute|].
    exists b. split; [exact Hs|by apply Hu].
Defined.
