(* ===== verification/Store.v ===== *)
(** * Tables ([internal/service/internal/store/store.go])

    The one CRUD every table shares, for tables whose rows have an id and a
    slug unique under a parent (a tier in its org, an environment in its
    stack).  [SlugTable] is the Go interface a leaf is written against, with
    its laws; [sql_table] implements it.  A leaf's definitions and theorems use
    the interface only.  A database that fails is not modelled. *)
From S2P Require Import Prelude GoStrings Errs.

(** What a row type brings: its key columns, and the columns [Update] leaves
    as they are ([keep old new]). *)
Class SlugRow (Row : Type) := {
  rid : Row -> string; rparent : Row -> string; rslug : Row -> string; keep : Row -> Row -> Row;
  keep_id : forall o n, rid (keep o n) = rid n;
  keep_parent : forall o n, rparent (keep o n) = rparent n;
  keep_slug : forall o n, rslug (keep o n) = rslug n }.

(** [tab] is what a store holds, for its laws to speak about. *)
Class SlugTable (St Row : Type) `{SlugRow Row} := {
  tab : St -> gmap string Row;
  create : Row -> St -> res St;
  get : St -> string -> res Row;
  by_slug : St -> string -> string -> res Row;
  list_by : St -> string -> list Row;
  update : Row -> St -> res St;
  delete_row : string -> St -> res St }.

(** Another row already holds [r]'s slug under its parent. *)
Definition clash {Row} `{SlugRow Row} (m : gmap string Row) (r : Row) : Prop :=
  exists id o, m !! id = Some o /\ id <> rid r /\ rparent o = rparent r /\ rslug o = rslug r.

Class SlugTableLaws (St Row : Type) `{SlugTable St Row} := {
  create_law : forall st r, match create r st with
    | Ok st' => tab st !! rid r = None /\ ~ clash (tab st) r /\ tab st' = <[rid r := r]> (tab st)
    | Err e => IsConflict e <> None /\ (is_Some (tab st !! rid r) \/ clash (tab st) r)
    end;
  get_law : forall st id, get st id = match tab st !! id with Some r => Ok r | None => Err ErrNotFound end;
  by_slug_law : forall st p s, match by_slug st p s with
    | Ok r => exists id, tab st !! id = Some r /\ rparent r = p /\ rslug r = s
    | Err e => e = ErrNotFound /\ forall id r, tab st !! id = Some r -> rparent r = p -> rslug r <> s
    end;
  list_law : forall st p,
    list_by st p ≡ₚ List.filter (fun r => String.eqb (rparent r) p) (map snd (map_to_list (tab st)));
  update_law : forall st r, match update r st with
    | Ok st' => exists o, tab st !! rid r = Some o /\ ~ clash (tab st) r /\
        tab st' = <[rid r := keep o r]> (tab st)
    | Err e => (e = ErrNotFound /\ tab st !! rid r = None) \/ (IsConflict e <> None /\ clash (tab st) r)
    end;
  delete_law : forall st id, match delete_row id st with
    | Ok st' => is_Some (tab st !! id) /\ tab st' = delete id (tab st)
    | Err e => e = ErrNotFound /\ tab st !! id = None
    end }.

(** ** The implementation *)

Definition already_exists : error := Wrap (text "%w: %v") (Conflictf "already exists" []).

Section Sql.
Context {Row : Type} `{SlugRow Row}.

Definition clashes (m : gmap string Row) (r : Row) : bool :=
  existsb (fun kv => negb (String.eqb kv.1 (rid r)) && String.eqb (rparent kv.2) (rparent r)
                     && String.eqb (rslug kv.2) (rslug r)) (map_to_list m).

Lemma clashes_spec m r : clashes m r = true <-> clash m r.
Proof.
  unfold clashes, clash. rewrite existsb_exists. split.
  - intros ([id o] & Hin%list_elem_of_In%elem_of_map_to_list & E). simpl in E. bsimpl. by exists id, o.
  - intros (id & o & Ho & Hne & Hp & Hs). exists (id, o).
    split; [by apply list_elem_of_In, elem_of_map_to_list|]. simpl.
    by rewrite Hp, Hs, !String.eqb_refl, (proj2 (String.eqb_neq _ _)).
Qed.

Lemma forallb_lookup (m : gmap string Row) (p : string * Row -> bool) :
  forallb p (map_to_list m) = true -> forall id r, m !! id = Some r -> p (id, r) = true.
Proof.
  intros Hf id r Hr. apply (proj1 (forallb_forall _ _) Hf). by apply list_elem_of_In, elem_of_map_to_list.
Qed.

#[export] Instance sql_table : SlugTable (gmap string Row) Row := {
  tab m := m;
  create r m := if bool_decide (is_Some (m !! rid r)) || clashes m r then Err already_exists
                else Ok (<[rid r := r]> m);
  get m id := match m !! id with Some r => Ok r | None => Err ErrNotFound end;
  by_slug m p s :=
    match find_first (fun r => String.eqb (rparent r) p && String.eqb (rslug r) s) (map snd (map_to_list m)) with
    | Some r => Ok r
    | None => Err ErrNotFound
    end;
  list_by m p := List.filter (fun r => String.eqb (rparent r) p) (map snd (map_to_list m));
  update r m := match m !! rid r with
    | None => Err ErrNotFound
    | Some o => if clashes m r then Err already_exists else Ok (<[rid r := keep o r]> m)
    end;
  delete_row id m := match m !! id with None => Err ErrNotFound | Some _ => Ok (delete id m) end }.

#[export] Instance sql_table_laws : SlugTableLaws (gmap string Row) Row.
Proof.
  constructor; simpl.
  - intros st r. case_bool_decide as E; simpl; [split; [done|by left]|].
    destruct (clashes st r) eqn:Ec; simpl.
    + split; [done|]. right. by apply clashes_spec.
    + split_and!; [by apply eq_None_not_Some| |done]. rewrite <- clashes_spec. congruence.
  - done.
  - intros st p s. destruct (find_first _ _) as [r|] eqn:E.
    + apply find_first_Some in E as [(kv & -> & Hin)%list_elem_of_fmap Hr]. destruct kv as [id r].
      apply elem_of_map_to_list in Hin. bsimpl. by exists id.
    + split; [done|]. intros id r Hr Hp Hs. apply find_first_None in E.
      assert (r ∈ map snd (map_to_list st)) as Hin.
      { apply list_elem_of_fmap. exists (id, r). split; [done|]. by apply elem_of_map_to_list. }
      pose proof (proj1 (Forall_forall _ _) E _ Hin) as Hf. simpl in Hf.
      by rewrite Hp, Hs, !String.eqb_refl in Hf.
  - done.
  - intros st r. destruct (st !! rid r) as [o|] eqn:E; [|by left].
    destruct (clashes st r) eqn:Ec.
    + right. split; [done|]. by apply clashes_spec.
    + exists o. split_and!; [done| |done]. rewrite <- clashes_spec. congruence.
  - intros st id. destruct (st !! id) eqn:E; by eauto.
Qed.
End Sql.

(** ** What the laws give a leaf *)

Section Laws.
Context {St Row : Type} `{SlugTableLaws St Row}.
Implicit Types (st : St) (r : Row).

(** Rows under their own id, slugs unique under a parent. *)
Definition table_ok (m : gmap string Row) : Prop :=
  (forall id r, m !! id = Some r -> rid r = id) /\ (forall id r, m !! id = Some r -> ~ clash m r).

Lemma elem_of_list_by st p r : table_ok (tab st) ->
  r ∈ list_by st p <-> tab st !! rid r = Some r /\ rparent r = p.
Proof.
  intros [Hk _]. rewrite list_law, elem_of_filterb, list_elem_of_fmap, String.eqb_eq. split.
  - intros [([id r'] & -> & Hin) Hp]. apply elem_of_map_to_list in Hin. simpl. by rewrite (Hk _ _ Hin).
  - intros [Hr Hp]. split; [|done]. exists (rid r, r). split; [done|]. by apply elem_of_map_to_list.
Qed.

Lemma list_by_ids st p : table_ok (tab st) -> NoDup (map rid (list_by st p)).
Proof.
  intros [Hk _]. rewrite (Permutation_map rid (list_law st p)).
  assert (NoDup (map rid (map snd (map_to_list (tab st))))) as Hn.
  { replace (map rid (map snd (map_to_list (tab st)))) with (map fst (map_to_list (tab st))).
    - apply NoDup_fst_map_to_list.
    - rewrite map_map. apply map_ext_in. intros [id j] Hin%list_elem_of_In.
      apply elem_of_map_to_list in Hin. symmetry. by apply Hk. }
  revert Hn. generalize (map snd (map_to_list (tab st))). induction l as [|x l IH]; simpl; [done|].
  intros [Hx Hl]%NoDup_cons. case_match; simpl; [|by apply IH]. apply NoDup_cons. split; [|by apply IH].
  intros (y & E & [Hy _]%elem_of_filterb)%list_elem_of_fmap. apply Hx. rewrite E.
  apply list_elem_of_fmap. eauto.
Qed.

(** Two listed rows with one slug are one row. *)
Lemma list_by_slug_inj st p r1 r2 : table_ok (tab st) ->
  r1 ∈ list_by st p -> r2 ∈ list_by st p -> rslug r1 = rslug r2 -> r1 = r2.
Proof.
  intros Hok [G1 P1]%elem_of_list_by [G2 P2]%elem_of_list_by Hs; try done.
  destruct (decide (rid r1 = rid r2)) as [E|Hne]; [rewrite E in G1; congruence|].
  destruct Hok as [_ Hu]. destruct (Hu _ _ G1). exists (rid r2), r2. split_and!; congruence.
Qed.

Lemma insert_ok (m : gmap string Row) r : table_ok m -> ~ clash m r -> table_ok (<[rid r := r]> m).
Proof.
  intros [Hk Hu] Hc. split.
  - intros id r'. rewrite lookup_insert_Some. intros [[<- <-]|[_ ?]]; [done|by apply Hk].
  - intros id r' Hr' (id2 & o & Ho & Hne & Hp & Hs). apply lookup_insert_Some in Hr', Ho.
    destruct Hr' as [[<- <-]|[Hid Hr']], Ho as [[<- <-]|[Hid2 Ho]]; try done.
    + apply Hc. by exists id2, o.
    + apply Hc. exists id, r'. split_and!; auto.
    + apply (Hu _ _ Hr'). by exists id2, o.
Qed.

Lemma create_ok st r st' : table_ok (tab st) -> create r st = Ok st' -> table_ok (tab st').
Proof.
  intros Hok Hc. pose proof (create_law st r) as Hl. rewrite Hc in Hl. destruct Hl as (_ & Hn & ->).
  by apply insert_ok.
Qed.

Lemma update_ok st r st' : table_ok (tab st) -> update r st = Ok st' -> table_ok (tab st').
Proof.
  intros Hok Hc. pose proof (update_law st r) as Hl. rewrite Hc in Hl. destruct Hl as (o & Ho & Hn & ->).
  rewrite <- (keep_id o r). apply insert_ok; [done|].
  intros (id & x & ? & Hne & Hp & Hs). apply Hn. rewrite keep_id in Hne. rewrite keep_parent in Hp.
  rewrite keep_slug in Hs. by exists id, x.
Qed.

(** Changing a row without its slug or its parent cannot clash. *)
Lemma update_same st r o : table_ok (tab st) -> tab st !! rid r = Some o ->
  rparent r = rparent o -> rslug r = rslug o ->
  exists st', update r st = Ok st' /\ tab st' = <[rid r := keep o r]> (tab st).
Proof.
  intros [Hk Hu] Ho Eo Es. pose proof (update_law st r) as Hl.
  assert (~ clash (tab st) r) as Hc.
  { intros (id & x & Hx & Hne & Hp & Hs). apply (Hu _ _ Ho). exists id, x.
    rewrite <- Eo, <- Es. split_and!; try done. intros ->. apply Hne. by rewrite (Hk _ _ Ho). }
  destruct (update r st) as [st'|e].
  - destruct Hl as (o' & Ho' & _ & E). exists st'. split; [done|]. congruence.
  - destruct Hl as [[_ Hn]|[_ ?]]; [|done]. congruence.
Qed.

Lemma delete_ok st id st' : table_ok (tab st) -> delete_row id st = Ok st' -> table_ok (tab st').
Proof.
  intros [Hk Hu] Hc. pose proof (delete_law st id) as Hl. rewrite Hc in Hl. destruct Hl as [_ ->]. split.
  - intros i r [_ ?]%lookup_delete_Some. by apply Hk.
  - intros i r [_ Hr]%lookup_delete_Some (i2 & o & [_ Ho]%lookup_delete_Some & ?).
    apply (Hu _ _ Hr). by exists i2, o.
Qed.

Lemma by_slug_free st p s id : table_ok (tab st) ->
  (match by_slug st p s with Ok r => rid r = id | Err _ => True end) ->
  forall id' r, tab st !! id' = Some r -> rparent r = p -> rslug r = s -> id' = id.
Proof.
  intros [Hk Hu] Hb id' r Hr Hp Hs. pose proof (by_slug_law st p s) as Hl.
  destruct (by_slug st p s) as [r0|e].
  - destruct Hl as (id0 & Hr0 & Hp0 & Hs0). rewrite (Hk _ _ Hr0) in Hb. subst id0.
    destruct (decide (id' = id)) as [|Hne]; [done|]. destruct (Hu _ _ Hr0).
    exists id', r. rewrite (Hk _ _ Hr0). split_and!; congruence.
  - destruct Hl as [_ Hl]. by destruct (Hl _ _ Hr Hp).
Qed.
End Laws.

Lemma singleton_ok {Row} `{SlugRow Row} (r : Row) : table_ok ({[rid r := r]} : gmap string Row).
Proof.
  split; [by intros i x [<- <-]%lookup_singleton_Some|].
  intros i x [<- <-]%lookup_singleton_Some (k & o & [<- <-]%lookup_singleton_Some & Hne & _). by destruct Hne.
Qed.

(** A concrete table is checked by running [table_okb]. *)
Definition table_okb {Row} `{SlugRow Row} (m : gmap string Row) : bool :=
  forallb (fun kv => String.eqb (rid kv.2) kv.1 && negb (clashes m kv.2)) (map_to_list m).

Lemma table_okb_ok {Row} `{SlugRow Row} (m : gmap string Row) : table_okb m = true -> table_ok m.
Proof.
  intros Hm. assert (Hall : forall id r, m !! id = Some r -> rid r = id /\ clashes m r = false).
  { intros id r Hr. pose proof (forallb_lookup m _ Hm id r Hr) as Hf. simpl in Hf. by bsimpl. }
  split; [intros id r Hr; by apply Hall|]. intros id r Hr Hc. apply clashes_spec in Hc.
  destruct (Hall _ _ Hr). congruence.
Qed.
