(* ===== verification/Tier.v ===== *)
(** * Tiers ([leaf/tier/tier.go], [store/tiers.go])

    An org's ladder of env names and their locks, over any [SlugTable] of
    [Tier] rows.  An operation that takes a row is given the row as its caller
    just read it. *)
From S2P Require Import Prelude GoStrings Errs Slug Store.

Record Tier := MkTier {
  ID : string; OrgID : string; Slug : string; Position : Z; Locked : bool; CreatedAt : Z }.

#[export] Instance tier_row : SlugRow Tier :=
  {| rid := ID; rparent := OrgID; rslug := Slug; keep _ n := n;
     keep_id _ _ := eq_refl; keep_parent _ _ := eq_refl; keep_slug _ _ := eq_refl |}.

Definition PR : string := "pr".

(** The generic reserved slugs are [slug.Reserved]. *)
Definition Reserved (sl : string) : bool := String.eqb sl PR || String.eqb sl "order" || Slug.Reserved sl.

(** [ORDER BY position, slug]. *)
Definition tier_leb (a b : Tier) : bool :=
  (Position a <? Position b) || ((Position a =? Position b) && String.leb (Slug a) (Slug b)).

Definition with_position (t : Tier) (p : Z) : Tier :=
  MkTier (ID t) (OrgID t) (Slug t) p (Locked t) (CreatedAt t).
Definition with_slug (t : Tier) (s : string) : Tier :=
  MkTier (ID t) (OrgID t) s (Position t) (Locked t) (CreatedAt t).
Definition with_locked (t : Tier) (l : bool) : Tier :=
  MkTier (ID t) (OrgID t) (Slug t) (Position t) l (CreatedAt t).

Section Leaf.
Context {St : Type} `{!SlugTable St Tier}.

Definition ListByOrg (st : St) (orgID : string) : list Tier := sort tier_leb (list_by st orgID).

Definition Of (st : St) (orgID envSlug : string) : res (option Tier) :=
  match by_slug st orgID envSlug with
  | Ok t => Ok (Some t)
  | Err e => if is_not_found e then Ok None else Err e
  end.

Definition check (st : St) (t : Tier) (sl : string) : res Tier :=
  if negb (Valid sl) then Err (Invalidf "slug" "%q is not a valid tier name." [AStr sl])
  else if Reserved sl then Err (Invalidf "slug" "%q is reserved." [AStr sl])
  else match by_slug st (OrgID t) sl with
  | Ok other =>
      if negb (String.eqb (ID other) (ID t)) then
        Err (Invalidf "slug" "Another tier already uses that name." [])
      else Ok (with_slug t sl)
  | Err e => if is_not_found e then Ok (with_slug t sl) else Err e
  end.

Definition Create (id : string) (now : Z) (orgID sl : string) (st : St) : res (Tier * St) :=
  t <-? check st (MkTier id orgID "" 0 true now) sl ;;
  let t := match last (ListByOrg st orgID) with
    | Some top => with_position t (Position top + 1)
    | None => t
    end in
  st' <-? create t st ;; Ok (t, st').

Definition Rename (t : Tier) (sl : string) (st : St) : res (Tier * St) :=
  t <-? check st t sl ;; st' <-? update t st ;; Ok (t, st').

Definition SetLocked (t : Tier) (locked : bool) (st : St) : res (Tier * St) :=
  let t := with_locked t locked in st' <-? update t st ;; Ok (t, st').

(** [UPDATE tiers SET position = ? WHERE id = ?]. *)
Definition set_position (id : string) (i : Z) (st : St) : res St :=
  t <-? get st id ;; update (with_position t i) st.

(** The table's own [Reorder]. *)
Fixpoint reorder_rows (i : Z) (ids : list string) (st : St) : res St :=
  match ids with
  | [] => Ok st
  | id :: ids => st' <-? set_position id i st ;; reorder_rows (i + 1) ids st'
  end.

Definition reorder_error : error := Invalidf "order" "Name each tier once, and only the org's tiers." [].

(** The loop over the named slugs; [byslug] is the map of the org's tiers. *)
Fixpoint reorder_ids (byslug : list (string * string)) (slugs ids : list string) : res (list string) :=
  match slugs with
  | [] => Ok ids
  | s :: slugs =>
      match snd <$> find_first (fun kv => String.eqb kv.1 s) byslug with
      | None => Err reorder_error
      | Some id => if contains ids id then Err reorder_error else reorder_ids byslug slugs (ids ++ [id])
      end
  end.

Definition Reorder (orgID : string) (slugs : list string) (st : St) : res St :=
  let all := ListByOrg st orgID in
  ids <-? reorder_ids (map (fun t => (Slug t, ID t)) all) slugs [] ;;
  if negb (Nat.eqb (length ids) (length all)) then Err reorder_error else reorder_rows 0 ids st.

Definition Delete (id : string) (st : St) : res St := delete_row id st.
End Leaf.

(** ** Laws *)

Lemma tier_leb_total a b : tier_leb a b = true \/ tier_leb b a = true.
Proof.
  unfold tier_leb. destruct (Z.ltb_spec (Position a) (Position b)); [by left|].
  destruct (Z.ltb_spec (Position b) (Position a)); [by right|]. simpl.
  assert (Position a = Position b) as -> by lia. rewrite Z.eqb_refl. simpl. apply String.leb_total.
Qed.

Lemma tier_leb_spec a b : tier_leb a b = true <->
  Position a < Position b \/ (Position a = Position b /\ String.leb (Slug a) (Slug b) = true).
Proof. unfold tier_leb. rewrite orb_true_iff, andb_true_iff, Z.ltb_lt, Z.eqb_eq. done. Qed.

Lemma tier_leb_trans a b c : tier_leb a b = true -> tier_leb b c = true -> tier_leb a c = true.
Proof.
  rewrite !tier_leb_spec. intros [?|[? ?]] [?|[? ?]]; [left; lia..|]. right. split; [lia|].
  by eapply leb_trans_str.
Qed.

Section Laws.
Context {St : Type} `{!SlugTable St Tier, !SlugTableLaws St Tier}.
Implicit Types (st : St) (t : Tier).

(** The state of the tiers: a good table, no reserved or malformed slug, and
    no two tiers of an org on one rung. *)
Definition tiers_ok (m : gmap string Tier) : Prop :=
  table_ok m /\
  (forall id t, m !! id = Some t -> Valid (Slug t) = true /\ Reserved (Slug t) = false) /\
  (forall i k a b, m !! i = Some a -> m !! k = Some b -> OrgID a = OrgID b -> Position a = Position b -> i = k).

Lemma elem_of_ListByOrg st org t : table_ok (tab st) ->
  t ∈ ListByOrg st org <-> tab st !! ID t = Some t /\ OrgID t = org.
Proof. intros Hok. unfold ListByOrg. rewrite elem_of_sort. exact (elem_of_list_by st org t Hok). Qed.

Lemma ListByOrg_ids st org : table_ok (tab st) -> NoDup (map ID (ListByOrg st org)).
Proof. intros Hok. unfold ListByOrg. rewrite (Permutation_map ID (sort_perm _ _)). exact (list_by_ids st org Hok). Qed.

(** The ladder strictly climbs. *)
Lemma ListByOrg_climbs st org : tiers_ok (tab st) -> climbs Position (ListByOrg st org).
Proof.
  intros (Hok & _ & Hpos). eapply climbs_intro.
  - exact (sort_sorted tier_leb tier_leb_total tier_leb_trans (list_by st org)).
  - intros a b. simpl. rewrite tier_leb_spec. lia.
  - exact (NoDup_fmap_1 ID _ (ListByOrg_ids st org Hok)).
  - intros a b [Ha Oa]%elem_of_ListByOrg [Hb Ob]%elem_of_ListByOrg E; [|done..].
    assert (ID a = ID b) as Ei by (eapply Hpos; [exact Ha|exact Hb|congruence|done]).
    rewrite Ei in Ha. congruence.
Qed.

Lemma check_ok st t sl t' : check st t sl = Ok t' ->
  t' = with_slug t sl /\ Valid sl = true /\ Reserved sl = false /\
  match by_slug st (OrgID t) sl with Ok r => ID r = ID t | Err _ => True end.
Proof.
  unfold check. destruct (Valid sl) eqn:E1; [|done]. destruct (Reserved sl) eqn:E2; [done|]. simpl.
  destruct (by_slug st (OrgID t) sl) as [o|e].
  - destruct (String.eqb_spec (ID o) (ID t)); [|done]. by intros <-%Ok_inj.
  - destruct (is_not_found e); [|done]. by intros <-%Ok_inj.
Qed.

Lemma put_ok (m : gmap string Tier) t :
  tiers_ok m -> ~ clash m t -> Valid (Slug t) = true -> Reserved (Slug t) = false ->
  (forall k b, m !! k = Some b -> OrgID b = OrgID t -> Position b = Position t -> k = ID t) ->
  tiers_ok (<[ID t := t]> m).
Proof.
  intros (Hok & Hsl & Hpos) Hc Hv Hr Hp. split; [exact (insert_ok m t Hok Hc)|]. split.
  - intros id t'. rewrite lookup_insert_Some. intros [[<- <-]|[_ ?]]; [done|eauto].
  - intros i k a b. rewrite !lookup_insert_Some.
    intros [[<- <-]|[? Ha]] [[<- <-]|[? Hb]] Ho E; [done|..].
    + symmetry. eapply Hp; [exact Hb|congruence..].
    + eapply Hp; [exact Ha|congruence..].
    + by eapply Hpos.
Qed.

Lemma reorder_rows_spec ids i st : NoDup ids -> table_ok (tab st) ->
  (forall id, id ∈ ids -> is_Some (tab st !! id)) ->
  exists st', reorder_rows i ids st = Ok st' /\ table_ok (tab st') /\
    (forall j id, ids !! j = Some id ->
       tab st' !! id = (fun t => with_position t (i + Z.of_nat j)) <$> tab st !! id) /\
    (forall id, id ∉ ids -> tab st' !! id = tab st !! id).
Proof.
  revert i st. induction ids as [|id ids IH]; intros i st Hnd Hok Hin; simpl; [by exists st|].
  apply NoDup_cons in Hnd as [Hn Hnd]. destruct (Hin id ltac:(set_solver)) as [t Ht].
  unfold set_position. rewrite get_law, Ht. pose proof Hok as [Hk _].
  assert (ID t = id) as Eid by (by apply Hk in Ht). subst id.
  destruct (update_same st (with_position t i) t Hok Ht eq_refl eq_refl) as (st1 & Hu & Htab). rewrite Hu.
  assert (table_ok (tab st1)) as Hok1 by exact (update_ok _ _ _ Hok Hu).
  simpl in Htab. destruct (IH (i + 1) st1) as (st' & Hr & Hok' & Hin' & Hout); [done|done| |].
  { intros id Hid. rewrite Htab, lookup_insert_ne by (intros E; apply Hn; by rewrite E). apply Hin. set_solver. }
  exists st'. split_and!; [done|done| |].
  - intros [|j] id Hj; simpl in Hj.
    + injection Hj as <-. rewrite Hout, Htab, lookup_insert_eq, Ht by done. simpl.
      by replace (i + Z.of_nat 0) with i by lia.
    + rewrite (Hin' _ _ Hj), Htab, lookup_insert_ne.
      * by replace (i + 1 + Z.of_nat j) with (i + Z.of_nat (S j)) by lia.
      * intros E. apply Hn. rewrite E. by eapply list_elem_of_lookup_2.
  - intros id Hid. rewrite Hout, Htab, lookup_insert_ne by set_solver. done.
Qed.

Lemma reorder_ids_sound bs slugs acc ids :
  reorder_ids bs slugs acc = Ok ids -> NoDup acc ->
  exists ids2, ids = acc ++ ids2 /\ NoDup ids /\ Forall2 (fun s id => (s, id) ∈ bs) slugs ids2.
Proof.
  revert acc. induction slugs as [|s slugs IH]; intros acc Hr Hnd; simpl in Hr.
  { apply Ok_inj in Hr as <-. exists []. rewrite app_nil_r. by split_and!. }
  destruct (find_first _ bs) as [[s' id]|] eqn:Ef; [|done]. simpl in Hr.
  unfold contains in Hr. case_bool_decide as Hin; [done|].
  apply IH in Hr as (ids2 & -> & Hnd' & HF).
  - apply find_first_Some in Ef as [Hbs E]. simpl in E. bsimpl. subst s'.
    exists (id :: ids2). rewrite <- app_assoc in *. split_and!; [done..|]. by constructor.
  - apply NoDup_app. split_and!; [done|set_solver|apply NoDup_singleton].
Qed.

Lemma reorder_ids_complete bs slugs acc :
  NoDup (map snd bs) -> NoDup slugs -> (forall s, s ∈ slugs -> s ∈ map fst bs) ->
  (forall s id, s ∈ slugs -> (s, id) ∈ bs -> id ∉ acc) ->
  is_ok (reorder_ids bs slugs acc) = true.
Proof.
  intros Hsnd. revert acc. induction slugs as [|s slugs IH]; intros acc Hnd Hin Hacc; simpl; [done|].
  apply NoDup_cons in Hnd as [Hn Hnd]. destruct (find_first _ bs) as [[s' id]|] eqn:Ef.
  - apply find_first_Some in Ef as [Hbs E]. simpl in E. bsimpl. subst s'. simpl.
    unfold contains. rewrite bool_decide_false by (apply (Hacc s id); set_solver).
    apply IH; [done|set_solver|]. intros s2 id2 Hs2 Hb2 Hid2. apply elem_of_app in Hid2 as [?|Hid2].
    + by eapply (Hacc s2 id2); [set_solver|..].
    + apply list_elem_of_singleton in Hid2 as ->. apply Hn.
      replace s with s2; [done|]. apply list_elem_of_lookup in Hbs as [i1 Hi1], Hb2 as [i2 Hi2].
      assert (i1 = i2) as -> by (eapply (NoDup_lookup _ _ _ id Hsnd); rewrite list_lookup_fmap; [by rewrite Hi1|by rewrite Hi2]).
      congruence.
  - exfalso. apply find_first_None in Ef. assert (s ∈ map fst bs) as Hs by (apply Hin; set_solver).
    apply list_elem_of_fmap in Hs as ([s0 id] & -> & Hb).
    pose proof (proj1 (Forall_forall _ _) Ef _ Hb) as Hf. simpl in Hf. by rewrite String.eqb_refl in Hf.
Qed.
End Laws.

(** ** The table's operations, each on the row its caller reads first *)

Inductive op :=
  | OCreate (id : string) (now : Z) (orgID sl : string)
  | ORename (orgID sl new : string)
  | OSetLocked (orgID sl : string) (locked : bool)
  | OReorder (orgID : string) (slugs : list string)
  | ODelete (orgID sl : string).

Section Ops.
Context {St : Type} `{!SlugTable St Tier, !SlugTableLaws St Tier}.
Implicit Types (st : St) (t : Tier).

(** The tier part of the service's calls ([service/tiers.go]). *)
Definition do (o : op) st : res St :=
  match o with
  | OCreate id now org sl => p <-? Create id now org sl st ;; Ok p.2
  | ORename org sl new => t <-? by_slug st org sl ;; p <-? Rename t new st ;; Ok p.2
  | OSetLocked org sl l => t <-? by_slug st org sl ;; p <-? SetLocked t l st ;; Ok p.2
  | OReorder org slugs => Reorder org slugs st
  | ODelete org sl => t <-? by_slug st org sl ;; Delete (ID t) st
  end.

Lemma by_slug_row st org sl t : table_ok (tab st) -> by_slug st org sl = Ok t ->
  tab st !! ID t = Some t /\ OrgID t = org /\ Slug t = sl.
Proof.
  intros [Hk _] Hb. pose proof (by_slug_law st org sl) as Hl. rewrite Hb in Hl.
  destruct Hl as (id & Hr & Hp & Hs). apply Hk in Hr as E. simpl in *. subst id. done.
Qed.

Lemma Create_ok id now org sl st p : tiers_ok (tab st) -> Create id now org sl st = Ok p ->
  tiers_ok (tab p.2).
Proof.
  intros Hok Hc. unfold Create in Hc. pose proof Hok as (Htab & _ & _).
  destruct (check _ _ _) as [t1|] eqn:Ek; [|done]. apply check_ok in Ek as (-> & Hv & Hr & _).
  set (t := match last _ with Some _ => _ | None => _ end) in Hc.
  assert (ID t = id /\ OrgID t = org /\ Slug t = sl) as (Ei & Eo & Es) by (subst t; by destruct (last (ListByOrg st org))).
  destruct (create t st) as [st'|] eqn:E; [|done]. apply Ok_inj in Hc as <-. simpl.
  pose proof (create_law st t) as Hl. rewrite E in Hl. destruct Hl as (_ & Hn & ->).
  apply put_ok; [done|done|by rewrite Es|by rewrite Es|].
  intros k b Hb Ho Hp. exfalso. destruct Htab as [Hk _]. pose proof (Hk _ _ Hb) as Ek. simpl in Ek. subst k.
  assert (b ∈ ListByOrg st org) as Hin by (apply elem_of_ListByOrg; [by destruct Hok|split; [exact Hb|by rewrite Ho, Eo]]).
  unfold t in Hp. destruct (last (ListByOrg st org)) as [top|] eqn:El.
  - pose proof (climbs_last _ _ _ _ (ListByOrg_climbs _ _ Hok) El Hin). simpl in Hp. lia.
  - apply last_None in El. rewrite El in Hin. set_solver.
Qed.

Lemma Rename_ok t new st p : tiers_ok (tab st) -> tab st !! ID t = Some t ->
  Rename t new st = Ok p -> tiers_ok (tab p.2).
Proof.
  intros Hok Ht Hr. unfold Rename in Hr. destruct (check _ _ _) as [t1|] eqn:Ek; [|done].
  apply check_ok in Ek as (-> & Hv & Hres & _). destruct (update _ _) as [st'|] eqn:E; [|done].
  apply Ok_inj in Hr as <-. pose proof (update_law st (with_slug t new)) as Hl. rewrite E in Hl.
  destruct Hl as (o & Ho & Hn & Hst). simpl in *. rewrite Hst.
  apply (put_ok (tab st) (with_slug t new)); simpl; [done..|].
  intros k b Hb Hob Hp. destruct Hok as (_ & _ & Hpos). exact (Hpos _ _ _ _ Hb Ht Hob Hp).
Qed.

Lemma SetLocked_ok t l st p : tiers_ok (tab st) -> tab st !! ID t = Some t ->
  SetLocked t l st = Ok p -> tiers_ok (tab p.2).
Proof.
  intros Hok Ht Hs. unfold SetLocked in Hs. destruct (update _ _) as [st'|] eqn:E; [|done].
  apply Ok_inj in Hs as <-. pose proof (update_law st (with_locked t l)) as Hl. rewrite E in Hl.
  destruct Hl as (o & Ho & Hn & Hst). simpl in *. rewrite Hst. pose proof Hok as (_ & Hsl & Hpos).
  destruct (Hsl _ _ Ht). apply (put_ok (tab st) (with_locked t l)); simpl; [done..|].
  intros k b Hb Hob Hp. exact (Hpos _ _ _ _ Hb Ht Hob Hp).
Qed.

Lemma Delete_ok id st st' : tiers_ok (tab st) -> Delete id st = Ok st' -> tiers_ok (tab st').
Proof.
  intros (Hok & Hsl & Hpos) Hd. pose proof (delete_ok _ _ _ Hok Hd) as Hok'. pose proof (delete_law st id) as Hl.
  unfold Delete in Hd. rewrite Hd in Hl. destruct Hl as [_ E]. split; [done|]. rewrite E. split.
  - intros i t [_ Hi]%lookup_delete_Some. by eapply Hsl.
  - intros i k a b [_ Ha]%lookup_delete_Some [_ Hb]%lookup_delete_Some. by eapply Hpos.
Qed.
End Ops.

(** ** Reordering *)

Abbreviation ladder_of := (renumber with_position).

Lemma tier_leb_climbs a b : Position a < Position b -> tier_leb a b = true /\ tier_leb b a = false.
Proof.
  intros Hlt. unfold tier_leb. destruct (Z.ltb_spec (Position a) (Position b)); [|lia].
  destruct (Z.ltb_spec (Position b) (Position a)); [lia|].
  destruct (Z.eqb_spec (Position b) (Position a)); [lia|]. done.
Qed.

Lemma reorder_ids_err bs slugs acc e : reorder_ids bs slugs acc = Err e -> e = reorder_error.
Proof.
  revert acc. induction slugs as [|s slugs IH]; intros acc; simpl; [done|].
  destruct (find_first _ bs) as [[s' id]|]; simpl; [|congruence]. case_match; [congruence|apply IH].
Qed.

Lemma named_rows all slugs ids :
  Forall2 (fun s id => (s, id) ∈ map (fun t => (Slug t, ID t)) all) slugs ids ->
  exists ts, map Slug ts = slugs /\ map ID ts = ids /\ forall t, t ∈ ts -> t ∈ all.
Proof.
  induction 1 as [|s id slugs ids (t & E & Ht)%list_elem_of_fmap _ (ts & <- & <- & Hin)]; [exists []; set_solver|].
  injection E as -> ->. exists (t :: ts). split_and!; [done|done|]. intros t' [->|?]%elem_of_cons; auto.
Qed.

Section Reorder.
Context {St : Type} `{!SlugTable St Tier, !SlugTableLaws St Tier}.
Implicit Types (st : St) (t : Tier).

Lemma ListByOrg_slugs st org : table_ok (tab st) -> NoDup (map Slug (ListByOrg st org)).
Proof.
  intros Hok. apply NoDup_fmap_2_strong; [|by eapply NoDup_fmap_1, ListByOrg_ids].
  intros a b Ha Hb. unfold ListByOrg in *. rewrite elem_of_sort in Ha, Hb.
  exact (list_by_slug_inj st org a b Hok Ha Hb).
Qed.

(** The written rungs are the new list. *)
Lemma reorder_rows_list st org ts : tiers_ok (tab st) -> ts ≡ₚ ListByOrg st org ->
  exists st', reorder_rows 0 (map ID ts) st = Ok st' /\ ListByOrg st' org = ladder_of ts /\
    (forall id t, tab st !! id = Some t -> OrgID t <> org -> tab st' !! id = Some t) /\
    (forall id t', tab st' !! id = Some t' -> exists t, tab st !! id = Some t /\
       t' = with_position t (Position t') /\ (OrgID t <> org -> t' = t)) /\ table_ok (tab st').
Proof.
  intros (Hok & _ & _) Hp. pose proof Hok as [Hk _].
  assert (Hrow : forall t, t ∈ ts -> tab st !! ID t = Some t /\ OrgID t = org)
    by (intros t; rewrite Hp; apply elem_of_ListByOrg, Hok).
  assert (Hnd : NoDup (map ID ts)) by (rewrite Hp; by apply ListByOrg_ids).
  destruct (reorder_rows_spec (map ID ts) 0 st Hnd Hok) as (st' & Hr & Hok' & Hin & Hout).
  { intros id (t & -> & Ht)%list_elem_of_fmap. exists t. by apply Hrow. }
  assert (Hold : forall id, id ∈ map ID ts -> exists t, t ∈ ts /\ tab st !! id = Some t /\ OrgID t = org).
  { intros id (t & -> & Ht)%list_elem_of_fmap. exists t. by split; [|apply Hrow]. }
  exists st'. split_and!; [done| | | |done].
  - unfold ListByOrg.
    apply (sort_climbs Position _ _ _ tier_leb_total tier_leb_trans tier_leb_climbs); [|by apply renumber_climbs].
    apply NoDup_Permutation; [exact (NoDup_fmap_1 _ _ (list_by_ids st' org Hok'))| |].
    + apply (NoDup_fmap_1 ID). by rewrite (renumber_map with_position ID).
    + intros t. rewrite elem_of_renumber. split.
      * intros [Ht Ho]%elem_of_list_by; [|done]. simpl in Ht, Ho.
        destruct (decide (ID t ∈ map ID ts)) as [Hd|Hd].
        -- apply list_elem_of_lookup in Hd as [j Hj]. rewrite (Hin _ _ Hj) in Ht.
           apply list_lookup_fmap_Some in Hj as (u & Eu & Hu). exists j, u. split; [done|].
           destruct (Hrow u) as [Hu' _]; [by eapply list_elem_of_lookup_2|].
           rewrite Eu, Hu' in Ht. by injection Ht.
        -- exfalso. apply Hd, list_elem_of_fmap. exists t. split; [done|]. rewrite Hp.
           apply elem_of_ListByOrg; [done|]. by rewrite <- Hout.
      * intros (j & u & Hj & ->). apply elem_of_list_by; [done|]. simpl.
        destruct (Hrow u) as [Hu Ho]; [by eapply list_elem_of_lookup_2|]. split; [|done].
        rewrite (Hin j), Hu; [done|]. rewrite list_lookup_fmap, Hj. done.
  - intros id t Ht Ho. rewrite Hout; [done|]. intros (u & _ & Hu & ?)%Hold. congruence.
  - intros id t' Ht'. destruct (decide (id ∈ map ID ts)) as [Hd|Hd].
    + destruct (Hold _ Hd) as (t & _ & Ht & Ho). apply list_elem_of_lookup in Hd as [j Hj].
      rewrite (Hin _ _ Hj), Ht in Ht'. injection Ht' as <-. exists t. by split_and!.
    + rewrite (Hout _ Hd) in Ht'. exists t'. split_and!; [done|by destruct t'|done].
Qed.
End Reorder.

Section Claims.
Context {St : Type} `{!SlugTable St Tier, !SlugTableLaws St Tier}.
Implicit Types (st : St).

(** A permutation of the org's slugs reorders; anything else is refused. *)
Lemma tier_Reorder_cases st org slugs : tiers_ok (tab st) ->
  (slugs ≡ₚ map Slug (ListByOrg st org) /\
   exists ts, map Slug ts = slugs /\ ts ≡ₚ ListByOrg st org /\ Reorder org slugs st = reorder_rows 0 (map ID ts) st) \/
  (~ slugs ≡ₚ map Slug (ListByOrg st org) /\ Reorder org slugs st = Err reorder_error).
Proof.
  intros Hok. pose proof Hok as (Htab & _ & _). pose proof (ListByOrg_ids st org Htab) as Hids.
  pose proof (ListByOrg_slugs st org Htab) as Hsl. unfold Reorder. set (all := ListByOrg st org) in *.
  destruct (reorder_ids _ slugs []) as [ids|e] eqn:E.
  - apply reorder_ids_sound in E as (ids2 & -> & Hnd & HF); [|constructor]. simpl in *.
    apply named_rows in HF as (ts & <- & <- & Hin).
    destruct (Nat.eqb_spec (length (map ID ts)) (length all)) as [El|El]; simpl; rewrite length_map in El.
    + left. assert (ts ≡ₚ all) as Hp.
      { apply submseteq_length_Permutation; [|lia]. apply NoDup_submseteq; [by eapply NoDup_fmap_1|set_solver]. }
      split; [by rewrite Hp|]. by exists ts.
    + right. split; [|done]. intros Hp. apply Permutation_length in Hp. by rewrite !length_map in Hp.
  - pose proof (reorder_ids_err _ _ _ _ E) as ->. right. split; [|done]. intros Hp.
    assert (is_ok (reorder_ids (map (fun t => (Slug t, ID t)) all) slugs []) = true) as Hc; [|by rewrite E in Hc].
    apply reorder_ids_complete; [by rewrite map_map|by rewrite Hp| |set_solver].
    intros s. rewrite Hp, map_map. done.
Qed.

(** Reordering an org's ladder works exactly on a permutation of the
    org's slugs: the ladder then reads in that order, no other column of any
    row and no other org's row changes, and the rungs are again distinct;
    any other list is refused with the order error. *)
Theorem Tier_Reorder_spec st org slugs : tiers_ok (tab st) ->
  if bool_decide (slugs ≡ₚ map Slug (ListByOrg st org)) then
    exists st', Reorder org slugs st = Ok st' /\ map Slug (ListByOrg st' org) = slugs /\
      (forall id t, tab st !! id = Some t -> OrgID t <> org -> tab st' !! id = Some t) /\
      (forall id t', tab st' !! id = Some t' -> exists t, tab st !! id = Some t /\ t' = with_position t (Position t'))
  else Reorder org slugs st = Err reorder_error.
Proof.
  intros Hok. destruct (tier_Reorder_cases st org slugs Hok) as [(Hp & ts & <- & Hts & Hr)|(Hn & Hr)].
  - rewrite bool_decide_true by done. rewrite Hr.
    destruct (reorder_rows_list st org ts Hok Hts) as (st' & Hst' & Hl & Ho & Hc & _). exists st'.
    rewrite Hl. split_and!; [done|by apply renumber_map|done|].
    intros id t' Ht'. destruct (Hc _ _ Ht') as (t & ? & ? & _). eauto.
  - by rewrite bool_decide_false.
Qed.

Lemma Reorder_ok st st' org slugs : tiers_ok (tab st) -> Reorder org slugs st = Ok st' -> tiers_ok (tab st').
Proof.
  intros Hok Hr. destruct (tier_Reorder_cases st org slugs Hok) as [(Hp & ts & <- & Hts & Hr')|(Hn & Hr')]; [|congruence].
  destruct (reorder_rows_list st org ts Hok Hts) as (st2 & Hst' & Hl & Ho & Hc & Htab').
  assert (st2 = st') as -> by congruence. pose proof Hok as (Htab & Hsl & Hpos). split; [done|]. split.
  - intros id t' Ht'. destruct (Hc _ _ Ht') as (t & Ht & Et & _). rewrite Et. exact (Hsl _ _ Ht).
  - intros i k a b Ha Hb Eo Ep. destruct (decide (OrgID a = org)) as [Ea|Ea].
    + pose proof Htab' as [Hk _]. pose proof (Hk _ _ Ha) as Ei. pose proof (Hk _ _ Hb) as Ek. simpl in Ei, Ek. subst i k.
      assert (forall c, tab st' !! ID c = Some c -> OrgID c = org -> c ∈ ladder_of ts) as Hin.
      { intros c Hc1 Hc2. rewrite <- Hl. apply elem_of_ListByOrg; done. }
      pose proof (Hin a Ha Ea) as Hla. pose proof (Hin b Hb (eq_trans (eq_sym Eo) Ea)) as Hlb.
      apply elem_of_renumber in Hla as (j1 & u1 & H1 & ->), Hlb as (j2 & u2 & H2 & ->). simpl in *.
      assert (j1 = j2) as -> by lia. congruence.
    + destruct (Hc _ _ Ha) as (t & Ht & Et & Kt), (Hc _ _ Hb) as (u & Hu & Eu & Ku).
      rewrite Kt in Ep by (by rewrite Et in Ea). rewrite Ku in Ep by (rewrite Eu, Et in Eo; rewrite Et in Ea; simpl in *; congruence).
      rewrite Et, Eu in Eo. by eapply Hpos.
Qed.

(** Every call on an org's tiers keeps the table's invariant: rows under
    their ids, slugs unique in the org, valid and not reserved ("pr", "order",
    the generic ones), and no two tiers of an org on one rung; so the ladder
    the org's envs are read from strictly climbs. *)
Theorem Tier_ops_keep_ladder o st st' org : tiers_ok (tab st) -> do o st = Ok st' ->
  tiers_ok (tab st') /\ climbs Position (ListByOrg st' org).
Proof.
  intros Hok Hd. assert (tiers_ok (tab st')) as Hok'; [|split; [done|by apply ListByOrg_climbs]].
  pose proof Hok as (Htab & _ & _). destruct o; simpl in Hd.
  - destruct (Create _ _ _ _ _) as [p|] eqn:E; [|done]. apply Ok_inj in Hd as <-. by eapply Create_ok.
  - destruct (by_slug _ _ _) as [t|] eqn:Eb; [|done]. apply by_slug_row in Eb as [Ht _]; [|done].
    destruct (Rename _ _ _) as [p|] eqn:E; [|done]. apply Ok_inj in Hd as <-. by eapply Rename_ok.
  - destruct (by_slug _ _ _) as [t|] eqn:Eb; [|done]. apply by_slug_row in Eb as [Ht _]; [|done].
    destruct (SetLocked _ _ _) as [p|] eqn:E; [|done]. apply Ok_inj in Hd as <-. by eapply SetLocked_ok.
  - by eapply Reorder_ok.
  - destruct (by_slug _ _ _) as [t|]; [|done]. by eapply Delete_ok.
Qed.
End Claims.

(** ** An org with three tiers *)

Definition tiers_okb (m : gmap string Tier) : bool :=
  table_okb m && forallb (fun kv => Valid (Slug kv.2) && negb (Reserved (Slug kv.2)) &&
    forallb (fun kw => String.eqb kv.1 kw.1 || negb (String.eqb (OrgID kv.2) (OrgID kw.2))
                       || negb (Position kv.2 =? Position kw.2)) (map_to_list m)) (map_to_list m).

Lemma tiers_okb_ok m : tiers_okb m = true -> tiers_ok m.
Proof.
  unfold tiers_okb. intros H. apply andb_true_iff in H as [H1 H2]. split; [by apply table_okb_ok|].
  assert (Hall : forall i a, m !! i = Some a -> (Valid (Slug a) = true /\ Reserved (Slug a) = false) /\
    forall k b, m !! k = Some b -> i = k \/ OrgID a <> OrgID b \/ Position a <> Position b).
  { intros i a Ha. pose proof (forallb_lookup m _ H2 i a Ha) as Hf. simpl in Hf. bsimpl. split; [done|].
    intros k b Hb. pose proof (forallb_lookup m _ ltac:(eassumption) k b Hb) as Hg. simpl in Hg.
    apply orb_true_iff in Hg as [Hg|Hg]; [apply orb_true_iff in Hg as [Hg|Hg]|]; bsimpl; auto. }
  split; [intros id t Ht; exact (proj1 (Hall id t Ht))|]. intros i k a b Ha Hb Ho Hp.
  destruct (Hall i a Ha) as [_ Hd]. destruct (Hd k b Hb) as [?|[?|?]]; done.
Qed.

Definition three : gmap string Tier :=
  list_to_map (map (fun t => (ID t, t))
    [MkTier "1" "o" "dev" 0 true 0; MkTier "2" "o" "staging" 1 true 0; MkTier "3" "o" "prod" 4 false 0]).

Lemma Tier_Reorder_spec_witness :
  map Slug (ListByOrg three "o") = ["dev"; "staging"; "prod"] /\
  exists st', Reorder "o" ["prod"; "dev"; "staging"] three = Ok st' /\
    map Slug (ListByOrg st' "o") = ["prod"; "dev"; "staging"].
Proof.
  split; [vm_compute; reflexivity|].
  pose proof (Tier_Reorder_spec three "o" ["prod"; "dev"; "staging"] (tiers_okb_ok three ltac:(vm_compute; reflexivity))) as H.
  rewrite bool_decide_true in H; [|apply (bool_decide_unpack _); vm_compute; reflexivity].
  destruct H as (st' & H1 & H2 & _). exists st'. split; assumption.
Defined.

Lemma Tier_ops_keep_ladder_witness :
  exists st', do (OCreate "4" 9 "o" "qa") three = Ok st' /\ tiers_ok (tab st') /\
    climbs Position (ListByOrg st' "o").
Proof.
  eexists. split; [vm_compute; reflexivity|].
  apply (Tier_ops_keep_ladder (OCreate "4" 9 "o" "qa") three _ "o").
  - apply tiers_okb_ok. vm_compute. reflexivity.
  - vm_compute. reflexivity.
Defined.
