(* ===== verification/Environment.v ===== *)
(** * Environments ([leaf/environment/environment.go], [store/stacks.go])

    A stack's ladder of environments and the PR environments beside it, over
    any [SlugTable] of [Environment] rows.  The Docker network of an env, the
    settings blob ([SetSettings], [CloneRow]) and password rewriting are not
    modelled; how a create reads its pins and how a delete drops a network are
    the leaf's own callbacks and stay arguments. *)
From S2P Require Import Prelude GoStrings Errs Slug Store.

Record Environment := MkEnv {
  ID : string; StackID : string; Name : string; Slug : string; Type' : string;
  BaseEnvID : option string; Settings : string; Color : string; Position : Z; Network : string;
  ReleaseID : option string; FromKind : string; FromBranch : string; Auto : bool; CreatedAt : Z;
  Locked : bool; NodeID : string; Subnet : string; PlacementID : string }.

Definition Static : string := "static".
Definition Ephemeral : string := "ephemeral".
Definition FromBranch' : string := "branch".
Definition FromPromote : string := "promote".

Definition with_name (e : Environment) (n s : string) : Environment :=
  MkEnv (ID e) (StackID e) n s (Type' e) (BaseEnvID e) (Settings e) (Color e) (Position e) (Network e)
    (ReleaseID e) (FromKind e) (FromBranch e) (Auto e) (CreatedAt e) (Locked e) (NodeID e) (Subnet e) (PlacementID e).
Definition with_from (e : Environment) (k b : string) (a : bool) : Environment :=
  MkEnv (ID e) (StackID e) (Name e) (Slug e) (Type' e) (BaseEnvID e) (Settings e) (Color e) (Position e) (Network e)
    (ReleaseID e) k b a (CreatedAt e) (Locked e) (NodeID e) (Subnet e) (PlacementID e).
Definition with_position (e : Environment) (p : Z) : Environment :=
  MkEnv (ID e) (StackID e) (Name e) (Slug e) (Type' e) (BaseEnvID e) (Settings e) (Color e) p (Network e)
    (ReleaseID e) (FromKind e) (FromBranch e) (Auto e) (CreatedAt e) (Locked e) (NodeID e) (Subnet e) (PlacementID e).
Definition with_release (e : Environment) (r : option string) : Environment :=
  MkEnv (ID e) (StackID e) (Name e) (Slug e) (Type' e) (BaseEnvID e) (Settings e) (Color e) (Position e) (Network e)
    r (FromKind e) (FromBranch e) (Auto e) (CreatedAt e) (Locked e) (NodeID e) (Subnet e) (PlacementID e).
Definition with_color (e : Environment) (c : string) : Environment :=
  MkEnv (ID e) (StackID e) (Name e) (Slug e) (Type' e) (BaseEnvID e) (Settings e) c (Position e) (Network e)
    (ReleaseID e) (FromKind e) (FromBranch e) (Auto e) (CreatedAt e) (Locked e) (NodeID e) (Subnet e) (PlacementID e).
Definition with_locked (e : Environment) (l : bool) : Environment :=
  MkEnv (ID e) (StackID e) (Name e) (Slug e) (Type' e) (BaseEnvID e) (Settings e) (Color e) (Position e) (Network e)
    (ReleaseID e) (FromKind e) (FromBranch e) (Auto e) (CreatedAt e) l (NodeID e) (Subnet e) (PlacementID e).

(** [envUpdate]: every column but [node_id], [subnet] and [placement_id]. *)
Definition keep_net (o n : Environment) : Environment :=
  MkEnv (ID n) (StackID n) (Name n) (Slug n) (Type' n) (BaseEnvID n) (Settings n) (Color n) (Position n) (Network n)
    (ReleaseID n) (FromKind n) (FromBranch n) (Auto n) (CreatedAt n) (Locked n) (NodeID o) (Subnet o) (PlacementID o).

#[export] Instance env_row : SlugRow Environment :=
  {| rid := ID; rparent := StackID; rslug := Slug; keep := keep_net;
     keep_id _ _ := eq_refl; keep_parent _ _ := eq_refl; keep_slug _ _ := eq_refl |}.

Definition deref (s : option string) : string := default "" s.

Record Pins := MkPins {
  StackPin : option string; OrgPin : option string; Default : string;
  NodeOf : option (string -> res string) }.

Definition Place (env : string) (p : Pins) : string :=
  default (Default p) (find_first (fun id => negb (String.eqb id "")) [env; deref (StackPin p); deref (OrgPin p)]).

Definition Above (a b : Environment) : bool := Position b <? Position a.

Definition is_static (e : Environment) : bool := String.eqb (Type' e) Static.
(** [es[i].Position < es[j].Position] as a stable sort's "no later than". *)
Definition pos_leb (a b : Environment) : bool := Position a <=? Position b.

(** The order of [List]: the ladder, then the PR envs. *)
Definition list_leb (a b : Environment) : bool :=
  negb (if negb (String.eqb (Type' b) (Type' a)) then is_static b else Position b <? Position a).

Definition Reclaim (envType : string) : string := if String.eqb envType Ephemeral then "drop" else "detach".

(** ** Hues *)

Definition Palette : list string := ["teal"; "sky"; "lime"; "amber"; "rose"; "violet"].
Definition bySlug (s : string) : option string :=
  snd <$> find_first (fun kv => String.eqb kv.1 s)
    [("production", "rose"); ("prod", "rose"); ("staging", "amber"); ("stg", "amber");
     ("dev", "violet"); ("development", "violet")].

Definition is_pr (e : Environment) : bool := String.eqb (Type' e) Ephemeral.
Definition known_hue (e : Environment) : option string := if is_pr e then None else bySlug (Slug e).

Definition hue (next : nat) : string := nth (next mod length Palette) Palette "".

(** The state of the loops: [out], [used] and [next]. *)
Record Hued := MkHued { out : gmap string string; used : list string; next : nat }.

Definition claim_hue (h : Hued) (e : Environment) : Hued :=
  match known_hue e with
  | Some c => MkHued (<[ID e := c]> (out h)) (c :: used h) (next h)
  | None => h
  end.

(** [for tries := 0; tries < len(Palette) && used[h]; tries++ { next++; ... }]. *)
Fixpoint free_hue (tries : nat) (used : list string) (next : nat) : nat :=
  match tries with
  | O => next
  | S tries => if contains used (hue next) then free_hue tries used (S next) else next
  end.

Definition take_hue (pass1 : bool) (h : Hued) (e : Environment) : Hued :=
  if negb (Bool.eqb (is_pr e) pass1) || negb (String.eqb (default "" (out h !! ID e)) "") then h
  else
    let n := free_hue (length Palette) (used h) (next h) in
    MkHued (<[ID e := hue n]> (out h)) (hue n :: used h) (S n).

Definition own_color (m : gmap string string) (e : Environment) : gmap string string :=
  if String.eqb (Color e) "" then m else <[ID e := Color e]> m.

Definition hue_passes (envs : list Environment) : Hued :=
  let h := fold_left claim_hue envs (MkHued ∅ [] 0) in
  fold_left (take_hue true) envs (fold_left (take_hue false) envs h).

Definition Hues (envs : list Environment) : gmap string string :=
  fold_left own_color envs (out (hue_passes envs)).

(** ** The table's operations *)

Record Spec := MkSpec {
  spPlacement : string; spNode : string; spType : string; spBase : option string; spColor : string;
  spFromKind : string; spFromBranch : string; spDefaultBranch : string; spAuto : bool }.

Definition checkFrom (e : Environment) (kind branch : string) (bottom : bool) : option error :=
  if String.eqb kind FromBranch' && String.eqb (trim_space branch) "" then
    Some (Invalidf "branch" "Name the branch this environment builds from." [])
  else if String.eqb kind FromPromote && bottom then
    Some (Invalidf "from" "The bottom environment has nothing below it to promote from; give it a branch." [])
  else if String.eqb kind FromPromote && is_pr e then
    Some (Invalidf "from" "A PR environment builds from its branch." [])
  else if negb (String.eqb kind FromBranch') && negb (String.eqb kind FromPromote) then
    Some (Invalidf "from" "Unknown source %q." [AStr kind])
  else None.

Definition order_error : error := Invalidf "order" "List every environment of the stack once." [].
Definition first_error (e : Environment) : error :=
  Invalidf "order" "%s promotes from the env before it in the list, so it cannot be first." [AStr (Name e)].

(** The kind a create settles on, and the branch that goes with it. *)
Definition default_kind (sp : Spec) (bottom : bool) : string :=
  if String.eqb (spFromKind sp) "" then
    if bottom || String.eqb (spType sp) Ephemeral then FromBranch' else FromPromote
  else spFromKind sp.
Definition default_branch (sp : Spec) (kind : string) : string :=
  if String.eqb kind FromPromote then ""
  else if String.eqb kind FromBranch' && String.eqb (trim_space (spFromBranch sp)) "" then spDefaultBranch sp
  else spFromBranch sp.

Section Leaf.
Context {St : Type} `{!SlugTable St Environment}.

Definition Ladder (st : St) (stackID : string) : list Environment :=
  sort pos_leb (List.filter is_static (list_by st stackID)).

Definition IsDefault (st : St) (e : Environment) : bool :=
  match last (Ladder st (StackID e)) with Some top => String.eqb (ID top) (ID e) | None => false end.

Definition List' (st : St) (stackID : string) : list Environment := sort list_leb (list_by st stackID).

(** The scan from the top. *)
Definition Below (st : St) (e : Environment) : res Environment :=
  if negb (is_static e) then Err ErrNotFound
  else match find_first (fun b => Position b <? Position e) (rev (Ladder st (StackID e))) with
  | Some b => Ok b
  | None => Err ErrNotFound
  end.

Definition name (st : St) (e : Environment) (nm : string) : res Environment :=
  let nm := trim_space nm in
  let sl := Make nm in
  if String.eqb nm "" then Err (Invalidf "name" "Give the environment a name." [])
  else if String.eqb sl "" then
    Err (Invalidf "name" "That name needs at least one letter or digit, since it becomes the URL." [])
  else if String.eqb sl "pr" || Reserved sl then Err (Invalidf "name" "%q is reserved." [AStr sl])
  else match by_slug st (StackID e) sl with
  | Ok other =>
      if negb (String.eqb (ID other) (ID e)) then
        Err (Invalidf "name" "Another environment in this stack already uses that name." [])
      else Ok (with_name e nm sl)
  | Err err => if is_not_found err then Ok (with_name e nm sl) else Err err
  end.

(** Where a new env goes: its placement and its node. *)
Definition placed (pins : option (string -> res Pins)) (stackID : string) (sp : Spec) : res (string * string) :=
  match pins with
  | None => Ok (spPlacement sp, spNode sp)
  | Some pins =>
      p <-? pins stackID ;;
      let placement := if String.eqb (spPlacement sp) "" && String.eqb (spNode sp) "" then Place "" p
                       else spPlacement sp in
      match NodeOf p with
      | Some nodeOf =>
          if String.eqb (spNode sp) "" && negb (String.eqb placement "") then
            node <-? nodeOf placement ;; Ok (placement, node)
          else Ok (placement, spNode sp)
      | None => Ok (placement, spNode sp)
      end
  end.

Definition Create (pins : option (string -> res Pins)) (id : string) (now : Z) (stackID nm : string)
    (sp : Spec) (st : St) : res (Environment * St) :=
  let ladder := Ladder st stackID in
  let pos := match last ladder with Some top => Position top + 1 | None => 0 end in
  let bottom := bool_decide (ladder = []) in
  if negb (String.eqb (spType sp) Static) && negb (String.eqb (spType sp) Ephemeral) then
    Err (Invalidf "type" "Unknown environment type %q." [AStr (spType sp)])
  else
    at_node <-? placed pins stackID sp ;;
    let e := MkEnv id stackID "" "" (spType sp) (spBase sp) "{}" (spColor sp) pos ("stackr-env-" +:+ id)
               None "" "" false now true at_node.2 "" at_node.1 in
    e <-? name st e nm ;;
    let kind := default_kind sp bottom in
    let branch := default_branch sp kind in
    match checkFrom e kind branch bottom with
    | Some err => Err err
    | None => let e := with_from e kind branch (spAuto sp) in st' <-? create e st ;; Ok (e, st')
    end.

Definition Rename (e : Environment) (nm : string) (st : St) : res (Environment * St) :=
  e <-? name st e nm ;; st' <-? update e st ;; Ok (e, st').

Definition SetFrom (e : Environment) (kind branch : string) (auto : bool) (st : St) : res (Environment * St) :=
  let branch := if String.eqb kind FromPromote then "" else branch in
  let below := Below st e in
  match below with
  | Err err => if is_not_found err then Ok tt else Err err
  | Ok _ => Ok tt
  end ;;?
  match checkFrom e kind branch (negb (is_ok below)) with
  | Some err => Err err
  | None => let e := with_from e kind branch auto in st' <-? update e st ;; Ok (e, st')
  end.

(** The loop that renumbers; [byID] loses every env it names. *)
Fixpoint reorder_loop (i : Z) (ids : list string) (byID : gmap string Environment) : res (list Environment) :=
  match ids with
  | [] => Ok []
  | id :: ids =>
      match byID !! id with
      | None => Err order_error
      | Some e =>
          if (i =? 0) && String.eqb (FromKind e) FromPromote then Err (first_error e)
          else rest <-? reorder_loop (i + 1) ids (delete id byID) ;; Ok (with_position e i :: rest)
      end
  end.

Fixpoint update_all (es : list Environment) (st : St) : res St :=
  match es with
  | [] => Ok st
  | e :: es => st' <-? update e st ;; update_all es st'
  end.

Definition Reorder (stackID : string) (ids : list string) (st : St) : res St :=
  let es := Ladder st stackID in
  let byID := list_to_map (map (fun e => (ID e, e)) es) in
  if negb (Nat.eqb (length ids) (length es)) then Err order_error
  else es <-? reorder_loop 0 ids byID ;; update_all es st.

Definition put (e : Environment) (st : St) : res (Environment * St) := st' <-? update e st ;; Ok (e, st').
Definition SetRelease (e : Environment) (releaseID : string) := put (with_release e (Some releaseID)).
Definition SetColor (e : Environment) (color : string) := put (with_color e color).
Definition SetLocked (e : Environment) (locked : bool) := put (with_locked e locked).

(** [remove node network]: the Docker call, [Some] its error. *)
Definition Delete (remove : string -> string -> option error) (e : Environment) (tileCount : Z) (st : St) : res St :=
  if 0 <? tileCount then Err (Conflictf "Remove this environment's tiles first." [])
  else if String.eqb (NodeID e) "" && negb (String.eqb (PlacementID e) "") then delete_row (ID e) st
  else match remove (NodeID e) (Network e) with
  | Some err => Err err
  | None => delete_row (ID e) st
  end.
End Leaf.

(** ** Laws *)

(** A row as the operations write it: a known type, a legal slug, and a source
    that fits the type. *)
Definition env_wf (e : Environment) : Prop :=
  (Type' e = Static \/ Type' e = Ephemeral) /\
  (Valid (Slug e) = true /\ Slug e <> "pr" /\ Reserved (Slug e) = false) /\
  ((FromKind e = FromBranch' /\ trim_space (FromBranch e) <> "") \/
   (FromKind e = FromPromote /\ FromBranch e = "" /\ Type' e = Static)).

Definition rung (m : gmap string Environment) (s : string) (e : Environment) : Prop :=
  m !! ID e = Some e /\ StackID e = s /\ is_static e = true.

(** The table: good rows, and no two static envs of a stack on one rung. *)
Definition envs_ok (m : gmap string Environment) : Prop :=
  table_ok m /\ (forall id e, m !! id = Some e -> env_wf e) /\
  (forall s a b, rung m s a -> rung m s b -> Position a = Position b -> a = b).

(** Every env that promotes has a rung to promote from. *)
Definition founded (m : gmap string Environment) : Prop :=
  forall s e, rung m s e -> FromKind e = FromPromote -> exists b, rung m s b /\ Position b < Position e.

Lemma pos_leb_total a b : pos_leb a b = true \/ pos_leb b a = true.
Proof. unfold pos_leb. rewrite !Z.leb_le. lia. Qed.
Lemma pos_leb_trans a b c : pos_leb a b = true -> pos_leb b c = true -> pos_leb a c = true.
Proof. unfold pos_leb. rewrite !Z.leb_le. lia. Qed.
Lemma pos_leb_climbs a b : Position a < Position b -> pos_leb a b = true /\ pos_leb b a = false.
Proof. unfold pos_leb. rewrite Z.leb_le, Z.leb_gt. lia. Qed.

Lemma Make_made nm : Make nm <> "" -> Valid (Make nm) = true.
Proof.
  intros Hn. destruct (make_loop_made (map lower_rune (runes nm)) ("", false)) as [E|Hv]; [by left| |done].
  by destruct Hn.
Qed.

Section Laws.
Context {St : Type} `{!SlugTable St Environment, !SlugTableLaws St Environment}.
Implicit Types (st : St) (e : Environment) (m : gmap string Environment).

Lemma elem_of_Ladder st s e : table_ok (tab st) -> e ∈ Ladder st s <-> rung (tab st) s e.
Proof.
  intros Hok. unfold Ladder, rung. rewrite elem_of_sort, elem_of_filterb.
  rewrite (elem_of_list_by st s e Hok). simpl. tauto.
Qed.

Lemma Ladder_ids st s : table_ok (tab st) -> NoDup (map ID (Ladder st s)).
Proof.
  intros Hok. unfold Ladder. rewrite (Permutation_map ID (sort_perm _ _)).
  pose proof (list_by_ids st s Hok) as Hn. revert Hn. generalize (list_by st s).
  induction l as [|e l IH]; simpl; [done|]. intros [He Hl]%NoDup_cons. case_match; simpl; [|by apply IH].
  apply NoDup_cons. split; [|by apply IH]. intros (y & E & [Hy _]%elem_of_filterb)%list_elem_of_fmap.
  apply He. simpl. rewrite E. apply list_elem_of_fmap. eauto.
Qed.

Lemma Ladder_climbs st s : envs_ok (tab st) -> climbs Position (Ladder st s).
Proof.
  intros (Hok & _ & Hpos). eapply climbs_intro.
  - apply (sort_sorted pos_leb pos_leb_total pos_leb_trans).
  - intros a b. simpl. unfold pos_leb. by rewrite Z.leb_le.
  - exact (NoDup_fmap_1 ID _ (Ladder_ids st s Hok)).
  - intros a b. rewrite !elem_of_Ladder by done. apply Hpos.
Qed.

Lemma name_ok st e nm e' : name st e nm = Ok e' -> exists n s,
  e' = with_name e n s /\ Valid s = true /\ s <> "pr" /\ Reserved s = false.
Proof.
  unfold name. set (n := trim_space nm). intros H.
  destruct (String.eqb n ""); [done|]. destruct (String.eqb_spec (Make n) ""); [done|].
  destruct (String.eqb_spec (Make n) "pr"); [done|]. simpl in H. destruct (Reserved (Make n)) eqn:Er; [done|].
  exists n, (Make n). split; [|split_and!; [by apply Make_made|done..]].
  destruct (by_slug _ _ _) as [o|err].
  - destruct (String.eqb (ID o) (ID e)); [|done]. simpl in H. congruence.
  - destruct (is_not_found err); [|done]. congruence.
Qed.

Lemma checkFrom_ok e kind branch bottom :
  checkFrom e kind branch bottom = None -> Type' e = Static \/ Type' e = Ephemeral ->
  (kind = FromBranch' /\ trim_space branch <> "") \/ (kind = FromPromote /\ bottom = false /\ Type' e = Static).
Proof.
  unfold checkFrom, is_pr. intros H Ht.
  destruct (String.eqb_spec kind FromBranch') as [->|Hb]; simpl in H.
  - left. split; [done|]. by destruct (String.eqb_spec (trim_space branch) "").
  - right. destruct (String.eqb_spec kind FromPromote) as [->|Hp]; [|done]. simpl in H.
    destruct bottom; [done|]. simpl in H. destruct (String.eqb_spec (Type' e) Ephemeral); [done|].
    split_and!; try done. by destruct Ht.
Qed.

(** A write over a fresh row that leaves its stack, type and rung alone. *)
Definition tame (o e : Environment) : Prop :=
  StackID e = StackID o /\ Type' e = Type' o /\ Position e = Position o.

Lemma update_env st e o st' : envs_ok (tab st) -> tab st !! ID e = Some o -> tame o e -> env_wf e ->
  update e st = Ok st' -> envs_ok (tab st').
Proof.
  intros (Hok & Hwf & Hpos) Ho (Es & Et & Ep) He Hu. pose proof (update_ok st e st' Hok Hu) as Hok'.
  pose proof (update_law st e) as Hl. rewrite Hu in Hl. destruct Hl as (o' & Ho' & _ & Htab).
  simpl in Ho', Htab. assert (o' = o) as -> by congruence.
  assert (ID o = ID e) as Eo by (destruct Hok as [Hk _]; exact (Hk _ _ Ho)).
  split; [done|]. rewrite Htab. split.
  - intros id e'. rewrite lookup_insert_Some. intros [[<- <-]|[_ ?]]; [exact He|by eapply Hwf].
  - assert (Hold : forall s a, rung (<[ID e := keep_net o e]> (tab st)) s a ->
      exists a', rung (tab st) s a' /\ Position a = Position a' /\ ID a = ID a').
    { intros s a (Ha & Hs & Hst). apply lookup_insert_Some in Ha as [[Ea <-]|[Hne Ha]].
      - exists o. unfold rung. rewrite Eo. unfold is_static in *. simpl in *. rewrite <- Et, <- Es. done.
      - exists a. done. }
    intros s a b Ha Hb E. destruct (Hold _ _ Ha) as (a' & Ra & Pa & Ia), (Hold _ _ Hb) as (b' & Rb & Pb & Ib).
    assert (a' = b') as -> by (eapply Hpos; [done|done|congruence]).
    destruct Ha as [Ha _], Hb as [Hb _]. congruence.
Qed.
End Laws.

Section Ops.
Context {St : Type} `{!SlugTable St Environment, !SlugTableLaws St Environment}.
Implicit Types (st : St) (e : Environment) (m : gmap string Environment).

Lemma rung_kept m o e s b : m !! ID e = Some o -> tame o e -> rung m s b ->
  exists b', rung (<[ID e := keep_net o e]> m) s b' /\ Position b' = Position b.
Proof.
  intros Ho (Es & Et & Ep) (Hb & Hs & Hst). unfold rung. destruct (decide (ID b = ID e)) as [E|Hne].
  - assert (b = o) as -> by congruence. exists (keep_net o e). simpl. unfold is_static in *. simpl.
    rewrite lookup_insert_eq, Es, Et. done.
  - exists b. by rewrite lookup_insert_ne.
Qed.

Lemma update_founded st e o st' : tab st !! ID e = Some o -> tame o e ->
  founded (tab st) -> update e st = Ok st' ->
  (is_static e = true -> FromKind e = FromPromote ->
     exists b, rung (tab st) (StackID e) b /\ Position b < Position e) -> founded (tab st').
Proof.
  intros Ho Ht Hf Hu He s e0 Hr Hk. pose proof (update_law st e) as Hl. rewrite Hu in Hl.
  destruct Hl as (o' & Ho' & _ & Htab). simpl in Ho', Htab. assert (o' = o) as -> by congruence.
  rewrite Htab in Hr |- *.
  assert (exists b, rung (tab st) s b /\ Position b < Position e0) as (b & Hb & Hlt).
  { destruct Hr as (H1 & H2 & H3). apply lookup_insert_Some in H1 as [[E1 <-]|[Hne H1]].
    - rewrite <- H2. by apply He.
    - by apply (Hf s e0). }
  destruct (rung_kept _ _ _ _ _ Ho Ht Hb) as (b' & Hb' & Ep). exists b'. split; [done|lia].
Qed.

Lemma Below_rung st e b : table_ok (tab st) -> Below st e = Ok b ->
  is_static e = true /\ rung (tab st) (StackID e) b /\ Position b < Position e.
Proof.
  intros Hok. unfold Below. destruct (is_static e); [|done]. simpl.
  destruct (find_first _ _) as [b'|] eqn:E; [|done]. intros <-%Ok_inj.
  apply find_first_Some in E as [Hin Hlt]. bsimpl. split_and!; [done| |done].
  apply elem_of_Ladder; [done|]. rewrite list_elem_of_In in Hin |- *. by apply in_rev.
Qed.

Lemma Rename_env st e nm p : envs_ok (tab st) -> tab st !! ID e = Some e -> Rename e nm st = Ok p ->
  envs_ok (tab p.2) /\ (founded (tab st) -> founded (tab p.2)).
Proof.
  intros Hok He Hr. unfold Rename in Hr. destruct (name st e nm) as [e1|] eqn:En; [|done].
  apply name_ok in En as (n & s & -> & Hv & Hpr & Hres). destruct (update _ _) as [st'|] eqn:Hu; [|done].
  apply Ok_inj in Hr as <-. simpl. assert (tame e (with_name e n s)) as Ht by done. split.
  - apply (update_env st (with_name e n s) e st' Hok He Ht); [|done].
    destruct Hok as (_ & Hwf & _). destruct (Hwf _ _ He) as (? & _ & ?). done.
  - intros Hf. apply (update_founded st (with_name e n s) e st' He Ht Hf Hu). intros H1 H2.
    by apply (Hf (StackID e) e).
Qed.

Lemma SetFrom_env st e kind branch auto p : envs_ok (tab st) -> tab st !! ID e = Some e ->
  SetFrom e kind branch auto st = Ok p -> envs_ok (tab p.2) /\ (founded (tab st) -> founded (tab p.2)).
Proof.
  intros Hok He Hr. unfold SetFrom in Hr. set (br := if String.eqb kind FromPromote then "" else branch) in *.
  destruct (match Below st e with Ok _ => _ | Err _ => _ end) as [?|]; [|done].
  destruct (checkFrom _ _ _ _) as [|] eqn:Ec; [done|]. destruct (update _ _) as [st'|] eqn:Hu; [|done].
  apply Ok_inj in Hr as <-. simpl. pose proof Hok as (Htab & Hwf & _). destruct (Hwf _ _ He) as (Hty & Hsl & _).
  apply checkFrom_ok in Ec; [|done]. assert (tame e (with_from e kind br auto)) as Ht by done. split.
  - apply (update_env st (with_from e kind br auto) e st' Hok He Ht); [|done].
    split_and!; [done|apply Hsl..|]. simpl. destruct Ec as [[-> ?]|(-> & _ & ?)]; [by left|by right].
  - intros Hf. apply (update_founded st (with_from e kind br auto) e st' He Ht Hf Hu). simpl. intros _ ->.
    destruct Ec as [[? _]|(_ & Eb & _)]; [done|]. destruct (Below st e) as [b|] eqn:EB; [|done].
    apply Below_rung in EB as (_ & ? & ?); [|done]. by exists b.
Qed.

(** A setter of a column outside the ladder. *)
Lemma put_env st e e' p : envs_ok (tab st) -> tab st !! ID e = Some e ->
  ID e' = ID e -> tame e e' -> Slug e' = Slug e -> FromKind e' = FromKind e -> FromBranch e' = FromBranch e ->
  put e' st = Ok p -> envs_ok (tab p.2) /\ (founded (tab st) -> founded (tab p.2)).
Proof.
  intros Hok He Ei Ht Es Ek Eb Hp. unfold put in Hp. destruct (update _ _) as [st'|] eqn:Hu; [|done].
  apply Ok_inj in Hp as <-. simpl. rewrite <- Ei in He. pose proof Ht as (Ets & Ett & Etp). split.
  - apply (update_env st e' e st' Hok He Ht); [|done]. destruct Hok as (_ & Hwf & _).
    destruct (Hwf _ _ He) as (? & ? & ?). unfold env_wf. rewrite Ett, Es, Ek, Eb. done.
  - intros Hf. apply (update_founded st e' e st' He Ht Hf Hu). unfold is_static. rewrite Ett, Ek, Ets, Etp.
    intros H1 H2. rewrite Ei in He. by apply (Hf (StackID e) e).
Qed.

Lemma Delete_env st remove e n st' : envs_ok (tab st) -> Delete remove e n st = Ok st' -> envs_ok (tab st').
Proof.
  intros (Hok & Hwf & Hpos) Hd. assert (delete_row (ID e) st = Ok st') as Hdr.
  { unfold Delete in Hd. destruct (0 <? n); [done|]. destruct (_ && _); [done|]. by destruct (remove _ _). }
  pose proof (delete_ok st (ID e) st' Hok Hdr) as Hok'. pose proof (delete_law st (ID e)) as Hl.
  rewrite Hdr in Hl. destruct Hl as [_ Htab]. split; [done|]. rewrite Htab. split.
  - intros id e0 [_ ?]%lookup_delete_Some. by eapply Hwf.
  - intros s a b (Ha & Ha') (Hb & Hb'). apply lookup_delete_Some in Ha as [_ Ha], Hb as [_ Hb].
    by apply (Hpos s).
Qed.

Lemma Create_env st pins id now s nm sp p : envs_ok (tab st) -> Create pins id now s nm sp st = Ok p ->
  envs_ok (tab p.2) /\ (founded (tab st) -> founded (tab p.2)).
Proof.
  intros Hok Hc. pose proof Hok as (Htab & Hwf & Hpos). unfold Create in Hc.
  destruct (negb (String.eqb (spType sp) Static) && _) eqn:Ety; [done|].
  destruct (placed _ _ _) as [at_node|]; [|done]. destruct (name _ _ _) as [e1|] eqn:En; [|done].
  apply name_ok in En as (n & sl & -> & Hv & Hpr & Hres). destruct (checkFrom _ _ _ _) eqn:Ec; [done|].
  set (kind := default_kind _ _) in *. set (br := default_branch _ _) in *.
  set (e := with_from _ _ _ _) in Hc. destruct (create e st) as [st'|] eqn:Hcr; [|done].
  apply Ok_inj in Hc as <-. simpl. pose proof (create_law st e) as Hl. rewrite Hcr in Hl.
  destruct Hl as (Hnew & _ & Htab'). change (rid e) with id in Hnew, Htab'.
  assert (Type' e = Static \/ Type' e = Ephemeral) as Htype.
  { simpl. destruct (String.eqb_spec (spType sp) Static); [by left|]. right.
    by destruct (String.eqb_spec (spType sp) Ephemeral). }
  apply checkFrom_ok in Ec; [|done].
  assert (Htop : forall b, rung (tab st) s b -> Position b < Position e).
  { intros b Hb%(elem_of_Ladder st s b Htab). simpl. destruct (last (Ladder st s)) as [top|] eqn:El.
    - pose proof (climbs_last _ _ _ _ (Ladder_climbs st s Hok) El Hb). lia.
    - apply last_None in El. rewrite El in Hb. set_solver. }
  assert (Hold : forall s' a, rung (tab st') s' a -> a = e \/ (ID a <> id /\ rung (tab st) s' a)).
  { intros s' a (Ha & Hs & Hst). rewrite Htab' in Ha. apply lookup_insert_Some in Ha as [[_ <-]|[Hne Ha]]; auto.
    right. done. }
  split; [split; [exact (create_ok st e st' Htab Hcr)|split]|].
  - intros id' a Ha. rewrite Htab' in Ha. apply lookup_insert_Some in Ha as [[_ <-]|[_ Ha]]; [|by eapply Hwf].
    split_and!; [done..|]. destruct Ec as [[E ?]|(E & _ & ?)]; [by left|]. right. split_and!; [done| |done].
    unfold e. simpl. unfold br, default_branch. by rewrite E.
  - intros s' a b Ha Hb E. pose proof Ha as Ra. pose proof Hb as Rb.
    destruct (Hold _ _ Ha) as [->|[_ Oa]], (Hold _ _ Hb) as [->|[_ Ob]]; [done| | |by apply (Hpos s')].
    + assert (s' = s) as -> by (destruct Ra as (_ & <- & _); done). pose proof (Htop _ Ob). lia.
    + assert (s' = s) as -> by (destruct Rb as (_ & <- & _); done). pose proof (Htop _ Oa). lia.
  - intros Hf s' a Ha Hk. assert (exists b, rung (tab st) s' b /\ Position b < Position a) as (b & Hb & Hlt).
    { pose proof Ha as Ra. destruct (Hold _ _ Ha) as [->|[_ Oa]]; [|by apply Hf].
      assert (s' = s) as -> by (destruct Ra as (_ & <- & _); done). destruct Ec as [[E _]|(_ & Eb & _)].
      { unfold e in Hk. simpl in Hk. rewrite E in Hk. done. }
      apply bool_decide_eq_false in Eb. destruct (Ladder st s) as [|b l] eqn:El; [done|]. exists b.
      assert (rung (tab st) s b) as Hb by (apply elem_of_Ladder; [done|rewrite El; by left]). auto. }
    exists b. split; [|done]. destruct Hb as (Hb & ? & ?). split; [|done]. rewrite Htab', lookup_insert_ne; [done|].
    intros E. rewrite <- E in Hb. congruence.
Qed.
End Ops.

(** ** Reordering *)

Lemma reorder_loop_sound i ids byID es :
  (forall id e, byID !! id = Some e -> ID e = id) -> reorder_loop i ids byID = Ok es ->
  exists os, es = imap (fun j e => with_position e (i + Z.of_nat j)) os /\ map ID os = ids /\ NoDup ids /\
    (forall o, o ∈ os -> byID !! ID o = Some o) /\
    (i = 0 -> forall o, head os = Some o -> FromKind o <> FromPromote).
Proof.
  revert i byID es. induction ids as [|id ids IH]; intros i byID es Hk Hr; simpl in Hr.
  { apply Ok_inj in Hr as <-. exists []. split_and!; try done; [constructor|set_solver]. }
  destruct (byID !! id) as [e|] eqn:He; [|done]. destruct (_ && _) eqn:Ef; [done|].
  destruct (reorder_loop _ _ _) as [rest|] eqn:E; [|done]. apply Ok_inj in Hr as <-.
  apply IH in E as (os & -> & <- & Hnd & Hin & _).
  - exists (e :: os). pose proof (Hk _ _ He) as Eid. split_and!.
    + rewrite imap_cons. f_equal; [f_equal; lia|]. apply imap_ext. intros j x _. simpl. f_equal. lia.
    + simpl. by rewrite Eid.
    + apply NoDup_cons. split; [|done]. intros (o & -> & Ho)%list_elem_of_fmap.
      apply Hin in Ho. by rewrite lookup_delete_eq in Ho.
    + intros o [->|Ho]%elem_of_cons; [by rewrite Eid|]. by apply Hin, lookup_delete_Some in Ho as [_ ?].
    + intros -> o [= <-]. simpl in Ef. by apply String.eqb_neq in Ef.
  - intros id' e' [_ ?]%lookup_delete_Some. by apply Hk.
Qed.

Lemma reorder_loop_complete i ids byID : 0 <= i -> NoDup ids -> (forall id, id ∈ ids -> is_Some (byID !! id)) ->
  (i = 0 -> forall id e, head ids = Some id -> byID !! id = Some e -> FromKind e <> FromPromote) ->
  is_ok (reorder_loop i ids byID) = true.
Proof.
  revert i byID. induction ids as [|id ids IH]; intros i byID Hi Hnd Hin Hh; simpl; [done|].
  apply NoDup_cons in Hnd as [Hn Hnd]. destruct (Hin id ltac:(by left)) as [e He]. rewrite He.
  destruct (_ && _) eqn:Ef; [bsimpl; subst i; by destruct (Hh eq_refl id e)|].
  specialize (IH (i + 1) (delete id byID)). destruct (reorder_loop _ _ _); [done|]. apply IH; [lia|done| |lia].
  intros id' Hid'. rewrite lookup_delete_ne by (intros ->; done). apply Hin. by right.
Qed.

Definition refuses_order (e : error) : Prop := exists m, e = Invalid "order" "" m 0.

Lemma reorder_loop_err i ids byID e : reorder_loop i ids byID = Err e -> refuses_order e.
Proof.
  revert i byID. induction ids as [|id ids IH]; intros i byID; simpl; [done|].
  destruct (byID !! id) as [e0|]; [|intros [= <-]; by eexists].
  destruct (_ && _); [intros [= <-]; by eexists|].
  destruct (reorder_loop _ _ _) eqn:E; [done|]. intros [= <-]. by eapply IH.
Qed.

Section Reorder.
Context {St : Type} `{!SlugTable St Environment, !SlugTableLaws St Environment}.
Implicit Types (st : St) (e : Environment).

Lemma update_all_spec es st : table_ok (tab st) -> NoDup (map ID es) ->
  (forall e, e ∈ es -> exists o, tab st !! ID e = Some o /\ StackID e = StackID o /\ Slug e = Slug o) ->
  exists st', update_all es st = Ok st' /\ table_ok (tab st') /\
    (forall e o, e ∈ es -> tab st !! ID e = Some o -> tab st' !! ID e = Some (keep_net o e)) /\
    (forall id, id ∉ map ID es -> tab st' !! id = tab st !! id).
Proof.
  revert st. induction es as [|e es IH]; intros st Hok Hnd Hin; simpl; [exists st; set_solver|].
  apply NoDup_cons in Hnd as [Hn Hnd]. destruct (Hin e ltac:(by left)) as (o & Ho & Es & El).
  destruct (update_same st e o Hok Ho Es El) as (st1 & Hu & Htab). rewrite Hu.
  pose proof (update_ok st e st1 Hok Hu) as Hok1. simpl in Htab.
  assert (Hne : forall x, x ∈ es -> tab st1 !! ID x = tab st !! ID x).
  { intros x Hx. rewrite Htab, lookup_insert_ne; [done|]. intros E. apply Hn. rewrite E. by apply list_elem_of_fmap_2. }
  destruct (IH st1 Hok1 Hnd) as (st' & Hst' & Hok' & Hin' & Hout).
  { intros x Hx. rewrite Hne by done. apply Hin. by right. }
  exists st'. split_and!; [done|done| |].
  - intros x o' [->|Hx]%elem_of_cons Ho'.
    + rewrite Hout, Htab, lookup_insert_eq by done. by assert (o' = o) as -> by congruence.
    + apply Hin'; [done|]. by rewrite Hne.
  - intros id Hid. rewrite Hout, Htab, lookup_insert_ne by set_solver. done.
Qed.

(** What an accepted order names: the ladder's rows in the new order. *)
Definition accepted st s (os : list Environment) : Prop :=
  os ≡ₚ Ladder st s /\ forall o, head os = Some o -> FromKind o <> FromPromote.

Lemma ladder_lookup st s id e : table_ok (tab st) ->
  (list_to_map (map (fun e => (ID e, e)) (Ladder st s)) : gmap string Environment) !! id = Some e <->
  e ∈ Ladder st s /\ ID e = id.
Proof.
  intros Hok. rewrite <- elem_of_list_to_map.
  - rewrite list_elem_of_fmap. split; [intros (x & [= -> ->] & ?); done|]. intros [? <-]. eauto.
  - rewrite map_map. by apply Ladder_ids.
Qed.

Lemma env_Reorder_cases st s ids : table_ok (tab st) ->
  (exists os, map ID os = ids /\ accepted st s os /\ Reorder s ids st = update_all (renumber with_position os) st) \/
  ((~ exists os, map ID os = ids /\ accepted st s os) /\ exists err, Reorder s ids st = Err err /\ refuses_order err).
Proof.
  intros Hok. pose proof (Ladder_ids st s Hok) as Hids. unfold Reorder.
  destruct (Nat.eqb_spec (length ids) (length (Ladder st s))) as [El|El]; simpl.
  2: { right. split; [|by exists order_error; split; [|eexists]]. intros (os & <- & Hp & _).
       apply El. by rewrite length_map, Hp. }
  destruct (reorder_loop _ _ _) as [es|e] eqn:E.
  - left. apply reorder_loop_sound in E as (os & -> & <- & Hnd & Hin & Hh);
      [|intros id e He; apply (ladder_lookup st s id e Hok) in He; apply He].
    exists os. split_and!; [done| |done]. split; [|by apply Hh]. rewrite length_map in El.
    apply submseteq_length_Permutation; [|lia]. apply NoDup_submseteq; [by eapply NoDup_fmap_1|].
    intros o Ho%Hin%ladder_lookup; [|done]. apply Ho.
  - right. split; [|exists e; split; [done|by eapply reorder_loop_err]].
    intros (os & <- & Hp & Hh).
    match type of E with ?c = _ => assert (is_ok c = true) as Hc end; [|by rewrite E in Hc].
    apply reorder_loop_complete; [done| | |].
    + by rewrite Hp.
    + intros id (o & -> & Ho)%list_elem_of_fmap. exists o. apply ladder_lookup; [done|]. by rewrite <- Hp.
    + intros _ id o Hhd Ho. apply ladder_lookup in Ho as [Ho <-]; [|done]. apply Hh.
      destruct os as [|o' os]; [done|]. simpl in *. injection Hhd as Ei. f_equal.
      assert (o' ∈ Ladder st s) as Ho' by (rewrite <- Hp; by left).
      apply elem_of_Ladder in Ho as [Ho _], Ho' as [Ho' _]; [|done..]. congruence.
Qed.

(** The written rungs are the new ladder. *)
Lemma update_ladder st s os : envs_ok (tab st) -> accepted st s os ->
  exists st', update_all (renumber with_position os) st = Ok st' /\ table_ok (tab st') /\
    Ladder st' s = renumber with_position os /\
    (forall id e', tab st' !! id = Some e' -> exists e, tab st !! id = Some e /\
    e' = with_position e (Position e') /\ (~ rung (tab st) s e -> e' = e)) /\
    (forall id e, tab st !! id = Some e -> ~ rung (tab st) s e -> tab st' !! id = Some e).
Proof.
  intros (Hok & Hwf & Hpos) [Hp Hh].
  assert (Hrow : forall e, e ∈ os -> rung (tab st) s e) by (intros e; rewrite Hp; by apply elem_of_Ladder).
  assert (Hmap : map ID (renumber with_position os) = map ID os) by by apply renumber_map.
  assert (Hnd : NoDup (map ID os)) by (rewrite Hp; by apply Ladder_ids).
  destruct (update_all_spec (renumber with_position os) st Hok) as (st' & Hu & Hok' & Hin & Hout).
  { by rewrite Hmap. }
  { intros e (j & u & Hu & ->)%elem_of_renumber. exists u. split; [|done].
    apply (Hrow u). by eapply list_elem_of_lookup_2. }
  rewrite Hmap in Hout. exists st'. split; [done|]. split; [done|].
  assert (Hnew : forall j u, os !! j = Some u -> tab st' !! ID u = Some (with_position u (Z.of_nat j))).
  { intros j u Hj. assert (rung (tab st) s u) as [Hu' _] by (apply Hrow; by eapply list_elem_of_lookup_2).
    pose proof (Hin (with_position u (Z.of_nat j)) u) as Hi. simpl in Hi. rewrite Hi; [|apply elem_of_renumber; eauto|done].
    by destruct u. }
  assert (Hids : forall id, id ∈ map ID os -> exists j u, os !! j = Some u /\ id = ID u).
  { intros id (u & -> & [j Hj]%list_elem_of_lookup)%list_elem_of_fmap. eauto. }
  split_and!.
  - unfold Ladder. apply (sort_climbs Position _ _ _ pos_leb_total pos_leb_trans pos_leb_climbs); [|by apply renumber_climbs].
    rewrite <- (sort_perm pos_leb). fold (Ladder st' s). apply NoDup_Permutation.
    + exact (NoDup_fmap_1 ID _ (Ladder_ids st' s Hok')).
    + apply (NoDup_fmap_1 ID). change (NoDup (map ID (renumber with_position os))). by rewrite Hmap.
    + intros e. rewrite elem_of_Ladder, elem_of_renumber by done. split.
      * intros (He & Hs & Hst). destruct (decide (ID e ∈ map ID os)) as [Hd|Hd].
        -- apply Hids in Hd as (j & u & Hj & E). rewrite E, (Hnew _ _ Hj) in He. injection He as <-. eauto.
        -- exfalso. apply Hd. rewrite Hp. apply list_elem_of_fmap_2, elem_of_Ladder; [done|].
           by rewrite Hout in He.
      * intros (j & u & Hj & ->). split; [exact (Hnew _ _ Hj)|].
        destruct (Hrow u) as (_ & ? & ?); [by eapply list_elem_of_lookup_2|done].
  - intros id e' He'. destruct (decide (id ∈ map ID os)) as [Hd|Hd].
    + apply Hids in Hd as (j & u & Hj & ->). rewrite (Hnew _ _ Hj) in He'. injection He' as <-.
      assert (rung (tab st) s u) as Hru by (apply Hrow; by eapply list_elem_of_lookup_2).
      exists u. split_and!; [apply Hru|done|]. done.
    + rewrite Hout in He' by done. exists e'. split_and!; [done|by destruct e'|done].
  - intros id e He Hnr. rewrite Hout; [done|]. intros (j & u & Hj & ->)%Hids. apply Hnr.
    assert (rung (tab st) s u) as Hru by (apply Hrow; by eapply list_elem_of_lookup_2).
    destruct Hru as (Hu' & ?). assert (e = u) as -> by congruence. done.
Qed.

Lemma Reorder_env st s ids st' : envs_ok (tab st) -> Reorder s ids st = Ok st' ->
  envs_ok (tab st') /\ (founded (tab st) -> founded (tab st')).
Proof.
  intros Hok Hr. pose proof Hok as (Htab & Hwf & Hpos).
  destruct (env_Reorder_cases st s ids Htab) as [(os & <- & Hacc & E)|(_ & err & E & _)]; [|congruence].
  destruct (update_ladder st s os Hok Hacc) as (st2 & Hu & Hok' & Hl & Hc & Hkeep).
  assert (st2 = st') as -> by congruence. pose proof Hacc as [Hp Hh].
  assert (Hother : forall s' a, s' <> s -> rung (tab st') s' a -> rung (tab st) s' a).
  { intros s' a Hs' (Ha & Hsa & Hst). destruct (Hc _ _ Ha) as (e & He & Ee & Hk).
    assert (a = e) as ->; [|done]. apply Hk. intros (_ & Hse & _). apply Hs'. rewrite <- Hsa, Ee. exact Hse. }
  assert (Hmine : forall a, rung (tab st') s a -> exists j u, os !! j = Some u /\ a = with_position u (Z.of_nat j)).
  { intros a Ha. apply elem_of_renumber. rewrite <- Hl. by apply elem_of_Ladder. }
  split; [split; [done|split]|].
  - intros id a Ha. destruct (Hc _ _ Ha) as (e & He & Ee & _). rewrite Ee. exact (Hwf _ _ He).
  - intros s' a b Ha Hb Ep. destruct (decide (s' = s)) as [->|Hs'].
    + apply Hmine in Ha as (j & u & Hj & ->), Hb as (k & v & Hk & ->). simpl in Ep.
      assert (j = k) as -> by lia. congruence.
    + by apply (Hpos s'); [apply Hother..|].
  - intros Hf s' a Ha Hk. destruct (decide (s' = s)) as [->|Hs'].
    + apply Hmine in Ha as (j & u & Hj & ->). destruct j as [|j].
      { destruct os as [|o os]; [done|]. injection Hj as ->. by destruct (Hh u eq_refl). }
      destruct (os !! j) as [v|] eqn:Hv; [|apply lookup_ge_None in Hv; apply lookup_lt_Some in Hj; lia].
      exists (with_position v (Z.of_nat j)). split; [|simpl; lia]. apply elem_of_Ladder; [done|].
      rewrite Hl. apply elem_of_renumber. eauto.
    + destruct (Hf s' a (Hother _ _ Hs' Ha) Hk) as (b & Hb & Hlt). exists b. split; [|done].
      destruct Hb as (Hb & Hsb & Hst). split; [|done]. apply Hkeep; [done|]. intros (_ & Hsb' & _). congruence.
Qed.
End Reorder.

(** ** Hues *)

Section Hues.
Context (envs : list Environment) (Hids : NoDup (map ID envs)).

Lemma same_env e1 e2 : e1 ∈ envs -> e2 ∈ envs -> ID e1 = ID e2 -> e1 = e2.
Proof.
  intros [i Hi]%list_elem_of_lookup [k Hk]%list_elem_of_lookup E.
  assert (i = k) as ->; [|congruence].
  eapply (NoDup_lookup _ i k (ID e1) Hids); rewrite list_lookup_fmap; [by rewrite Hi|by rewrite Hk, E].
Qed.

Lemma known_hue_palette e c : known_hue e = Some c -> c ∈ Palette.
Proof.
  unfold known_hue, bySlug. destruct (is_pr e); [done|]. intros (kv & H & ->)%fmap_Some.
  apply find_first_Some in H as [Hin _]. revert kv Hin. apply Forall_forall.
  repeat constructor; apply (bool_decide_unpack _); vm_compute; exact I.
Qed.

Lemma hue_palette n : hue n ∈ Palette.
Proof.
  unfold hue. apply list_elem_of_In, nth_In. apply Nat.mod_upper_bound. done.
Qed.

(** What the loops keep: hues of the palette on the stack's envs, [used] what
    is out, and a hue twice only where two slugs claim it. *)
Record hued_ok (h : Hued) : Prop := {
  ho_env : forall id c, out h !! id = Some c -> exists e, e ∈ envs /\ ID e = id;
  ho_hue : forall id c, out h !! id = Some c -> c ∈ used h /\ c ∈ Palette;
  ho_used : forall c, c ∈ used h -> exists id, out h !! id = Some c;
  ho_known : forall e c c', e ∈ envs -> known_hue e = Some c -> out h !! ID e = Some c' -> c' = c;
  ho_inj : (length envs <= length Palette)%nat -> forall e1 e2 c, e1 ∈ envs -> e2 ∈ envs -> out h !! ID e1 = Some c -> out h !! ID e2 = Some c ->
    e1 = e2 \/ (known_hue e1 = Some c /\ known_hue e2 = Some c) }.

Lemma claim_hue_ok h e : e ∈ envs ->
  (hued_ok h /\ forall e' c, e' ∈ envs -> out h !! ID e' = Some c -> known_hue e' = Some c) ->
  hued_ok (claim_hue h e) /\ forall e' c, e' ∈ envs -> out (claim_hue h e) !! ID e' = Some c -> known_hue e' = Some c.
Proof.
  intros He [[He1 He2 He3 He4 He5] Hk]. unfold claim_hue. destruct (known_hue e) as [c|] eqn:Ek; [|by split].
  assert (Hk' : forall e' c', e' ∈ envs -> <[ID e := c]> (out h) !! ID e' = Some c' -> known_hue e' = Some c').
  { intros e' c' He'. rewrite lookup_insert_Some. intros [[Ei <-]|[_ Ho]]; [|by apply Hk].
    by rewrite <- (same_env e e' He He' Ei). }
  split; [|exact Hk']. constructor; simpl.
  - intros id c'. rewrite lookup_insert_Some. intros [[<- _]|[_ ?]]; eauto.
  - intros id c'. rewrite lookup_insert_Some. intros [[<- <-]|[_ Ho]].
    + split; [by left|]. by eapply known_hue_palette.
    + destruct (He2 _ _ Ho). split; [by right|done].
  - intros c' [->|Hu]%elem_of_cons; [exists (ID e); by rewrite lookup_insert_eq|].
    destruct (He3 _ Hu) as [id Hid]. destruct (decide (id = ID e)) as [->|Hne].
    + exists (ID e). rewrite lookup_insert_eq. apply (Hk e c' He) in Hid. congruence.
    + exists id. by rewrite lookup_insert_ne.
  - intros e' c1 c2 He' H1 H2%Hk'; [|done]. congruence.
  - intros _ e1 e2 c' H1 H2 O1%Hk' O2%Hk'; auto.
Qed.

Lemma free_hue_free tries u n k : (k < tries)%nat -> hue (n + k) ∉ u -> hue (free_hue tries u n) ∉ u.
Proof.
  revert n k. induction tries as [|t IH]; intros n k Hk Hf; [lia|]. simpl. unfold contains.
  case_bool_decide as Hu; [|done]. destruct k as [|k]; [by rewrite Nat.add_0_r in Hf|].
  apply (IH (S n) k); [lia|]. by replace (S n + k)%nat with (n + S k)%nat by lia.
Qed.

Lemma hue_reaches n c : c ∈ Palette -> exists k, (k < length Palette)%nat /\ hue (n + k) = c.
Proof.
  intros [j Hj]%list_elem_of_lookup. pose proof (lookup_lt_Some _ _ _ Hj) as Hlt.
  exists ((j + (length Palette - n mod length Palette)) mod length Palette)%nat.
  assert (length Palette <> 0)%nat as Hz by done. split; [by apply Nat.mod_upper_bound|].
  unfold hue. rewrite Nat.Div0.add_mod_idemp_r.
  pose proof (Nat.mod_upper_bound n _ Hz) as Hn. pose proof (Nat.div_mod n _ Hz) as Hd.
  replace (n + (j + (length Palette - n mod length Palette)))%nat
    with (j + (n / length Palette + 1) * length Palette)%nat by lia.
  rewrite Nat.Div0.mod_add, Nat.mod_small by done. by apply nth_lookup_Some.
Qed.

Lemma free_hue_left h e : hued_ok h -> e ∈ envs -> out h !! ID e = None ->
  (length envs <= length Palette)%nat -> exists c, c ∈ Palette /\ c ∉ used h.
Proof.
  intros [He1 _ He3 _ _] He Hn Hlen.
  destruct (decide (Forall (fun c => c ∈ used h) Palette)) as [HF|HF].
  2: { apply not_Forall_Exists in HF; [|intros c; apply _]. by apply Exists_exists in HF. }
  exfalso. assert (exists l, Forall2 (fun c id => out h !! id = Some c) Palette l) as [l Hl].
  { clear Hlen. induction HF as [|c p Hc _ [l Hl]]; [by exists []|]. destruct (He3 _ Hc) as [id Hid].
    exists (id :: l). by constructor. }
  assert (NoDup (ID e :: l)) as Hnd.
  { apply NoDup_cons. split.
    - intros [i Hi]%list_elem_of_lookup. destruct (Forall2_lookup_r _ _ _ _ _ Hl Hi) as (c & _ & Hc). congruence.
    - apply NoDup_alt. intros i k id Hi Hk.
      destruct (Forall2_lookup_r _ _ _ _ _ Hl Hi) as (c & Hci & Hc).
      destruct (Forall2_lookup_r _ _ _ _ _ Hl Hk) as (c' & Hck & Hc'). assert (c' = c) as -> by congruence.
      assert (NoDup Palette) as HP by (apply (bool_decide_unpack _); vm_compute; exact I).
      by eapply NoDup_lookup. }
  assert ((ID e :: l) ⊆+ map ID envs) as Hsub%submseteq_length.
  { apply NoDup_submseteq; [done|]. intros id [->|Hid]%elem_of_cons; [by apply list_elem_of_fmap_2|].
    apply list_elem_of_lookup in Hid as [i Hi]. destruct (Forall2_lookup_r _ _ _ _ _ Hl Hi) as (c & _ & Hc).
    destruct (He1 _ _ Hc) as (e' & ? & <-). by apply list_elem_of_fmap_2. }
  apply Forall2_length in Hl. rewrite length_map in Hsub. simpl in *. lia.
Qed.

(** After the claims, and through both passes. *)
Definition passing (h : Hued) : Prop :=
  hued_ok h /\ forall e c, e ∈ envs -> known_hue e = Some c -> out h !! ID e = Some c.

Lemma no_empty_hue h e c : hued_ok h -> out h !! ID e = Some c -> c <> "".
Proof.
  intros [_ He2 _ _ _] Ho ->. destruct (He2 _ _ Ho) as [_ Hp].
  by assert ("" ∉ Palette) as [] by (apply (bool_decide_unpack _); vm_compute; exact I).
Qed.

Lemma take_hue_ok b h e : e ∈ envs -> passing h ->
  passing (take_hue b h e) /\ (is_pr e = b -> is_Some (out (take_hue b h e) !! ID e)) /\
  (forall id, is_Some (out h !! id) -> is_Some (out (take_hue b h e) !! id)).
Proof.
  intros He [Hh Hk]. unfold take_hue.
  destruct (Bool.eqb_spec (is_pr e) b) as [Eb|Eb]; simpl; [|by split_and!].
  destruct (out h !! ID e) as [c|] eqn:Eo; simpl.
  { rewrite (proj2 (String.eqb_neq c "")) by (by eapply no_empty_hue). simpl. rewrite Eo. by split_and!. }
  pose proof Hh as [He1 He2 He3 He4 He5].
  assert (known_hue e = None) as Hne.
  { destruct (known_hue e) as [c|] eqn:Ek; [|done]. apply Hk in Ek; [congruence|done]. }
  set (n := free_hue (length Palette) (used h) (next h)).
  assert (Hfree : (length envs <= length Palette)%nat -> hue n ∉ used h).
  { intros Hlen. destruct (free_hue_left h e Hh He Eo Hlen) as (c & Hc & Hu).
    destruct (hue_reaches (next h) c Hc) as (k & Hlt & <-). by apply (free_hue_free _ _ _ k). }
  split; [split|split].
  - constructor; simpl.
    + intros id c. rewrite lookup_insert_Some. intros [[<- _]|[_ ?]]; eauto.
    + intros id c. rewrite lookup_insert_Some. intros [[<- <-]|[_ Ho]].
      * split; [by left|apply hue_palette].
      * destruct (He2 _ _ Ho). split; [by right|done].
    + intros c [->|Hu]%elem_of_cons; [exists (ID e); by rewrite lookup_insert_eq|].
      destruct (He3 _ Hu) as [id Hid]. exists id. rewrite lookup_insert_ne; [done|]. intros <-. congruence.
    + intros e' c c' He' Hk' Ho. rewrite lookup_insert_ne in Ho; [by eapply He4|].
      intros Ei. rewrite <- (same_env e e' He He' Ei) in Hk'. congruence.
    + intros Hlen e1 e2 c H1 H2 O1 O2. specialize (Hfree Hlen).
      apply lookup_insert_Some in O1 as [[I1 <-]|[N1 O1]], O2 as [[I2 E2]|[N2 O2]].
      * left. apply same_env; congruence.
      * destruct (He2 _ _ O2) as [? _]. done.
      * destruct (He2 _ _ O1) as [Hu _]. subst c. done.
      * by apply (He5 Hlen).
  - simpl. intros e' c He' Hk'. rewrite lookup_insert_ne; [by apply Hk|].
    intros Ei. rewrite <- (same_env e e' He He' Ei) in Hk'. congruence.
  - intros _. simpl. rewrite lookup_insert_eq. eauto.
  - intros id Hid. simpl. destruct (decide (id = ID e)) as [->|Hi]; [rewrite lookup_insert_eq; eauto|].
    by rewrite lookup_insert_ne.
Qed.
End Hues.

Section Passes.
Context (envs : list Environment) (Hids : NoDup (map ID envs)).

Lemma hue_passes_ok :
  passing envs (hue_passes envs) /\ forall e, e ∈ envs -> is_Some (out (hue_passes envs) !! ID e).
Proof.
  destruct (fold_left_all claim_hue
    (fun h => hued_ok envs h /\ forall e c, e ∈ envs -> out h !! ID e = Some c -> known_hue e = Some c)
    (fun e h => forall c, known_hue e = Some c -> out h !! ID e = Some c) envs) with (h := MkHued ∅ [] 0) as [[H0 _] H1].
  { intros h e He Hh. split; [by apply claim_hue_ok|]. intros c Hc. unfold claim_hue. rewrite Hc. apply lookup_insert_eq. }
  { intros h e e' He He' _ HP c Hc. unfold claim_hue. destruct (known_hue e) as [c1|] eqn:E1; [|by apply HP].
    simpl. destruct (decide (ID e = ID e')) as [Ei|Hne]; [|rewrite lookup_insert_ne by done; by apply HP].
    rewrite (same_env envs Hids e e' He He' Ei) in *. rewrite lookup_insert_eq. congruence. }
  { split; [constructor|]; simpl; [intros id c; by rewrite lookup_empty|intros id c; by rewrite lookup_empty|set_solver|..].
    - intros e c c' _ _. by rewrite lookup_empty.
    - intros _ e1 e2 c _ _. by rewrite lookup_empty.
    - intros e c _. by rewrite lookup_empty. }
  set (h0 := fold_left claim_hue envs _) in *.
  assert (passing envs h0) as Hp0 by (split; [done|intros; by apply H1]).
  destruct (fold_left_all (take_hue false) (passing envs)
    (fun e h => is_pr e = false -> is_Some (out h !! ID e)) envs) with (h := h0) as [Hp1 Hs1]; [| |done|].
  { intros h e He Hh. destruct (take_hue_ok envs Hids false h e He Hh) as (? & ? & _). done. }
  { intros h e e' He He' Hh HP Ht. destruct (take_hue_ok envs Hids false h e He Hh) as (_ & _ & Hk). by apply Hk, HP. }
  set (h1 := fold_left (take_hue false) envs h0) in *.
  destruct (fold_left_all (take_hue true)
    (fun h => passing envs h /\ forall e, e ∈ envs -> is_pr e = false -> is_Some (out h !! ID e))
    (fun e h => is_pr e = true -> is_Some (out h !! ID e)) envs) with (h := h1) as [[Hp2 Hs2] Hs3]; [| |done|].
  { intros h e He [Hh Hs]. destruct (take_hue_ok envs Hids true h e He Hh) as (? & ? & Hk). split; [split|]; [done| |done].
    intros e' He' Hpr. by apply Hk, Hs. }
  { intros h e e' He He' [Hh _] HP Ht. destruct (take_hue_ok envs Hids true h e He Hh) as (_ & _ & Hk). by apply Hk, HP. }
  split; [exact Hp2|]. intros e He. destruct (is_pr e) eqn:Epr; [by apply Hs3|by apply Hs2].
Qed.

Lemma own_colors m :
  (forall e, e ∈ envs -> Color e = "" -> fold_left own_color envs m !! ID e = m !! ID e) /\
  (forall e, e ∈ envs -> Color e <> "" -> fold_left own_color envs m !! ID e = Some (Color e)).
Proof.
  apply (fold_left_all own_color (fun m' => forall e, e ∈ envs -> Color e = "" -> m' !! ID e = m !! ID e)
    (fun e m' => Color e <> "" -> m' !! ID e = Some (Color e)) envs); [| |done].
  - intros m' e He Hm. unfold own_color. destruct (String.eqb_spec (Color e) "") as [Ec|Ec]; [done|].
    split; [|intros _; apply lookup_insert_eq]. intros e' He' Hc. rewrite lookup_insert_ne; [by apply Hm|].
    intros Ei. rewrite (same_env envs Hids e e' He He' Ei) in Ec. done.
  - intros m' e e' He He' _ HP Hc. unfold own_color. destruct (String.eqb_spec (Color e) "") as [Ec|Ec]; [by apply HP|].
    destruct (decide (ID e = ID e')) as [Ei|Hne]; [|rewrite lookup_insert_ne by done; by apply HP].
    rewrite (same_env envs Hids e e' He He' Ei). apply lookup_insert_eq.
Qed.
End Passes.

(** Every env of a stack is drawn in a hue: its stored colour, else its
      slug's well-known hue, else one of the palette; and in a stack of at most
      six envs no two envs without a colour share a hue, unless their slugs both
      claim it (prod and production). *)
Theorem Hues_spec envs : NoDup (map ID envs) ->
  (forall e, e ∈ envs -> exists c, Hues envs !! ID e = Some c /\
     if String.eqb (Color e) "" then c ∈ Palette /\ (forall k, known_hue e = Some k -> c = k) else c = Color e) /\
  ((length envs <= 6)%nat -> forall e1 e2, e1 ∈ envs -> e2 ∈ envs -> Color e1 = "" -> Color e2 = "" ->
     Hues envs !! ID e1 = Hues envs !! ID e2 ->
     e1 = e2 \/ exists c, known_hue e1 = Some c /\ known_hue e2 = Some c).
Proof.
  intros Hids. destruct (hue_passes_ok envs Hids) as [[Hh Hk] Hs].
  destruct (own_colors envs Hids (out (hue_passes envs))) as [Hsame Hown]. fold (Hues envs) in Hsame, Hown. split.
  - intros e He. destruct (String.eqb_spec (Color e) "") as [Ec|Ec]; [|exists (Color e); by rewrite Hown].
    rewrite Hsame by done. destruct (Hs e He) as [c Hc]. exists c. split; [done|]. split.
    + by apply (ho_hue envs _ Hh) in Hc as [_ ?].
    + intros k Hek. apply Hk in Hek; [|done]. congruence.
  - intros Hlen e1 e2 H1 H2 C1 C2. rewrite !Hsame by done. destruct (Hs e1 H1) as [c Hc]. rewrite Hc. intros E.
    destruct (ho_inj envs _ Hh Hlen e1 e2 c H1 H2 Hc (eq_sym E)) as [?|?]; [by left|right; eauto].
Qed.

Lemma Hues_spec_witness :
  let env i s t c p := MkEnv i "st" s s t None "{}" c p "" None "branch" "main" false 0 true "" "" "" in
  let envs := [env "1" "dev" Static "" 0; env "2" "prod" Static "" 1; env "3" "pr-7" Ephemeral "" 2] in
  exists c1 c3, Hues envs !! "1" = Some c1 /\ Hues envs !! "3" = Some c3 /\ c1 <> c3.
Proof.
  intros env envs. destruct (Hues_spec envs) as [Hall Hinj]; [apply (bool_decide_unpack _); vm_compute; exact I|].
  destruct (Hall (env "1" "dev" Static "" 0)) as (c1 & H1 & _); [by left|].
  destruct (Hall (env "3" "pr-7" Ephemeral "" 2)) as (c3 & H3 & _); [by right; right; left|].
  exists c1, c3. split; [exact H1|]. split; [exact H3|]. intros E.
  destruct (Hinj ltac:(simpl; lia) (env "1" "dev" Static "" 0) (env "3" "pr-7" Ephemeral "" 2)) as [Ee|(c & _ & Hc)].
  - by left.
  - by right; right; left.
  - done.
  - done.
  - rewrite H1, H3. by rewrite E.
  - done.
  - done.
Defined.

(** ** The calls on a stack's envs

    The leaf's operations above take the row; the service reads it by id and
    passes it on ([onEnv] in [service/env.go]), and [do] is the two together.
    A call that runs between that read and the write is not modelled: the
    operations themselves are stated for any row of the table. *)

Inductive op :=
  | OCreate (pins : option (string -> res Pins)) (id : string) (now : Z) (stackID nm : string) (sp : Spec)
  | ORename (id nm : string)
  | OSetFrom (id kind branch : string) (auto : bool)
  | OReorder (stackID : string) (ids : list string)
  | OSetRelease (id releaseID : string)
  | OSetColor (id color : string)
  | OSetLocked (id : string) (locked : bool)
  | ODelete (remove : string -> string -> option error) (id : string) (tileCount : Z).

Definition deletes (o : op) : bool := match o with ODelete _ _ _ => true | _ => false end.

Section Claims.
Context {St : Type} `{!SlugTable St Environment, !SlugTableLaws St Environment}.
Implicit Types (st : St) (e : Environment).

Definition fst_st (r : res (Environment * St)) : res St := p <-? r ;; Ok p.2.

Definition do (o : op) st : res St :=
  match o with
  | OCreate pins id now s nm sp => fst_st (Create pins id now s nm sp st)
  | ORename id nm => e <-? get st id ;; fst_st (Rename e nm st)
  | OSetFrom id k b a => e <-? get st id ;; fst_st (SetFrom e k b a st)
  | OReorder s ids => Reorder s ids st
  | OSetRelease id r => e <-? get st id ;; fst_st (SetRelease e r st)
  | OSetColor id c => e <-? get st id ;; fst_st (SetColor e c st)
  | OSetLocked id l => e <-? get st id ;; fst_st (SetLocked e l st)
  | ODelete remove id n => e <-? get st id ;; Delete remove e n st
  end.

Lemma get_row st id e : table_ok (tab st) -> get st id = Ok e -> tab st !! ID e = Some e.
Proof.
  intros [Hk _]. rewrite get_law. destruct (tab st !! id) as [e'|] eqn:E; [|done]. intros <-%Ok_inj.
  by rewrite (Hk _ _ E : ID e' = id).
Qed.

Lemma fst_st_ok r st : fst_st r = Ok st -> exists e, r = Ok (e, st).
Proof. unfold fst_st. destruct r as [[e st']|]; [|done]. intros [= <-]. eauto. Qed.

(** C40. Every call on a stack's envs keeps the table's invariant: slugs
    unique in the stack, legal and not "pr", a source that fits the env's
    type, and static envs on distinct rungs; and as long as no env is
    deleted, every env that promotes keeps a rung below to promote from. *)
Theorem Environment_ops_keep_ladder o st st' : envs_ok (tab st) -> do o st = Ok st' ->
  envs_ok (tab st') /\ (deletes o = false -> founded (tab st) -> founded (tab st')).
Proof.
  intros Hok Hd. pose proof Hok as (Htab & _).
  assert (Hrow : forall id (k : Environment -> res St), (e <-? get st id ;; k e) = Ok st' ->
    exists e, tab st !! ID e = Some e /\ k e = Ok st').
  { intros id k Hk. destruct (get st id) as [e|] eqn:Eg; [|done]. exists e. split; [by eapply get_row|done]. }
  destruct o; simpl in Hd; try (apply Hrow in Hd as (e & He & Hd)); try (apply fst_st_ok in Hd as [e' Hd]); simpl.
  - destruct (Create_env st _ _ _ _ _ _ _ Hok Hd). auto.
  - destruct (Rename_env st _ _ _ Hok He Hd). auto.
  - destruct (SetFrom_env st _ _ _ _ _ Hok He Hd). auto.
  - destruct (Reorder_env st _ _ _ Hok Hd). auto.
  - destruct (put_env st e (with_release e (Some releaseID)) (e', st') Hok He); auto; done.
  - destruct (put_env st e (with_color e color) (e', st') Hok He); auto; done.
  - destruct (put_env st e (with_locked e locked) (e', st') Hok He); auto; done.
  - split; [by eapply Delete_env|done].
Qed.

Lemma IsDefault_top st e i : envs_ok (tab st) -> Ladder st (StackID e) !! i = Some e ->
  IsDefault st e = bool_decide (S i = length (Ladder st (StackID e))).
Proof.
  intros (Htab & _) Hi. unfold IsDefault. set (L := Ladder st (StackID e)) in *.
  pose proof (Ladder_ids st (StackID e) Htab) as Hnd. pose proof (lookup_lt_Some _ _ _ Hi) as Hlt.
  rewrite last_lookup. destruct (lookup_lt_is_Some_2 L (pred (length L))) as [top Ht]; [lia|]. rewrite Ht.
  case_bool_decide as Hl.
  - rewrite <- Hl in Ht. simpl in Ht. assert (top = e) as -> by congruence. apply String.eqb_refl.
  - apply String.eqb_neq. intros E. apply Hl.
    assert (i = pred (length L)); [|lia]. eapply (NoDup_lookup _ _ _ (ID e) Hnd).
    + apply list_lookup_fmap_Some. eauto.
    + apply list_lookup_fmap_Some. eauto.
Qed.

Lemma Below_at st e i : envs_ok (tab st) -> is_static e = true -> Ladder st (StackID e) !! i = Some e ->
  match i with
  | O => Below st e = Err ErrNotFound
  | S j => exists b, Ladder st (StackID e) !! j = Some b /\ Below st e = Ok b
  end.
Proof.
  intros Hok Es Hi. unfold Below. rewrite Es. simpl. pose proof (Ladder_climbs st (StackID e) Hok) as Hc.
  set (L := Ladder st (StackID e)) in *. assert (rev L = rev (drop (S i) L) ++ e :: rev (take i L)) as ->.
  { rewrite <- (take_drop_middle L i e Hi) at 1. rewrite rev_app_distr. simpl. by rewrite <- app_assoc. }
  rewrite find_first_app.
  rewrite (proj2 (find_first_None _ (rev (drop (S i) L)))).
  2: { apply Forall_forall. intros b Hb. rewrite list_elem_of_In, <- in_rev, <- list_elem_of_In in Hb.
       apply list_elem_of_lookup in Hb as [k Hk]. rewrite lookup_drop in Hk. apply Z.ltb_ge.
       pose proof (climbs_lookup _ _ _ _ _ _ Hc Hi Hk ltac:(lia)). lia. }
  simpl. rewrite Z.ltb_irrefl. destruct i as [|j]; [by rewrite take_0|].
  destruct (lookup_lt_is_Some_2 L j) as [b Hb]; [apply lookup_lt_Some in Hi; lia|]. exists b. split; [done|].
  rewrite (take_S_r _ _ _ Hb), rev_app_distr. simpl.
  pose proof (climbs_lookup _ _ _ _ _ _ Hc Hb Hi ltac:(lia)) as Hlt. apply Z.ltb_lt in Hlt. by rewrite Hlt.
Qed.

(** The ladder order decides who promotes from whom: the env below a
    rung is the rung before it, the bottom rung and a PR env have none, and
    the default env is the top rung. *)
Theorem Below_previous_rung st e : envs_ok (tab st) -> tab st !! ID e = Some e ->
  if is_static e then exists i, Ladder st (StackID e) !! i = Some e /\
    IsDefault st e = bool_decide (S i = length (Ladder st (StackID e))) /\
    match i with
    | O => Below st e = Err ErrNotFound
    | S j => exists b, Ladder st (StackID e) !! j = Some b /\ Below st e = Ok b
    end
  else Below st e = Err ErrNotFound /\ IsDefault st e = false.
Proof.
  intros Hok He. pose proof Hok as (Htab & _). set (L := Ladder st (StackID e)).
  assert (Hid : forall x, x ∈ L -> ID x = ID e -> x = e).
  { intros x [Hx _]%(elem_of_Ladder st _ _ Htab) E. congruence. }
  destruct (is_static e) eqn:Es.
  - assert (e ∈ L) as [i Hi]%list_elem_of_lookup by (by apply elem_of_Ladder).
    exists i. split; [done|]. split; [by apply IsDefault_top|by apply Below_at].
  - unfold Below, IsDefault. rewrite Es. split; [done|]. fold L. destruct (last L) as [top|] eqn:El; [|done].
    apply String.eqb_neq. intros E. apply last_Some_elem_of in El. rewrite <- (Hid top El E) in Es.
    apply elem_of_Ladder in El as (_ & _ & Ht); [|done]. congruence.
Qed.

(** Reordering accepts exactly the lists that name every rung of the
    stack once with an env that builds from a branch first: the ladder then
    reads in that order, and no other column or env changes; any other list
    is refused on "order". *)
Theorem Environment_Reorder_spec st s ids : envs_ok (tab st) ->
  (forall os, map ID os = ids -> accepted st s os -> exists st', Reorder s ids st = Ok st' /\
     Ladder st' s = renumber with_position os /\ map ID (Ladder st' s) = ids /\
     (forall id e, tab st !! id = Some e -> ~ rung (tab st) s e -> tab st' !! id = Some e)) /\
  ((forall os, map ID os = ids -> ~ accepted st s os) ->
     exists m, Reorder s ids st = Err (Invalid "order" "" m 0)).
Proof.
  intros Hok. pose proof Hok as (Htab & _).
  destruct (env_Reorder_cases st s ids Htab) as [(os & <- & Hacc & E)|(Hn & err & E & m & ->)].
  - split; [|intros Hno; by destruct (Hno os)]. intros os' Eos Hacc'.
    assert (os' = os) as ->.
    { apply (map_inj_on ID); [|done]. destruct Hacc as [Hp _], Hacc' as [Hp' _]. intros a b.
      rewrite Hp, Hp', !(elem_of_Ladder st s _ Htab). intros [Ha _] [Hb _] E'. congruence. }
    destruct (update_ladder st s os Hok Hacc) as (st' & Hu & _ & Hl & _ & Hkeep). exists st'.
    rewrite E, Hl. split_and!; [done|done|by apply renumber_map|done].
  - split; [intros os Ho Hacc; destruct Hn; eauto|]. intros _. eauto.
Qed.

(** The writes of a row, from whatever copy of it the caller holds. *)
Inductive writes st : St -> Prop :=
  | w_rename e nm e' st' : Rename e nm st = Ok (e', st') -> writes st st'
  | w_from e k b a e' st' : SetFrom e k b a st = Ok (e', st') -> writes st st'
  | w_release e r e' st' : SetRelease e r st = Ok (e', st') -> writes st st'
  | w_color e c e' st' : SetColor e c st = Ok (e', st') -> writes st st'
  | w_locked e l e' st' : SetLocked e l st = Ok (e', st') -> writes st st'
  | w_reorder s ids st' : Reorder s ids st = Ok st' -> writes st st'.

Definition same_net (o n : Environment) : Prop :=
  NodeID n = NodeID o /\ Subnet n = Subnet o /\ PlacementID n = PlacementID o.

(** However stale the copy a caller writes back, a write never undoes a
    move or a reserved network: every env that was there is still there, on
    its node, its subnet and its placement. *)
Theorem stale_write_keeps_net st st' id o : writes st st' -> tab st !! id = Some o ->
  exists n, tab st' !! id = Some n /\ same_net o n.
Proof.
  assert (Hup : forall e (st1 st2 : St) o1, update e st1 = Ok st2 -> tab st1 !! id = Some o1 ->
    exists n, tab st2 !! id = Some n /\ same_net o1 n).
  { intros e st1 st2 o1 Hu Ho. pose proof (update_law st1 e) as Hl. rewrite Hu in Hl.
    destruct Hl as (o' & Ho' & _ & ->). simpl in *. destruct (decide (ID e = id)) as [<-|Hne].
    - rewrite lookup_insert_eq. exists (keep_net o' e). split; [done|]. by assert (o' = o1) as -> by congruence.
    - rewrite lookup_insert_ne by done. by exists o1. }
  assert (Hput : forall e e' (st2 : St), put e st = Ok (e', st2) -> tab st !! id = Some o ->
    exists n, tab st2 !! id = Some n /\ same_net o n).
  { intros e e' st2. unfold put. destruct (update e st) eqn:Hu; [|done]. intros [= _ <-]. by apply (Hup e). }
  intros Hw Ho. destruct Hw as [e nm e' st' Hw|e k b a e' st' Hw|e r e' st' Hw|e c e' st' Hw|e l e' st' Hw|s ids st' Hw].
  - unfold Rename in Hw. destruct (name _ _ _) as [e1|]; [|done]. by apply (Hput e1 e').
  - unfold SetFrom in Hw. destruct (match Below st e with Ok _ => _ | Err _ => _ end); [|done].
    destruct (checkFrom _ _ _ _); [done|]. by eapply Hput.
  - by eapply Hput.
  - by eapply Hput.
  - by eapply Hput.
  - unfold Reorder in Hw. destruct (negb _); [done|]. destruct (reorder_loop _ _ _) as [es|]; [|done].
    assert (forall es (st1 st2 : St) o1, update_all es st1 = Ok st2 -> tab st1 !! id = Some o1 ->
      exists n, tab st2 !! id = Some n /\ same_net o1 n) as Hall; [|by eapply Hall].
    clear - Hup. induction es as [|e es IH]; intros st1 st2 o1 Hu Ho; simpl in Hu.
    { apply Ok_inj in Hu as <-. by exists o1. }
    destruct (update e st1) as [st3|] eqn:E; [|done]. destruct (Hup _ _ _ _ E Ho) as (n & Hn & Hs).
    destruct (IH _ _ _ Hu Hn) as (n' & Hn' & Hs'). exists n'. split; [done|]. unfold same_net in *.
    destruct Hs as (<- & <- & <-). exact Hs'.
Qed.
End Claims.

(** ** A stack with a ladder of three and a PR env *)

Definition env_wfb (e : Environment) : bool :=
  (is_static e || is_pr e) &&
  (Valid (Slug e) && negb (String.eqb (Slug e) "pr") && negb (Reserved (Slug e))) &&
  ((String.eqb (FromKind e) FromBranch' && negb (String.eqb (trim_space (FromBranch e)) "")) ||
   (String.eqb (FromKind e) FromPromote && String.eqb (FromBranch e) "" && is_static e)).

Lemma env_wfb_ok e : env_wfb e = true -> env_wf e.
Proof.
  unfold env_wfb, env_wf, is_static, is_pr. intros H. apply andb_true_iff in H as [H H3].
  apply andb_true_iff in H as [H1 H2]. bsimpl. split_and!; try done.
  - apply orb_true_iff in H1 as [H1|H1]; bsimpl; auto.
  - apply orb_true_iff in H3 as [H3|H3]; bsimpl; auto.
Qed.

Definition envs_okb (m : gmap string Environment) : bool :=
  table_okb m && forallb (fun kv => env_wfb kv.2 &&
    forallb (fun kw => String.eqb kv.1 kw.1 || negb (String.eqb (StackID kv.2) (StackID kw.2))
      || negb (is_static kv.2) || negb (is_static kw.2) || negb (Position kv.2 =? Position kw.2))
      (map_to_list m)) (map_to_list m).

Lemma envs_okb_ok m : envs_okb m = true -> envs_ok m.
Proof.
  unfold envs_okb. intros H. apply andb_true_iff in H as [H1 H2]. apply table_okb_ok in H1 as Hok.
  split; [exact Hok|]. pose proof (fun id e He => forallb_lookup m _ H2 id e He) as Hall. simpl in Hall. split.
  - intros id e He. specialize (Hall id e He). apply andb_true_iff in Hall as [Hw _]. by apply env_wfb_ok.
  - intros s a b (Ha & Sa & Ta) (Hb & Sb & Tb) Ep. pose proof (Hall _ _ Ha) as Hf.
    apply andb_true_iff in Hf as [_ Hf]. pose proof (forallb_lookup m _ Hf _ _ Hb) as Hg. simpl in Hg.
    rewrite Sa, Sb, Ta, Tb, Ep, Z.eqb_refl, String.eqb_refl in Hg. simpl in Hg. rewrite !orb_false_r in Hg.
    apply String.eqb_eq in Hg. congruence.
Qed.

Definition st_env (i s t k b : string) (p : Z) : Environment :=
  MkEnv i "st" s s t None "{}" "" p "" None k b false 0 true "n1" "10.0.1.0/24" "pl".
Definition four : gmap string Environment :=
  list_to_map (map (fun e => (ID e, e))
    [st_env "1" "dev" Static FromBranch' "main" 0; st_env "2" "staging" Static FromPromote "" 1;
     st_env "3" "prod" Static FromBranch' "release" 5; st_env "4" "pr-9" Ephemeral FromBranch' "fix" 6]).

Lemma Environment_ops_keep_ladder_witness : exists st',
  do (OSetFrom "3" FromPromote "release" true) four = Ok st' /\ envs_ok (tab st').
Proof.
  eexists. split; [vm_compute; reflexivity|].
  refine (proj1 (Environment_ops_keep_ladder (OSetFrom "3" FromPromote "release" true) four _ _ _)).
  - apply envs_okb_ok. vm_compute. reflexivity.
  - vm_compute. reflexivity.
Defined.

Lemma Below_previous_rung_witness :
  let prod := st_env "3" "prod" Static FromBranch' "release" 5 in
  exists i b, Ladder four "st" !! i = Some b /\ Below four prod = Ok b /\ Slug b = "staging".
Proof.
  intros prod. pose proof (Below_previous_rung four prod (envs_okb_ok four ltac:(vm_compute; reflexivity))
    ltac:(vm_compute; reflexivity)) as H. change (is_static prod) with true in H. cbv iota in H.
  destruct H as (i & Hi & _ & Hb). destruct i as [|j].
  - vm_compute in Hi. discriminate.
  - destruct Hb as (b & H1 & H2). exists j, b. split; [exact H1|]. split; [exact H2|].
    vm_compute in H2. injection H2 as <-. reflexivity.
Defined.

Lemma Environment_Reorder_spec_witness : exists st',
  Reorder "st" ["3"; "2"; "1"] four = Ok st' /\ map ID (Ladder st' "st") = ["3"; "2"; "1"].
Proof.
  destruct (Environment_Reorder_spec four "st" ["3"; "2"; "1"] (envs_okb_ok four ltac:(vm_compute; reflexivity)))
    as [H _].
  destruct (H (rev (Ladder four "st"))) as (st' & H1 & _ & H2 & _).
  - vm_compute. reflexivity.
  - split; [symmetry; apply Permutation_rev|]. intros o. vm_compute. intros [= <-]. done.
  - exists st'. split; assumption.
Defined.

Lemma stale_write_keeps_net_witness :
  let stale := MkEnv "1" "st" "dev" "dev" Static None "{}" "" 0 "" None FromBranch' "main" false 0 true "" "" "" in
  exists e' st' n, SetColor stale "rose" four = Ok (e', st') /\ tab st' !! "1" = Some n /\ NodeID n = "n1".
Proof.
  intros stale. destruct (SetColor stale "rose" four) as [[e' st']|] eqn:E; [|vm_compute in E; discriminate].
  destruct (stale_write_keeps_net four st' "1" (st_env "1" "dev" Static FromBranch' "main" 0)
    (w_color four stale "rose" e' st' E) ltac:(vm_compute; reflexivity)) as (n & Hn & Hnode & _).
  exists e', st', n. split; [reflexivity|]. split; [exact Hn|exact Hnode].
Defined.
