(* ===== verification/Rows.v ===== *)
(** * Rows of a table without slugs ([internal/service/internal/store/store.go])

    The same CRUD as [Store], for the tables whose only key is their id: a
    table is its rows, in the order they were written. *)
From S2P Require Import Prelude GoStrings Errs Store.

(** A column whose values are distinct is a key. *)
Lemma nodup_key {A K} (f : A -> K) l x y : NoDup (map f l) -> x ∈ l -> y ∈ l -> f x = f y -> x = y.
Proof.
  induction l as [|z l IH]; [by intros _ ?%elem_of_nil|]. cbn [map]. intros [Hz Hl]%NoDup_cons [->|Hx]%elem_of_cons [->|Hy]%elem_of_cons E;
    [done| | |by apply IH]; destruct Hz; apply list_elem_of_fmap; [exists y|exists x]; done.
Qed.

Lemma filter_map_nodup {A K} (f : A -> K) p l : NoDup (map f l) -> NoDup (map f (List.filter p l)).
Proof.
  induction l as [|x l IH]; [done|]. cbn [map List.filter]. intros [Hx Hl]%NoDup_cons. destruct (p x); [|by apply IH].
  apply NoDup_cons. split; [|by apply IH]. intros (y & Ey & [Hy _]%elem_of_filterb)%list_elem_of_fmap. apply Hx.
  apply list_elem_of_fmap. by exists y.
Qed.

Class HasId (A : Type) := row_id : A -> string.

Section Rows.
Context {A : Type} `{HasId A}.
Implicit Types (t : list A) (r : A).

Definition r_get t (id : string) : res A :=
  match find_first (fun r => String.eqb (row_id r) id) t with Some r => Ok r | None => Err ErrNotFound end.
Definition r_create r t : res (list A) := if is_ok (r_get t (row_id r)) then Err already_exists else Ok (t ++ [r]).
Definition r_update r t : res (list A) :=
  if is_ok (r_get t (row_id r)) then Ok (map (fun x => if String.eqb (row_id x) (row_id r) then r else x) t)
  else Err ErrNotFound.
Definition r_delete (id : string) t : res (list A) :=
  if is_ok (r_get t id) then Ok (List.filter (fun x => negb (String.eqb (row_id x) id)) t) else Err ErrNotFound.

(** Ids are a key. *)
Definition rows_ok t : Prop := NoDup (map row_id t).

Lemma r_get_ok t id r : r_get t id = Ok r -> r ∈ t /\ row_id r = id.
Proof.
  unfold r_get. destruct (find_first _ t) as [x|] eqn:E; [|done]. intros <-%Ok_inj.
  apply find_first_Some in E as [Hx E]. split; [done|by apply String.eqb_eq].
Qed.

Lemma r_get_missing t id e : r_get t id = Err e -> e = ErrNotFound /\ id ∉ map row_id t.
Proof.
  unfold r_get. destruct (find_first _ t) as [x|] eqn:E; [done|]. intros [= <-]. split; [done|].
  intros (r & -> & Hr)%list_elem_of_fmap. apply find_first_None in E.
  pose proof (proj1 (Forall_forall _ _) E r Hr) as Hf. simpl in Hf. by rewrite String.eqb_refl in Hf.
Qed.

Lemma r_get_is t id : is_ok (r_get t id) = true <-> id ∈ map row_id t.
Proof.
  destruct (r_get t id) as [r|e] eqn:E; simpl.
  - apply r_get_ok in E as [Hr <-]. split; [|done]. intros _. apply list_elem_of_fmap. by exists r.
  - apply r_get_missing in E as [_ E]. by split.
Qed.

Lemma r_get_in t r : rows_ok t -> r ∈ t -> r_get t (row_id r) = Ok r.
Proof.
  intros Hk Hr. destruct (r_get t (row_id r)) as [x|e] eqn:E.
  - apply r_get_ok in E as [Hx Eid]. f_equal. by apply (nodup_key row_id t).
  - apply r_get_missing in E as [_ E]. destruct E. apply list_elem_of_fmap. by exists r.
Qed.

Lemma r_create_ok r t t' : r_create r t = Ok t' -> t' = t ++ [r] /\ row_id r ∉ map row_id t.
Proof.
  unfold r_create. destruct (is_ok (r_get t (row_id r))) eqn:E; [done|]. intros <-%Ok_inj. split; [done|].
  rewrite <-r_get_is. by rewrite E.
Qed.

Lemma r_create_rows r t t' : r_create r t = Ok t' -> rows_ok t -> rows_ok t'.
Proof.
  intros [-> Hn]%r_create_ok Hk. unfold rows_ok. rewrite map_app. apply NoDup_app.
  split_and!; [done|set_solver|apply NoDup_singleton].
Qed.

Lemma r_update_ids r t t' : r_update r t = Ok t' -> map row_id t' = map row_id t.
Proof.
  unfold r_update. destruct (is_ok _); [|done]. intros <-%Ok_inj. rewrite map_map. apply map_ext. intros x.
  destruct (String.eqb_spec (row_id x) (row_id r)); congruence.
Qed.

Lemma elem_of_r_update r t t' x : r_update r t = Ok t' ->
  x ∈ t' <-> (x = r /\ row_id r ∈ map row_id t) \/ (x ∈ t /\ row_id x <> row_id r).
Proof.
  unfold r_update. destruct (is_ok _) eqn:E; [|done]. apply r_get_is in E. intros <-%Ok_inj. rewrite list_elem_of_fmap. split.
  - intros (y & -> & Hy). destruct (String.eqb_spec (row_id y) (row_id r)); auto.
  - intros [[-> Hr]|[Hx Hne]].
    + apply list_elem_of_fmap in Hr as (y & Ey & Hy). exists y. split; [|done]. by rewrite <-Ey, String.eqb_refl.
    + exists x. split; [|done]. by rewrite (proj2 (String.eqb_neq _ _)).
Qed.

Lemma r_delete_ok id t t' : r_delete id t = Ok t' ->
  id ∈ map row_id t /\ forall x, x ∈ t' <-> x ∈ t /\ row_id x <> id.
Proof.
  unfold r_delete. destruct (is_ok _) eqn:E; [|done]. intros <-%Ok_inj. split; [by apply r_get_is|]. intros x.
  rewrite elem_of_filterb, negb_true_iff, String.eqb_neq. done.
Qed.

Lemma filter_rows p t : rows_ok t -> rows_ok (List.filter p t).
Proof.
  unfold rows_ok. induction t as [|x t IH]; [done|]. cbn [map List.filter]. intros [Hx Ht]%NoDup_cons. destruct (p x); [|by apply IH].
  cbn [map]. apply NoDup_cons. split; [|by apply IH]. intros (y & Ey & [Hy _]%elem_of_filterb)%list_elem_of_fmap.
  apply Hx. apply list_elem_of_fmap. by exists y.
Qed.

Lemma r_delete_rows id t t' : r_delete id t = Ok t' -> rows_ok t -> rows_ok t'.
Proof. unfold r_delete. destruct (is_ok _); [|done]. intros <-%Ok_inj. apply filter_rows. Qed.

Lemma r_update_rows r t t' : r_update r t = Ok t' -> rows_ok t -> rows_ok t'.
Proof. intros E. unfold rows_ok. by rewrite (r_update_ids _ _ _ E). Qed.
End Rows.
