(* ===== verification/ParamRows.v ===== *)
(** * Param rows ([leaf/params/params.go], [store/params.go])

    The entries of a scope: one row per collection and name, merged with what
    is stored so that a secret is never blanked nor shown.  A database call
    fails only on a key that is taken or a row that is gone. *)
From S2P Require Import Prelude GoStrings Errs Regexp Slug Store Rows Refs.

Definition ParamKind : string := "param".
Definition SecretKind : string := "secret".

Record Param := MkParam {
  p_ID : string; p_ScopeKind : string; p_ScopeID : string; p_Collection : string; p_Name : string;
  p_Kind : string; p_Value : string; p_CreatedAt : Z; p_UpdatedAt : Z }.
#[export] Instance param_id : HasId Param := p_ID.

Record Scope := MkScope { sc_Kind : string; sc_ID : string }.
#[export] Instance Scope_eq_dec : EqDecision Scope.
Proof. solve_decision. Defined.
Definition ServerScope : Scope := MkScope "server" "server".
Record Entry := MkEntry { e_Collection : string; e_Name : string; e_Kind : string; e_Value : string }.

(** ** The table *)

Definition in_scope (s : Scope) (p : Param) : bool := String.eqb (p_ScopeKind p) (sc_Kind s) && String.eqb (p_ScopeID p) (sc_ID s).
Definition named (s : Scope) (c n : string) (p : Param) : bool := in_scope s p && String.eqb (p_Collection p) c && String.eqb (p_Name p) n.
Definition of_kind (k : string) (p : Param) : bool := String.eqb (p_Kind p) k.
Definition blank (p : Param) : Param :=
  MkParam (p_ID p) (p_ScopeKind p) (p_ScopeID p) (p_Collection p) (p_Name p) (p_Kind p) "" (p_CreatedAt p) (p_UpdatedAt p).

Definition ListByScope (t : list Param) (s : Scope) : list Param := List.filter (in_scope s) t.
Definition ListByKind (t : list Param) (s : Scope) (k : string) : list Param := List.filter (fun p => in_scope s p && of_kind k p) t.
Definition ListBlankByKind (t : list Param) (s : Scope) (k : string) : list Param := map blank (ListByKind t s k).
Definition GetByName (t : list Param) (s : Scope) (c n : string) : res Param :=
  match find_first (named s c n) t with Some p => Ok p | None => Err ErrNotFound end.
(** [UNIQUE (scope_kind, scope_id, collection, name)] and the kinds a scope
    may have. *)
Definition scope_of (p : Param) : Scope := MkScope (p_ScopeKind p) (p_ScopeID p).
Definition scope_kinds : list string := ["org"; "env"; "server"; "tier"; "stack_pr"; "org_pr"].
Definition p_create (p : Param) (t : list Param) : res (list Param) :=
  if negb (contains scope_kinds (p_ScopeKind p)) then Err (New "CHECK constraint failed: params")
  else if is_ok (GetByName t (scope_of p) (p_Collection p) (p_Name p)) then Err already_exists else r_create p t.

(** ** The leaf *)

Definition List_ (t : list Param) (s : Scope) (secrets : bool) : list Param :=
  if secrets then ListByScope t s else ListByKind t s ParamKind.
Definition Masked (t : list Param) (s : Scope) : list Param := ListByKind t s ParamKind ++ ListBlankByKind t s SecretKind.
Definition value_key (p : Param) : string := p_Collection p +:+ "." +:+ p_Name p.
Definition value_of (p : Param) : Value := MkValue (p_Value p) (String.eqb (p_Kind p) SecretKind).
Definition Values (t : list Param) (s : Scope) (secrets : bool) : gmap string Value :=
  fold_left (fun out p => <[value_key p := value_of p]> out) (List_ t s secrets) ∅.

Definition rule : string := "Use letters, digits and _ in a %s, and start with a letter or _, like %s.".
Definition Check_ (e : Entry) : option error :=
  errors_join (
    (if String.eqb (e_Collection e) "" then [Invalidf "collection" "Give the group a name." []]
     else if ValidName (e_Collection e) then [] else [Invalidf "collection" rule [AStr "group name"; AStr (Suggest (e_Collection e))]]) ++
    (if String.eqb (e_Name e) "" then [Invalidf "name" "Give the variable a name." []]
     else if ValidName (e_Name e) then [] else [Invalidf "name" rule [AStr "name"; AStr (Suggest (e_Name e))]]) ++
    (if negb (String.eqb (e_Kind e) ParamKind) && negb (String.eqb (e_Kind e) SecretKind)
     then [Invalidf "type" "type must be param or secret" []] else [])).

(** The first loop of [Merge]: every entry against the rows, nothing written. *)
Fixpoint plan_writes (t : list Param) (s : Scope) (es : list Entry) : res (list (Entry * option Param)) :=
  match es with
  | [] => Ok []
  | e :: es =>
      match Check_ e with
      | Some err => Err err
      | None =>
          match GetByName t s (e_Collection e) (e_Name e) with
          | Err err => if is_not_found err then ws <-? plan_writes t s es ;; Ok ((e, None) :: ws) else Err err
          | Ok old =>
              if of_kind SecretKind old && String.eqb (e_Kind e) ParamKind then
                Err (Conflictf "%s.%s is a secret; a secret is never turned back into a param. Delete it and create a param."
                       [AStr (e_Collection e); AStr (e_Name e)])
              else ws <-? plan_writes t s es ;; Ok ((e, Some old) :: ws)
          end
      end
  end.

Definition declared (e : Entry) : bool := String.eqb (e_Kind e) SecretKind && String.eqb (e_Value e) "".
Definition new_row (id : string) (now : Z) (s : Scope) (e : Entry) : Param :=
  MkParam id (sc_Kind s) (sc_ID s) (e_Collection e) (e_Name e) (e_Kind e) (e_Value e) now now.
Definition merged_row (now : Z) (e : Entry) (p : Param) : Param :=
  MkParam (p_ID p) (p_ScopeKind p) (p_ScopeID p) (p_Collection p) (p_Name p) (e_Kind e)
    (if declared e then p_Value p else e_Value e) (p_CreatedAt p) now.

(** The second loop, with the id each create draws; a write that fails leaves
    the ones before it. *)
Definition write_one (now : Z) (s : Scope) (id : string) (w : Entry * option Param) (t : list Param) : res (list Param) :=
  match w with
  | (e, None) => if declared e then Ok t else p_create (new_row id now s e) t
  | (e, Some p) => r_update (merged_row now e p) t
  end.
Fixpoint write_all (now : Z) (s : Scope) (ws : list (string * (Entry * option Param))) (t : list Param) : list Param * option error :=
  match ws with
  | [] => (t, None)
  | (id, w) :: ws => match write_one now s id w t with Err err => (t, Some err) | Ok t => write_all now s ws t end
  end.
Definition Merge (ids : list string) (now : Z) (s : Scope) (es : list Entry) (t : list Param) : list Param * option error :=
  match plan_writes t s es with
  | Err err => (t, Some err)
  | Ok ws => write_all now s (zip ids ws) t
  end.
Definition Set_ (id : string) (now : Z) (s : Scope) (e : Entry) (t : list Param) : list Param * option error := Merge [id] now s [e] t.
Definition Delete (s : Scope) (c n : string) (t : list Param) : res (list Param) :=
  p <-? GetByName t s c n ;; r_delete (p_ID p) t.

(** [Generate]: the bytes the source draws, as far as it needs them. *)
Definition charset : string := "abcdefghijklmnopqrstuvwxyzABCDEFGHIJKLMNOPQRSTUVWXYZ0123456789".
Fixpoint Generate (n : nat) (bytes : list Z) : string :=
  match n, bytes with
  | S k, b :: bytes =>
      if b <? 248 then String (default "a"%char (String.get (Z.to_nat (b mod 62)) charset)) (Generate k bytes) else Generate n bytes
  | _, _ => ""
  end.

(** ** The table as a map *)

Definition pkey (p : Param) : string * string * string * string := (p_ScopeKind p, p_ScopeID p, p_Collection p, p_Name p).
Definition body (p : Param) : string * string := (p_Kind p, p_Value p).
Definition ekey (s : Scope) (e : Entry) : string * string * string * string := (sc_Kind s, sc_ID s, e_Collection e, e_Name e).
Definition abs (t : list Param) : gmap (string * string * string * string) (string * string) := list_to_map (map (fun p => (pkey p, body p)) t).

(** What an entry makes of what is stored. *)
Definition after (e : Entry) (o : option (string * string)) : option (string * string) :=
  match o with
  | None => if declared e then None else Some (e_Kind e, e_Value e)
  | Some (_, v) => Some (e_Kind e, if declared e then v else e_Value e)
  end.
Definition merge_map (s : Scope) (es : list Entry) (m : gmap (string * string * string * string) (string * string)) :=
  fold_left (fun m e => partial_alter (after e) (ekey s e) m) es m.

Definition row_ok (p : Param) : Prop := ValidName (p_Collection p) = true /\ ValidName (p_Name p) = true /\ p_Kind p ∈ [ParamKind; SecretKind].
Record params_ok (t : list Param) : Prop := {
  po_rows : rows_ok t; po_keys : NoDup (map pkey t); po_ok : Forall row_ok t }.

Lemma named_spec s c n p : named s c n p = true <-> pkey p = (sc_Kind s, sc_ID s, c, n).
Proof.
  unfold named, in_scope, pkey. rewrite !andb_true_iff, !String.eqb_eq. split; [intros [[[-> ->] ->] ->]; done|by intros [= -> -> -> ->]].
Qed.
Lemma GetByName_ok t s c n p : params_ok t -> GetByName t s c n = Ok p <-> p ∈ t /\ pkey p = (sc_Kind s, sc_ID s, c, n).
Proof.
  intros Hok. unfold GetByName. split.
  - destruct (find_first _ t) as [q|] eqn:E; [|done]. intros <-%Ok_inj. apply find_first_Some in E as [Hq Hn]. split; [done|by apply named_spec].
  - intros [Hp Hk]. destruct (find_first _ t) as [q|] eqn:E.
    + apply find_first_Some in E as [Hq Hn%named_spec]. f_equal. apply (nodup_key pkey t); [by apply po_keys|done|done|congruence].
    + apply find_first_None in E. pose proof (proj1 (Forall_forall _ _) E p Hp) as Hf.
      pose proof (proj2 (named_spec s c n p) Hk) as Ht. cbv beta in Hf. congruence.
Qed.
Lemma GetByName_err t s c n e : GetByName t s c n = Err e -> e = ErrNotFound /\ (sc_Kind s, sc_ID s, c, n) ∉ map pkey t.
Proof.
  unfold GetByName. destruct (find_first _ t) as [q|] eqn:E; [done|]. intros [= <-]. split; [done|].
  intros (p & Ek & Hp)%list_elem_of_fmap. apply find_first_None in E. pose proof (proj1 (Forall_forall _ _) E p Hp) as Hf.
  pose proof (proj2 (named_spec s c n p) (eq_sym Ek)) as Ht. cbv beta in Hf. congruence.
Qed.

Lemma abs_lookup t k b : NoDup (map pkey t) -> abs t !! k = Some b <-> exists p, p ∈ t /\ pkey p = k /\ body p = b.
Proof.
  intros Hn. unfold abs. rewrite <-elem_of_list_to_map by (rewrite map_map; exact Hn). rewrite list_elem_of_fmap. split.
  - intros (p & [= -> ->] & Hp). by exists p.
  - intros (p & Hp & <- & <-). by exists p.
Qed.
Lemma abs_none t k : k ∉ map pkey t -> abs t !! k = None.
Proof. intros Hk. apply not_elem_of_list_to_map. by rewrite map_map. Qed.
Lemma abs_get t s c n : params_ok t -> abs t !! (sc_Kind s, sc_ID s, c, n) = match GetByName t s c n with Ok p => Some (body p) | Err _ => None end.
Proof.
  intros Hok. destruct (GetByName t s c n) as [p|e] eqn:E.
  - apply GetByName_ok in E as [Hp Hk]; [|done]. apply abs_lookup; [by apply po_keys|]. by exists p.
  - apply GetByName_err in E as [_ E]. by apply abs_none.
Qed.

(** ** One write *)

Lemma created_ok t p t' : params_ok t -> row_ok p -> p_create p t = Ok t' ->
  params_ok t' /\ abs t' = <[pkey p := body p]> (abs t) /\ (pkey p ∉ map pkey t) /\ t' = t ++ [p].
Proof.
  intros Hok Hp. unfold p_create. destruct (negb _); [done|]. destruct (GetByName t _ _ _) as [q|e] eqn:E; cbn [is_ok]; [done|].
  apply GetByName_err in E as [_ Hk]. cbn [scope_of sc_Kind sc_ID] in Hk. change (pkey p ∉ map pkey t) in Hk. intros Ec.
  pose proof (r_create_rows _ _ _ Ec (po_rows _ Hok)) as Hr. apply r_create_ok in Ec as [-> _]. split_and!; [|clear Hr|done|done].
  - destruct Hok as [_ Hn Hf]. constructor; [done| |by apply Forall_app_2; [|by constructor]].
    rewrite map_app. apply NoDup_app. split_and!; [done| |apply NoDup_singleton]. intros k Hk1 ->%list_elem_of_singleton. done.
  - unfold abs. rewrite map_app, list_to_map_app. apply map_eq. intros k. cbn [map]. destruct (decide (k = pkey p)) as [->|Hne].
    + rewrite lookup_insert_eq, lookup_union_r; [cbn; by rewrite lookup_insert_eq|by apply abs_none].
    + rewrite lookup_insert_ne by done. rewrite lookup_union_l; [done|]. cbn. by rewrite lookup_insert_ne.
Qed.
Lemma updated_ok t p q t' : params_ok t -> p ∈ t -> p_ID q = p_ID p -> pkey q = pkey p -> row_ok q -> r_update q t = Ok t' ->
  params_ok t' /\ abs t' = <[pkey p := body q]> (abs t) /\ map p_ID t' = map p_ID t.
Proof.
  intros Hok Hp Hid Hk Hq E. pose proof (r_update_ids _ _ _ E) as Hids. pose proof (r_update_rows _ _ _ E (po_rows _ Hok)) as Hr.
  assert (q ∈ t' /\ map pkey t' = map pkey t) as [Hin Hkeys].
  { split; [apply (elem_of_r_update _ _ _ q E); left; split; [done|]; apply list_elem_of_fmap; by exists p|].
    unfold r_update in E. destruct (is_ok _); [|done]. apply Ok_inj in E. subst t'. rewrite map_map. apply map_ext_in. intros x Hx%list_elem_of_In.
    destruct (String.eqb_spec (row_id x) (row_id q)) as [Ex|]; [|done]. rewrite Hk. f_equal.
    apply (nodup_key p_ID t); [by apply po_rows|done|done|]. change (p_ID x = p_ID q) in Ex. congruence. }
  destruct Hok as [Hro Hn Hf]. split_and!; [|apply map_eq; intros k|done].
  - constructor; [done|by rewrite Hkeys|]. apply Forall_forall. intros x Hx. apply (elem_of_r_update _ _ _ x E) in Hx as [[-> _]|[Hx _]]; [done|].
    by apply (proj1 (Forall_forall _ _) Hf).
  - assert (NoDup (map pkey t')) as Hn' by (by rewrite Hkeys). apply option_eq. intros b. rewrite abs_lookup by done. rewrite lookup_insert_Some.
    rewrite abs_lookup by done. split.
    + intros (x & Hx & <- & <-). apply (elem_of_r_update _ _ _ x E) in Hx as [[-> _]|[Hx Hne]]; [by left|right].
      split; [|by exists x]. intros Ek. apply Hne. change (p_ID x = p_ID q). rewrite Hid. f_equal. by apply (nodup_key pkey t).
    + intros [[<- <-]|[Hne (x & Hx & <- & <-)]]; [by exists q|]. exists x. split; [|done]. apply (elem_of_r_update _ _ _ x E). right. split; [done|].
      intros Ex. apply Hne. f_equal. symmetry. apply (nodup_key p_ID t); [by apply po_rows; constructor|done|done|]. change (p_ID x = p_ID q) in Ex. congruence.
Qed.

(** ** Merge *)

Lemma join_three (a b c : list error) : errors_join (a ++ b ++ c) = None <-> a = [] /\ b = [] /\ c = [].
Proof. destruct a, b, c; cbn; split; try done; by intros (H1 & H2 & H3). Qed.
Lemma Check_ok e : Check_ e = None <-> ValidName (e_Collection e) = true /\ ValidName (e_Name e) = true /\ e_Kind e ∈ [ParamKind; SecretKind].
Proof.
  unfold Check_. assert (forall x f g, (if String.eqb x "" then [f] else if ValidName x then [] else [g]) = [] :> list error <-> ValidName x = true) as Hn.
  { intros x f g. destruct (String.eqb_spec x "") as [->|]; [split; [done|intros H; by vm_compute in H]|]. by destruct (ValidName x). }
  assert ((if negb (String.eqb (e_Kind e) ParamKind) && negb (String.eqb (e_Kind e) SecretKind) then [Invalidf "type" "type must be param or secret" []] else []) = []
    <-> e_Kind e ∈ [ParamKind; SecretKind]) as Hk.
  { rewrite !elem_of_cons, elem_of_nil. destruct (String.eqb_spec (e_Kind e) ParamKind), (String.eqb_spec (e_Kind e) SecretKind); cbn [negb andb]; split; try done; try tauto. }
  by rewrite join_three, !Hn, Hk.
Qed.

(** What the first loop let through. *)
Definition planned (t : list Param) (s : Scope) (w : Entry * option Param) : Prop :=
  Check_ w.1 = None /\ match w.2 with
  | None => ekey s w.1 ∉ map pkey t
  | Some p => p ∈ t /\ pkey p = ekey s w.1 /\ (p_Kind p = SecretKind -> e_Kind w.1 = SecretKind)
  end.
Lemma plan_ok t s es ws : params_ok t -> plan_writes t s es = Ok ws -> map fst ws = es /\ Forall (planned t s) ws.
Proof.
  intros Hok. revert ws. induction es as [|e es IH]; intros ws; cbn [plan_writes]; [intros [= <-]; by split|].
  destruct (Check_ e) eqn:Ec; [done|]. destruct (GetByName t s (e_Collection e) (e_Name e)) as [old|err] eqn:E.
  - apply GetByName_ok in E as [Hp Hk]; [|done]. destruct (of_kind SecretKind old && _) eqn:Es; [done|].
    destruct (plan_writes t s es) as [ws'|]; [|done]. intros [= <-]. destruct (IH ws' eq_refl) as [<- Hf]. split; [done|]. constructor; [|done].
    split; [done|]. split_and!; [done|done|]. cbn [fst snd]. intros Hold. apply Check_ok in Ec as (_ & _ & Hkind).
    rewrite !elem_of_cons, elem_of_nil in Hkind. unfold of_kind in Es. rewrite Hold in Es. cbn [String.eqb andb] in Es.
    destruct Hkind as [Hkind|[Hkind|[]]]; [|done]. by rewrite Hkind in Es.
  - destruct (is_not_found err); [|done]. apply GetByName_err in E as [_ Hk]. destruct (plan_writes t s es) as [ws'|]; [|done]. intros [= <-].
    destruct (IH ws' eq_refl) as [<- Hf]. split; [done|]. by constructor.
Qed.

Lemma planned_later t t' s w : planned t s w -> (forall p, p ∈ t -> pkey p = ekey s w.1 -> p ∈ t') -> (ekey s w.1 ∈ map pkey t' -> ekey s w.1 ∈ map pkey t) -> planned t' s w.
Proof. intros [Hc Hp] H1 H2. split; [done|]. destruct (w.2) as [p|]; [|by auto]. destruct Hp as (Hp & Hk & Hs). split_and!; [by apply H1|done|done]. Qed.

Record wrote (s : Scope) (e : Entry) (id : string) (t t1 : list Param) : Prop := {
  wr_ok : params_ok t1;
  wr_abs : abs t1 = partial_alter (after e) (ekey s e) (abs t);
  wr_rows p : p ∈ t -> pkey p <> ekey s e -> p ∈ t1;
  wr_keys k : k <> ekey s e -> k ∈ map pkey t1 -> k ∈ map pkey t;
  wr_ids i : i <> id -> i ∉ map p_ID t -> i ∉ map p_ID t1 }.

Lemma merged_wrote now s e id p t : params_ok t -> planned t s (e, Some p) -> exists t1, r_update (merged_row now e p) t = Ok t1 /\ wrote s e id t t1.
Proof.
  intros Hok (Hc & Hp & Hk & Hkind). cbn [fst snd] in *. destruct (r_update (merged_row now e p) t) as [t1|err] eqn:E.
  2: { unfold r_update in E. rewrite (proj2 (r_get_is t _)) in E; [done|]. apply list_elem_of_fmap. by exists p. }
  destruct (updated_ok t p (merged_row now e p) t1) as (H1 & H2 & H3); [done..| |done|].
  { destruct (proj1 (Forall_forall _ _) (po_ok _ Hok) p Hp) as (? & ? & _). apply Check_ok in Hc as (_ & _ & H3). by split_and!. }
  exists t1. split; [done|]. constructor; [done| | | |by intros i _; rewrite H3].
  - rewrite H2, Hk. apply map_eq. intros k. destruct (decide (k = ekey s e)) as [->|Hne]; [|by rewrite lookup_insert_ne, lookup_partial_alter_ne].
    rewrite lookup_insert_eq, lookup_partial_alter_eq. rewrite (proj2 (abs_lookup t _ (body p) (po_keys _ Hok))); [done|by exists p].
  - intros q Hq Hne. apply (elem_of_r_update _ _ _ q E). right. split; [done|]. intros Ei. apply Hne. rewrite <-Hk. f_equal.
    by apply (nodup_key p_ID t); [apply po_rows|..].
  - intros k Hne (q & -> & Hq)%list_elem_of_fmap. apply (elem_of_r_update _ _ _ q E) in Hq as [[-> _]|[Hq _]]; [by destruct Hne|].
    apply list_elem_of_fmap. by exists q.
Qed.
Lemma created_wrote now s e id t : params_ok t -> contains scope_kinds (sc_Kind s) = true -> planned t s (e, None) -> id ∉ map p_ID t -> declared e = false ->
  exists t1, p_create (new_row id now s e) t = Ok t1 /\ wrote s e id t t1.
Proof.
  intros Hok Hs [Hc Hp] Hid Ed. cbn [fst snd] in *. destruct (p_create (new_row id now s e) t) as [t1|err] eqn:E.
  2: { unfold p_create in E. cbn [new_row p_ScopeKind scope_of p_ScopeID p_Collection p_Name] in E. rewrite Hs in E. cbn [negb] in E.
    destruct (GetByName t _ _ _) as [q|x] eqn:Eg; cbn [is_ok] in E; [apply GetByName_ok in Eg as [Hq Hk]; [|done]; destruct Hp; apply list_elem_of_fmap; by exists q|].
    unfold r_create in E. destruct (is_ok _) eqn:Ei; [|done]. by apply r_get_is in Ei. }
  destruct (created_ok t (new_row id now s e) t1) as (H1 & H2 & _ & ->); [done|by apply Check_ok in Hc|done|].
  exists (t ++ [new_row id now s e]). split; [done|]. constructor; [done| | | |].
  - rewrite H2. change (pkey (new_row id now s e)) with (ekey s e). apply map_eq. intros k.
    destruct (decide (k = ekey s e)) as [->|Hne]; [|by rewrite lookup_insert_ne, lookup_partial_alter_ne].
    rewrite lookup_insert_eq, lookup_partial_alter_eq, (abs_none t) by done. cbn. by rewrite Ed.
  - intros q Hq _. apply elem_of_app. by left.
  - intros k Hne. rewrite map_app. intros [Hk|Hk%list_elem_of_singleton]%elem_of_app; done.
  - intros i Hi Hn. rewrite map_app. intros [Hk|Hk%list_elem_of_singleton]%elem_of_app; done.
Qed.
Lemma write_one_ok now s id w t : params_ok t -> contains scope_kinds (sc_Kind s) = true -> planned t s w -> id ∉ map p_ID t ->
  exists t1, write_one now s id w t = Ok t1 /\ wrote s w.1 id t t1.
Proof.
  intros Hok Hs Hp Hid. destruct w as [e [p|]]; cbn [write_one fst]; [by apply merged_wrote|].
  destruct (declared e) eqn:Ed; [|by apply created_wrote]. exists t. split; [done|]. destruct Hp as [_ Hp]. cbn [fst snd] in Hp.
  constructor; [done| |by intros|by intros|by intros]. apply map_eq. intros k. destruct (decide (k = ekey s e)) as [->|Hne]; [|by rewrite lookup_partial_alter_ne].
  rewrite lookup_partial_alter_eq, (abs_none t) by done. cbn. by rewrite Ed.
Qed.

Lemma write_all_ok now s ws ids t : params_ok t -> contains scope_kinds (sc_Kind s) = true -> Forall (planned t s) ws -> NoDup (map (fun w => ekey s w.1) ws) ->
  NoDup ids -> (forall id, id ∈ ids -> id ∉ map p_ID t) -> (length ws <= length ids)%nat ->
  exists t', write_all now s (zip ids ws) t = (t', None) /\ params_ok t' /\ abs t' = merge_map s (map fst ws) (abs t).
Proof.
  intros Hok Hs. revert ids t Hok. induction ws as [|w ws IH]; intros ids t Hok Hf Hn Hid Hfresh Hlen.
  { exists t. destruct ids; by split_and!. }
  destruct ids as [|id ids]; [cbn in Hlen; lia|]. apply Forall_cons in Hf as [Hp Hf]. cbn [map] in Hn. apply NoDup_cons in Hn as [Hnk Hn].
  apply NoDup_cons in Hid as [Hnid Hid]. cbn [zip zip_with write_all]. destruct (write_one_ok now s id w t) as (t1 & -> & [H1 H2 H3 H4 H5]); [done..|apply Hfresh; left|].
  destruct (IH ids t1) as (t' & E & Hok' & Ha); [done| |done|done| |cbn in Hlen; lia|].
  - apply Forall_forall. intros v Hv. assert (ekey s v.1 <> ekey s w.1) as Hne.
    { intros Ek. apply Hnk. rewrite <-Ek. apply list_elem_of_fmap. by exists v. }
    apply (planned_later t); [by apply (proj1 (Forall_forall _ _) Hf)|intros p Hpt Hpk; apply H3; [done|congruence]|by apply H4].
  - intros i Hi. apply H5; [by intros ->|]. apply Hfresh. by right.
  - exists t'. split_and!; [done|done|]. by rewrite Ha, H2.
Qed.

Lemma merge_out s es m k : k ∉ map (ekey s) es -> merge_map s es m !! k = m !! k.
Proof.
  revert m. induction es as [|e es IH]; intros m Hk; [done|]. cbn [map] in Hk. apply not_elem_of_cons in Hk as [Hne Hk].
  unfold merge_map in *. cbn [fold_left]. rewrite IH by done. by rewrite lookup_partial_alter_ne.
Qed.
Lemma merge_in s es m e : NoDup (map (ekey s) es) -> e ∈ es -> merge_map s es m !! ekey s e = after e (m !! ekey s e).
Proof.
  revert m. induction es as [|x es IH]; intros m Hn He; [by apply not_elem_of_nil in He|]. cbn [map] in Hn. apply NoDup_cons in Hn as [Hx Hn].
  change (merge_map s (x :: es) m) with (merge_map s es (partial_alter (after x) (ekey s x) m)). apply elem_of_cons in He as [->|He].
  - rewrite merge_out by done. apply lookup_partial_alter_eq.
  - rewrite IH by done. f_equal. apply lookup_partial_alter_ne. intros Ek. apply Hx. rewrite Ek. apply list_elem_of_fmap. by exists e.
Qed.

(** C15. Merging entries is a merge of maps.  On a table whose keys are keys,
    with ids no row has, either an entry is refused and nothing is written, or
    every entry is: each key of the scope gets its entry's kind and value, a
    secret sent without one keeps what is stored or stays unset, no other key
    moves, and the table's keys stay keys.  A stored secret is refused as a
    param. *)
Theorem Merge_refines ids now s es t : params_ok t -> contains scope_kinds (sc_Kind s) = true -> NoDup (map (ekey s) es) ->
  NoDup ids -> (forall id, id ∈ ids -> id ∉ map p_ID t) -> (length es <= length ids)%nat ->
  match Merge ids now s es t with
  | (t', None) => params_ok t' /\ abs t' = merge_map s es (abs t) /\
      (forall e v, e ∈ es -> abs t !! ekey s e = Some (SecretKind, v) -> exists v', abs t' !! ekey s e = Some (SecretKind, v') /\ (e_Value e = "" -> v' = v))
  | (t', Some err) => t' = t /\ plan_writes t s es = Err err
  end.
Proof.
  intros Hok Hs Hn Hid Hfresh Hlen. unfold Merge. destruct (plan_writes t s es) as [ws|err] eqn:Ep; [|done].
  destruct (plan_ok _ _ _ _ Hok Ep) as [<- Hf]. rewrite map_map in Hn. rewrite length_map in Hlen.
  destruct (write_all_ok now s ws ids t Hok Hs Hf Hn Hid Hfresh Hlen) as (t' & -> & Hok' & Ha). split_and!; [done|done|].
  intros e v He Hv. rewrite Ha, merge_in by (by rewrite ?map_map). rewrite Hv. apply list_elem_of_fmap in He as ([e' old] & -> & Hw). cbn [fst] in *.
  destruct (proj1 (Forall_forall _ _) Hf _ Hw) as [_ Hp]. cbn [fst snd] in Hp. destruct old as [p|].
  - destruct Hp as (Hp & Hk & Hkind). rewrite <-Hk in Hv. apply abs_lookup in Hv as (q & Hq & Hqk & Hqb); [|by apply po_keys].
    assert (q = p) as -> by (by apply (nodup_key pkey t); [apply po_keys|..]). injection Hqb as Hqk' Hqv. cbn [after]. rewrite (Hkind Hqk').
    eexists. split; [reflexivity|]. intros Hv. unfold declared. by rewrite (Hkind Hqk'), Hv.
  - by rewrite abs_none in Hv.
Qed.
#[local] Abbreviation ex_scope := (MkScope "env" "e1").
#[local] Abbreviation ex_table := [MkParam "p1" "env" "e1" "app" "KEY" SecretKind "s3cret" 1 1].
#[local] Abbreviation ex_entries := [MkEntry "app" "KEY" SecretKind ""; MkEntry "app" "MODE" ParamKind "fast"].
Lemma ex_table_ok : params_ok ex_table.
Proof.
  constructor; [by apply NoDup_singleton|by apply NoDup_singleton|]. constructor; [|constructor].
  split_and!; [vm_compute; reflexivity|vm_compute; reflexivity|by right; left].
Qed.
Lemma Merge_refines_witness : exists t', Merge ["p2"; "p3"] 5 ex_scope ex_entries ex_table = (t', None) /\
  abs t' !! ("env", "e1", "app", "KEY") = Some (SecretKind, "s3cret") /\ params_ok t' /\ abs t' = merge_map ex_scope ex_entries (abs ex_table).
Proof.
  pose proof (Merge_refines ["p2"; "p3"] 5 ex_scope ex_entries ex_table) as H.
  destruct (Merge _ _ _ _ _) as [t' [err|]] eqn:E; [exfalso; vm_compute in E; discriminate E|]. exists t'. split; [done|].
  destruct H as (H1 & H2 & H3).
  - exact ex_table_ok.
  - vm_compute. reflexivity.
  - apply (bool_decide_eq_true_1 _). vm_compute. reflexivity.
  - apply (bool_decide_eq_true_1 _). vm_compute. reflexivity.
  - intros id Hid Hp. apply list_elem_of_singleton in Hp as ->. rewrite !elem_of_cons, elem_of_nil in Hid. destruct Hid as [|[|[]]]; done.
  - cbn. lia.
  - split_and!; [|done|done]. destruct (H3 (MkEntry "app" "KEY" SecretKind "") "s3cret") as (v & Hv & Hv'); [left|vm_compute; reflexivity|].
    change (abs t' !! ("env", "e1", "app", "KEY") = Some (SecretKind, v)) in Hv. by rewrite Hv, Hv'.
Defined.

(** ** What a snapshot reads *)

Lemma value_key_inj p q : row_ok p -> row_ok q -> value_key p = value_key q -> p_Collection p = p_Collection q /\ p_Name p = p_Name q.
Proof.
  intros (H1 & H2 & _) (H3 & H4 & _) E. assert ([p_Collection p; p_Name p] = [p_Collection q; p_Name q]) as Hl; [|by injection Hl as -> ->].
  assert (forall x, ValidName x = true -> has_byte "." x = false) as Hd by (intros x Hx; by eapply all_bytes_no; [apply name_words|]).
  apply (join_inj "."); [done|done|by repeat constructor; apply Hd|by repeat constructor; apply Hd|done].
Qed.
Lemma List_in t s secrets p : p ∈ List_ t s secrets <-> p ∈ t /\ in_scope s p = true /\ (secrets = true \/ p_Kind p = ParamKind).
Proof.
  unfold List_, ListByScope, ListByKind. destruct secrets; rewrite elem_of_filterb; [tauto|].
  unfold of_kind. rewrite andb_true_iff, String.eqb_eq. intuition congruence.
Qed.
Lemma fold_insert_lookup {A B} (key : A -> string) (val : A -> B) l (m : gmap string B) k :
  (forall x y, x ∈ l -> y ∈ l -> key x = key y -> val x = val y) ->
  fold_left (fun out x => <[key x := val x]> out) l m !! k = match find_first (fun x => String.eqb (key x) k) l with Some x => Some (val x) | None => m !! k end.
Proof.
  revert m. induction l as [|x l IH]; intros m Hinj; [done|]. cbn [fold_left find_first]. rewrite IH by (intros y z Hy Hz; apply Hinj; by right).
  destruct (find_first _ l) as [y|] eqn:E.
  - apply find_first_Some in E as [Hy Ey%String.eqb_eq]. destruct (String.eqb_spec (key x) k) as [Ex|]; [|done].
    f_equal. apply Hinj; [by right|by left|congruence].
  - destruct (String.eqb_spec (key x) k) as [<-|Hne]; [by rewrite lookup_insert_eq|by rewrite lookup_insert_ne].
Qed.

(** What a resolver is given of a scope is its rows, each under its own
    name: no two entries share a key, since no name has a dot, and a reader
    without the permission gets no secret at all. *)
Theorem Values_rows t s secrets k v : params_ok t ->
  Values t s secrets !! k = Some v <-> exists p, p ∈ t /\ in_scope s p = true /\ (secrets = true \/ p_Kind p = ParamKind) /\ value_key p = k /\ value_of p = v.
Proof.
  intros Hok. unfold Values. assert (forall x y, x ∈ List_ t s secrets -> y ∈ List_ t s secrets -> value_key x = value_key y -> x = y) as Hinj.
  { intros x y (Hx & Hsx & _)%List_in (Hy & Hsy & _)%List_in Ek. apply (nodup_key pkey t); [by apply po_keys|done|done|].
    destruct (value_key_inj x y) as [E1 E2]; [by apply (proj1 (Forall_forall _ _) (po_ok _ Hok))..|done|].
    unfold in_scope in *. apply andb_true_iff in Hsx as [Hx1%String.eqb_eq Hx2%String.eqb_eq]. apply andb_true_iff in Hsy as [Hy1%String.eqb_eq Hy2%String.eqb_eq].
    unfold pkey. congruence. }
  rewrite fold_insert_lookup by (intros x y Hx Hy Ek; by rewrite (Hinj x y Hx Hy Ek)). split.
  - destruct (find_first _ _) as [p|] eqn:E; [|done]. apply find_first_Some in E as [Hp Ek%String.eqb_eq]. intros [= <-].
    apply List_in in Hp as (Hp & Hs & Hk). by exists p.
  - intros (p & Hp & Hs & Hk & <- & <-). assert (p ∈ List_ t s secrets) as Hl by (by apply List_in).
    destruct (find_first _ _) as [q|] eqn:E; [apply find_first_Some in E as [Hq Ek%String.eqb_eq]; by rewrite (Hinj q p)|].
    apply find_first_None in E. pose proof (proj1 (Forall_forall _ _) E p Hl) as Hf. cbv beta in Hf. by rewrite String.eqb_refl in Hf.
Qed.
Lemma Values_rows_witness : Values ex_table ex_scope true !! "app.KEY" = Some (MkValue "s3cret" true) /\
  Values ex_table ex_scope false !! "app.KEY" = None.
Proof.
  split.
  - apply (proj2 (Values_rows ex_table ex_scope true "app.KEY" (MkValue "s3cret" true) ex_table_ok)).
    eexists. split; [by left|]. split_and!; [done|by left|done|done].
  - destruct (Values ex_table ex_scope false !! "app.KEY") as [v|] eqn:E; [exfalso|done].
    apply (proj1 (Values_rows ex_table ex_scope false "app.KEY" v ex_table_ok)) in E as (p & Hp & _ & [|Hk] & _); [done|].
    apply list_elem_of_singleton in Hp as ->. done.
Defined.

Lemma Delete_keeps t s c n t' : params_ok t -> Delete s c n t = Ok t' -> params_ok t' /\ abs t' = delete (sc_Kind s, sc_ID s, c, n) (abs t).
Proof.
  intros Hok. unfold Delete. destruct (GetByName t s c n) as [p|e] eqn:E; [|done]. apply GetByName_ok in E as [Hp Hk]; [|done]. intros Ed.
  pose proof (r_delete_rows _ _ _ Ed (po_rows _ Hok)) as Hr. pose proof (r_delete_ok _ _ _ Ed) as [_ Hd].
  assert (NoDup (map pkey t')) as Hn.
  { unfold r_delete in Ed. destruct (is_ok _); [|done]. apply Ok_inj in Ed. subst t'. apply filter_map_nodup, po_keys, Hok. }
  assert (params_ok t') as Hok'.
  { constructor; [done|done|]. apply Forall_forall. intros x Hx. apply Hd in Hx as [Hx _]. by apply (proj1 (Forall_forall _ _) (po_ok _ Hok)). }
  split; [done|]. apply map_eq. intros k. apply option_eq. intros b. rewrite abs_lookup by done. rewrite <-Hk, lookup_delete_Some, abs_lookup by apply Hok. split.
  - intros (x & Hx & <- & <-). apply Hd in Hx as [Hx Hne]. split; [|by exists x]. intros Ek. apply Hne. change (p_ID x = p_ID p). f_equal.
    apply (nodup_key pkey t); [by apply po_keys|done|done|done].
  - intros [Hne (x & Hx & <- & <-)]. exists x. split; [|done]. apply Hd. split; [done|]. intros Ei. apply Hne. f_equal. symmetry.
    apply (nodup_key p_ID t); [by apply po_rows|done|done|done].
Qed.
