(* ===== verification/Releases.v ===== *)
(** * Releases ([leaf/release/release.go], [store/releases.go])

    Numbered snapshots of what every tile of a stack runs.  The tables are the
    releases and their pins; a create is given the ids it draws, one for the
    release and one for each pin. *)
From S2P Require Import Prelude GoStrings Errs Regexp Slug Store Rows Refs ParamRows.

Definition ConfigSlug : string := "_config".
Record Release := MkRelease {
  rl_ID : string; rl_StackID : string; rl_Number : Z; rl_CreatedAt : Z; rl_CreatedBy : string; rl_Commit : string; rl_Message : string }.
Record ReleaseTile := MkReleaseTile {
  rt_ID : string; rt_ReleaseID : string; rt_Slug : string; rt_Repo : string; rt_Branch : string; rt_CommitSHA : string;
  rt_ImageID : option string; rt_Digest : string }.
Record Pin := MkPin { pn_Slug : string; pn_Repo : string; pn_Branch : string; pn_CommitSHA : string; pn_ImageID : option string; pn_Digest : string }.
(** The [images] table ([store/tiles.go]): what a pin's image id refers to. *)
Record Image := MkImage {
  im_ID : string; im_Ref : string; im_Digest : string; im_BuiltAt : option Z; im_LastDigest : string; im_LastTag : string;
  im_LastError : string; im_CheckedAt : option Z; im_CreatedAt : Z }.
#[export] Instance image_id : HasId Image := im_ID.
#[export] Instance release_id : HasId Release := rl_ID.
#[export] Instance release_tile_id : HasId ReleaseTile := rt_ID.
(** [stack_rows] are the ids of the stacks table, which a release refers to. *)
Record Tables := MkTables { releases : list Release; pinned : list ReleaseTile; images : list Image; stack_rows : list string }.

(** ** The tables *)

(** [UNIQUE (stack_id, number)] and [UNIQUE (release_id, slug)], and what the
    rows refer to; [Commit] is no column. *)
Definition stored (r : Release) : Release := MkRelease (rl_ID r) (rl_StackID r) (rl_Number r) (rl_CreatedAt r) (rl_CreatedBy r) "" (rl_Message r).
Definition same_number (r x : Release) : bool := String.eqb (rl_StackID x) (rl_StackID r) && (rl_Number x =? rl_Number r).
Definition foreign_key : error := New "FOREIGN KEY constraint failed".
Definition create_release (r : Release) (d : Tables) : res Tables :=
  if existsb (same_number r) (releases d) then Err already_exists
  else t <-? r_create (stored r) (releases d) ;;
       if contains (stack_rows d) (rl_StackID r) then Ok (MkTables t (pinned d) (images d) (stack_rows d)) else Err foreign_key.
Definition same_slug (r x : ReleaseTile) : bool := String.eqb (rt_ReleaseID x) (rt_ReleaseID r) && String.eqb (rt_Slug x) (rt_Slug r).
Definition image_known (d : Tables) (id : option string) : bool := match id with None => true | Some i => is_ok (r_get (images d) i) end.
Definition create_pin (r : ReleaseTile) (d : Tables) : res Tables :=
  if existsb (same_slug r) (pinned d) then Err already_exists
  else t <-? r_create r (pinned d) ;;
       if is_ok (r_get (releases d) (rt_ReleaseID r)) && image_known d (rt_ImageID r) then Ok (MkTables (releases d) t (images d) (stack_rows d)) else Err foreign_key.
Definition ListByStack (d : Tables) (stack : string) : list Release := List.filter (fun r => String.eqb (rl_StackID r) stack) (releases d).
Definition ListByRelease (d : Tables) (id : string) : list ReleaseTile := List.filter (fun r => String.eqb (rt_ReleaseID r) id) (pinned d).
Definition ConfigCommits (d : Tables) (ids : list string) : gmap string string :=
  fold_left (fun out r => <[rt_ReleaseID r := rt_CommitSHA r]> out)
    (List.filter (fun r => String.eqb (rt_Slug r) ConfigSlug && negb (String.eqb (rt_CommitSHA r) "") && contains ids (rt_ReleaseID r)) (pinned d)) ∅.
Definition ImageIDs (d : Tables) : list string := remove_dups (omap rt_ImageID (pinned d)).

(** ** Reads *)

Definition with_commit (c : gmap string string) (r : Release) : Release :=
  MkRelease (rl_ID r) (rl_StackID r) (rl_Number r) (rl_CreatedAt r) (rl_CreatedBy r) (default "" (c !! rl_ID r)) (rl_Message r).
Definition Get (d : Tables) (id : string) : res Release := r <-? r_get (releases d) id ;; Ok (with_commit (ConfigCommits d [rl_ID r]) r).
Definition GetByNumber (d : Tables) (stack : string) (n : Z) : res Release :=
  match find_first (fun r => String.eqb (rl_StackID r) stack && (rl_Number r =? n)) (releases d) with
  | Some r => Ok (with_commit (ConfigCommits d [rl_ID r]) r)
  | None => Err ErrNotFound
  end.
Definition newest_first (a b : Release) : bool := rl_Number b <=? rl_Number a.
Definition List_ (d : Tables) (stack : string) : list Release :=
  let rs := sort newest_first (ListByStack d stack) in map (with_commit (ConfigCommits d (map rl_ID rs))) rs.
Definition pin_of (r : ReleaseTile) : Pin := MkPin (rt_Slug r) (rt_Repo r) (rt_Branch r) (rt_CommitSHA r) (rt_ImageID r) (rt_Digest r).
Definition Pins (d : Tables) (id : string) : gmap string Pin :=
  fold_left (fun out r => <[rt_Slug r := pin_of r]> out) (ListByRelease d id) ∅.
Definition Digest (d : Tables) (id : option string) (slug : string) : string :=
  match id with None => "" | Some id => match Pins d id !! slug with Some p => pn_Digest p | None => "" end end.

(** ** Writes *)

(** [unicode.IsControl]. *)
Definition is_control (r : Z) : bool := (r <? 32) || ((127 <=? r) && (r <? 160)).
Definition message (msg : string) : string :=
  let msg := trim_space msg in
  let msg := match cut "010" msg with Some (l, _) => l | None => msg end in
  let msg := write_runes (List.filter (fun r => negb (is_control r)) (runes msg)) in
  let rs := runes (trim_space msg) in
  if (200 <? length rs)%nat then write_runes (take 200 rs) else msg.
Definition with_message (r : Release) (m : string) : Release :=
  MkRelease (rl_ID r) (rl_StackID r) (rl_Number r) (rl_CreatedAt r) (rl_CreatedBy r) (rl_Commit r) m.
Definition SetMessage (r : Release) (msg : string) (d : Tables) : res (Release * Tables) :=
  let m := message msg in
  if String.eqb m "" then Ok (r, d)
  else let r := with_message r (trim_space m) in t <-? r_update (stored r) (releases d) ;; Ok (r, MkTables t (pinned d) (images d) (stack_rows d)).

(** The checks of [Create], pin by pin. *)
Fixpoint check_pins (seen : list string) (ps : list Pin) : option error :=
  match ps with
  | [] => None
  | p :: ps =>
      if String.eqb (pn_Slug p) "" || contains seen (pn_Slug p) then Some (Invalidf "tiles" "every tile appears once, by slug (%q)" [AStr (pn_Slug p)])
      else if negb (String.eqb (pn_Digest p) "") && negb (has_prefix (pn_Digest p) "sha256:") then
        Some (Invalidf "digest" "%s: a release pins a sha256 digest, not %q" [AStr (pn_Slug p); AStr (pn_Digest p)])
      else check_pins (seen ++ [pn_Slug p]) ps
  end.
Definition max_number (rs : list Release) : Z := fold_left (fun n r => Z.max n (rl_Number r)) rs 0.
Definition row_of (id release : string) (p : Pin) : ReleaseTile :=
  MkReleaseTile id release (pn_Slug p) (pn_Repo p) (pn_Branch p) (pn_CommitSHA p) (pn_ImageID p) (pn_Digest p).
Fixpoint create_pins (release : string) (ps : list (string * Pin)) (d : Tables) : Tables * option error :=
  match ps with
  | [] => (d, None)
  | (id, p) :: ps => match create_pin (row_of id release p) d with Ok d => create_pins release ps d | Err e => (d, Some e) end
  end.
(** A create that fails half way leaves what it wrote; its callers run it in a
    transaction. *)
Definition Create (id : string) (ids : nat -> string) (now : Z) (stackID by_ : string) (pins : list Pin) (d : Tables) : Release * Tables * option error :=
  let none := MkRelease "" "" 0 0 "" "" "" in
  match check_pins [] pins with
  | Some e => (none, d, Some e)
  | None =>
      let r := MkRelease id stackID (max_number (ListByStack d stackID) + 1) now by_ "" "" in
      match create_release r d with
      | Err e => (r, d, Some e)
      | Ok d => let '(d, e) := create_pins id (imap (fun i p => (ids i, p)) pins) d in (r, d, e)
      end
  end.
Definition by_slug (a b : Pin) : bool := String.leb (pn_Slug a) (pn_Slug b).
Definition swapped (base : gmap string Pin) (swap : list Pin) : gmap string Pin := fold_left (fun m p => <[pn_Slug p := p]> m) swap base.
Definition Derive (id : string) (ids : nat -> string) (now : Z) (stackID baseID by_ : string) (swap : list Pin) (d : Tables) : Release * Tables * option error :=
  let base := if String.eqb baseID "" then ∅ else Pins d baseID in
  Create id ids now stackID by_ (sort by_slug (map snd (map_to_list (swapped base swap)))) d.

(** ** The difference of two snapshots *)

Record Change := MkChange { ch_Slug : string; ch_Kind : string }.
Definition ptr (s : option string) : string := default "" s.
Definition differs (o p : Pin) : bool :=
  negb (String.eqb (pn_CommitSHA o) (pn_CommitSHA p)) || negb (String.eqb (pn_Digest o) (pn_Digest p)) || negb (String.eqb (ptr (pn_ImageID o)) (ptr (pn_ImageID p))).
Definition change_to (from : gmap string Pin) (sp : string * Pin) : list Change :=
  match from !! sp.1 with
  | None => [MkChange sp.1 "added"]
  | Some o => if differs o sp.2 then [MkChange sp.1 "changed"] else []
  end.
Definition change_from (to : gmap string Pin) (sp : string * Pin) : list Change :=
  match to !! sp.1 with Some _ => [] | None => [MkChange sp.1 "removed"] end.
Definition by_change (a b : Change) : bool := String.leb (ch_Slug a) (ch_Slug b).
Definition Diff (from to : gmap string Pin) : list Change :=
  sort by_change (flat_map (change_to from) (map_to_list to) ++ flat_map (change_from to) (map_to_list from)).

(** ** Snapshots do not change *)

Definition rkey (r : Release) : string * Z := (rl_StackID r, rl_Number r).
Definition pkey_ (r : ReleaseTile) : string * string := (rt_ReleaseID r, rt_Slug r).
Record tables_ok (d : Tables) : Prop := {
  to_positive : forall r, r ∈ releases d -> 0 < rl_Number r; to_ids : rows_ok (releases d); to_pins : rows_ok (pinned d);
  to_numbers : NoDup (map rkey (releases d)); to_slugs : NoDup (map pkey_ (pinned d));
  to_refs : forall p, p ∈ pinned d -> rt_ReleaseID p ∈ map rl_ID (releases d);
  to_images : rows_ok (images d); to_image_refs : NoDup (map im_Ref (images d));
  to_pinned : forall p i, p ∈ pinned d -> rt_ImageID p = Some i -> i ∈ map im_ID (images d);
  to_stacks : forall r, r ∈ releases d -> rl_StackID r ∈ stack_rows d }.

Lemma Pins_lookup d id s : Pins d id !! s = match find_first (fun r => String.eqb (rt_Slug r) s) (ListByRelease d id) with Some r => Some (pin_of r) | None => None end \/ ~ NoDup (map pkey_ (pinned d)).
Proof.
  destruct (decide (NoDup (map pkey_ (pinned d)))) as [Hn|]; [left|by right]. unfold Pins. rewrite fold_insert_lookup; [by destruct (find_first _ _)|].
  intros x y [Hx Ex%String.eqb_eq]%elem_of_filterb [Hy Ey%String.eqb_eq]%elem_of_filterb E. f_equal. apply (nodup_key pkey_ (pinned d)); [done..|]. unfold pkey_. congruence.
Qed.
Lemma Pins_some d id s p : NoDup (map pkey_ (pinned d)) -> Pins d id !! s = Some p <-> exists r, r ∈ pinned d /\ rt_ReleaseID r = id /\ rt_Slug r = s /\ pin_of r = p.
Proof.
  intros Hn. destruct (Pins_lookup d id s) as [->|]; [|done]. split.
  - destruct (find_first _ _) as [r|] eqn:E; [|done]. intros [= <-]. apply find_first_Some in E as [[Hr Er%String.eqb_eq]%elem_of_filterb Es%String.eqb_eq]. by exists r.
  - intros (r & Hr & <- & <- & <-). destruct (find_first _ _) as [x|] eqn:E.
    + apply find_first_Some in E as [[Hx Ex%String.eqb_eq]%elem_of_filterb Es%String.eqb_eq]. do 2 f_equal. apply (nodup_key pkey_ (pinned d)); [done..|]. unfold pkey_. congruence.
    + apply find_first_None in E. pose proof (proj1 (Forall_forall _ _) E r) as Hf. cbv beta in Hf. rewrite String.eqb_refl in Hf. discriminate Hf. apply elem_of_filterb. by rewrite String.eqb_refl.
Qed.

Lemma create_release_ok r d d' : tables_ok d -> 0 < rl_Number r -> create_release r d = Ok d' ->
  tables_ok d' /\ d' = MkTables (releases d ++ [stored r]) (pinned d) (images d) (stack_rows d) /\ rl_ID r ∉ map rl_ID (releases d).
Proof.
  intros [H0 H1 H2 H3 H4 H5 H6 H7 H8 H9] Hpos. unfold create_release. destruct (existsb _ _) eqn:E; [done|]. destruct (r_create (stored r) (releases d)) as [t|] eqn:Ec; [|done].
  destruct (contains_spec (stack_rows d) (rl_StackID r)) as [Hst|]; [|done]. intros <-%Ok_inj.
  pose proof (r_create_rows _ _ _ Ec H1) as Hr. apply r_create_ok in Ec as [-> Hid]. split_and!; [|done|done]. constructor; cbn [releases pinned images]; try done.
  - intros x [Hx|Hx%list_elem_of_singleton]%elem_of_app; [by apply H0|by subst x].
  - rewrite map_app. apply NoDup_app. split_and!; [done| |apply NoDup_singleton]. intros k Hk ->%list_elem_of_singleton. apply list_elem_of_fmap in Hk as (x & Ek & Hx).
    pose proof (existsb_false _ _ x E Hx) as Hf. unfold same_number in Hf. injection Ek as E1 E2. cbn in E1, E2. by rewrite <-E1, <-E2, String.eqb_refl, Z.eqb_refl in Hf.
  - intros p Hp. rewrite map_app. apply elem_of_app. left. by apply H5.
  - intros x [Hx|Hx%list_elem_of_singleton]%elem_of_app; [by apply H9|by subst x].
Qed.
Lemma create_pin_ok r d d' : tables_ok d -> create_pin r d = Ok d' -> tables_ok d' /\ d' = MkTables (releases d) (pinned d ++ [r]) (images d) (stack_rows d).
Proof.
  intros [H0 H1 H2 H3 H4 H5 H6 H7 H8 H9]. unfold create_pin. destruct (existsb _ _) eqn:E; [done|]. destruct (r_create r (pinned d)) as [t|] eqn:Ec; [|done]. destruct (is_ok (r_get (releases d) _)) eqn:Ef; [|done]. destruct (image_known _ _) eqn:Eimg; [|done]. cbn [andb]. intros <-%Ok_inj.
  pose proof (r_create_rows _ _ _ Ec H2) as Hr. apply r_create_ok in Ec as [-> Hid]. split; [|done]. constructor; cbn [releases pinned images]; try done.
  - rewrite map_app. apply NoDup_app. split_and!; [done| |apply NoDup_singleton]. intros k Hk ->%list_elem_of_singleton. apply list_elem_of_fmap in Hk as (x & Ek & Hx).
    pose proof (existsb_false _ _ x E Hx) as Hf. unfold same_slug in Hf. injection Ek as E1 E2. by rewrite <-E1, <-E2, !String.eqb_refl in Hf.
  - intros p [Hp|Hp]%elem_of_app; [by apply H5|]. apply list_elem_of_singleton in Hp as ->. by apply r_get_is.
  - intros p i [Hp|Hp]%elem_of_app; [by apply H8|]. apply list_elem_of_singleton in Hp as ->. intros Ei. unfold image_known in Eimg. rewrite Ei in Eimg. by apply r_get_is.
Qed.
Lemma create_pins_ok release ps d d' : tables_ok d -> create_pins release ps d = (d', None) ->
  tables_ok d' /\ d' = MkTables (releases d) (pinned d ++ map (fun ip => row_of ip.1 release ip.2) ps) (images d) (stack_rows d).
Proof.
  revert d. induction ps as [|[i p] ps IH]; intros d Hd; cbn [create_pins map]; [intros [= <-]; split; [done|]; rewrite app_nil_r; by destruct d|].
  destruct (create_pin _ d) as [d1|] eqn:E; [|done]. intros Hc. destruct (create_pin_ok _ _ _ Hd E) as [H1 ->]. destruct (IH _ H1 Hc) as [H2 ->]. split; [done|]. cbn [releases pinned fst snd]. by rewrite <-app_assoc.
Qed.
Lemma max_number_ge rs r : r ∈ rs -> rl_Number r <= max_number rs.
Proof.
  unfold max_number. assert (forall rs n, n <= fold_left (fun n r => Z.max n (rl_Number r)) rs n) as Hge by (induction rs0 as [|x xs IH]; intros n; cbn; [lia|]; specialize (IH (Z.max n (rl_Number x))); lia).
  generalize 0. induction rs as [|x rs IH]; intros n; [by intros ?%elem_of_nil|]. cbn. intros [->|Hr]%elem_of_cons; [|by apply IH]. specialize (Hge rs (Z.max n (rl_Number x))). lia.
Qed.

Lemma max_number_nonneg rs : 0 <= max_number rs.
Proof. unfold max_number. assert (forall n, 0 <= n -> 0 <= fold_left (fun n r => Z.max n (rl_Number r)) rs n) as H by (induction rs as [|x xs IH]; intros n Hn; cbn; [done|apply IH; lia]). by apply H. Qed.

(** What a pin may be. *)
Definition pin_ok (p : Pin) : Prop := pn_Slug p <> "" /\ (pn_Digest p = "" \/ has_prefix (pn_Digest p) "sha256:" = true).
Lemma check_pins_spec seen ps : check_pins seen ps = None <-> Forall pin_ok ps /\ NoDup (map pn_Slug ps) /\ forall p, p ∈ ps -> pn_Slug p ∉ seen.
Proof.
  revert seen. induction ps as [|p ps IH]; intros seen; cbn [check_pins map].
  - split; [intros _; split_and!; [constructor|constructor|by intros p ?%elem_of_nil]|done].
  - rewrite Forall_cons, NoDup_cons. unfold pin_ok at 1. setoid_rewrite elem_of_cons.
    destruct (String.eqb_spec (pn_Slug p) "") as [E|E]; cbn [orb]; [split; [done|intros ((([] & _) & _) & _); done]|].
    destruct (contains_spec seen (pn_Slug p)) as [Hs|Hs]; [split; [done|]; intros (_ & _ & H); destruct (H p (or_introl eq_refl)); done|].
    destruct (String.eqb_spec (pn_Digest p) "") as [Ed|Ed]; cbn [negb andb]; [|destruct (has_prefix (pn_Digest p) "sha256:"); cbn [negb]; [|split; [done|intros (((_ & [?|?]) & _) & _); done]]];
    (rewrite IH; setoid_rewrite elem_of_app; setoid_rewrite list_elem_of_singleton; split; [intros (H1 & H2 & H3)|intros ((_ & H1) & (H2 & H3) & H4)]);
    (split_and!; [|done|]) || split_and!; try done; try tauto;
    try (intros (q & Eq & Hq)%list_elem_of_fmap; by destruct (H3 q Hq); right);
    try (intros q [->|Hq]; [done|]; intros Hin; destruct (H3 q Hq); by left);
    try (intros q Hq [Hin|Eq]; [by apply (H4 q (or_intror Hq))|]; apply H2; rewrite <-Eq; apply list_elem_of_fmap; by exists q).
Qed.

Lemma swapped_slug base swap s p : (forall k q, base !! k = Some q -> pn_Slug q = k) -> swapped base swap !! s = Some p -> pn_Slug p = s.
Proof.
  unfold swapped. revert base. induction swap as [|q swap IH]; intros base Hb; [by apply Hb|]. cbn [fold_left]. apply IH.
  intros k x. rewrite lookup_insert_Some. intros [[<- <-]|[_ H]]; [done|by apply Hb].
Qed.
Lemma swapped_lookup base swap s : swapped base swap !! s = match find_first (fun p => String.eqb (pn_Slug p) s) (rev swap) with Some p => Some p | None => base !! s end.
Proof.
  unfold swapped. induction swap as [|p swap IH] using rev_ind; [done|]. rewrite fold_left_app, rev_app_distr. cbn [fold_left rev app find_first]. destruct (String.eqb_spec (pn_Slug p) s) as [<-|Hne].
  - by rewrite lookup_insert_eq.
  - by rewrite lookup_insert_ne.
Qed.
Lemma Pins_slug d id s p : NoDup (map pkey_ (pinned d)) -> Pins d id !! s = Some p -> pn_Slug p = s.
Proof. intros Hn. rewrite Pins_some by done. by intros (r & _ & _ & <- & <-). Qed.
Definition base_pins (d : Tables) (baseID : string) : gmap string Pin := if String.eqb baseID "" then ∅ else Pins d baseID.
Lemma derived_slug d base swap s p : tables_ok d -> swapped (base_pins d base) swap !! s = Some p -> pn_Slug p = s.
Proof.
  intros Hd. apply swapped_slug. intros k q. unfold base_pins. destruct (String.eqb base ""); [by rewrite lookup_empty|]. by apply Pins_slug, to_slugs.
Qed.
Definition derived (d : Tables) (base : string) (swap : list Pin) : list Pin := sort by_slug (map snd (map_to_list (swapped (base_pins d base) swap))).
Lemma elem_of_derived d base swap p : tables_ok d -> p ∈ derived d base swap <-> swapped (base_pins d base) swap !! pn_Slug p = Some p.
Proof.
  intros Hd. unfold derived. rewrite elem_of_sort, list_elem_of_fmap. split.
  - intros ([s q] & -> & Hin%elem_of_map_to_list). cbn. by rewrite (derived_slug d base swap s q).
  - intros H. exists (pn_Slug p, p). split; [done|]. by apply elem_of_map_to_list.
Qed.
Lemma derived_nodup d base swap : tables_ok d -> NoDup (map pn_Slug (derived d base swap)).
Proof.
  intros Hd. unfold derived. rewrite (sort_perm by_slug). rewrite map_map.
  assert (map (fun x : string * Pin => pn_Slug x.2) (map_to_list (swapped (base_pins d base) swap)) = map fst (map_to_list (swapped (base_pins d base) swap))) as ->; [|apply NoDup_fst_map_to_list].
  apply map_ext_in. intros [s q] Hin%list_elem_of_In%elem_of_map_to_list. by apply (derived_slug d base swap).
Qed.

Lemma create_pins_succeed release ps d : tables_ok d -> release ∈ map rl_ID (releases d) -> NoDup (map (fun ip => pn_Slug ip.2) ps) -> NoDup (map fst ps) ->
  (forall ip, ip ∈ ps -> (ip.1 ∉ map rt_ID (pinned d)) /\ ((release, pn_Slug ip.2) ∉ map pkey_ (pinned d)) /\ image_known d (pn_ImageID ip.2) = true) -> exists d', create_pins release ps d = (d', None).
Proof.
  revert d. induction ps as [|[i p] ps IH]; intros d Hd Hr Hs Hi Hf; [by exists d|]. cbn [create_pins map fst snd] in *. apply NoDup_cons in Hs as [Hs1 Hs2], Hi as [Hi1 Hi2].
  destruct (Hf (i, p) ltac:(by left)) as (Hf1 & Hf2 & Hf3). cbn [fst snd] in *. assert (create_pin (row_of i release p) d = Ok (MkTables (releases d) (pinned d ++ [row_of i release p]) (images d) (stack_rows d))) as E.
  { unfold create_pin. destruct (existsb _ _) eqn:Ex.
    - exfalso. apply existsb_exists in Ex as (x & Hx%list_elem_of_In & [E1%String.eqb_eq E2%String.eqb_eq]%andb_true_iff). apply Hf2. apply list_elem_of_fmap. exists x. split; [|done]. unfold pkey_. cbn in E1, E2. congruence.
    - change (rt_ReleaseID (row_of i release p)) with release. assert (is_ok (r_get (releases d) release) = true) as -> by (by apply r_get_is). change (rt_ImageID (row_of i release p)) with (pn_ImageID p). rewrite Hf3. cbn [andb].
      unfold r_create. destruct (is_ok _) eqn:Eo; [|done]. apply r_get_is in Eo. by destruct Hf1. }
  rewrite E. destruct (create_pin_ok _ _ _ Hd E) as [H1 _]. apply IH; try done. intros [i' p'] Hin. destruct (Hf (i', p') ltac:(by right)) as (Hg1 & Hg2 & Hg3). cbn [fst snd pinned] in *. rewrite !map_app, !elem_of_app. split; [|split; [|exact Hg3]].
  - intros [?|E']; [done|]. apply list_elem_of_singleton in E'. cbn in E'. subst i'. apply Hi1. apply list_elem_of_fmap. by exists (i, p').
  - intros [?|E']; [done|]. apply list_elem_of_singleton in E'. unfold pkey_ in E'. cbn in E'. injection E' as E'. apply Hs1. apply list_elem_of_fmap. by exists (i', p').
Qed.

Lemma imap_snd {A} (ids : nat -> string) (l : list A) : map snd (imap (fun i p => (ids i, p)) l) = l.
Proof. revert ids. induction l as [|x l IH]; intros ids; [done|]. cbn. f_equal. apply (IH (ids ∘ S)). Qed.
Lemma imap_ids {A} (ids : nat -> string) (l : list A) : (forall i j, ids i = ids j -> i = j) -> NoDup (imap (fun i _ => ids i) l).
Proof.
  intros Hinj. apply NoDup_alt. intros i j x. rewrite !list_lookup_imap. destruct (l !! i), (l !! j); try done. cbn. intros [= <-] [= E]. by apply Hinj.
Qed.
Lemma fresh_release r d : rl_ID r ∉ map rl_ID (releases d) -> rl_Number r = max_number (ListByStack d (rl_StackID r)) + 1 -> rl_StackID r ∈ stack_rows d -> stored r = r ->
  create_release r d = Ok (MkTables (releases d ++ [r]) (pinned d) (images d) (stack_rows d)).
Proof.
  intros Hid Hn Hst Hs. unfold create_release. destruct (existsb _ _) eqn:E.
  - exfalso. apply existsb_exists in E as (x & Hx%list_elem_of_In & [E1%String.eqb_eq E2%Z.eqb_eq]%andb_true_iff).
    pose proof (max_number_ge (ListByStack d (rl_StackID r)) x) as Hm. enough (rl_Number x <= max_number (ListByStack d (rl_StackID r))) by lia. apply Hm. apply elem_of_filterb. by rewrite E1, String.eqb_refl.
  - rewrite Hs. unfold r_create. destruct (is_ok _) eqn:Eo; [apply r_get_is in Eo; by destruct Hid|]. by destruct (contains_spec (stack_rows d) (rl_StackID r)).
Qed.

(** C23. A release is a snapshot.  One derived from another has that one's pins but
    for the tiles swapped, takes a number above every other of its stack, and
    is written whole; every release made before stays what it was.  Deriving
    fails only where the stack is gone, a pin is none (no slug, or a digest
    that is no sha256) or names an image that is gone, or an id is taken. *)
Theorem releases_are_snapshots id ids now stack base by_ swap d : tables_ok d ->
  let pins := swapped (if String.eqb base "" then ∅ else Pins d base) swap in
  (forall r d', Derive id ids now stack base by_ swap d = (r, d', None) ->
     tables_ok d' /\ rl_ID r = id /\ rl_StackID r = stack /\ (forall x, x ∈ releases d -> rl_StackID x = stack -> rl_Number x < rl_Number r) /\
     (forall s, Pins d' id !! s = match find_first (fun p => String.eqb (pn_Slug p) s) (rev swap) with
                                  | Some p => Some p
                                  | None => if String.eqb base "" then None else Pins d base !! s
                                  end) /\ (forall s p, pins !! s = Some p -> pn_Slug p = s /\ pin_ok p) /\
     releases d' = releases d ++ [r] /\ (forall id0, id0 <> id -> Pins d' id0 = Pins d id0)) /\
  ((forall s p, pins !! s = Some p -> pin_ok p /\ image_known d (pn_ImageID p) = true) -> stack ∈ stack_rows d -> id ∉ map rl_ID (releases d) -> (forall i, ids i ∉ map rt_ID (pinned d)) -> (forall i j, ids i = ids j -> i = j) ->
     exists r d', Derive id ids now stack base by_ swap d = (r, d', None)).
Proof.
  intros Hd pins. unfold Derive, Create. fold (base_pins d base) in pins |- *. fold (derived d base swap). set (ps := derived d base swap).
  set (r0 := MkRelease id stack (max_number (ListByStack d stack) + 1) now by_ "" "").
  assert (0 < rl_Number r0) as Hpos by (pose proof (max_number_nonneg (ListByStack d stack)); cbn; lia).
  assert (forall p, p ∈ ps <-> pins !! pn_Slug p = Some p) as Hps by (intros p; by apply elem_of_derived).
  assert (forall s p, pins !! s = Some p -> pn_Slug p = s) as Hsl by (intros s p; by apply derived_slug).
  assert (map snd (imap (fun i p => (ids i, p)) ps) = ps) as Hsnd by apply imap_snd.
  split.
  - intros r d'. destruct (check_pins [] ps) eqn:Ec; [done|]. apply check_pins_spec in Ec as (Hok & _ & _).
    destruct (create_release r0 d) as [d1|] eqn:E1; [|done]. destruct (create_pins id _ d1) as [d2 [e|]] eqn:E2; [done|]. intros [= <- <-].
    destruct (create_release_ok r0 d d1 Hd Hpos E1) as (Hd1 & -> & Hfresh). destruct (create_pins_ok _ _ _ _ Hd1 E2) as [Hd2 E]. rewrite E in *. clear E. cbn [releases pinned] in *.
    split_and!; try done.
    + intros x Hx Hst. pose proof (max_number_ge (ListByStack d stack) x) as Hm. cbn. enough (rl_Number x <= max_number (ListByStack d stack)) by lia. apply Hm. apply elem_of_filterb. by rewrite Hst, String.eqb_refl.
    + intros s. assert (pins !! s = match find_first (fun p => String.eqb (pn_Slug p) s) (rev swap) with Some p => Some p | None => if String.eqb base "" then None else Pins d base !! s end) as <-.
      { unfold pins, base_pins. rewrite swapped_lookup. destruct (find_first _ _); [done|]. by destruct (String.eqb base ""). }
      apply option_eq. intros p. rewrite Pins_some by apply Hd2. cbn [pinned]. setoid_rewrite elem_of_app. split.
      * intros (x & [Hx|Hx] & Ex & Es & Ep); [destruct Hfresh; change (rl_ID r0) with id; rewrite <-Ex; by apply (to_refs d Hd)|]. apply list_elem_of_fmap in Hx as ([i q] & -> & Hx). cbn in Es, Ep.
        assert (q ∈ ps) as Hq by (rewrite <-Hsnd; apply list_elem_of_fmap; by exists (i, q)). apply Hps in Hq. rewrite <-Es, <-Ep. by destruct q.
      * intros Hp. assert (p ∈ ps) as Hin by (apply Hps; by rewrite (Hsl s p Hp)). rewrite <-Hsnd in Hin. apply list_elem_of_fmap in Hin as ([i q] & -> & Hin).
        exists (row_of i id q). split_and!; [right; apply list_elem_of_fmap; by exists (i, q)|done|by apply (Hsl s q)|by destruct q].
    + intros s p Hp. split; [by apply (Hsl s p)|]. assert (p ∈ ps) as Hin by (apply Hps; by rewrite (Hsl s p)). by apply (proj1 (Forall_forall _ _) Hok).
    + intros id0 Hne. apply map_eq. intros s. apply option_eq. intros p. rewrite !Pins_some by (apply Hd || apply Hd2). cbn [pinned]. setoid_rewrite elem_of_app. split.
      * intros (x & [Hx|Hx] & Ex & Es & Ep); [by exists x|]. apply list_elem_of_fmap in Hx as ([i q] & -> & Hx). by destruct Hne.
      * intros (x & Hx & H). exists x. split; [by left|done].
  - intros Hok Hstk Hid Hids Hinj. assert (check_pins [] ps = None) as ->.
    { apply check_pins_spec. split_and!; [|by apply derived_nodup|by intros p _ ?%elem_of_nil]. apply Forall_forall. intros p Hp%Hps. by apply (Hok (pn_Slug p) p). }
    assert (create_release r0 d = Ok (MkTables (releases d ++ [r0]) (pinned d) (images d) (stack_rows d))) as E1 by (by apply fresh_release).
    rewrite E1. destruct (create_release_ok r0 d _ Hd Hpos E1) as (Hd1 & _ & _).
    destruct (create_pins_succeed id (imap (fun i p => (ids i, p)) ps) _ Hd1) as [d2 E2]; [| | |intros ip Hip|rewrite E2; by eexists _, _].
    + cbn [releases]. rewrite map_app. apply elem_of_app. right. by left.
    + rewrite <-(map_map snd pn_Slug), Hsnd. by apply derived_nodup.
    + rewrite fmap_imap. exact (imap_ids ids ps Hinj).
    + apply list_elem_of_lookup in Hip as [n Hn]. rewrite list_lookup_imap in Hn. destruct (ps !! n) as [p|] eqn:Ep; [|done]. injection Hn as <-. cbn [fst snd pinned]. split; [by apply Hids|]. split; [|by apply (Hok (pn_Slug p)), Hps, (list_elem_of_lookup_2 _ n)].
      intros (x & Ex & Hx)%list_elem_of_fmap. injection Ex as Ei _. apply Hid. rewrite Ei. by apply (to_refs d Hd).
Qed.
Fixpoint tally (n : nat) : string := match n with O => "" | S n => "i" +:+ tally n end.
Lemma tally_inj i j : tally i = tally j -> i = j.
Proof. revert j. induction i as [|i IH]; intros [|j]; try done. intros [= E]. f_equal. by apply IH. Qed.
Definition first_tables : Tables := MkTables [] [] [MkImage "img1" "acme/web:c1" "sha256:1" (Some 1) "" "" "" None 1] ["s1"].
Lemma first_tables_ok : tables_ok first_tables.
Proof. constructor; [by intros r ?%elem_of_nil|apply NoDup_nil_2|apply NoDup_nil_2|apply NoDup_nil_2|apply NoDup_nil_2|by intros p ?%elem_of_nil|apply NoDup_singleton|apply NoDup_singleton|by intros p i ?%elem_of_nil|by intros r ?%elem_of_nil]. Qed.
Definition pin1 : Pin := MkPin "web" "acme/web" "main" "c1" (Some "img1") "".
Lemma releases_are_snapshots_witness : exists r d', Derive "rel1" tally 7 "s1" "" "user:u1" [pin1] first_tables = (r, d', None) /\ rl_Number r = 1 /\ Pins d' "rel1" !! "web" = Some pin1.
Proof.
  assert (exists r d', Derive "rel1" tally 7 "s1" "" "user:u1" [pin1] first_tables = (r, d', None)) as (r & d' & E).
  { apply (releases_are_snapshots "rel1" tally 7 "s1" "" "user:u1" [pin1] first_tables first_tables_ok).
    - intros s p. cbn. rewrite lookup_insert_Some, lookup_empty. intros [[_ <-]|[_ ?]]; [|done]. split; [split; [done|by left]|done].
    - by left.
    - intros H. by apply elem_of_nil in H.
    - intros i H. by apply elem_of_nil in H.
    - apply tally_inj. }
  exists r, d'. split; [exact E|].
  assert (rl_Number r = 1) as Hn by (revert E; vm_compute; by intros [= <- <-]).
  destruct (proj1 (releases_are_snapshots "rel1" tally 7 "s1" "" "user:u1" [pin1] first_tables first_tables_ok) r d' E) as (_ & _ & _ & _ & Hp & _).
  split; [exact Hn|]. rewrite Hp. reflexivity.
Defined.

(** ** What a diff says *)

Lemma elem_of_change_to from s p c : c ∈ change_to from (s, p) <->
  ch_Slug c = s /\ ((ch_Kind c = "added" /\ from !! s = None) \/ (ch_Kind c = "changed" /\ exists o, from !! s = Some o /\ differs o p = true)).
Proof.
  unfold change_to. cbn [fst snd]. destruct (from !! s) as [o|]; [destruct (differs o p) eqn:Ed|]; rewrite ?list_elem_of_singleton, ?elem_of_nil.
  - split; [intros ->; split; [done|]; right; split; [done|]; by exists o|]. intros [Es [[_ ?]|[Ek _]]]; [done|]. destruct c; cbn in *; congruence.
  - split; [done|]. intros [_ [[_ ?]|[_ (x & [= <-] & ?)]]]; congruence.
  - split; [intros ->; split; [done|]; by left|]. intros [Es [[Ek _]|[_ (x & ? & _)]]]; [|done]. destruct c; cbn in *; congruence.
Qed.
Lemma elem_of_change_from to s p c : c ∈ change_from to (s, p) <-> ch_Slug c = s /\ ch_Kind c = "removed" /\ to !! s = None.
Proof.
  unfold change_from. cbn [fst snd]. destruct (to !! s); rewrite ?list_elem_of_singleton, ?elem_of_nil.
  - split; [done|]. by intros (_ & _ & ?).
  - split; [by intros ->|]. intros (Es & Ek & _). destruct c; cbn in *; congruence.
Qed.
Lemma elem_of_flat_map_map {A} (f : string * A -> list Change) (m : gmap string A) c : c ∈ flat_map f (map_to_list m) <-> exists s p, m !! s = Some p /\ c ∈ f (s, p).
Proof.
  rewrite list_elem_of_In, in_flat_map. split.
  - intros ([s p] & Hin%list_elem_of_In%elem_of_map_to_list & Hc%list_elem_of_In). by exists s, p.
  - intros (s & p & Hm & Hc). exists (s, p). split; apply list_elem_of_In; [by apply elem_of_map_to_list|done].
Qed.

(** [Diff] names a tile added, removed or changed exactly when the snapshots say
    so, and no other. *)
Theorem Diff_spec from to s k : MkChange s k ∈ Diff from to <->
  match from !! s, to !! s with
  | None, Some _ => k = "added"
  | Some _, None => k = "removed"
  | Some o, Some p => k = "changed" /\ differs o p = true
  | None, None => False
  end.
Proof.
  unfold Diff. rewrite elem_of_sort, elem_of_app, !elem_of_flat_map_map. setoid_rewrite elem_of_change_to. setoid_rewrite elem_of_change_from. cbn [ch_Slug ch_Kind]. split.
  - intros [(s' & p & Hp & <- & [[-> Hf]|[-> (o & Hf & Hd)]])|(s' & p & Hp & <- & -> & Ht)].
    + by rewrite Hf, Hp.
    + by rewrite Hf, Hp.
    + by rewrite Hp, Ht.
  - destruct (from !! s) as [o|] eqn:Ef, (to !! s) as [p|] eqn:Et; try done.
    + intros [-> Hd]. left. exists s, p. split; [done|]. split; [done|]. right. split; [done|]. by exists o.
    + intros ->. right. by exists s, o.
    + intros ->. left. exists s, p. split; [done|]. split; [done|]. by left.
Qed.
Theorem Diff_nil from to : Diff from to = [] <-> forall s, match from !! s, to !! s with Some o, Some p => differs o p = false | None, None => True | _, _ => False end.
Proof.
  split.
  - intros E s. pose proof (Diff_spec from to s) as H. rewrite E in H. setoid_rewrite elem_of_nil in H. destruct (from !! s) as [o|], (to !! s) as [p|]; try done.
    + destruct (differs o p); [|done]. by destruct (proj2 (H "changed")).
    + by apply (H "removed").
    + by apply (H "added").
  - intros H. apply elem_of_nil_inv. intros [s k] Hc%Diff_spec. specialize (H s). destruct (from !! s), (to !! s); try done. destruct Hc as [_ Hc]. congruence.
Qed.
