(* ===== verification/Networks.v ===== *)
(** * Networks ([docker/networks.go], [docker/node.go] under [service/internal/])

    Which /24 of the cluster pool a new network takes, which of its addresses
    Docker may hand out and which stackr pins for a tile, and the loop that
    offers blocks until Docker takes one.  [netip.Prefix.Overlaps] is here, in
    the words of the library. *)
From S2P Require Import Prelude GoStrings Errs Netip Mesh.

(** ** [netip.Prefix.Overlaps] *)

Definition POverlaps (p o : Prefix) : bool :=
  if negb (PrefixValid p) || negb (PrefixValid o) then false
  else if bool_decide (p = o) then true
  else if negb (Bool.eqb (Is4 (p_ip p)) (Is4 (p_ip o))) then false
  else
    let m := if p_bits p <? p_bits o then p_bits p else p_bits o in
    (m =? 0) || bool_decide (p_ip (Masked (MkPrefix (p_ip p) m)) = p_ip (Masked (MkPrefix (p_ip o) m))).

(** ** Blocks *)

Definition NetBits : Z := 24.
Definition rangeBits : Z := 16.
Definition u32 (x : Z) : Z := x mod 2 ^ 32.
(** The caller's range is a constant; on an invalid one the code panics. *)
Definition FirstFree (rng : Prefix) (used : list Prefix) : option Prefix :=
  if negb (Is4 (p_ip rng)) || (NetBits <? p_bits rng) then None
  else
    let rng := Masked rng in
    let base := bits_of (p_ip rng) in
    find_first (fun p => negb (existsb (POverlaps p) used))
      (map (fun i => PrefixFrom (A4 (u32 (base + u32 (Z.shiftl (u32 i) (32 - NetBits))))) NetBits) (seqZ 0 (Z.shiftl 1 (NetBits - p_bits rng)))).

(** What a new network must stay clear of: the subnets of each network, as
    Docker writes them, and the addresses of the host's interfaces with the
    ones of their masks ([None] where it is no IP network). *)
Definition iface_prefix (a : option (Addr * Z)) : list Prefix :=
  match a with
  | None => []
  | Some (ip, ones) =>
      let ip := Unmap ip in
      if Is4 ip && (rangeBits <=? ones) then [Masked (PrefixFrom ip ones)] else [PrefixFrom ip (BitLen ip)]
  end.
Definition usedSubnets (nets : list (list string)) (addrs : list (option (Addr * Z))) : list Prefix :=
  flat_map (fun n => flat_map (fun c => match ParsePrefix c with Some p => [Masked p] | None => [] end) n) nets ++ flat_map iface_prefix addrs.
Definition inPool (configs : list string) : bool :=
  existsb (fun c => match ParsePrefix c with Some p => Contains Supernet (p_ip p) | None => false end) configs.

(** ** The halves of a network *)

(** The code writes the first host bit in the address's bytes. *)
Definition DynamicRange (subnet : Prefix) : Prefix :=
  let p := Masked subnet in
  if 31 <=? p_bits p then p
  else
    let half := PrefixFrom (p_ip p) (p_bits p + 1) in
    PrefixFrom (A4 (Z.lor (bits_of (p_ip p)) (Z.shiftl 1 (31 - p_bits p)))) (p_bits half).
Fixpoint fnv_from (h : Z) (s : string) : Z :=
  match s with EmptyString => h | String c s => fnv_from (u32 (Z.lxor h (code c) * 16777619)) s end.
Definition fnv32 (s : string) : Z := fnv_from 2166136261 s.
Definition pick (base h n i : Z) : Addr := A4 (u32 (base + u32 (u32 (h + i) mod u32 (n - 2) + 2))).
Definition StaticAddr (subnet : Prefix) (key : string) (taken : Addr -> bool) : string :=
  let p := Masked subnet in
  if negb (Is4 (p_ip p)) || (29 <? p_bits p) then ""
  else
    let n := u32 (Z.shiftl 1 (32 - p_bits p - 1)) in
    match find_first (fun a => negb (taken a)) (map (pick (bits_of (p_ip p)) (fnv32 key) n) (seqZ 0 n)) with
    | Some a => addr_text a
    | None => ""
    end.

(** ** Making a network *)

Definition ErrNeedsSubnet : error := New "docker.ErrNeedsSubnet".
Definition ErrNoNode : error := New "docker: call has no node in its context".
Definition subnetTries : nat := 5.

(** What the code asks of the Docker of a node, over its state. *)
Record Networker (W : Type) := MkNetworker {
  ensure_network : string -> option Prefix -> W -> W * option error;
  used_subnets : W -> res (list Prefix) }.
Arguments ensure_network {W} _ _ _ _.
Arguments used_subnets {W} _ _.

Section Ensure.
Context {W : Type} (N : Networker W) (name : string) (known : list Prefix).
Context (reserve : list Prefix -> W -> W * res Prefix) (commit : option (Prefix -> W -> W * option error)).

Definition commit_block (p : Prefix) (w : W) : W * option error := match commit with Some f => f p w | None => (w, None) end.
(** The blocks offered one after the other; [taken] is the last refusal. *)
Fixpoint offer (tries : nat) (tried : list Prefix) (taken : option error) (w : W) : W * (option Prefix * option error) :=
  match tries with
  | O => (w, (None, taken))
  | S tries =>
      match used_subnets N w with
      | Err e => (w, (None, Some e))
      | Ok used =>
          let '(w, r) := reserve (used ++ known ++ tried) w in
          match r with
          | Err e => (w, (None, Some e))
          | Ok p =>
              let '(w, e) := commit_block p w in
              match e with
              | Some e => (w, (None, Some e))
              | None =>
                  let '(w, e) := ensure_network N name (Some p) w in
                  match e with
                  | Some e' => if is_sentinel "docker.ErrSubnetTaken" e' then offer tries (tried ++ [p]) e w else (w, (Some p, e))
                  | None => (w, (Some p, None))
                  end
              end
          end
      end
  end.
End Ensure.
(** [node] is the one the context names, [r] the reserver wired to it. *)
Definition EnsureReserved {W} (N : Networker W) (node : option string) (r : option (string -> list Prefix -> W -> W * res Prefix))
    (name : string) (known : list Prefix) (commit : option (Prefix -> W -> W * option error)) (w : W) : W * (option Prefix * option error) :=
  let '(w, e) := ensure_network N name None w in
  match e with
  | None => (w, (None, None))
  | Some e =>
      if negb (is_sentinel "docker.ErrNeedsSubnet" e) then (w, (None, Some e))
      else match node, r with
           | None, _ => (w, (None, Some ErrNoNode))
           | Some _, None => (w, (None, Some (New "docker: no subnet reserver wired")))
           | Some node, Some r => offer N name known (r node) commit subnetTries [] None w
           end
  end.

(** ** Overlap is a shared address *)


Lemma masked4_eq p : prefix4 p -> Masked p = MkPrefix (A4 (bits_of (p_ip p) / 2 ^ (32 - p_bits p) * 2 ^ (32 - p_bits p))) (p_bits p).
Proof.
  destruct p as [ip n]. intros [(x & Ex & Hx) Hn]. cbn [p_ip p_bits] in *. subst ip. unfold Masked, PrefixValid. cbn [p_ip p_bits BitLen bits_of].
  rewrite (proj2 (Z.leb_le 0 n)) by lia. cbn [bits_of]. rewrite Z.shiftl_mul_pow2 by lia. by rewrite Z.shiftr_div_pow2 by lia.
Qed.
Lemma div_coarser x y a b : 0 <= a <= b -> x / 2 ^ a = y / 2 ^ a -> x / 2 ^ b = y / 2 ^ b.
Proof. intros Hab E. replace b with (a + (b - a)) by lia. by rewrite Z.pow_add_r, <-!Z.div_div, E by lia. Qed.
Lemma mask_eq x y n : 0 <= n -> x / 2 ^ n = y / 2 ^ n -> Z.shiftl (Z.shiftr x n) n = Z.shiftl (Z.shiftr y n) n.
Proof. intros Hn E. by rewrite !Z.shiftr_div_pow2, E by lia. Qed.

(** Two prefixes the code finds apart have no address in common. *)
Lemma apart p q a : prefix4 p -> POverlaps p q = false -> Contains p a = true -> Contains q a = false.
Proof.
  intros Hp Ho Hpa. apply not_true_iff_false. intros Hqa. destruct p as [ip n], q as [iq m], Hp as [(x & Ex & Hx) Hn]. cbn [p_ip p_bits] in *. subst ip.
  assert (Is4 a = true) as H4 by (destruct a; [|done|]; unfold Contains in Hpa; cbn in Hpa; by rewrite ?andb_false_r in Hpa). destruct a as [|y|]; try done.
  assert (exists z, iq = A4 z /\ 0 <= m) as (z & -> & Hm).
  { unfold Contains, PrefixValid in Hqa. destruct iq as [|z|]; cbn in Hqa; rewrite ?andb_false_r in Hqa; try done. exists z. split; [done|]. bsimpl. lia. }
  rewrite contains_mod in Hpa by (done || lia). cbn [p_ip p_bits bits_of] in Hpa. apply Z.eqb_eq in Hpa.
  unfold POverlaps, PrefixValid in Ho. cbn [p_ip p_bits Is4] in Ho. rewrite (proj2 (Z.leb_le 0 n)), (proj2 (Z.leb_le 0 m)) in Ho by lia. cbn [negb orb Bool.eqb] in Ho.
  destruct (bool_decide _); [done|]. set (k := if n <? m then n else m) in *. assert (0 <= k <= n /\ k <= m) as [Hk1 Hk2] by (unfold k; destruct (Z.ltb_spec n m); lia).
  destruct (Z.eqb_spec k 0) as [|Hk0]; [done|]. cbn [orb] in Ho. apply bool_decide_eq_false in Ho. apply Ho. unfold Masked, PrefixValid. cbn [p_ip p_bits BitLen bits_of].
  rewrite (proj2 (Z.leb_le 0 k)) by lia. cbn [p_ip]. f_equal. apply mask_eq; [lia|]. trans (y / 2 ^ (32 - k)); [symmetry; apply (div_coarser _ _ (32 - n)); [lia|done]|].
  destruct (decide (m <= 32)) as [Hm32|Hm32].
  - rewrite contains_mod in Hqa by (done || lia). cbn [p_ip p_bits bits_of] in Hqa. apply Z.eqb_eq in Hqa. apply (div_coarser _ _ (32 - m)); [lia|done].
  - unfold Contains in Hqa. apply andb_true_iff in Hqa as [_ H%Z.eqb_eq]. cbn [p_ip p_bits BitLen bits_of] in H. unfold Z.shiftr in H.
    apply (proj1 (Z.shiftl_eq_0_iff (Z.lxor y z) (- (32 - m)) ltac:(lia))) in H. apply (proj1 (Z.lxor_eq_0_iff _ _)) in H. by rewrite H.
Qed.

(** ** The first free block *)

Definition block_at (rng : Prefix) (i : Z) : Prefix := MkPrefix (A4 (bits_of (p_ip (Masked rng)) + 256 * i)) 24.
Lemma base_facts rng : prefix4 rng -> p_bits rng <= 24 ->
  exists x k, p_ip rng = A4 x /\ 0 <= x < 2 ^ 32 /\ bits_of (p_ip (Masked rng)) = k * 2 ^ (32 - p_bits rng) /\ 0 <= k /\ k = x / 2 ^ (32 - p_bits rng) /\
    (k + 1) * 2 ^ (32 - p_bits rng) <= 2 ^ 32.
Proof.
  intros Hp Hb. pose proof Hp as [(x & Ex & Hx) Hn]. exists x, (x / 2 ^ (32 - p_bits rng)). rewrite masked4_eq by done. cbn [p_ip bits_of]. rewrite Ex. cbn [bits_of].
  pose proof (Z.pow_pos_nonneg 2 (32 - p_bits rng)) as Hpos. split_and!; try done; try lia; [apply Z.div_pos; lia|].
  replace (2 ^ 32) with (2 ^ p_bits rng * 2 ^ (32 - p_bits rng)) in Hx |- * by (rewrite <-Z.pow_add_r by lia; f_equal; lia).
  apply Z.mul_le_mono_nonneg_r; [lia|]. enough (x / 2 ^ (32 - p_bits rng) < 2 ^ p_bits rng) by lia. apply Z.div_lt_upper_bound; lia.
Qed.
Lemma blocks_eq rng : prefix4 rng -> p_bits rng <= 24 ->
  map (fun i => PrefixFrom (A4 (u32 (bits_of (p_ip (Masked rng)) + u32 (Z.shiftl (u32 i) (32 - NetBits))))) NetBits) (seqZ 0 (Z.shiftl 1 (NetBits - p_bits rng)))
  = map (block_at rng) (seqZ 0 (2 ^ (24 - p_bits rng))).
Proof.
  intros Hp Hb. destruct (base_facts rng Hp Hb) as (x & k & _ & _ & Ek & Hk & _ & Hle). pose proof Hp as [_ Hn]. unfold NetBits. rewrite Z.shiftl_1_l.
  apply map_ext_in. intros i Hi%list_elem_of_In%elem_of_seqZ. unfold block_at, PrefixFrom. cbn [no_zone IsValid BitLen andb]. cbn. f_equal. f_equal.
  assert (2 ^ (32 - p_bits rng) = 256 * 2 ^ (24 - p_bits rng)) as E2 by (replace (32 - p_bits rng) with (8 + (24 - p_bits rng)) by lia; by rewrite Z.pow_add_r by lia).
  assert (2 ^ (24 - p_bits rng) <= 2 ^ 24) by (apply Z.pow_le_mono_r; lia). unfold u32. rewrite (Z.mod_small i) by lia. rewrite Z.shiftl_mul_pow2 by lia. change (2 ^ 8) with 256.
  rewrite (Z.mod_small (i * 256)) by lia. rewrite Z.mod_small; [lia|]. rewrite Ek, E2. split; [nia|]. rewrite E2 in Hle. nia.
Qed.
Lemma block_at4 rng i : prefix4 rng -> p_bits rng <= 24 -> 0 <= i < 2 ^ (24 - p_bits rng) -> prefix4 (block_at rng i).
Proof.
  intros Hp Hb Hi. destruct (base_facts rng Hp Hb) as (x & k & _ & _ & Ek & Hk & _ & Hle). split; [|cbn; lia]. cbn [block_at p_ip]. eexists. split; [done|]. rewrite Ek.
  assert (2 ^ (32 - p_bits rng) = 256 * 2 ^ (24 - p_bits rng)) as E2 by (replace (32 - p_bits rng) with (8 + (24 - p_bits rng)) by lia; by rewrite Z.pow_add_r by (destruct Hp; lia)).
  rewrite E2 in *. nia.
Qed.
Lemma block_inside rng i a : prefix4 rng -> p_bits rng <= 24 -> 0 <= i < 2 ^ (24 - p_bits rng) -> Contains (block_at rng i) a = true -> Contains rng a = true.
Proof.
  intros Hp Hb Hi Ha. destruct (base_facts rng Hp Hb) as (x & k & Ex & Hx & Ek & Hk & Ekx & Hle). pose proof Hp as [_ Hn].
  assert (exists y, a = A4 y) as [y ->] by (destruct a as [|y|]; [|by exists y|]; unfold Contains in Ha; cbn in Ha; by rewrite ?andb_false_r in Ha).
  rewrite contains_mod in Ha by (done || (cbn; lia)). apply Z.eqb_eq in Ha. cbn [block_at p_ip p_bits bits_of] in Ha. change (32 - 24) with 8 in Ha.
  rewrite contains_mod by (done || lia || by rewrite Ex). apply Z.eqb_eq. rewrite Ex. cbn [bits_of]. rewrite <-Ekx.
  assert (2 ^ (32 - p_bits rng) = 256 * 2 ^ (24 - p_bits rng)) as E2 by (replace (32 - p_bits rng) with (8 + (24 - p_bits rng)) by lia; by rewrite Z.pow_add_r by lia).
  rewrite E2, <-Z.div_div by lia. change (2 ^ 8) with 256 in Ha. rewrite Ha, Ek, E2.
  replace (k * (256 * 2 ^ (24 - p_bits rng)) + 256 * i) with ((k * 2 ^ (24 - p_bits rng) + i) * 256) by lia. rewrite Z.div_mul by lia. rewrite Z.div_add_l by lia. rewrite Z.div_small by lia. lia.
Qed.

(** The block taken is a /24 of the range that touches nothing in use; there
    is none only when every /24 of the range touches something. *)
Theorem FirstFree_spec rng used : prefix4 rng -> p_bits rng <= 24 ->
  match FirstFree rng used with
  | Some p => (exists i, 0 <= i < 2 ^ (24 - p_bits rng) /\ p = block_at rng i) /\ forall q, q ∈ used -> POverlaps p q = false
  | None => forall i, 0 <= i < 2 ^ (24 - p_bits rng) -> exists q, q ∈ used /\ POverlaps (block_at rng i) q = true
  end.
Proof.
  intros Hp Hb. unfold FirstFree. pose proof Hp as [(x & Ex & _) _]. assert (Is4 (p_ip rng) = true) as -> by (by rewrite Ex). cbn [negb orb]. change (NetBits <? p_bits rng) with (24 <? p_bits rng). assert ((24 <? p_bits rng) = false) as -> by lia.
  cbv zeta. assert (p_bits (Masked rng) = p_bits rng) as -> by (by rewrite masked4_eq). rewrite (blocks_eq rng Hp Hb). destruct (find_first _ _) as [p|] eqn:E.
  - apply find_first_Some in E as [Hin Hf]. apply list_elem_of_fmap in Hin as (i & -> & Hi%elem_of_seqZ). split; [exists i; split; [lia|done]|].
    intros q Hq. apply negb_true_iff in Hf. by apply (existsb_false _ _ _ Hf).
  - apply find_first_None in E. intros i Hi. pose proof (proj1 (Forall_forall _ _) E (block_at rng i)) as Hf. cbv beta in Hf. destruct (existsb _ used) eqn:Eu; [|discriminate Hf; apply list_elem_of_fmap; exists i; split; [done|]; apply elem_of_seqZ; lia].
    apply existsb_exists in Eu as (q & Hq%list_elem_of_In & Ho). by exists q.
Qed.

(** ** Pinned addresses *)

Lemma fnv_range s h : 0 <= h < 2 ^ 32 -> 0 <= fnv_from h s < 2 ^ 32.
Proof. revert h. induction s as [|c s IH]; intros h Hh; [done|]. cbn [fnv_from]. apply IH. apply Z.mod_pos_bound. lia. Qed.
Lemma fnv32_range s : 0 <= fnv32 s < 2 ^ 32.
Proof. apply fnv_range. lia. Qed.

Section Halves.
Context (subnet : Prefix) (Hs : prefix4 subnet) (Hb : p_bits subnet <= 29).
#[local] Definition base : Z := bits_of (p_ip (Masked subnet)).
#[local] Definition low_size : Z := 2 ^ (31 - p_bits subnet).
(** The [o]th address of the network. *)
#[local] Definition host (o : Z) : Addr := A4 (base + o).

Lemma base_low : exists k, base = k * (2 * low_size) /\ 0 <= k /\ (k + 1) * (2 * low_size) <= 2 ^ 32 /\ 4 <= low_size.
Proof.
  pose proof Hs as [(x & Ex & Hx) Hn]. unfold base, low_size. exists (x / 2 ^ (32 - p_bits subnet)). rewrite masked4_eq by done. cbn [p_ip bits_of]. rewrite Ex. cbn [bits_of].
  assert (2 ^ (32 - p_bits subnet) = 2 * 2 ^ (31 - p_bits subnet)) as E by (rewrite <-Z.pow_succ_r by lia; f_equal; lia). rewrite E.
  assert (2 ^ 32 = 2 ^ p_bits subnet * (2 * 2 ^ (31 - p_bits subnet))) as E2 by (rewrite <-E, <-Z.pow_add_r by lia; f_equal; lia).
  assert (2 ^ 2 <= 2 ^ (31 - p_bits subnet)) by (apply Z.pow_le_mono_r; lia). split_and!; [done|apply Z.div_pos; lia| |lia].
  rewrite E2. apply Z.mul_le_mono_nonneg_r; [lia|]. enough (x / (2 * 2 ^ (31 - p_bits subnet)) < 2 ^ p_bits subnet) by lia. apply Z.div_lt_upper_bound; lia.
Qed.
Lemma host_inside o : 0 <= o < 2 * low_size -> Contains subnet (host o) = true.
Proof.
  intros Ho. destruct base_low as (k & Ek & Hk & _ & Hl). pose proof Hs as [(x & Ex & Hx) Hn]. unfold host. rewrite contains_mod by (done || by rewrite Ex). apply Z.eqb_eq.
  assert (2 ^ (32 - p_bits subnet) = 2 * low_size) as -> by (unfold low_size; rewrite <-Z.pow_succ_r by lia; f_equal; lia).
  rewrite Ek, Z.div_add_l, Z.div_small, Z.add_0_r by lia. assert (k * (2 * low_size) = bits_of (p_ip subnet) / (2 * low_size) * (2 * low_size)) as E.
  { rewrite <-Ek. unfold base. rewrite masked4_eq by done. cbn [p_ip bits_of]. unfold low_size. rewrite <-Z.pow_succ_r by lia. by replace (Z.succ (31 - p_bits subnet)) with (32 - p_bits subnet) by lia. }
  nia.
Qed.
Lemma masked_base : Masked subnet = MkPrefix (A4 base) (p_bits subnet).
Proof. unfold base. by rewrite masked4_eq by done. Qed.
Lemma DynamicRange_eq : DynamicRange subnet = MkPrefix (host low_size) (p_bits subnet + 1).
Proof.
  destruct base_low as (k & Ek & Hk & _ & Hl). pose proof Hs as [_ Hn]. unfold DynamicRange, host. rewrite masked_base. cbv zeta. cbn [p_bits p_ip bits_of].
  assert ((31 <=? p_bits subnet) = false) as -> by lia. unfold PrefixFrom. cbn [no_zone IsValid BitLen andb p_bits].
  assert ((0 <=? p_bits subnet + 1) && (p_bits subnet + 1 <=? 32) = true) as E by (apply andb_true_iff; lia). rewrite E. cbn [p_bits]. rewrite E. f_equal. f_equal.
  rewrite Z.shiftl_1_l. fold low_size.
  rewrite <-Z.add_lor_land, Z.add_comm. enough (Z.land base low_size = 0) as -> by lia. unfold low_size at 1. rewrite <-Z.shiftl_1_l. apply Z.bits_inj_0. intros n.
  rewrite Z.land_spec. destruct (Z.testbit base n) eqn:Eb; [|done]. cbn [andb]. rewrite Z.shiftl_1_l. rewrite Z.pow2_bits_eqb by lia. apply Z.eqb_neq. intros <-.
  rewrite Ek in Eb. unfold low_size in Eb. rewrite <-Z.pow_succ_r in Eb by lia. rewrite Z.mul_pow2_bits_low in Eb by lia. done.
Qed.
Lemma low_not_dynamic o : 0 <= o < low_size -> Contains (DynamicRange subnet) (host o) = false.
Proof.
  intros Ho. rewrite DynamicRange_eq. destruct base_low as (k & Ek & Hk & _ & Hl). pose proof Hs as [_ Hn]. unfold host. rewrite contains_mod by (done || (cbn; lia)). cbn [p_ip p_bits bits_of].
  replace (32 - (p_bits subnet + 1)) with (31 - p_bits subnet) by lia. fold low_size. apply Z.eqb_neq. rewrite Ek. replace (k * (2 * low_size)) with (k * 2 * low_size) by lia.
  rewrite !Z.div_add_l, Z.div_small, Z.div_same by lia. lia.
Qed.
End Halves.

Lemma low_size_u32 subnet : prefix4 subnet -> u32 (Z.shiftl 1 (32 - p_bits subnet - 1)) = low_size subnet.
Proof.
  intros [_ Hn]. rewrite Z.shiftl_1_l. unfold u32, low_size. replace (32 - p_bits subnet - 1) with (31 - p_bits subnet) by lia. apply Z.mod_small.
  split; [apply Z.pow_nonneg; lia|]. destruct (decide (p_bits subnet = 32)) as [->|]; [by vm_compute|]. apply Z.pow_lt_mono_r; lia.
Qed.
Lemma pick_host subnet h i : prefix4 subnet -> p_bits subnet <= 29 ->
  exists o, pick (base subnet) h (low_size subnet) i = host subnet o /\ o = (h + i) mod 2 ^ 32 mod (low_size subnet - 2) + 2 /\ 2 <= o < low_size subnet.
Proof.
  intros Hs Hb. destruct (base_low subnet Hs Hb) as (k & Ek & Hk & Hle & Hl). exists ((h + i) mod 2 ^ 32 mod (low_size subnet - 2) + 2).
  pose proof (Z.mod_pos_bound ((h + i) mod 2 ^ 32) (low_size subnet - 2) ltac:(lia)) as Hm. assert (low_size subnet <= 2 ^ 31) by nia.
  split; [|split; [done|lia]]. unfold pick, host, u32. rewrite (Z.mod_small (low_size subnet - 2)) by lia. f_equal. rewrite (Z.mod_small (_ + 2)) by lia. apply Z.mod_small. nia.
Qed.
Lemma StaticAddr_eq subnet key taken : prefix4 subnet -> p_bits subnet <= 29 -> StaticAddr subnet key taken =
  match find_first (fun a => negb (taken a)) (map (pick (base subnet) (fnv32 key) (low_size subnet)) (seqZ 0 (low_size subnet))) with Some a => addr_text a | None => "" end.
Proof.
  intros Hs Hb. unfold StaticAddr. rewrite masked_base by done. cbv zeta. cbn [p_ip p_bits Is4 negb orb bits_of]. assert ((29 <? p_bits subnet) = false) as -> by lia. by rewrite low_size_u32.
Qed.
Lemma host4 subnet o : prefix4 subnet -> p_bits subnet <= 29 -> 0 <= o < 2 * low_size subnet -> addr4 (host subnet o).
Proof. intros Hs Hb Ho. destruct (base_low subnet Hs Hb) as (k & Ek & Hk & Hle & Hl). exists (base subnet + o). split; [done|]. nia. Qed.
(** Every offset is tried, where the hash's counter does not wrap. *)
Lemma probe_all h n o : 0 <= h -> h + n <= 2 ^ 32 -> 2 < n -> 2 <= o < n -> exists i, 0 <= i < n /\ (h + i) mod 2 ^ 32 mod (n - 2) + 2 = o.
Proof.
  intros Hh Hw Hn Ho. exists ((o - 2 - h) mod (n - 2)). pose proof (Z.mod_pos_bound (o - 2 - h) (n - 2) ltac:(lia)). split; [lia|].
  rewrite (Z.mod_small (h + _)) by lia. rewrite Z.add_mod_idemp_r by lia. replace (h + (o - 2 - h)) with (o - 2) by lia. rewrite Z.mod_small; lia.
Qed.

(** C26. The address pinned for a tile is its network's, free, in the half Docker
    does not hand out, and neither the network's own nor the gateway's.  None
    is pinned only when the half is full, unless the 32-bit counter wraps while
    it probes: then some addresses are never tried, and a network with two of
    them free pins none. *)
Theorem StaticAddr_pins subnet key taken : prefix4 subnet -> p_bits subnet <= 29 ->
  (StaticAddr subnet key taken <> "" -> exists o, 2 <= o < low_size subnet /\ ParseAddr (StaticAddr subnet key taken) = Some (host subnet o) /\ taken (host subnet o) = false /\
     Contains subnet (host subnet o) = true /\ Contains (DynamicRange subnet) (host subnet o) = false) /\
  (StaticAddr subnet key taken = "" -> fnv32 key + low_size subnet <= 2 ^ 32 -> forall o, 2 <= o < low_size subnet -> taken (host subnet o) = true) /\
  (exists net key full, StaticAddr net key full = "" /\ p_bits net = 24 /\ full (host net 73) = false /\ full (host net 74) = false).
Proof.
  intros Hs Hb. destruct (base_low subnet Hs Hb) as (_ & _ & _ & _ & Hl). split; [|split].
  - rewrite StaticAddr_eq by done. destruct (find_first _ _) as [a|] eqn:E; [|done]. intros _. apply find_first_Some in E as [Hin Hf%negb_true_iff].
    apply list_elem_of_fmap in Hin as (i & -> & _). destruct (pick_host subnet (fnv32 key) i Hs Hb) as (o & Eo & _ & Ho). rewrite Eo in *.
    exists o. split; [done|]. split; [apply ParseAddr_text, host4; (done || lia)|]. split; [done|]. split; [apply host_inside; (done || lia)|apply low_not_dynamic; (done || lia)].
  - rewrite StaticAddr_eq by done. destruct (find_first _ _) as [a|] eqn:E; intros Ea.
    { exfalso. apply find_first_Some in E as [Hin _]. apply list_elem_of_fmap in Hin as (i & -> & _). destruct (pick_host subnet (fnv32 key) i Hs Hb) as (o & Eo & _ & Ho).
      pose proof (ParseAddr_text (host subnet o)) as Hp. rewrite <-Eo, Ea in Hp. rewrite Eo in Hp. specialize (Hp ltac:(apply host4; (done || lia))). done. }
    intros Hw o Ho. pose proof (fnv32_range key). destruct (probe_all (fnv32 key) (low_size subnet) o) as (i & Hi & Ei); [lia..|].
    destruct (pick_host subnet (fnv32 key) i Hs Hb) as (o' & Eo & Eo' & _). rewrite Ei in Eo'. subst o'.
    apply find_first_None in E. pose proof (proj1 (Forall_forall _ _) E (host subnet o)) as Hf. cbv beta in Hf. apply negb_false_iff. apply Hf. rewrite <-Eo.
    apply list_elem_of_fmap. exists i. split; [done|]. apply elem_of_seqZ. lia.
  - exists (PrefixFrom (ip4 10 209 0 0) 24), "web-23603722", (fun a => negb (bool_decide (a = ip4 10 209 0 73) || bool_decide (a = ip4 10 209 0 74))). by vm_compute.
Qed.
Lemma StaticAddr_pins_witness : exists o, 2 <= o < 128 /\ ParseAddr (StaticAddr (PrefixFrom (ip4 10 209 0 0) 24) "t1" (fun _ => false)) = Some (host (PrefixFrom (ip4 10 209 0 0) 24) o).
Proof.
  assert (prefix4 (PrefixFrom (ip4 10 209 0 0) 24)) as H4 by (by apply prefix4b_ok).
  assert (StaticAddr (PrefixFrom (ip4 10 209 0 0) 24) "t1" (fun _ => false) <> "") as Hne by (by vm_compute).
  destruct (proj1 (StaticAddr_pins (PrefixFrom (ip4 10 209 0 0) 24) "t1" (fun _ => false) H4 ltac:(cbn; lia)) Hne) as (o & Ho & Hp & _). exists o. split; [exact Ho|exact Hp].
Defined.

(** ** The block a network gets *)

(** The block handed back with no error touches nothing its caller holds, nor
    what the node used when it was picked, if the reserver keeps clear of what
    it is told is used. *)
Theorem EnsureReserved_block {W} (N : Networker W) node (r : string -> list Prefix -> W -> W * res Prefix) name known commit w w' p :
  (forall nd used w w' p, r nd used w = (w', Ok p) -> forall q, q ∈ used -> POverlaps p q = false) ->
  EnsureReserved N node (Some r) name known commit w = (w', (Some p, None)) ->
  (forall q, q ∈ known -> POverlaps p q = false) /\ exists w0 used, used_subnets N w0 = Ok used /\ forall q, q ∈ used -> POverlaps p q = false.
Proof.
  intros Hr. unfold EnsureReserved. destruct (ensure_network N name None w) as [w1 [e|]]; [|done]. destruct (negb _); [done|]. destruct node as [nd|]; [|done].
  generalize subnetTries. intros tries. assert (exists taken : option error, taken = None) as [taken Et] by (by eexists). rewrite <-Et at 1. clear Et. generalize (@nil Prefix). intros tried. revert w1 tried taken.
  induction tries as [|tries IH]; intros w1 tried taken; cbn [offer]; [done|]. destruct (used_subnets N w1) as [used|] eqn:Eu; [|done].
  destruct (r nd _ w1) as [w2 [q|]] eqn:Er; [|done]. destruct (commit_block commit q w2) as [w3 [e3|]]; [done|].
  assert (forall x, x ∈ used ++ known ++ tried -> POverlaps q x = false) as Hq by (by apply (Hr nd _ w1 w2)).
  destruct (ensure_network N name (Some q) w3) as [w4 [e4|]]; [destruct (is_sentinel _ e4); [apply IH|done]|].
  intros [= -> ->]. split; [intros x Hx; apply Hq; set_solver|]. exists w1, used. split; [done|]. intros x Hx. apply Hq. set_solver.
Qed.
