(* ===== verification/Nodes.v ===== *)
(** * Nodes ([leaf/node/node.go], [leaf/node/join.go], [store/nodes.go])

    The machines of the cluster: the controller's row, workers that ask to
    join, are confirmed with an address on the transit net or rejected, and the
    blocks of the cluster pool the leaf reserves and holds for a minute. *)
From S2P Require Import Prelude GoStrings Errs Netip Mesh Networks Store Rows.

Definition Controller : string := "controller".
Definition Worker : string := "worker".
Definition StatusOnline : string := "online".
Definition StatusPending : string := "pending".
Definition StatusJoined : string := "joined".
Record Node := MkNode {
  nd_ID : string; nd_Name : string; nd_Slug : string; nd_Role : string; nd_Tags : string; nd_RangeCIDR : string; nd_WGPublicKey : string;
  nd_WGAddress : string; nd_Status : string; nd_PublicIP : string; nd_Address : string; nd_CreatedAt : Z }.
#[export] Instance node_id : HasId Node := nd_ID.
Implicit Types (t : list Node) (n : Node).

(** ** The table *)

(** The unique columns and indexes. *)
Definition same_column (n x : Node) : bool :=
  String.eqb (nd_Name x) (nd_Name n) || String.eqb (nd_Slug x) (nd_Slug n) || String.eqb (nd_RangeCIDR x) (nd_RangeCIDR n)
  || (String.eqb (nd_Role x) Controller && String.eqb (nd_Role n) Controller)
  || (negb (String.eqb (nd_WGPublicKey n) "") && String.eqb (nd_WGPublicKey x) (nd_WGPublicKey n)).
Definition node_clash (n : Node) (t : list Node) : bool := existsb (fun x => negb (String.eqb (nd_ID x) (nd_ID n)) && same_column n x) t.
Definition n_create (n : Node) (t : list Node) : res (list Node) := if node_clash n t then Err already_exists else r_create n t.
Definition n_update (n : Node) (t : list Node) : res (list Node) :=
  if is_ok (r_get t (nd_ID n)) then if node_clash n t then Err already_exists else r_update n t else Err ErrNotFound.
Definition by_column (f : Node -> string) (t : list Node) (v : string) : res Node :=
  match find_first (fun n => String.eqb (f n) v) t with Some n => Ok n | None => Err ErrNotFound end.
Definition GetBySlug (t : list Node) (slug : string) : res Node := by_column nd_Slug t slug.
Definition GetByRole (t : list Node) (role : string) : res Node := by_column nd_Role t role.

Section Leaf.
(** [json.Marshal] of the tags, which nothing here reads back. *)
Context (marshal : list string -> string).

(** ** The controller's row *)

Definition controller_row (id : string) (now : Z) : Node :=
  MkNode id "controller" "controller" Controller (marshal ["ingress"; "egress"; "builder"; "storage"]) "controller" "" (addr_text ControllerTransit)
    StatusOnline "" "" now.
(** The row and whether this call made it. *)
Definition Bootstrap (id : string) (now : Z) (t : list Node) : res (Node * bool * list Node) :=
  match GetByRole t Controller with
  | Ok n => Ok (n, false, t)
  | Err e =>
      if negb (is_not_found e) then Err e
      else
        let n := controller_row id now in
        match n_create n t with
        | Ok t => Ok (n, true, t)
        | Err e => match GetByRole t Controller with Ok n => Ok (n, false, t) | Err _ => Err e end
        end
  end.
Definition Controller' (id : string) (now : Z) (t : list Node) : res (Node * list Node) := r <-? Bootstrap id now t ;; Ok (r.1.1, r.2).

(** ** Joining *)

Definition pending_row (id : string) (now : Z) (name : string) (tags : list string) (wgKey : string) : Node :=
  MkNode id name name Worker (marshal tags) ("pending:" +:+ id) wgKey "" StatusPending "" "" now.
Definition CreatePending (id : string) (now : Z) (name : string) (tags : list string) (wgKey : string) (t : list Node) : res (Node * list Node) :=
  let n := pending_row id now name tags wgKey in
  match n_create n t with
  | Ok t => Ok (n, t)
  | Err e =>
      match IsConflict e with
      | Some _ => Err (Conflictf "A node named %q, or one with this WireGuard key, already exists." [AStr name])
      | None => Err e
      end
  end.
Definition with_status (n : Node) (status key : string) : Node :=
  MkNode (nd_ID n) (nd_Name n) (nd_Slug n) (nd_Role n) (nd_Tags n) (nd_RangeCIDR n) key (nd_WGAddress n) status (nd_PublicIP n) (nd_Address n) (nd_CreatedAt n).
(** The row, whether it is new, and the table. *)
Definition CreatePendingOrRejoin (id : string) (now : Z) (name : string) (tags : list string) (wgKey rejoin : string) (t : list Node) : res (Node * bool * list Node) :=
  let fresh := r <-? CreatePending id now name tags wgKey t ;; Ok (r.1, true, r.2) in
  match GetBySlug t name with
  | Ok n =>
      if String.eqb (nd_Status n) rejoin then let n := with_status n StatusPending wgKey in t <-? n_update n t ;; Ok (n, false, t) else fresh
  | Err _ => fresh
  end.
Record Iface := MkIface { if_Name : string; if_Prefix : Prefix }.
Definition reserved (i : Iface) : bool := POverlaps (if_Prefix i) Supernet || POverlaps (if_Prefix i) Transit.
Definition confirmed (n : Node) (addr : string) : Node :=
  MkNode (nd_ID n) (nd_Name n) (nd_Slug n) (nd_Role n) (nd_Tags n) (nd_ID n) (nd_WGPublicKey n) addr StatusJoined (nd_PublicIP n) (nd_Address n) (nd_CreatedAt n).
Definition in_transit (addr : string) : bool := match ParseAddr addr with Some a => Contains Transit a | None => false end.
Definition taken_addrs (t : list Node) : list Addr := omap (fun o => ParseAddr (nd_WGAddress o)) t.
Definition Confirm (id : string) (ifaces : list Iface) (t : list Node) : res (Node * list Node) :=
  n <-? r_get t id ;;
  if negb (String.eqb (nd_Status n) StatusPending) then Err ErrNotFound
  else match find_first reserved ifaces with
  | Some i =>
      Err (Conflictf "Node %s has network %s (%s) on the cluster's reserved range %s or %s. Move it off, reject this request and run a new join command."
             [AStr (nd_Name n); AStr (if_Name i); AStr (prefix_text (if_Prefix i)); AStr (prefix_text Supernet); AStr (prefix_text Transit)])
  | None =>
      if in_transit (nd_WGAddress n) then let n := confirmed n (nd_WGAddress n) in t <-? n_update n t ;; Ok (n, t)
      else match AllocTransit (taken_addrs t) with
      | Err _ => Err (Conflictf "The cluster has no free transit address left for a new node." [])
      | Ok a => let n := confirmed n (addr_text a) in t <-? n_update n t ;; Ok (n, t)
      end
  end.
Definition Reject (id rejoin : string) (t : list Node) : res (Node * list Node) :=
  n <-? r_get t id ;;
  if negb (String.eqb (nd_Status n) StatusPending) then Err ErrNotFound
  else if negb (String.eqb (nd_WGAddress n) "") then let n := with_status n rejoin (nd_WGPublicKey n) in t <-? n_update n t ;; Ok (n, t)
  else t <-? r_delete id t ;; Ok (n, t).
End Leaf.

(** ** Reserving a block *)

Definition minute_ : Z := 60 * 10 ^ 9.
Definition holdFor : Z := minute_.
Record hold := MkHold { h_p : Prefix; h_at : Z }.
Definition pool_full : error := Conflictf "The cluster's network pool %s is full; remove an environment to free one." [AStr (prefix_text Supernet)].
(** [Taken] is [None] where the leaf has none; the holds are the leaf's own. *)
Definition Reserve (now : Z) (Taken : option (res (list Prefix))) (used : list Prefix) (held : list hold) : res Prefix * list hold :=
  match (match Taken with None => Ok used | Some r => t <-? r ;; Ok (used ++ t) end) with
  | Err e => (Err e, held)
  | Ok used =>
      let live := List.filter (fun h => now - h_at h <? holdFor) held in
      match FirstFree Supernet (used ++ map h_p live) with
      | None => (Err pool_full, live)
      | Some p => (Ok p, live ++ [MkHold p now])
      end
  end.

(** ** Addresses are never shared *)

Definition address_ok (n : Node) : Prop :=
  if String.eqb (nd_Role n) Controller then nd_WGAddress n = addr_text ControllerTransit
  else nd_WGAddress n = "" \/ exists a, nd_WGAddress n = addr_text a /\ Contains Transit a = true /\ 1 <= Slot a <= 254 /\ a <> ControllerTransit.
Record cluster_ok t : Prop := {
  co_ids : rows_ok t; co_addr : forall n, n ∈ t -> address_ok n;
  co_apart : forall x y, x ∈ t -> y ∈ t -> nd_WGAddress x = nd_WGAddress y -> nd_WGAddress x <> "" -> x = y }.

Lemma transit4 a : Contains Transit a = true -> addr4 a.
Proof. intros (i & Hi & ->)%transit_contains. eexists. split; [done|]. rewrite transit_base_eq. lia. Qed.
Lemma text_inj a b : addr4 a -> addr4 b -> addr_text a = addr_text b -> a = b.
Proof. intros Ha Hb E. apply ParseAddr_text in Ha, Hb. congruence. Qed.
Lemma controller4 : addr4 ControllerTransit.
Proof. apply transit4. by vm_compute. Qed.
Lemma text_nonempty a : addr4 a -> addr_text a <> "".
Proof. intros H%ParseAddr_text E. by rewrite E in H. Qed.

Lemma no_clash n t x : node_clash n t = false -> x ∈ t -> nd_ID x <> nd_ID n -> same_column n x = false.
Proof. intros H Hx Hne. pose proof (existsb_false _ _ x H Hx) as Hf. cbv beta in Hf. by rewrite (proj2 (String.eqb_neq _ _) Hne) in Hf. Qed.
Lemma one_controller n t x : node_clash n t = false -> x ∈ t -> nd_ID x <> nd_ID n -> nd_Role x = Controller -> nd_Role n = Controller -> False.
Proof. intros H Hx Hne E1 E2. pose proof (no_clash n t x H Hx Hne) as Hs. unfold same_column in Hs. rewrite E1, E2 in Hs. rewrite String.eqb_refl in Hs. cbn [andb] in Hs. by rewrite orb_true_r in Hs. Qed.
(** What a write must bring: a good address no other row has. *)
Definition brings n t : Prop := address_ok n /\ forall x, x ∈ t -> nd_ID x <> nd_ID n -> nd_WGAddress x = nd_WGAddress n -> nd_WGAddress n = "".
Lemma n_create_ok n t t' : cluster_ok t -> brings n t -> n_create n t = Ok t' -> cluster_ok t' /\ t' = t ++ [n].
Proof.
  intros [H1 H2 H3] [Ha Hb]. unfold n_create. destruct (node_clash n t); [done|]. intros E. pose proof (r_create_rows _ _ _ E H1) as Hr. apply r_create_ok in E as [-> Hid]. split; [|done].
  assert (forall x, x ∈ t -> nd_ID x <> nd_ID n) as Hne by (intros x Hx E; apply Hid; apply list_elem_of_fmap; by exists x).
  constructor; [done|intros x [Hx|Hx%list_elem_of_singleton]%elem_of_app; [by apply H2|by subst x]|].
  intros x y [Hx|Hx%list_elem_of_singleton]%elem_of_app [Hy|Hy%list_elem_of_singleton]%elem_of_app E Hn; subst; [by apply H3| | |done].
  - rewrite E in Hn. destruct Hn. apply (Hb x Hx (Hne x Hx) E).
  - destruct Hn. apply (Hb y Hy (Hne y Hy)). done.
Qed.
Lemma n_update_ok n t t' : cluster_ok t -> brings n t -> n_update n t = Ok t' -> cluster_ok t' /\ n ∈ t'.
Proof.
  intros [H1 H2 H3] [Ha Hb]. unfold n_update. destruct (is_ok _) eqn:Eo; [|done]. destruct (node_clash n t); [done|]. intros E. pose proof (r_update_rows _ _ _ E H1) as Hr.
  pose proof (fun x => elem_of_r_update n t t' x E) as Hin. split; [|apply Hin; left; split; [done|by apply r_get_is]]. constructor; [done|intros x [[-> _]|[Hx _]]%Hin; [done|by apply H2]|].
  intros x y [[-> _]|[Hx Hxn]]%Hin [[-> _]|[Hy Hyn]]%Hin Exy Hn; [done| | |by apply H3].
  - destruct Hn. by apply (Hb y).
  - rewrite Exy in Hn. destruct Hn. by apply (Hb x).
Qed.
Lemma cluster_filter p t : cluster_ok t -> cluster_ok (List.filter p t).
Proof.
  intros [H1 H2 H3]. constructor; [by apply filter_rows|intros x [Hx _]%elem_of_filterb; by apply H2|].
  intros x y [Hx _]%elem_of_filterb [Hy _]%elem_of_filterb. by apply H3.
Qed.
(** A write that leaves role and address as its row has them. *)
Lemma brings_same o n t : cluster_ok t -> o ∈ t -> nd_ID n = nd_ID o -> nd_Role n = nd_Role o -> nd_WGAddress n = nd_WGAddress o -> brings n t.
Proof.
  intros [H1 H2 H3] Ho Ei Er Ew. split; [unfold address_ok; rewrite Er, Ew; by apply H2|]. intros x Hx Hne E. destruct (decide (nd_WGAddress n = "")) as [|Hn]; [done|].
  destruct Hne. rewrite Ei. f_equal. apply H3; congruence.
Qed.

Lemma in_transit_text a : Contains Transit a = true -> in_transit (addr_text a) = true.
Proof. intros Ha. unfold in_transit. by rewrite (ParseAddr_text a (transit4 a Ha)). Qed.
Lemma not_in_transit n : address_ok n -> in_transit (nd_WGAddress n) = false -> nd_WGAddress n = "" /\ nd_Role n <> Controller.
Proof.
  unfold address_ok. destruct (String.eqb_spec (nd_Role n) Controller) as [E|E]; [intros ->; by vm_compute|]. intros [->|(a & -> & Ha & _)]; [done|]. by rewrite in_transit_text.
Qed.
Lemma Confirm_ok id ifaces t n t' : cluster_ok t -> Confirm id ifaces t = Ok (n, t') ->
  cluster_ok t' /\ n ∈ t' /\ nd_ID n = id /\ nd_Status n = StatusJoined /\ in_transit (nd_WGAddress n) = true /\ Forall (fun i => reserved i = false) ifaces /\
  exists o, o ∈ t /\ nd_ID o = id /\ nd_Status o = StatusPending /\ nd_Role n = nd_Role o /\ (nd_WGAddress o <> "" -> nd_WGAddress n = nd_WGAddress o).
Proof.
  intros Hok. unfold Confirm. destruct (r_get t id) as [o|] eqn:Eg; [|done]. cbn. apply r_get_ok in Eg as [Ho Eid]. change (nd_ID o = id) in Eid.
  destruct (String.eqb_spec (nd_Status o) StatusPending) as [Es|]; [|done]. cbn [negb]. destruct (find_first reserved ifaces) eqn:Er; [done|]. apply find_first_None in Er.
  pose proof (co_addr t Hok o Ho) as Ha. destruct (in_transit (nd_WGAddress o)) eqn:Et.
  - destruct (n_update _ t) as [t2|] eqn:Eu; [|done]. intros [= <- <-].
    destruct (n_update_ok _ t t2 Hok (brings_same o (confirmed o (nd_WGAddress o)) t Hok Ho eq_refl eq_refl eq_refl) Eu) as [H1 H2]. split_and!; try done. by exists o.
  - destruct (not_in_transit o Ha Et) as [Ew Hr]. pose proof (AllocTransit_spec (taken_addrs t)) as Hs. destruct (AllocTransit _) as [a|]; [|done].
    destruct Hs as (Hc & Hsl & [Hnc Hfr] & _). destruct (n_update _ t) as [t2|] eqn:Eu; [|done]. intros [= <- <-]. destruct (n_update_ok (confirmed o (addr_text a)) t t2 Hok) as [H1 H2]; [|done|].
    + split; [unfold address_ok; cbn; rewrite (proj2 (String.eqb_neq _ _) Hr); right; by exists a|]. intros x Hx _ E. exfalso. apply Hfr. apply list_elem_of_omap. exists x. split; [done|].
      cbn in E. rewrite E. by apply ParseAddr_text, transit4.
    + split_and!; try done; [cbn; by apply in_transit_text|]. by exists o.
Qed.

(** ** Histories *)

Section Histories.
Context (marshal : list string -> string) (rejoin : string).
(** [NWrite] is any other writer of a row it read: nothing but the leaf changes
    a row's role or address.  [NForget] is a node dropped. *)
Inductive nop :=
  | NBootstrap (id : string) (now : Z)
  | NJoin (id : string) (now : Z) (name : string) (tags : list string) (wgKey : string)
  | NConfirm (id : string) (ifaces : list Iface)
  | NReject (id : string)
  | NWrite (n : Node)
  | NForget (id : string).
Definition nstep (t : list Node) (o : nop) : list Node :=
  let keep r := match r with Ok t => t | Err _ => t end in
  match o with
  | NBootstrap id now => keep (r <-? Bootstrap marshal id now t ;; Ok r.2)
  | NJoin id now name tags key => keep (r <-? CreatePendingOrRejoin marshal id now name tags key rejoin t ;; Ok r.2)
  | NConfirm id ifaces => keep (r <-? Confirm id ifaces t ;; Ok r.2)
  | NReject id => keep (r <-? Reject id rejoin t ;; Ok r.2)
  | NWrite n =>
      match r_get t (nd_ID n) with
      | Ok o => if String.eqb (nd_Role n) (nd_Role o) && String.eqb (nd_WGAddress n) (nd_WGAddress o) then keep (n_update n t) else t
      | Err _ => t
      end
  | NForget id => keep (r_delete id t)
  end.

Lemma Bootstrap_ok id now t : cluster_ok t -> match Bootstrap marshal id now t with Ok r => cluster_ok r.2 | Err _ => True end.
Proof.
  intros Hok. unfold Bootstrap, GetByRole, by_column. destruct (find_first _ t) as [c|] eqn:E; [done|]. cbn [is_not_found]. destruct (is_not_found ErrNotFound); [|done]. cbn [negb].
  apply find_first_None in E. destruct (n_create _ t) as [t'|] eqn:Ec; [|done]. cbn.
  apply (n_create_ok (controller_row marshal id now) t t' Hok); [|done]. split; [done|]. intros x Hx _ Ex. exfalso.
  pose proof (co_addr t Hok x Hx) as Ha. pose proof (proj1 (Forall_forall _ _) E x Hx) as Hf. cbv beta in Hf. unfold address_ok in Ha. rewrite Hf in Ha.
  destruct Ha as [Ha|(a & Ha & Hc & _ & Hn)]; [by rewrite Ha in Ex|]. apply Hn. apply text_inj; [by apply transit4|apply controller4|]. by rewrite <-Ha.
Qed.
Lemma CreatePending_ok id now name tags key t : cluster_ok t -> match CreatePending marshal id now name tags key t with Ok r => cluster_ok r.2 | Err _ => True end.
Proof.
  intros Hok. unfold CreatePending. destruct (n_create _ t) as [t'|e] eqn:Ec; [|by destruct (IsConflict e)]. cbn.
  apply (n_create_ok (pending_row marshal id now name tags key) t t' Hok); [|done]. split; [by left|]. intros x Hx _ Ex. done.
Qed.
Lemma CreatePendingOrRejoin_ok id now name tags key t : cluster_ok t -> match CreatePendingOrRejoin marshal id now name tags key rejoin t with Ok r => cluster_ok r.2 | Err _ => True end.
Proof.
  intros Hok. pose proof (CreatePending_ok id now name tags key t Hok) as Hf. unfold CreatePendingOrRejoin, GetBySlug, by_column. destruct (find_first _ t) as [o|] eqn:E.
  - apply find_first_Some in E as [Ho _]. destruct (String.eqb _ rejoin); [|by destruct (CreatePending _ _ _ _ _ _ t)]. cbn. destruct (n_update _ t) as [t'|] eqn:Eu; [|done]. cbn.
    by apply (n_update_ok _ t t' Hok (brings_same o (with_status o StatusPending key) t Hok Ho eq_refl eq_refl eq_refl)).
  - by destruct (CreatePending _ _ _ _ _ _ t).
Qed.
Lemma Reject_ok id t : cluster_ok t -> match Reject id rejoin t with Ok r => cluster_ok r.2 | Err _ => True end.
Proof.
  intros Hok. unfold Reject. destruct (r_get t id) as [o|] eqn:E; [|done]. cbn. apply r_get_ok in E as [Ho _]. destruct (String.eqb _ StatusPending); [|done]. cbn [negb].
  destruct (String.eqb _ ""); cbn [negb].
  - destruct (r_delete id t) as [t'|] eqn:Ed; [|done]. cbn. unfold r_delete in Ed. destruct (is_ok _); [|done]. injection Ed as <-. by apply cluster_filter.
  - destruct (n_update _ t) as [t'|] eqn:Eu; [|done]. cbn.
    by apply (n_update_ok _ t t' Hok (brings_same o (with_status o rejoin (nd_WGPublicKey o)) t Hok Ho eq_refl eq_refl eq_refl)).
Qed.
Lemma nstep_ok t o : cluster_ok t -> cluster_ok (nstep t o).
Proof.
  intros Hok. destruct o; cbn [nstep].
  - pose proof (Bootstrap_ok id now t Hok). by destruct (Bootstrap _ _ _ t) as [[? ?]|].
  - pose proof (CreatePendingOrRejoin_ok id now name tags wgKey t Hok). by destruct (CreatePendingOrRejoin _ _ _ _ _ _ _ t) as [[? ?]|].
  - destruct (Confirm id ifaces t) as [[n t']|] eqn:E; [|done]. cbn. by apply (Confirm_ok id ifaces t n t' Hok).
  - pose proof (Reject_ok id t Hok). by destruct (Reject _ _ t) as [[? ?]|].
  - destruct (r_get t (nd_ID n)) as [o|] eqn:E; [|done]. apply r_get_ok in E as [Ho Ei]. destruct (String.eqb_spec (nd_Role n) (nd_Role o)); [|done]. destruct (String.eqb_spec (nd_WGAddress n) (nd_WGAddress o)); [|done]. cbn [andb].
    destruct (n_update n t) as [t'|] eqn:Eu; [|done]. cbn. apply (n_update_ok n t t' Hok); [|done]. by apply (brings_same o).
  - destruct (r_delete id t) as [t'|] eqn:Ed; [|done]. cbn. unfold r_delete in Ed. destruct (is_ok _); [|done]. injection Ed as <-. by apply cluster_filter.
Qed.
End Histories.

Lemma nodes_ok marshal rejoin ops : cluster_ok (fold_left (nstep marshal rejoin) ops []).
Proof.
  assert (cluster_ok []) as H0 by (constructor; [apply NoDup_nil_2|by intros n ?%elem_of_nil|by intros x y ?%elem_of_nil]). revert H0. generalize (@nil Node).
  induction ops as [|o ops IH]; intros t Ht; [done|]. cbn. by apply IH, nstep_ok.
Qed.
Lemma parsed_address n a : address_ok n -> ParseAddr (nd_WGAddress n) = Some a -> nd_WGAddress n = addr_text a /\ Contains Transit a = true /\ (nd_Role n <> Controller -> a <> ControllerTransit).
Proof.
  unfold address_ok. destruct (String.eqb_spec (nd_Role n) Controller) as [E|E].
  - intros -> Hp. rewrite (ParseAddr_text _ controller4) in Hp. injection Hp as <-. split; [done|]. split; [by vm_compute|done].
  - intros [->|(b & -> & Hb & _ & Hn)] Hp; [done|]. rewrite (ParseAddr_text b (transit4 b Hb)) in Hp. by injection Hp as <-.
Qed.

(** C24. However nodes bootstrap, join, rejoin, are confirmed, rejected, written and
    dropped: no two rows share a transit address, every address is on the
    transit net, and no worker has the controller's.  A confirmed node was
    pending, has none of its networks on the cluster's ranges, and has an
    address; a rejoining one has the address it had. *)
Theorem transit_addresses_unique marshal rejoin ops : let t := fold_left (nstep marshal rejoin) ops [] in
  (forall x y a, x ∈ t -> y ∈ t -> ParseAddr (nd_WGAddress x) = Some a -> ParseAddr (nd_WGAddress y) = Some a -> x = y) /\
  (forall x a, x ∈ t -> ParseAddr (nd_WGAddress x) = Some a -> Contains Transit a = true /\ (nd_Role x <> Controller -> a <> ControllerTransit)) /\
  (forall id ifaces n t', Confirm id ifaces t = Ok (n, t') ->
     n ∈ t' /\ nd_ID n = id /\ nd_Status n = StatusJoined /\ in_transit (nd_WGAddress n) = true /\ Forall (fun i => reserved i = false) ifaces /\
     exists o, o ∈ t /\ nd_ID o = id /\ nd_Status o = StatusPending /\ (nd_WGAddress o <> "" -> nd_WGAddress n = nd_WGAddress o)).
Proof.
  intros t. pose proof (nodes_ok marshal rejoin ops : cluster_ok t) as Hok. split; [|split].
  - intros x y a Hx Hy Ex Ey. destruct (parsed_address x a (co_addr t Hok x Hx) Ex) as (Wx & Ha & _), (parsed_address y a (co_addr t Hok y Hy) Ey) as (Wy & _ & _).
    apply (co_apart t Hok); [done|done|congruence|]. rewrite Wx. by apply text_nonempty, transit4.
  - intros x a Hx Ex. by apply (parsed_address x a (co_addr t Hok x Hx)) in Ex as (_ & H).
  - intros id ifaces n t' Hc. destruct (Confirm_ok id ifaces t n t' Hok Hc) as (_ & H1 & H2 & H3 & H4 & H5 & o & Ho & Hi & Hs & _ & Hw). split_and!; try done. by exists o.
Qed.
Definition ex_ops : list nop := [NBootstrap "n0" 1; NJoin "n1" 2 "edge-1" ["egress"] "k1"; NJoin "n2" 3 "edge-2" [] "k2"; NConfirm "n1" []; NConfirm "n2" []].
Lemma transit_addresses_unique_witness : let t := fold_left (nstep (join ",") "rejoin") ex_ops [] in
  map nd_WGAddress t = ["10.207.255.6"; "10.207.255.1"; "10.207.255.2"] /\ forall x y a, x ∈ t -> y ∈ t -> ParseAddr (nd_WGAddress x) = Some a -> ParseAddr (nd_WGAddress y) = Some a -> x = y.
Proof. split; [by vm_compute|]. exact (proj1 (transit_addresses_unique (join ",") "rejoin" ex_ops)). Defined.

(** ** Reserved blocks do not touch *)

Definition call : Type := Z * option (res (list Prefix)) * list Prefix.
(** A run of reservations: when each was, and its answer. *)
Fixpoint reserve_all (calls : list call) (held : list hold) : list (call * res Prefix) :=
  match calls with
  | [] => []
  | c :: calls => let '(r, held) := Reserve c.1.1 c.1.2 c.2 held in (c, r) :: reserve_all calls held
  end.
(** What a call is told is in use. *)
Definition in_use (c : call) : list Prefix := c.2 ++ match c.1.2 with Some (Ok t) => t | _ => [] end.

Lemma supernet4 : prefix4 Supernet.
Proof. by apply prefix4b_ok. Qed.
Lemma Reserve_ok c held p held' : Reserve c.1.1 c.1.2 c.2 held = (Ok p, held') ->
  held' = List.filter (fun h => c.1.1 - h_at h <? holdFor) held ++ [MkHold p c.1.1] /\ prefix4 p /\ (forall a, Contains p a = true -> Contains Supernet a = true) /\
  (forall q, q ∈ in_use c -> POverlaps p q = false) /\ forall h, h ∈ held -> c.1.1 - h_at h < holdFor -> POverlaps p (h_p h) = false.
Proof.
  destruct c as [[now taken] used]. cbn [fst snd]. unfold Reserve. set (us := match taken with None => Ok used | Some r => t <-? r ;; Ok (used ++ t) end).
  destruct us as [u|] eqn:Eu; [|done]. assert (u = in_use (now, taken, used)) as ->.
  { unfold us in Eu. unfold in_use. cbn [fst snd]. destruct taken as [[t|]|]; cbn in Eu; [by injection Eu as <-|done|]. rewrite app_nil_r. by injection Eu as <-. }
  pose proof (FirstFree_spec Supernet (in_use (now, taken, used) ++ map h_p (List.filter (fun h => now - h_at h <? holdFor) held)) supernet4 ltac:(cbn; lia)) as Hs.
  destruct (FirstFree _ _) as [b|]; [|done]. intros [= <- <-]. destruct Hs as [(i & Hi & ->) Hq]. split; [done|].
  split; [by apply block_at4, Hi; [apply supernet4|cbn; lia]|]. split; [intros a; apply block_inside; [apply supernet4|cbn; lia|done]|]. split.
  - intros q Hin. apply Hq. apply elem_of_app. by left.
  - intros h Hh Hlt. apply Hq. apply elem_of_app. right. apply list_elem_of_fmap. exists h. split; [done|]. apply elem_of_filterb. split; [done|lia].
Qed.
Lemma Reserve_held c held r held' h u : Reserve c.1.1 c.1.2 c.2 held = (r, held') -> h ∈ held -> c.1.1 <= u -> u - h_at h < holdFor -> h ∈ held'.
Proof.
  destruct c as [[now taken] used]. cbn [fst snd]. unfold Reserve. intros E Hh Hle Hlt. destruct (match taken with None => Ok used | Some r => t <-? r ;; Ok (used ++ t) end); [|by injection E as _ <-].
  assert (h ∈ List.filter (fun h => now - h_at h <? holdFor) held) as Hin by (apply elem_of_filterb; split; [done|lia]).
  destruct (FirstFree _ _); injection E as _ <-; [apply elem_of_app; by left|done].
Qed.
Lemma kept_clear calls held h c q : StronglySorted Z.le (map (fun c => c.1.1) calls) -> h ∈ held -> (c, Ok q) ∈ reserve_all calls held -> c.1.1 - h_at h < holdFor -> POverlaps q (h_p h) = false.
Proof.
  revert held. induction calls as [|c0 calls IH]; intros held Hs Hh; cbn [reserve_all]; [by intros ?%elem_of_nil|]. apply StronglySorted_inv in Hs as [Hs Hle].
  destruct (Reserve c0.1.1 c0.1.2 c0.2 held) as [r held'] eqn:E. intros [[= -> <-]|Hin]%elem_of_cons Hlt.
  - apply Reserve_ok in E as (_ & _ & _ & _ & Hc). by apply Hc.
  - assert (c0.1.1 <= c.1.1) as Hct.
    { apply (proj1 (Forall_forall _ _) Hle). apply list_elem_of_fmap. exists c. split; [done|]. clear -Hin. revert held' Hin. induction calls as [|c1 calls IH]; intros held; cbn [reserve_all]; [by intros ?%elem_of_nil|].
      destruct (Reserve _ _ _ held) as [r1 h1]. intros [[= -> _]|H]%elem_of_cons; [by left|right; by apply (IH h1)]. }
    apply (IH held'); [done| |done|done]. by apply (Reserve_held c0 held r held' h c.1.1).
Qed.

Lemma Reserve_refused c held e held' : Reserve c.1.1 c.1.2 c.2 held = (Err e, held') ->
  c.1.2 = Some (Err e) /\ held' = held \/
  e = pool_full /\ (forall e', c.1.2 <> Some (Err e')) /\ forall i, 0 <= i < 4096 ->
    exists q, (q ∈ in_use c \/ exists h, h ∈ held /\ c.1.1 - h_at h < holdFor /\ h_p h = q) /\ POverlaps (block_at Supernet i) q = true.
Proof.
  destruct c as [[now taken] used]. cbn [fst snd]. assert (forall u, match FirstFree Supernet (u ++ map h_p (List.filter (fun h => now - h_at h <? holdFor) held)) with
    | None => forall i, 0 <= i < 4096 -> exists q, (q ∈ u \/ exists h, h ∈ held /\ now - h_at h < holdFor /\ h_p h = q) /\ POverlaps (block_at Supernet i) q = true | Some _ => True end) as Hfull.
  { intros u. pose proof (FirstFree_spec Supernet (u ++ map h_p (List.filter (fun h => now - h_at h <? holdFor) held)) supernet4 ltac:(cbn; lia)) as Hs.
    destruct (FirstFree _ _); [done|]. intros i Hi. destruct (Hs i Hi) as (q & Hq & Ho). exists q. split; [|done]. apply elem_of_app in Hq as [Hq|Hq]; [by left|right].
    apply list_elem_of_fmap in Hq as (h & -> & [Hh Hlt]%elem_of_filterb). exists h. split; [done|]. split; [lia|done]. }
  unfold Reserve, in_use. cbn [fst snd]. destruct taken as [[t|e0]|]; [|by intros [= <- <-]; left|].
  - specialize (Hfull (used ++ t)). destruct (FirstFree _ _); [done|]. intros [= <- _]. right. by split_and!.
  - rewrite app_nil_r. specialize (Hfull used). destruct (FirstFree _ _); [done|]. intros [= <- _]. right. by split_and!.
Qed.

(** C25. Blocks reserved within a minute of each other, on any node, share no
    address; each is of the cluster pool and clear of what its caller holds
    and of the cluster's blocks in use.  A reservation is refused only with the
    error of reading the cluster's blocks, nothing held for it, or for a full
    pool, and then every /24 of the pool touches something its caller holds, a
    block in use or one reserved within the minute. *)
Theorem reserved_blocks_apart calls : StronglySorted Z.le (map (fun c => c.1.1) calls) ->
  (forall pre c p mid c' q post, reserve_all calls [] = pre ++ (c, Ok p) :: mid ++ (c', Ok q) :: post -> c'.1.1 - c.1.1 < holdFor ->
     forall a, Contains q a = true -> Contains p a = false) /\
  (forall c p, (c, Ok p) ∈ reserve_all calls [] -> (forall a, Contains p a = true -> Contains Supernet a = true) /\
     forall q a, q ∈ in_use c -> Contains p a = true -> Contains q a = false) /\
  (forall c held e held', Reserve c.1.1 c.1.2 c.2 held = (Err e, held') ->
     c.1.2 = Some (Err e) /\ held' = held \/
     e = pool_full /\ (forall e', c.1.2 <> Some (Err e')) /\ forall i, 0 <= i < 4096 ->
       exists q, (q ∈ in_use c \/ exists h, h ∈ held /\ c.1.1 - h_at h < holdFor /\ h_p h = q) /\ POverlaps (block_at Supernet i) q = true).
Proof.
  generalize (@nil hold) at 1 2. intros held Hs. split; [|split].
  - revert held. induction calls as [|c0 calls IH]; intros held; cbn [reserve_all]; [by intros [|]|]. apply StronglySorted_inv in Hs as [Hs Hle].
    destruct (Reserve c0.1.1 c0.1.2 c0.2 held) as [r held'] eqn:E. intros [|x pre] c p mid c' q post; [|intros [= _ Er]; by apply (IH Hs held' pre c p mid c' q post)].
    intros [= -> -> Er] Hlt a Hq. pose proof (Reserve_ok _ _ _ _ E) as (-> & Hp & _). assert ((c', Ok q) ∈ reserve_all calls (List.filter (fun h => c.1.1 - h_at h <? holdFor) held ++ [MkHold p c.1.1])) as Hin.
    { rewrite Er. apply elem_of_app. right. by left. }
    assert (prefix4 q) as Hq4.
    { clear -Hin. revert Hin. generalize (List.filter (fun h => c.1.1 - h_at h <? holdFor) held ++ [MkHold p c.1.1]). induction calls as [|c1 calls IH]; intros hs; cbn [reserve_all]; [by intros ?%elem_of_nil|].
      destruct (Reserve _ _ _ hs) as [r1 h1] eqn:E. intros [[= -> <-]|H]%elem_of_cons; [by apply Reserve_ok in E as (_ & ? & _)|by apply (IH h1)]. }
    apply (apart q p a Hq4); [|done]. eapply (kept_clear calls _ (MkHold p c.1.1) c' q Hs); [|exact Hin|exact Hlt]. apply elem_of_app. right. by left.
  - revert held. clear Hs. induction calls as [|c0 calls IH]; intros held c p; cbn [reserve_all]; [by intros ?%elem_of_nil|]. destruct (Reserve c0.1.1 c0.1.2 c0.2 held) as [r held'] eqn:E.
    intros [[= -> <-]|H]%elem_of_cons; [|by apply (IH held')]. apply Reserve_ok in E as (_ & Hp & Hin & Hu & _). split; [done|]. intros q a Hq Ha. apply (apart p q a Hp); [by apply Hu|done].
  - exact Reserve_refused.
Qed.
Definition ex_calls : list call := [(0, None, [block_at Supernet 0]); (30 * 10 ^ 9, None, []); (59 * 10 ^ 9, None, []); (61 * 10 ^ 9, None, [])].
Lemma reserved_blocks_apart_witness : map snd (reserve_all ex_calls []) = [Ok (block_at Supernet 1); Ok (block_at Supernet 0); Ok (block_at Supernet 2); Ok (block_at Supernet 1)] /\
  forall c p, (c, Ok p) ∈ reserve_all ex_calls [] -> forall a, Contains p a = true -> Contains Supernet a = true.
Proof.
  split; [by vm_compute|]. intros c p Hc. refine (proj1 (proj1 (proj2 (reserved_blocks_apart ex_calls _)) c p Hc)).
  repeat constructor; by vm_compute.
Defined.
