(* ===== verification/Images.v ===== *)
(** * Images ([leaf/image/image.go], [docker/images.go], [git.ImageName])

    The rows of the images stackr built and of the ones it watches, and the
    local images of a node's Docker: naming a build, making a ref present,
    recording builds and registry answers, and the three steps of a cleanup
    (plan, prune every node, settle the rows). *)
From S2P Require Import Prelude GoStrings Errs Store Rows ParamRows Releases.

Definition LabelBuilt : string := "stackr.built".
Definition built_label : gmap string string := {[LabelBuilt := "true"]}.
Definition Grace : Z := 3600 * 10 ^ 9.
Definition System : string := "system".
Definition BuilderPrefix : string := "stackr-builder".
Definition BuilderFor (owner : string) : string := BuilderPrefix +:+ "-" +:+ owner.
Definition ErrCleanedUp : error := New "image.ErrCleanedUp".
Definition ClusterRegistry : string := "localhost:5000/".

(** ** The rows *)

#[export] Instance image_eq : EqDecision Image.
Proof. solve_decision. Defined.

Definition GetByRef (d : Tables) (ref : string) : res Image :=
  match find_first (fun i => String.eqb (im_Ref i) ref) (images d) with Some i => Ok i | None => Err ErrNotFound end.
Definition with_images (d : Tables) (t : list Image) : Tables := MkTables (releases d) (pinned d) t (stack_rows d).
(** [ref] is unique. *)
Definition same_ref (i x : Image) : bool := negb (String.eqb (im_ID x) (im_ID i)) && String.eqb (im_Ref x) (im_Ref i).
Definition i_create (i : Image) (d : Tables) : res Tables :=
  if existsb (same_ref i) (images d) then Err already_exists else t <-? r_create i (images d) ;; Ok (with_images d t).
Definition i_update (i : Image) (d : Tables) : res Tables :=
  if existsb (same_ref i) (images d) then Err already_exists else t <-? r_update i (images d) ;; Ok (with_images d t).
(** [ON DELETE SET NULL] on the pins. *)
Definition unpin (id : string) (r : ReleaseTile) : ReleaseTile :=
  if bool_decide (rt_ImageID r = Some id) then MkReleaseTile (rt_ID r) (rt_ReleaseID r) (rt_Slug r) (rt_Repo r) (rt_Branch r) (rt_CommitSHA r) None (rt_Digest r) else r.
Definition i_delete (id : string) (d : Tables) : res Tables :=
  t <-? r_delete id (images d) ;; Ok (MkTables (releases d) (map (unpin id) (pinned d)) t (stack_rows d)).
Definition Newer (i : Image) : bool :=
  negb (String.eqb (im_LastDigest i) "") && negb (String.eqb (im_Digest i) "") && negb (String.eqb (im_LastDigest i) (im_Digest i)).

Definition first8 (s : string) : string := str_take 8 s.
Definition ImageName (repoName sha jobID : string) : string :=
  if 7 <=? slen sha then repoName +:+ ":" +:+ str_take 7 sha else repoName +:+ ":" +:+ first8 jobID.
Definition Name (d : Tables) (repoName sha jobID : string) : string :=
  let ref := ImageName repoName sha jobID in
  match GetByRef d ref with Err _ => ref | Ok _ => ref +:+ "-" +:+ first8 jobID end.

(** An edit of the row of [ref], which is made when there is none. *)
Definition upsert (id : string) (now : Z) (ref : string) (edit : Image -> Image) (d : Tables) : res (Image * Tables) :=
  match GetByRef d ref with
  | Ok i => let i := edit i in d <-? i_update i d ;; Ok (i, d)
  | Err e =>
      if is_not_found e then let i := edit (MkImage id ref "" None "" "" "" None now) in d <-? i_create i d ;; Ok (i, d) else Err e
  end.
Definition set_built (digest : string) (now : Z) (i : Image) : Image :=
  MkImage (im_ID i) (im_Ref i) digest (Some now) (im_LastDigest i) (im_LastTag i) (im_LastError i) (im_CheckedAt i) (im_CreatedAt i).
Definition set_checked (digest tag : string) (err : option string) (now : Z) (i : Image) : Image :=
  match err with
  | Some e => MkImage (im_ID i) (im_Ref i) (im_Digest i) (im_BuiltAt i) (im_LastDigest i) (im_LastTag i) e (Some now) (im_CreatedAt i)
  | None => MkImage (im_ID i) (im_Ref i) (im_Digest i) (im_BuiltAt i) digest tag "" (Some now) (im_CreatedAt i)
  end.
Definition Built (id : string) (now : Z) (ref digest : string) (d : Tables) : res (Image * Tables) := upsert id now ref (set_built digest now) d.
Definition Checked (id : string) (now : Z) (ref digest tag : string) (err : option string) (d : Tables) : res (Image * Tables) :=
  upsert id now ref (set_checked digest tag err now) d.

(** ** The daemon of a node *)

Record DImage := MkDImage { di_ID : string; di_Tags : list string; di_Labels : gmap string string; di_Size : Z }.
(** What the code asks of the Docker of a node; [present] are its images, for
    the laws to speak about.  Removing is by name, an id or a tag. *)
Class Daemon (W : Type) := {
  present : W -> list DImage;
  ListImages : gmap string string -> W -> res (list DImage);
  RemoveImage : string -> W -> W * option error;
  Pull : string -> string -> W -> W * option error;
  LocalDigest : string -> W -> res string;
  IsConflictErr : error -> bool }.
Definition is_gone (e : error) : bool := is_sentinel "docker.ErrNotFound" e.
Definition has_labels (ls : gmap string string) (im : DImage) : Prop := forall k v, ls !! k = Some v -> di_Labels im !! k = Some v.
Definition names (im : DImage) : list string := di_ID im :: di_Tags im.
(** What Docker documents: a listing by labels is the images that carry them, a
    name is one image's, and a removal takes the image of that name (or one of
    its tags) and images without a tag, nothing else. *)
Class DaemonLaws (W : Type) `{Daemon W} := {
  list_law : forall w ls l, ListImages ls w = Ok l -> forall im, im ∈ l <-> im ∈ present w /\ has_labels ls im;
  name_law : forall w x y n, x ∈ present w -> y ∈ present w -> n ∈ names x -> n ∈ names y -> x = y;
  remove_law : forall w ref im, im ∈ present w -> ref ∉ names im -> di_Tags im <> [] -> im ∈ present (RemoveImage ref w).1 }.

Section Daemon.
Context {W : Type} `{Daemon W}.

Definition isBuild (w : W) (ref id : string) : bool :=
  if String.eqb id "" then false
  else match ListImages built_label w with Err _ => false | Ok ims => existsb (fun im => String.eqb (di_ID im) id && contains (di_Tags im) ref) ims end.
(** The registry digest, [""] for a build of ours. *)
Definition Ensure (d : Tables) (ref auth : string) (w : W) : W * res string :=
  let pulled := let '(w, e) := Pull ref auth w in match e with Some e => (w, Err e) | None => (w, LocalDigest ref w) end in
  let other :=
    if contains_str ref "@sha256:" then
      match LocalDigest ref w with Ok dg => if negb (String.eqb dg "") then (w, Ok dg) else pulled | Err _ => pulled end
    else pulled in
  match GetByRef d ref with
  | Err _ => other
  | Ok i =>
      match im_BuiltAt i with
      | None => other
      | Some _ =>
          if isBuild w ref (im_Digest i) then (w, Ok "")
          else match LocalDigest ref w with
          | Ok _ => (w, Ok "")
          | Err e =>
              if negb (is_gone e) then (w, Err e)
              else if negb (has_prefix ref ClusterRegistry) then (w, Err (Wrap (Sprintf "%s: %w" [AStr ref]) ErrCleanedUp))
              else let '(w, e) := Pull ref "" w in match e with Some e => (w, Err e) | None => (w, Ok "") end
          end
      end
  end.

(** ** Pruning a node *)

(** The names of one image, untagged one after the other. *)
Fixpoint untag (im : DImage) (last : string) (refs : list string) (w : W) (out : list string * Z * list error) : W * (list string * Z * list error) :=
  match refs with
  | [] => (w, out)
  | ref :: refs =>
      let '(removed, freed, errs) := out in
      let '(w, e) := RemoveImage ref w in
      untag im last refs w
        match e with
        | None => if String.eqb ref last then (removed ++ [di_ID im], freed + di_Size im, errs) else out
        | Some e => if IsConflictErr e || is_gone e then out else (removed, freed, errs ++ [e])
        end
  end.
Definition refs_of (im : DImage) : list string := match di_Tags im with [] => [di_ID im] | ts => ts end.
Definition kept_image (keep : list string) (im : DImage) : bool := contains keep (di_ID im) || existsb (contains keep) (di_Tags im).
Fixpoint prune_all (keep : list string) (ims : list DImage) (w : W) (out : list string * Z * list error) : W * (list string * Z * list error) :=
  match ims with
  | [] => (w, out)
  | im :: ims =>
      if kept_image keep im then prune_all keep ims w out
      else let '(w, out) := untag im (List.last (refs_of im) "") (refs_of im) w out in prune_all keep ims w out
  end.
Definition join_errs (es : list error) : option error := match es with [] => None | _ => Some (JoinErr es) end.
Definition PruneImages (labels : gmap string string) (keep : list string) (w : W) : W * (list string * Z * option error) :=
  match ListImages labels w with
  | Err e => (w, ([], 0, Some e))
  | Ok ims => let '(w, (removed, freed, errs)) := prune_all keep ims w ([], 0, []) in (w, (removed, freed, join_errs errs))
  end.
End Daemon.

(** ** A cleanup *)

Record Plan_ := MkPlan { Keep : list string; drop_rows : list Image }.
Definition plan_keeps (now : Z) (keep extra : list string) (i : Image) (built : Z) : bool :=
  contains keep (im_ID i) || contains extra (im_Ref i) || contains extra (im_Digest i) || (now - Grace <? built).
Definition plan_row (now : Z) (keep extra : list string) (p : Plan_) (i : Image) : Plan_ :=
  match im_BuiltAt i with
  | None => p
  | Some b => if plan_keeps now keep extra i b then MkPlan (Keep p ++ [im_Ref i; im_Digest i]) (drop_rows p) else MkPlan (Keep p) (drop_rows p ++ [i])
  end.
Definition Plan (now : Z) (keep extra : list string) (d : Tables) : Plan_ := fold_left (plan_row now keep extra) (images d) (MkPlan extra []).
Definition Prune {W} `{Daemon W} (p : Plan_) (w : W) : W * (list string * Z * option error) := PruneImages built_label (Keep p) w.
Fixpoint settle (drop : list Image) (pinned removed : list string) (d : Tables) : Tables * option error :=
  match drop with
  | [] => (d, None)
  | i :: drop =>
      if contains pinned (im_ID i) || negb (contains removed (im_Digest i)) then settle drop pinned removed d
      else match i_delete (im_ID i) d with Ok d => settle drop pinned removed d | Err e => (d, Some e) end
  end.
Definition Settle (p : Plan_) (pinned removed : list string) (d : Tables) : Tables * option error := settle (drop_rows p) pinned removed d.
Definition Cleanup {W} `{Daemon W} (now : Z) (keep pinned extra : list string) (d : Tables) (w : W) : Tables * W * (list string * Z * option error) :=
  let p := Plan now keep extra d in
  let '(w, (removed, freed, e1)) := Prune p w in
  let '(d, e2) := Settle p pinned removed d in
  (d, w, (removed, freed, match e2 with None => e1 | Some e2 => join_errs (match e1 with Some e1 => [e1; e2] | None => [e2] end) end)).

(** ** What pruning spares *)

Section Spares.
Context {W : Type} `{DaemonLaws W}.

Lemma untag_keeps im last refs w out w' out' k : (forall r, r ∈ refs -> r ∉ names k) -> di_Tags k <> [] -> untag im last refs w out = (w', out') -> k ∈ present w -> k ∈ present w'.
Proof.
  revert w out. induction refs as [|r refs IH]; intros w out Hr Ht; cbn [untag]; [by intros [= <- _]|]. destruct out as [[rm fr] es]. destruct (RemoveImage r w) as [w1 e] eqn:E. intros Hu Hk.
  apply (IH _ _ (fun r0 Hin => Hr r0 ltac:(by right)) Ht Hu). change w1 with (w1, e).1. rewrite <-E. apply remove_law; [done|apply Hr; by left|done].
Qed.
Lemma refs_names im r : r ∈ refs_of im -> r ∈ names im.
Proof. unfold refs_of, names. destruct (di_Tags im) as [|t ts]; [by intros ->%list_elem_of_singleton; left|by right]. Qed.
Lemma kept_image_spec keep im : kept_image keep im = true <-> exists n, n ∈ names im /\ n ∈ keep.
Proof.
  unfold kept_image, names. rewrite orb_true_iff, existsb_exists. setoid_rewrite elem_of_cons. split.
  - intros [Hc|(t & Ht%list_elem_of_In & Hc)]; [exists (di_ID im); destruct (contains_spec keep (di_ID im))|exists t; destruct (contains_spec keep t)]; auto; done.
  - intros (n & [->|Hn] & Hk); [left; by destruct (contains_spec keep (di_ID im))|right; exists n; split; [by apply list_elem_of_In|by destruct (contains_spec keep n)]].
Qed.
(** An image named by nothing that is pruned stays. *)
Lemma prune_all_keeps keep ims w out w' out' k : (forall im, im ∈ ims -> kept_image keep im = false -> forall r, r ∈ names im -> r ∉ names k) -> di_Tags k <> [] ->
  prune_all keep ims w out = (w', out') -> k ∈ present w -> k ∈ present w'.
Proof.
  revert w out. induction ims as [|im ims IH]; intros w out Hn Ht; cbn [prune_all]; [by intros [= <- _]|]. assert (forall im', im' ∈ ims -> kept_image keep im' = false -> forall r, r ∈ names im' -> r ∉ names k) as Hn' by (intros; apply (Hn im'); [by right|done|done]).
  destruct (kept_image keep im) eqn:Ek; [by apply IH|]. destruct (untag _ _ _ w out) as [w1 o1] eqn:E. intros Hp Hk. apply (IH _ _ Hn' Ht Hp).
  apply (untag_keeps _ _ _ _ _ _ _ _ (fun r Hr => Hn im ltac:(by left) Ek r (refs_names im r Hr)) Ht E Hk).
Qed.
Lemma PruneImages_keeps ls keep w w' r k : PruneImages ls keep w = (w', r) -> k ∈ present w -> di_Tags k <> [] -> (kept_image keep k = true \/ ~ has_labels ls k) -> k ∈ present w'.
Proof.
  unfold PruneImages. destruct (ListImages ls w) as [ims|] eqn:El; [|by intros [= <- _]]. pose proof (list_law w ls ims El) as Hl. destruct (prune_all _ _ _ _) as [w1 [[rm fr] es]] eqn:E. intros [= <- _] Hk Ht Hor.
  apply (prune_all_keeps _ _ _ _ _ _ k) in E; [done| |done|done]. intros im Him Ekim n Hn Hnk. apply Hl in Him as [Him Hlab].
  assert (im = k) as -> by by apply (name_law w im k n). destruct Hor as [Hkeep|Hno]; [congruence|done].
Qed.
Lemma untag_removed im last refs w out w' out' : untag im last refs w out = (w', out') -> forall x, x ∈ out'.1.1 -> x ∈ out.1.1 \/ x = di_ID im.
Proof.
  revert w out. induction refs as [|r refs IH]; intros w out; cbn [untag]; [intros [= _ <-]; by left|]. destruct out as [[rm fr] es]. destruct (RemoveImage r w) as [w1 e]. intros Hu x Hx. apply (IH _ _ Hu) in Hx as [Hx|Hx]; [|by right].
  destruct e as [e|]; [destruct (_ || _); by left|]. destruct (String.eqb r last); [|by left]. cbn in Hx. apply elem_of_app in Hx as [Hx|Hx%list_elem_of_singleton]; [by left|by right].
Qed.
Lemma prune_all_removed keep ims w out w' out' : prune_all keep ims w out = (w', out') -> forall x, x ∈ out'.1.1 -> x ∈ out.1.1 \/ exists im, im ∈ ims /\ kept_image keep im = false /\ x = di_ID im.
Proof.
  revert w out. induction ims as [|im ims IH]; intros w out; cbn [prune_all]; [intros [= _ <-]; by left|]. destruct (kept_image keep im) eqn:Ek.
  - intros Hp x Hx. apply (IH _ _ Hp) in Hx as [Hx|(i & Hi & H')]; [by left|right]. exists i. split; [by right|done].
  - destruct (untag _ _ _ w out) as [w1 o1] eqn:E. intros Hp x Hx. apply (IH _ _ Hp) in Hx as [Hx|(i & Hi & H')]; [|right; exists i; split; [by right|done]].
    apply (untag_removed _ _ _ _ _ _ _ E) in Hx as [Hx|Hx]; [by left|right]. exists im. split; [by left|done].
Qed.
(** What a prune reports gone carried the labels and no kept name. *)
Lemma PruneImages_removed ls keep w w' removed freed e : PruneImages ls keep w = (w', (removed, freed, e)) ->
  forall x, x ∈ removed -> exists im, im ∈ present w /\ has_labels ls im /\ kept_image keep im = false /\ x = di_ID im.
Proof.
  unfold PruneImages. destruct (ListImages ls w) as [ims|] eqn:El; [|intros [= _ <- _ _] x Hx; by apply elem_of_nil in Hx]. destruct (prune_all _ _ _ _) as [w1 [[rm fr] es]] eqn:E. intros [= _ <- _ _] x Hx.
  destruct (prune_all_removed _ _ _ _ _ _ E x Hx) as [Hx'|(im & Him & Hk & ->)]; [by apply elem_of_nil in Hx'|]. apply (list_law w ls ims El) in Him as [Him Hl]. by exists im.
Qed.
End Spares.

(** ** What a plan and a settlement do to the rows *)

Definition verdict (now : Z) (keep extra : list string) (i : Image) : option bool := (fun b => plan_keeps now keep extra i b) <$> im_BuiltAt i.
Lemma plan_fold now keep extra js p : fold_left (plan_row now keep extra) js p =
  MkPlan (Keep p ++ flat_map (fun i => match verdict now keep extra i with Some true => [im_Ref i; im_Digest i] | _ => [] end) js)
    (drop_rows p ++ List.filter (fun i => match verdict now keep extra i with Some false => true | _ => false end) js).
Proof.
  revert p. induction js as [|i js IH]; intros p; cbn [fold_left flat_map List.filter]; [rewrite !app_nil_r; by destruct p|]. rewrite IH. unfold plan_row.
  assert (verdict now keep extra i = (fun b => plan_keeps now keep extra i b) <$> im_BuiltAt i) as -> by done.
  destruct (im_BuiltAt i) as [b|]; cbn [fmap option_fmap option_map]; [destruct (plan_keeps now keep extra i b)|]; cbn [Keep drop_rows app]; try rewrite <-!app_assoc; done.
Qed.
Lemma elem_of_Keep now keep extra d x : x ∈ Keep (Plan now keep extra d) <->
  x ∈ extra \/ exists i, i ∈ images d /\ verdict now keep extra i = Some true /\ (x = im_Ref i \/ x = im_Digest i).
Proof.
  unfold Plan. rewrite plan_fold. cbn [Keep]. rewrite elem_of_app, (list_elem_of_In (flat_map _ _)), in_flat_map. f_equiv. split.
  - intros (i & Hi%list_elem_of_In & Hx). exists i. destruct (verdict now keep extra i) as [[]|]; try done. destruct Hx as [<-|[<-|[]]]; auto.
  - intros (i & Hi & Hv & Hx). exists i. split; [by apply list_elem_of_In|]. rewrite Hv. destruct Hx as [->| ->]; [by left|right; by left].
Qed.
Lemma elem_of_drop now keep extra d i : i ∈ drop_rows (Plan now keep extra d) <-> i ∈ images d /\ verdict now keep extra i = Some false.
Proof. unfold Plan. rewrite plan_fold. cbn [drop_rows app]. rewrite elem_of_filterb. destruct (verdict now keep extra i) as [[]|]; split; by intros [? ?]. Qed.
Lemma elem_of_ImageIDs d i : i ∈ ImageIDs d <-> exists p, p ∈ pinned d /\ rt_ImageID p = Some i.
Proof. unfold ImageIDs. by rewrite elem_of_remove_dups, list_elem_of_omap. Qed.
Lemma unpin_none id ps : (forall p, p ∈ ps -> rt_ImageID p <> Some id) -> map (unpin id) ps = ps.
Proof.
  intros Hn. induction ps as [|p ps IH]; [done|]. cbn [map]. f_equal; [|apply IH; intros q Hq; apply Hn; by right]. unfold unpin. rewrite bool_decide_false; [done|]. apply Hn. by left.
Qed.
(** A row goes only if the plan let it, no pin refers to it and its image went;
    no pin changes. *)
Lemma settle_ok drop ids removed d d' e : (forall i, i ∈ ImageIDs d -> i ∈ ids) -> settle drop ids removed d = (d', e) ->
  releases d' = releases d /\ pinned d' = pinned d /\ (forall i, i ∈ images d' -> i ∈ images d) /\
  forall i, i ∈ images d -> i ∉ images d' -> exists j, j ∈ drop /\ im_ID j = im_ID i /\ (im_ID i ∉ ids) /\ im_Digest j ∈ removed.
Proof.
  revert d. induction drop as [|j drop IH]; intros d Hids; cbn [settle]; [by intros [= <- _]|]. destruct (contains_spec ids (im_ID j)) as [Hp|Hp]; cbn [orb].
  - intros (H1 & H2 & H3 & H4)%(IH d Hids). split_and!; try done. intros i Hi Hn. destruct (H4 i Hi Hn) as (x & Hx & H5). exists x. split; [by right|done].
  - destruct (contains_spec removed (im_Digest j)) as [Hr|Hr]; cbn [negb].
    + unfold i_delete. destruct (r_delete (im_ID j) (images d)) as [t|] eqn:E; cbn; [|by intros [= <- _]]. apply r_delete_ok in E as [_ Hin].
      assert (map (unpin (im_ID j)) (pinned d) = pinned d) as Hun by (apply unpin_none; intros p Hpin E; apply Hp, Hids, elem_of_ImageIDs; by exists p). rewrite Hun.
      intros Hs. destruct (IH (MkTables (releases d) (pinned d) t (stack_rows d)) Hids Hs) as (H1 & H2 & H3 & H4). cbn [releases pinned images] in *. split_and!; try done; [intros i Hi; by apply Hin, H3|].
      intros i Hi Hn. destruct (decide (im_ID i = im_ID j)) as [Ei|Ei]; [exists j; split; [by left|]; split; [done|]; by rewrite Ei|].
      destruct (H4 i) as (x & Hx & H5); [apply Hin; by split|done|]. exists x. split; [by right|done].
    + intros (H1 & H2 & H3 & H4)%(IH d Hids). split_and!; try done. intros i Hi Hn. destruct (H4 i Hi Hn) as (x & Hx & H5). exists x. split; [by right|done].
Qed.
