(* ===== verification/Backup.v ===== *)
(** * Backups ([internal/service/internal/leaf/backup/backup.go])

    Backup destinations, the schedules on volumes and the run rows, and the
    rules the flow leans on: who sees which destination, which runs may be
    restored, where archives live and which ones pruning may delete.  The
    database is the three tables; what the code asks of others (a new id, the
    clock, a random key, a test write, the time zone database) is an
    argument. *)
From S2P Require Import Prelude GoStrings Errs Regexp Store Rows.

Definition Local : string := "local".
Definition S3 : string := "s3".
Definition Pause : string := "pause".
Definition Stop : string := "stop".
Definition Live : string := "live".
Definition KindVolume : string := "volume".
Definition KindPanel : string := "panel".
Definition Running : string := "running".
Definition Done : string := "done".
Definition Failed : string := "failed".
Definition PreRestore : string := "pre-restore".

(** ** Rows *)

Record BackupDest := MkDest {
  d_ID : string; d_OrgID : option string; d_Kind : string; d_Name : string; d_Endpoint : string; d_Region : string;
  d_Bucket : string; d_AccessKey : string; d_SecretKey : string; d_ArchiveKey : string; d_Shared : bool;
  d_CreatedAt : Z; d_ApprovedEndpoint : string; d_ApprovedBy : string }.

Record BackupSchedule := MkSchedule {
  s_ID : string; s_VolumeID : string; s_Method : string; s_DestID : option string; s_Cron : string;
  s_Timezone : string; s_Keep : Z; s_Mode : string; s_CreatedAt : Z }.

Record BackupRun := MkRun {
  r_ID : string; r_Kind : string; r_VolumeID : option string; r_ScheduleID : option string; r_DestID : string;
  r_Trigger : string; r_Status : string; r_ObjectKey : string; r_SizeBytes : Z; r_Error : string; r_CreatedAt : Z;
  r_FinishedAt : option Z; r_GroupID : option string; r_RecoveryGen : Z; r_MasterGen : Z; r_Dest : string }.

#[export] Instance dest_id : HasId BackupDest := d_ID.
#[export] Instance schedule_id : HasId BackupSchedule := s_ID.
#[export] Instance run_id : HasId BackupRun := r_ID.

Record Db := MkDb { dests : list BackupDest; schedules : list BackupSchedule; runs : list BackupRun }.
Definition set_dests (db : Db) (ds : list BackupDest) : Db := MkDb ds (schedules db) (runs db).
Definition set_schedules (db : Db) (ss : list BackupSchedule) : Db := MkDb (dests db) ss (runs db).
Definition set_runs (db : Db) (rs : list BackupRun) : Db := MkDb (dests db) (schedules db) rs.

(** The schema's REFERENCES and its trigger on a destination with runs. *)
Definition fk_failed : error := New "FOREIGN KEY constraint failed".
Definition has_dest (db : Db) (id : string) : bool := is_ok (r_get (dests db) id).
Definition fk_schedule (db : Db) (b : BackupSchedule) : bool :=
  match s_DestID b with Some id => has_dest db id | None => true end.

Definition create_schedule (b : BackupSchedule) (db : Db) : res Db :=
  if fk_schedule db b then match r_create b (schedules db) with Ok ss => Ok (set_schedules db ss) | Err e => Err e end
  else Err fk_failed.
Definition update_schedule (b : BackupSchedule) (db : Db) : res Db :=
  if fk_schedule db b then match r_update b (schedules db) with Ok ss => Ok (set_schedules db ss) | Err e => Err e end
  else Err fk_failed.
(** The name of the destination is no column. *)
Definition named (r : BackupRun) (name : string) : BackupRun :=
  MkRun (r_ID r) (r_Kind r) (r_VolumeID r) (r_ScheduleID r) (r_DestID r) (r_Trigger r) (r_Status r) (r_ObjectKey r)
    (r_SizeBytes r) (r_Error r) (r_CreatedAt r) (r_FinishedAt r) (r_GroupID r) (r_RecoveryGen r) (r_MasterGen r) name.
Definition fk_run (db : Db) (r : BackupRun) : bool :=
  has_dest db (r_DestID r) && match r_ScheduleID r with Some id => is_ok (r_get (schedules db) id) | None => true end.
Definition create_run (r : BackupRun) (db : Db) : res Db :=
  if fk_run db r then match r_create (named r "") (runs db) with Ok rs => Ok (set_runs db rs) | Err e => Err e end
  else Err fk_failed.
Definition update_run (r : BackupRun) (db : Db) : res Db :=
  if fk_run db r then match r_update (named r "") (runs db) with Ok rs => Ok (set_runs db rs) | Err e => Err e end
  else Err fk_failed.
Definition null_dest (id : string) (b : BackupSchedule) : BackupSchedule :=
  MkSchedule (s_ID b) (s_VolumeID b) (s_Method b)
    (if bool_decide (s_DestID b = Some id) then None else s_DestID b)
    (s_Cron b) (s_Timezone b) (s_Keep b) (s_Mode b) (s_CreatedAt b).
Definition delete_dest (id : string) (db : Db) : res Db :=
  if existsb (fun r => String.eqb (r_DestID r) id) (runs db) then Err (New "backup destination still has runs")
  else match r_delete id (dests db) with
    | Ok ds => Ok (MkDb ds (map (null_dest id) (schedules db)) (runs db))
    | Err e => Err e
    end.

Definition org_is (orgID : option string) (d : BackupDest) : bool := bool_decide (d_OrgID d = orgID).
(** [ListByOrg]; [None] lists the global ones. *)
Definition ListByOrg (db : Db) (orgID : option string) : list BackupDest := List.filter (org_is orgID) (dests db).

(** ** Destinations *)

Record Dest := MkDestForm {
  f_Name : string; f_Endpoint : string; f_Region : string; f_Bucket : string; f_AccessKey : string;
  f_SecretKey : string; f_ArchiveKey : string; f_Shared : bool }.

Definition set_endpoint (d : BackupDest) (dir : string) : BackupDest :=
  MkDest (d_ID d) (d_OrgID d) (d_Kind d) (d_Name d) dir (d_Region d) (d_Bucket d) (d_AccessKey d) (d_SecretKey d)
    (d_ArchiveKey d) (d_Shared d) (d_CreatedAt d) (d_ApprovedEndpoint d) (d_ApprovedBy d).

Definition update_dest (d : BackupDest) (db : Db) : res Db :=
  match r_update d (dests db) with Ok ds => Ok (set_dests db ds) | Err e => Err e end.
Definition create_dest (d : BackupDest) (db : Db) : res Db :=
  match r_create d (dests db) with Ok ds => Ok (set_dests db ds) | Err e => Err e end.

Definition EnsureLocal (id key : string) (now : Z) (dir : string) (db : Db) : res (Db * BackupDest) :=
  match find_first (fun d => String.eqb (d_Kind d) Local) (ListByOrg db None) with
  | Some d =>
      if String.eqb (d_Endpoint d) dir then Ok (db, d)
      else let d := set_endpoint d dir in
        match update_dest d db with Ok db => Ok (db, d) | Err e => Err e end
  | None =>
      let d := MkDest id None Local Local dir "" "" "" "" key true now "" "" in
      match create_dest d db with Ok db => Ok (db, d) | Err e => Err e end
  end.

(** [regexp] classes. *)
Definition name_byte (c : ascii) : bool :=
  is_digit c || is_lower c || is_upper c || Ascii.eqb c "_" || Ascii.eqb c "-".
(** [^[A-Za-z0-9_-]{1,64}$] *)
Definition nameRe : re := RCat (RChr name_byte) (RUpTo 63 (RChr name_byte)).

(** [strings.Cut] by a substring: before and after the leftmost [k]. *)
Fixpoint cut_str (k s : string) : option (string * string) :=
  match strip_prefix k s with
  | Some t => Some ("", t)
  | None =>
      match s with
      | EmptyString => None
      | String c s => match cut_str k s with Some (a, b) => Some (String c a, b) | None => None end
      end
  end.

Definition letter_or_digit (c : ascii) : bool := is_digit c || is_lower c || is_upper c.
(** [wordByte] of the last byte before and of the first byte after. *)
Fixpoint word_last (s : string) : bool :=
  match s with EmptyString => false | String c EmptyString => letter_or_digit c | String _ s => word_last s end.
Definition word_head (s : string) : bool := match s with EmptyString => false | String c _ => letter_or_digit c end.

(** One key's turn of [redact]; a message has at most its length of turns. *)
Fixpoint redact_key (fuel : nat) (k rest : string) : string :=
  match fuel with
  | O => rest
  | S f =>
      match cut_str k rest with
      | None => rest
      | Some (before, after) =>
          before +:+ (if (8 <=? slen k) || (negb (word_last before) && negb (word_head after)) then "***" else k) +:+
          redact_key f k after
      end
  end.
Definition redact (msg : string) (keys : list string) : string :=
  fold_left (fun msg k => if String.eqb k "" then msg else redact_key (String.length msg) k msg) keys msg.

Definition bad_name : error := Invalidf "name" "A name is letters, digits, - and _ (it is used as ${{ org.backups.NAME }})." [].
Definition bad_probe (bucket : string) : error :=
  Invalidf "endpoint" "A test file could not be written to bucket %s. Check the endpoint, bucket and keys. The endpoint must be a public host." [AStr bucket].
Definition bad_probe_admin (bucket msg : string) : error :=
  Invalidf "endpoint" "A test file could not be written to bucket %s. Check the endpoint, bucket and keys.\n%s" [AStr bucket; AStr msg].

Definition with_form (d : BackupDest) (name endpoint bucket : string) (s : Dest) : BackupDest :=
  MkDest (d_ID d) (d_OrgID d) (d_Kind d) name endpoint (trim_space (f_Region s)) bucket (trim_space (f_AccessKey s))
    (f_SecretKey s) (d_ArchiveKey d) (f_Shared s && bool_decide (d_OrgID d = None)) (d_CreatedAt d)
    (d_ApprovedEndpoint d) (d_ApprovedBy d).

(** [probe] is a test write: the words it fails with, if it does. *)
Definition Probe := BackupDest -> option string.

Definition fill (db : Db) (d : BackupDest) (s : Dest) (probe : option Probe) (more : option error) : res BackupDest :=
  let name := trim_space (f_Name s) in
  let endpoint := trim_byte_right "/" (trim_space (f_Endpoint s)) in
  let bucket := trim_space (f_Bucket s) in
  let bad :=
    (if re_match nameRe name then [] else [bad_name]) ++
    (if String.eqb name Local then [Invalidf "name" "%q is the install's own destination." [AStr name]] else []) ++
    (if negb (String.eqb endpoint "") && negb (has_prefix endpoint "https://") && negb (has_prefix endpoint "http://") then
       [Invalidf "endpoint" "An endpoint is an http(s) URL, or empty for AWS." []] else []) ++
    (if String.eqb bucket "" then [Invalidf "bucket" "An S3 destination needs a bucket." []] else []) ++
    (if String.eqb (trim_space (f_AccessKey s)) "" then
       [Invalidf "access_key" "An S3 destination needs an access key." []] else []) ++
    match more with Some e => [e] | None => [] end in
  match errors_join bad with
  | Some e => Err e
  | None =>
      if existsb (fun p => negb (String.eqb (d_ID p) (d_ID d)) && String.eqb (d_Name p) name) (ListByOrg db (d_OrgID d)) then
        Err (Conflictf "a destination named %s already exists" [AStr name])
      else
        let d := with_form d name endpoint bucket s in
        match probe with
        | None => Ok d
        | Some p =>
            match p d with
            | None => Ok d
            | Some words =>
                match d_OrgID d with
                | Some _ => Err (bad_probe (d_Bucket d))
                | None => Err (bad_probe_admin (d_Bucket d) (redact words [d_SecretKey d; d_AccessKey d]))
                end
            end
        end
  end.

Definition or_str (a b : string) : string := if String.eqb a "" then b else a.

Definition Create (id newKey : string) (now : Z) (orgID : option string) (s : Dest) (probe : option Probe) (db : Db) :
    res (Db * BackupDest) :=
  let d := MkDest id orgID S3 "" "" "" "" "" "" (or_str (f_ArchiveKey s) newKey) false now "" "" in
  let noSecret := if String.eqb (f_SecretKey s) "" then
    Some (Invalidf "secret_key" "An S3 destination needs a secret key." []) else None in
  match fill db d s probe noSecret with
  | Err e => Err e
  | Ok d => match create_dest d db with Ok db => Ok (db, d) | Err e => Err e end
  end.

Definition local_refused : error := Refusedf "the local destination is part of the install" [].

(** Empty keys keep the stored ones. *)
Definition kept_keys (d : BackupDest) (s : Dest) : Dest :=
  MkDestForm (f_Name s) (f_Endpoint s) (f_Region s) (f_Bucket s) (or_str (f_AccessKey s) (d_AccessKey d))
    (or_str (f_SecretKey s) (d_SecretKey d)) (f_ArchiveKey s) (f_Shared s).

Definition Update (d : BackupDest) (s : Dest) (probe : option Probe) (db : Db) : res (Db * BackupDest) :=
  if String.eqb (d_Kind d) Local then Err local_refused
  else match fill db d (kept_keys d s) probe None with
    | Err e => Err e
    | Ok d => match update_dest d db with Ok db => Ok (db, d) | Err e => Err e end
    end.

Definition Approve (d : BackupDest) (addr userID : string) (db : Db) : res (Db * BackupDest) :=
  let d := MkDest (d_ID d) (d_OrgID d) (d_Kind d) (d_Name d) (d_Endpoint d) (d_Region d) (d_Bucket d) (d_AccessKey d)
    (d_SecretKey d) (d_ArchiveKey d) (d_Shared d) (d_CreatedAt d) addr userID in
  match update_dest d db with Ok db => Ok (db, d) | Err e => Err e end.

Definition Delete (d : BackupDest) (usedByPanel : bool) (db : Db) : res Db :=
  if String.eqb (d_Kind d) Local then Err local_refused
  else if usedByPanel then Err (Conflictf "the panel backup still uses %s" [AStr (d_Name d)])
  else if existsb (fun s => bool_decide (s_DestID s = Some (d_ID d))) (schedules db) then
    Err (Conflictf "a volume's backup schedule still uses %s" [AStr (d_Name d)])
  else match List.filter (fun r => String.eqb (r_DestID r) (d_ID d)) (runs db) with
    | _ :: _ => Err (Conflictf "%s still holds backups. Delete them first." [AStr (d_Name d)])
    | [] => delete_dest (d_ID d) db
    end.

Definition Get (db : Db) (id : string) : res BackupDest := r_get (dests db) id.

Definition visible (d : BackupDest) (orgID : string) : bool :=
  match d_OrgID d with None => d_Shared d | Some o => String.eqb o orgID end.

Definition For (db : Db) (orgID id : string) : res BackupDest :=
  d <-? r_get (dests db) id ;;
  if bool_decide (d_OrgID d = None) && negb (d_Shared d) then
    Err (Refusedf "the server destination %s is not shared with this org; an admin can share it (stackr dest set %s --server --shared)"
      [AStr (d_Name d); AStr (d_Name d)])
  else if visible d orgID then Ok d else Err ErrNotFound.

Definition blank1 (d : BackupDest) : BackupDest :=
  MkDest (d_ID d) (d_OrgID d) (d_Kind d) (d_Name d) (d_Endpoint d) (d_Region d) (d_Bucket d) (d_AccessKey d) "" ""
    (d_Shared d) (d_CreatedAt d) (d_ApprovedEndpoint d) (d_ApprovedBy d).
Definition blank (ds : list BackupDest) : list BackupDest := map blank1 ds.

Definition Visible (db : Db) (orgID : string) : list BackupDest :=
  blank (ListByOrg db (Some orgID) ++ List.filter d_Shared (ListByOrg db None)).
Definition Global (db : Db) : list BackupDest := blank (ListByOrg db None).

(** Regexp's own whitespace. *)
Definition re_space (c : ascii) : bool := contains [9; 10; 12; 13; 32]%nat (nat_of_ascii c).
Fixpoint skip (p : ascii -> bool) (s : string) : string :=
  match s with EmptyString => "" | String c t => if p c then skip p t else s end.
Fixpoint span (p : ascii -> bool) (s : string) : string * string :=
  match s with
  | EmptyString => ("", "")
  | String c t => if p c then let '(a, b) := span p t in (String c a, b) else ("", s)
  end.

(** [refRe]: whose destination a reference names, and which. *)
Definition ref_name (s : string) : option string :=
  let '(name, rest) := span name_byte s in
  if String.eqb name "" then None else if String.eqb (skip re_space rest) "}}" then Some name else None.
Definition parse_dest_ref (s : string) : option (bool * string) :=
  match strip_prefix "${{" s with
  | None => None
  | Some s =>
      let s := skip re_space s in
      match strip_prefix "org.backups." s with
      | Some t => pair true <$> ref_name t
      | None => match strip_prefix "stackr.backups." s with Some t => pair false <$> ref_name t | None => None end
      end
  end.

Definition Resolve (db : Db) (orgID ref : string) : res BackupDest :=
  let ref := trim_space ref in
  np <-? (if String.eqb ref "" then Ok ("", ListByOrg db None)
    else match parse_dest_ref ref with
      | None => Err (Invalidf "dest" "%q is not ${{ org.backups.NAME }} or ${{ stackr.backups.NAME }}" [AStr ref])
      | Some (true, name) => Ok (name, ListByOrg db (Some orgID))
      | Some (false, name) => Ok (name, ListByOrg db None)
      end) ;;
  match find_first (fun d => (String.eqb np.1 "" && String.eqb (d_Kind d) Local) ||
      (negb (String.eqb np.1 "") && String.eqb (d_Name d) np.1 && visible d orgID)) np.2 with
  | Some d => Ok d
  | None => Err (Invalidf "dest" "no backup destination %q" [AStr ref])
  end.

(** ** Schedules *)

(** [strings.Fields]: the runs of bytes between white space. *)
Fixpoint fields_go (s acc : string) : list string :=
  let flush := if String.eqb acc "" then [] else [acc] in
  match s with
  | EmptyString => flush
  | String a s1 =>
      if space1 a then flush ++ fields_go s1 ""
      else match s1 with
      | EmptyString => [acc +:+ String a ""]
      | String b s2 =>
          if space2 a b then flush ++ fields_go s2 ""
          else match s2 with
          | EmptyString => fields_go s1 (acc +:+ String a "")
          | String c s3 =>
              if space3 a b c then flush ++ fields_go s3 "" else fields_go s1 (acc +:+ String a "")
          end
      end
  end.
Definition fields (s : string) : list string := fields_go s "".

Definition cron_byte (c : ascii) : bool := is_digit c || has_byte c "*/,-".
Definition cron_last (c : ascii) : bool := cron_byte c || is_upper c || is_lower c.
(** [^(@(yearly|...)|([0-9*/,-]+\s+){4}[0-9A-Za-z*/,-]+)$] *)
Definition cronRe : re :=
  RAlt (RCat (RChr (Ascii.eqb "@"))
      (fold_right RAlt RNone (map RStr ["yearly"; "annually"; "monthly"; "weekly"; "daily"; "midnight"; "hourly"])))
    (RCat (RRep 4 (RCat (RPlus (RChr cron_byte)) (RPlus (RChr re_space)))) (RPlus (RChr cron_last))).

Record Schedule := MkScheduleForm {
  fs_Method : string; fs_DestID : option string; fs_Cron : string; fs_Timezone : string; fs_Keep : Z; fs_Mode : string }.

Section Schedules.
(** The zones [time.LoadLocation] knows. *)
Context (known_zone : string -> bool).

Definition fillSchedule (db : Db) (b : BackupSchedule) (orgID : string) (methods : list string) (s : Schedule) :
    res BackupSchedule :=
  match methods with
  | [] => Err (Refusedf "this volume has no backup method" [])
  | first :: _ =>
      let method := or_str (trim_space (fs_Method s)) first in
      let mode := or_str (trim_space (fs_Mode s)) Pause in
      let cron := join " " (fields (fs_Cron s)) in
      let tz := or_str (trim_space (fs_Timezone s)) "UTC" in
      if negb (contains methods method) then
        Err (Invalidf "method" "%q is not one of %s" [AStr method; AStr (join ", " methods)])
      else if negb (contains [Pause; Stop; Live] mode) then Err (Invalidf "mode" "mode is pause, stop or live" [])
      else if negb (re_match cronRe cron) then Err (Invalidf "schedule" "%q is not a cron line" [AStr (fs_Cron s)])
      else if negb (known_zone tz) then Err (Invalidf "timezone" "%q is not a time zone" [AStr (fs_Timezone s)])
      else if fs_Keep s <? 0 then Err (Invalidf "keep" "keep must not be negative" [])
      else
        _ <-? (match fs_DestID s with Some id => For db orgID id | None => Ok (MkDest "" None "" "" "" "" "" "" "" "" false 0 "" "") end) ;;
        Ok (MkSchedule (s_ID b) (s_VolumeID b) method (fs_DestID s) cron tz (fs_Keep s) mode (s_CreatedAt b))
  end.

Definition AddSchedule (id : string) (now : Z) (volumeID orgID : string) (methods : list string) (s : Schedule) (db : Db) :
    res (Db * BackupSchedule) :=
  match fillSchedule db (MkSchedule id volumeID "" None "" "" 0 "" now) orgID methods s with
  | Err e => Err e
  | Ok b => match create_schedule b db with Ok db => Ok (db, b) | Err e => Err e end
  end.

Definition UpdateSchedule (b : BackupSchedule) (orgID : string) (methods : list string) (s : Schedule) (db : Db) :
    res (Db * BackupSchedule) :=
  match fillSchedule db b orgID methods s with
  | Err e => Err e
  | Ok b => match update_schedule b db with Ok db => Ok (db, b) | Err e => Err e end
  end.
End Schedules.

Definition Schedules (db : Db) (volumeID : string) : list BackupSchedule :=
  List.filter (fun b => String.eqb (s_VolumeID b) volumeID) (schedules db).
Definition AllSchedules (db : Db) : list BackupSchedule := schedules db.
Definition GetSchedule (db : Db) (id : string) : res BackupSchedule := r_get (schedules db) id.
Definition null_schedule (id : string) (r : BackupRun) : BackupRun :=
  MkRun (r_ID r) (r_Kind r) (r_VolumeID r) (if bool_decide (r_ScheduleID r = Some id) then None else r_ScheduleID r)
    (r_DestID r) (r_Trigger r) (r_Status r) (r_ObjectKey r) (r_SizeBytes r) (r_Error r) (r_CreatedAt r) (r_FinishedAt r)
    (r_GroupID r) (r_RecoveryGen r) (r_MasterGen r) (r_Dest r).
Definition DeleteSchedule (id : string) (db : Db) : res Db :=
  match r_delete id (schedules db) with Ok ss => Ok (MkDb (dests db) ss (map (null_schedule id) (runs db))) | Err e => Err e end.

(** ** Runs *)

Definition StartIn (id : string) (now : Z) (kind : string) (volumeID scheduleID : option string)
    (destID trigger : string) (groupID : option string) (db : Db) : res (Db * BackupRun) :=
  let r := MkRun id kind volumeID scheduleID destID trigger Running "" 0 "" now None groupID 0 0 "" in
  if negb (String.eqb kind KindVolume) && negb (String.eqb kind KindPanel) then
    Err (Invalidf "kind" "a run is a volume or panel run" [])
  else if (String.eqb kind KindVolume && bool_decide (volumeID = None) && bool_decide (groupID = None)) ||
          (String.eqb kind KindPanel && negb (bool_decide (volumeID = None))) then
    Err (Invalidf "volume" "a volume run names its volume, a panel run none" [])
  else match create_run r db with Ok db => Ok (db, r) | Err e => Err e end.
Definition Start (id : string) (now : Z) (kind : string) (volumeID scheduleID : option string) (destID trigger : string)
    (db : Db) : res (Db * BackupRun) := StartIn id now kind volumeID scheduleID destID trigger None db.

Definition closed (r : BackupRun) (status key : string) (size : Z) (err : string) (now : Z) : BackupRun :=
  MkRun (r_ID r) (r_Kind r) (r_VolumeID r) (r_ScheduleID r) (r_DestID r) (r_Trigger r) status key size err
    (r_CreatedAt r) (Some now) (r_GroupID r) (r_RecoveryGen r) (r_MasterGen r) (r_Dest r).

(** [runErr] is the words of the error the flow ended with. *)
Definition Finish (now : Z) (r : BackupRun) (objectKey : string) (size : Z) (runErr : option string) (db : Db) :
    res (Db * BackupRun) :=
  let r := match runErr with
    | None => closed r Done objectKey size "" now
    | Some e => closed r Failed objectKey size e now
    end in
  match update_run r db with Ok db => Ok (db, r) | Err e => Err e end.

Definition ListByKind (db : Db) (kind : string) : list BackupRun := List.filter (fun r => String.eqb (r_Kind r) kind) (runs db).
Definition is_running (r : BackupRun) : bool := String.eqb (r_Status r) Running.

Fixpoint update_runs (rs : list BackupRun) (db : Db) : res Db :=
  match rs with
  | [] => Ok db
  | r :: rs => match update_run r db with Ok db => update_runs rs db | Err e => Err e end
  end.

Definition or_int (a b : Z) : Z := if a =? 0 then b else a.

Definition SettleRestored (now : Z) (note key : string) (size : Z) (db : Db) : res Db :=
  let rs := List.filter is_running (ListByKind db KindPanel) in
  update_runs (map (fun r =>
    if Nat.eqb (length rs) 1 then closed r Done (or_str (r_ObjectKey r) key) (or_int (r_SizeBytes r) size) note now
    else closed r Done (r_ObjectKey r) (r_SizeBytes r) note now) rs) db.

Definition interrupted : string := "stackrd restarted while this backup ran".
Definition interrupt (now : Z) (r : BackupRun) : BackupRun :=
  closed r Failed (r_ObjectKey r) (r_SizeBytes r) interrupted now.
Definition interrupt_kind (now : Z) (kind : string) (db : Db) : res Db :=
  update_runs (map (interrupt now) (List.filter is_running (ListByKind db kind))) db.
Definition Interrupted (now : Z) (db : Db) : res Db :=
  db <-? interrupt_kind now KindVolume db ;; interrupt_kind now KindPanel db.

Definition GetRun (db : Db) (id : string) : res BackupRun := r_get (runs db) id.

(** Newest first, each with its destination's name. *)
Fixpoint name_runs (db : Db) (rs : list BackupRun) : res (list BackupRun) :=
  match rs with
  | [] => Ok []
  | r :: rs => d <-? r_get (dests db) (r_DestID r) ;; rs <-? name_runs db rs ;; Ok (named r (d_Name d) :: rs)
  end.
Definition newer (a b : BackupRun) : bool := r_CreatedAt b <=? r_CreatedAt a.
Definition newest (db : Db) (rs : list BackupRun) : res (list BackupRun) := name_runs db (sort newer rs).
Definition Runs (db : Db) (volumeID : string) : res (list BackupRun) :=
  newest db (List.filter (fun r => bool_decide (r_VolumeID r = Some volumeID)) (runs db)).
Definition PanelRuns (db : Db) : res (list BackupRun) := newest db (ListByKind db KindPanel).

Definition Restorable (db : Db) (runID sourceVolumeID : string) : res BackupRun :=
  r <-? r_get (runs db) runID ;;
  if String.eqb (r_Kind r) KindPanel then
    Err (Refusedf "a panel backup is restored on the host with the restore script" [])
  else if negb (bool_decide (r_VolumeID r = Some sourceVolumeID)) then Err ErrNotFound
  else if negb (String.eqb (r_Status r) Done) || String.eqb (r_ObjectKey r) "" then
    Err (Refusedf "only a finished backup can be restored" [])
  else Ok r.

(** ** Where archives live *)

Definition Prefix (orgID volumeID scheduleID : string) : string :=
  "stackr/" +:+ orgID +:+ "/" +:+ volumeID +:+ "/" +:+ or_str scheduleID "manual".
Definition PanelPrefix (installID trigger : string) : string :=
  "stackr/_panel/" +:+ installID +:+ "/" +:+ (if String.eqb trigger "schedule" then "scheduled" else trigger).
Definition NodePrefix (nodeName groupID : string) : string := "stackr/_node/" +:+ nodeName +:+ "/" +:+ groupID.
Definition OrphanPrefix (volumeID : string) : string := "stackr/_orphan/" +:+ volumeID.

(** A UTC time, broken down. *)
Record Civil := MkCivil { year : Z; month : Z; day : Z; hour : Z; minute : Z; second : Z }.
Definition pad (n : nat) (x : Z) : string :=
  string_of_list_ascii (map (fun i => digit (x / 10 ^ Z.of_nat i mod 10)) (rev (seq 0 n))).
(** [Format("20060102-150405")] *)
Definition stamp (t : Civil) : string :=
  pad 4 (year t) +:+ pad 2 (month t) +:+ pad 2 (day t) +:+ "-" +:+ pad 2 (hour t) +:+ pad 2 (minute t) +:+ pad 2 (second t).
Definition ObjectKey (prefix name : string) (now : Civil) : string := prefix +:+ "/" +:+ stamp now +:+ "-" +:+ name.

(** ** Pruning *)

(** A destination's store, and whether the panel's database answers while the
    rows under a prefix are read. *)
Class Objects (B : Type) := {
  o_list : B -> string -> option (list string);
  o_rows : B -> string -> bool;
  o_delete : B -> string -> B * bool }.

Definition ListByPrefix (db : Db) (prefix : string) : list BackupRun :=
  List.filter (fun r => has_prefix (r_ObjectKey r) prefix) (runs db).

(** [a > b] on strings. *)
Definition after_str (a b : string) : bool := negb (String.leb a b).
Definition finished_well (r : BackupRun) : bool := String.eqb (r_Status r) Done && negb (String.eqb (r_ObjectKey r) "").
Definition newestDone (rows : list BackupRun) : option BackupRun :=
  fold_left (fun best r => if finished_well r &&
      match best with None => true | Some b => after_str (r_ObjectKey r) (r_ObjectKey b) end then Some r else best) rows None.

Section Prune.
Context {B : Type} `{Objects B}.

Fixpoint delete_keys (protect : list string) (ks : list string) (b : B) : B * list string :=
  match ks with
  | [] => (b, [])
  | k :: ks =>
      if contains protect k then delete_keys protect ks b
      else let '(b, ok) := o_delete b k in
        let '(b, gone) := delete_keys protect ks b in (b, if ok then k :: gone else gone)
  end.

(** A run row whose delete fails is left as it is. *)
Definition forget_run (db : Db) (id : string) : Db :=
  match r_delete id (runs db) with Ok rs => set_runs db rs | Err _ => db end.

Definition Prune (b : B) (db : Db) (prefix : string) (keep : Z) (protect : list string) : B * Db * list string :=
  if keep <=? 0 then (b, db, [])
  else match o_list b (prefix +:+ "/") with
    | None => (b, db, [])
    | Some keys =>
        if Z.of_nat (length keys) <=? keep then (b, db, [])
        else
          (* the error of the read is dropped: no rows *)
          let rows := if o_rows b (prefix +:+ "/") then ListByPrefix db (prefix +:+ "/") else [] in
          let protect := match newestDone rows with Some r => protect ++ [r_ObjectKey r] | None => protect end in
          let '(b, gone) := delete_keys protect (take (length keys - Z.to_nat keep) (sort_strings keys)) b in
          (b, fold_left forget_run (map r_ID (List.filter (fun r => contains gone (r_ObjectKey r)) rows)) db, gone)
    end.
End Prune.

Definition FirstSince (read : bool) (db : Db) (prefix : string) (since : Z) (skipID : string) : bool :=
  negb read || negb (existsb (fun r => negb (String.eqb (r_ID r) skipID) && String.eqb (r_Status r) Done && (since <? r_CreatedAt r))
    (ListByPrefix db (prefix +:+ "/"))).

(** ** The Go tests' examples *)

Example redact_tests : map (fun c => redact c.1 [c.2]) [
    ("context deadline exceeded", "x"); ("bad key x: denied", "x"); ("Credential=AKIAEXAMPLE1/2026/us-east-1", "AKIAEXAMPLE1");
    ("sig%2FAKIAEXAMPLE1%2B", "AKIAEXAMPLE1"); ("no key here", "")] =
  ["context deadline exceeded"; "bad key ***: denied"; "Credential=***/2026/us-east-1"; "sig%2F***%2B"; "no key here"].
Proof. vm_compute. reflexivity. Qed.

Example parse_dest_ref_tests : map parse_dest_ref ["${{ org.backups.nas }}"; "${{stackr.backups.b-2}}"; "${{ org.backups. }}"; "nas"] =
  [Some (true, "nas"); Some (false, "b-2"); None; None].
Proof. vm_compute. reflexivity. Qed.

Example cron_tests : map (re_match cronRe) ["0 3 * * *"; "@daily"; "*/5 1,2 * * MON-FRI"; "0 3 * *"; "@often"; ""] =
  [true; true; true; false; false; false].
Proof. vm_compute. reflexivity. Qed.

Example ObjectKey_test : ObjectKey (Prefix "o" "v" "") "data.tar" (MkCivil 2024 3 9 7 5 0) = "stackr/o/v/manual/20240309-070500-data.tar".
Proof. vm_compute. reflexivity. Qed.
