(* ===== verification/BackupRedact.v ===== *)
(** * The keys of a destination stay out of error words ([leaf/backup/backup.go])

    The words a failed test write ends with are shown to an admin with the
    secret and the access key masked. *)
From S2P Require Import Prelude GoStrings Errs Rows Backup.


(** [t] is [s] with some parts masked. *)
Inductive masks : string -> string -> Prop :=
| masks_nil : masks "" ""
| masks_same c s t : masks s t -> masks (String c s) (String c t)
| masks_out u s t : masks s t -> masks (u +:+ s) ("***" +:+ t).

Lemma masks_refl s : masks s s.
Proof. induction s; by constructor. Qed.

Lemma masks_app s t u : masks s t -> masks (u +:+ s) (u +:+ t).
Proof. intros Hm. induction u as [|c u IH]; [done|]. change (masks (String c (u +:+ s)) (String c (u +:+ t))). by constructor. Qed.

Lemma cut_str_spec k s a b : cut_str k s = Some (a, b) -> s = a +:+ k +:+ b.
Proof.
  revert a b. induction s as [|c s IH]; intros a b; simpl.
  - destruct (strip_prefix k "") as [t|] eqn:E; [|done]. intros [= <- <-]. by apply strip_prefix_spec in E.
  - destruct (strip_prefix k (String c s)) as [t|] eqn:E; [intros [= <- <-]; by apply strip_prefix_spec in E|].
    destruct (cut_str k s) as [[x y]|]; [|done]. intros [= <- <-]. by rewrite (IH x y).
Qed.

Lemma cut_str_None k s : cut_str k s = None -> contains_str s k = false.
Proof.
  induction s as [|c s IH]; cbn [cut_str contains_str]; unfold has_prefix; (destruct (strip_prefix k _); [done|]); [done|].
  destruct (cut_str k s) as [[x y]|]; [done|]. exact IH.
Qed.

Lemma prefix_of_app k a b : has_prefix a k = true -> has_prefix (a +:+ b) k = true.
Proof.
  rewrite !has_prefix_spec. intros [t ->]. exists (t +:+ b). by rewrite <-app_assoc_str.
Qed.

(** The cut is at the leftmost place. *)
Lemma cut_str_left k s a b : k <> "" -> cut_str k s = Some (a, b) -> contains_str a k = false.
Proof.
  intros Hk. revert a b. induction s as [|c s IH]; intros a b; cbn [cut_str].
  - destruct (strip_prefix k "") as [t|]; [|done]. intros [= <- <-]. by destruct k.
  - destruct (strip_prefix k (String c s)) as [t|] eqn:E; [intros [= <- <-]; by destruct k|].
    destruct (cut_str k s) as [[x y]|] eqn:Ec; [|done]. intros [= <- <-]. cbn [contains_str]. rewrite (IH x y), orb_false_r by done.
    apply not_true_iff_false. intros Hp. apply (prefix_of_app _ _ (k +:+ y)) in Hp.
    change (String c x +:+ k +:+ y) with (String c (x +:+ k +:+ y)) in Hp. rewrite <-(cut_str_spec _ _ _ _ Ec) in Hp.
    unfold has_prefix in Hp. by rewrite E in Hp.
Qed.

(** Words without a star are found on one side of a star. *)
Lemma prefix_star k a t : has_byte "*" k = false -> has_prefix (a +:+ String "*" t) k = true -> has_prefix a k = true.
Proof.
  revert a. induction k as [|c k IH]; intros a Hk; [done|]. cbn [has_byte] in Hk. apply orb_false_iff in Hk as [Hc Hk].
  destruct a as [|d a].
  - unfold has_prefix. change ("" +:+ String "*" t) with (String "*" t). cbn [strip_prefix]. rewrite Ascii.eqb_sym in Hc. by rewrite Hc.
  - unfold has_prefix. change (String d a +:+ String "*" t) with (String d (a +:+ String "*" t)). cbn [strip_prefix].
    destruct (Ascii.eqb c d); [|done]. apply (IH a Hk).
Qed.

Lemma contains_star k a t : k <> "" -> has_byte "*" k = false ->
  contains_str (a +:+ String "*" t) k = contains_str a k || contains_str t k.
Proof.
  intros Hne Hk. induction a as [|c a IH].
  - change ("" +:+ String "*" t) with (String "*" t). cbn [contains_str].
    assert (has_prefix "" k = false) as -> by (by destruct k).
    destruct (has_prefix (String "*" t) k) eqn:E; [|done]. apply (prefix_star k "" t Hk) in E. by destruct k.
  - change (String c a +:+ String "*" t) with (String c (a +:+ String "*" t)). cbn [contains_str]. rewrite IH, orb_assoc. f_equal.
    destruct (has_prefix (String c a) k) eqn:E.
    + change (String c (a +:+ String "*" t)) with (String c a +:+ String "*" t). by rewrite (prefix_of_app k (String c a) (String "*" t) E).
    + f_equal. apply not_true_iff_false. intros H. change (String c (a +:+ String "*" t)) with (String c a +:+ String "*" t) in H.
      apply (prefix_star k (String c a) t Hk) in H. congruence.
Qed.

(** Masking makes no word without a star appear. *)
Lemma masks_prefix s t k : masks s t -> has_byte "*" k = false -> has_prefix t k = true -> has_prefix s k = true.
Proof.
  intros Hm. revert k. induction Hm as [|c s t Hm IH|u s t Hm IH]; intros k Hk; [done| |].
  - destruct k as [|d k]; [done|]. cbn [has_byte] in Hk. apply orb_false_iff in Hk as [_ Hk]. unfold has_prefix. cbn [strip_prefix].
    destruct (Ascii.eqb d c); [|done]. apply (IH k Hk).
  - intros H. assert (k = "") as ->; [|by destruct (u +:+ s)]. apply (prefix_star k "" ("**" +:+ t) Hk) in H. by destruct k.
Qed.

Lemma contains_app_r a s k : contains_str s k = true -> contains_str (a +:+ s) k = true.
Proof.
  intros Hs. induction a as [|c a IH]; [done|]. change (String c a +:+ s) with (String c (a +:+ s)). cbn [contains_str].
  by rewrite IH, orb_true_r.
Qed.

Lemma masks_contains s t k : masks s t -> k <> "" -> has_byte "*" k = false -> contains_str t k = true -> contains_str s k = true.
Proof.
  intros Hm Hne Hk. induction Hm as [|c s t Hm IH|u s t Hm IH]; [done| |].
  - cbn [contains_str]. intros [H|H]%orb_true_iff; apply orb_true_iff; [left|right; by apply IH].
    by apply (masks_prefix (String c s) (String c t)); [constructor| |].
  - change ("***" +:+ t) with ("" +:+ String "*" ("" +:+ String "*" ("" +:+ String "*" t))). rewrite !contains_star by done.
    assert (contains_str "" k = false) as -> by (by destruct k). simpl. intros H. by apply contains_app_r, IH.
Qed.

Lemma redact_key_masks f k s : masks s (redact_key f k s).
Proof.
  revert s. induction f as [|f IH]; intros s; [apply masks_refl|]. cbn [redact_key].
  destruct (cut_str k s) as [[a b]|] eqn:E; [|apply masks_refl]. rewrite (cut_str_spec _ _ _ _ E) at 1. apply masks_app.
  destruct (_ || _); [by apply masks_out|by apply masks_app].
Qed.

Lemma redact_key_hides f k s : 8 <= slen k -> has_byte "*" k = false -> (String.length s <= f)%nat ->
  contains_str (redact_key f k s) k = false.
Proof.
  intros H8 Hk. assert (k <> "") as Hne by (by intros ->).
  revert s. induction f as [|f IH]; intros s Hf.
  - destruct s; [by destruct k|simpl in Hf; lia].
  - cbn [redact_key]. destruct (cut_str k s) as [[a b]|] eqn:E; [|by apply cut_str_None].
    rewrite (proj2 (Z.leb_le 8 (slen k)) H8). cbn [orb].
    change ("***" +:+ redact_key f k b) with (String "*" ("" +:+ String "*" ("" +:+ String "*" (redact_key f k b)))).
    rewrite !contains_star, (cut_str_left k s a b) by done.
    assert (contains_str "" k = false) as -> by (by destruct k). simpl. apply IH.
    pose proof (cut_str_spec _ _ _ _ E) as Es. apply (f_equal String.length) in Es. rewrite !length_app_str in Es.
    unfold slen in H8. lia.
Qed.

(** One key's turn shows no word that was not there, and hides the key. *)
Definition turn (msg k : string) : string := if String.eqb k "" then msg else redact_key (String.length msg) k msg.

Lemma turn_masks msg k : masks msg (turn msg k).
Proof. unfold turn. destruct (String.eqb k ""); [apply masks_refl|apply redact_key_masks]. Qed.

Lemma turns_show keys msg w : w <> "" -> has_byte "*" w = false ->
  contains_str (fold_left turn keys msg) w = true -> contains_str msg w = true.
Proof.
  intros Hw Hs. revert msg. induction keys as [|k keys IH]; intros msg; [done|]. cbn [fold_left]. intros H%IH.
  by apply (masks_contains msg (turn msg k) w (turn_masks msg k)).
Qed.

Lemma turn_hides msg k : 8 <= slen k -> has_byte "*" k = false -> contains_str (turn msg k) k = false.
Proof.
  intros H8 Hk. unfold turn. destruct (String.eqb_spec k "") as [->|_]; [done|]. by apply redact_key_hides.
Qed.

Lemma turn_none msg k : k = "" \/ contains_str msg k = false -> turn msg k = msg.
Proof.
  unfold turn. destruct (String.eqb_spec k "") as [|Hk]; [done|]. intros [|H]; [done|]. destruct (String.length msg) as [|f]; [done|].
  cbn [redact_key]. destruct (cut_str k msg) as [[a b]|] eqn:E; [|done]. apply cut_str_spec in E as ->.
  assert (contains_str (a +:+ k +:+ b) k = true) as Hc; [|congruence]. apply contains_app_r.
  assert (has_prefix (k +:+ b) k = true) as Hp by (apply has_prefix_spec; by exists b).
  destruct (k +:+ b); cbn [contains_str]; by rewrite Hp.
Qed.

(** A destination's keys stay out of the words of a failed test write:
    a key of eight bytes or more (without a star) occurs nowhere in the
    redacted words, whatever its neighbours; redaction shows no word that was
    not there before; and words that hold no key are left as they are. *)
Theorem redact_hides msg keys :
  (forall k, k ∈ keys -> 8 <= slen k -> has_byte "*" k = false -> contains_str (redact msg keys) k = false) /\
  (forall w, w <> "" -> has_byte "*" w = false -> contains_str (redact msg keys) w = true -> contains_str msg w = true) /\
  (Forall (fun k => k = "" \/ contains_str msg k = false) keys -> redact msg keys = msg).
Proof.
  change (redact msg keys) with (fold_left turn keys msg). split_and!.
  - intros k [l1 [l2 ->]]%list_elem_of_split H8 Hk. rewrite fold_left_app. cbn [fold_left].
    apply not_true_iff_false. intros Hc. apply turns_show in Hc; [|by intros ->|done].
    rewrite turn_hides in Hc by done. done.
  - intros w. apply turns_show.
  - intros HF. induction HF as [|k keys Hk _ IH]; [done|]. cbn [fold_left]. by rewrite turn_none.
Qed.

Lemma redact_hides_witness :
  contains_str (redact "sig=SECRETKEY99/us AKID" ["SECRETKEY99"; "AKID"]) "SECRETKEY99" = false /\
  redact "timeout" ["SECRETKEY99"; "AKID"] = "timeout".
Proof.
  split.
  - apply (proj1 (redact_hides "sig=SECRETKEY99/us AKID" ["SECRETKEY99"; "AKID"])); [left|vm_compute; congruence|reflexivity].
  - apply (proj2 (proj2 (redact_hides "timeout" ["SECRETKEY99"; "AKID"]))). repeat constructor; right; reflexivity.
Defined.

(** A short key is meant to be masked as a whole word alone; after a first
    occurrence in a word the next one is read as if the word began there. *)
Example redact_doubled : redact "box" ["x"] = "box" /\ redact "boxx" ["x"] = "box***".
Proof. split; reflexivity. Qed.
