(* ===== verification/BackupArchives.v ===== *)
(** * Where archives live, and which ones pruning deletes ([leaf/backup/backup.go])

    A run's archive is an object of its destination, named after the time it
    was written, under a root nobody else writes.  Pruning lists a root and
    deletes its old archives with their rows. *)
From S2P Require Import Prelude GoStrings Errs Rows Backup.

(** ** Names sort as the times they carry *)

Definition civil_ok (t : Civil) : Prop :=
  0 <= year t < 10000 /\ 0 <= month t < 100 /\ 0 <= day t < 100 /\ 0 <= hour t < 100 /\ 0 <= minute t < 100 /\ 0 <= second t < 100.

(** Earlier in the calendar. *)
Definition fields_of (t : Civil) : list Z := [year t; month t; day t; hour t; minute t; second t].
Fixpoint lex_lt (a b : list Z) : Prop :=
  match a, b with x :: a, y :: b => x < y \/ (x = y /\ lex_lt a b) | _, _ => False end.
Definition earlier (t u : Civil) : Prop := lex_lt (fields_of t) (fields_of u).

Lemma ltb_same c s t : String.ltb (String c s) (String c t) = String.ltb s t.
Proof. unfold String.ltb. cbn [String.compare]. unfold Ascii.compare. by rewrite N.compare_refl. Qed.

Lemma ltb_app a s t : String.ltb (a +:+ s) (a +:+ t) = String.ltb s t.
Proof. induction a as [|c a IH]; [done|]. rewrite !app_cons_str, ltb_same. exact IH. Qed.

Lemma digit_less x y s t : 0 <= x < y -> y < 10 -> String.ltb (String (digit x) s) (String (digit y) t) = true.
Proof.
  intros Hx Hy. unfold String.ltb. cbn [String.compare]. unfold digit, Ascii.compare, N_of_ascii, ascii_of_nat.
  fold (N_of_ascii (ascii_of_N (N.of_nat (48 + Z.to_nat x)))) (N_of_ascii (ascii_of_N (N.of_nat (48 + Z.to_nat y)))).
  rewrite !N_ascii_embedding by lia. by rewrite (proj2 (N.compare_lt_iff _ _)) by lia.
Qed.

(** [pad], from its first digit. *)
Lemma pad_S n x : pad (S n) x = String (digit (x / 10 ^ Z.of_nat n mod 10)) (pad n x).
Proof. unfold pad. rewrite seq_S, rev_app_distr. reflexivity. Qed.

Lemma pad_less n x y s t : 0 <= x mod 10 ^ Z.of_nat n < y mod 10 ^ Z.of_nat n ->
  String.ltb (pad n x +:+ s) (pad n y +:+ t) = true.
Proof.
  induction n as [|n IH]; [change (10 ^ Z.of_nat 0) with 1; rewrite !Z.mod_1_r; lia|]. rewrite !pad_S, !app_cons_str, Nat2Z.inj_succ, Z.pow_succ_r by lia.
  set (p := 10 ^ Z.of_nat n) in *. assert (0 < p) as Hp by (apply Z.pow_pos_nonneg; lia).
  rewrite (Z.mul_comm 10 p), !Z.rem_mul_r by lia. intros H.
  pose proof (Z.mod_pos_bound x p Hp). pose proof (Z.mod_pos_bound y p Hp).
  pose proof (Z.mod_pos_bound (x / p) 10 ltac:(lia)). pose proof (Z.mod_pos_bound (y / p) 10 ltac:(lia)).
  destruct (Z.lt_trichotomy (x / p mod 10) (y / p mod 10)) as [Hl|[He|Hl]].
  - apply digit_less; lia.
  - rewrite He, ltb_same. apply IH. nia.
  - nia.
Qed.

Lemma pad_lex n x y s t : 0 <= x < 10 ^ Z.of_nat n -> 0 <= y < 10 ^ Z.of_nat n ->
  x < y \/ (x = y /\ String.ltb s t = true) -> String.ltb (pad n x +:+ s) (pad n y +:+ t) = true.
Proof.
  intros Hx Hy [Hl|[-> H]]; [|by rewrite ltb_app]. apply pad_less. rewrite !Z.mod_small by lia. lia.
Qed.

(** Archive names under one root sort as strings exactly as the times
    they were written at, to the second, whatever the archives are called:
    so the last names of a sorted listing are the newest archives. *)
Theorem ObjectKey_chronological prefix n1 n2 t u : civil_ok t -> civil_ok u -> earlier t u ->
  String.ltb (ObjectKey prefix n1 t) (ObjectKey prefix n2 u) = true.
Proof.
  intros (H1 & H2 & H3 & H4 & H5 & H6) (G1 & G2 & G3 & G4 & G5 & G6). unfold earlier. cbn [lex_lt fields_of]. intros H.
  unfold ObjectKey, stamp. rewrite ltb_app, ltb_app, <-!app_assoc_str.
  apply pad_lex; [done..|]. destruct H as [H|[E H]]; [by left|right; split; [done|]].
  apply pad_lex; [done..|]. destruct H as [H|[E2 H]]; [by left|right; split; [done|]].
  apply pad_lex; [done..|]. destruct H as [H|[E3 H]]; [by left|right; split; [done|]]. rewrite ltb_app.
  apply pad_lex; [done..|]. destruct H as [H|[E4 H]]; [by left|right; split; [done|]].
  apply pad_lex; [done..|]. destruct H as [H|[E5 H]]; [by left|right; split; [done|]].
  apply pad_lex; [done..|]. destruct H as [H|[E6 H]]; [by left|done].
Qed.

Lemma ObjectKey_chronological_witness :
  String.ltb (ObjectKey "stackr/o/v/manual" "z.tar" (MkCivil 2024 3 9 23 59 59))
    (ObjectKey "stackr/o/v/manual" "a.tar" (MkCivil 2024 3 10 0 0 0)) = true.
Proof.
  apply ObjectKey_chronological; [vm_compute; repeat split; congruence..|].
  right. split; [done|]. right. split; [done|]. left. reflexivity.
Defined.

(** ** Pruning *)

(** What the flow's two stores promise ([Objects] of [backup.go]): a listing
    names each object under the prefix once, a delete that succeeds removes
    that object, and no delete touches another. *)
Class ObjectsLaws (B : Type) `{Objects B} := {
  o_has : B -> string -> Prop;
  o_list_ok b p ks : o_list b p = Some ks -> NoDup ks /\ forall k, k ∈ ks <-> o_has b k /\ has_prefix k p = true;
  o_delete_ok b k b' : o_delete b k = (b', true) -> forall k', o_has b' k' <-> o_has b k' /\ k' <> k;
  o_delete_err b k b' : o_delete b k = (b', false) ->
    forall k', (o_has b' k' -> o_has b k') /\ (k' <> k -> o_has b k' -> o_has b' k') }.

Section Prune_proofs.
Context {B : Type} `{ObjectsLaws B}.

Lemma delete_keys_spec protect ks b b' gone : delete_keys protect ks b = (b', gone) -> NoDup ks ->
  (forall k, k ∈ gone -> k ∈ ks /\ (k ∉ protect) /\ ~ o_has b' k) /\
  (forall k, o_has b' k -> o_has b k) /\
  (forall k, o_has b k -> k ∉ ks \/ k ∈ protect -> o_has b' k).
Proof.
  revert b b' gone. induction ks as [|x ks IH]; intros b b' gone; cbn [delete_keys].
  - intros [= <- <-] _. split_and!; set_solver.
  - intros E [Hx Hk]%NoDup_cons. destruct (contains_spec protect x) as [Hp|Hp].
    + destruct (IH _ _ _ E Hk) as (G & F & S). split_and!; [set_solver|done|]. intros k Hb [Hn|Hq]; apply S; set_solver.
    + destruct (o_delete b x) as [b1 ok] eqn:Ed. destruct (delete_keys protect ks b1) as [b2 g] eqn:Ek.
      injection E as <- <-. destruct (IH _ _ _ Ek Hk) as (G & F & S). destruct ok.
      * pose proof (o_delete_ok b x b1 Ed) as D. split_and!.
        -- intros k [->|Hg]%elem_of_cons; [|destruct (G k Hg) as (? & ? & ?); split_and!; [set_solver|done..]].
           split_and!; [set_solver|done|]. intros Hb%F. by apply D in Hb as [_ []].
        -- intros k Hb%F. by apply D.
        -- intros k Hb Hn. apply S; [|set_solver]. apply D. set_solver.
      * pose proof (o_delete_err b x b1 Ed) as D. split_and!.
        -- intros k Hg. destruct (G k Hg) as (? & ? & ?). split_and!; [set_solver|done..].
        -- intros k Hb%F. by apply D.
        -- intros k Hb Hn. apply S; [|set_solver]. apply D; [|done]. set_solver.
Qed.
End Prune_proofs.

Lemma forget_run_runs db id : runs (forget_run db id) = List.filter (fun r => negb (String.eqb (r_ID r) id)) (runs db) /\
  dests (forget_run db id) = dests db /\ schedules (forget_run db id) = schedules db.
Proof.
  unfold forget_run, r_delete. destruct (is_ok (r_get (runs db) id)) eqn:E; [done|]. split_and!; try done. symmetry.
  assert (id ∉ map row_id (runs db)) as Hn by (rewrite <-r_get_is; congruence). revert Hn. generalize (runs db). clear.
  intros rs Hn. induction rs as [|r rs IH]; [done|]. cbn [List.filter map] in *. rewrite IH by set_solver.
  by rewrite (proj2 (String.eqb_neq _ _)) by (intros Hid; apply Hn; rewrite <-Hid; left).
Qed.

Lemma forget_runs ids db :
  runs (fold_left forget_run ids db) = List.filter (fun r => negb (contains ids (r_ID r))) (runs db) /\
  dests (fold_left forget_run ids db) = dests db /\ schedules (fold_left forget_run ids db) = schedules db.
Proof.
  revert db. induction ids as [|id ids IH]; intros db; cbn [fold_left].
  - split_and!; try done. induction (runs db) as [|r rs IHr]; [done|]. cbn [List.filter]. by rewrite <-IHr at 1.
  - destruct (IH (forget_run db id)) as (-> & -> & ->). destruct (forget_run_runs db id) as (-> & -> & ->). split_and!; try done.
    induction (runs db) as [|r rs IHr]; [done|]. cbn [List.filter].
    assert (contains (id :: ids) (r_ID r) = String.eqb (r_ID r) id || contains ids (r_ID r)) as ->.
    { destruct (contains_spec (id :: ids) (r_ID r)) as [Hi|Hi], (contains_spec ids (r_ID r)), (String.eqb_spec (r_ID r) id); set_solver. }
    destruct (String.eqb (r_ID r) id); cbn [negb orb List.filter]; [done|]. by rewrite IHr.
Qed.

Lemma after_str_spec a b : after_str a b = true <-> String.ltb b a = true.
Proof.
  unfold after_str. rewrite negb_true_iff. destruct (String.leb a b) eqn:E.
  - split; [done|]. intros Hl. destruct (ltb_irrefl_str a). apply leb_ltb_or_eq in E as [E| ->]; [|done].
    by rewrite (ltb_trans_str a b a).
  - split; [|done]. intros _. destruct (String.leb_total b a) as [Hl|Hl]; [|by rewrite Hl in E].
    apply leb_ltb_or_eq in Hl as [?| ->]; [done|]. by rewrite leb_refl_str in E.
Qed.

(** [newestDone] is a finished run with the last archive name of all. *)
Definition newest_of (rows : list BackupRun) (best : BackupRun) : Prop :=
  best ∈ rows /\ finished_well best = true /\
  forall r, r ∈ rows -> finished_well r = true -> String.leb (r_ObjectKey r) (r_ObjectKey best) = true.

Lemma newestDone_spec rows :
  match newestDone rows with
  | Some best => newest_of rows best
  | None => forall r, r ∈ rows -> finished_well r = false
  end.
Proof.
  unfold newestDone. induction rows as [|x rows IH] using rev_ind; [set_solver|]. rewrite fold_left_app. cbn [fold_left].
  set (acc := fold_left _ rows None) in *. destruct (finished_well x) eqn:Ex; cbn [andb].
  - destruct acc as [b|].
    + destruct IH as (Hb & Hf & Hm). destruct (after_str (r_ObjectKey x) (r_ObjectKey b)) eqn:Ea.
      * apply after_str_spec in Ea. split_and!; [set_solver|done|]. intros r [Hr|Hr]%elem_of_app Hd; [|assert (r = x) as -> by set_solver; apply leb_refl_str].
        apply (leb_trans_str _ (r_ObjectKey b)); [by apply Hm|]. apply leb_ltb_or_eq. by left.
      * split_and!; [set_solver|done|]. intros r [Hr|Hr]%elem_of_app Hd; [by apply Hm|]. assert (r = x) as -> by set_solver.
        unfold after_str in Ea. by apply negb_false_iff in Ea.
    + split_and!; [set_solver|done|]. intros r [Hr|Hr]%elem_of_app Hd; [by rewrite IH in Hd|].
      assert (r = x) as -> by set_solver. apply leb_refl_str.
  - destruct acc as [b|].
    + destruct IH as (Hb & Hf & Hm). split_and!; [set_solver|done|]. intros r [Hr|Hr]%elem_of_app Hd; [by apply Hm|].
      assert (r = x) as -> by set_solver. congruence.
    + intros r [Hr|Hr]%elem_of_app; [by apply IH|]. by assert (r = x) as -> by set_solver.
Qed.

Section Prune_claim.
Context {B : Type} `{ObjectsLaws B}.

(** The archive names under a root that pruning may not touch: the last
    [keep] of the listing. *)
Definition kept_names (keys : list string) (keep : Z) : list string :=
  drop (length keys - Z.to_nat keep) (sort_strings keys).

(** What pruning [prefix] to [keep] does. *)
Record pruned (b b' : B) (db db' : Db) (prefix : string) (keep : Z) (protect gone : list string) : Prop := MkPruned {
  (* what is gone: only archives of this root, none of them protected *)
  pr_gone k : k ∈ gone -> o_has b k /\ has_prefix k (prefix +:+ "/") = true /\ (k ∉ protect) /\ ~ o_has b' k;
  (* other roots, the protected names and the newest archives stay *)
  pr_rest k : o_has b k -> has_prefix k (prefix +:+ "/") = false \/ k ∈ protect -> o_has b' k;
  pr_kept keys k : o_list b (prefix +:+ "/") = Some keys -> keep <= 0 \/ k ∈ kept_names keys keep -> o_has b k -> o_has b' k;
  (* the rows that went are those of the archives that went, none when the rows could not be read *)
  pr_runs : runs db' = if o_rows b (prefix +:+ "/") then
      List.filter (fun r => negb (has_prefix (r_ObjectKey r) (prefix +:+ "/") && contains gone (r_ObjectKey r))) (runs db)
    else runs db;
  pr_others : dests db' = dests db /\ schedules db' = schedules db;
  (* and an archive that restores is left, where the rows could be read *)
  pr_restores r : o_rows b (prefix +:+ "/") = true -> r ∈ runs db -> finished_well r = true -> has_prefix (r_ObjectKey r) (prefix +:+ "/") = true ->
    exists r', r' ∈ runs db' /\ finished_well r' = true /\ has_prefix (r_ObjectKey r') (prefix +:+ "/") = true /\
      String.leb (r_ObjectKey r) (r_ObjectKey r') = true /\ (o_has b (r_ObjectKey r') -> o_has b' (r_ObjectKey r')) }.

Lemma pruned_none b db prefix keep protect : pruned b b db db prefix keep protect [].
Proof.
  split; try done; [set_solver| |].
  - destruct (o_rows _ _); [|done]. assert (forall r, contains [] (r_ObjectKey r) = false) as Hc by (intros r; by apply bool_decide_eq_false_2, not_elem_of_nil).
    induction (runs db) as [|r rs IH]; [done|]. cbn [List.filter]. by rewrite Hc, andb_false_r, <-IH.
  - intros r _ Hr Hd Hp. exists r. split_and!; [done..|apply leb_refl_str|done].
Qed.

(** The rows left, when what [delete_keys] deleted is forgotten. *)
Lemma forgotten db prefix gone : rows_ok (runs db) ->
  let db' := fold_left forget_run
    (map r_ID (List.filter (fun r => contains gone (r_ObjectKey r)) (ListByPrefix db (prefix +:+ "/")))) db in
  runs db' = List.filter (fun r => negb (has_prefix (r_ObjectKey r) (prefix +:+ "/") && contains gone (r_ObjectKey r))) (runs db) /\
  dests db' = dests db /\ schedules db' = schedules db.
Proof.
  intros Hk db'. destruct (forget_runs (map r_ID (List.filter (fun r => contains gone (r_ObjectKey r)) (ListByPrefix db (prefix +:+ "/")))) db)
    as (Er & Ed & Es). split_and!; [|done..]. unfold db'. rewrite Er. apply List.filter_ext_in. intros r Hr. apply list_elem_of_In in Hr.
  f_equal. unfold ListByPrefix.
  destruct (contains_spec (map r_ID (List.filter (fun r => contains gone (r_ObjectKey r)) (List.filter (fun r => has_prefix (r_ObjectKey r) (prefix +:+ "/")) (runs db)))) (r_ID r)) as [Hi|Hi];
    symmetry; [|apply not_true_iff_false; intros [Hp Hg]%andb_true_iff; apply Hi; apply list_elem_of_fmap; exists r;
      split; [done|]; by rewrite !elem_of_filterb].
  apply list_elem_of_fmap in Hi as (x & Ex & [[Hx Hp]%elem_of_filterb Hg]%elem_of_filterb).
  assert (x = r) as <-; [|by rewrite Hp, Hg]. pose proof (r_get_in _ _ Hk Hx) as Gx. pose proof (r_get_in _ _ Hk Hr) as Gr.
  change (row_id x) with (r_ID x) in Gx. rewrite <-Ex in Gx. change (row_id r) with (r_ID r) in Gr. congruence.
Qed.

(** The listing, cut where [Prune] cuts it. *)
Lemma cut_listing b prefix keys keep : o_list b prefix = Some keys ->
  let old := take (length keys - Z.to_nat keep) (sort_strings keys) in
  NoDup old /\ (forall k, k ∈ old -> o_has b k /\ has_prefix k prefix = true) /\
  (forall k, k ∈ kept_names keys keep -> k ∉ old).
Proof.
  intros El old. destruct (o_list_ok b prefix keys El) as [Hn Hk].
  assert (NoDup (old ++ kept_names keys keep)) as Hs.
  { unfold old, kept_names. rewrite take_drop. by rewrite (sort_perm String.leb keys). }
  apply NoDup_app in Hs as (Ho & Hd & _). split_and!; [done| |].
  - intros k Hi. apply Hk. rewrite <-(elem_of_sort String.leb). apply (elem_of_take _ (length keys - Z.to_nat keep)) in Hi as (i & Hi & _).
    by apply list_elem_of_lookup_2 in Hi.
  - intros k Hi Hj. by apply (Hd k Hj).
Qed.

Lemma prune_is b db prefix keep protect b' db' gone : rows_ok (runs db) ->
  Prune b db prefix keep protect = (b', db', gone) -> pruned b b' db db' prefix keep protect gone.
Proof.
  intros Hrows. unfold Prune. destruct (keep <=? 0) eqn:Ek0; [intros [= <- <- <-]; apply pruned_none|].
  destruct (o_list b (prefix +:+ "/")) as [keys|] eqn:El; [|intros [= <- <- <-]; apply pruned_none].
  destruct (Z.of_nat (length keys) <=? keep) eqn:Ek; [intros [= <- <- <-]; apply pruned_none|].
  destruct (delete_keys _ _ b) as [b1 g] eqn:Ed. intros [= <- <- <-].
  destruct (cut_listing b _ keys keep El) as (Hno & Hold & Hkeep). destruct (delete_keys_spec _ _ _ _ _ Ed Hno) as (G & F & S).
  set (rows := if o_rows b (prefix +:+ "/") then _ else _) in *. pose proof (newestDone_spec rows) as Hnew.
  assert (forall k, k ∈ protect -> k ∈ match newestDone rows with Some r => protect ++ [r_ObjectKey r] | None => protect end) as Hprot.
  { intros k Hk. destruct (newestDone _); set_solver. }
  split.
  - intros k (Hk & Hp & Hn)%G. destruct (Hold k Hk) as [? ?]. split_and!; [done..| |done]. intros Hq. by apply Hp, Hprot.
  - intros k Hb [Hk|Hk]; apply S; [done| |done|by right; apply Hprot]. left. intros [_ Hp]%Hold. congruence.
  - intros keys' k El' Hk Hb. rewrite El in El'. injection El' as <-. apply S; [done|]. left. apply Hkeep. destruct Hk; [lia|done].
  - unfold rows. destruct (o_rows _ _); [by apply forgotten|done].
  - unfold rows. destruct (o_rows _ _); [by apply forgotten|done].
  - intros r Hread Hr Hd Hp. unfold rows in *. rewrite Hread in *. destruct (forgotten db prefix g Hrows) as (Er & _).
    assert (r ∈ ListByPrefix db (prefix +:+ "/")) as Hl by (unfold ListByPrefix; by rewrite elem_of_filterb).
    destruct (newestDone (ListByPrefix db (prefix +:+ "/"))) as [best|]; [|rewrite (Hnew r Hl) in Hd; done].
    destruct Hnew as ([Hb Hbp]%elem_of_filterb & Hbd & Hm). exists best. rewrite Er. split_and!; [|done..|by apply Hm|].
    + apply elem_of_filterb. split; [done|]. apply negb_true_iff, andb_false_iff. right. apply bool_decide_eq_false_2.
      intros (_ & Hq & _)%G. apply Hq. set_solver.
    + intros Hh. apply S; [done|]. right. set_solver.
Qed.

(** C35. Pruning deletes only archives of the root it was given, never a
    protected one and never one of the [keep] newest, and forgets exactly the
    runs of the archives it deleted; other roots, destinations and schedules
    are untouched; [keep <= 0] deletes nothing; and a root that had an archive
    that restores still has one at least as new, whatever deletes failed, as
    long as the rows under the root could be read: the code drops the error of
    that read, and then neither protects the newest finished run nor forgets a
    row. *)
Theorem Prune_keeps b db prefix keep protect b' db' gone : rows_ok (runs db) ->
  Prune b db prefix keep protect = (b', db', gone) -> pruned b b' db db' prefix keep protect gone.
Proof. apply prune_is. Qed.
End Prune_claim.

(** A store that keeps its objects in a list; deleting [b_stuck] fails, and
    the rows can be read when [b_rows]. *)
Record Bucket := MkBucket { b_keys : list string; b_stuck : list string; b_rows : bool }.
#[export] Instance bucket_objects : Objects Bucket := {
  o_list b p := Some (List.filter (fun k => has_prefix k p) (remove_dups (b_keys b)));
  o_rows b _ := b_rows b;
  o_delete b k := if contains (b_stuck b) k then (b, false)
    else (MkBucket (List.filter (fun x => negb (String.eqb x k)) (b_keys b)) (b_stuck b) (b_rows b), true) }.

Lemma filter_nodup {A} (p : A -> bool) l : NoDup l -> NoDup (List.filter p l).
Proof.
  induction 1 as [|x l Hx Hl IH]; [constructor|]. cbn [List.filter]. destruct (p x); [|done]. constructor; [|done].
  rewrite elem_of_filterb. tauto.
Qed.

#[export] Instance bucket_laws : ObjectsLaws Bucket.
Proof.
  refine {| o_has := fun b k => k ∈ b_keys b |}.
  - intros b p ks [= <-]. split; [apply filter_nodup, NoDup_remove_dups|]. intros k. by rewrite elem_of_filterb, elem_of_remove_dups.
  - intros b k b'. cbn [o_delete bucket_objects]. destruct (contains (b_stuck b) k); [done|]. intros [= <-] k'. cbn [b_keys].
    by rewrite elem_of_filterb, negb_true_iff, String.eqb_neq.
  - intros b k b'. cbn [o_delete bucket_objects]. destruct (contains (b_stuck b) k); [|done]. intros [= <-]. done.
Defined.

Definition wrun (id status key : string) : BackupRun :=
  MkRun id KindVolume (Some "v") None "d" "schedule" status key 1 "" 0 None None 0 0 "".
Definition wdb : Db := MkDb [MkDest "d" None Local Local "" "" "" "" "" "" true 0 "" ""] []
  [wrun "1" Done "stackr/o/v/s/1"; wrun "2" Done "stackr/o/v/s/2"; wrun "3" Failed ""; wrun "4" Done "stackr/o/v/t/1"].
Definition wbucket : Bucket := MkBucket ["stackr/o/v/s/2"; "stackr/o/v/s/1"; "stackr/o/v/t/1"; "stackr/o/v/s/0"] ["stackr/o/v/s/0"] true.

Lemma Prune_keeps_witness :
  let '(b, db, gone) := Prune wbucket wdb "stackr/o/v/s" 1 [] in
  pruned wbucket b wdb db "stackr/o/v/s" 1 [] gone /\ gone = ["stackr/o/v/s/1"] /\ map r_ID (runs db) = ["2"; "3"; "4"].
Proof.
  destruct (Prune wbucket wdb "stackr/o/v/s" 1 []) as [[b db] gone] eqn:E. split.
  - apply (Prune_keeps wbucket wdb "stackr/o/v/s" 1 [] b db gone); [apply (bool_decide_eq_true_1 _); vm_compute; reflexivity|exact E].
  - vm_compute in E. injection E as <- <- <-. split; reflexivity.
Defined.

(** The gap: one finished archive, overtaken by two newer objects of runs
    that failed.  Where the rows are read it is protected; where the read fails
    it is deleted, and its row, still a finished run, is left. *)
Definition wgap (read : bool) : list string * list string :=
  let '(b, db, _) := Prune (MkBucket ["stackr/o/v/s/1"; "stackr/o/v/s/8"; "stackr/o/v/s/9"] [] read)
    (set_runs wdb [wrun "1" Done "stackr/o/v/s/1"; wrun "8" Failed "stackr/o/v/s/8"; wrun "9" Failed "stackr/o/v/s/9"]) "stackr/o/v/s" 1 [] in
  (b_keys b, map r_ID (runs db)).
Example unread_rows : wgap true = (["stackr/o/v/s/1"; "stackr/o/v/s/9"], ["1"; "9"]) /\ wgap false = (["stackr/o/v/s/9"], ["1"; "8"; "9"]).
Proof. vm_compute. split; reflexivity. Qed.

(** ** Roots do not overlap *)

(** Every root the flows write to: a schedule's, a volume's manual one, the
    panel's (by trigger), a node backup's and an orphan's. *)
Inductive Root :=
| RSchedule (org vol sched : string)
| RManual (org vol : string)
| RPanel (inst trigger : string)
| RNode (node group : string)
| ROrphan (vol : string).
Definition root_prefix (r : Root) : string :=
  match r with
  | RSchedule o v s => Prefix o v s
  | RManual o v => Prefix o v ""
  | RPanel i t => PanelPrefix i t
  | RNode n g => NodePrefix n g
  | ROrphan v => OrphanPrefix v
  end.

(** Ids are uuids and names are slugs: no slash, and no leading underscore. *)
Definition seg (s : string) : bool := negb (has_byte "/" s) && negb (has_prefix s "_").
Definition root_ok (r : Root) : bool :=
  match r with
  | RSchedule o v s => seg o && seg v && seg s && negb (String.eqb s "") && negb (String.eqb s "manual")
  | RManual o v => seg o && seg v
  | RPanel i t => seg i && seg t && negb (String.eqb t "scheduled")
  | RNode n g => seg n && seg g
  | ROrphan v => seg v
  end.

Lemma seg_cut x y s t : has_byte "/" x = false -> has_byte "/" y = false -> x +:+ "/" +:+ s = y +:+ "/" +:+ t -> x = y /\ s = t.
Proof.
  change ("/" +:+ s) with (String "/" s). change ("/" +:+ t) with (String "/" t).
  revert y. induction x as [|c x IH]; intros [|d y]; cbn [has_byte]; rewrite ?app_cons_str, ?app_nil_str.
  - by intros _ _ [= <-].
  - intros _ [Hd _]%orb_false_iff [= <- _]. by rewrite Ascii.eqb_refl in Hd.
  - intros [Hc _]%orb_false_iff _ [= -> _]. by rewrite Ascii.eqb_refl in Hc.
  - intros [_ Hx]%orb_false_iff [_ Hy]%orb_false_iff [= -> E]. by destruct (IH y Hx Hy E) as [-> ->].
Qed.

(** A root's segments, after [stackr/]. *)
Definition root_segs (r : Root) : list string :=
  match r with
  | RSchedule o v s => [o; v; s]
  | RManual o v => [o; v; "manual"]
  | RPanel i t => ["_panel"; i; if String.eqb t "schedule" then "scheduled" else t]
  | RNode n g => ["_node"; n; g]
  | ROrphan v => ["_orphan"; v]
  end.
Definition path (segs : list string) (rest : string) : string := fold_right (fun s t => s +:+ "/" +:+ t) rest segs.
Definition slashless (segs : list string) : Prop := Forall (fun s => has_byte "/" s = false) segs.

Lemma root_path r rest : root_ok r = true -> (root_prefix r +:+ "/") +:+ rest = "stackr/" +:+ path (root_segs r) rest.
Proof.
  intros Hr. rewrite <-app_assoc_str. destruct r; cbn [root_prefix root_segs path fold_right]; unfold Prefix, PanelPrefix, NodePrefix, OrphanPrefix, or_str.
  1: destruct (String.eqb_spec sched "") as [->|_]; [cbn [root_ok] in Hr; rewrite !andb_true_iff in Hr; by destruct Hr as [[_ Hr] _]|].
  2: change (if String.eqb "" "" then "manual" else "") with "manual".
  3: change "stackr/_panel/" with ("stackr/" +:+ "_panel" +:+ "/").
  4: change "stackr/_node/" with ("stackr/" +:+ "_node" +:+ "/").
  5: change "stackr/_orphan/" with ("stackr/" +:+ "_orphan" +:+ "/").
  all: by repeat rewrite <-app_assoc_str.
Qed.

Lemma path_head x y l m t u : has_byte "/" x = false -> has_byte "/" y = false ->
  path (x :: l) t = path (y :: m) u -> x = y /\ path l t = path m u.
Proof. intros Hx Hy. exact (seg_cut x y _ _ Hx Hy). Qed.

Lemma path_inj l m t u : slashless l -> slashless m -> length l = length m -> path l t = path m u -> l = m.
Proof.
  intros Hl. revert m. induction Hl as [|x l Hx Hl IH]; intros [|y m] Hm Hn; try done. inversion Hm; subst. intros E.
  apply path_head in E as [-> E]; [|done..]. f_equal. by apply IH; [..|injection Hn|].
Qed.

Lemma root_slashless r : root_ok r = true -> slashless (root_segs r).
Proof.
  unfold slashless. destruct r; cbn [root_ok root_segs]; unfold seg; rewrite ?andb_true_iff, ?negb_true_iff; intros H; destruct_and?;
    repeat constructor; try done. by destruct (String.eqb trigger "schedule").
Qed.

Lemma seg_roots s : seg s = true -> s <> "_panel" /\ s <> "_node" /\ s <> "_orphan".
Proof. intros H. split_and!; by intros ->. Qed.

Lemma root_segs_inj a b : root_ok a = true -> root_ok b = true -> hd "" (root_segs a) = hd "" (root_segs b) ->
  (length (root_segs a) = length (root_segs b) -> root_segs a = root_segs b) -> a = b.
Proof.
  destruct a, b; cbn [root_ok root_segs hd length];
    rewrite ?andb_true_iff, ?negb_true_iff, ?String.eqb_neq; intros Ha Hb Eh El; destruct_and?;
    repeat match goal with Hs : seg _ = true |- _ => apply seg_roots in Hs as (? & ? & ?) end;
    try congruence; specialize (El eq_refl); try congruence.
  injection El as -> El. f_equal. destruct (String.eqb_spec trigger "schedule") as [->|], (String.eqb_spec trigger0 "schedule") as [->|]; congruence.
Qed.

(** No archive lies under two roots: whoever's ids and names they are
    made of, the archives of one schedule, of a volume's manual runs, of the
    panel (by trigger), of a node backup and of an orphan are apart, so
    pruning one root never deletes an archive, nor forgets a run, of another. *)
Theorem roots_apart {B} `{ObjectsLaws B} a b : root_ok a = true -> root_ok b = true -> a <> b ->
  (forall k, has_prefix k (root_prefix a +:+ "/") = true -> has_prefix k (root_prefix b +:+ "/") = false) /\
  (forall (st : B) db keep protect st' db' gone r, rows_ok (runs db) ->
     Prune st db (root_prefix a) keep protect = (st', db', gone) ->
     r ∈ runs db -> has_prefix (r_ObjectKey r) (root_prefix b +:+ "/") = true ->
     r ∈ runs db' /\ (o_has st (r_ObjectKey r) -> o_has st' (r_ObjectKey r))).
Proof.
  intros Ha Hb Hne.
  assert (forall k, has_prefix k (root_prefix a +:+ "/") = true -> has_prefix k (root_prefix b +:+ "/") = false) as Hap.
  { intros k [t ->]%has_prefix_spec. apply not_true_iff_false. intros [u E]%has_prefix_spec. apply Hne.
    rewrite (root_path a t Ha), (root_path b u Hb) in E. apply (inj (fun s => "stackr/" +:+ s)) in E.
    pose proof (root_slashless a Ha) as Sa. pose proof (root_slashless b Hb) as Sb. apply root_segs_inj; [done..| |].
    - destruct (root_segs a) as [|x l] eqn:Ea, (root_segs b) as [|y m] eqn:Eb; [by destruct a|by destruct a|by destruct b|].
      inversion Sa; inversion Sb; subst. by apply path_head in E as [-> _].
    - intros Hl. by apply (path_inj _ _ t u). }
  split; [exact Hap|]. intros st db keep protect st' db' gone r Hk E Hr Hp. pose proof (prune_is st db _ keep protect st' db' gone Hk E) as P.
  assert (has_prefix (r_ObjectKey r) (root_prefix a +:+ "/") = false) as Hn.
  { apply not_true_iff_false. intros Hp'%Hap. congruence. }
  split; [|intros Hh; by apply (pr_rest _ _ _ _ _ _ _ _ P); [|left]].
  rewrite (pr_runs _ _ _ _ _ _ _ _ P). destruct (o_rows _ _); [|done]. apply elem_of_filterb. by rewrite Hn.
Qed.

Lemma roots_apart_witness :
  has_prefix "stackr/o/v/s/1" (root_prefix (RManual "o" "v") +:+ "/") = false /\
  forall st db gone, Prune wbucket wdb (root_prefix (RSchedule "o" "v" "s")) 1 [] = (st, db, gone) ->
    wrun "4" Done "stackr/o/v/t/1" ∈ runs db.
Proof.
  split.
  - apply (proj1 (roots_apart (B := Bucket) (RSchedule "o" "v" "s") (RManual "o" "v") ltac:(reflexivity) ltac:(reflexivity) ltac:(done))). reflexivity.
  - intros st db gone E. refine (proj1 (proj2 (roots_apart (B := Bucket) (RSchedule "o" "v" "s") (RSchedule "o" "v" "t") ltac:(reflexivity) ltac:(reflexivity) ltac:(done))
      wbucket wdb 1 [] st db gone _ _ E _ _)); [|right; right; right; left|reflexivity].
    apply (bool_decide_eq_true_1 _); vm_compute; reflexivity.
Defined.
