(* ===== verification/BackupRows.v ===== *)
(** * The backup tables over time ([leaf/backup/backup.go])

    What every call keeps: ids and names are keys, a reference names a row,
    a destination with runs stays, and its archive key never changes.  Then
    what an org sees of the destinations, and what a boot does to the runs
    the last process left. *)
From S2P Require Import Prelude GoStrings Errs Regexp Rows Backup BackupArchives.

(** ** The invariant *)

(** A destination of an org is never shared; only the install's own is local,
    by kind and by name, and it is everybody's. *)
Definition dest_ok (d : BackupDest) : Prop :=
  (d_OrgID d <> None -> d_Shared d = false) /\ (d_Kind d = Local <-> d_Name d = Local) /\
  (d_Kind d = Local -> d_OrgID d = None /\ d_Shared d = true) /\ re_match nameRe (d_Name d) = true.
Definition run_ok (r : BackupRun) : Prop :=
  r_Kind r ∈ [KindVolume; KindPanel] /\ r_Status r ∈ [Running; Done; Failed] /\ (r_FinishedAt r = None <-> r_Status r = Running).

Definition dest_key (d : BackupDest) : option string * string := (d_OrgID d, d_Name d).

Record db_ok (db : Db) : Prop := MkOk {
  ok_dests : rows_ok (dests db);
  ok_schedules : rows_ok (schedules db);
  ok_runs : rows_ok (runs db);
  ok_names : NoDup (map dest_key (dests db));
  ok_dest d : d ∈ dests db -> dest_ok d;
  ok_run r : r ∈ runs db -> run_ok r;
  ok_fk_schedule s : s ∈ schedules db -> fk_schedule db s = true;
  ok_fk_run r : r ∈ runs db -> fk_run db r = true }.

Lemma has_dest_in db id : has_dest db id = true <-> id ∈ map d_ID (dests db).
Proof. apply r_get_is. Qed.

(** References are kept by a change that keeps the rows they name. *)
Lemma fk_kept db db' : map d_ID (dests db) ⊆ map d_ID (dests db') -> map s_ID (schedules db) ⊆ map s_ID (schedules db') ->
  (forall s, fk_schedule db s = true -> fk_schedule db' s = true) /\ (forall r, fk_run db r = true -> fk_run db' r = true).
Proof.
  intros Hd Hs. assert (forall id, has_dest db id = true -> has_dest db' id = true) as Hh.
  { intros id. rewrite !has_dest_in. apply Hd. }
  split.
  - intros s. unfold fk_schedule. destruct (s_DestID s); [apply Hh|done].
  - intros r. unfold fk_run. intros [H1 H2]%andb_true_iff. apply andb_true_iff. split; [by apply Hh|].
    destruct (r_ScheduleID r) as [id|]; [|done]. apply r_get_is, Hs. by apply r_get_is in H2.
Qed.

(** Replacing a row's value keeps the keys distinct, if the new one is free. *)
Lemma update_keys {A K} `{HasId A} (key : A -> K) (r : A) t t' : r_update r t = Ok t' -> rows_ok t -> NoDup (map key t) ->
  (forall x, x ∈ t -> row_id x <> row_id r -> key x <> key r) -> NoDup (map key t').
Proof.
  unfold r_update. destruct (is_ok _); [|done]. intros <-%Ok_inj. unfold rows_ok. induction t as [|x t IH]; [done|].
  cbn [map]. intros [Hx Ht]%NoDup_cons [Kx Kt]%NoDup_cons Hfree.
  apply NoDup_cons. split; [|apply IH; [done..|]; intros y Hy; apply Hfree; by right].
  rewrite map_map. intros (y & Ey & Hy)%list_elem_of_fmap.
  destruct (String.eqb_spec (row_id x) (row_id r)) as [Ex|Ex], (String.eqb_spec (row_id y) (row_id r)) as [Ey'|Ey'].
  - apply Hx. rewrite Ex, <-Ey'. apply list_elem_of_fmap. by exists y.
  - by apply (Hfree y); [right| |].
  - by apply (Hfree x); [left| |].
  - apply Kx. rewrite Ey. apply list_elem_of_fmap. by exists y.
Qed.

Lemma create_dest_ok d db db' : create_dest d db = Ok db' -> dest_ok d -> dest_key d ∉ map dest_key (dests db) -> db_ok db -> db_ok db'.
Proof.
  unfold create_dest. destruct (r_create d (dests db)) as [ds|] eqn:E; [|done]. intros <-%Ok_inj Hd Hn Hok.
  pose proof (r_create_rows _ _ _ E (ok_dests _ Hok)) as Hr. apply r_create_ok in E as [-> _].
  destruct (fk_kept db (set_dests db (dests db ++ [d]))) as [Fs Fr]; [cbn; rewrite map_app; intros id Hi; apply elem_of_app; by left|done|].
  destruct Hok. split; cbn; try done; [| |by auto|by auto].
  - rewrite map_app. apply NoDup_app. split_and!; [done| |apply NoDup_singleton]. intros k Hk Hk'. apply list_elem_of_singleton in Hk' as ->. done.
  - intros x [Hx|Hx]%elem_of_app; [by auto|]. apply list_elem_of_singleton in Hx as ->. done.
Qed.

Lemma update_dest_ok d db db' : update_dest d db = Ok db' -> dest_ok d ->
  (forall x, x ∈ dests db -> d_ID x <> d_ID d -> dest_key x <> dest_key d) -> db_ok db -> db_ok db'.
Proof.
  unfold update_dest. destruct (r_update d (dests db)) as [ds|] eqn:E; [|done]. intros <-%Ok_inj Hd Hn Hok.
  pose proof (r_update_rows _ _ _ E (ok_dests _ Hok)) as Hr. pose proof (update_keys dest_key _ _ _ E (ok_dests _ Hok) (ok_names _ Hok) Hn) as Hk.
  destruct (fk_kept db (set_dests db ds)) as [Fs Fr]; [pose proof (r_update_ids _ _ _ E) as Ei; intros id; by rewrite <-(Ei : map d_ID ds = map d_ID (dests db))|done|].
  destruct Hok. split; cbn; try done; [|by auto|by auto].
  intros x Hx. apply (elem_of_r_update _ _ _ _ E) in Hx as [[-> _]|[Hx _]]; [done|by auto].
Qed.


Lemma delete_dest_ok id db db' : delete_dest id db = Ok db' -> db_ok db -> db_ok db'.
Proof.
  unfold delete_dest. destruct (existsb _ _) eqn:Ex; [done|]. destruct (r_delete id (dests db)) as [ds|] eqn:E; [|done].
  intros <-%Ok_inj Hok. pose proof (r_delete_rows _ _ _ E (ok_dests _ Hok)) as Hr. pose proof (r_delete_ok _ _ _ E) as [_ Hin].
  assert (forall i, i <> id -> has_dest db i = true -> has_dest (MkDb ds (map (null_dest id) (schedules db)) (runs db)) i = true) as Hh.
  { intros i Hne (d & -> & Hd)%has_dest_in%list_elem_of_fmap. apply has_dest_in, list_elem_of_fmap. exists d. split; [done|]. by apply Hin. }
  destruct Hok. split; cbn; try done.
  - unfold rows_ok. rewrite map_map. exact ok_schedules0.
  - unfold r_delete in E. destruct (is_ok _); [|done]. apply Ok_inj in E as <-. by apply filter_map_nodup.
  - intros d [Hd _]%Hin. by auto.
  - intros s (s0 & -> & Hs)%list_elem_of_fmap. pose proof (ok_fk_schedule0 s0 Hs) as Hf. unfold fk_schedule in *. cbn [s_DestID null_dest].
    case_bool_decide as Hc; [done|]. destruct (s_DestID s0) as [i|]; [|done]. apply Hh; [congruence|done].
  - intros r Hr'. pose proof (ok_fk_run0 r Hr') as [Hf1 Hf2]%andb_true_iff. apply andb_true_iff. split.
    + apply Hh; [|done]. intros Ei. assert (existsb (fun r => String.eqb (r_DestID r) id) (runs db) = true); [|congruence].
      apply existsb_exists. exists r. split; [by apply list_elem_of_In|]. by apply String.eqb_eq.
    + destruct (r_ScheduleID r) as [i|]; [|done]. apply r_get_is. cbn. rewrite map_map. by apply r_get_is in Hf2.
Qed.

Lemma create_schedule_ok b db db' : create_schedule b db = Ok db' -> db_ok db -> db_ok db'.
Proof.
  unfold create_schedule. destruct (fk_schedule db b) eqn:Ef; [|done]. destruct (r_create b (schedules db)) as [ss|] eqn:E; [|done].
  intros <-%Ok_inj Hok. pose proof (r_create_rows _ _ _ E (ok_schedules _ Hok)) as Hr. apply r_create_ok in E as [-> _].
  destruct (fk_kept db (set_schedules db (schedules db ++ [b]))) as [Fs Fr]; [done|cbn; rewrite map_app; intros i Hi; apply elem_of_app; by left|].
  destruct Hok. split; cbn; try done; [|by auto]. intros s [Hs|Hs]%elem_of_app; [by auto|]. apply list_elem_of_singleton in Hs as ->. by apply Fs.
Qed.

Lemma update_schedule_ok b db db' : update_schedule b db = Ok db' -> db_ok db -> db_ok db'.
Proof.
  unfold update_schedule. destruct (fk_schedule db b) eqn:Ef; [|done]. destruct (r_update b (schedules db)) as [ss|] eqn:E; [|done].
  intros <-%Ok_inj Hok. pose proof (r_update_rows _ _ _ E (ok_schedules _ Hok)) as Hr. pose proof (r_update_ids _ _ _ E) as Ei.
  destruct (fk_kept db (set_schedules db ss)) as [Fs Fr]; [done|intros i; by rewrite <-(Ei : map s_ID ss = map s_ID (schedules db))|].
  destruct Hok. split; cbn; try done; [|by auto]. intros s Hs. apply (elem_of_r_update _ _ _ _ E) in Hs as [[-> _]|[Hs _]]; by auto.
Qed.

Lemma DeleteSchedule_ok id db db' : DeleteSchedule id db = Ok db' -> db_ok db -> db_ok db'.
Proof.
  unfold DeleteSchedule. destruct (r_delete id (schedules db)) as [ss|] eqn:E; [|done]. intros <-%Ok_inj Hok.
  pose proof (r_delete_rows _ _ _ E (ok_schedules _ Hok)) as Hr. pose proof (r_delete_ok _ _ _ E) as [_ Hin].
  destruct Hok. split; cbn; try done.
  - unfold rows_ok. rewrite map_map. exact ok_runs0.
  - intros r (r0 & -> & Hr0)%list_elem_of_fmap. by apply (ok_run0 r0).
  - intros s [Hs _]%Hin. by apply (ok_fk_schedule0 s).
  - intros r (r0 & -> & Hr0)%list_elem_of_fmap. pose proof (ok_fk_run0 r0 Hr0) as [Hf1 Hf2]%andb_true_iff. apply andb_true_iff. split; [done|].
    cbn [r_ScheduleID null_schedule schedules]. case_bool_decide as Hc; [done|]. destruct (r_ScheduleID r0) as [i|]; [|done].
    apply r_get_is in Hf2 as (s & -> & Hs)%list_elem_of_fmap. apply r_get_is, list_elem_of_fmap. exists s. split; [done|]. apply Hin. split; [done|].
    intros E2. apply Hc. by rewrite <-E2.
Qed.

Lemma create_run_ok r db db' : create_run r db = Ok db' -> run_ok r -> db_ok db -> db_ok db'.
Proof.
  unfold create_run. destruct (fk_run db r) eqn:Ef; [|done]. destruct (r_create _ (runs db)) as [rs|] eqn:E; [|done].
  intros <-%Ok_inj Hw Hok. pose proof (r_create_rows _ _ _ E (ok_runs _ Hok)) as Hr. apply r_create_ok in E as [-> _].
  destruct Hok. split; cbn; try done.
  - intros x [Hx|Hx]%elem_of_app; [by auto|]. by apply list_elem_of_singleton in Hx as ->.
  - intros x [Hx|Hx]%elem_of_app; [by apply (ok_fk_run0 x)|]. by apply list_elem_of_singleton in Hx as ->.
Qed.

Lemma update_run_ok r db db' : update_run r db = Ok db' -> run_ok r -> db_ok db -> db_ok db'.
Proof.
  unfold update_run. destruct (fk_run db r) eqn:Ef; [|done]. destruct (r_update _ (runs db)) as [rs|] eqn:E; [|done].
  intros <-%Ok_inj Hw Hok. pose proof (r_update_rows _ _ _ E (ok_runs _ Hok)) as Hr.
  destruct Hok. split; cbn; try done; intros x Hx; apply (elem_of_r_update _ _ _ _ E) in Hx as [[-> _]|[Hx _]]; by auto || by apply (ok_fk_run0 x).
Qed.

Lemma drop_runs_ok db p : db_ok db -> db_ok (set_runs db (List.filter p (runs db))).
Proof.
  intros []. split; cbn; try done; [by apply filter_rows|..]; intros r [Hr _]%elem_of_filterb; [by auto|by apply (ok_fk_run0 r)].
Qed.

(** ** Filling a destination *)

(** What a form may change of a destination, and what it may not. *)
Record filled (db : Db) (d d' : BackupDest) : Prop := MkFilled {
  fl_id : d_ID d' = d_ID d; fl_org : d_OrgID d' = d_OrgID d; fl_kind : d_Kind d' = d_Kind d; fl_key : d_ArchiveKey d' = d_ArchiveKey d;
  fl_shared : d_OrgID d <> None -> d_Shared d' = false;
  fl_name : re_match nameRe (d_Name d') = true /\ d_Name d' <> Local;
  fl_free p : p ∈ dests db -> d_OrgID p = d_OrgID d -> d_ID p <> d_ID d -> d_Name p <> d_Name d' }.

Lemma errors_join_None es : errors_join es = None -> es = [].
Proof. destruct es; done. Qed.

Lemma fill_filled db d s probe more d' : fill db d s probe more = Ok d' -> filled db d d'.
Proof.
  unfold fill. destruct (errors_join _) eqn:Ej; [done|]. apply errors_join_None in Ej.
  apply app_eq_nil in Ej as [E1 Ej]. apply app_eq_nil in Ej as [E2 Ej].
  set (name := trim_space (f_Name s)) in *.
  destruct (existsb _ _) eqn:Ex; [done|]. intros E.
  assert (d' = with_form d name (trim_byte_right "/" (trim_space (f_Endpoint s))) (trim_space (f_Bucket s)) s) as ->.
  { destruct probe as [p|]; [destruct (p _); [by destruct (d_OrgID _)|]|]; by apply Ok_inj in E. }
  clear E. split; try done; cbn [with_form d_Shared d_Name].
  - intros Hne. rewrite bool_decide_eq_false_2 by done. apply andb_false_r.
  - destruct (re_match nameRe name); [|done]. split; [done|]. by destruct (String.eqb_spec name Local).
  - intros p Hp Ho Hi En. apply not_true_iff_false in Ex. apply Ex, existsb_exists. exists p. split.
    + apply list_elem_of_In, elem_of_filterb. split; [done|]. by apply bool_decide_eq_true_2.
    + rewrite (proj2 (String.eqb_neq _ _) Hi). by apply String.eqb_eq.
Qed.

Lemma filled_ok db d d' : filled db d d' -> d_Kind d <> Local -> dest_ok d'.
Proof. intros [] Hk. split_and!; [rewrite fl_org0; done|rewrite fl_kind0; tauto|rewrite fl_kind0; done|tauto]. Qed.

Lemma filled_free db d d' : filled db d d' -> forall x, x ∈ dests db -> d_ID x <> d_ID d' -> dest_key x <> dest_key d'.
Proof. intros [] x Hx Hne [= Ho Hn]. rewrite fl_id0 in Hne. rewrite fl_org0 in Ho. by apply (fl_free0 x). Qed.

Lemma Create_filled id k now org s probe db db' d : Create id k now org s probe db = Ok (db', d) ->
  create_dest d db = Ok db' /\ d_Kind d = S3 /\ d_OrgID d = org /\ d_ID d = id /\
  filled db (MkDest id org S3 "" "" "" "" "" "" (or_str (f_ArchiveKey s) k) false now "" "") d.
Proof.
  unfold Create. destruct (fill _ _ _ _ _) as [d0|] eqn:Ef; [|done]. apply fill_filled in Ef as Hf. destruct (create_dest d0 db) as [db0|] eqn:Ec; [|done].
  intros [= <- <-]. split_and!; [done|by rewrite (fl_kind _ _ _ Hf)|by rewrite (fl_org _ _ _ Hf)|by rewrite (fl_id _ _ _ Hf)|done].
Qed.

Lemma create_dest_fresh d db db' : create_dest d db = Ok db' -> (d_ID d ∉ map d_ID (dests db)) /\ dests db' = dests db ++ [d] /\
  schedules db' = schedules db /\ runs db' = runs db.
Proof.
  unfold create_dest. destruct (r_create d (dests db)) as [ds|] eqn:E; [|done]. apply r_create_ok in E as [-> Hn]. intros <-%Ok_inj. done.
Qed.

Lemma dest_Create_ok id k now org s probe db db' d : Create id k now org s probe db = Ok (db', d) -> db_ok db -> db_ok db'.
Proof.
  intros (Ec & Hk & Ho & Hi & Hf)%Create_filled Hok. apply (create_dest_ok d db); [done|apply (filled_ok _ _ _ Hf); done| |done].
  intros (x & Ex & Hx)%list_elem_of_fmap. symmetry in Ex. revert Ex. apply (filled_free _ _ _ Hf); [done|].
  apply create_dest_fresh in Ec as [Hn _]. intros Ei. apply Hn. rewrite <-Ei. apply list_elem_of_fmap. by exists x.
Qed.

Lemma Update_filled d s probe db db' d' : Update d s probe db = Ok (db', d') ->
  d_Kind d <> Local /\ filled db d d' /\ update_dest d' db = Ok db'.
Proof.
  unfold Update. destruct (String.eqb_spec (d_Kind d) Local); [done|]. destruct (fill _ _ _ _ _) as [d0|] eqn:Ef; [|done].
  apply fill_filled in Ef. destruct (update_dest d0 db) eqn:Eu; [|done]. intros [= <- <-]. done.
Qed.

Lemma Update_ok d s probe db db' d' : Update d s probe db = Ok (db', d') -> db_ok db -> db_ok db'.
Proof.
  intros (Hk & Hf & Eu)%Update_filled. apply (update_dest_ok d'); [done|by apply (filled_ok _ _ _ Hf)|by apply (filled_free _ _ _ Hf)].
Qed.

(** Changing no key column of a row of the table. *)
Lemma touch_dest_ok d0 d db db' : update_dest d db = Ok db' -> d0 ∈ dests db -> d_ID d = d_ID d0 -> dest_key d = dest_key d0 ->
  d_Kind d = d_Kind d0 -> d_Shared d = d_Shared d0 -> db_ok db -> db_ok db'.
Proof.
  intros Eu Hd Ei Ek Ekind Es Hok. apply (update_dest_ok d db); [done| | |done].
  - destruct (ok_dest _ Hok d0 Hd) as (H1 & H2 & H3 & H4). injection Ek as Eo En. unfold dest_ok. by rewrite Ekind, Es, Eo, En.
  - intros x Hx Hne. rewrite Ek. intros E. apply Hne. rewrite Ei. f_equal. clear -Hx Hd E Hok. pose proof (ok_names _ Hok) as Hn.
    by apply (nodup_key dest_key (dests db)).
Qed.

(** ** Updating many runs at once *)

Definition same_id (id : string) (r : BackupRun) : bool := String.eqb (r_ID r) id.

Lemma update_run_is r db : fk_run db r = true -> r_ID r ∈ map r_ID (runs db) ->
  update_run r db = Ok (set_runs db (map (fun x => if String.eqb (r_ID x) (r_ID r) then named r "" else x) (runs db))).
Proof.
  intros Hf Hi. unfold update_run. rewrite Hf. unfold r_update.
  by assert (is_ok (r_get (runs db) (row_id (named r ""))) = true) as -> by (by apply r_get_is).
Qed.

Lemma update_runs_is rs db : NoDup (map r_ID rs) -> (forall r, r ∈ rs -> fk_run db r = true /\ r_ID r ∈ map r_ID (runs db)) ->
  update_runs rs db =
  Ok (set_runs db (map (fun x => match find_first (same_id (r_ID x)) rs with Some r => named r "" | None => x end) (runs db))).
Proof.
  revert db. induction rs as [|r rs IH]; intros db Hn Hr; cbn [update_runs find_first].
  - rewrite map_id. by destruct db.
  - cbn [map] in Hn. apply NoDup_cons in Hn as [Hx Hn]. destruct (Hr r) as [Hf Hi]; [by left|]. rewrite (update_run_is r db Hf Hi).
    assert (map r_ID (map (fun x => if String.eqb (r_ID x) (r_ID r) then named r "" else x) (runs db)) = map r_ID (runs db)) as Ei.
    { rewrite map_map. apply map_ext. intros x. destruct (String.eqb_spec (r_ID x) (r_ID r)) as [->|]; done. }
    rewrite IH; [|done|intros y Hy; cbn [set_runs runs]; rewrite Ei; apply Hr; by right]. f_equal. unfold set_runs. cbn [runs dests schedules]. f_equal. rewrite map_map.
    apply map_ext. intros x. unfold same_id at 2. rewrite (String.eqb_sym (r_ID r)).
    destruct (String.eqb_spec (r_ID x) (r_ID r)) as [Ex|Ex]; [|done]. cbn [r_ID named].
    destruct (find_first (same_id (r_ID r)) rs) as [y|] eqn:E; [|done]. apply find_first_Some in E as [Hy Ey].
    destruct Hx. apply String.eqb_eq in Ey. rewrite <-Ey. apply list_elem_of_fmap. by exists y.
Qed.

(** The update of the runs [p] picks, by a change [f] of their state alone. *)
Definition keeps_refs (f : BackupRun -> BackupRun) : Prop :=
  forall r, r_ID (f r) = r_ID r /\ r_DestID (f r) = r_DestID r /\ r_ScheduleID (f r) = r_ScheduleID r /\ r_Kind (f r) = r_Kind r.

Lemma update_picked f p db : keeps_refs f -> db_ok db ->
  update_runs (map f (List.filter p (runs db))) db =
  Ok (set_runs db (map (fun x => if p x then named (f x) "" else x) (runs db))).
Proof.
  intros Hf Hok. rewrite update_runs_is.
  - do 2 f_equal. apply map_ext_in. intros x Hx%list_elem_of_In. destruct (find_first _ _) as [y|] eqn:E.
    + apply find_first_Some in E as [(z & -> & [Hz Hp]%elem_of_filterb)%list_elem_of_fmap Ez]. unfold same_id in Ez.
      apply String.eqb_eq in Ez. destruct (Hf z) as [Ei _]. rewrite Ei in Ez.
      assert (z = x) as -> by (apply (nodup_key r_ID (runs db)); [apply (ok_runs db Hok)|done..]). by rewrite Hp.
    + destruct (p x) eqn:Hp; [|done]. apply find_first_None in E.
      pose proof (proj1 (Forall_forall _ _) E (f x)) as Hn. unfold same_id in Hn. destruct (Hf x) as [Ei _].
      rewrite Ei, String.eqb_refl in Hn. discriminate Hn. apply list_elem_of_fmap. exists x. split; [done|]. by apply elem_of_filterb.
  - rewrite map_map. rewrite (map_ext _ r_ID) by (intros r; apply Hf). apply filter_map_nodup, (ok_runs db Hok).
  - intros r (x & -> & [Hx _]%elem_of_filterb)%list_elem_of_fmap. destruct (Hf x) as (Ei & Ed & Es & _). split.
    + pose proof (ok_fk_run _ Hok x Hx) as H. unfold fk_run in *. by rewrite Ed, Es.
    + rewrite Ei. apply list_elem_of_fmap. by exists x.
Qed.

Lemma update_picked_ok f (p : BackupRun -> bool) db : keeps_refs f -> (forall r, run_ok r -> run_ok (f r)) -> db_ok db ->
  db_ok (set_runs db (map (fun x => if p x then named (f x) "" else x) (runs db))).
Proof.
  intros Hf Hw Hok. destruct Hok. split; cbn; try done.
  - unfold rows_ok. rewrite map_map. rewrite (map_ext _ r_ID); [done|]. intros r. destruct (p r); [|done]. apply Hf.
  - intros r (x & -> & Hx)%list_elem_of_fmap. destruct (p x); [|by auto]. apply (Hw x). by auto.
  - intros r (x & -> & Hx)%list_elem_of_fmap. pose proof (ok_fk_run0 x Hx) as H. destruct (p x); [|done]. destruct (Hf x) as (_ & Ed & Es & _).
    unfold fk_run in *. cbn [r_DestID r_ScheduleID named]. by rewrite Ed, Es.
Qed.

Lemma closed_keeps (st key err : BackupRun -> string) (size now : BackupRun -> Z) : keeps_refs (fun r => closed r (st r) (key r) (size r) (err r) (now r)).
Proof. done. Qed.
Lemma closed_run_ok r st key size err now : In st [Done; Failed] -> run_ok r -> run_ok (closed r st key size err now).
Proof.
  intros Hs (Hk & _ & _). split_and!; [exact Hk|right; by apply list_elem_of_In|]. cbn [r_FinishedAt r_Status closed]. split; [done|]. intros ->.
  by destruct Hs as [?|[?|[]]].
Qed.

(** ** Boot *)

Definition panel_running (r : BackupRun) : bool := String.eqb (r_Kind r) KindPanel && is_running r.
Definition kind_running (kind : string) (r : BackupRun) : bool := String.eqb (r_Kind r) kind && is_running r.

Lemma filter_filter {A} (p q : A -> bool) l : List.filter p (List.filter q l) = List.filter (fun x => q x && p x) l.
Proof. induction l as [|x l IH]; [done|]. cbn [List.filter]. destruct (q x); cbn [List.filter andb]; by rewrite IH. Qed.

Lemma interrupt_kind_is now kind db : db_ok db ->
  interrupt_kind now kind db = Ok (set_runs db (map (fun x => if kind_running kind x then named (interrupt now x) "" else x) (runs db))).
Proof.
  intros Hok. unfold interrupt_kind, ListByKind. rewrite filter_filter. by apply (update_picked (interrupt now) (kind_running kind)).
Qed.

Lemma interrupt_kind_ok now kind db : db_ok db ->
  db_ok (set_runs db (map (fun x => if kind_running kind x then named (interrupt now x) "" else x) (runs db))).
Proof. intros Hok. apply (update_picked_ok (interrupt now)); [done|intros r; apply closed_run_ok; right; by left|done]. Qed.

(** A boot fails no update, and closes every run that says running as failed,
    and changes no other. *)
Definition settled (now : Z) (r : BackupRun) : BackupRun := if is_running r then named (interrupt now r) "" else r.

Lemma Interrupted_is now db : db_ok db -> Interrupted now db = Ok (set_runs db (map (settled now) (runs db))).
Proof.
  intros Hok. unfold Interrupted. rewrite (interrupt_kind_is now KindVolume db Hok). 
  rewrite interrupt_kind_is by (by apply interrupt_kind_ok). do 2 f_equal. cbn [set_runs runs]. rewrite map_map.
  apply map_ext_in. intros x Hx%list_elem_of_In. destruct (ok_run _ Hok x Hx) as (Hk & _). unfold settled, kind_running.
  destruct (String.eqb_spec (r_Kind x) KindVolume) as [Ek|Ek], (is_running x) eqn:Er; cbn [andb].
  - change (is_running (named (interrupt now x) "")) with false. by rewrite andb_false_r.
  - by rewrite Er, andb_false_r.
  - assert (r_Kind x = KindPanel) as -> by set_solver. by rewrite Er.
  - by rewrite Er, andb_false_r.
Qed.

Lemma SettleRestored_is now note key size db : db_ok db ->
  let n := length (List.filter (kind_running KindPanel) (runs db)) in
  SettleRestored now note key size db =
  Ok (set_runs db (map (fun x => if kind_running KindPanel x then
      named (if Nat.eqb n 1 then closed x Done (or_str (r_ObjectKey x) key) (or_int (r_SizeBytes x) size) note now
             else closed x Done (r_ObjectKey x) (r_SizeBytes x) note now) "" else x) (runs db))).
Proof.
  intros Hok n. unfold SettleRestored, ListByKind. rewrite filter_filter. fold (kind_running KindPanel). fold n.
  apply (update_picked (fun r => if Nat.eqb n 1 then closed r Done (or_str (r_ObjectKey r) key) (or_int (r_SizeBytes r) size) note now
             else closed r Done (r_ObjectKey r) (r_SizeBytes r) note now) (kind_running KindPanel)); [|done].
  intros r. by destruct (Nat.eqb n 1).
Qed.

Lemma SettleRestored_ok now note key size db db' : SettleRestored now note key size db = Ok db' -> db_ok db -> db_ok db'.
Proof.
  intros E Hok. rewrite (SettleRestored_is now note key size db Hok) in E. apply Ok_inj in E as <-.
  apply (update_picked_ok (fun r => if Nat.eqb (length (List.filter (kind_running KindPanel) (runs db))) 1
     then closed r Done (or_str (r_ObjectKey r) key) (or_int (r_SizeBytes r) size) note now
     else closed r Done (r_ObjectKey r) (r_SizeBytes r) note now)); [| |done].
  - intros r. by destruct (Nat.eqb _ 1).
  - intros r Hr. destruct (Nat.eqb _ 1); by apply closed_run_ok; [left|].
Qed.

Lemma Interrupted_ok now db db' : Interrupted now db = Ok db' -> db_ok db -> db_ok db'.
Proof.
  intros E Hok. rewrite (Interrupted_is now db Hok) in E. apply Ok_inj in E as <-.
  apply (update_picked_ok (interrupt now) is_running); [done|intros r; apply closed_run_ok; right; by left|done].
Qed.

(** A boot leaves no run running: on tables in order the two calls
    never fail; panel runs the archive caught being written end done, with
    the restored archive's key and size when there is one of them, every
    other running run ends failed, and no finished run is changed. *)
Theorem boot_settles now note key size db : db_ok db ->
  exists db1 db2, SettleRestored now note key size db = Ok db1 /\ Interrupted now db1 = Ok db2 /\ db_ok db2 /\
    (forall r, r ∈ runs db2 -> is_running r = false) /\
    dests db2 = dests db /\ schedules db2 = schedules db /\
    runs db2 = map (fun r => if negb (is_running r) then r
      else if String.eqb (r_Kind r) KindPanel then
        if Nat.eqb (length (List.filter (kind_running KindPanel) (runs db))) 1
        then named (closed r Done (or_str (r_ObjectKey r) key) (or_int (r_SizeBytes r) size) note now) ""
        else named (closed r Done (r_ObjectKey r) (r_SizeBytes r) note now) ""
      else named (closed r Failed (r_ObjectKey r) (r_SizeBytes r) interrupted now) "") (runs db).
Proof.
  intros Hok. pose proof (SettleRestored_is now note key size db Hok) as E1. eexists _, _. split; [exact E1|].
  pose proof (SettleRestored_ok _ _ _ _ _ _ E1 Hok) as Hok1. pose proof (Interrupted_is now _ Hok1) as E2. split; [exact E2|].
  split; [by apply (Interrupted_ok _ _ _ E2)|]. split; [|split_and!; [done..|]].
  - intros r (x & -> & _)%list_elem_of_fmap. unfold settled. destruct (is_running x) eqn:Er; [done|exact Er].
  - cbn [set_runs runs]. rewrite map_map. apply map_ext. intros r. unfold settled, kind_running.
    destruct (is_running r) eqn:Er; cbn [negb]; [|by rewrite andb_false_r, Er]. rewrite andb_true_r.
    destruct (String.eqb (r_Kind r) KindPanel); [by destruct (Nat.eqb _ 1)|by rewrite Er].
Qed.

(** ** Every call *)

Definition with_gens (r : BackupRun) (recovery master : Z) : BackupRun :=
  MkRun (r_ID r) (r_Kind r) (r_VolumeID r) (r_ScheduleID r) (r_DestID r) (r_Trigger r) (r_Status r) (r_ObjectKey r)
    (r_SizeBytes r) (r_Error r) (r_CreatedAt r) (r_FinishedAt r) (r_GroupID r) recovery master (r_Dest r).

(** One call of the leaf that writes; the rows a call is given are ones it
    loaded, and a panel run gets its key generations before it ends. *)
Inductive step : Db -> Db -> Prop :=
| st_local id key now dir db db' d : EnsureLocal id key now dir db = Ok (db', d) -> step db db'
| st_create id key now org s probe db db' d : Create id key now org s probe db = Ok (db', d) -> step db db'
| st_update id d s probe db db' d' : Get db id = Ok d -> Update d s probe db = Ok (db', d') -> step db db'
| st_approve id d addr user db db' d' : Get db id = Ok d -> Approve d addr user db = Ok (db', d') -> step db db'
| st_delete id d used db db' : Get db id = Ok d -> Delete d used db = Ok db' -> step db db'
| st_add zones id now vol org methods s db db' b : AddSchedule zones id now vol org methods s db = Ok (db', b) -> step db db'
| st_change zones id b org methods s db db' b' : GetSchedule db id = Ok b ->
    UpdateSchedule zones b org methods s db = Ok (db', b') -> step db db'
| st_drop id db db' : DeleteSchedule id db = Ok db' -> step db db'
| st_start id now kind vol sched dest trigger group db db' r :
    StartIn id now kind vol sched dest trigger group db = Ok (db', r) -> step db db'
| st_finish id r recovery master now key size err db db' r' : GetRun db id = Ok r ->
    Finish now (with_gens r recovery master) key size err db = Ok (db', r') -> step db db'
| st_settle now note key size db db' : SettleRestored now note key size db = Ok db' -> step db db'
| st_interrupted now db db' : Interrupted now db = Ok db' -> step db db'
| st_prune {B} `{Objects B} (b b' : B) prefix keep protect gone db db' :
    Prune b db prefix keep protect = (b', db', gone) -> step db db'.

(** The destinations of the runs stay, with their archive keys. *)
Definition archives_kept (db db' : Db) : Prop :=
  (forall r d, r ∈ runs db -> d ∈ dests db -> r_DestID r = d_ID d ->
     exists d', d' ∈ dests db' /\ d_ID d' = d_ID d /\ d_ArchiveKey d' = d_ArchiveKey d /\ d_OrgID d' = d_OrgID d /\ d_Kind d' = d_Kind d) /\
  (forall r r', r ∈ runs db -> r' ∈ runs db' -> r_ID r' = r_ID r -> r_DestID r' = r_DestID r).

Lemma dests_same db db' : db_ok db -> dests db' = dests db ->
  (forall r', r' ∈ runs db' -> exists r, r ∈ runs db /\ r_ID r = r_ID r' /\ r_DestID r = r_DestID r') -> archives_kept db db'.
Proof.
  intros Hok Ed Hr. split; [intros r d _ Hd _; exists d; by rewrite Ed|]. intros r r' H1 H2 Ei. destruct (Hr r' H2) as (x & Hx & Exi & Exd).
  assert (x = r) as <-; [|done]. apply (nodup_key r_ID (runs db)); [apply (ok_runs db Hok)|done..|congruence].
Qed.

Lemma runs_same db db' : db_ok db -> runs db' = runs db ->
  (forall r d, r ∈ runs db -> d ∈ dests db -> r_DestID r = d_ID d ->
     exists d', d' ∈ dests db' /\ d_ID d' = d_ID d /\ d_ArchiveKey d' = d_ArchiveKey d /\ d_OrgID d' = d_OrgID d /\ d_Kind d' = d_Kind d) ->
  archives_kept db db'.
Proof.
  intros Hok Er Hd. split; [done|]. rewrite Er. intros r r' H1 H2 Ei. f_equal. apply (nodup_key r_ID (runs db)); [apply (ok_runs db Hok)|done..].
Qed.

Lemma update_dest_kept d0 d db db' : update_dest d db = Ok db' -> db_ok db -> d0 ∈ dests db -> d_ID d = d_ID d0 ->
  d_ArchiveKey d = d_ArchiveKey d0 -> d_OrgID d = d_OrgID d0 -> d_Kind d = d_Kind d0 -> archives_kept db db'.
Proof.
  unfold update_dest. destruct (r_update d (dests db)) as [ds|] eqn:E; [|done]. intros <-%Ok_inj Hok Hd Ei Ek Eo Ekind.
  apply runs_same; [done|done|]. intros r x _ Hx _. destruct (decide (d_ID x = d_ID d)) as [Ex|Ex].
  - exists d. assert (x = d0) as -> by (apply (nodup_key d_ID (dests db)); [apply (ok_dests db Hok)|done..|congruence]).
    split; [|done]. apply (elem_of_r_update _ _ _ _ E). left. split; [done|]. apply list_elem_of_fmap. by exists d0.
  - exists x. split; [|done]. apply (elem_of_r_update _ _ _ _ E). by right.
Qed.

Lemma EnsureLocal_step id key now dir db db' d : EnsureLocal id key now dir db = Ok (db', d) -> db_ok db -> db_ok db' /\ archives_kept db db'.
Proof.
  unfold EnsureLocal. intros E Hok. destruct (find_first _ _) as [x|] eqn:Ef.
  - apply find_first_Some in Ef as [[Hx _]%elem_of_filterb Hk]. destruct (String.eqb (d_Endpoint x) dir).
    + injection E as <- _. split; [done|]. by apply dests_same; [|done|intros r Hr; exists r].
    + destruct (update_dest _ db) as [db0|] eqn:Eu; [|done]. injection E as <- _.
      split; [by apply (touch_dest_ok x (set_endpoint x dir) db)|by apply (update_dest_kept x _ _ _ Eu)].
  - destruct (create_dest _ db) as [db0|] eqn:Ec; [|done]. injection E as <- _. split.
    + apply (create_dest_ok _ _ _ Ec); [by split_and!|..|done]. intros (y & Ey & Hy)%list_elem_of_fmap. injection Ey as Eo En.
      destruct (ok_dest _ Hok y Hy) as (_ & Hl & _). apply find_first_None in Ef.
      pose proof (proj1 (Forall_forall _ _) Ef y) as Hn. cbn beta in Hn. rewrite (proj2 Hl), String.eqb_refl in Hn by done. discriminate Hn.
      apply elem_of_filterb. split; [done|]. by apply bool_decide_eq_true_2.
    + apply create_dest_fresh in Ec as (_ & Ed & _ & Er). apply runs_same; [done|done|]. intros r x _ Hx _. exists x. rewrite Ed.
      split; [apply elem_of_app; by left|done].
Qed.

Lemma Delete_step d used db db' : Delete d used db = Ok db' -> db_ok db -> db_ok db' /\ archives_kept db db'.
Proof.
  unfold Delete. destruct (String.eqb _ Local); [done|]. destruct used; [done|]. destruct (existsb _ _); [done|].
  destruct (List.filter _ (runs db)) eqn:Er; [|done]. intros E Hok. split; [by apply (delete_dest_ok _ _ _ E)|].
  unfold delete_dest in E. destruct (existsb _ _); [done|]. destruct (r_delete (d_ID d) (dests db)) as [ds|] eqn:Ed; [|done].
  apply Ok_inj in E as <-. apply r_delete_ok in Ed as [_ Hin]. apply runs_same; [done|done|]. intros r x Hr Hx Erx. exists x.
  split; [|done]. apply Hin. split; [done|]. intros Ex. change (row_id x) with (d_ID x) in Ex. assert (r ∈ List.filter (fun r => String.eqb (r_DestID r) (d_ID d)) (runs db)) as Hi.
  { apply elem_of_filterb. split; [done|]. apply String.eqb_eq. congruence. }
  rewrite Er in Hi. by apply not_elem_of_nil in Hi.
Qed.

Lemma create_run_kept r db db' : create_run r db = Ok db' -> db_ok db -> archives_kept db db'.
Proof.
  unfold create_run. destruct (fk_run db r); [|done]. destruct (r_create _ (runs db)) as [rs|] eqn:E; [|done]. intros <-%Ok_inj Hok.
  apply r_create_ok in E as [-> Hn]. split; [intros x d _ Hd _; by exists d|]. intros x y Hx [Hy|Hy]%elem_of_app Exy.
  - f_equal. by apply (nodup_key r_ID (runs db)); [apply (ok_runs db Hok)|..].
  - apply list_elem_of_singleton in Hy as ->. destruct Hn. change (row_id (named r "")) with (r_ID (named r "")). rewrite Exy.
    apply list_elem_of_fmap. by exists x.
Qed.

Lemma update_run_step r0 r db db' : update_run r db = Ok db' -> db_ok db -> run_ok r -> r0 ∈ runs db -> r_ID r = r_ID r0 -> r_DestID r = r_DestID r0 ->
  db_ok db' /\ archives_kept db db'.
Proof.
  intros E Hok Hw Hr Ei Ed. split; [by apply (update_run_ok _ _ _ E)|]. unfold update_run in E. destruct (fk_run db r); [|done].
  destruct (r_update _ (runs db)) as [rs|] eqn:Eu; [|done]. apply Ok_inj in E as <-. apply dests_same; [done|done|].
  intros x Hx. apply (elem_of_r_update _ _ _ _ Eu) in Hx as [[-> _]|[Hx _]]; [by exists r0|by exists x].
Qed.

Lemma StartIn_step id now kind vol sched dest trigger group db db' r : StartIn id now kind vol sched dest trigger group db = Ok (db', r) ->
  db_ok db -> db_ok db' /\ archives_kept db db'.
Proof.
  unfold StartIn. destruct (negb _ && negb _) eqn:Ek; [done|]. destruct (_ || _); [done|]. destruct (create_run _ db) as [db0|] eqn:Ec; [|done].
  intros [= <- _] Hok. split; [|by apply (create_run_kept _ _ _ Ec)]. apply (create_run_ok _ _ _ Ec); [|done]. split_and!; [|left|done].
  cbn [r_Kind]. destruct (String.eqb_spec kind KindVolume) as [->|_]; [left|]. destruct (String.eqb_spec kind KindPanel) as [->|_]; [right; left|done].
Qed.

Lemma map_runs_kept f p db : keeps_refs f -> db_ok db ->
  archives_kept db (set_runs db (map (fun x => if p x : bool then named (f x) "" else x) (runs db))).
Proof.
  intros Hf Hok. apply dests_same; [done|done|]. intros r (x & -> & Hx)%list_elem_of_fmap. exists x. split; [done|].
  destruct (p x); [|done]. cbn [r_ID r_DestID named]. by destruct (Hf x) as (-> & -> & _).
Qed.

Lemma SettleRestored_kept now note key size db db' : SettleRestored now note key size db = Ok db' -> db_ok db -> archives_kept db db'.
Proof.
  intros E Hok. rewrite (SettleRestored_is now note key size db Hok) in E. apply Ok_inj in E as <-.
  apply (map_runs_kept (fun r => if Nat.eqb (length (List.filter (kind_running KindPanel) (runs db))) 1
     then closed r Done (or_str (r_ObjectKey r) key) (or_int (r_SizeBytes r) size) note now
     else closed r Done (r_ObjectKey r) (r_SizeBytes r) note now)); [|done]. intros r. by destruct (Nat.eqb _ 1).
Qed.

Lemma Prune_step {B} `{Objects B} (b b' : B) db prefix keep protect db' gone : Prune b db prefix keep protect = (b', db', gone) ->
  db_ok db -> db_ok db' /\ archives_kept db db'.
Proof.
  intros E Hok. assert (exists p, runs db' = List.filter p (runs db) /\ dests db' = dests db /\ schedules db' = schedules db) as (p & Er & Ed & Es).
  { assert (forall d : Db, exists p, runs d = List.filter p (runs d) /\ dests d = dests d /\ schedules d = schedules d) as Hid.
    { intros d. exists (fun _ => true). split; [|done]. induction (runs d) as [|x l IH]; [done|]. cbn [List.filter]. by rewrite <-IH. }
    unfold Prune in E. destruct (keep <=? 0); [injection E as _ <- _; apply Hid|]. destruct (o_list b _) as [keys|]; [|injection E as _ <- _; apply Hid].
    destruct (_ <=? keep); [injection E as _ <- _; apply Hid|]. destruct (delete_keys _ _ b) as [b1 g]. injection E as _ <- _. eexists. apply forget_runs. }
  split.
  - destruct db' as [ds ss rs]. cbn [runs dests schedules] in Er, Ed, Es. rewrite Er, Ed, Es. by apply drop_runs_ok.
  - apply dests_same; [done|done|]. intros r. rewrite Er. intros [Hr _]%elem_of_filterb. by exists r.
Qed.

Lemma schedules_kept db db' : db_ok db -> dests db' = dests db -> runs db' = runs db -> archives_kept db db'.
Proof. intros Hok Ed Er. apply dests_same; [done..|]. rewrite Er. intros r Hr. by exists r. Qed.
Lemma create_schedule_same b db db' : create_schedule b db = Ok db' -> dests db' = dests db /\ runs db' = runs db.
Proof. unfold create_schedule. destruct (fk_schedule db b); [|done]. destruct (r_create _ _); [|done]. by intros <-%Ok_inj. Qed.
Lemma update_schedule_same b db db' : update_schedule b db = Ok db' -> dests db' = dests db /\ runs db' = runs db.
Proof. unfold update_schedule. destruct (fk_schedule db b); [|done]. destruct (r_update _ _); [|done]. by intros <-%Ok_inj. Qed.

Lemma DeleteSchedule_kept id db db' : DeleteSchedule id db = Ok db' -> db_ok db -> archives_kept db db'.
Proof.
  unfold DeleteSchedule. destruct (r_delete _ _); [|done]. intros <-%Ok_inj Hok. apply dests_same; [done|done|].
  intros r (x & -> & Hx)%list_elem_of_fmap. by exists x.
Qed.

Lemma step_ok db db' : step db db' -> db_ok db -> db_ok db' /\ archives_kept db db'.
Proof.
  intros [] Hok.
  - by apply (EnsureLocal_step _ _ _ _ _ _ _ H).
  - split; [by apply (dest_Create_ok _ _ _ _ _ _ _ _ _ H)|]. apply Create_filled in H as (Ec & _). apply create_dest_fresh in Ec as (_ & Ed & _ & Er).
    apply runs_same; [done|done|]. intros r x _ Hx _. exists x. rewrite Ed. split; [apply elem_of_app; by left|done].
  - split; [by apply (Update_ok _ _ _ _ _ _ H0)|]. apply Update_filled in H0 as (_ & [] & Eu). apply r_get_ok in H as [Hd _].
    by apply (update_dest_kept d _ _ _ Eu).
  - apply r_get_ok in H as [Hd _]. unfold Approve in H0. destruct (update_dest _ db0) as [db1|] eqn:Eu; [|done]. injection H0 as <- _.
    split; [by apply (touch_dest_ok d _ _ _ Eu)|by apply (update_dest_kept d _ _ _ Eu)].
  - by apply (Delete_step _ _ _ _ H0).
  - unfold AddSchedule in H. destruct (fillSchedule _ _ _ _ _ _) as [b0|]; [|done]. destruct (create_schedule b0 db0) as [db1|] eqn:Ec; [|done].
    injection H as <- _. split; [by apply (create_schedule_ok _ _ _ Ec)|]. by apply schedules_kept; [|apply (create_schedule_same _ _ _ Ec)..].
  - unfold UpdateSchedule in H0. destruct (fillSchedule _ _ _ _ _ _) as [b0|]; [|done]. destruct (update_schedule b0 db0) as [db1|] eqn:Ec; [|done].
    injection H0 as <- _. split; [by apply (update_schedule_ok _ _ _ Ec)|]. by apply schedules_kept; [|apply (update_schedule_same _ _ _ Ec)..].
  - split; [by apply (DeleteSchedule_ok _ _ _ H)|by apply (DeleteSchedule_kept _ _ _ H)].
  - by apply (StartIn_step _ _ _ _ _ _ _ _ _ _ _ H).
  - apply r_get_ok in H as [Hr _]. unfold Finish in H0. destruct (update_run _ db0) as [db1|] eqn:Eu; [|done]. injection H0 as <- _.
    pose proof (ok_run _ Hok r Hr) as Hw. apply (update_run_step r _ _ _ Eu); [done| |done|by destruct err..].
    destruct err; apply (closed_run_ok (with_gens r recovery master)); [right; by left|exact Hw|by left|exact Hw].
  - split; [by apply (SettleRestored_ok _ _ _ _ _ _ H)|by apply (SettleRestored_kept _ _ _ _ _ _ H)].
  - split; [by apply (Interrupted_ok _ _ _ H)|]. rewrite (Interrupted_is now db0 Hok) in H. apply Ok_inj in H as <-.
    by apply (map_runs_kept (interrupt now) is_running).
  - by apply (Prune_step _ _ _ _ _ _ _ _ H0).
Qed.

(** From a new install, whatever calls were made in whatever order, the
    tables are in order: ids and names are keys, references name rows, an
    org's destination is never shared and only the install's own is local;
    and no call takes away the destination of a run, changes its archive key,
    its org or its kind, or points a run elsewhere, so every archive a run
    row names can be found and opened. *)
Theorem backup_tables_ok db : rtc step (MkDb [] [] []) db ->
  db_ok db /\ forall db', step db db' -> archives_kept db db'.
Proof.
  intros Hs. assert (db_ok db) as Hok; [|split; [done|]; intros db' Hd; by apply (step_ok db db' Hd)].
  cut (db_ok (MkDb [] [] [])); [|split; cbn; try (intros ? []%elem_of_nil); constructor].
  induction Hs as [|x y z H1 _ IH]; [done|]. intros Hx. by apply IH, (step_ok x y).
Qed.

Definition wlocal : BackupDest := MkDest "d" None Local Local "/data" "" "" "" "" "k" true 0 "" "".
Lemma backup_tables_ok_witness :
  archives_kept (MkDb [wlocal] [] [MkRun "r" KindVolume (Some "v") None "d" "manual" Running "" 0 "" 5 None None 0 0 ""])
    (MkDb [wlocal] [] [MkRun "r" KindVolume (Some "v") None "d" "manual" Done "key" 9 "" 5 (Some 6) None 0 0 ""]).
Proof.
  apply backup_tables_ok.
  - apply (rtc_l _ _ (MkDb [wlocal] [] [])); [by eapply (st_local "d" "k" 0 "/data")|].
    apply rtc_once. by eapply (st_start "r" 5 KindVolume (Some "v") None "d" "manual" None).
  - by eapply (st_finish "r" _ 0 0 6 "key" 9 None).
Defined.

(** ** What an org sees *)

Lemma visible_spec d org : visible d org = true <-> d_OrgID d = Some org \/ (d_OrgID d = None /\ d_Shared d = true).
Proof.
  unfold visible. destruct (d_OrgID d) as [o|]; [rewrite String.eqb_eq|]; split; [intros ->; by left| |by right|].
  - by intros [[= ->]|[[=] _]].
  - by intros [[=]|[_ H]].
Qed.

Lemma For_ok db org id d : db_ok db -> For db org id = Ok d <-> d ∈ dests db /\ d_ID d = id /\ visible d org = true.
Proof.
  intros Hok. unfold For. split.
  - destruct (r_get (dests db) id) as [x|] eqn:E; [|done]. apply r_get_ok in E as [Hx Ei].
    destruct (_ && _); [done|]. destruct (visible x org) eqn:Ev; [|done]. by intros <-%Ok_inj.
  - intros (Hd & <- & Hv). change (d_ID d) with (row_id d). rewrite (r_get_in (dests db) d (ok_dests _ Hok) Hd), Hv.
    apply visible_spec in Hv as [->|[-> ->]]; [done|by rewrite andb_false_r].
Qed.

Lemma picked_visible db org name l d : db_ok db -> l ⊆ dests db ->
  find_first (fun d => (String.eqb name "" && String.eqb (d_Kind d) Local) ||
    (negb (String.eqb name "") && String.eqb (d_Name d) name && visible d org)) l = Some d -> d ∈ dests db /\ visible d org = true.
Proof.
  intros Hok Hl [Hx Hk]%find_first_Some. apply Hl in Hx. split; [done|].
  apply orb_true_iff in Hk as [[_ Hk]%andb_true_iff|[_ Hk]%andb_true_iff]; [|done]. apply String.eqb_eq in Hk.
  apply visible_spec. right. by apply (ok_dest _ Hok d Hx).
Qed.

Lemma ListByOrg_sub db o : ListByOrg db o ⊆ dests db.
Proof. by intros d [Hd _]%elem_of_filterb. Qed.

Lemma Resolve_visible db org ref d : db_ok db -> Resolve db org ref = Ok d -> d ∈ dests db /\ visible d org = true.
Proof.
  intros Hok. unfold Resolve.
  assert (forall np : string * list BackupDest, np.2 ⊆ dests db -> match find_first (fun d => (String.eqb np.1 "" && String.eqb (d_Kind d) Local) ||
    (negb (String.eqb np.1 "") && String.eqb (d_Name d) np.1 && visible d org)) np.2 with
    | Some d => Ok d | None => Err (Invalidf "dest" "no backup destination %q" [AStr (trim_space ref)]) end = Ok d -> d ∈ dests db /\ visible d org = true) as Hp.
  { intros [name l] Hl. destruct (find_first _ _) as [x|] eqn:Ef; [|done]. intros <-%Ok_inj. by apply (picked_visible db org name l). }
  destruct (String.eqb (trim_space ref) ""); [apply Hp, ListByOrg_sub|].
  destruct (parse_dest_ref _) as [[[] name]|]; [apply Hp, ListByOrg_sub..|done].
Qed.

Lemma Visible_spec db org d : d ∈ Visible db org <-> exists x, x ∈ dests db /\ visible x org = true /\ d = blank1 x.
Proof.
  unfold Visible, blank. rewrite list_elem_of_fmap. setoid_rewrite elem_of_app. setoid_rewrite elem_of_filterb. setoid_rewrite elem_of_filterb.
  setoid_rewrite bool_decide_eq_true. split.
  - intros (x & -> & [[Hx Ho]|[[Hx Ho] Hs]]); exists x; (split_and!; [done| |done]); apply visible_spec; auto.
  - intros (x & Hx & [Ho|[Ho Hs]]%visible_spec & ->); exists x; auto.
Qed.

(** An org reaches its own destinations and the shared global ones, and
    no other: [For] gives exactly those and answers for another org's as for
    one that does not exist; a reference, or an empty one, resolves to one of
    those; and the list to pick from is those, with both keys blanked. *)
Theorem Dest_isolated db org : db_ok db ->
  let mine d := d ∈ dests db /\ (d_OrgID d = Some org \/ (d_OrgID d = None /\ d_Shared d = true)) in
  (forall id d, For db org id = Ok d <-> mine d /\ d_ID d = id) /\
  (forall id e, For db org id = Err e -> (forall d, d ∈ dests db -> d_ID d = id -> d_OrgID d <> None) -> e = ErrNotFound) /\
  (forall ref d, Resolve db org ref = Ok d -> mine d) /\
  (forall d, d ∈ Visible db org <-> exists x, mine x /\ d = blank1 x) /\
  (forall d, d ∈ Visible db org -> d_SecretKey d = "" /\ d_ArchiveKey d = "").
Proof.
  intros Hok mine. unfold mine. setoid_rewrite <-visible_spec. split_and!.
  - intros id d. rewrite (For_ok db org id d Hok). tauto.
  - intros id e. unfold For. destruct (r_get (dests db) id) as [x|] eqn:E.
    + apply r_get_ok in E as [Hx Ei]. intros He Hf. specialize (Hf x Hx Ei). rewrite bool_decide_eq_false_2 in He by done.
      cbn [andb] in He. destruct (visible x org); congruence.
    + apply r_get_missing in E as [-> _]. congruence.
  - intros ref d E. by apply (Resolve_visible db org ref).
  - intros d. rewrite Visible_spec. split; intros (x & ?); exists x; tauto.
  - intros d (x & _ & _ & ->)%Visible_spec. done.
Qed.

Definition wform (name : string) : Dest := MkDestForm name "https://s3.example" "r" "b" "ak" "sk" "" false.
Definition wdest (id org name : string) : BackupDest :=
  MkDest id (Some org) S3 name "https://s3.example" "r" "b" "ak" "sk" ("key-" +:+ id) false 0 "" "".
Definition wsees : Db := MkDb [wlocal; wdest "1" "a" "nas"; wdest "2" "b" "nas"] [] [].

Lemma wsees_ok : db_ok wsees.
Proof.
  apply (dest_Create_ok "2" "key-2" 0 (Some "b") (wform "nas") None (MkDb [wlocal; wdest "1" "a" "nas"] [] []) wsees (wdest "2" "b" "nas")); [vm_compute; reflexivity|].
  apply (dest_Create_ok "1" "key-1" 0 (Some "a") (wform "nas") None (MkDb [wlocal] [] []) _ (wdest "1" "a" "nas")); [vm_compute; reflexivity|].
  apply (EnsureLocal_step "d" "k" 0 "/data" (MkDb [] [] []) _ wlocal); [reflexivity|].
  split; cbn; try (intros ? []%elem_of_nil); constructor.
Qed.

Lemma Dest_isolated_witness :
  For wsees "a" "1" = Ok (wdest "1" "a" "nas") /\ (forall e, For wsees "a" "2" = Err e -> e = ErrNotFound) /\
  Visible wsees "b" = [blank1 (wdest "2" "b" "nas"); blank1 wlocal].
Proof.
  destruct (Dest_isolated wsees "a" wsees_ok) as (H1 & H2 & _). split; [|split; [|reflexivity]].
  - apply H1. split; [|done]. split; [right; left|by left].
  - intros e He. apply (H2 "2" e He). intros d Hd Hi. unfold wsees in Hd. cbn [dests] in Hd.
    apply elem_of_cons in Hd as [->|Hd]; [done|]. apply elem_of_cons in Hd as [->|Hd]; [done|].
    apply list_elem_of_singleton in Hd as ->. done.
Defined.

(** ** References *)

(** How a form and a file name a destination. *)
Definition dest_ref (d : BackupDest) : string :=
  "${{ " +:+ (match d_OrgID d with Some _ => "org.backups." | None => "stackr.backups." end) +:+ d_Name d +:+ " }}".

Lemma lang_upto p n s : lang (RUpTo n (RChr p)) s -> all_bytes p s = true.
Proof.
  revert s. induction n as [|n IH]; intros s; cbn [RUpTo]; intros H; [by inv H|]. unfold ROpt in H. inv H.
  - by match goal with H : lang REps _ |- _ => inv H end.
  - match goal with H : lang (RCat _ _) _ |- _ => inv H end. match goal with H : lang (RChr _) _ |- _ => inv H end.
    rewrite app_cons_str, app_nil_str. cbn [all_bytes]. apply andb_true_iff. by auto.
Qed.

Lemma nameRe_bytes s : re_match nameRe s = true -> all_bytes name_byte s = true /\ s <> "".
Proof.
  rewrite re_match_lang. intros H. inv H. match goal with H : lang (RChr _) _ |- _ => inv H end.
  rewrite app_cons_str, app_nil_str. split; [|done]. cbn [all_bytes]. apply andb_true_iff. split; [done|]. by apply (lang_upto _ 63).
Qed.

Lemma span_stop (p : ascii -> bool) s c t : all_bytes p s = true -> p c = false -> span p (s +:+ String c t) = (s, String c t).
Proof.
  intros Hs Hc. induction s as [|a s IH]; [change ("" +:+ String c t) with (String c t); cbn [span]; by rewrite Hc|].
  rewrite app_cons_str. cbn [all_bytes span] in *. apply andb_true_iff in Hs as [Ha Hs]. by rewrite Ha, IH.
Qed.

(** Nothing ends in a brace and is white space. *)
Definition bytes : list ascii := map ascii_of_nat (seq 0 256).
Lemma elem_of_bytes c : In c bytes.
Proof.
  apply in_map_iff. exists (nat_of_ascii c). split; [apply ascii_nat_embedding|]. apply in_seq. pose proof (nat_ascii_bounded c). lia.
Qed.
Lemma brace_ends_no_space : forallb (fun x => negb (space2 x "}") && forallb (fun y => negb (space3 x y "}")) bytes) bytes = true.
Proof. vm_compute. reflexivity. Qed.

Lemma trim_left_brace s : trim_left true (String "}" s) = String "}" s.
Proof.
  assert (forall x, space2 x "}" = false /\ forall y, space3 x y "}" = false) as Hx.
  { intros x. pose proof brace_ends_no_space as H. rewrite forallb_forall in H. specialize (H x (elem_of_bytes x)).
    apply andb_true_iff in H as [H2 H3]. split; [by apply negb_true_iff|]. intros y. rewrite forallb_forall in H3.
    by apply negb_true_iff, H3, elem_of_bytes. }
  cbn [trim_left]. change (space1 "}") with false. destruct s as [|b [|c s]]; cbn iota; [done|..].
  - by rewrite (proj1 (Hx b)).
  - by rewrite (proj1 (Hx b)), (proj2 (Hx c)).
Qed.

Lemma trim_left_dollar s : trim_left false (String "$" s) = String "$" s.
Proof.
  cbn [trim_left]. change (space1 "$") with false. destruct s as [|b [|c s]]; cbn iota; [done|..];
    change (space2 "$" b) with false; by change (space3 "$" b) with (fun _ : ascii => false).
Qed.

Lemma trim_space_ref s : trim_space ("$" +:+ s +:+ "}") = "$" +:+ s +:+ "}".
Proof.
  unfold trim_space. change ("$" +:+ s +:+ "}") with (String "$" ("" +:+ s +:+ "}")). rewrite trim_left_dollar.
  change (String "$" ("" +:+ s +:+ "}")) with ("$" +:+ s +:+ "}"). rewrite app_assoc_str, rev_str_app.
  change (rev_str "}") with "}". change ("}" +:+ rev_str ("$" +:+ s)) with (String "}" ("" +:+ rev_str ("$" +:+ s))).
  rewrite trim_left_brace. change (String "}" ("" +:+ rev_str ("$" +:+ s))) with ("}" +:+ rev_str ("$" +:+ s)).
  rewrite rev_str_app, rev_str_involutive. done.
Qed.

Lemma strip_prefix_app p t : strip_prefix p (p +:+ t) = Some t.
Proof. by apply strip_prefix_spec. Qed.

Lemma ref_name_spec name : re_match nameRe name = true -> ref_name (name +:+ " }}") = Some name.
Proof.
  intros [Hb Hne]%nameRe_bytes. unfold ref_name. change (name +:+ " }}") with (name +:+ String " " "}}").
  rewrite (span_stop name_byte name " " "}}" Hb) by reflexivity. rewrite (proj2 (String.eqb_neq _ _) Hne). reflexivity.
Qed.

Lemma skip_one c t : re_space c = false -> skip re_space (" " +:+ String c t) = String c t.
Proof. intros Hc. change (" " +:+ String c t) with (String " " (String c t)). cbn [skip]. change (re_space " ") with true. cbn iota. by rewrite Hc. Qed.

Lemma parse_dest_ref_spec d : re_match nameRe (d_Name d) = true ->
  parse_dest_ref (dest_ref d) = Some (match d_OrgID d with Some _ => true | None => false end, d_Name d).
Proof.
  intros Hn. pose proof (ref_name_spec _ Hn) as Hr. unfold parse_dest_ref, dest_ref.
  change "${{ " with ("${{" +:+ " "). rewrite <-app_assoc_str, strip_prefix_app. destruct (d_OrgID d) as [o|].
  - change ("org.backups." +:+ d_Name d +:+ " }}") with (String "o" ("rg.backups." +:+ d_Name d +:+ " }}")). rewrite (skip_one "o") by reflexivity.
    change (String "o" ("rg.backups." +:+ d_Name d +:+ " }}")) with ("org.backups." +:+ d_Name d +:+ " }}"). by rewrite strip_prefix_app, Hr.
  - change ("stackr.backups." +:+ d_Name d +:+ " }}") with (String "s" ("tackr.backups." +:+ d_Name d +:+ " }}")). rewrite (skip_one "s") by reflexivity.
    change (String "s" ("tackr.backups." +:+ d_Name d +:+ " }}")) with ("stackr.backups." +:+ d_Name d +:+ " }}"). by rewrite strip_prefix_app, Hr.
Qed.

(** The reference a destination is written as resolves to that
    destination, for every org that sees it. *)
Theorem Resolve_dest_ref db org d : db_ok db -> d ∈ dests db -> visible d org = true -> Resolve db org (dest_ref d) = Ok d.
Proof.
  intros Hok Hd Hv. destruct (ok_dest _ Hok d Hd) as (_ & _ & _ & Hn). unfold Resolve.
  assert (trim_space (dest_ref d) = dest_ref d) as ->.
  { unfold dest_ref. change "${{ " with ("$" +:+ "{{ "). change " }}" with (" }" +:+ "}"). rewrite <-app_assoc_str.
    rewrite !(app_assoc_str "{{ "), !(app_assoc_str _ (d_Name d)), (app_assoc_str _ " }"). apply trim_space_ref. }
  assert (String.eqb (dest_ref d) "" = false) as -> by reflexivity. rewrite (parse_dest_ref_spec d Hn).
  assert (forall l, d ∈ l -> (forall x, x ∈ l -> x ∈ dests db /\ d_OrgID x = d_OrgID d) ->
    match find_first (fun x => (String.eqb (d_Name d) "" && String.eqb (d_Kind x) Local) ||
      (negb (String.eqb (d_Name d) "") && String.eqb (d_Name x) (d_Name d) && visible x org)) l with
    | Some x => Ok x | None => Err (Invalidf "dest" "no backup destination %q" [AStr (dest_ref d)]) end = Ok d) as Hl.
  { intros l Hin Hs. apply nameRe_bytes in Hn as [_ Hne]. rewrite (proj2 (String.eqb_neq _ _) Hne). cbn [andb negb orb].
    destruct (find_first _ l) as [x|] eqn:Ef.
    - apply find_first_Some in Ef as [Hx [En _]%andb_true_iff]. apply String.eqb_eq in En. destruct (Hs x Hx) as [Hxd Ho]. f_equal.
      apply (nodup_key dest_key (dests db)); [apply (ok_names _ Hok)|done..|]. unfold dest_key. congruence.
    - apply find_first_None in Ef. pose proof (proj1 (Forall_forall _ _) Ef d Hin) as Hf. cbn beta in Hf.
      rewrite String.eqb_refl, Hv in Hf. done. }
  apply visible_spec in Hv as Ho. destruct (d_OrgID d) as [o|] eqn:Eo.
  - assert (o = org) as -> by (destruct Ho as [[= ->]|[[=] _]]; done). apply Hl.
    + apply elem_of_filterb. split; [done|]. by apply bool_decide_eq_true_2.
    + intros x [Hx Hb]%elem_of_filterb. apply bool_decide_eq_true_1 in Hb. done.
  - apply Hl.
    + apply elem_of_filterb. split; [done|]. by apply bool_decide_eq_true_2.
    + intros x [Hx Hb]%elem_of_filterb. apply bool_decide_eq_true_1 in Hb. done.
Qed.

Lemma Resolve_dest_ref_witness :
  Resolve wsees "b" "${{ org.backups.nas }}" = Ok (wdest "2" "b" "nas") /\ Resolve wsees "b" "${{ stackr.backups.local }}" = Ok wlocal.
Proof.
  split.
  - apply (Resolve_dest_ref wsees "b" (wdest "2" "b" "nas") wsees_ok); [right; right; left|reflexivity].
  - apply (Resolve_dest_ref wsees "b" wlocal wsees_ok); [left|reflexivity].
Defined.

Lemma boot_settles_witness :
  let db := MkDb [wlocal] [] [MkRun "r" KindPanel None None "d" "manual" Running "" 0 "" 5 None None 0 0 "";
    MkRun "s" KindVolume (Some "v") None "d" "manual" Running "" 0 "" 5 None None 0 0 ""] in
  exists db1 db2, SettleRestored 9 "restored" "key" 7 db = Ok db1 /\ Interrupted 9 db1 = Ok db2 /\ map r_Status (runs db2) = [Done; Failed].
Proof.
  intros db. assert (db_ok db) as Hok.
  { apply (proj1 (step_ok _ _ (st_start "s" 5 KindVolume (Some "v") None "d" "manual" None (MkDb [wlocal] [] [MkRun "r" KindPanel None None "d" "manual" Running "" 0 "" 5 None None 0 0 ""]) db _ eq_refl)
      (proj1 (step_ok _ _ (st_start "r" 5 KindPanel None None "d" "manual" None (MkDb [wlocal] [] []) _ _ eq_refl)
        (proj1 (step_ok _ _ (st_local "d" "k" 0 "/data" (MkDb [] [] []) _ _ eq_refl) ltac:(split; cbn; try (intros ? []%elem_of_nil); constructor))))))). }
  destruct (boot_settles 9 "restored" "key" 7 db Hok) as (db1 & db2 & E1 & E2 & _ & _ & _ & _ & Er). exists db1, db2.
  split; [exact E1|split; [exact E2|]]. rewrite Er. reflexivity.
Defined.
