(* ===== verification/Outside.v ===== *)
(** * Programs over an outside

    A flow of the program is a sequence of calls on things it does not own
    (containers, volumes, stores).  Such a flow is modelled in a small error
    monad whose state is the flow's own state and the history of its outside
    calls, newest first, each with how it ended.  The outside is a value that
    answers a call given the whole history before it, so a theorem for every
    outside is about every order of answers and failures. *)
From S2P Require Import Prelude Errs.

(** An outside that ends the calls [E], and one that answers them. *)
Class Asks (W E : Type) := ask : W -> list (E * bool) -> E -> option error.
Class Answers (W E : Type) := answer : W -> list (E * bool) -> E -> bool.

Section Outside.
Context {E S : Type}.

Definition hist : Type := list (E * bool).
Record St := MkSt { state : S; past : hist }.

Definition set_state (st : St) (s : S) : St := MkSt s (past st).
Definition log_event (e : E) (ok : bool) (st : St) : St := MkSt (state st) ((e, ok) :: past st).

Definition M (A : Type) := St -> St * res A.
Definition ret {A} (a : A) : M A := fun st => (st, Ok a).
Definition fail {A} (e : error) : M A := fun st => (st, Err e).
Definition bind {A B} (m : M A) (k : A -> M B) : M B :=
  fun st => match m st with (st, Ok a) => k a st | (st, Err e) => (st, Err e) end.
(** [defer]: the change [after] makes, whatever [m] ends with. *)
Definition defer {A} (after : St -> St) (m : M A) : M A := fun st => let '(st, r) := m st in (after st, r).
(** [fmt.Errorf("...: %w", err)]. *)
Definition wrapped {A} (words : string) (m : M A) : M A :=
  fun st => match m st with (st, Err e) => (st, Err (Wrap (text words) e)) | ok => ok end.

Context {W : Type} `{Asks W E, Answers W E} (w : W).
(** An outside call, one whose error is dropped, and a question. *)
Definition call (e : E) : M unit := fun st =>
  match ask w (past st) e with
  | None => (log_event e true st, Ok tt)
  | Some err => (log_event e false st, Err err)
  end.
(** A call that answers with a value, read before it is in the history. *)
Definition reads {A} (e : E) (f : hist -> A) : M A := fun st =>
  match call e st with (st1, Ok _) => (st1, Ok (f (past st))) | (st1, Err err) => (st1, Err err) end.
Definition quiet (e : E) (st : St) : St := fst (call e st).
Definition asks (e : E) : M bool := fun st => let b := answer w (past st) e in (log_event e b st, Ok b).
End Outside.
Arguments St : clear implicits.
Arguments hist : clear implicits.
Notation "x <~ m ;; k" := (bind m (fun x => k)) (at level 60, m at next level, right associativity) : go_scope.

(** ** Inverting a run *)

Lemma bind_Ok {E S A B} (m : M (E := E) (S := S) A) (k : A -> M B) st st' b : bind m k st = (st', Ok b) ->
  exists a st1, m st = (st1, Ok a) /\ k a st1 = (st', Ok b).
Proof. unfold bind. destruct (m st) as [st1 [a|e]]; [|done]. intros Eq. by exists a, st1. Qed.

Lemma wrapped_Ok {E S A} w (m : M (E := E) (S := S) A) st st' a : wrapped w m st = (st', Ok a) -> m st = (st', Ok a).
Proof. unfold wrapped. destruct (m st) as [st1 [b|e]]; [|done]. by intros [= -> ->]. Qed.

Lemma call_Ok {E S W} `{Asks W E} (w : W) e (st st' : St E S) u : call w e st = (st', Ok u) -> st' = log_event e true st.
Proof. unfold call. destruct (ask w (past st) e); [done|]. by intros [= <- _]. Qed.

Lemma call_cases {E S W} `{Asks W E} (w : W) e (st st' : St E S) r : call w e st = (st', r) -> st' = log_event e (is_ok r) st.
Proof. unfold call. by destruct (ask w (past st) e); intros [= <- <-]. Qed.

Lemma bind_assoc {E S A B C} (m : M (E := E) (S := S) A) (k : A -> M B) (n : B -> M C) st :
  bind m (fun a => bind (k a) n) st = bind (bind m k) n st.
Proof. unfold bind. by destruct (m st) as [st1 [a|e]]. Qed.

(** ** What a run adds to the history *)

(** [h'] is [h] with events of [P] before it. *)
Definition grown {E} (P : E * bool -> Prop) (h h' : hist E) : Prop := exists l, h' = l ++ h /\ Forall P l.

Lemma grown_impl {E} (P Q : E * bool -> Prop) h h' : (forall p, P p -> Q p) -> grown P h h' -> grown Q h h'.
Proof. intros HPQ (l & -> & Hl). exists l. split; [done|]. eapply Forall_impl; [exact Hl|exact HPQ]. Qed.

Section Adds.
Context {E S : Type} (P : E * bool -> Prop).

Lemma grown_refl h : grown P h h.
Proof. exists []. split; [done|constructor]. Qed.
Lemma grown_trans h0 h1 h2 : grown P h0 h1 -> grown P h1 h2 -> grown P h0 h2.
Proof. intros (l1 & -> & H1) (l2 & -> & H2). exists (l2 ++ l1). split; [by rewrite app_assoc|by apply Forall_app]. Qed.
Lemma grown_one h x : P x -> grown P h (x :: h).
Proof. intros Hx. exists [x]. split; [done|by repeat constructor]. Qed.

(** [f] only adds events of [P]. *)
Definition adds {A} (f : St E S -> St E S * A) : Prop := forall st, grown P (past st) (past (fst (f st))).
Definition adds_fn (f : St E S -> St E S) : Prop := forall st, grown P (past st) (past (f st)).

Lemma adds_ret {A} (a : A) : adds (ret a).
Proof. intros st. apply grown_refl. Qed.
Lemma adds_fail {A} e : adds (A := res A) (fail e).
Proof. intros st. apply grown_refl. Qed.
Lemma adds_bind {A B} (m : M A) (k : A -> M B) : adds m -> (forall a, adds (k a)) -> adds (bind m k).
Proof.
  intros Hm Hk st. unfold bind. pose proof (Hm st) as H1. destruct (m st) as [st1 [a|e]]; [|exact H1].
  exact (grown_trans _ _ _ H1 (Hk a st1)).
Qed.
Lemma adds_defer {A} f (m : M A) : adds_fn f -> adds m -> adds (defer f m).
Proof. intros Hf Hm st. unfold defer. pose proof (Hm st) as H1. destruct (m st) as [st1 r]. exact (grown_trans _ _ _ H1 (Hf st1)). Qed.
Lemma adds_wrapped {A} words (m : M A) : adds m -> adds (wrapped words m).
Proof. intros Hm st. unfold wrapped. pose proof (Hm st) as H1. by destruct (m st) as [st1 [a|e]]. Qed.
Lemma adds_log e b : P (e, b) -> adds_fn (log_event e b).
Proof. intros HP st. by apply grown_one. Qed.

Context {W : Type} `{Asks W E, Answers W E} (w : W).
Lemma adds_call e : P (e, true) -> P (e, false) -> adds (call w e).
Proof. intros Ht Hf st. unfold call. destruct (ask w (past st) e); by apply grown_one. Qed.
Lemma adds_reads {A} e (g : hist E -> A) : P (e, true) -> P (e, false) -> adds (reads w e g).
Proof. intros Ht Hf st. unfold reads, call. destruct (ask w (past st) e); by apply grown_one. Qed.
Lemma adds_quiet e : P (e, true) -> P (e, false) -> adds_fn (quiet w e).
Proof. intros Ht Hf st. exact (adds_call e Ht Hf st). Qed.
Lemma adds_asks e : P (e, true) -> P (e, false) -> adds (asks w e).
Proof. intros Ht Hf st. unfold asks. cbn. apply grown_one. by destruct (answer w (past st) e). Qed.
End Adds.

(** ** What each step may add, by the history before it *)

Section Steps.
Context {E S : Type} (P : hist E -> E * bool -> Prop).

(** [h'] is [h] with events before it, each one [P] at its point. *)
Definition steps (h h' : hist E) : Prop :=
  exists l, h' = l ++ h /\ forall l2 p l1, l = l2 ++ p :: l1 -> P (l1 ++ h) p.

Lemma steps_refl h : steps h h.
Proof. exists []. split; [done|]. intros l2 p l1 El. by destruct l2. Qed.
Lemma steps_one h p : P h p -> steps h (p :: h).
Proof. intros Hp. exists [p]. split; [done|]. intros [|q l2] p' l1; [by intros [= <- <-]|]. by destruct l2. Qed.
Lemma steps_trans h0 h1 h2 : steps h0 h1 -> steps h1 h2 -> steps h0 h2.
Proof.
  intros (l & -> & Hl) (m & -> & Hm). exists (m ++ l). split; [by rewrite app_assoc|]. intros l2 p l1 E1.
  apply app_eq_app in E1 as (k & [[-> E1]|[-> E1]]).
  - destruct k as [|q k].
    + apply (Hl [] p l1). by rewrite E1.
    + injection E1 as <- ->. rewrite <-app_assoc. by apply (Hm l2 p k).
  - by apply (Hl k p l1).
Qed.

(** The last events are [P] whatever came before. *)
Lemma grown_steps (Q : E * bool -> Prop) h h' : (forall l p, Q p -> P (l ++ h) p) -> grown Q h h' -> steps h h'.
Proof.
  intros HQ (l & -> & Hl). exists l. split; [done|]. intros l2 p l1 ->. apply HQ.
  apply Forall_app in Hl as [_ Hl]. by inv Hl.
Qed.
End Steps.

Lemma steps_impl {E} (P Q : hist E -> E * bool -> Prop) h h' :
  (forall l p, P (l ++ h) p -> Q (l ++ h) p) -> steps P h h' -> steps Q h h'.
Proof. intros H (l & -> & Hl). exists l. split; [done|]. intros l2 p l1 El. by apply H, (Hl l2). Qed.

(** [h] is the end of [h']. *)
Definition later {E} (h h' : hist E) : Prop := exists l, h' = l ++ h.
Lemma later_refl {E} (h : hist E) : later h h.
Proof. by exists []. Qed.
Lemma later_cons {E} p (h h' : hist E) : later h h' -> later h (p :: h').
Proof. intros [l ->]. by exists (p :: l). Qed.
Lemma later_trans {E} (h0 h1 h2 : hist E) : later h0 h1 -> later h1 h2 -> later h0 h2.
Proof. intros [l ->] [m ->]. exists (m ++ l). by rewrite app_assoc. Qed.
Lemma later_app {E} l (h : hist E) : later h (l ++ h).
Proof. by exists l. Qed.
Lemma steps_later {E} (P : hist E -> E * bool -> Prop) h h' : steps P h h' -> later h h'.
Proof. intros (l & -> & _). apply later_app. Qed.
Lemma grown_later {E} (P : E * bool -> Prop) h h' : grown P h h' -> later h h'.
Proof. intros (l & -> & _). apply later_app. Qed.
