(* ===== verification/BackupFlow.v ===== *)
(** * Backups and restores as they run ([internal/service/internal/flow/backup/backup.go])

    The flow is a sequence of calls on the leaf, on containers, volumes and
    object stores.  What the outside does is a [World]: how each call ends,
    given every call before it, so a theorem about every world is about every
    outside that answers, fails or lies in any order.  The state is the
    tables, the claimed volumes and the history of outside calls, newest
    first; a history entry says how the call ended.  An upload and the
    archive written into it run together in the program; here the archive is
    written first. *)
From S2P Require Import Prelude GoStrings Errs Rows Backup Outside.

Record Volume := MkVolume {
  v_ID : string; v_ScopeKind : string; v_ScopeID : string; v_InstanceID : option string; v_Slug : string; v_Name : string;
  v_OrphanedAt : option Z; v_CreatedAt : Z; v_NodeID : string }.
(** Tiles are only handed on; they are named by their id. *)
Definition Tile := string.

Record Subject := MkSubject {
  sj_Volume : Volume; sj_Holders : list Tile; sj_Engine : Tile; sj_Dump : list string; sj_Load : list string;
  sj_Consumers : list Tile; sj_Marker : string }.
Definition dumps (s : Subject) : bool := negb (Nat.eqb (length (sj_Dump s)) 0).

Record Spec := MkSpec {
  sp_Dest : BackupDest; sp_Prefix : string; sp_ScheduleID : option string; sp_Trigger : string; sp_Mode : string;
  sp_Keep : Z; sp_Held : bool; sp_GroupID : string }.

(** ** The outside *)

Inductive event :=
| EQuiesce (ts : list Tile) | EResume (ts : list Tile) | EFreeze (ts : list Tile) | EThaw (ts : list Tile)
| ETool (v : Volume) | ETar (v : Volume) (live : bool) | EUntar (v : Volume)
| EDump (t : Tile) | ELoad (t : Tile) | ECopy | EGzip | EWait
| EMkdir | ESpool (id : string) | EDrop (id : string) | ESeek
| EEncrypt | ESeal | EDecrypt | EVerify (tar : bool) | EFirstLine
| EPut (dest key : string) | EGet (dest key : string) | EDelete (dest key : string)
| ECluster | ESwap
| EHolds (v : Volume) | ERemove (v : Volume)
| ELock | EUnlock | ERecipient | EVacuum | EPanelTar (caddy : string)
| ERows (prefix : string) | ECreate (f : string) | ECaddy | EClose | EUnlink (f : string)
| EClosed (r : BackupRun).
Abbreviation hist := (Outside.hist event).

Record World := MkWorld {
  w_ask : hist -> event -> option error;
  w_yes : hist -> event -> bool;
  w_id : hist -> string;
  w_now : hist -> Z;
  w_civil : hist -> Civil;
  w_size : hist -> Z;
  w_free : hist -> option Z;
  w_list : hist -> string -> string -> option (list string);
  w_expired : hist -> res (list Volume);
  w_text : error -> string }.

#[export] Instance world_asks : Asks World event := w_ask.
#[export] Instance world_answers : Answers World event := w_yes.

(** The flow's own state: the tables and the claimed volumes. *)
Record Held := MkHeld { h_db : Db; h_running : list string }.
Abbreviation St := (Outside.St event Held).
Abbreviation M := (Outside.M (E := event) (S := Held)).
Definition mk_st (d : Db) (r : list string) (h : hist) : St := MkSt (MkHeld d r) h.
Definition db (st : St) : Db := h_db (state st).
Definition running (st : St) : list string := h_running (state st).
Definition set_db (st : St) (d : Db) : St := mk_st d (running st) (past st).
Definition lift {A} (f : Db -> res A) : M A := fun st => (st, f (db st)).
Definition lift_db {A} (f : Db -> res (Db * A)) : M A :=
  fun st => match f (db st) with Ok (d, a) => (set_db st d, Ok a) | Err e => (st, Err e) end.

Section Flow.
Context (W : World).

(** ** Spools, claims *)

Definition spool (id : string) : M unit := _ <~ call W EMkdir ;; call W (ESpool id).
Definition drop_spool (id : string) : St -> St := log_event (EDrop id) true.

Definition claim (id : string) (st : St) : option St :=
  if contains (running st) id then None else Some (mk_st (db st) (id :: running st) (past st)).
Definition release (id : string) (st : St) : St :=
  mk_st (db st) (List.filter (fun x => negb (String.eqb x id)) (running st)) (past st).
Definition claimed {A} (id slug : string) (m : M A) : M A := fun st =>
  match claim id st with
  | None => (st, Err (Conflictf "a backup or restore of %s is already running" [AStr slug]))
  | Some st => defer (release id) m st
  end.

(** ** Writing an archive *)

Definition checkSpace (v : Volume) : M unit := fun st =>
  let size := w_size W (past st) in
  if size <=? 0 then (st, Ok tt)
  else match call W EMkdir st with
    | (st, Err e) => (st, Err e)
    | (st, Ok _) =>
        match w_free W (past st) with
        | None => (st, Ok tt)
        | Some free =>
            if (0 <? free) && (free <? size) then
              (st, Err (Errorf (Sprintf "not enough scratch space: %d bytes free, the volume holds %d" [AInt free; AInt size])))
            else (st, Ok tt)
        end
    end.

(** The dump, copied and reaped: [wait] runs on every path. *)
Definition dump (s : Subject) : M unit :=
  _ <~ call W (EDump (sj_Engine s)) ;;
  fun st => match call W ECopy st with
    | (st, Err e) => (quiet W EWait st, Err e)
    | (st, Ok _) => match call W EGzip st with
        | (st, Err e) => (quiet W EWait st, Err e)
        | (st, Ok _) => call W EWait st
        end
    end.

Definition resume (ts : list Tile) : St -> St := log_event (EResume ts) true.
Definition stopping {A} (ts : list Tile) (m : M A) : M A := _ <~ call W (EQuiesce ts) ;; defer (resume ts) m.
Definition thaw (ts : list Tile) : St -> St := log_event (EThaw ts) true.

(** [tar]: freeze the holders by mode, then tar the volume. *)
Definition tar (s : Subject) (mode : string) (held : bool) : M unit :=
  _ <~ call W (ETool (sj_Volume s)) ;;
  let copy := call W (ETar (sj_Volume s) (String.eqb mode Live)) in
  if held then copy
  else if String.eqb mode Live then copy
  else if String.eqb mode Stop then stopping (sj_Holders s) copy
  else _ <~ call W (EFreeze (sj_Holders s)) ;; defer (thaw (sj_Holders s)) copy.

Definition produce (s : Subject) (sp : Spec) : M unit :=
  _ <~ call W EEncrypt ;;
  _ <~ (if dumps s then dump s else tar s (sp_Mode sp) (sp_Held sp)) ;;
  call W ESeal.

Definition put (d : BackupDest) (key : string) : M unit := wrapped "upload: %w" (call W (EPut (d_ID d) key)).
Definition counted : M Z := fun st => (st, Ok (w_size W (past st))).

(** [stream]: a produce that fails stops the upload. *)
Definition stream (d : BackupDest) (key : string) (p : M unit) : M Z := _ <~ p ;; n <~ counted ;; _ <~ put d key ;; ret n.

Definition upload_spooled (s : Subject) (sp : Spec) (key : string) : M Z :=
  let id := or_str (v_ID (sj_Volume s)) "group" in
  _ <~ spool id ;;
  defer (drop_spool id)
    (_ <~ produce s sp ;; _ <~ call W ESeek ;; n <~ counted ;; _ <~ call W ESeek ;; _ <~ put (sp_Dest sp) key ;; ret n).

(** The key, the size and the error of [write]. *)
Definition write (s : Subject) (sp : Spec) : St -> St * (string * Z * option error) := fun st =>
  let name := if String.eqb (sp_GroupID sp) "" then v_Slug (sj_Volume s) else v_Name (sj_Volume s) in
  let live := dumps s || String.eqb (sp_Mode sp) Live in
  let ext := if dumps s then ".sql.gz.age" else ".tar.gz.age" in
  match (if live then ret tt else checkSpace (sj_Volume s)) st with
  | (st, Err e) => (st, ("", 0, Some e))
  | (st, Ok _) =>
      let key := ObjectKey (sp_Prefix sp) (name +:+ ext) (w_civil W (past st)) in
      if live then
        match stream (sp_Dest sp) key (produce s sp) st with
        | (st, Ok n) => (st, (key, n, None))
        | (st, Err e) => (st, (key, 0, Some e))
        end
      else
        match upload_spooled s sp key st with
        | (st, Ok n) => (st, (key, n, None))
        | (st, Err e) => (st, ("", 0, Some e))
        end
  end.

(** ** One backup *)

(** Does the database answer for the rows under a prefix. *)
Definition rows_read (h : hist) (prefix : string) : bool := match w_ask W h (ERows prefix) with None => true | Some _ => false end.
(** [open(d)] to list and delete: the world's answers for that store. *)
Definition open (d : BackupDest) : Objects hist := {|
  o_list := fun h p => w_list W h (d_ID d) p;
  o_rows := rows_read;
  o_delete := fun h k =>
    let e := EDelete (d_ID d) k in
    match w_ask W h e with None => ((e, true) :: h, true) | Some _ => ((e, false) :: h, false) end |}.

Definition prune (d : BackupDest) (prefix : string) (keep : Z) (protect : list string) (st : St) : St :=
  let '(h, d', _) := Prune (H := open d) (past st) (db st) prefix keep protect in mk_st d' (running st) h.

(** When the panel was last restored ([PruneHold]; [None]: never). *)
Context (hold : option Z).

Definition pruneHeld (h : hist) (d : Db) (prefix runID : string) : bool :=
  match hold with None => false | Some since => FirstSince (rows_read h (prefix +:+ "/")) d prefix since runID end.

Definition opt_list {A} (o : option A) : list A := match o with Some a => [a] | None => [] end.

(** [Finish], and the run as it was closed, in the history. *)
Definition finish (r : BackupRun) (key : string) (size : Z) (err : option error) : M BackupRun := fun st =>
  match Finish (w_now W (past st)) r key size (w_text W <$> err) (db st) with
  | Ok (d, r) => (log_event (EClosed r) true (set_db st d), Ok r)
  | Err e => (st, Err e)
  end.

Definition nonempty (s : string) : option string := if String.eqb s "" then None else Some s.

Definition backup (s : Subject) (sp : Spec) : M BackupRun := fun st =>
  match lift_db (StartIn (w_id W (past st)) (w_now W (past st)) KindVolume (nonempty (v_ID (sj_Volume s))) (sp_ScheduleID sp)
      (d_ID (sp_Dest sp)) (sp_Trigger sp) (nonempty (sp_GroupID sp))) st with
  | (st, Err e) => (st, Err e)
  | (st, Ok r) =>
      let '(st, (key, size, err)) := write s sp st in
      let '(st, ferr) := match finish r key size err st with (st, Ok _) => (st, None) | (st, Err e) => (st, Some e) end in
      match errors_join (opt_list err ++ opt_list ferr) with
      | Some e => (st, Err e)
      | None =>
          let st :=
            if String.eqb (sp_Trigger sp) PreRestore then st
            else if pruneHeld (past st) (db st) (sp_Prefix sp) (r_ID r) then st
            else prune (sp_Dest sp) (sp_Prefix sp) (sp_Keep sp) [] st in
          (st, GetRun (db st) (r_ID r))
      end
  end.

Definition Backup (s : Subject) (sp : Spec) : M BackupRun :=
  claimed (or_str (v_ID (sj_Volume s)) (v_Name (sj_Volume s))) (v_Slug (sj_Volume s)) (backup s sp).

(** ** Restore *)

Record Restore_in := MkRestore {
  in_RunID : string; in_SourceVolumeID : string; in_Target : Subject; in_Pre : Spec; in_Cluster : bool; in_Swap : bool }.

Definition scratchReserve : Z := 2 * 2 ^ 30.
Definition scratchRoom (h : hist) : Z :=
  match w_free W h with None => 2 ^ 63 - 1 - 1 | Some free => Z.max (free - scratchReserve) 0 end.

Definition spool_id (id : string) : string := id +:+ "-restore".
(** [fetch]: the decrypted archive, in a spool the caller drops. *)
Definition fetch (d : BackupDest) (key id : string) : M unit :=
  _ <~ call W (EGet (d_ID d) key) ;;
  _ <~ wrapped "decrypt: %w" (call W EDecrypt) ;;
  _ <~ spool (spool_id id) ;;
  fun st =>
    let room := scratchRoom (past st) in
    match wrapped "download: %w" (call W ECopy) st with
    | (st, Err e) => (drop_spool (spool_id id) st, Err e)
    | (st, Ok _) =>
        if room <? w_size W (past st) then
          (drop_spool (spool_id id) st,
           Err (Errorf (Sprintf "download: the archive is larger than the %d bytes the scratch space can spare" [AInt room])))
        else (st, Ok tt)
    end.

(** [load]: the dump into the engine, its consumers stopped. *)
Definition load (t : Subject) : M unit :=
  _ <~ call W EGzip ;;
  let body := _ <~ call W (ELoad (sj_Engine t)) ;; call W EWait in
  match sj_Consumers t with [] => body | ts => stopping ts body end.

Definition is_dump (r : BackupRun) : bool := has_suffix (r_ObjectKey r) ".sql.gz.age".

(** A whole-instance dump is vetted first. *)
Definition vet (i : Restore_in) : M unit :=
  if dumps (in_Target i) && negb (String.eqb (sj_Marker (in_Target i)) "") && in_Cluster i then
    _ <~ wrapped "archive check (nothing was touched): %w" (_ <~ call W ESeek ;; _ <~ call W EGzip ;; call W ECopy) ;;
    whole <~ asks W EFirstLine ;;
    if whole then call W ECluster else ret tt
  else ret tt.

Definition pre_spec (p : Spec) : Spec :=
  MkSpec (sp_Dest p) (sp_Prefix p) None PreRestore (sp_Mode p) (sp_Keep p) (sp_Held p) (sp_GroupID p).

(** The point of no return and what follows it. *)
Definition wipe (i : Restore_in) : M unit :=
  let t := in_Target i in
  _ <~ call W ESeek ;;
  _ <~ (if in_Swap i then call W ESwap else ret tt) ;;
  if dumps t then wrapped "%w (the instance may be half restored)" (load t)
  else stopping (sj_Holders t) (call W (EUntar (sj_Volume t))).

(** Pruning waits for a good restore. *)
Definition then_prune (p : Spec) (m : M unit) : M unit := fun st =>
  match m st with
  | (st, Ok _) => (if 0 <? sp_Keep p then prune (sp_Dest p) (sp_Prefix p) (sp_Keep p) [] st else st, Ok tt)
  | err => err
  end.

Definition restore_fetched (i : Restore_in) : M unit :=
  let t := in_Target i in
  _ <~ wrapped "archive check (nothing was touched): %w" (call W (EVerify (negb (dumps t)))) ;;
  _ <~ vet i ;;
  _ <~ wrapped "pre-restore backup (nothing was touched): %w" (backup t (pre_spec (in_Pre i))) ;;
  then_prune (pre_spec (in_Pre i)) (wipe i).

Definition Restore (i : Restore_in) : M unit :=
  let t := in_Target i in
  claimed (v_ID (sj_Volume t)) (v_Slug (sj_Volume t))
    (r <~ lift (fun d => Restorable d (in_RunID i) (in_SourceVolumeID i)) ;;
     if negb (Bool.eqb (is_dump r) (dumps t)) then
       fail (Refusedf "that backup is not the same kind as %s" [AStr (v_Slug (sj_Volume t))])
     else
       dest <~ lift (fun d => Get d (r_DestID r)) ;;
       _ <~ fetch dest (r_ObjectKey r) (v_ID (sj_Volume t)) ;;
       defer (drop_spool (spool_id (v_ID (sj_Volume t)))) (restore_fetched i)).

(** ** Orphans *)

(** A volume's rows go with it: its schedules do, its runs name it no more. *)
Definition drop_volume (id : string) (d : Db) : Db :=
  let gone := map s_ID (List.filter (fun b => String.eqb (s_VolumeID b) id) (schedules d)) in
  MkDb (dests d) (List.filter (fun b => negb (String.eqb (s_VolumeID b) id)) (schedules d))
    (map (fun r => MkRun (r_ID r) (r_Kind r) (if bool_decide (r_VolumeID r = Some id) then None else r_VolumeID r)
        (match r_ScheduleID r with Some s => if contains gone s then None else Some s | None => None end)
        (r_DestID r) (r_Trigger r) (r_Status r) (r_ObjectKey r) (r_SizeBytes r) (r_Error r) (r_CreatedAt r) (r_FinishedAt r)
        (r_GroupID r) (r_RecoveryGen r) (r_MasterGen r) (r_Dest r)) (runs d)).

Definition runs_of (d : Db) (volumeID : string) : list BackupRun :=
  match Runs d volumeID with
  | Ok rs => rs
  | Err _ => sort newer (List.filter (fun r => bool_decide (r_VolumeID r = Some volumeID)) (Backup.runs d))
  end.

Definition offBox (d : Db) (v : Volume) : option BackupDest :=
  match find_first (fun r => String.eqb (r_Trigger r) "schedule" && String.eqb (r_Status r) Done) (runs_of d (v_ID v)) with
  | None => None
  | Some r => match Get d (r_DestID r) with Ok x => if String.eqb (d_Kind x) Local then None else Some x | Err _ => None end
  end.

Definition orphan_spec (d : BackupDest) (v : Volume) : Spec := MkSpec d (OrphanPrefix (v_ID v)) None "orphan" Live 1 false "".
Definition orphan_subject (v : Volume) : Subject := MkSubject v [] "" [] [] [] "".

(** The destinations in turn, until one takes the backup. *)
Fixpoint try_dests (v : Volume) (ds : list BackupDest) (last : option error) : St -> St * option error := fun st =>
  match ds with
  | [] => (st, last)
  | d :: ds =>
      match Backup (orphan_subject v) (orphan_spec d v) st with
      | (st, Ok _) => (st, None)
      | (st, Err e) => try_dests v ds (Some e) st
      end
  end.

Definition delete_volume (v : Volume) : M unit := fun st =>
  match call W (ERemove v) st with
  | (st, Ok _) => (set_db st (drop_volume (v_ID v) (db st)), Ok tt)
  | err => err
  end.

Definition failed_volume (v : Volume) (e : error) : error := Wrap (Sprintf "%s: %w" [AStr (v_Slug v)]) e.
Definition orphan (dest : BackupDest) (v : Volume) : St -> St * option error := fun st =>
  let '(st, kept) := match asks W (EHolds v) st with
    | (st, Ok true) =>
        try_dests v (match offBox (db st) v with Some off => [off; dest] | None => [dest] end) None st
    | (st, _) => (st, None)
    end in
  match kept with
  | Some e => (st, Some (failed_volume v e))
  | None => match delete_volume v st with (st, Ok _) => (st, None) | (st, Err e) => (st, Some (failed_volume v e)) end
  end.

Fixpoint orphans (dest : BackupDest) (vs : list Volume) (st : St) : St * list error :=
  match vs with
  | [] => (st, [])
  | v :: vs =>
      let '(st, e) := orphan dest v st in
      let '(st, es) := orphans dest vs st in (st, opt_list e ++ es)
  end.

Definition Orphans (dest : BackupDest) : M unit := fun st =>
  match w_expired W (past st) with
  | Err e => (st, Err e)
  | Ok vs => let '(st, es) := orphans dest vs st in (st, match errors_join es with Some e => Err e | None => Ok tt end)
  end.

(** ** The panel *)

Record Panel := MkPanel {
  p_Trigger : string; p_MasterKey : string; p_RecoveryPub : string; p_RecoveryGen : Z; p_MasterGen : Z; p_InstallID : string;
  p_Caddy : bool; p_Lock : bool }.
Definition trigger (p : Panel) : string := or_str (p_Trigger p) "manual".

(** The scratch files of the panel's archive: the copy of the database that
    [VACUUM INTO] writes, and the proxy volume's tar. *)
Definition db_file : string := "panel.db".
Definition caddy_file : string := "caddy.tar.gz".
Definition unlink (f : string) : St -> St := log_event (EUnlink f) true.
(** The proxy's tar, or no path where there is none or it cannot be read. *)
Definition panelCaddy (p : Panel) : St -> St * string := fun st =>
  if p_Caddy p then
    let '(st, err) := match call W (ECreate caddy_file) st with
      | (st, Err e) => (st, Some e)
      | (st, Ok _) =>
          let '(st, r) := call W ECaddy st in
          let '(st, c) := call W EClose st in
          (st, match r, c with Err e, _ => Some e | Ok _, Err e => Some e | Ok _, Ok _ => None end)
      end in
    match err with Some _ => (unlink caddy_file st, "") | None => (st, caddy_file) end
  else (st, "").
Definition unlink_caddy (caddy : string) : St -> St := if String.eqb caddy "" then fun st => st else unlink caddy.
(** [panelArchive]: one moment of the panel, under its lock. *)
Definition panelArchive (p : Panel) : M unit :=
  let body := defer (unlink db_file)
    (_ <~ wrapped "vacuum into: %w" (call W EVacuum) ;;
     fun st => let '(st, caddy) := panelCaddy p st in
       defer (unlink_caddy caddy) (_ <~ call W EEncrypt ;; _ <~ call W (EPanelTar caddy) ;; call W ESeal) st) in
  if p_Lock p then fun st => defer (log_event EUnlock true) body (log_event ELock true st) else body.

Definition writePanel (p : Panel) (dest : BackupDest) : St -> St * (string * Z * option error) := fun st =>
  if String.eqb (p_MasterKey p) "" then
    (st, ("", 0, Some (New "the master key is not loaded; refusing a panel backup that cannot be restored")))
  else if String.eqb (p_RecoveryPub p) "" then (st, ("", 0, Some (New "no recovery key is set")))
  else
    match (_ <~ wrapped "recovery key: %w" (call W ERecipient) ;; _ <~ call W EMkdir ;; spool "panel") st with
    | (st, Err e) => (st, ("", 0, Some e))
    | (st, Ok _) =>
        match (_ <~ panelArchive p ;; n <~ counted ;; _ <~ call W ESeek ;; ret n) st with
        | (st, Err e) => (drop_spool "panel" st, ("", 0, Some e))
        | (st, Ok n) =>
            let key := ObjectKey (PanelPrefix (p_InstallID p) (trigger p))
              ("panel-g" +:+ itoa (p_RecoveryGen p) +:+ ".tar.gz.age") (w_civil W (past st)) in
            match call W (EPut (d_ID dest) key) st with
            | (st, Ok _) => (drop_spool "panel" st, (key, n, None))
            | (st, Err e) => (drop_spool "panel" st, (key, n, Some e))
            end
        end
    end.

Definition PanelBackup (p : Panel) (dest : BackupDest) (keep : Z) : M BackupRun := fun st =>
  match lift_db (Start (w_id W (past st)) (w_now W (past st)) KindPanel None None (d_ID dest) (trigger p)) st with
  | (st, Err e) => (st, Err e)
  | (st, Ok r) =>
      let '(st, (key, size, err)) := writePanel p dest st in
      let r := MkRun (r_ID r) (r_Kind r) (r_VolumeID r) (r_ScheduleID r) (r_DestID r) (r_Trigger r) (r_Status r) (r_ObjectKey r)
        (r_SizeBytes r) (r_Error r) (r_CreatedAt r) (r_FinishedAt r) (r_GroupID r) (p_RecoveryGen p) (p_MasterGen p) (r_Dest r) in
      let '(st, ferr) := match finish r key size err st with (st, Ok _) => (st, None) | (st, Err e) => (st, Some e) end in
      match errors_join (opt_list err ++ opt_list ferr) with
      | Some e => (st, Err e)
      | None =>
          let st := prune dest (PanelPrefix (p_InstallID p) (trigger p)) keep [key] st in
          (st, GetRun (db st) (r_ID r))
      end
  end.
End Flow.
