(* ===== verification/Volumes.v ===== *)
(** * Volumes ([leaf/volume/volume.go], [store/volumes.go])

    The rows of volumes and the calls on their Docker volumes.  A row is given
    to a call as its caller just read it; the daemon of a node answers each
    call as it likes. *)
From S2P Require Import Prelude GoStrings Errs Regexp Slug Store Rows Backup Outside BackupFlow.

#[export] Instance volume_id : HasId Volume := v_ID.
Record VScope := MkVScope { vs_Kind : string; vs_ID : string }.

(** ** The table *)

Definition vkey (v : Volume) : string * string * string := (v_ScopeKind v, v_ScopeID v, v_Slug v).
(** [UNIQUE (scope_kind, scope_id, slug)]. *)
Definition taken_by_other (v : Volume) (t : list Volume) : bool :=
  existsb (fun x => negb (String.eqb (v_ID x) (v_ID v)) && bool_decide (vkey x = vkey v)) t.
Definition v_create (v : Volume) (t : list Volume) : res (list Volume) := if taken_by_other v t then Err already_exists else r_create v t.
Definition v_update (v : Volume) (t : list Volume) : res (list Volume) := if taken_by_other v t then Err already_exists else r_update v t.
Definition ListByScope (t : list Volume) (s : VScope) : list Volume :=
  List.filter (fun v => String.eqb (v_ScopeKind v) (vs_Kind s) && String.eqb (v_ScopeID v) (vs_ID s)) t.
Definition is_orphan (v : Volume) : bool := match v_OrphanedAt v with Some _ => true | None => false end.
Definition ListOrphaned (t : list Volume) : list Volume := List.filter is_orphan t.

(** ** The rows *)

Definition BySlug (t : list Volume) (s : VScope) (sl : string) : res Volume :=
  match find_first (fun v => String.eqb (v_Slug v) sl) (ListByScope t s) with Some v => Ok v | None => Err ErrNotFound end.
Definition MaxName : Z := 40.
Definition CheckName (sl : string) : option error :=
  if String.eqb sl "" then Some (Invalidf "volume" "Enter a name." [])
  else if MaxName <? slen sl then Some (Invalidf "volume" "Keep the name to %d characters or fewer." [AInt MaxName])
  else if negb (Valid sl) then Some (Invalidf "volume" "Use lower-case letters, digits and single hyphens." [])
  else None.
Definition with_owner (v : Volume) (orphaned : option Z) (instance : option string) : Volume :=
  MkVolume (v_ID v) (v_ScopeKind v) (v_ScopeID v) instance (v_Slug v) (v_Name v) orphaned (v_CreatedAt v) (v_NodeID v).
Definition new_volume (id : string) (now : Z) (s : VScope) (sl : string) (instanceID : option string) : Volume :=
  MkVolume id (vs_Kind s) (vs_ID s) instanceID sl ("stackr-vol-" +:+ id) None now "".
(** The row, whether it was adopted, and whether [Created] is called. *)
Definition Declare_ (id : string) (now : Z) (s : VScope) (sl : string) (instanceID : option string) (t : list Volume) : res (Volume * bool * bool * list Volume) :=
  match CheckName sl with
  | Some e => Err e
  | None =>
      match BySlug t s sl with
      | Err e =>
          if is_not_found e then let v := new_volume id now s sl instanceID in t <-? v_create v t ;; Ok (v, false, true, t) else Err e
      | Ok v => let v' := with_owner v None instanceID in t <-? v_update v' t ;; Ok (v', is_orphan v, false, t)
      end
  end.
Definition Orphan (now : Z) (v : Volume) (t : list Volume) : res (Volume * list Volume) :=
  if is_orphan v then Ok (v, t) else let v := with_owner v (Some now) (v_InstanceID v) in t <-? v_update v t ;; Ok (v, t).
Definition Expired (t : list Volume) (retention now : Z) : list Volume :=
  List.filter (fun v => match v_OrphanedAt v with Some o => o + retention <? now | None => false end) (ListOrphaned t).
Definition detached (mountedBy : list string) : option error :=
  match mountedBy with [] => None | _ => Some (Conflictf "detach the volume from %s before deleting it" [AStr (join ", " mountedBy)]) end.
Definition Retire (now : Z) (v : Volume) (mountedBy : list string) (t : list Volume) : res (list Volume) :=
  match detached mountedBy with Some e => Err e | None => r <-? Orphan now v t ;; Ok r.2 end.
Definition DeleteRow (v : Volume) (mountedBy : list string) (t : list Volume) : res (list Volume) :=
  match detached mountedBy with Some e => Err e | None => r_delete (v_ID v) t end.

(** ** The Docker volumes *)

Definition docker_gone : error := New "docker.ErrNotFound".
(** The daemon of a node: a volume's size, its volumes with theirs, and how a
    create and a removal end. *)
Record Volumes := MkVolumes {
  inspect : string -> string -> res Z; volumes_of : string -> res (list (string * Z));
  made : string -> string -> option error; dropped : string -> string -> option error }.

Section Daemon.
Context (D : Volumes).
(** Where a scope's volumes live ([""] the controller), and the node the
    caller's context names. *)
Context (Node : option (string -> string -> res string)) (here : string).
Definition at_ (v : Volume) : res string :=
  if negb (String.eqb (v_NodeID v) "") then Ok (v_NodeID v)
  else match Node with None => Ok here | Some f => f (v_ScopeKind v) (v_ScopeID v) end.
(** The create it asks for: node and name. *)
Definition Ensure (v : Volume) : list (string * string) * (string * option error) :=
  match at_ v with
  | Err e => ([], (v_Name v, Some e))
  | Ok n => ([(n, v_Name v)], (v_Name v, made D n (v_Name v)))
  end.
Definition HoldsData (v : Volume) : bool :=
  match at_ v with
  | Err _ => true
  | Ok n => match inspect D n (v_Name v) with
            | Err e => negb (is_sentinel "docker.ErrNotFound" e)
            | Ok size => negb (size =? 0)
            end
  end.
(** The removal it asks for, and the table after. *)
Definition Delete (v : Volume) (mountedBy : list string) (t : list Volume) : list (string * string) * res (list Volume) :=
  match detached mountedBy with
  | Some e => ([], Err e)
  | None =>
      match at_ v with
      | Err e => ([], Err e)
      | Ok n => ([(n, v_Name v)], match dropped D n (v_Name v) with Some e => Err e | None => r_delete (v_ID v) t end)
      end
  end.
Definition SizeBytes (v : Volume) : Z :=
  match at_ v with Err _ => -1 | Ok n => match inspect D n (v_Name v) with Err _ => -1 | Ok size => size end end.
Definition Sizes (vs : list Volume) : gmap string Z :=
  let out := fold_left (fun out v => <[v_ID v := -1]> out) vs ∅ in
  match vs with
  | [] => out
  | v :: _ =>
      match (n <-? at_ v ;; volumes_of D n) with
      | Err _ => out
      | Ok infos => fold_left (fun out v => match find_first (fun x => String.eqb x.1 (v_Name v)) infos with Some x => <[v_ID v := x.2]> out | None => out end) vs out
      end
  end.
End Daemon.

(** ** Histories *)

Inductive vop :=
  | VDeclare (id : string) (now : Z) (s : VScope) (sl : string) (instanceID : option string)
  | VOrphan (now : Z) (id : string)
  | VRetire (now : Z) (id : string) (mountedBy : list string)
  | VDelete (id : string) (mountedBy : list string)
  | VDeleteRow (id : string) (mountedBy : list string).
Section History.
Context (D : Volumes) (Node : option (string -> string -> res string)) (here : string).
(** One call: the Docker removals it asks for, and the table after; a call that
    fails changes no row. *)
Definition on_row (id : string) (t : list Volume) (f : Volume -> list (string * string) * res (list Volume)) : list (string * string) * list Volume :=
  match r_get t id with
  | Err _ => ([], t)
  | Ok v => match f v with (asked, Ok t') => (asked, t') | (asked, Err _) => (asked, t) end
  end.
Definition vstep (o : vop) (t : list Volume) : list (string * string) * list Volume :=
  match o with
  | VDeclare id now s sl inst => ([], match Declare_ id now s sl inst t with Ok r => r.2 | Err _ => t end)
  | VOrphan now id => on_row id t (fun v => ([], r <-? Orphan now v t ;; Ok r.2))
  | VRetire now id mb => on_row id t (fun v => ([], Retire now v mb t))
  | VDelete id mb => on_row id t (fun v => Delete D Node here v mb t)
  | VDeleteRow id mb => on_row id t (fun v => ([], DeleteRow v mb t))
  end.
Fixpoint vrun (os : list vop) (t : list Volume) : list (vop * (string * string)) * list Volume :=
  match os with
  | [] => ([], t)
  | o :: os => let '(asked, t) := vstep o t in let '(more, t) := vrun os t in (map (fun p => (o, p)) asked ++ more, t)
  end.

Record volumes_ok (t : list Volume) : Prop := {
  vo_rows : rows_ok t; vo_keys : NoDup (map vkey t); vo_names : Forall (fun v => v_Name v = "stackr-vol-" +:+ v_ID v) t }.
(** The same volume: its row may be flagged, owned or adopted. *)
Definition same_volume (v v' : Volume) : Prop := v_ID v' = v_ID v /\ vkey v' = vkey v /\ v_Name v' = v_Name v /\ v_NodeID v' = v_NodeID v /\ v_CreatedAt v' = v_CreatedAt v.
Definition deletes (id : string) (o : vop) : bool :=
  match o with VDelete i [] | VDeleteRow i [] => String.eqb i id | _ => false end.

Lemma v_create_ok v t t' : volumes_ok t -> v_Name v = "stackr-vol-" +:+ v_ID v -> v_create v t = Ok t' -> volumes_ok t' /\ (forall x, x ∈ t -> x ∈ t').
Proof.
  intros [Hr Hk Hn] Hname. unfold v_create. destruct (taken_by_other v t) eqn:E; [done|]. intros Ec. pose proof (r_create_rows _ _ _ Ec Hr) as Hr'.
  apply r_create_ok in Ec as [-> Hid]. split; [|intros x Hx; apply elem_of_app; by left]. constructor; [done| |by apply Forall_app_2; [|by constructor]].
  rewrite map_app. apply NoDup_app. split_and!; [done| |apply NoDup_singleton]. intros k Hx ->%list_elem_of_singleton. apply list_elem_of_fmap in Hx as (x & Ek & Hx).
  apply not_true_iff_false in E. apply E, existsb_exists. exists x. split; [by apply list_elem_of_In|].
  rewrite (bool_decide_eq_true_2 _ (eq_sym Ek)), andb_true_r. apply negb_true_iff, String.eqb_neq. intros Ei. apply Hid. apply list_elem_of_fmap. by exists x.
Qed.
Lemma v_update_ok v v' t t' : volumes_ok t -> v ∈ t -> same_volume v v' -> v_update v' t = Ok t' -> volumes_ok t' /\
  (forall x, x ∈ t -> exists x', x' ∈ t' /\ same_volume x x' /\ (x = v \/ x' = x)) /\ v' ∈ t'.
Proof.
  intros [Hr Hk Hn] Hv Hsame. pose proof Hsame as (Hid & Hkey & Hname & _). unfold v_update. destruct (taken_by_other v' t); [done|]. intros E.
  pose proof (r_update_ids _ _ _ E) as Hids. pose proof (r_update_rows _ _ _ E Hr) as Hr'.
  assert (forall x, x ∈ t -> v_ID x = v_ID v' -> x = v) as Huniq by (intros x Hx Ex; apply (nodup_key v_ID t); [exact Hr|done|done|congruence]).
  assert (map vkey t' = map vkey t) as Hkeys.
  { unfold r_update in E. destruct (is_ok _); [|done]. apply Ok_inj in E. subst t'. rewrite map_map. apply map_ext_in. intros x Hx%list_elem_of_In.
    destruct (String.eqb_spec (row_id x) (row_id v')) as [Ex|]; [|done]. by rewrite (Huniq x Hx Ex). }
  assert (v' ∈ t') as Hin by (apply (elem_of_r_update _ _ _ v' E); left; split; [done|]; apply list_elem_of_fmap; by exists v).
  split_and!; [|intros x Hx|done].
  - constructor; [done|by rewrite Hkeys|]. apply Forall_forall. intros x Hx. apply (elem_of_r_update _ _ _ x E) in Hx as [[-> _]|[Hx _]]; [|by apply (proj1 (Forall_forall _ _) Hn)].
    rewrite Hname, Hid. by apply (proj1 (Forall_forall _ _) Hn).
  - destruct (decide (v_ID x = v_ID v')) as [Ex|Hne].
    + exists v'. rewrite (Huniq x Hx Ex). split; [done|split; [done|by left]].
    + exists x. split; [apply (elem_of_r_update _ _ _ x E); by right|split; [by split_and!|by right]].
Qed.
Lemma v_delete_ok v t t' : volumes_ok t -> r_delete (v_ID v) t = Ok t' -> volumes_ok t' /\ forall x, x ∈ t -> v_ID x <> v_ID v -> x ∈ t'.
Proof.
  intros [Hr Hk Hn] E. pose proof (r_delete_rows _ _ _ E Hr) as Hr'. pose proof (r_delete_ok _ _ _ E) as [_ Hd]. split.
  - constructor; [done| |].
    + unfold r_delete in E. destruct (is_ok _); [|done]. apply Ok_inj in E. subst t'. by apply filter_map_nodup.
    + apply Forall_forall. intros x [Hx _]%Hd. by apply (proj1 (Forall_forall _ _) Hn).
  - intros x Hx Hne. by apply Hd.
Qed.
Lemma BySlug_ok t s sl v : BySlug t s sl = Ok v -> v ∈ t /\ vkey v = (vs_Kind s, vs_ID s, sl).
Proof.
  unfold BySlug. destruct (find_first _ _) as [x|] eqn:E; [|done]. intros <-%Ok_inj. apply find_first_Some in E as [Hx Hs%String.eqb_eq].
  unfold ListByScope in Hx. apply elem_of_filterb in Hx as [Hx [Hk%String.eqb_eq Hi%String.eqb_eq]%andb_true_iff]. split; [done|]. unfold vkey. congruence.
Qed.
Lemma BySlug_in t s sl v : volumes_ok t -> v ∈ t -> vkey v = (vs_Kind s, vs_ID s, sl) -> BySlug t s sl = Ok v.
Proof.
  intros [_ Hk _] Hv Ek. destruct (BySlug t s sl) as [x|e] eqn:E.
  - apply BySlug_ok in E as [Hx Ex]. f_equal. apply (nodup_key vkey t); [done..|congruence].
  - unfold BySlug in E. destruct (find_first _ _) eqn:Ef; [done|]. apply find_first_None in Ef. injection Ek as E1 E2 E3.
    pose proof (proj1 (Forall_forall _ _) Ef v) as Hf. cbv beta in Hf. rewrite E3, String.eqb_refl in Hf. discriminate Hf. unfold ListByScope. apply elem_of_filterb. by rewrite E1, E2, !String.eqb_refl.
Qed.
Lemma same_owner v o i : same_volume v (with_owner v o i).
Proof. by split_and!. Qed.

(** One call. *)
Definition kept_or_deleted (o : vop) (t t' : list Volume) : Prop :=
  forall x, x ∈ t -> (exists x', x' ∈ t' /\ same_volume x x') \/ deletes (v_ID x) o = true.
Definition removal_of (o : vop) (t : list Volume) (p : string * string) : Prop :=
  exists v, v ∈ t /\ o = VDelete (v_ID v) [] /\ p.2 = v_Name v /\ at_ Node here v = Ok p.1.
Definition step_ok (o : vop) (t : list Volume) : Prop :=
  volumes_ok (vstep o t).2 /\ kept_or_deleted o t (vstep o t).2 /\ Forall (removal_of o t) (vstep o t).1.
Lemma step_same o t : volumes_ok t -> vstep o t = ([], t) -> step_ok o t.
Proof. intros Ht E. unfold step_ok. rewrite E. split_and!; [done|intros x Hx; left; exists x; by split_and!|constructor]. Qed.
Lemma step_update o t t' v v' : volumes_ok t -> v ∈ t -> same_volume v v' -> v_update v' t = Ok t' -> vstep o t = ([], t') -> step_ok o t.
Proof.
  intros Ht Hv Hs Eu E. unfold step_ok. rewrite E. destruct (v_update_ok v v' t t' Ht Hv Hs Eu) as (H1 & H2 & _).
  split_and!; [done| |constructor]. intros x Hx. destruct (H2 x Hx) as (x' & ? & ? & _). left. by exists x'.
Qed.
Lemma step_delete o t t' v asked : volumes_ok t -> v ∈ t -> r_delete (v_ID v) t = Ok t' -> deletes (v_ID v) o = true -> Forall (removal_of o t) asked ->
  vstep o t = (asked, t') -> step_ok o t.
Proof.
  intros Ht Hv Ed Ho Ha E. unfold step_ok. rewrite E. destruct (v_delete_ok v t t' Ht Ed) as [H1 H2]. split_and!; [done| |done].
  intros x Hx. destruct (decide (v_ID x = v_ID v)) as [Ei|Hne]; [right; congruence|]. left. exists x. split; [by apply H2|by split_and!].
Qed.
Lemma orphan_step o now v t : volumes_ok t -> v ∈ t ->
  vstep o t = match Orphan now v t with Ok r => ([], r.2) | Err _ => ([], t) end -> step_ok o t.
Proof.
  intros Ht Hv E. unfold Orphan in E. destruct (is_orphan v); [by apply step_same|].
  destruct (v_update _ t) as [t'|] eqn:Eu; [|by apply step_same].
  by apply (step_update o t t' v (with_owner v (Some now) (v_InstanceID v)) Ht Hv (same_owner v _ _) Eu).
Qed.
Lemma detached_none mb : detached mb = None -> mb = [].
Proof. by destruct mb. Qed.
Lemma vstep_ok o t : volumes_ok t -> step_ok o t.
Proof.
  intros Ht. destruct o as [id now s sl inst|now id|now id mb|id mb|id mb]; [|destruct (r_get t id) as [v|] eqn:Eg; [apply r_get_ok in Eg as Hv|apply step_same; [done|]; unfold vstep, on_row; by rewrite Eg]..].
  - destruct (Declare_ id now s sl inst t) as [[[[v a] c] t']|] eqn:Ed; [|apply step_same; [done|]; unfold vstep; by rewrite Ed].
    assert (vstep (VDeclare id now s sl inst) t = ([], t')) as E by (unfold vstep; by rewrite Ed).
    unfold Declare_ in Ed. destruct (CheckName sl); [done|]. destruct (BySlug t s sl) as [old|e] eqn:Eb.
    + destruct (v_update _ t) as [t1|] eqn:Eu; [|done]. apply Ok_inj in Ed. injection Ed as <- _ _ ->. apply BySlug_ok in Eb as [Ho _].
      by apply (step_update _ t t' old (with_owner old None inst) Ht Ho (same_owner old _ _) Eu).
    + destruct (is_not_found e); [|done]. destruct (v_create _ t) as [t1|] eqn:Ec; [|done]. apply Ok_inj in Ed. injection Ed as _ _ _ ->.
      destruct (v_create_ok (new_volume id now s sl inst) t t' Ht eq_refl Ec) as [H1 H2]. unfold step_ok. rewrite E. split_and!; [done| |constructor]. intros x Hx. left. exists x. split; [by apply H2|by split_and!].
  - destruct Hv as [Hv _]. apply (orphan_step _ now v t Ht Hv). unfold vstep, on_row. rewrite Eg. by destruct (Orphan now v t).
  - destruct Hv as [Hv _]. destruct (detached mb) eqn:Em; [apply step_same; [done|]; unfold vstep, on_row, Retire; by rewrite Eg, Em|].
    apply (orphan_step _ now v t Ht Hv). unfold vstep, on_row, Retire. rewrite Eg, Em. by destruct (Orphan now v t).
  - destruct Hv as [Hv Hid]. change (v_ID v = id) in Hid. subst id. destruct (detached mb) eqn:Em; [apply step_same; [done|]; unfold vstep, on_row, Delete; by rewrite Eg, Em|]. apply detached_none in Em as ->.
    destruct (at_ Node here v) as [n|] eqn:Ea; [|apply step_same; [done|]; unfold vstep, on_row, Delete; cbn [detached]; by rewrite Eg, Ea].
    assert (Forall (removal_of (VDelete (v_ID v) []) t) [(n, v_Name v)]) as Hrem by (repeat constructor; by exists v).
    assert (vstep (VDelete (v_ID v) []) t = ([(n, v_Name v)], match dropped D n (v_Name v) with Some _ => t | None => match r_delete (v_ID v) t with Ok t' => t' | Err _ => t end end)) as E.
    { unfold vstep, on_row, Delete. cbn [detached]. rewrite Eg, Ea. destruct (dropped D n (v_Name v)); [done|]. by destruct (r_delete (v_ID v) t). }
    assert (step_ok (VDelete (v_ID v) []) t \/ vstep (VDelete (v_ID v) []) t = ([(n, v_Name v)], t)) as [|E'].
    { rewrite E. destruct (dropped D n (v_Name v)); [by right|]. destruct (r_delete (v_ID v) t) as [t'|] eqn:Er; [left|by right].
      exact (step_delete (VDelete (v_ID v) []) t t' v [(n, v_Name v)] Ht Hv Er (String.eqb_refl _) Hrem E). }
    + done.
    + unfold step_ok. rewrite E'. split_and!; [done| |done]. intros x Hx. left. exists x. by split_and!.
  - destruct Hv as [Hv Hid]. change (v_ID v = id) in Hid. subst id. destruct (detached mb) eqn:Em; [apply step_same; [done|]; unfold vstep, on_row, DeleteRow; by rewrite Eg, Em|]. apply detached_none in Em as ->.
    destruct (r_delete (v_ID v) t) as [t'|] eqn:Er; [|apply step_same; [done|]; unfold vstep, on_row, DeleteRow; cbn [detached]; by rewrite Eg, Er].
    apply (step_delete (VDeleteRow (v_ID v) []) t t' v [] Ht Hv Er (String.eqb_refl _)); [constructor|]. unfold vstep, on_row, DeleteRow. cbn [detached]. by rewrite Eg, Er.
Qed.

(** Adoption: what a declare makes of a slug that is there. *)
Lemma Declare_there id now s sl inst t v : volumes_ok t -> CheckName sl = None -> v ∈ t -> vkey v = (vs_Kind s, vs_ID s, sl) ->
  exists t', Declare_ id now s sl inst t = Ok (with_owner v None inst, is_orphan v, false, t') /\ with_owner v None inst ∈ t'.
Proof.
  intros Ht Hc Hv Ek. unfold Declare_. rewrite Hc, (BySlug_in t s sl v Ht Hv Ek).
  assert (exists t', v_update (with_owner v None inst) t = Ok t') as [t' Eu].
  { unfold v_update, r_update. assert (taken_by_other (with_owner v None inst) t = false) as ->.
    { apply not_true_iff_false. intros (x & Hx%list_elem_of_In & [Hne Hk%bool_decide_eq_true]%andb_true_iff)%existsb_exists. cbn in Hne.
      assert (x = v) as -> by (apply (nodup_key vkey t); [apply vo_keys, Ht|done..]). by rewrite String.eqb_refl in Hne. }
    rewrite (proj2 (r_get_is t (row_id (with_owner v None inst)))) by (apply list_elem_of_fmap; by exists v). by eexists. }
  rewrite Eu. exists t'. split; [done|]. by destruct (v_update_ok v _ t t' Ht Hv (same_owner v None inst) Eu) as (_ & _ & ?).
Qed.
End History.

(** C20. Volumes outlive everything but a delete.  Over any calls, ids, names and
    the slugs of a scope stay keys, and a row stays itself, with its id, scope,
    slug, node and Docker volume, through declares, orphaning and retiring,
    until a delete names it when no tile mounts it; only such a delete asks a
    daemon to remove a Docker volume, its own on its own node.  Declaring a slug
    that is there, an orphan or not, gives back that row with its data. *)
Theorem volumes_keep_data D Node here os t : volumes_ok t -> let '(asked, t') := vrun D Node here os t in
  volumes_ok t' /\
  (forall v, v ∈ t -> (forall o, o ∈ os -> deletes (v_ID v) o = false) ->
     exists v', v' ∈ t' /\ same_volume v v' /\
     (forall id now s sl inst, CheckName sl = None -> vkey v = (vs_Kind s, vs_ID s, sl) ->
        exists w t2, Declare_ id now s sl inst t' = Ok (w, is_orphan v', false, t2) /\ w ∈ t2 /\ same_volume v w /\ v_OrphanedAt w = None /\ v_InstanceID w = inst)) /\
  (forall o p, (o, p) ∈ asked -> exists v, o = VDelete (v_ID v) [] /\ p.2 = "stackr-vol-" +:+ v_ID v /\ at_ Node here v = Ok p.1 /\ o ∈ os).
Proof.
  assert (forall os t, volumes_ok t -> let '(asked, t') := vrun D Node here os t in volumes_ok t' /\
    (forall v, v ∈ t -> (forall o, o ∈ os -> deletes (v_ID v) o = false) -> exists v', v' ∈ t' /\ same_volume v v') /\
    (forall o p, (o, p) ∈ asked -> exists v, o = VDelete (v_ID v) [] /\ p.2 = "stackr-vol-" +:+ v_ID v /\ at_ Node here v = Ok p.1 /\ o ∈ os)) as Hrun.
  { clear. induction os as [|o os IH]; intros t Ht; cbn [vrun]; [split_and!; [done|intros v Hv _; exists v; by split_and!|by intros o p ?%elem_of_nil]|].
    pose proof (vstep_ok D Node here o t Ht) as (H1 & H2 & H3). destruct (vstep D Node here o t) as [asked t1]. cbn [fst snd] in *. specialize (IH t1 H1).
    destruct (vrun D Node here os t1) as [more t2]. destruct IH as (I1 & I2 & I3). split_and!; [done| |].
    - intros v Hv Hd. destruct (H2 v Hv) as [(v1 & Hv1 & S1)|Hx]; [|by rewrite Hd in Hx by (by left)].
      destruct (I2 v1 Hv1) as (v2 & Hv2 & S2); [intros o' Ho'; destruct S1 as [-> _]; apply Hd; by right|]. exists v2. split; [done|].
      destruct S1 as (? & ? & ? & ? & ?), S2 as (? & ? & ? & ? & ?). split_and!; congruence.
    - intros o' p [Hin|Hin]%elem_of_app.
      + apply list_elem_of_fmap in Hin as (p' & [= -> ->] & Hp'). apply (proj1 (Forall_forall _ _) H3) in Hp' as (v & Hv & -> & Hn & Ha). exists v. split_and!; [done| |done|by left].
        rewrite Hn. by apply (proj1 (Forall_forall _ _) (vo_names _ Ht)).
      + apply I3 in Hin as (v & ? & ? & ? & ?). exists v. split_and!; try done. by right. }
  intros Ht. specialize (Hrun os t Ht). destruct (vrun D Node here os t) as [asked t']. destruct Hrun as (H1 & H2 & H3). split_and!; [done| |done].
  intros v Hv Hd. destruct (H2 v Hv Hd) as (v' & Hv' & Hs). exists v'. split; [done|split; [done|]]. intros id now s sl inst Hc Ek.
  destruct Hs as (E1 & E2 & E3 & E4 & E5). destruct (Declare_there id now s sl inst t' v' H1 Hc Hv' ltac:(congruence)) as (t2 & Ed & Hw). exists (with_owner v' None inst), t2.
  split; [done|split; [done|split; [by split_and!|done]]].
Qed.
(** A volume is retired with its tile, another deleted, and the first declared
    again. *)
#[local] Abbreviation ex_v i sl := (MkVolume i "env" "e1" None sl ("stackr-vol-" +:+ i) None 1 "").
#[local] Abbreviation ex_daemon := (MkVolumes (fun _ _ => Ok 5) (fun _ => Ok []) (fun _ _ => None) (fun _ _ => None)).
#[local] Abbreviation ex_ops := [VRetire 7 "a" []; VDelete "b" ["web"]; VDelete "b" []].
Lemma volumes_keep_data_witness : let '(asked, t') := vrun ex_daemon None "n1" ex_ops [ex_v "a" "data"; ex_v "b" "tmp"] in
  asked = [(VDelete "b" [], ("n1", "stackr-vol-b"))] /\ t' = [with_owner (ex_v "a" "data") (Some 7) None] /\
  exists w t2, Declare_ "c" 9 (MkVScope "env" "e1") "data" None t' = Ok (w, true, false, t2) /\ v_Name w = "stackr-vol-a".
Proof.
  assert (volumes_ok [ex_v "a" "data"; ex_v "b" "tmp"]) as Hok.
  { constructor; [apply (bool_decide_eq_true_1 _); vm_compute; reflexivity|apply (bool_decide_eq_true_1 _); vm_compute; reflexivity|by repeat constructor]. }
  pose proof (volumes_keep_data ex_daemon None "n1" ex_ops [ex_v "a" "data"; ex_v "b" "tmp"] Hok) as H.
  destruct (vrun _ _ _ _ _) as [asked t'] eqn:E. vm_compute in E. injection E as <- <-. split; [reflexivity|split; [reflexivity|]].
  destruct H as (_ & H & _). destruct (H (ex_v "a" "data") ltac:(by left)) as (v' & Hv' & _ & Hd).
  - intros o. rewrite !elem_of_cons, elem_of_nil. by intros [->|[->|[->|[]]]].
  - destruct (Hd "c" 9 (MkVScope "env" "e1") "data" None eq_refl eq_refl) as (w & t2 & Ed & _ & (_ & _ & Hn & _) & _). exists w, t2.
    apply list_elem_of_singleton in Hv' as ->. split; [exact Ed|exact Hn].
Defined.
