(* ===== verification/BackupSafe.v ===== *)
(** * What a backup flow may touch, and when ([flow/backup/backup.go])

    Theorems over every world: nothing of a volume is overwritten before
    there is a way back, no orphan is deleted before its data is away, and
    whatever failed, what a flow stopped runs again and what it claimed or
    spooled is given back. *)
From S2P Require Import Prelude GoStrings Errs Rows Backup Outside BackupFlow.

(** ** The flow's own steps *)

Section Own_steps.
Context (P : event * bool -> Prop).

Lemma adds_lift {A} (f : Db -> res A) : adds P (lift f).
Proof. intros st. apply grown_refl. Qed.
Lemma adds_lift_db {A} (f : Db -> res (Db * A)) : adds P (lift_db f).
Proof. intros st. unfold lift_db. destruct (f (db st)) as [[d a]|e]; apply grown_refl. Qed.
Lemma adds_claimed {A} id slug (m : M A) : adds P m -> adds P (claimed id slug m).
Proof.
  intros Hm st. unfold claimed, claim. destruct (contains _ _); [apply grown_refl|].
  refine (adds_defer P (release id) m _ Hm (mk_st (db st) (id :: running st) (past st))). intros st0. apply grown_refl.
Qed.
Lemma adds_counted W : adds P (counted W).
Proof. intros st. apply grown_refl. Qed.
End Own_steps.

(** ** What a backup does not do *)

(** Overwriting a volume or an engine's data, or deleting a volume. *)
Definition danger (e : event) : bool := match e with EUntar _ | ELoad _ | ERemove _ => true | _ => false end.
Definition mild (x : event * bool) : Prop := danger x.1 = false.
Abbreviation gentle := (adds (S := Held) mild).

Create HintDb gentle.
#[export] Hint Resolve adds_ret adds_fail adds_bind adds_defer adds_wrapped adds_lift adds_lift_db adds_log adds_claimed
  adds_call adds_quiet adds_asks adds_counted : gentle.
#[export] Hint Extern 1 (mild _) => reflexivity : gentle.

Section Gentle.
Context (W : World) (hold : option Z).

Lemma spool_gentle id : gentle (spool W id).
Proof. unfold spool. auto 6 with gentle. Qed.
#[local] Hint Resolve spool_gentle : gentle.

Lemma checkSpace_gentle v : gentle (checkSpace W v).
Proof.
  intros st. unfold checkSpace. destruct (_ <=? 0); [apply grown_refl|].
  pose proof (adds_call mild W EMkdir eq_refl eq_refl st) as H. destruct (call W EMkdir st) as [st1 [a|e]]; [|exact H].
  destruct (w_free W _); [|exact H]. by destruct (_ && _).
Qed.
#[local] Hint Resolve checkSpace_gentle : gentle.

Lemma waited_gentle (m k : M unit) : gentle m -> gentle k ->
  gentle (fun st => match m st with (st, Err e) => (quiet W EWait st, Err e) | (st, Ok _) => k st end).
Proof.
  intros Hm Hk st. pose proof (Hm st) as H1. destruct (m st) as [st1 [a|e]]; apply (grown_trans mild _ (past st1)); [exact H1|apply Hk|exact H1|].
  by apply adds_quiet.
Qed.

Lemma dump_gentle s : gentle (dump W s).
Proof. unfold dump. apply adds_bind; [auto with gentle|]. intros _. apply waited_gentle; [auto with gentle|]. apply waited_gentle; auto with gentle. Qed.

Lemma stopping_gentle {A} ts (m : M A) : gentle m -> gentle (stopping W ts m).
Proof. intros Hm. unfold stopping, resume. auto 6 with gentle. Qed.

Lemma tar_gentle s mode held : gentle (tar W s mode held).
Proof.
  unfold tar, thaw. apply adds_bind; [auto with gentle|]. intros _. destruct held; [auto with gentle|]. destruct (String.eqb mode Live); [auto with gentle|].
  destruct (String.eqb mode Stop); [apply stopping_gentle|]; auto 6 with gentle.
Qed.

Lemma produce_gentle s sp : gentle (produce W s sp).
Proof.
  unfold produce. apply adds_bind; [auto with gentle|]. intros _. apply adds_bind; [|auto with gentle].
  destruct (dumps s); [apply dump_gentle|apply tar_gentle].
Qed.
#[local] Hint Resolve produce_gentle : gentle.

Lemma put_gentle d key : gentle (put W d key).
Proof. unfold put. auto with gentle. Qed.
#[local] Hint Resolve put_gentle : gentle.

Lemma stream_gentle d key p : gentle p -> gentle (stream W d key p).
Proof. intros Hp. unfold stream. auto 8 with gentle. Qed.

Lemma upload_gentle s sp key : gentle (upload_spooled W s sp key).
Proof. unfold upload_spooled, drop_spool. auto 14 with gentle. Qed.

Lemma write_gentle s sp : gentle (write W s sp).
Proof.
  intros st. unfold write. destruct (dumps s || String.eqb (sp_Mode sp) Live).
  - cbn [ret]. match goal with |- context [stream W ?d ?k ?p st] => pose proof (stream_gentle d k p (produce_gentle s sp) st) as H1;
      destruct (stream W d k p st) as [st2 [n|e]]; exact H1 end.
  - pose proof (checkSpace_gentle (sj_Volume s) st) as H0. destruct (checkSpace W (sj_Volume s) st) as [st1 [u|e]]; [|exact H0].
    match goal with |- context [upload_spooled W s sp ?k st1] => pose proof (upload_gentle s sp k st1) as H1;
      destruct (upload_spooled W s sp k st1) as [st2 [n|e]]; exact (grown_trans mild _ _ _ H0 H1) end.
Qed.

Lemma delete_keys_gentle d protect ks h : exists l, fst (delete_keys (H := open W d) protect ks h) = l ++ h /\ Forall mild l.
Proof.
  revert h. induction ks as [|k ks IH]; intros h; cbn [delete_keys]; [apply grown_refl|]. destruct (contains protect k); [apply IH|].
  cbn [o_delete open]. destruct (w_ask W h _); cbn iota beta.
  - pose proof (IH ((EDelete (d_ID d) k, false) :: h)) as H. destruct (delete_keys _ _ _) as [h' g].
    apply (grown_trans mild _ ((EDelete (d_ID d) k, false) :: h)); [by apply grown_one|exact H].
  - pose proof (IH ((EDelete (d_ID d) k, true) :: h)) as H. destruct (delete_keys _ _ _) as [h' g].
    apply (grown_trans mild _ ((EDelete (d_ID d) k, true) :: h)); [by apply grown_one|exact H].
Qed.

Lemma prune_gentle d prefix keep protect : adds_fn mild (prune W d prefix keep protect).
Proof.
  intros st. unfold prune, Prune. destruct (keep <=? 0); [apply grown_refl|]. destruct (o_list _ _) as [keys|]; [|apply grown_refl].
  destruct (_ <=? keep); [apply grown_refl|].
  match goal with |- context [delete_keys ?p ?k ?h] => pose proof (delete_keys_gentle d p k h) as H; destruct (delete_keys p k h) as [h' g] end.
  exact H.
Qed.

Lemma finish_gentle r key size err : gentle (finish W r key size err).
Proof. intros st. unfold finish. destruct (Finish _ _ _ _ _ _) as [[d r']|e]; [by apply grown_one|apply grown_refl]. Qed.

Lemma backup_gentle s sp : gentle (backup W hold s sp).
Proof.
  intros st. unfold backup. match goal with |- context [lift_db ?f st] => pose proof (adds_lift_db mild f st) as H0; destruct (lift_db f st) as [st1 [r|e]] end;
    [|exact H0].
  pose proof (write_gentle s sp st1) as H1. destruct (write W s sp st1) as [st2 [[key size] err]].
  pose proof (finish_gentle r key size err st2) as H2. pose proof (grown_trans mild _ _ _ H0 (grown_trans mild _ _ _ H1 H2)) as H. clear H0 H1 H2.
  destruct (finish W r key size err st2) as [st3 [x|fe]]; cbn [fst] in H; (destruct (errors_join _); [exact H|]);
    (destruct (String.eqb _ PreRestore); [exact H|]); (destruct (pruneHeld _ _ _ _ _ _); [exact H|]);
    exact (grown_trans mild _ _ _ H (prune_gentle _ _ _ _ st3)).
Qed.

(** ** What a successful backup did *)

Lemma put_Ok d key st st' u : put W d key st = (st', Ok u) -> past st' = (EPut (d_ID d) key, true) :: past st.
Proof. intros ->%wrapped_Ok%call_Ok. done. Qed.

(** Adding to a history. *)
Definition grew (h h' : hist) (x : event * bool) : Prop := exists l, h' = l ++ h /\ Forall mild l /\ x ∈ l.
Lemma grew_later h h1 h2 x : grown mild h h1 -> grew h1 h2 x -> grew h h2 x.
Proof.
  intros (l1 & -> & H1) (l2 & -> & H2 & Hx). exists (l2 ++ l1). rewrite app_assoc. split_and!; [done|by apply Forall_app|set_solver].
Qed.
Lemma grew_then h h1 h2 x : grew h h1 x -> grown mild h1 h2 -> grew h h2 x.
Proof.
  intros (l1 & -> & H1 & Hx) (l2 & -> & H2). exists (l2 ++ l1). rewrite app_assoc. split_and!; [done|by apply Forall_app|set_solver].
Qed.
Lemma grew_now h x : mild x -> grew h (x :: h) x.
Proof. intros Hx. exists [x]. split_and!; [done|by repeat constructor|by left]. Qed.

Lemma stream_Ok d key p st st' n : gentle p -> stream W d key p st = (st', Ok n) -> grew (past st) (past st') (EPut (d_ID d) key, true).
Proof.
  intros Hp (u & st1 & E1 & (m & st2 & E2 & (v & st3 & E3 & E4)%bind_Ok)%bind_Ok)%bind_Ok.
  pose proof (Hp st) as H1. rewrite E1 in H1. injection E2 as <- _. apply put_Ok in E3. injection E4 as <- _.
  apply (grew_later _ (past st1)); [exact H1|]. rewrite E3. by apply grew_now.
Qed.

Lemma upload_Ok s sp key st st' n : upload_spooled W s sp key st = (st', Ok n) ->
  grew (past st) (past st') (EPut (d_ID (sp_Dest sp)) key, true).
Proof.
  intros (u & st1 & E1 & E)%bind_Ok. set (id := or_str _ "group") in *. pose proof (spool_gentle id st) as H1. rewrite E1 in H1.
  unfold defer in E. destruct (bind (produce W s sp) _ st1) as [st2 r] eqn:E2. injection E as <- ->.
  apply bind_Ok in E2 as (? & st3 & E3 & (? & st4 & E4 & (? & st5 & E5 & (? & st6 & E6 & (? & st7 & E7 & E8)%bind_Ok)%bind_Ok)%bind_Ok)%bind_Ok).
  pose proof (produce_gentle s sp st1) as H3. rewrite E3 in H3. apply call_Ok in E4 as ->. injection E5 as <- _. apply call_Ok in E6 as ->.
  apply put_Ok in E7. injection E8 as <- _. apply (grew_later _ (past st1)); [exact H1|]. apply (grew_later _ (past st3)); [exact H3|].
  apply (grew_then _ (past st7)); [|by apply adds_log]. rewrite E7.
  exists [(EPut (d_ID (sp_Dest sp)) key, true); (ESeek, true); (ESeek, true)]. split_and!; [done|by repeat constructor|left].
Qed.

Lemma write_Ok s sp st st' key n : write W s sp st = (st', (key, n, None)) ->
  grew (past st) (past st') (EPut (d_ID (sp_Dest sp)) key, true) /\ has_prefix key (sp_Prefix sp +:+ "/") = true.
Proof.
  assert (forall a t, has_prefix (ObjectKey (sp_Prefix sp) a t) (sp_Prefix sp +:+ "/") = true) as Hp.
  { intros a t. apply has_prefix_spec. eexists. unfold ObjectKey. by rewrite <-app_assoc_str. }
  unfold write. destruct (dumps s || String.eqb (sp_Mode sp) Live); cbn [ret].
  - destruct (stream W _ _ _ st) as [st2 [m|e]] eqn:E; [|done]. intros [= <- <- _]. split; [|apply Hp].
    apply (stream_Ok _ _ _ _ _ _ (produce_gentle s sp) E).
  - pose proof (checkSpace_gentle (sj_Volume s) st) as H0. destruct (checkSpace W (sj_Volume s) st) as [st1 [u|e]]; [|done].
    destruct (upload_spooled W s sp _ st1) as [st2 [m|e]] eqn:E; [|done]. intros [= <- <- _]. split; [|apply Hp].
    apply (grew_later _ (past st1)); [exact H0|]. exact (upload_Ok _ _ _ _ _ _ E).
Qed.

(** A run that is in the history as closed and done, with its archive. *)
Record backed_up (s : Subject) (sp : Spec) (r : BackupRun) (h h' : hist) : Prop := MkBacked {
  bu_done : r_Status r = Done;
  bu_volume : r_VolumeID r = nonempty (v_ID (sj_Volume s));
  bu_trigger : r_Trigger r = sp_Trigger sp;
  bu_dest : r_DestID r = d_ID (sp_Dest sp);
  bu_key : has_prefix (r_ObjectKey r) (sp_Prefix sp +:+ "/") = true;
  bu_put : grew h h' (EPut (d_ID (sp_Dest sp)) (r_ObjectKey r), true);
  bu_closed : grew h h' (EClosed r, true) }.

Lemma StartIn_is id now kind vol sched dest trigger group d d' r : StartIn id now kind vol sched dest trigger group d = Ok (d', r) ->
  r = MkRun id kind vol sched dest trigger Backup.Running "" 0 "" now None group 0 0 "".
Proof. unfold StartIn. destruct (_ && _); [done|]. destruct (_ || _); [done|]. destruct (create_run _ _); [|done]. by intros [= _ <-]. Qed.

Lemma finish_Ok r key size st st' x : finish W r key size None st = (st', Ok x) ->
  x = closed r Done key size "" (w_now W (past st)) /\ past st' = (EClosed x, true) :: past st.
Proof.
  unfold finish, Finish. cbn [fmap option_fmap option_map]. destruct (update_run _ (db st)) as [d|e]; [|done]. by intros [= <- <-].
Qed.

Lemma joined a b : errors_join (opt_list a ++ opt_list b) = None -> a = None /\ b = None.
Proof. by destruct a, b. Qed.

Lemma backup_Ok s sp st st' x : backup W hold s sp st = (st', Ok x) -> exists r, backed_up s sp r (past st) (past st').
Proof.
  unfold backup, lift_db. destruct (StartIn _ _ _ _ _ _ _ _ (db st)) as [[d r]|e] eqn:Es; [|done]. apply StartIn_is in Es as Er.
  set (st1 := set_db st d). destruct (write W s sp st1) as [st2 [[key size] err]] eqn:Ew.
  destruct (finish W r key size err st2) as [st3 [y|fe]] eqn:Ef; (destruct (errors_join _) eqn:Ej; [done|]);
    apply joined in Ej as [-> Ej]; [|done]. clear Ej.
  pose proof Ew as Ew'. apply write_Ok in Ew as [Hput Hkey]. apply finish_Ok in Ef as [-> Hc]. intros E.
  assert (grown mild (past st3) (past st')) as Hl.
  { destruct (String.eqb _ PreRestore); [injection E as <- _; apply grown_refl|].
    destruct (pruneHeld _ _ _ _ _ _); injection E as <- _; [apply grown_refl|apply prune_gentle]. }
  exists (closed r Done key size "" (w_now W (past st2))). rewrite Er. split; try done; cbn [r_ObjectKey closed].
  - apply (grew_then _ (past st3)); [|exact Hl]. apply (grew_then _ (past st2)); [exact Hput|]. rewrite Hc. by apply grown_one.
  - apply (grew_then _ (past st3)); [|exact Hl]. pose proof (write_gentle s sp st1) as Hw. rewrite Ew' in Hw.
    apply (grew_later _ (past st2)); [exact Hw|]. rewrite Hc, Er. by apply grew_now.
Qed.
End Gentle.

(** ** Restore *)

Section Restore_proofs.
Context (W : World) (hold : option Z).
#[local] Hint Resolve spool_gentle backup_gentle : gentle.

Lemma fetch_gentle d key id : gentle (fetch W d key id).
Proof.
  unfold fetch. do 3 (apply adds_bind; [auto with gentle|intros _]). intros st.
  pose proof (adds_wrapped mild "download: %w" _ (adds_call mild W ECopy eq_refl eq_refl) st) as H.
  destruct (wrapped _ _ st) as [st1 [u|e]]; [|by apply (grown_trans mild _ _ _ H), grown_one].
  destruct (_ <? _); [|exact H]. by apply (grown_trans mild _ _ _ H), grown_one.
Qed.

Lemma fetch_Ok d key id st st' u : fetch W d key id st = (st', Ok u) -> grew (past st) (past st') (EGet (d_ID d) key, true).
Proof.
  intros (? & st1 & ->%call_Ok & E)%bind_Ok. apply (grew_then _ ((EGet (d_ID d) key, true) :: past st)); [by apply grew_now|].
  pose proof (fetch_gentle d key id) as _. revert E. set (k := bind _ _). intros E.
  assert (gentle k) as Hk; [|pose proof (Hk (log_event (EGet (d_ID d) key) true st)) as H; by rewrite E in H].
  unfold k. do 2 (apply adds_bind; [auto with gentle|intros _]). intros st2.
  pose proof (adds_wrapped mild "download: %w" _ (adds_call mild W ECopy eq_refl eq_refl) st2) as H.
  destruct (wrapped _ _ st2) as [st3 [v|e]]; [|by apply (grown_trans mild _ _ _ H), grown_one].
  destruct (_ <? _); [|exact H]. by apply (grown_trans mild _ _ _ H), grown_one.
Qed.

Lemma vet_gentle i : gentle (vet W i).
Proof.
  unfold vet. destruct (_ && _); [|auto with gentle]. apply adds_bind; [auto 8 with gentle|]. intros _. apply adds_bind; [auto with gentle|].
  intros []; auto with gentle.
Qed.

(** What vetting a whole-instance dump took. *)
Definition vetted (i : Restore_in) (h h' : hist) : Prop :=
  dumps (in_Target i) = true -> sj_Marker (in_Target i) <> "" -> in_Cluster i = true ->
  grew h h' (EFirstLine, false) \/ grew h h' (ECluster, true).

Lemma vet_Ok i st st' u : vet W i st = (st', Ok u) -> vetted i (past st) (past st').
Proof.
  unfold vet, vetted. intros E Hd Hm Hc. rewrite Hd, Hc, (proj2 (String.eqb_neq _ _) Hm) in E. cbn [negb andb] in E.
  apply bind_Ok in E as (? & st1 & E1 & (b & st2 & E2 & E3)%bind_Ok).
  assert (gentle (wrapped "archive check (nothing was touched): %w" (_ <~ call W ESeek ;; _ <~ call W EGzip ;; call W ECopy))) as Hg by auto 8 with gentle.
  specialize (Hg st). rewrite E1 in Hg. unfold asks in E2. injection E2 as <- Eb. rewrite Eb in E3. destruct b.
  - right. apply call_Ok in E3 as ->. apply (grew_later _ (past st1)); [exact Hg|].
    exists [(ECluster, true); (EFirstLine, true)]. split_and!; [done|by repeat constructor|left].
  - left. injection E3 as <-. apply (grew_later _ (past st1)); [exact Hg|]. by apply grew_now.
Qed.

(** How a history with one overwrite looks: what came before it, the call,
    and what came after. *)
Definition overwrites (i : Restore_in) : event :=
  if dumps (in_Target i) then ELoad (sj_Engine (in_Target i)) else EUntar (sj_Volume (in_Target i)).
Definition stopped (i : Restore_in) : list Tile :=
  if dumps (in_Target i) then sj_Consumers (in_Target i) else sj_Holders (in_Target i).
Record wiped (i : Restore_in) (h h' : hist) (before : hist) (ok : bool) : Prop := MkWiped {
  wp_split : exists after, h' = after ++ (overwrites i, ok) :: before /\ Forall mild after;
  wp_before : exists l, before = l ++ h /\ Forall mild l;
  wp_stopped : dumps (in_Target i) = false \/ sj_Consumers (in_Target i) <> [] ->
    exists l, before = (EQuiesce (stopped i), true) :: l;
  wp_swap : in_Swap i = true -> grew h before (ESwap, true) }.

(** Stopping, then overwriting with [e] and going on with [k]. *)
Lemma stopping_call ts e (k : M unit) st st' r : gentle k -> stopping W ts (_ <~ call W e ;; k) st = (st', r) ->
  (past st' = (EQuiesce ts, false) :: past st /\ exists x, r = Err x) \/
  exists ok after, past st' = after ++ (e, ok) :: (EQuiesce ts, true) :: past st /\ Forall mild after /\ (forall u, r = Ok u -> ok = true).
Proof.
  intros Hk. unfold stopping, bind at 1. unfold call at 1. destruct (ask W (past st) (EQuiesce ts)) as [x|]; [intros [= <- <-]; left; eauto|].
  intros E. right. unfold defer, bind, call in E. cbn [log_event past] in E. destruct (ask W _ e) as [x|].
  - injection E as <- <-. exists false, [(EResume ts, true)]. split_and!; [done|by repeat constructor|done].
  - set (st1 := log_event e true _) in E. pose proof (Hk st1) as (l & El & Hl). destruct (k st1) as [st2 r2]. injection E as <- <-.
    cbn [fst] in El. exists true, ((EResume ts, true) :: l). split_and!; [|by constructor|done]. cbn. by rewrite El.
Qed.

Lemma bind_ret (m : M unit) : forall st, bind m (fun _ => ret tt) st = m st.
Proof. intros st. unfold bind. by destruct (m st) as [st1 [[]|e]]. Qed.

Lemma stopping_ext {A} ts (m k : M A) : (forall st, m st = k st) -> forall st, stopping W ts m st = stopping W ts k st.
Proof. intros H st. unfold stopping, bind, defer. destruct (call W _ st) as [st1 [u|e]]; [by rewrite H|done]. Qed.

(** The overwriting step, from where its guards have passed. *)
Definition overwrite (i : Restore_in) : M unit :=
  if dumps (in_Target i) then wrapped "%w (the instance may be half restored)" (load W (in_Target i))
  else stopping W (sj_Holders (in_Target i)) (call W (EUntar (sj_Volume (in_Target i)))).

Lemma overwrite_cases i st st' r : overwrite i st = (st', r) ->
  (grown mild (past st) (past st') /\ exists e, r = Err e) \/
  exists ok after before, past st' = after ++ (overwrites i, ok) :: before /\ Forall mild after /\
    grown mild (past st) before /\
    (dumps (in_Target i) = false \/ sj_Consumers (in_Target i) <> [] -> exists l, before = (EQuiesce (stopped i), true) :: l) /\
    (forall u, r = Ok u -> ok = true).
Proof.
  unfold overwrite, overwrites, stopped. set (t := in_Target i). destruct (dumps t) eqn:Ed.
  - unfold wrapped. destruct (load W t st) as [st1 r1] eqn:El. intros E. assert (st' = st1 /\ forall u, r = Ok u -> r1 = Ok u) as [-> Hr].
    { destruct r1; injection E as <- <-; done. }
    assert (forall e, r1 = Err e -> exists e, r = Err e) as He by (intros e ->; injection E as <-; eauto). clear E.
    unfold load in El. unfold bind at 1, call at 1 in El. destruct (ask W (past st) EGzip) as [x|].
    { injection El as <- <-. left. split; [by apply grown_one|by eapply He]. }
    set (st0 := log_event EGzip true st) in El. destruct (sj_Consumers t) as [|c cs] eqn:Ec.
    + right. unfold bind, call at 1 in El. cbn [st0 log_event past] in El.
      destruct (ask W ((EGzip, true) :: past st) (ELoad (sj_Engine t))) as [x|].
      * injection El as <- <-. exists false, [], ((EGzip, true) :: past st). split_and!; [done|constructor|by apply grown_one|by intros [|]|].
        intros u Hu. by apply Hr in Hu.
      * set (st2 := log_event _ true _) in El. pose proof (adds_call mild W EWait eq_refl eq_refl st2) as (l & Hl & Hm). rewrite El in Hl.
        exists true, l, ((EGzip, true) :: past st). split_and!; [done|done|by apply grown_one|by intros [|]|done].
    + apply (stopping_call (c :: cs) (ELoad (sj_Engine t)) (call W EWait)) in El; [|auto with gentle].
      destruct El as [[Hp [x ->]]|(ok & after & Hp & Hm & Hok)].
      * left. split; [|by eapply He]. rewrite Hp. exists [(EQuiesce (c :: cs), false); (EGzip, true)]. split; [done|by repeat constructor].
      * right. exists ok, after, ((EQuiesce (c :: cs), true) :: past st0). split_and!; [done|done| |intros _; by eexists|].
        -- exists [(EQuiesce (c :: cs), true); (EGzip, true)]. split; [done|by repeat constructor].
        -- intros u Hu. by apply (Hok u), Hr.
  - intros E. rewrite <-(stopping_ext _ _ _ (bind_ret _)) in E. apply stopping_call in E; [|apply adds_ret].
    destruct E as [[Hp [x ->]]|(ok & after & Hp & Hm & Hok)].
    + left. split; [|by eexists]. rewrite Hp. by apply grown_one.
    + right. exists ok, after, ((EQuiesce (sj_Holders t), true) :: past st). split_and!; [done|done|by apply grown_one|intros _; by eexists|done].
Qed.

(** Everything a restore has in hand before it overwrites. *)
Record prepared (i : Restore_in) (st : St) (run pre : BackupRun) (h h' : hist) : Prop := MkPrepared {
  pp_run : Restorable (db st) (in_RunID i) (in_SourceVolumeID i) = Ok run;
  pp_kind : is_dump run = dumps (in_Target i);
  pp_fetched : grew h h' (EGet (r_DestID run) (r_ObjectKey run), true);
  pp_verified : grew h h' (EVerify (negb (dumps (in_Target i))), true);
  pp_vetted : vetted i h h';
  pp_backed : backed_up (in_Target i) (pre_spec (in_Pre i)) pre h h' }.

Lemma backed_later s sp r h h1 h2 : grown mild h h1 -> backed_up s sp r h1 h2 -> backed_up s sp r h h2.
Proof. intros H []. split; try done; by apply (grew_later _ h1). Qed.
Lemma backed_then s sp r h h1 h2 : backed_up s sp r h h1 -> grown mild h1 h2 -> backed_up s sp r h h2.
Proof. intros [] H. split; try done; by apply (grew_then _ h1). Qed.

(** The archive in hand, up to the point of no return. *)
Lemma readied i st : match (_ <~ wrapped "archive check (nothing was touched): %w" (call W (EVerify (negb (dumps (in_Target i))))) ;;
    _ <~ vet W i ;; wrapped "pre-restore backup (nothing was touched): %w" (backup W hold (in_Target i) (pre_spec (in_Pre i)))) st with
  | (st', Ok _) => grown mild (past st) (past st') /\ grew (past st) (past st') (EVerify (negb (dumps (in_Target i))), true) /\
      vetted i (past st) (past st') /\ exists pre, backed_up (in_Target i) (pre_spec (in_Pre i)) pre (past st) (past st')
  | (st', Err _) => exists l, past st' = l ++ past st /\ Forall mild l
  end.
Proof.
  set (m1 := wrapped _ _). set (m3 := wrapped _ (backup _ _ _ _)).
  assert (gentle m1) as G1 by (unfold m1; auto with gentle). assert (gentle m3) as G3 by (unfold m3; auto with gentle).
  assert (gentle (_ <~ m1 ;; _ <~ vet W i ;; m3)) as G by (do 2 (apply adds_bind; [auto using vet_gentle|intros _]); done).
  pose proof (G st) as H. destruct (bind m1 _ st) as [st' [x|e]] eqn:E; [|exact H]. split; [exact H|]. clear H G.
  apply bind_Ok in E as (? & st1 & E1 & (? & st2 & E2 & E3)%bind_Ok). pose proof (G3 st2) as H3. rewrite E3 in H3.
  pose proof (vet_gentle i st1) as H2. rewrite E2 in H2. pose proof (G1 st) as H1. rewrite E1 in H1.
  unfold m1 in E1. apply wrapped_Ok, call_Ok in E1. apply vet_Ok in E2. apply wrapped_Ok, backup_Ok in E3 as [pre E3]. split_and!.
  - apply (grew_then _ (past st1)); [rewrite E1; by apply grew_now|]. exact (grown_trans mild _ _ _ H2 H3).
  - intros Hd Hm Hc. destruct (E2 Hd Hm Hc) as [Hg|Hg]; [left|right]; apply (grew_later _ (past st1)); try exact H1; exact (grew_then _ _ _ _ Hg H3).
  - exists pre. apply (backed_later _ _ _ _ (past st2)); [|exact E3]. exact (grown_trans mild _ _ _ H1 H2).
Qed.

(** The last step: the seek, the swap, the overwrite and the pruning. *)
Lemma wipe_cases i st st' r : then_prune W (pre_spec (in_Pre i)) (wipe W i) st = (st', r) ->
  (grown mild (past st) (past st') /\ exists e, r = Err e) \/
  exists before ok, wiped i (past st) (past st') before ok /\ (forall u, r = Ok u -> ok = true).
Proof.
  intros E. unfold then_prune in E. destruct (wipe W i st) as [st1 r1] eqn:Ew.
  assert (grown mild (past st1) (past st') /\ (forall u, r = Ok u -> exists v, r1 = Ok v) /\ (forall e, r1 = Err e -> r = Err e)) as (Hp & Hr & He).
  { destruct r1 as [u|e]; injection E as <- <-; (split; [|by split; [eauto|intros ? [=]; congruence]]); [|apply grown_refl]. destruct (0 <? _); [apply prune_gentle|apply grown_refl]. }
  clear E. change (wipe W i) with (_ <~ call W ESeek ;; _ <~ (if in_Swap i then call W ESwap else ret tt) ;; overwrite i) in Ew.
  remember (if in_Swap i then call W ESwap else ret tt) as swap eqn:Eswap.
  assert (gentle swap) as Gs by (subst swap; destruct (in_Swap i); auto with gentle). unfold bind in Ew. pose proof (adds_call mild W ESeek eq_refl eq_refl st) as H1. destruct (call W ESeek st) as [st2 [u2|e2]]; cbn [fst] in H1.
  2: { injection Ew as <- <-. left. split; [exact (grown_trans mild _ _ _ H1 Hp)|]. exists e2. by apply He. }
  pose proof (Gs st2) as H2. destruct (swap st2) as [st3 [u3|e3]] eqn:Es; cbn [fst] in H2.
  2: { injection Ew as <- <-. left. split; [exact (grown_trans mild _ _ _ H1 (grown_trans mild _ _ _ H2 Hp))|]. exists e3. by apply He. }
  apply overwrite_cases in Ew as [[H3 [e ->]]|(ok & after & before & Hs & Ha & Hb & Hq & Hok)].
  - left. split; [exact (grown_trans mild _ _ _ H1 (grown_trans mild _ _ _ H2 (grown_trans mild _ _ _ H3 Hp)))|]. exists e. by apply He.
  - right. exists before, ok. split; [|intros u Hu; destruct (Hr u Hu) as [v Hv]; by apply (Hok v)]. split.
    + destruct Hp as (l & -> & Hl). exists (l ++ after). rewrite Hs, <-app_assoc. split; [done|by apply Forall_app].
    + exact (grown_trans mild _ _ _ H1 (grown_trans mild _ _ _ H2 Hb)).
    + exact Hq.
    + intros Hsw. rewrite Eswap, Hsw in Es. apply call_Ok in Es. apply (grew_then _ (past st3)); [|exact Hb].
      apply (grew_later _ (past st2)); [exact H1|]. rewrite Es. by apply grew_now.
Qed.

Lemma wiped_shift i h h1 h2 h3 before ok : grown mild h h1 -> wiped i h1 h2 before ok ->
  grown mild h2 h3 -> wiped i h h3 before ok.
Proof.
  intros H [(after & -> & Ha) Hb Hs Hw] (l & -> & Hl). split; [|exact (grown_trans mild _ _ _ H Hb)|done|].
  - exists (l ++ after). rewrite <-app_assoc. split; [done|by apply Forall_app].
  - intros E. apply (grew_later _ h1); [exact H|by apply Hw].
Qed.

(** A restore overwrote nothing and failed, or it was ready to and did once. *)
Definition restored (i : Restore_in) (st : St) (h h' : hist) (run : BackupRun) (r : res unit) : Prop :=
  (grown mild h (h') /\ exists e, r = Err e) \/
  exists pre before ok, wiped i h h' before ok /\ prepared i st run pre h before /\ (forall u, r = Ok u -> ok = true).

Lemma restored_later i st h h1 h2 run r : grown mild h1 h2 -> restored i st h h1 run r -> restored i st h h2 run r.
Proof.
  intros H [[H1 He]|(pre & before & ok & Hw & Hp)]; [left; split; [exact (grown_trans mild _ _ _ H1 H)|done]|].
  right. exists pre, before, ok. split; [|done]. exact (wiped_shift _ _ _ _ _ _ _ (grown_refl mild h) Hw H).
Qed.

Lemma restore_fetched_cases i st0 run st1 st' r h :
  Restorable (db st0) (in_RunID i) (in_SourceVolumeID i) = Ok run -> is_dump run = dumps (in_Target i) ->
  grew h (past st1) (EGet (r_DestID run) (r_ObjectKey run), true) ->
  restore_fetched W hold i st1 = (st', r) -> restored i st0 h (past st') run r.
Proof.
  intros Hrun Hkind Hget. unfold restore_fetched. pose proof (readied i st1) as Hr.
  set (m1 := wrapped _ (call W (EVerify _))) in *. set (m3 := wrapped _ (backup _ _ _ _)) in *. set (m4 := then_prune _ _ _).
  assert (forall st, (_ <~ m1 ;; _ <~ vet W i ;; _ <~ m3 ;; m4) st = bind (_ <~ m1 ;; _ <~ vet W i ;; m3) (fun _ => m4) st) as ->.
  { intros st. rewrite <-bind_assoc. unfold bind. destruct (m1 st) as [s1 [a|e]]; [|done]. by destruct (vet W i s1) as [s2 [b|e]]. }
  intros E. unfold bind at 1 in E. destruct (bind m1 _ st1) as [st2 [x|e]].
  2: { injection E as <- <-. left. split; [|by eexists]. destruct Hget as (l & Hl & Hm & _). apply (grown_trans mild _ (past st1)); [by exists l|exact Hr]. }
  destruct Hr as (Hg & Hv & Hvet & pre & Hb). assert (grown mild h (past st1)) as H1 by (destruct Hget as (l & Hl & Hm & _); by exists l).
  unfold m4 in E. apply wipe_cases in E as [[H2 He]|(before & ok & Hw & Hok)].
  - left. split; [|done]. exact (grown_trans mild _ _ _ H1 (grown_trans mild _ _ _ Hg H2)).
  - right. exists pre, before, ok. pose proof (wp_before _ _ _ _ _ Hw) as Hbe.
    split; [exact (wiped_shift _ _ _ _ _ _ _ (grown_trans mild _ _ _ H1 Hg) Hw (grown_refl mild _))|]. split; [|done]. split; [done|done| | | |].
    + exact (grew_then _ _ _ _ (grew_then _ _ _ _ Hget Hg) Hbe).
    + exact (grew_then _ _ _ _ (grew_later _ _ _ _ H1 Hv) Hbe).
    + intros Hd Hm Hc. destruct (Hvet Hd Hm Hc) as [Hx|Hx]; [left|right]; exact (grew_then _ _ _ _ (grew_later _ _ _ _ H1 Hx) Hbe).
    + exact (backed_then _ _ _ _ _ _ (backed_later _ _ _ _ _ _ H1 Hb) Hbe).
Qed.

(** C32. A restore overwrites a volume's data at most once, and only with a
    way back: whatever the outside answers, either it fails having
    overwritten nothing, or everything before the one overwriting call is
    there. The run is a finished one of the volume it was asked from and of
    the target's kind; its archive was fetched and verified to the end, and a
    whole-instance dump was vetted; the target was backed up to an uploaded
    archive under the given root, with a closed done run; the point of no
    return was granted; and the tiles that hold the data were stopped just
    before. A restore that reports success did overwrite. *)
Theorem Restore_order i st st' r : Restore W hold i st = (st', r) ->
  (grown mild (past st) (past st') /\ exists e, r = Err e) \/
  exists run pre before ok, Restorable (db st) (in_RunID i) (in_SourceVolumeID i) = Ok run /\
    wiped i (past st) (past st') before ok /\ prepared i st run pre (past st) before /\ (forall u, r = Ok u -> ok = true).
Proof.
  unfold Restore, claimed, claim. destruct (contains _ _); [intros [= <- <-]; left; split; [apply grown_refl|by eexists]|].
  set (st0 := mk_st _ _ _). unfold defer at 1. destruct (bind _ _ st0) as [st1 r1] eqn:E. intros [= <- <-].
  change (past (release _ st1)) with (past st1). unfold bind at 1, lift at 1 in E. change (db st0) with (db st) in E.
  destruct (Restorable (db st) (in_RunID i) (in_SourceVolumeID i)) as [run|e] eqn:Er.
  2: { injection E as <- <-. left. split; [apply grown_refl|by eexists]. }
  destruct (Bool.eqb (is_dump run) (dumps (in_Target i))) eqn:Ek; cbn [negb] in E.
  2: { injection E as <- <-. left. split; [apply grown_refl|by eexists]. }
  apply eqb_prop in Ek. unfold bind at 1, lift in E. destruct (Get (db st0) (r_DestID run)) as [d|e] eqn:Ed.
  2: { injection E as <- <-. left. split; [apply grown_refl|by eexists]. }
  apply Rows.r_get_ok in Ed as [_ Ed]. change (d_ID d = r_DestID run) in Ed.
  unfold bind at 1 in E. pose proof (fetch_gentle d (r_ObjectKey run) (v_ID (sj_Volume (in_Target i))) st0) as Hf.
  destruct (fetch W d (r_ObjectKey run) (v_ID (sj_Volume (in_Target i))) st0) as [st2 [u|e]] eqn:Ef.
  2: { injection E as <- <-. left. split; [exact Hf|by eexists]. }
  apply fetch_Ok in Ef. rewrite Ed in Ef. unfold defer in E. destruct (restore_fetched W hold i st2) as [st3 r3] eqn:Ew. injection E as <- <-.
  apply (restore_fetched_cases i st run st2 st3 r3 (past st) Er Ek Ef) in Ew.
  apply (restored_later _ _ _ _ (past (drop_spool (spool_id (v_ID (sj_Volume (in_Target i)))) st3))) in Ew; [|by apply grown_one].
  destruct Ew as [Hl|(pre & before & ok & Hw & Hp & Ho)]; [by left|right]. by exists run, pre, before, ok.
Qed.
End Restore_proofs.

(** ** Orphans *)

Section Orphan_proofs.
Context (W : World) (hold : option Z).

Lemma Backup_Ok s sp st st' x : Backup W hold s sp st = (st', Ok x) -> exists r, backed_up s sp r (past st) (past st').
Proof.
  unfold Backup, claimed, claim. destruct (contains _ _); [done|]. unfold defer. destruct (backup W hold s sp _) as [st1 r1] eqn:E.
  intros [= <- ->]. apply backup_Ok in E. exact E.
Qed.
Lemma Backup_gentle s sp : gentle (Backup W hold s sp).
Proof. apply adds_claimed, backup_gentle. Qed.

Lemma try_dests_gentle v ds last : gentle (try_dests W hold v ds last).
Proof.
  revert last. induction ds as [|d ds IH]; intros last st; cbn [try_dests]; [apply grown_refl|].
  pose proof (Backup_gentle (orphan_subject v) (orphan_spec d v) st) as H. destruct (Backup W hold _ _ st) as [st1 [x|e]]; [exact H|].
  exact (grown_trans mild _ _ _ H (IH (Some e) st1)).
Qed.

(** The data is away: in an uploaded archive of the volume. *)
Definition kept_copy (v : Volume) (h : hist) (h0 : hist) : Prop :=
  exists d run, backed_up (orphan_subject v) (orphan_spec d v) run h0 h.

Lemma try_dests_None v ds last st st' : try_dests W hold v ds last st = (st', None) -> (ds = [] -> last <> None) ->
  exists h0 l0, h0 = l0 ++ past st /\ Forall mild l0 /\ kept_copy v (past st') h0.
Proof.
  revert last st. induction ds as [|d ds IH]; intros last st; cbn [try_dests]; [intros [= _ ->] Hl; by destruct Hl|].
  pose proof (Backup_gentle (orphan_subject v) (orphan_spec d v) st) as H. destruct (Backup W hold _ _ st) as [st1 [x|e]] eqn:E.
  - intros [= <-] _. apply Backup_Ok in E as [run Hr]. exists (past st), []. split_and!; [done|constructor|by exists d, run].
  - intros Et _. destruct (IH (Some e) st1 Et) as (h0 & l0 & -> & Hl & Hk); [done|]. destruct H as (l & Hp & Hm). cbn [fst] in Hp.
    exists (l0 ++ past st1), (l0 ++ l). rewrite Hp, app_assoc. split_and!; [done|by apply Forall_app|]. by rewrite <-app_assoc, <-Hp.
Qed.

(** One orphan: left alone, or deleted with nothing lost. *)
Definition nothing_lost (v : Volume) (h : hist) (start : hist) : Prop :=
  (EHolds v, false) ∈ h \/ exists l0, kept_copy v h (l0 ++ start).

Lemma orphan_cases dest v st st' e : orphan W hold dest v st = (st', e) ->
  grown mild (past st) (past st') \/
  exists l ok, past st' = (ERemove v, ok) :: l ++ past st /\ Forall mild l /\ nothing_lost v (l ++ past st) (past st).
Proof.
  unfold orphan, asks, answer, world_answers. set (b := w_yes W (past st) (EHolds v)). set (st1 := log_event (EHolds v) b st). intros E.
  assert (exists st2 kept, (if b then try_dests W hold v match offBox (db st1) v with Some off => [off; dest] | None => [dest] end None st1 else (st1, None)) = (st2, kept) /\
    match kept with Some e => (st2, Some (failed_volume v e)) | None =>
      match delete_volume W v st2 with (st, Ok _) => (st, None) | (st, Err e) => (st, Some (failed_volume v e)) end end = (st', e)) as (st2 & kept & Ek & E').
  { destruct b; [|by eexists st1, None]. destruct (try_dests _ _ _ _ _ _) as [st2 kept]. by exists st2, kept. }
  clear E. assert (grown mild (past st) (past st2) /\ (kept = None -> nothing_lost v (past st2) (past st))) as [(l & Hl & Hm) Hn].
  { destruct b eqn:Eb.
    - pose proof (try_dests_gentle v (match offBox (db st1) v with Some off => [off; dest] | None => [dest] end) None st1) as H. rewrite Ek in H.
      split; [exact (grown_trans mild _ (past st1) _ (grown_one mild _ (EHolds v, true) eq_refl) H)|]. intros ->.
      apply try_dests_None in Ek as (h0 & l0 & -> & _ & Hk); [|by destruct (offBox _ _)]. right. exists (l0 ++ [(EHolds v, true)]). by rewrite <-app_assoc.
    - injection Ek as <- <-. split; [by apply grown_one|]. intros _. left. left. }
  destruct kept as [x|]; [injection E' as <- _; left; by exists l|]. right. exists l. rewrite <-Hl.
  unfold delete_volume, call in E'. destruct (ask W (past st2) (ERemove v)) as [x|]; injection E' as <- _;
    [exists false|exists true]; (split_and!; [done|done|by apply Hn]).
Qed.

(** The orphans of one pass. *)
Definition orphans_safe (h h' : hist) : Prop :=
  exists l, h' = l ++ h /\ forall l2 v ok l1, l = l2 ++ (ERemove v, ok) :: l1 ->
    (EHolds v, false) ∈ l1 ++ h \/ exists l0, kept_copy v (l1 ++ h) (l0 ++ h).

Lemma not_mild_split (l l2 l1 : hist) x : Forall mild l -> ~ mild x -> l <> l2 ++ x :: l1.
Proof. intros Hl Hx ->. apply Forall_app in Hl as [_ Hl]. by inversion Hl. Qed.

Lemma orphans_safe_step h h1 h2 v : (grown mild h h1 \/
  exists l ok, h1 = (ERemove v, ok) :: l ++ h /\ Forall mild l /\ nothing_lost v (l ++ h) h) -> orphans_safe h1 h2 -> orphans_safe h h2.
Proof.
  intros H1 (m & -> & Hm). assert (exists l, h1 = l ++ h) as [l Hl].
  { destruct H1 as [(l & -> & _)|(l & ok & -> & _)]; [by exists l|by exists ((ERemove v, ok) :: l)]. }
  exists (m ++ l). split; [by rewrite Hl, app_assoc|]. intros l2 u ok l1 E.
  assert ((exists k, m = l2 ++ (ERemove u, ok) :: k /\ l1 = k ++ l) \/ exists k, l = k ++ (ERemove u, ok) :: l1) as [(k & -> & ->)|(k & Ek)].
  { apply app_eq_inv in E as [(k & E1 & E2)|(k & E1 & E2)]; [|right; by exists k].
    destruct k as [|x k]; [right; exists []; by rewrite E2|]. injection E2 as <- ->. left. by exists k. }
  - destruct (Hm l2 u ok k eq_refl) as [Hx|(l0 & Hk)]; rewrite <-app_assoc, <-Hl; [by left|]. right. exists (l0 ++ l). by rewrite <-app_assoc, <-Hl.
  - destruct H1 as [(l' & Hl' & Hmild)|(l' & ok' & Hl' & Hmild & Hn)]; rewrite Hl in Hl'.
    + apply app_inv_tail in Hl' as <-. by destruct (not_mild_split _ _ _ (ERemove u, ok) Hmild ltac:(done) Ek).
    + change ((ERemove v, ok') :: l' ++ h) with (((ERemove v, ok') :: l') ++ h) in Hl'. apply app_inv_tail in Hl'. rewrite Ek in Hl'.
      destruct k as [|x k]; [|injection Hl' as _ Hl'; by destruct (not_mild_split _ _ _ (ERemove u, ok) Hmild ltac:(done) (eq_sym Hl'))].
      injection Hl' as <- <- <-. exact Hn.
Qed.

(** C33. The orphan job loses nothing: it deletes a volume only after it was
    measured to hold no data, or after a backup of that volume, under its own
    root, was uploaded and its run closed as done; a volume whose backup
    failed everywhere is not touched. *)
Theorem Orphans_lose_nothing dest st st' r : Orphans W hold dest st = (st', r) -> orphans_safe (past st) (past st').
Proof.
  unfold Orphans. destruct (w_expired W (past st)) as [vs|e].
  2: { intros [= <- _]. exists []. split; [done|]. intros [|x l2] v ok l1; discriminate. }
  assert (orphans_safe (past st) (past (fst (orphans W hold dest vs st)))) as H.
  { revert st. induction vs as [|v vs IH]; intros st; cbn [orphans].
    - exists []. split; [done|]. intros [|x l2] v ok l1; discriminate.
    - destruct (orphan W hold dest v st) as [st1 e] eqn:E. apply orphan_cases in E. specialize (IH st1).
      destruct (orphans W hold dest vs st1) as [st2 es]. exact (orphans_safe_step _ _ _ v E IH). }
  destruct (orphans W hold dest vs st) as [st1 es]. by intros [= <- _].
Qed.
End Orphan_proofs.

(** ** The theorems at work *)

(** An outside that does all it is asked, but for the calls [bad] picks. *)
Definition willing (bad : event -> bool) : World := MkWorld
  (fun _ e => if bad e then Some (New "refused") else None) (fun _ e => match e with EFirstLine => false | _ => true end)
  (fun h => "run-" +:+ itoa (Z.of_nat (length h))) (fun h => Z.of_nat (length h)) (fun h => MkCivil 2024 1 1 0 0 (Z.of_nat (length h)))
  (fun _ => 10) (fun _ => None) (fun _ _ _ => Some []) (fun _ => Ok [MkVolume "v" "env" "e" None "data" "vol-data" (Some 0) 0 ""])
  (fun _ => "refused").

Definition wvol : Volume := MkVolume "v" "env" "e" None "data" "vol-data" None 0 "".
Definition wd : BackupDest := MkDest "d" None Local Local "/data" "" "" "" "" "k" true 0 "" "".
Definition wsubject : Subject := MkSubject wvol ["tile"] "" [] [] [] "".
Definition wspec : Spec := MkSpec wd (Prefix "o" "v" "") None "manual" Pause 14 false "".
Definition wstate : St := mk_st (MkDb [wd] [] [MkRun "r" KindVolume (Some "v") None "d" "manual" Done "stackr/o/v/manual/1.tar.gz.age" 9 "" 5 (Some 6) None 0 0 ""]) [] [].
Definition wrestore : Restore_in := MkRestore "r" "v" wsubject wspec false true.

Lemma Restore_order_witness :
  (exists pre before ok, wiped wrestore [] (past (fst (Restore (willing (fun _ => false)) None wrestore wstate))) before ok /\
     r_Status pre = Done /\ grew [] before (EPut "d" (r_ObjectKey pre), true)) /\
  (exists l, past (fst (Restore (willing (fun e => match e with EPut _ _ => true | _ => false end)) None wrestore wstate)) = l ++ [] /\ Forall mild l).
Proof.
  split.
  - destruct (Restore (willing (fun _ => false)) None wrestore wstate) as [st r] eqn:E.
    destruct (Restore_order _ None wrestore wstate st r E) as [[_ [e He]]|(run & pre & before & ok & _ & Hw & Hp & _)].
    + assert (r = Ok tt) as Hr by (change r with (snd (st, r)); rewrite <-E; vm_compute; reflexivity). congruence.
    + exists pre, before, ok. split; [exact Hw|]. destruct (pp_backed _ _ _ _ _ _ Hp). done.
  - match goal with |- context [Restore ?W None wrestore wstate] => destruct (Restore W None wrestore wstate) as [st r] eqn:E end.
    destruct (Restore_order _ None wrestore wstate st r E) as [[Hl _]|(run & pre & before & ok & _ & [(after & Ha & _) _ _ _] & _)]; [exact Hl|].
    exfalso. assert (forallb (fun x => negb (danger x.1)) (past st) = true) as Hf by (change st with (fst (st, r)); rewrite <-E; vm_compute; reflexivity).
    rewrite Ha, forallb_app in Hf. apply andb_true_iff in Hf as [_ Hf]. discriminate Hf.
Defined.

Lemma Orphans_lose_nothing_witness :
  let W := willing (fun e => match e with ETar _ _ => true | _ => false end) in
  (forall ok, (ERemove wvol, ok) ∉ past (fst (Orphans W None wd wstate))) /\
  orphans_safe [] (past (fst (Orphans (willing (fun _ => false)) None wd wstate))) /\
  existsb (fun x => danger x.1) (past (fst (Orphans (willing (fun _ => false)) None wd wstate))) = true.
Proof.
  split; [|split].
  - intros ok Hin. assert (forallb (fun x => negb (danger x.1)) (past (fst (Orphans (willing (fun e => match e with ETar _ _ => true | _ => false end)) None wd wstate))) = true) as Hf
      by (vm_compute; reflexivity).
    rewrite forallb_forall in Hf. apply list_elem_of_In, Hf in Hin. discriminate Hin.
  - destruct (Orphans (willing (fun _ => false)) None wd wstate) as [st r] eqn:E.
    exact (Orphans_lose_nothing (willing (fun _ => false)) None wd wstate st r E).
  - vm_compute. reflexivity.
Defined.
