(* ===== verification/BackupCloses.v ===== *)
(** * What a backup flow gives back ([flow/backup/backup.go])

    Stopped tiles are started again, frozen ones thawed, spools and scratch
    files dropped, the panel's lock and the claim on a volume released, on
    every path. *)
From S2P Require Import Prelude GoStrings Errs Rows Backup Outside BackupFlow.

(** ** What is open *)

Inductive resource := RStopped (ts : list Tile) | RFrozen (ts : list Tile) | RSpool (id : string) | RLocked | RFile (f : string).
#[export] Instance resource_eq_dec : EqDecision resource.
Proof. solve_decision. Defined.

(** What a history entry takes where it succeeds, may leave behind even where
    it fails, and gives back. *)
Definition takes (e : event) : option resource :=
  match e with EQuiesce ts => Some (RStopped ts) | EFreeze ts => Some (RFrozen ts) | ESpool id => Some (RSpool id) | ELock => Some RLocked | _ => None end.
Definition gives (e : event) : option resource :=
  match e with EResume ts => Some (RStopped ts) | EThaw ts => Some (RFrozen ts) | EDrop id => Some (RSpool id) | EUnlock => Some RLocked | EUnlink f => Some (RFile f) | _ => None end.
Definition tries (e : event) : option resource := match e with EVacuum => Some (RFile db_file) | ECreate f => Some (RFile f) | _ => None end.
Definition change (x : resource) (p : event * bool) : Z :=
  (if p.2 && bool_decide (takes p.1 = Some x) then 1 else 0) + (if bool_decide (tries p.1 = Some x) then 1 else 0) - (if bool_decide (gives p.1 = Some x) then 1 else 0).
(** How often [x] is held. *)
Fixpoint held (x : resource) (h : hist) : Z := match h with [] => 0 | p :: h => change x p + held x h end.
Definition one (x y : resource) : Z := if bool_decide (y = x) then 1 else 0.

(** [f] changes what is held by [c], and no claim. *)
Definition shifts (c : resource -> Z) {A} (f : St -> St * A) : Prop :=
  forall st, running (f st).1 = running st /\ forall x, held x (past (f st).1) = held x (past st) + c x.
Definition shifts_fn (c : resource -> Z) (f : St -> St) : Prop :=
  forall st, running (f st) = running st /\ forall x, held x (past (f st)) = held x (past st) + c x.
(** [m] holds [y] more exactly when it succeeds. *)
Definition acquires (y : resource) {A} (m : M A) : Prop :=
  forall st, running (m st).1 = running st /\ forall x, held x (past (m st).1) = held x (past st) + if is_ok (m st).2 then one x y else 0.

Definition none (x : resource) : Z := 0.
Abbreviation neutral := (shifts none).
Definition plain (e : event) : bool := match takes e, tries e, gives e with None, None, None => true | _, _, _ => false end.

Lemma plain_change x e b : plain e = true -> change x (e, b) = 0.
Proof. unfold plain, change. cbn [fst snd]. destruct (takes e), (tries e), (gives e); try done. intros _. by rewrite andb_false_r. Qed.

Section Shifts.
Lemma shifts_refl (st : St) : forall x, held x (past st) = held x (past st) + none x.
Proof. unfold none. lia. Qed.
Lemma neutral_ret {A} (a : A) : neutral (ret a).
Proof. intros st. split; [done|apply shifts_refl]. Qed.
Lemma neutral_fail {A} e : shifts none (A := res A) (fail e).
Proof. intros st. split; [done|apply shifts_refl]. Qed.
Lemma neutral_bind {A B} (m : M A) (k : A -> M B) : neutral m -> (forall a, neutral (k a)) -> neutral (bind m k).
Proof.
  intros Hm Hk st. unfold bind. destruct (Hm st) as [R1 H1]. destruct (m st) as [st1 [a|e]]; [|done]. cbn [fst] in *.
  destruct (Hk a st1) as [R2 H2]. split; [congruence|]. intros x. rewrite H2, H1. unfold none. lia.
Qed.
Lemma neutral_wrapped {A} w (m : M A) : neutral m -> neutral (wrapped w m).
Proof. intros Hm st. unfold wrapped. specialize (Hm st). by destruct (m st) as [st1 [a|e]]. Qed.
Lemma neutral_lift {A} (f : Db -> res A) : neutral (lift f).
Proof. intros st. split; [done|apply shifts_refl]. Qed.
Lemma neutral_lift_db {A} (f : Db -> res (Db * A)) : neutral (lift_db f).
Proof. intros st. unfold lift_db. destruct (f (db st)) as [[d a]|e]; (split; [done|exact (shifts_refl st)]). Qed.

(** Taking, then working, then giving back in the deferred call. *)
Lemma neutral_held {A B} y (m : M A) (k : A -> M B) f : acquires y m -> shifts_fn (fun x => - one x y) f -> (forall a, neutral (k a)) ->
  neutral (bind m (fun a => defer f (k a))).
Proof.
  intros Hm Hf Hk st. unfold bind. destruct (Hm st) as [R1 H1]. destruct (m st) as [st1 [a|e]]; cbn [fst snd is_ok] in *.
  - unfold defer. destruct (Hk a st1) as [R2 H2]. destruct (k a st1) as [st2 r]. cbn [fst] in *. destruct (Hf st2) as [R3 H3].
    split; [congruence|]. intros x. rewrite H3, H2, H1. unfold none. lia.
  - split; [done|]. intros x. rewrite H1. unfold none. lia.
Qed.

Lemma shifts_give e y : takes e = None -> tries e = None -> gives e = Some y -> shifts_fn (fun x => - one x y) (log_event e true).
Proof.
  intros Ht Hy Hg st. split; [done|]. intros x. cbn [held past log_event]. unfold change, one. cbn [fst snd]. rewrite Ht, Hy, Hg.
  rewrite (bool_decide_eq_false_2 (None = Some x)) by done. destruct (decide (y = x)) as [->|Hn].
  - rewrite !bool_decide_eq_true_2 by done. cbn. lia.
  - rewrite !bool_decide_eq_false_2 by congruence. cbn. lia.
Qed.

Context (W : World).
Lemma neutral_call e : plain e = true -> neutral (call W e).
Proof.
  intros Hp st. unfold call. destruct (ask W (past st) e); (split; [done|]); intros x; cbn [fst past log_event held];
    rewrite plain_change by done; unfold none; lia.
Qed.
Lemma neutral_quiet e : plain e = true -> shifts_fn none (quiet W e).
Proof. intros Hp st. exact (neutral_call e Hp st). Qed.
Lemma neutral_asks e : plain e = true -> neutral (asks W e).
Proof. intros Hp st. unfold asks. split; [done|]. intros x. cbn [fst past log_event held]. rewrite plain_change by done. unfold none. lia. Qed.
Lemma neutral_counted : neutral (counted W).
Proof. intros st. split; [done|apply shifts_refl]. Qed.
Lemma acquires_call e y : takes e = Some y -> tries e = None -> gives e = None -> acquires y (call W e).
Proof.
  intros Ht Hy Hg st. unfold call. destruct (ask W (past st) e); (split; [done|]); intros x; cbn [fst snd is_ok past log_event held];
    unfold change, one; cbn [fst snd]; rewrite ?Ht, ?Hy, ?Hg; rewrite (bool_decide_eq_false_2 (None = Some x)) by done; cbn [andb]; [lia|].
  destruct (decide (y = x)) as [->|Hn].
  - rewrite !bool_decide_eq_true_2 by done. lia.
  - rewrite !bool_decide_eq_false_2 by congruence. lia.
Qed.
(** An attempt counts whether it succeeds or not. *)
Lemma shifts_try e y : takes e = None -> tries e = Some y -> gives e = None -> shifts (fun x => one x y) (call W e).
Proof.
  intros Ht Hy Hg st. unfold call. destruct (ask W (past st) e); (split; [done|]); intros x; cbn [fst past log_event held];
    unfold change, one; cbn [fst snd]; rewrite ?Ht, ?Hy, ?Hg, !(bool_decide_eq_false_2 (None = Some x)) by done; rewrite ?andb_false_r;
    (destruct (decide (y = x)) as [->|Hn]; [rewrite !bool_decide_eq_true_2 by done|rewrite !bool_decide_eq_false_2 by congruence]; lia).
Qed.
Lemma shifts_wrapped {A} c w (m : M A) : shifts c m -> shifts c (wrapped w m).
Proof. intros Hm st. unfold wrapped. specialize (Hm st). by destruct (m st) as [st1 [a|e]]. Qed.
Lemma shifts_then {A B} c (m : M A) (k : A -> M B) : shifts c m -> (forall a, neutral (k a)) -> shifts c (bind m k).
Proof.
  intros Hm Hk st. unfold bind. destruct (Hm st) as [R1 H1]. destruct (m st) as [st1 [a|e]]; [|done]. cbn [fst] in *.
  destruct (Hk a st1) as [R2 H2]. split; [congruence|]. intros x. rewrite H2, H1. unfold none. lia.
Qed.
Lemma neutral_defer {A} y (m : M A) f : shifts (fun x => one x y) m -> shifts_fn (fun x => - one x y) f -> neutral (defer f m).
Proof.
  intros Hm Hf st. unfold defer. destruct (Hm st) as [R1 H1]. destruct (m st) as [st1 r]. cbn [fst] in *. destruct (Hf st1) as [R2 H2].
  split; [congruence|]. intros x. rewrite H2, H1. unfold none. lia.
Qed.
Lemma acquires_after {A B} y (m : M A) (k : A -> M B) : neutral m -> (forall a, acquires y (k a)) -> acquires y (bind m k).
Proof.
  intros Hm Hk st. unfold bind. destruct (Hm st) as [R1 H1]. destruct (m st) as [st1 [a|e]]; cbn [fst snd is_ok] in *.
  - destruct (Hk a st1) as [R2 H2]. split; [congruence|]. intros x. rewrite H2, H1. unfold none. lia.
  - split; [done|]. intros x. rewrite H1. done.
Qed.

Lemma claimed_gives_back {A} id slug (m : M A) : neutral m -> neutral (claimed id slug m).
Proof.
  intros Hm st. unfold claimed, claim. destruct (contains_spec (running st) id) as [|Hn]; [split; [done|apply shifts_refl]|].
  unfold defer. destruct (Hm (mk_st (db st) (id :: running st) (past st))) as [R1 H1]. destruct (m _) as [st1 r]. cbn [fst running past release] in *.
  split; [|exact H1]. change (running (release id st1)) with (List.filter (fun x => negb (String.eqb x id)) (running st1)).
  rewrite R1. change (running (mk_st _ _ _)) with (id :: running st). cbn [List.filter]. rewrite String.eqb_refl. cbn [negb]. revert Hn. generalize (running st). clear.
  induction l as [|y l IH]; [done|]. intros Hn. cbn [List.filter]. rewrite (proj2 (String.eqb_neq y id)) by set_solver. cbn [negb].
  by rewrite IH by set_solver.
Qed.
End Shifts.

Create HintDb neutral.
#[export] Hint Resolve neutral_ret neutral_fail neutral_bind neutral_wrapped neutral_lift neutral_lift_db neutral_call neutral_quiet
  neutral_asks neutral_counted acquires_call acquires_after shifts_give claimed_gives_back : neutral.
#[export] Hint Extern 1 (plain _ = true) => reflexivity : neutral.
#[export] Hint Extern 1 (takes _ = _) => reflexivity : neutral.
#[export] Hint Extern 1 (gives _ = _) => reflexivity : neutral.
#[export] Hint Extern 1 (tries _ = _) => reflexivity : neutral.

Section Flows.
Context (W : World) (hold : option Z).

Lemma spool_acquires id : acquires (RSpool id) (spool W id).
Proof. unfold spool. auto with neutral. Qed.
Lemma drop_gives id : shifts_fn (fun x => - one x (RSpool id)) (drop_spool id).
Proof. unfold drop_spool. auto with neutral. Qed.

Lemma checkSpace_neutral v : neutral (checkSpace W v).
Proof.
  intros st. unfold checkSpace. destruct (_ <=? 0); [split; [done|exact (shifts_refl st)]|].
  pose proof (neutral_call W EMkdir eq_refl st) as H. destruct (call W EMkdir st) as [st1 [a|e]]; [|exact H].
  destruct (w_free W _); [|exact H]. by destruct (_ && _).
Qed.

Lemma shifts_trans st st1 st2 c1 c2 : (running st1 = running st /\ forall x, held x (past st1) = held x (past st) + c1 x) ->
  (running st2 = running st1 /\ forall x, held x (past st2) = held x (past st1) + c2 x) ->
  running st2 = running st /\ forall x, held x (past st2) = held x (past st) + (c1 x + c2 x).
Proof. intros [R1 H1] [R2 H2]. split; [congruence|]. intros x. rewrite H2, H1. lia. Qed.
Lemma neutral_trans st st1 st2 : (running st1 = running st /\ forall x, held x (past st1) = held x (past st) + none x) ->
  (running st2 = running st1 /\ forall x, held x (past st2) = held x (past st1) + none x) ->
  running st2 = running st /\ forall x, held x (past st2) = held x (past st) + none x.
Proof. apply shifts_trans. Qed.

Lemma waited_neutral (m k : M unit) : neutral m -> neutral k ->
  neutral (fun st => match m st with (st, Err e) => (quiet W EWait st, Err e) | (st, Ok _) => k st end).
Proof.
  intros Hm Hk st. specialize (Hm st). destruct (m st) as [st1 [a|e]]; [exact (neutral_trans _ _ _ Hm (Hk st1))|].
  exact (neutral_trans _ _ _ Hm (neutral_quiet W EWait eq_refl st1)).
Qed.
Lemma dump_neutral s : neutral (dump W s).
Proof.
  unfold dump. apply neutral_bind; [auto with neutral|]. intros _. apply waited_neutral; [auto with neutral|]. apply waited_neutral; auto with neutral.
Qed.

Lemma stopping_neutral {A} ts (m : M A) : neutral m -> neutral (stopping W ts m).
Proof. intros Hm. unfold stopping, resume. apply (neutral_held (RStopped ts)); auto with neutral. Qed.

Lemma tar_neutral s mode hd : neutral (tar W s mode hd).
Proof.
  unfold tar, thaw. apply neutral_bind; [auto with neutral|]. intros _. destruct hd; [auto with neutral|]. destruct (String.eqb mode Live); [auto with neutral|].
  destruct (String.eqb mode Stop); [apply stopping_neutral; auto with neutral|].
  apply (neutral_held (RFrozen (sj_Holders s))); auto with neutral.
Qed.
Lemma produce_neutral s sp : neutral (produce W s sp).
Proof.
  unfold produce. apply neutral_bind; [auto with neutral|]. intros _. apply neutral_bind; [|auto with neutral].
  destruct (dumps s); [apply dump_neutral|apply tar_neutral].
Qed.
#[local] Hint Resolve produce_neutral : neutral.

Lemma put_neutral d key : neutral (put W d key).
Proof. unfold put. auto with neutral. Qed.
#[local] Hint Resolve put_neutral : neutral.
Lemma stream_neutral d key p : neutral p -> neutral (stream W d key p).
Proof. intros Hp. unfold stream. auto 8 with neutral. Qed.
Lemma upload_neutral s sp key : neutral (upload_spooled W s sp key).
Proof. unfold upload_spooled. apply (neutral_held (RSpool (or_str (v_ID (sj_Volume s)) "group"))); [apply spool_acquires|apply drop_gives|]. auto 12 with neutral. Qed.

Lemma write_neutral s sp : neutral (write W s sp).
Proof.
  intros st. unfold write. destruct (dumps s || String.eqb (sp_Mode sp) Live).
  - cbn [ret]. match goal with |- context [stream W ?d ?k ?p st] => pose proof (stream_neutral d k p (produce_neutral s sp) st) as H1;
      destruct (stream W d k p st) as [st2 [n|e]]; exact H1 end.
  - pose proof (checkSpace_neutral (sj_Volume s) st) as H0. destruct (checkSpace W (sj_Volume s) st) as [st1 [u|e]]; [|exact H0].
    match goal with |- context [upload_spooled W s sp ?k st1] => pose proof (upload_neutral s sp k st1) as H1;
      destruct (upload_spooled W s sp k st1) as [st2 [n|e]]; exact (neutral_trans _ _ _ H0 H1) end.
Qed.

Lemma delete_keys_held d protect ks h x : held x (fst (delete_keys (H := open W d) protect ks h)) = held x h.
Proof.
  revert h. induction ks as [|k ks IH]; intros h; cbn [delete_keys]; [done|]. destruct (contains protect k); [apply IH|].
  cbn [o_delete open]. destruct (w_ask W h _); cbn iota beta.
  - pose proof (IH ((EDelete (d_ID d) k, false) :: h)) as H. destruct (delete_keys _ _ _) as [h' g]. exact H.
  - pose proof (IH ((EDelete (d_ID d) k, true) :: h)) as H. destruct (delete_keys _ _ _) as [h' g]. exact H.
Qed.
Lemma prune_neutral d prefix keep protect : shifts_fn none (prune W d prefix keep protect).
Proof.
  intros st. unfold prune, Prune. destruct (keep <=? 0); [split; [done|exact (shifts_refl st)]|].
  destruct (o_list _ _) as [keys|]; [|split; [done|exact (shifts_refl st)]]. destruct (_ <=? keep); [split; [done|exact (shifts_refl st)]|].
  match goal with |- context [delete_keys ?p ?k ?h] => pose proof (delete_keys_held d p k h) as H; destruct (delete_keys p k h) as [h' g] end.
  cbn [running past fst] in *. split; [done|]. intros x. rewrite H. unfold none. lia.
Qed.
Lemma finish_neutral r key size err : neutral (finish W r key size err).
Proof.
  intros st. unfold finish. destruct (Finish _ _ _ _ _ _) as [[d r']|e]; (split; [done|]); [|exact (shifts_refl st)].
  intros x. cbn [fst past log_event held set_db mk_st]. rewrite plain_change by done. unfold none. lia.
Qed.

Lemma backup_neutral s sp : neutral (backup W hold s sp).
Proof.
  intros st. unfold backup. match goal with |- context [lift_db ?f st] => pose proof (neutral_lift_db f st) as H0; destruct (lift_db f st) as [st1 [r|e]] end;
    [|exact H0].
  pose proof (write_neutral s sp st1) as H1. destruct (write W s sp st1) as [st2 [[key size] err]].
  pose proof (finish_neutral r key size err st2) as H2. pose proof (neutral_trans _ _ _ H0 (neutral_trans _ _ _ H1 H2)) as H. clear H0 H1 H2.
  destruct (finish W r key size err st2) as [st3 [x|fe]]; cbn [fst] in H; (destruct (errors_join _); [exact H|]);
    (destruct (String.eqb _ PreRestore); [exact H|]); (destruct (pruneHeld _ _ _ _ _ _); [exact H|]);
    exact (neutral_trans _ _ _ H (prune_neutral _ _ _ _ st3)).
Qed.
#[local] Hint Resolve backup_neutral stopping_neutral : neutral.

Lemma fetch_acquires d key id : acquires (RSpool (spool_id id)) (fetch W d key id).
Proof.
  unfold fetch. apply acquires_after; [auto with neutral|]. intros _. apply acquires_after; [auto with neutral|]. intros _ st.
  unfold bind. destruct (spool_acquires (spool_id id) st) as [R1 H1]. destruct (spool W (spool_id id) st) as [st1 [u|e]]; cbn [fst snd is_ok] in *; [|done].
  destruct (neutral_wrapped "download: %w" _ (neutral_call W ECopy eq_refl) st1) as [R2 H2].
  destruct (wrapped _ _ st1) as [st2 [v|e]]; cbn [fst] in *.
  - destruct (_ <? _); cbn [fst snd is_ok].
    + destruct (drop_gives (spool_id id) st2) as [R3 H3]. split; [congruence|]. intros x. rewrite H3, H2, H1. unfold none. lia.
    + split; [congruence|]. intros x. rewrite H2, H1. unfold none. lia.
  - destruct (drop_gives (spool_id id) st2) as [R3 H3]. split; [congruence|]. intros x. cbn [fst snd is_ok]. rewrite H3, H2, H1. unfold none. lia.
Qed.

Lemma load_neutral t : neutral (load W t).
Proof. unfold load. destruct (sj_Consumers t); auto 8 with neutral. Qed.
#[local] Hint Resolve load_neutral : neutral.
Lemma vet_neutral i : neutral (vet W i).
Proof.
  unfold vet. destruct (_ && _); [|auto with neutral]. apply neutral_bind; [auto 8 with neutral|]. intros _.
  apply neutral_bind; [auto with neutral|]. intros []; auto with neutral.
Qed.
Lemma wipe_neutral i : neutral (wipe W i).
Proof.
  unfold wipe. apply neutral_bind; [auto with neutral|]. intros _. apply neutral_bind; [destruct (in_Swap i); auto with neutral|]. intros _.
  destruct (dumps (in_Target i)); auto with neutral.
Qed.
Lemma then_prune_neutral p m : neutral m -> neutral (then_prune W p m).
Proof.
  intros Hm st. unfold then_prune. specialize (Hm st). destruct (m st) as [st1 [u|e]]; [|exact Hm]. destruct (0 <? _); [|exact Hm].
  exact (neutral_trans _ _ _ Hm (prune_neutral _ _ _ _ st1)).
Qed.
Lemma restore_fetched_neutral i : neutral (restore_fetched W hold i).
Proof. unfold restore_fetched. auto 10 using vet_neutral, then_prune_neutral, wipe_neutral with neutral. Qed.

Lemma Restore_neutral i : neutral (Restore W hold i).
Proof.
  unfold Restore. apply claimed_gives_back, neutral_bind; [auto with neutral|]. intros run. destruct (negb _); [apply neutral_fail|].
  apply neutral_bind; [auto with neutral|]. intros d. apply (neutral_held (RSpool (spool_id (v_ID (sj_Volume (in_Target i)))))); [apply fetch_acquires|apply drop_gives|].
  intros _. apply restore_fetched_neutral.
Qed.

Lemma Backup_neutral s sp : neutral (Backup W hold s sp).
Proof. apply claimed_gives_back, backup_neutral. Qed.

Lemma try_dests_neutral v ds last : neutral (try_dests W hold v ds last).
Proof.
  revert last. induction ds as [|d ds IH]; intros last st; cbn [try_dests]; [split; [done|exact (shifts_refl st)]|].
  pose proof (Backup_neutral (orphan_subject v) (orphan_spec d v) st) as H. destruct (Backup W hold _ _ st) as [st1 [x|e]]; [exact H|].
  exact (neutral_trans _ _ _ H (IH (Some e) st1)).
Qed.

Lemma delete_volume_neutral v : neutral (delete_volume W v).
Proof.
  intros st. unfold delete_volume. pose proof (neutral_call W (ERemove v) eq_refl st) as H. by destruct (call W (ERemove v) st) as [st1 [u|e]].
Qed.

Lemma orphan_neutral dest v : neutral (orphan W hold dest v).
Proof.
  intros st. unfold orphan. pose proof (neutral_asks W (EHolds v) eq_refl st) as H0. destruct (asks W (EHolds v) st) as [st1 [b|e]]; cbn [fst] in H0.
  - destruct b.
    + match goal with |- context [try_dests W hold v ?ds None st1] => pose proof (try_dests_neutral v ds None st1) as H1; destruct (try_dests W hold v ds None st1) as [st2 [x|]] end.
      * exact (neutral_trans _ _ _ H0 H1).
      * pose proof (delete_volume_neutral v st2) as H2. destruct (delete_volume W v st2) as [st3 [u|e]]; exact (neutral_trans _ _ _ H0 (neutral_trans _ _ _ H1 H2)).
    + pose proof (delete_volume_neutral v st1) as H2. destruct (delete_volume W v st1) as [st3 [u|e]]; exact (neutral_trans _ _ _ H0 H2).
  - pose proof (delete_volume_neutral v st1) as H2. destruct (delete_volume W v st1) as [st3 [u|e']]; exact (neutral_trans _ _ _ H0 H2).
Qed.

Lemma orphans_neutral dest vs : neutral (orphans W hold dest vs).
Proof.
  induction vs as [|v vs IH]; intros st; cbn [orphans]; [split; [done|exact (shifts_refl st)]|].
  pose proof (orphan_neutral dest v st) as H. destruct (orphan W hold dest v st) as [st1 e]. specialize (IH st1).
  destruct (orphans W hold dest vs st1) as [st2 es]. exact (neutral_trans _ _ _ H IH).
Qed.

Lemma unlink_gives f : shifts_fn (fun x => - one x (RFile f)) (unlink f).
Proof. unfold unlink. auto with neutral. Qed.
(** The proxy's tar: held where a path comes back. *)
Lemma panelCaddy_shifts p st : let '(st', caddy) := panelCaddy W p st in running st' = running st /\
  forall x, held x (past st') = held x (past st) + if String.eqb caddy "" then 0 else one x (RFile caddy).
Proof.
  unfold panelCaddy. destruct (p_Caddy p); [|split; [done|cbn; lia]].
  destruct (shifts_try W (ECreate caddy_file) (RFile caddy_file) eq_refl eq_refl eq_refl st) as [R1 H1]. destruct (call W (ECreate caddy_file) st) as [st1 [u|e]]; cbn [fst] in *.
  2: { destruct (unlink_gives caddy_file st1) as [R2 H2]. split; [congruence|]. intros x. rewrite H2, H1. cbn. lia. }
  destruct (neutral_call W ECaddy eq_refl st1) as [R2 H2]. destruct (call W ECaddy st1) as [st2 r]. cbn [fst] in *.
  destruct (neutral_call W EClose eq_refl st2) as [R3 H3]. destruct (call W EClose st2) as [st3 c]. cbn [fst] in *.
  destruct (unlink_gives caddy_file st3) as [R4 H4].
  destruct r as [r|e]; [destruct c as [c|e]|]; (split; [congruence|]); intros x; rewrite ?H4, H3, H2, H1; unfold none; cbn; lia.
Qed.
Lemma archive_neutral p : neutral (fun st => let '(st, caddy) := panelCaddy W p st in
  defer (unlink_caddy caddy) (_ <~ call W EEncrypt ;; _ <~ call W (EPanelTar caddy) ;; call W ESeal) st).
Proof.
  intros st. pose proof (panelCaddy_shifts p st) as H. destruct (panelCaddy W p st) as [st1 caddy]. destruct H as [R1 H1].
  assert (neutral (_ <~ call W EEncrypt ;; _ <~ call W (EPanelTar caddy) ;; call W ESeal)) as Hn by auto with neutral.
  unfold defer, unlink_caddy. destruct (Hn st1) as [R2 H2]. destruct (bind _ _ st1) as [st2 r]. cbn [fst] in *. destruct (String.eqb caddy "").
  - split; [congruence|]. intros x. rewrite H2, H1. unfold none. lia.
  - destruct (unlink_gives caddy st2) as [R3 H3]. split; [congruence|]. intros x. rewrite H3, H2, H1. unfold none. lia.
Qed.
Lemma locked_neutral (m : M unit) : neutral m -> neutral (fun st => defer (log_event EUnlock true) m (log_event ELock true st)).
Proof.
  intros Hm st. unfold defer. set (st0 := log_event ELock true st). destruct (Hm st0) as [R1 H1]. destruct (m st0) as [st1 r]. cbn [fst] in *.
  destruct (shifts_give EUnlock RLocked eq_refl eq_refl eq_refl st1) as [R2 H2]. split; [exact (eq_trans R2 R1)|].
  intros x. rewrite H2, H1. unfold st0, one, none. cbn [past log_event held]. unfold change. cbn [fst snd takes gives tries].
  destruct (bool_decide (Some RLocked = Some x)) eqn:E1, (bool_decide (RLocked = x)) eqn:E2; rewrite ?(bool_decide_eq_false_2 (None = Some x)) by done; cbn; try lia;
    [apply bool_decide_eq_true_1 in E1; apply bool_decide_eq_false_1 in E2|apply bool_decide_eq_false_1 in E1; apply bool_decide_eq_true_1 in E2]; congruence.
Qed.
Lemma panelArchive_neutral p : neutral (panelArchive W p).
Proof.
  unfold panelArchive. match goal with |- context [if p_Lock p then _ else ?b] => assert (neutral b) as Hb end.
  { apply (neutral_defer (RFile db_file)); [|apply unlink_gives]. apply shifts_then; [|intros _; apply archive_neutral]. by apply shifts_wrapped, shifts_try. }
  destruct (p_Lock p); [|exact Hb]. by apply locked_neutral.
Qed.

Lemma writePanel_neutral p dest : neutral (writePanel W p dest).
Proof.
  intros st. unfold writePanel. destruct (String.eqb (p_MasterKey p) ""); [split; [done|exact (shifts_refl st)]|].
  destruct (String.eqb (p_RecoveryPub p) ""); [split; [done|exact (shifts_refl st)]|].
  assert (acquires (RSpool "panel") (_ <~ wrapped "recovery key: %w" (call W ERecipient) ;; _ <~ call W EMkdir ;; spool W "panel")) as Ha.
  { apply acquires_after; [auto with neutral|]. intros _. apply acquires_after; [auto with neutral|]. intros _. apply spool_acquires. }
  destruct (Ha st) as [R1 H1]. destruct (bind _ _ st) as [st1 [u|e]]; cbn [fst snd is_ok] in *.
  2: { split; [done|]. intros x. rewrite H1. unfold none. lia. }
  assert (neutral (_ <~ panelArchive W p ;; n <~ counted W ;; _ <~ call W ESeek ;; ret n)) as Hn by auto 8 using panelArchive_neutral with neutral.
  destruct (Hn st1) as [R2 H2]. destruct (bind _ _ st1) as [st2 [n|e]]; cbn [fst] in *.
  - match goal with |- context [call W (EPut ?d ?k) st2] => destruct (neutral_call W (EPut d k) eq_refl st2) as [R3 H3]; destruct (call W (EPut d k) st2) as [st3 [v|e]] end;
      cbn [fst] in *; destruct (drop_gives "panel" st3) as [R4 H4]; (split; [rewrite R4; congruence|]); intros x; rewrite H4, H3, H2, H1; unfold none; lia.
  - destruct (drop_gives "panel" st2) as [R4 H4]. split; [rewrite R4; congruence|]. intros x. rewrite H4, H2, H1. unfold none. lia.
Qed.

Lemma PanelBackup_neutral p dest keep : neutral (PanelBackup W p dest keep).
Proof.
  intros st. unfold PanelBackup. match goal with |- context [lift_db ?f st] => pose proof (neutral_lift_db f st) as H0; destruct (lift_db f st) as [st1 [r|e]] end;
    [|exact H0].
  pose proof (writePanel_neutral p dest st1) as H1. destruct (writePanel W p dest st1) as [st2 [[key size] err]].
  match goal with |- context [finish W ?x key size err st2] => pose proof (finish_neutral x key size err st2) as H2; destruct (finish W x key size err st2) as [st3 [y|fe]] end;
    pose proof (neutral_trans _ _ _ H0 (neutral_trans _ _ _ H1 H2)) as H; cbn [fst] in H; (destruct (errors_join _); [exact H|]);
    exact (neutral_trans _ _ _ H (prune_neutral _ _ _ _ st3)).
Qed.

(** [f] gives back all it takes. *)
Definition gives_back {A} (f : M A) : Prop :=
  forall st, running (fst (f st)) = running st /\ forall x, held x (past (fst (f st))) = held x (past st).

Lemma neutral_gives_back {A} (f : M A) : neutral f -> gives_back f.
Proof. intros H st. destruct (H st) as [R Hx]. split; [done|]. intros x. rewrite Hx. unfold none. lia. Qed.

(** C34. Whatever the outside answers and wherever a flow fails, a backup, a
    restore, the orphan job and the panel's own backup leave nothing behind:
    every tile they stopped was started again and every frozen one thawed,
    every spool, decrypted archives among them, was dropped, the panel's copy of
    its database and of the proxy's volume were removed from the scratch space
    even where making them failed, the panel's lock was given up, and the claims on volumes are those from before. *)
Theorem flows_give_back : (forall s sp, gives_back (Backup W hold s sp)) /\ (forall i, gives_back (Restore W hold i)) /\
  (forall dest, gives_back (Orphans W hold dest)) /\ (forall p dest keep, gives_back (PanelBackup W p dest keep)).
Proof.
  split_and!; intros; apply neutral_gives_back.
  - apply Backup_neutral.
  - apply Restore_neutral.
  - intros st. unfold Orphans. destruct (w_expired W (past st)) as [vs|e]; [|split; [done|exact (shifts_refl st)]].
    pose proof (orphans_neutral dest vs st) as H. by destruct (orphans W hold dest vs st) as [st1 es].
  - apply PanelBackup_neutral.
Qed.
End Flows.
