(* ===== verification/GoNum.v ===== *)
(** * Go's numbers ([strconv], [float64])

    [strconv.Atoi], [ParseBool] and [ParseFloat] of 64 bits, the comparisons
    of float64, and its conversions to and from int.  A float64 is a
    [spec_float] of 53 bits: its mantissa, its exponent, and the zeros,
    infinities and NaN of IEEE 754. *)
From Stdlib Require Import SpecFloat.
From S2P Require Import Prelude GoStrings.

(** ** Whole numbers and booleans *)

Definition min_int : Z := - 2 ^ 63.
Definition max_int : Z := 2 ^ 63 - 1.
Fixpoint decimal (s : string) (acc : Z) : option Z :=
  match s with
  | EmptyString => Some acc
  | String c s => if is_digit c then decimal s (acc * 10 + (code c - 48)) else None
  end.
Definition unsign (s : string) : bool * string :=
  match s with
  | String "-" t => (true, t)
  | String "+" t => (false, t)
  | _ => (false, s)
  end.
(** [strconv.Atoi] on a 64-bit machine: a sign, digits, and no overflow. *)
Definition Atoi64 (s : string) : option Z :=
  let '(neg, t) := unsign s in
  if String.eqb t "" then None
  else match decimal t 0 with
       | Some n => let n := if neg then - n else n in if (min_int <=? n) && (n <=? max_int) then Some n else None
       | None => None
       end.
Definition ParseBool (s : string) : option bool :=
  if contains ["1"; "t"; "T"; "TRUE"; "true"; "True"] s then Some true
  else if contains ["0"; "f"; "F"; "FALSE"; "false"; "False"] s then Some false
  else None.

(** ** float64 *)

Abbreviation float := spec_float.
Definition fltb : float -> float -> bool := SFltb.
Definition fleb : float -> float -> bool := SFleb.
Definition feqb : float -> float -> bool := SFeqb.
Definition f0 : float := S754_zero false.
(** [float64(n)]. *)
Definition float_of (n : Z) : float := binary_normalize 53 1024 n 0 false.
(** [int(f)]: truncated; what the language leaves open, a float that is no
    int64, is [other]. *)
Definition int_of (other : Z) (f : float) : Z :=
  match f with
  | S754_zero _ => 0
  | S754_finite s m e =>
      let v := if 0 <=? e then Zpos m * 2 ^ e else Zpos m / 2 ^ (- e) in
      let v := if s then - v else v in
      if (min_int <=? v) && (v <=? max_int) then v else other
  | _ => other
  end.
Definition is_nan (f : float) : bool := match f with S754_nan => true | _ => false end.
Definition finite (f : float) : bool := match f with S754_nan | S754_infinity _ => false | _ => true end.

(** ** [strconv.ParseFloat(s, 64)] *)

Definition lower1 (c : ascii) : ascii := if is_upper c then ascii_of_nat (nat_of_ascii c + 32) else c.
Fixpoint lower (s : string) : string := match s with String c s => String (lower1 c) (lower s) | EmptyString => "" end.

(** The digits of a mantissa: their number, how many came after the dot, and
    whether there were a dot, a digit and an underscore. *)
Record scan := MkScan { sn_mant : Z; sn_frac : Z; sn_dot : bool; sn_seen : bool; sn_under : bool }.
Definition digit_of (hex : bool) (c : ascii) : option Z :=
  if is_digit c then Some (code c - 48)
  else if hex && byte_in "a" "f" (lower1 c) then Some (code (lower1 c) - 87) else None.
Fixpoint mantissa (hex : bool) (s : string) (a : scan) : scan * string :=
  match s with
  | EmptyString => (a, "")
  | String c s' =>
      if Ascii.eqb c "_" then mantissa hex s' (MkScan (sn_mant a) (sn_frac a) (sn_dot a) (sn_seen a) true)
      else if Ascii.eqb c "." then
        if sn_dot a then (a, s) else mantissa hex s' (MkScan (sn_mant a) (sn_frac a) true (sn_seen a) (sn_under a))
      else match digit_of hex c with
           | Some d => mantissa hex s' (MkScan (sn_mant a * (if hex then 16 else 10) + d) (if sn_dot a then sn_frac a + 1 else sn_frac a) (sn_dot a) true (sn_under a))
           | None => (a, s)
           end
  end.
(** The digits of an exponent, counted no further than ten thousand. *)
Fixpoint exponent (s : string) (e : Z) (under : bool) : Z * bool * string :=
  match s with
  | String c s' =>
      if Ascii.eqb c "_" then exponent s' e true
      else if is_digit c then exponent s' (if e <? 10000 then e * 10 + (code c - 48) else e) under
      else (e, under, s)
  | EmptyString => (e, under, "")
  end.
(** [underscoreOK]: an underscore stands between digits, or a base prefix and
    a digit; [saw] is the kind of the byte before. *)
Fixpoint under_ok (hex : bool) (s : string) (saw : ascii) : bool :=
  match s with
  | EmptyString => negb (Ascii.eqb saw "_")
  | String c s =>
      if is_digit c || (hex && byte_in "a" "f" (lower1 c)) then under_ok hex s "0"
      else if Ascii.eqb c "_" then Ascii.eqb saw "0" && under_ok hex s "_"
      else negb (Ascii.eqb saw "_") && under_ok hex s "!"
  end.
Definition underscoreOK (t : string) : bool :=
  match t with
  | String "0" (String b t') =>
      if contains_any "box" (String (lower1 b) "") then under_ok (Ascii.eqb (lower1 b) "x") t' "0" else under_ok false t "^"
  | _ => under_ok false t "^"
  end.

(** The float nearest to [m * base ^ e], ties to even. *)
Definition nearest (neg hex : bool) (m e : Z) : float :=
  match m with
  | Zpos p =>
      if hex then binary_round 53 1024 neg p e
      else if 0 <=? e then binary_round 53 1024 neg (p * Z.to_pos (10 ^ e)) 0
      else let '(q, e', l) := SFdiv_core_binary 53 1024 (Zpos p) 0 (10 ^ (- e)) 0 in binary_round_aux 53 1024 neg q e' l
  | _ => S754_zero neg
  end.
Definition read_float (s : string) : option float :=
  let '(neg, t) := unsign s in
  let '(hex, body) := match t with
    | String "0" (String x (String c r)) => if Ascii.eqb (lower1 x) "x" then (true, String c r) else (false, t)
    | _ => (false, t) end in
  let '(a, rest) := mantissa hex body (MkScan 0 0 false false false) in
  if negb (sn_seen a) then None
  else
    let dp := - sn_frac a * (if hex then 4 else 1) in
    match rest with
    | EmptyString => if hex || (sn_under a && negb (underscoreOK t)) then None else Some (nearest neg hex (sn_mant a) dp)
    | String c r =>
        if Ascii.eqb (lower1 c) (if hex then "p" else "e")%char then
          let '(eneg, r) := unsign r in
          match r with
          | String d _ =>
              if is_digit d then
                let '(e, under, rest) := exponent r 0 (sn_under a) in
                if negb (String.eqb rest "") || (under && negb (underscoreOK t)) then None
                else Some (nearest neg hex (sn_mant a) (dp + (if eneg then - e else e)))
              else None
          | EmptyString => None
          end
        else None
    end.
(** A number past the largest float is an error. *)
Definition ParseFloat (s : string) : option float :=
  let '(neg, t) := unsign s in
  if contains ["inf"; "infinity"] (lower t) then Some (S754_infinity neg)
  else if String.eqb (lower s) "nan" then Some S754_nan
  else match read_float s with
       | Some (S754_infinity _) => None
       | r => r
       end.

(** Values of amd64's own parser and arithmetic. *)
Example parse_floats : map ParseFloat ["1.5"; "0.1"; "-2"; "1e400"; "5e-324"; "NaN"; "-Infinity"; "infin"; "1_0.5"; "1__0"; "_1"; "0x1p-2"; "0x1"; "."; "1e"; ".5"; "0x_1p0"; "+nan"] =
  [Some (S754_finite false 6755399441055744 (-52)); Some (S754_finite false 7205759403792794 (-56)); Some (S754_finite true 4503599627370496 (-51)); None;
   Some (S754_finite false 1 (-1074)); Some S754_nan; Some (S754_infinity true); None; Some (S754_finite false 5910974510923776 (-49)); None; None;
   Some (S754_finite false 4503599627370496 (-54)); None; None; None; Some (S754_finite false 4503599627370496 (-53)); Some (S754_finite false 4503599627370496 (-52)); None].
Proof. vm_compute. reflexivity. Qed.
Example parse_rounds : map ParseFloat ["9007199254740993"; "9007199254740995"; "1.7976931348623157e308"; "1.7976931348623159e308"; "2e-324"; "-0"] =
  [Some (float_of 9007199254740992); Some (float_of 9007199254740996); Some (S754_finite false 9007199254740991 971); None; Some f0; Some (S754_zero true)].
Proof. vm_compute. reflexivity. Qed.

(** ** The order *)


(** Numbers that are not negative: zero of either sign, the positive ones and
    plus infinity; neither NaN nor anything below zero. *)
Definition nonneg (f : float) : bool :=
  match f with S754_zero _ | S754_infinity false | S754_finite false _ _ => true | _ => false end.
(** Their order is that of their kind, their exponent and their mantissa. *)
Definition rank (f : float) : Z := match f with S754_infinity _ => 2 | S754_finite _ _ _ => 1 | _ => 0 end.
Definition fexponent (f : float) : Z := match f with S754_finite _ _ e => e | _ => 0 end.
Definition fmantissa (f : float) : Z := match f with S754_finite _ m _ => Zpos m | _ => 0 end.
Definition below (a b : float) : Prop :=
  rank a < rank b \/ (rank a = rank b /\ (fexponent a < fexponent b \/ (fexponent a = fexponent b /\ fmantissa a < fmantissa b))).
Definition level (a b : float) : Prop := rank a = rank b /\ fexponent a = fexponent b /\ fmantissa a = fmantissa b.

Lemma compare_spec a b : nonneg a = true -> nonneg b = true ->
  exists c, SFcompare a b = Some c /\ match c with Lt => below a b | Eq => level a b | Gt => below b a end.
Proof.
  unfold below, level. destruct a as [[]|[]| |[] m e], b as [[]|[]| |[] m' e']; cbn; intros Ha Hb; try done; try (eexists; split; [reflexivity|cbn; lia]).
  eexists. split; [reflexivity|]. destruct (Z.compare_spec e e') as [->| |]; cbn; [|lia..].
  change (Pos.compare_cont Eq m m') with (Pos.compare m m'). destruct (Pos.compare_spec m m') as [->| |]; cbn; lia.
Qed.
Lemma fltb_below a b : nonneg a = true -> nonneg b = true -> fltb a b = true <-> below a b.
Proof.
  intros Ha Hb. destruct (compare_spec a b Ha Hb) as (c & Ec & Hc). unfold fltb, SFltb. rewrite Ec. unfold below, level in *. destruct c; split; (done || lia).
Qed.
Lemma fleb_below a b : nonneg a = true -> nonneg b = true -> fleb a b = true <-> below a b \/ level a b.
Proof.
  intros Ha Hb. destruct (compare_spec a b Ha Hb) as (c & Ec & Hc). unfold fleb, SFleb. rewrite Ec. unfold below, level in *. destruct c; split; (done || lia).
Qed.
Lemma feqb_level a b : nonneg a = true -> nonneg b = true -> feqb a b = true <-> level a b.
Proof.
  intros Ha Hb. destruct (compare_spec a b Ha Hb) as (c & Ec & Hc). unfold feqb, SFeqb. rewrite Ec. unfold below, level in *. destruct c; split; (done || lia).
Qed.
Lemma fleb_refl a : nonneg a = true -> fleb a a = true.
Proof. intros Ha. apply fleb_below; [done..|]. unfold level. lia. Qed.
Lemma fleb_trans a b c : nonneg a = true -> nonneg b = true -> nonneg c = true -> fleb a b = true -> fleb b c = true -> fleb a c = true.
Proof. intros Ha Hb Hc. rewrite !fleb_below by done. unfold below, level. lia. Qed.
Lemma fltb_fleb a b : nonneg a = true -> nonneg b = true -> fltb a b = true -> fleb a b = true.
Proof. intros Ha Hb. rewrite fltb_below, fleb_below by done. tauto. Qed.
Lemma fleb_total a b : nonneg a = true -> nonneg b = true -> fltb a b = false -> fleb b a = true.
Proof.
  intros Ha Hb Hf. apply fleb_below; [done..|]. destruct (compare_spec a b Ha Hb) as (c & Ec & Hc). revert Hf. unfold fltb, SFltb. rewrite Ec.
  unfold below, level in *. destruct c; (done || lia).
Qed.
(** Zero, or above it. *)
Lemma nonneg_cases a : nonneg a = true -> (feqb a f0 = true /\ fltb f0 a = false) \/ (feqb a f0 = false /\ fltb f0 a = true).
Proof. destruct a as [[]|[]| |[] m e]; cbn; intros H; try done; (by left) || by right. Qed.

(** ** Whole numbers as floats *)

Lemma digits2_bounds p : 2 ^ (Zpos (digits2_pos p) - 1) <= Zpos p < 2 ^ Zpos (digits2_pos p).
Proof.
  assert (forall q, Zpos (Pos.succ (digits2_pos q)) - 1 = Zpos (digits2_pos q)) as Hs by (intros; lia).
  induction p as [p IH|p IH|]; cbn [digits2_pos]; [| |done]; rewrite Hs, Pos2Z.inj_succ, Z.pow_succ_r by lia;
    replace (2 ^ Zpos (digits2_pos p)) with (2 * 2 ^ (Zpos (digits2_pos p) - 1)) in * by (rewrite <-Z.pow_succ_r by lia; f_equal; lia); lia.
Qed.
Lemma iter_xO m d : Zpos (Pos.iter xO m d) = Zpos m * 2 ^ Zpos d.
Proof.
  induction d as [|d IH] using Pos.peano_ind; [cbn; lia|]. rewrite Pos.iter_succ, Pos2Z.inj_succ, Z.pow_succ_r by lia. rewrite Pos2Z.inj_xO, IH. lia.
Qed.
Lemma iter_digits m d : Zpos (digits2_pos (Pos.iter xO m d)) = Zpos (digits2_pos m) + Zpos d.
Proof. induction d as [|d IH] using Pos.peano_ind; [cbn; lia|]. rewrite Pos.iter_succ. cbn [digits2_pos]. lia. Qed.
(** Below 2^53 a whole number is its own float: its bits, shifted to 53. *)
Definition exact (m : positive) : positive :=
  match (53 - Zpos (digits2_pos m))%Z with Zpos d => Pos.iter xO m d | _ => m end.
Lemma exact_digits m : Zpos m < 2 ^ 53 -> Zpos (digits2_pos (exact m)) = 53 /\ Zpos (exact m) = Zpos m * 2 ^ (53 - Zpos (digits2_pos m)).
Proof.
  intros Hm. pose proof (digits2_bounds m) as [Hl _].
  assert (Zpos (digits2_pos m) - 1 < 53) by (apply (Z.pow_lt_mono_r_iff 2); lia). unfold exact.
  destruct (53 - Zpos (digits2_pos m)) as [|d|d] eqn:E; [|rewrite iter_digits, iter_xO|]; lia.
Qed.
Lemma round_exact m e : Zpos (digits2_pos m) = 53 -> -1074 <= e <= 971 -> binary_round_aux 53 1024 false (Zpos m) e loc_Exact = S754_finite false m e.
Proof.
  intros Hd He. unfold binary_round_aux, shr_fexp. cbn [Zdigits2 shr_record_of_loc].
  assert (fexp 53 1024 (Zpos (digits2_pos m) + e) - e = 0) as Hz by (unfold fexp, emin; lia). rewrite Hz. cbn [shr shr_m loc_of_shr_record round_nearest_even Zdigits2].
  rewrite Hz. cbn [shr shr_m]. destruct (Z.leb_spec e (1024 - 53)); [done|lia].
Qed.
Lemma float_of_exact m : Zpos m < 2 ^ 53 -> float_of (Zpos m) = S754_finite false (exact m) (Zpos (digits2_pos m) - 53).
Proof.
  intros Hm. pose proof (exact_digits m Hm) as [Hd _]. pose proof (digits2_bounds m) as [Hl _].
  assert (Zpos (digits2_pos m) - 1 < 53) by (apply (Z.pow_lt_mono_r_iff 2); lia).
  unfold float_of, binary_normalize, binary_round, shl_align.
  replace (fexp 53 1024 (Zpos (digits2_pos m) + 0)) with (Zpos (digits2_pos m) - 53) by (unfold fexp, emin; lia). rewrite Z.sub_0_r.
  destruct (Zpos (digits2_pos m) - 53) as [|d|d] eqn:E.
  - replace (exact m) with m in * by (unfold exact; by replace (53 - Zpos (digits2_pos m)) with 0 by lia). apply round_exact; lia.
  - lia.
  - replace (Pos.iter xO m d) with (exact m) by (unfold exact; by replace (53 - Zpos (digits2_pos m)) with (Zpos d) by lia). apply round_exact; lia.
Qed.
Lemma float_of_nonneg n : 0 <= n < 2 ^ 53 -> nonneg (float_of n) = true.
Proof. intros [H1 H2]. destruct n as [|m|m]; [done| |lia]. by rewrite float_of_exact. Qed.

(** So they compare, and come back, as they are. *)
Lemma digits_mono m n : Zpos m < Zpos n -> Zpos (digits2_pos m) <= Zpos (digits2_pos n).
Proof.
  intros H. pose proof (digits2_bounds m). pose proof (digits2_bounds n).
  assert (Zpos (digits2_pos m) - 1 < Zpos (digits2_pos n)); [apply (Z.pow_lt_mono_r_iff 2); lia|lia].
Qed.
Lemma below_mono m n : Zpos m < Zpos n -> Zpos n < 2 ^ 53 -> below (float_of (Zpos m)) (float_of (Zpos n)).
Proof.
  intros H Hn. rewrite !float_of_exact by lia. unfold below. cbn [rank fexponent fmantissa]. right. split; [done|].
  pose proof (digits_mono m n H). destruct (decide (Zpos (digits2_pos m) = Zpos (digits2_pos n))) as [E|]; [right|lia].
  destruct (exact_digits m) as [_ ->]; [lia|]. destruct (exact_digits n) as [_ ->]; [lia|]. rewrite E.
  pose proof (digits2_bounds n) as [Hl _]. assert (Zpos (digits2_pos n) - 1 < 53) by (apply (Z.pow_lt_mono_r_iff 2); lia). split; [done|].
  apply Z.mul_lt_mono_pos_r; [apply Z.pow_pos_nonneg; lia|done].
Qed.
Lemma fltb_float_of a b : 0 <= a < 2 ^ 53 -> 0 <= b < 2 ^ 53 -> fltb (float_of a) (float_of b) = (a <? b).
Proof.
  intros Ha Hb. pose proof (float_of_nonneg a Ha) as Na. pose proof (float_of_nonneg b Hb) as Nb.
  destruct (Z.ltb_spec a b) as [H|H].
  - apply fltb_below; [done..|]. destruct a as [|m|m], b as [|n|n]; try lia; [|by apply below_mono; lia]. rewrite float_of_exact by lia. unfold below. cbn. lia.
  - apply not_true_iff_false. rewrite fltb_below by done. intros Hc.
    destruct (decide (a = b)) as [->|Hne]; [unfold below in Hc; lia|].
    assert (below (float_of b) (float_of a)); [|unfold below in *; lia].
    destruct a as [|m|m], b as [|n|n]; try lia; [|by apply below_mono; lia]. rewrite float_of_exact by lia. unfold below. cbn. lia.
Qed.
Lemma feqb_float_of a : 0 <= a < 2 ^ 53 -> feqb (float_of a) f0 = (a =? 0).
Proof. intros Ha. destruct a as [|m|m]; [done| |lia]. by rewrite float_of_exact by lia. Qed.
Lemma int_of_float_of other n : 0 <= n < 2 ^ 53 -> int_of other (float_of n) = n.
Proof.
  intros Hn. destruct n as [|m|m]; [done| |lia]. rewrite float_of_exact by lia. unfold int_of.
  destruct (exact_digits m) as [_ ->]; [lia|]. pose proof (digits2_bounds m) as [Hl _].
  assert (Zpos (digits2_pos m) - 1 < 53) by (apply (Z.pow_lt_mono_r_iff 2); lia).
  replace (if 0 <=? Zpos (digits2_pos m) - 53 then _ else _) with (Zpos m).
  - unfold min_int, max_int. destruct (Z.leb_spec (- 2 ^ 63) (Zpos m)); [|lia]. destruct (Z.leb_spec (Zpos m) (2 ^ 63 - 1)); [done|lia].
  - destruct (Z.leb_spec 0 (Zpos (digits2_pos m) - 53)).
    + replace (Zpos (digits2_pos m)) with 53 by lia. cbn [Z.sub]. change (2 ^ (53 - 53)) with 1. lia.
    + replace (- (Zpos (digits2_pos m) - 53)) with (53 - Zpos (digits2_pos m)) by lia. rewrite Z.div_mul; [done|]. apply Z.pow_nonzero; lia.
Qed.
