(* ===== verification/GoJson.v ===== *)
(** * Go's [encoding/json] on the shapes the code reads

    [json.Unmarshal] into a [map[string]string]: an object of strings, [null]
    for no map, and a [null] value read as the empty string; any other value
    is an error whether or not it is well formed, so nothing below the values
    is parsed.  And into a [[]map[string]any], of which only the shape is
    looked at: whether it decodes, and which elements are [null]. *)
From S2P Require Import Prelude GoStrings GoNum.

Definition is_space (c : ascii) : bool := has_byte c (String " " (String "009" (String "013" (String "010" "")))).
Fixpoint skip (s : string) : string :=
  match s with String c s' => if is_space c then skip s' else s | EmptyString => "" end.

(** ** String literals *)

Definition hex_val (c : ascii) : option Z :=
  if is_digit c then Some (code c - 48)
  else if byte_in "a" "f" c then Some (code c - 87)
  else if byte_in "A" "F" c then Some (code c - 55)
  else None.
Definition hex4 (a b c d : ascii) : option Z :=
  match hex_val a, hex_val b, hex_val c, hex_val d with
  | Some a, Some b, Some c, Some d => Some (((a * 16 + b) * 16 + c) * 16 + d)
  | _, _, _, _ => None
  end.
Definition escape (c : ascii) : option Z :=
  match c with
  | "b" => Some 8 | "f" => Some 12 | "n" => Some 10 | "r" => Some 13 | "t" => Some 9
  | "\" => Some 92 | "/" => Some 47 | "034" => Some 34
  | _ => None
  end%char.

(** What follows an opening quote: the literal's units, a byte or the value of
    an escape, and the rest after the closing quote. *)
Fixpoint literal (s : string) : option (list (ascii + Z) * string) :=
  match s with
  | EmptyString => None
  | String "034" s => Some ([], s)
  | String "\" (String "u" (String a (String b (String c (String d s))))) =>
      match hex4 a b c d, literal s with Some r, Some (us, rest) => Some (inr r :: us, rest) | _, _ => None end
  | String "\" (String e s) =>
      match escape e, literal s with Some r, Some (us, rest) => Some (inr r :: us, rest) | _, _ => None end
  | String c s =>
      if code c <? 32 then None
      else match literal s with Some (us, rest) => Some (inl c :: us, rest) | None => None end
  end.

Definition high (r : Z) : bool := (55296 <=? r) && (r <? 56320).
Definition low (r : Z) : bool := (56320 <=? r) && (r <? 57344).
(** The text of the units; [run] holds the bytes since the last escape.
    Bytes that are no UTF-8 and lone surrogates become U+FFFD. *)
Fixpoint unquote (run : string) (us : list (ascii + Z)) : string :=
  match us with
  | [] => write_runes (runes run)
  | inl c :: us => unquote (run +:+ String c "") us
  | inr r :: us =>
      write_runes (runes run) +:+
      match us with
      | inr r2 :: us' =>
          if high r && low r2 then write_rune ((r - 55296) * 1024 + (r2 - 56320) + 65536) +:+ unquote "" us'
          else write_rune r +:+ unquote "" us
      | _ => write_rune r +:+ unquote "" us
      end
  end.

(** ** The object *)

Definition value (s : string) : option (string * string) :=
  match s with
  | String "034" s => match literal s with Some (us, rest) => Some (unquote "" us, rest) | None => None end
  | _ => match strip_prefix "null" s with Some rest => Some ("", rest) | None => None end
  end.

(** The members after an opening brace or a comma; a member takes three bytes
    or more, so the length is fuel enough. *)
Fixpoint members (fuel : nat) (s : string) (m : gmap string string) : option (gmap string string * string) :=
  match fuel with
  | O => None
  | S fuel =>
      match skip s with
      | String "034" s =>
          match literal s with
          | None => None
          | Some (us, rest) =>
              match skip rest with
              | String ":" rest =>
                  match value (skip rest) with
                  | None => None
                  | Some (v, rest) =>
                      let m := <[unquote "" us := v]> m in
                      match skip rest with
                      | String "," rest => members fuel rest m
                      | String "}" rest => Some (m, rest)
                      | _ => None
                      end
                  end
              | _ => None
              end
          end
      | _ => None
      end
  end.

(** [json.Unmarshal(data, &m)] of a [map[string]string]. *)
Definition unmarshal_strings (s : string) : option (gmap string string) :=
  match skip s with
  | String "{" s =>
      match skip s with
      | String "}" rest => if String.eqb (skip rest) "" then Some ∅ else None
      | _ =>
          match members (String.length s) s ∅ with
          | Some (m, rest) => if String.eqb (skip rest) "" then Some m else None
          | None => None
          end
      end
  | s => match strip_prefix "null" s with Some rest => if String.eqb (skip rest) "" then Some ∅ else None | None => None end
  end.

(** [slices.Sorted(maps.Keys(m))]. *)
Definition sorted_keys (m : gmap string string) : list string := sort_strings (map fst (map_to_list m)).

Definition ex_quote : string := String "034" "".
Definition ex_obj (kvs : list (string * string)) : string :=
  "{" +:+ join ", " (map (fun p => ex_quote +:+ p.1 +:+ ex_quote +:+ " : " +:+ p.2) kvs) +:+ "} ".
Example json_object : unmarshal_strings (ex_obj [("A", ex_quote +:+ "x\n\u00e9\uD83D\uDE00\ud800" +:+ ex_quote); ("B_1", "null"); ("A", ex_quote +:+ "y" +:+ ex_quote)]) =
  Some (<["A" := "y"]> {["B_1" := ""]}).
Proof. vm_compute. reflexivity. Qed.
Example json_escapes : (fun m => m !! "A") <$> unmarshal_strings (ex_obj [("A", ex_quote +:+ "x\n\u00e9\uD83D\uDE00\ud800" +:+ ex_quote)]) =
  Some (Some (String "x" (String "010" (String "195" (String "169" (String "240" (String "159" (String "152" (String "128" (write_rune rune_error)))))))))).
Proof. vm_compute. reflexivity. Qed.
Example json_bad : map unmarshal_strings ["{}"; " null "; "[]"; ""; "{,}"; ex_obj [("a", "1")]; ex_obj [("a", ex_quote +:+ String "010" ex_quote)]; "{} x"] =
  [Some ∅; Some ∅; None; None; None; None; None; None].
Proof. vm_compute. reflexivity. Qed.

(** ** A list of objects *)

Fixpoint take_digits (s : string) : string * string :=
  match s with
  | String c s' => if is_digit c then let '(d, r) := take_digits s' in (String c d, r) else ("", s)
  | EmptyString => ("", "")
  end.
(** A number's text and what follows: no leading zero, and digits after a dot
    and an exponent. *)
Definition number (s : string) : option (string * string) :=
  let '(sign, s) := match s with String "-" s => ("-", s) | _ => ("", s) end in
  let '(n, s) := match s with String "0" s => ("0", s) | _ => take_digits s end in
  if String.eqb n "" then None
  else
    let frac := match s with String "." s => let '(f, s) := take_digits s in if String.eqb f "" then None else Some ("." +:+ f, s) | _ => Some ("", s) end in
    match frac with
    | None => None
    | Some (f, s) =>
        let exp (c : ascii) s :=
          let '(sg, s) := match s with String "-" s => ("-", s) | String "+" s => ("+", s) | _ => ("", s) end in
          let '(e, s) := take_digits s in if String.eqb e "" then None else Some (sign +:+ n +:+ f +:+ String c (sg +:+ e), s) in
        match s with
        | String "e" s => exp "e"%char s
        | String "E" s => exp "E"%char s
        | _ => Some (sign +:+ n +:+ f, s)
        end
    end.

(** The text after a value that decodes into an [any]: a number past the
    largest float does not, nor what is nested deeper than ten thousand.  A
    byte takes two steps at most, so twice the length is fuel enough. *)
Definition max_depth : Z := 10000.
Fixpoint skip_value (fuel : nat) (depth : Z) (s : string) : option string :=
  match fuel with
  | O => None
  | S fuel =>
      match s with
      | String "034" s => match literal s with Some (_, rest) => Some rest | None => None end
      | String "{" s =>
          if max_depth <=? depth then None
          else match skip s with String "}" rest => Some rest | s => skip_members fuel (depth + 1) s end
      | String "[" s =>
          if max_depth <=? depth then None
          else match skip s with String "]" rest => Some rest | s => skip_elems fuel (depth + 1) s end
      | String "t" _ => strip_prefix "true" s
      | String "f" _ => strip_prefix "false" s
      | String "n" _ => strip_prefix "null" s
      | _ => match number s with
             | Some (n, rest) => match ParseFloat n with Some _ => Some rest | None => None end
             | None => None
             end
      end
  end
with skip_members (fuel : nat) (depth : Z) (s : string) : option string :=
  match fuel with
  | O => None
  | S fuel =>
      match s with
      | String "034" s =>
          match literal s with
          | None => None
          | Some (_, rest) =>
              match skip rest with
              | String ":" rest =>
                  match skip_value fuel depth (skip rest) with
                  | None => None
                  | Some rest =>
                      match skip rest with
                      | String "," rest => skip_members fuel depth (skip rest)
                      | String "}" rest => Some rest
                      | _ => None
                      end
                  end
              | _ => None
              end
          end
      | _ => None
      end
  end
with skip_elems (fuel : nat) (depth : Z) (s : string) : option string :=
  match fuel with
  | O => None
  | S fuel =>
      match skip_value fuel depth s with
      | None => None
      | Some rest =>
          match skip rest with
          | String "," rest => skip_elems fuel depth (skip rest)
          | String "]" rest => Some rest
          | _ => None
          end
      end
  end.

(** [json.Unmarshal(data, &rs)] of a [[]map[string]any]: whether each element
    is a map, not [null]. *)
Fixpoint objects (fuel : nat) (s : string) (out : list bool) : option (list bool * string) :=
  match fuel with
  | O => None
  | S fuel =>
      let next b rest := match skip rest with
        | String "," rest => objects fuel (skip rest) (out ++ [b])
        | String "]" rest => Some (out ++ [b], rest)
        | _ => None
        end in
      match s with
      | String "{" _ => match skip_value fuel 1 s with Some rest => next true rest | None => None end
      | String "n" _ => match strip_prefix "null" s with Some rest => next false rest | None => None end
      | _ => None
      end
  end.
Definition unmarshal_objects (s : string) : option (list bool) :=
  match skip s with
  | String "[" s' =>
      match skip s' with
      | String "]" rest => if String.eqb (skip rest) "" then Some [] else None
      | s' => match objects (2 * S (String.length s)) s' [] with
              | Some (out, rest) => if String.eqb (skip rest) "" then Some out else None
              | None => None
              end
      end
  | s => match strip_prefix "null" s with Some rest => if String.eqb (skip rest) "" then Some [] else None | None => None end
  end.
Example json_objects : map unmarshal_objects ["[{}, null]"; " [ ] "; "null"; "[" +:+ ex_obj [("a", "[1, -2.5e3, true, {}, []]"); ("b", "null")] +:+ "]"; "[1]"; "[{}"; "[{},]"; "[" +:+ ex_obj [("a", "1e999")] +:+ "]"; "[" +:+ ex_obj [("a", "01")] +:+ "]"; "{}"] =
  [Some [true; false]; Some []; Some []; Some [true]; None; None; None; None; None; None].
Proof. vm_compute. reflexivity. Qed.
