(* ===== verification/Settings.v ===== *)
(** * The settings cascade ([leaf/settings], [store/settings.go])

    The catalogue of knobs, the levels of the cascade and how they resolve,
    the one door from submitted text to a field, and the install-wide rows.
    A database call of this part fails on nothing but the database itself,
    which is not modelled. *)
From Stdlib Require Import SpecFloat.
From S2P Require Import Prelude GoStrings GoTrim Errs Regexp Slug Store Rows GoNum GoJson.

(** ** The catalogue ([catalogue.go]) *)

Inductive Ty := TInt | TFloat | TBool | TStr.
#[export] Instance Ty_eq_dec : EqDecision Ty.
Proof. solve_decision. Defined.

(** A scope is a set of rungs, one bit each. *)
Definition Server : Z := 1.
Definition Org : Z := 2.
Definition Stack_ : Z := 4.
Definition Env : Z := 8.
Definition Tile_ : Z := 16.
Definition Flat : Z := 32.
Definition Below : Z := Z.lor Org (Z.lor Stack_ Env).
Definition All : Z := Z.lor Server Below.
Definition scope_name (s : Z) : string :=
  if s =? Server then "server" else if s =? Org then "org" else if s =? Stack_ then "stack" else if s =? Env then "environment"
  else if s =? Tile_ then "tile" else if s =? Flat then "install" else "scope".

Record Knob := MkKnob {
  k_Key : string; k_Label : string; k_Type : Ty; k_Default : string; k_Scopes : Z; k_AllowZero : bool; k_EmptyOff : bool;
  k_ReadOnly : bool; k_ConfigOnly : bool; k_Desc : string }.
Definition DefaultsKey : string := "defaults".
Definition Catalogue : list Knob := [
  MkKnob "cpu_limit" "CPU limit (cores)" TFloat "0" (Z.lor All Tile_) true false false false "CPU cores; 0 is unlimited; a lower level stays within a higher one";
  MkKnob "mem_limit_mb" "Memory limit (MB)" TInt "0" (Z.lor All Tile_) true false false false "memory cap in MB; 0 is unlimited; a lower level stays within a higher one";
  MkKnob "protect" "Password protect URLs" TBool "false" All false false false false "basic auth in front of every URL below this level";
  MkKnob "protect_user" "Protect user" TStr "" All false false false false "basic auth user";
  MkKnob "protect_password" "Protect password" TStr "" All false false false false "plain text or a ${{ }} ref";
  MkKnob "workers" "Job workers" TInt "2" Flat false false false false "jobs that run at once";
  MkKnob "image_check_interval" "Image check interval (minutes)" TInt "60" Flat true false false false "minutes between checks for newer images; 0 is off";
  MkKnob "seed_max_gb" "Largest seed dump (GB)" TInt "10" Flat false false false false "the biggest dump a new database may start from";
  MkKnob "orphan_retention_days" "Orphan retention (days)" TInt "30" Flat false false false false "days an orphaned volume is kept before its last backup and delete";
  MkKnob "pids_limit" "Process limit per container" TInt "4096" Flat true false false false "processes and threads one container may hold, so a fork bomb stays in it; 0 is unlimited";
  MkKnob "backup_run_concurrency" "Backups at once" TInt "2" Flat false false false false "backups that run at once";
  MkKnob "backup_restore_concurrency" "Restores at once" TInt "1" Flat false false false false "restores that run at once";
  MkKnob "panel_domain" "Panel domain" TStr "" Flat false false false false "the domain the panel answers on";
  MkKnob "root_domain" "Root domain" TStr "" Flat false false false false "the root domain; tiles get names under it";
  MkKnob "acme_email" "ACME email" TStr "" Flat false false false false "contact address for certificates";
  MkKnob "ipv6" "IPv6" TBool "false" Flat false false false false "serve and publish AAAA records over IPv6";
  MkKnob "trusted_proxies" "Trusted proxies" TStr "" Flat false false false false "CIDRs whose X-Forwarded-For is trusted";
  MkKnob "proxy_custom" "Custom Caddy config" TStr "" Flat false false false false "admin-only extra Caddy config";
  MkKnob "cleanup_enabled" "Nightly cleanup" TBool "true" Flat false false false false "nightly image and build cache sweep";
  MkKnob "cleanup_schedule" "Cleanup schedule" TStr "30 4 * * *" Flat false false false false "five-field cron. Empty is 4:30 daily.";
  MkKnob "registry_cleanup_schedule" "Registry cleanup schedule" TStr "15 4 * * *" Flat false true false false "five-field cron. Empty is off.";
  MkKnob "registry_keep" "Registry versions kept" TInt "3" Flat false false false false "newest versions kept per repository. A version an env runs is always kept.";
  MkKnob "orphans_enabled" "Orphan sweep" TBool "true" Flat false false false false "back up and delete orphaned volumes past retention";
  MkKnob "orphans_schedule" "Orphan sweep schedule" TStr "@daily" Flat false false false false "five-field cron. Empty is 0:00 daily.";
  MkKnob "panel_backup_enabled" "Panel backups" TBool "true" Flat false false false false "the panel archives itself on its schedule";
  MkKnob "panel_backup_schedule" "Panel backup schedule" TStr "0 3 * * *" Flat false false false false "five-field cron. Empty is 3:00 daily.";
  MkKnob "panel_backup_keep" "Panel backups kept" TInt "14" Flat false false false false "scheduled panel archives kept at the destination";
  MkKnob "panel_backup_dest" "Panel backup destination id" TStr "" Flat false false false false "global backup destination id for panel archives; empty is local";
  MkKnob "observe_enabled" "Keep metrics history" TBool "true" Flat false false false false "keep metrics history in the stackr-observe container";
  MkKnob "observe_metrics_retention" "Metrics retention (days)" TInt "30" Flat false false false false "days of metrics history kept";
  MkKnob "observe_min_free" "Free disk floor (GB)" TInt "5" Flat false false false false "GB of free disk below which metrics stop being written";
  MkKnob "observe_logs_enabled" "Keep logs" TBool "true" Flat false false false false "keep logs in the stackr-observe container, with metrics history on";
  MkKnob "observe_logs_retention" "Logs retention (days)" TInt "7" Flat false false false false "days of logs kept";
  MkKnob "observe_logs_max_size" "Logs size cap (GB)" TInt "10" Flat false false false false "GB of disk the logs may use; the oldest days go first";
  MkKnob "observe_max_memory" "Memory cap (MB)" TInt "1024" Flat false false false false "MB of memory the stackr-observe container may use, at least 256";
  MkKnob "observe_access_query" "Access log query string" TBool "false" Flat false false false false "keep the query string in access logs";
  MkKnob "observe_access_ip" "Access log client IP" TBool "true" Flat false false false false "keep the client address in access logs";
  MkKnob "observe_access_headers" "Access log headers" TBool "false" Flat false false false false "keep all request headers in access logs, cookies and Authorization included; off keeps User-Agent only";
  MkKnob "alert_webhook_url" "Alert webhook URL" TStr "" Flat false false false false "where alerts are posted as JSON; empty is off (the Alerts tab)";
  MkKnob "heartbeat_url" "Heartbeat URL" TStr "" Flat false false false false "a dead-man's-switch URL the panel GETs every minute; empty is off (the Alerts tab)";
  MkKnob "server_config_connector" "Server file connector" TStr "" Flat false false false true "id of the server connector the server file is read through";
  MkKnob "server_config_repo" "Server file repo" TStr "" Flat false false false true "the repo that holds stackr-server.yml; empty is unbound";
  MkKnob "server_config_branch" "Server file branch" TStr "" Flat false false false true "the branch of the server file; empty is the repo's default";
  MkKnob "server_config_path" "Server file path" TStr "" Flat false false false true "path of the server file in the repo; empty is stackr-server.yml";
  MkKnob "server_config_auto" "Server file auto apply" TBool "false" Flat false false false true "apply a server plan with no impact lines and no removals by itself"].

Definition lookup (key : string) : option Knob := find_first (fun k => String.eqb (k_Key k) key) Catalogue.
Definition Default (key : string) : string := match lookup key with Some k => k_Default k | None => "" end.
Definition cronKnobs : list string := ["panel_backup_schedule"; "cleanup_schedule"; "orphans_schedule"; "registry_cleanup_schedule"].
Definition IsCron (key : string) : bool := contains cronKnobs key.
Definition has (scopes at_ : Z) : bool := negb (Z.land scopes at_ =? 0).

(** ** The levels ([settings.go]) *)

Record Settings := MkSettings {
  CPULimit : option float; MemLimitMB : option Z; Protect : option bool; ProtectUser : option string; ProtectPassword : option string }.
Record Resolved := MkResolved { r_CPULimit : float; r_MemLimitMB : Z; r_Protect : bool; r_ProtectUser : string; r_ProtectPassword : string }.
Definition no_settings : Settings := MkSettings None None None None None.

(** [encoding/json] on a level: the text of its fields, and the level read
    back.  A float that is not finite has no JSON text, and text that is no
    UTF-8 is read back with replacement characters. *)
Class Json := { Marshal : Settings -> string; Unmarshal : string -> option Settings }.
Definition valid_text (s : string) : string := write_runes (runes s).
Definition as_text (s : Settings) : Settings := MkSettings (CPULimit s) (MemLimitMB s) (Protect s) (valid_text <$> ProtectUser s) (valid_text <$> ProtectPassword s).
Definition encodable (s : Settings) : bool := match CPULimit s with Some f => finite f | None => true end.
Class JsonLaws `{Json} := { json_back s : encodable s = true -> Unmarshal (Marshal s) = Some (as_text s) /\ trim_space (Marshal s) <> "" }.

Section Blobs.
Context `{Json}.
Definition Parse (blob : string) : res Settings :=
  if String.eqb (trim_space blob) "" then Ok no_settings
  else match Unmarshal blob with Some s => Ok s | None => Err (Wrap (text "settings: %w") (New "json")) end.
(** [Settings.JSON]: the error of [json.Marshal] is dropped, and no text is
    left of a level that has none. *)
Definition JSON (s : Settings) : string := if encodable s then Marshal s else "".
End Blobs.

Definition capped (child parent : float) : float :=
  if fltb f0 parent && (feqb child f0 || fltb parent child) then parent else child.

Section Limits.
Context (other : Z). (* [int] of a float that is no int64 *)
Definition capped_int (child parent : Z) : Z := int_of other (capped (float_of child) (float_of parent)).

Definition deref (p : option string) : string := default "" p.
Definition is_set {A} (p : option A) : bool := match p with Some _ => true | None => false end.
Definition resolve_level (r : Resolved) (s : Settings) : Resolved :=
  let pair := is_set (ProtectUser s) || is_set (ProtectPassword s) in
  MkResolved
    (match CPULimit s with Some c => capped c (r_CPULimit r) | None => r_CPULimit r end)
    (match MemLimitMB s with Some m => capped_int m (r_MemLimitMB r) | None => r_MemLimitMB r end)
    (match Protect s with Some p => p | None => r_Protect r end)
    (if pair then deref (ProtectUser s) else r_ProtectUser r)
    (if pair then deref (ProtectPassword s) else r_ProtectPassword r).
Definition unresolved : Resolved := MkResolved f0 0 false "" "".
Definition Resolve (levels : list Settings) : Resolved := fold_left resolve_level levels unresolved.
Definition EffectiveLimits (r : Resolved) (cpu : float) (memMB : Z) : float * Z :=
  (capped cpu (r_CPULimit r), capped_int memMB (r_MemLimitMB r)).
End Limits.

(** ** From text to a field *)

Definition invalid (k : Knob) (format : string) (a : list arg) : error := Invalid (k_Key k) (k_Label k) (Sprintf format a) 0.
Definition typeWords (t : Ty) : string := match t with TInt => "a whole number" | TFloat => "a number" | TBool => "true or false" | TStr => "text" end.
(** [usable], over the three comparisons it makes. *)
Definition usable (k : Knob) (lt0 lt1 le0 : bool) : option error :=
  if lt0 && k_AllowZero k then Some (invalid k "Use 0 or more." [])
  else if lt1 && bool_decide (k_Type k = TInt) && negb (k_AllowZero k) then Some (invalid k "Use 1 or more." [])
  else if le0 && negb (k_AllowZero k) then Some (invalid k "Use a number above 0." [])
  else None.
Definition usable_int (k : Knob) (v : Z) : option error := usable k (v <? 0) (v <? 1) (v <=? 0).
Definition usable_float (k : Knob) (v : float) : option error := usable k (fltb v f0) (fltb v (float_of 1)) (fleb v f0).

(** A value, or the error and no value. *)
Definition parseOpt {T} (k : Knob) (raw : string) (parse : string -> option T) : option T * option error :=
  if String.eqb raw "" then (None, None)
  else match parse raw with Some v => (Some v, None) | None => (None, Some (invalid k "Use %s, not %q." [AStr (typeWords (k_Type k)); AStr raw])) end.
Definition parseNum {T} (use : Knob -> T -> option error) (k : Knob) (raw : string) (parse : string -> option T) : option T * option error :=
  match parseOpt k raw parse with
  | (Some v, None) => match use k v with Some e => (None, Some e) | None => (Some v, None) end
  | r => r
  end.
Definition str (raw : string) : option string := if String.eqb raw "" then None else Some raw.
Definition unnamed (key : string) : error := Errorf (Sprintf "no setting named %q" [AStr key]).

Definition Set_ (s : Settings) (key raw : string) : Settings * option error :=
  match lookup key with
  | None => (s, Some (unnamed key))
  | Some k =>
      if has (k_Scopes k) Flat then (s, Some (unnamed key))
      else
        let raw := trim_space raw in
        if String.eqb key "cpu_limit" then
          let '(v, err) := parseNum usable_float k raw ParseFloat in (MkSettings v (MemLimitMB s) (Protect s) (ProtectUser s) (ProtectPassword s), err)
        else if String.eqb key "mem_limit_mb" then
          let '(v, err) := parseNum usable_int k raw Atoi64 in (MkSettings (CPULimit s) v (Protect s) (ProtectUser s) (ProtectPassword s), err)
        else if String.eqb key "protect" then
          let '(v, err) := parseOpt k raw ParseBool in (MkSettings (CPULimit s) (MemLimitMB s) v (ProtectUser s) (ProtectPassword s), err)
        else if String.eqb key "protect_user" then (MkSettings (CPULimit s) (MemLimitMB s) (Protect s) (str raw) (ProtectPassword s), None)
        else if String.eqb key "protect_password" then (MkSettings (CPULimit s) (MemLimitMB s) (Protect s) (ProtectUser s) (str raw), None)
        else (s, None)
  end.

Definition some_text (p : option string) : bool := match p with Some s => negb (String.eqb s "") | None => false end.
Definition Check_ (s : Settings) : option error :=
  let user := some_text (ProtectUser s) in
  let pass := some_text (ProtectPassword s) in
  if Bool.eqb user pass then None
  else if user then Some (New "protection needs a password as well as a user")
  else Some (New "protection needs a user as well as a password").

(** The loop of [Merge] over the catalogue. *)
Fixpoint merge_knobs (ks : list Knob) (out : Settings) (vals : gmap string string) (at_ : Z) : res Settings :=
  match ks with
  | [] => Ok out
  | k :: ks =>
      match vals !! k_Key k with
      | None => merge_knobs ks out vals at_
      | Some raw =>
          if negb (has (k_Scopes k) at_) then Err (invalid k "This cannot be set on a %s." [AStr (scope_name at_)])
          else match Set_ out (k_Key k) raw with
               | (_, Some e) => Err e
               | (out, None) => merge_knobs ks out vals at_
               end
      end
  end.
(** [Merge]; the keys of the map are gone through in one order of the many Go
    may take, so of several unknown keys another may be the one named. *)
Definition Merge (s : Settings) (vals : gmap string string) (at_ : Z) : Settings * option error :=
  match merge_knobs Catalogue s vals at_ with
  | Err e => (s, Some e)
  | Ok out =>
      match find_first (fun kv => negb (is_set (lookup kv.1))) (map_to_list vals) with
      | Some kv => (s, Some (unnamed kv.1))
      | None => match Check_ out with Some e => (s, Some e) | None => (out, None) end
      end
  end.

(** ** The install-wide rows ([flat.go]) *)

Section InstallWide.
(** [cron.ParseStandard] of robfig/cron, whether it reads the line. *)
Context (cron_ParseStandard : string -> bool) `{Json} (boot : gmap string string).

Definition unknown (key : string) : error := Invalidf "" "unknown setting %s" [AStr key].
Definition flat_knob (key : string) : option Knob := match lookup key with Some k => if k_Scopes k =? Flat then Some k else None | None => None end.
Definition Get (rows : gmap string string) (key : string) : res string :=
  match flat_knob key with
  | None => Err (unknown key)
  | Some k => match rows !! key with Some v => Ok v | None => match boot !! key with Some b => Ok b | None => Ok (k_Default k) end end
  end.
Definition Int (rows : gmap string string) (key : string) : res Z :=
  v <-? Get rows key ;; match Atoi64 v with Some n => Ok n | None => Err (New "strconv.Atoi") end.

Definition validate (k : Knob) (raw : string) : option error :=
  if IsCron (k_Key k) && negb (cron_ParseStandard raw) then
    Some (invalid k "Not a cron schedule. Use five fields, like 0 3 * * * for 03:00 every day." [])
  else
    let routes := if String.eqb (k_Key k) "proxy_custom" then
        match unmarshal_objects raw with
        | None => Some (invalid k "Use a JSON array of Caddy route objects." [AErr (New "json")])
        | Some rs => if existsb negb rs then Some (invalid k "Use a JSON array of Caddy route objects, with no null in it." []) else None
        end else None in
    match routes with
    | Some e => Some e
    | None =>
        match k_Type k with
        | TInt => match Atoi64 raw with
                  | None => Some (invalid k "Use a whole number, not %q." [AStr raw])
                  | Some v => if String.eqb (k_Key k) "observe_max_memory" && (v <? 256) then Some (invalid k "Use 256 MB or more." []) else usable_int k v
                  end
        | TFloat => match ParseFloat raw with None => Some (invalid k "Use a number, not %q." [AStr raw]) | Some v => usable_float k v end
        | TBool => match ParseBool raw with None => Some (invalid k "Use true or false, not %q." [AStr raw]) | Some _ => None end
        | TStr => None
        end
    end.
Definition CheckFlat (key raw : string) : option error :=
  match flat_knob key with
  | None => Some (unknown key)
  | Some k =>
      if k_ReadOnly k then Some (invalid k "This comes from the installer and cannot be changed here." [])
      else
        let raw := trim_space raw in
        if String.eqb raw "" then None
        else match validate k raw with
             | None => None
             | Some e => match IsInvalid e with Some _ => Some e | None => Some (invalid k "%s" [AErr e]) end
             end
  end.
Definition SetFlat (rows : gmap string string) (key raw : string) : res (gmap string string) :=
  match CheckFlat key raw with
  | Some e => Err e
  | None =>
      let raw := trim_space raw in
      if String.eqb raw "" then
        if match lookup key with Some k => k_EmptyOff k | None => false end then Ok (<[key := ""]> rows) else Ok (delete key rows)
      else Ok (<[key := raw]> rows)
  end.

Definition Defaults (rows : gmap string string) : res Settings := Parse (default "" (rows !! DefaultsKey)).
Definition SetDefaults (rows : gmap string string) (vals : gmap string string) : res (gmap string string) :=
  cur <-? Defaults rows ;;
  match Merge cur vals Server with
  | (_, Some e) => Err (match IsInvalid e with Some _ => e | None => Invalidf "" "%s" [AErr e] end)
  | (next, None) => Ok (<[DefaultsKey := JSON next]> rows)
  end.
End InstallWide.

(** ** Limits only tighten *)

(** A level whose limits are numbers a limit can be. *)
Record level_ok (s : Settings) : Prop := {
  lo_cpu c : CPULimit s = Some c -> nonneg c = true;
  lo_mem m : MemLimitMB s = Some m -> 0 <= m < 2 ^ 53 }.
Lemma level_okb s : match CPULimit s with Some c => nonneg c | None => true end &&
  match MemLimitMB s with Some m => (0 <=? m) && (m <? 2 ^ 53) | None => true end = true -> level_ok s.
Proof. intros [Hc Hm]%andb_true_iff. split; intros x E; rewrite E in *; [done|lia]. Qed.
(** [r] is the lowest limit of [cs], where 0 is none. *)
Definition lowest (cs : list float) (r : float) : Prop :=
  nonneg r = true /\ (forall c, c ∈ cs -> fltb f0 c = true -> fltb f0 r = true /\ fleb r c = true) /\ (fltb f0 r = true -> r ∈ cs).
Definition lowest_int (ms : list Z) (r : Z) : Prop :=
  0 <= r < 2 ^ 53 /\ (forall m, m ∈ ms -> 0 < m -> 0 < r <= m) /\ (0 < r -> r ∈ ms).

Lemma capped_lowest cs r c : lowest cs r -> nonneg c = true -> lowest (cs ++ [c]) (capped c r).
Proof.
  intros (Hr & Hlow & Hin) Hc. unfold lowest, capped. setoid_rewrite elem_of_app. setoid_rewrite list_elem_of_singleton.
  destruct (nonneg_cases r Hr) as [[Hr0 Hr1]|[Hr0 Hr1]], (nonneg_cases c Hc) as [[Hc0 Hc1]|[Hc0 Hc1]]; rewrite Hr1, Hc0; cbn [andb orb].
  - split_and!; [done| |intros; congruence]. intros x [Hx| ->] Hp; [|congruence]. destruct (Hlow x Hx Hp). congruence.
  - split_and!; [done| |by right]. intros x [Hx| ->] Hp; [|by split; [|apply fleb_refl]]. destruct (Hlow x Hx Hp). congruence.
  - split_and!; [done| |by left; auto]. intros x [Hx| ->] Hp; [by apply Hlow|congruence].
  - destruct (fltb r c) eqn:E; (split_and!; [done| |]).
    + intros x [Hx| ->] Hp; [by apply Hlow|]. split; [done|by apply fltb_fleb].
    + by left; auto.
    + intros x [Hx| ->] Hp; split; try done; [|by apply fleb_refl]. destruct (Hlow x Hx Hp) as [_ Hl].
      assert (nonneg x = true) as Hx'.
      { revert Hp. clear. unfold fltb, SFltb. by destruct x as [[]|[]| |[] m e]. }
      eapply (fleb_trans c r x); try done. by apply fleb_total.
    + by right.
Qed.
Lemma capped_int_eq other m r : 0 <= m < 2 ^ 53 -> 0 <= r < 2 ^ 53 -> capped_int other m r = if (0 <? r) && ((m =? 0) || (r <? m)) then r else m.
Proof.
  intros Hm Hr. unfold capped_int, capped. change f0 with (float_of 0) at 1. rewrite !fltb_float_of, feqb_float_of by lia.
  destruct (_ && _); by rewrite int_of_float_of.
Qed.
Lemma capped_int_lowest other ms r m : lowest_int ms r -> 0 <= m < 2 ^ 53 -> lowest_int (ms ++ [m]) (capped_int other m r).
Proof.
  intros (Hr & Hlow & Hin) Hm. rewrite capped_int_eq by done. unfold lowest_int. setoid_rewrite elem_of_app. setoid_rewrite list_elem_of_singleton.
  destruct (Z.ltb_spec 0 r), (Z.eqb_spec m 0), (Z.ltb_spec r m); cbn [andb orb]; (split; [lia|split; [intros x [Hx| ->] Hp; try lia; specialize (Hlow x Hx Hp); lia|]]);
    intros; try lia; try (by right); try (by left; auto).
Qed.

Lemma Resolve_snoc other ls s : Resolve other (ls ++ [s]) = resolve_level other (Resolve other ls) s.
Proof. unfold Resolve. by rewrite fold_left_app. Qed.
Lemma omap_snoc {A B} (f : A -> option B) l x : omap f (l ++ [x]) = match f x with Some y => omap f l ++ [y] | None => omap f l end.
Proof. rewrite omap_app. cbn. destruct (f x); [done|by rewrite app_nil_r]. Qed.

(** The pairs of the levels that give a user or a password. *)
Definition gives_pair (s : Settings) : bool := is_set (ProtectUser s) || is_set (ProtectPassword s).
Definition pair_of (s : Settings) : string * string := (deref (ProtectUser s), deref (ProtectPassword s)).
Definition pairs (ls : list Settings) : list (string * string) := map pair_of (List.filter gives_pair ls).
Lemma Resolve_pair other ls : (r_ProtectUser (Resolve other ls), r_ProtectPassword (Resolve other ls)) = default ("", "") (last (pairs ls)).
Proof.
  induction ls as [|s ls IH] using rev_ind; [done|]. rewrite Resolve_snoc. unfold pairs. rewrite List.filter_app, map_app. cbn [List.filter resolve_level r_ProtectUser r_ProtectPassword].
  fold (gives_pair s). destruct (gives_pair s); cbn [map]; [by rewrite last_snoc|]. rewrite app_nil_r. exact IH.
Qed.
Lemma Check_pair s : Check_ s = None -> (deref (ProtectUser s) = "" <-> deref (ProtectPassword s) = "").
Proof.
  unfold Check_, some_text, deref. destruct (ProtectUser s) as [u|], (ProtectPassword s) as [p|]; cbn; try destruct (String.eqb_spec u ""); try destruct (String.eqb_spec p ""); cbn; intros; try done; by split.
Qed.

(** C17. What the levels of the cascade come to.  Each limit is the lowest one any
    level sets, 0 being no limit, so no lower level lifts or raises one, nor
    does a tile; the last level that says so decides on protection; and user
    and password come from one level together, so that there is always both
    or neither. *)
Theorem cascade_resolves other levels : Forall level_ok levels ->
  let r := Resolve other levels in
  lowest (omap CPULimit levels) (r_CPULimit r) /\ lowest_int (omap MemLimitMB levels) (r_MemLimitMB r) /\
  (forall cpu mem, nonneg cpu = true -> 0 <= mem < 2 ^ 53 ->
     lowest (omap CPULimit levels ++ [cpu]) (EffectiveLimits other r cpu mem).1 /\ lowest_int (omap MemLimitMB levels ++ [mem]) (EffectiveLimits other r cpu mem).2) /\
  r_Protect r = default false (last (omap Protect levels)) /\
  (r_ProtectUser r, r_ProtectPassword r) = default ("", "") (last (pairs levels)) /\
  (Forall (fun s => Check_ s = None) levels -> r_ProtectUser r = "" <-> r_ProtectPassword r = "").
Proof.
  intros Hok r. assert (lowest (omap CPULimit levels) (r_CPULimit r) /\ lowest_int (omap MemLimitMB levels) (r_MemLimitMB r)) as [Hc Hm].
  { subst r. induction levels as [|s ls IH] using rev_ind; [split; (split; [done|split; [by intros ? ?%elem_of_nil|done]])|].
    apply Forall_app in Hok as [Hls Hs]. apply Forall_inv in Hs. destruct (IH Hls) as [H1 H2]. rewrite Resolve_snoc, !omap_snoc. cbn [resolve_level r_CPULimit r_MemLimitMB].
    destruct (CPULimit s) as [c|] eqn:Ec, (MemLimitMB s) as [m|] eqn:Em; split; try done;
      first [apply capped_lowest; [done|exact (lo_cpu s Hs c Ec)]|apply capped_int_lowest; [done|exact (lo_mem s Hs m Em)]]. }
  split_and!; [done|done| | |by apply Resolve_pair|].
  - intros cpu mem Hcpu Hmem. split; [by apply capped_lowest|by apply capped_int_lowest].
  - subst r. clear. induction levels as [|s ls IH] using rev_ind; [done|]. rewrite Resolve_snoc, omap_snoc. cbn [resolve_level r_Protect].
    destruct (Protect s); [by rewrite last_snoc|done].
  - intros Hch. pose proof (Resolve_pair other levels) as Hp. fold r in Hp. destruct (last (pairs levels)) as [[u p]|] eqn:E; cbn in Hp; injection Hp as -> ->; [|done].
    apply last_Some_elem_of in E. unfold pairs in E. apply list_elem_of_fmap in E as (s & [= -> ->] & [Hs _]%elem_of_filterb).
    apply Check_pair. by apply (proj1 (Forall_forall _ _) Hch).
Qed.
(** A server of 2 cores and a gigabyte; an org lifts the cores and lowers the
    memory; a stack protects its URLs; a tile asks for 4 cores. *)
#[local] Abbreviation ex_levels := [MkSettings (Some (float_of 2)) (Some 1024) None (Some "root") (Some "pw");
  MkSettings (Some f0) (Some 512) None None None; MkSettings None (Some 2048) (Some true) (Some "dev") (Some "d3v")].
Lemma cascade_resolves_witness : Resolve 0 ex_levels = MkResolved (float_of 2) 512 true "dev" "d3v" /\
  fleb (EffectiveLimits 0 (Resolve 0 ex_levels) (float_of 4) 0).1 (float_of 2) = true /\ lowest_int [1024; 512; 2048] (r_MemLimitMB (Resolve 0 ex_levels)).
Proof.
  assert (Forall level_ok ex_levels) as Hok.
  { repeat apply Forall_cons_2; try apply Forall_nil_2; apply level_okb; vm_compute; reflexivity. }
  pose proof (cascade_resolves 0 ex_levels Hok) as (_ & Hm & He & _). split; [vm_compute; reflexivity|]. split; [|exact Hm].
  destruct (He (float_of 4) 0 eq_refl) as [(_ & Hl & _) _]; [lia|]. apply (Hl (float_of 2)); [left|reflexivity].
Defined.

(** ** Merge is all or nothing *)

Definition cpu_knob : Knob := default (MkKnob "" "" TStr "" 0 false false false false "") (lookup "cpu_limit").
Definition mem_knob : Knob := default cpu_knob (lookup "mem_limit_mb").
Definition protect_knob : Knob := default cpu_knob (lookup "protect").
Definition user_knob : Knob := default cpu_knob (lookup "protect_user").
Definition password_knob : Knob := default cpu_knob (lookup "protect_password").
Definition rungs : list Z := [Server; Org; Stack_; Env].

(** What a field takes, trimmed; an empty text clears it. *)
Definition acceptable (key raw : string) : bool :=
  let raw := trim_space raw in
  if String.eqb key "cpu_limit" then String.eqb raw "" || match ParseFloat raw with Some v => negb (fltb v f0) | None => false end
  else if String.eqb key "mem_limit_mb" then String.eqb raw "" || match Atoi64 raw with Some v => 0 <=? v | None => false end
  else if String.eqb key "protect" then String.eqb raw "" || is_set (ParseBool raw)
  else String.eqb key "protect_user" || String.eqb key "protect_password".
Definition unless_empty {A} (read : string -> option A) (raw : string) : option A := let raw := trim_space raw in if String.eqb raw "" then None else read raw.
Definition submitted {A} (vals : gmap string string) (key : string) (read : string -> option A) (old : option A) : option A :=
  match vals !! key with Some raw => unless_empty read raw | None => old end.
Definition merged (s : Settings) (vals : gmap string string) : Settings :=
  MkSettings (submitted vals "cpu_limit" ParseFloat (CPULimit s)) (submitted vals "mem_limit_mb" Atoi64 (MemLimitMB s))
    (submitted vals "protect" ParseBool (Protect s)) (submitted vals "protect_user" Some (ProtectUser s)) (submitted vals "protect_password" Some (ProtectPassword s)).

Lemma Catalogue_split : Catalogue = cpu_knob :: mem_knob :: protect_knob :: user_knob :: password_knob :: drop 5 Catalogue.
Proof. vm_compute. reflexivity. Qed.
Lemma flat_tail : Forall (fun k => k_Scopes k = Flat) (drop 5 Catalogue).
Proof.
  assert (forallb (fun k => k_Scopes k =? Flat) (drop 5 Catalogue) = true) as H by (vm_compute; reflexivity). apply Forall_forall. intros k Hk%list_elem_of_In.
  by apply Z.eqb_eq, (proj1 (forallb_forall _ _) H).
Qed.
Lemma keys_nodup : NoDup (map k_Key Catalogue).
Proof. apply (bool_decide_eq_true_1 _). vm_compute. reflexivity. Qed.
Lemma lookup_spec key k : lookup key = Some k <-> k ∈ Catalogue /\ k_Key k = key.
Proof.
  unfold lookup. split.
  - intros [H E%String.eqb_eq]%find_first_Some. done.
  - intros [H <-]. destruct (find_first _ _) as [k'|] eqn:E.
    + apply find_first_Some in E as [H' Ek%String.eqb_eq]. f_equal. by apply (nodup_key k_Key Catalogue); [apply keys_nodup|..].
    + apply find_first_None in E. pose proof (proj1 (Forall_forall _ _) E k H) as Hf. cbv beta in Hf. by rewrite String.eqb_refl in Hf.
Qed.

(** A submitted flat knob is refused at every rung. *)
Lemma merge_flat ks out vals at_ : at_ ∈ rungs -> Forall (fun k => k_Scopes k = Flat) ks ->
  (forall r, merge_knobs ks out vals at_ = Ok r -> r = out /\ forall k, k ∈ ks -> vals !! k_Key k = None) /\
  ((forall k, k ∈ ks -> vals !! k_Key k = None) -> merge_knobs ks out vals at_ = Ok out).
Proof.
  intros Hat. induction 1 as [|k ks Hk Hks [IH1 IH2]]; cbn [merge_knobs]; [by split; [intros r <-%Ok_inj; split; [done|by intros k ?%elem_of_nil]|]|].
  assert (has (k_Scopes k) at_ = false) as Hh by (rewrite Hk; unfold rungs in Hat; repeat (apply elem_of_cons in Hat as [->|Hat]; [done|]); by apply elem_of_nil in Hat).
  split.
  - intros r. destruct (vals !! k_Key k) as [raw|] eqn:E; [by rewrite Hh|]. intros [-> H]%IH1. split; [done|]. by intros x [->|Hx]%elem_of_cons; [|apply H].
  - intros H. rewrite (H k) by (by left). apply IH2. intros x Hx. apply H. by right.
Qed.

(** One knob of the cascade: its field is replaced, or the merge stops. *)
Definition took (key : string) (vals : gmap string string) : bool := match vals !! key with Some raw => acceptable key raw | None => true end.
Lemma one_knob k ks out out' vals at_ : has (k_Scopes k) at_ = true -> (vals !! k_Key k = None -> out' = out) ->
  (forall raw, vals !! k_Key k = Some raw -> if acceptable (k_Key k) raw then Set_ out (k_Key k) raw = (out', None) else is_set (Set_ out (k_Key k) raw).2 = true) ->
  if took (k_Key k) vals then merge_knobs (k :: ks) out vals at_ = merge_knobs ks out' vals at_ else is_ok (merge_knobs (k :: ks) out vals at_) = false.
Proof.
  intros Hh Hn Hs. cbn [merge_knobs]. unfold took. destruct (vals !! k_Key k) as [raw|]; [|by rewrite Hn]. rewrite Hh. cbn [negb]. specialize (Hs raw eq_refl).
  destruct (acceptable _ _); [by rewrite Hs|]. by destruct (Set_ _ _ _) as [? []].
Qed.
Lemma rung_has k at_ : k_Scopes k = All \/ k_Scopes k = Z.lor All Tile_ -> at_ ∈ rungs -> has (k_Scopes k) at_ = true.
Proof. unfold rungs. intros Hk Hat. repeat (apply elem_of_cons in Hat as [->|Hat]; [by destruct Hk as [-> | ->]|]). by apply elem_of_nil in Hat. Qed.

(** The numbers and the switch read as [parseOpt] and [parseNum] read them. *)
Lemma usable_or_zero k lt0 lt1 le0 : k_AllowZero k = true -> usable k lt0 lt1 le0 = if lt0 then Some (invalid k "Use 0 or more." []) else None.
Proof. intros H. unfold usable. rewrite H. by destruct lt0, lt1, (bool_decide _), le0. Qed.
Lemma parseNum_spec {T} (use : Knob -> T -> option error) k raw read (ok : T -> bool) : (forall v, is_set (use k v) = negb (ok v)) ->
  let good := String.eqb raw "" || match read raw with Some v => ok v | None => false end in
  let r := parseNum use k raw read in
  if good then r = (if String.eqb raw "" then None else read raw, None) else is_set r.2 = true.
Proof.
  intros Hu. unfold parseNum, parseOpt. destruct (String.eqb raw ""); [done|]. cbn [orb]. destruct (read raw) as [v|]; [|done].
  specialize (Hu v). destruct (use k v), (ok v); cbn in *; done.
Qed.
Lemma parseOpt_spec {T} k raw (read : string -> option T) : let r := parseOpt k raw read in
  if String.eqb raw "" || is_set (read raw) then r = (if String.eqb raw "" then None else read raw, None) else is_set r.2 = true.
Proof. unfold parseOpt. destruct (String.eqb raw ""); [done|]. by destruct (read raw). Qed.

Lemma Set_known s key raw k : lookup key = Some k -> has (k_Scopes k) Flat = false -> Set_ s key raw =
  (let raw := trim_space raw in
        if String.eqb key "cpu_limit" then
          let '(v, err) := parseNum usable_float k raw ParseFloat in (MkSettings v (MemLimitMB s) (Protect s) (ProtectUser s) (ProtectPassword s), err)
        else if String.eqb key "mem_limit_mb" then
          let '(v, err) := parseNum usable_int k raw Atoi64 in (MkSettings (CPULimit s) v (Protect s) (ProtectUser s) (ProtectPassword s), err)
        else if String.eqb key "protect" then
          let '(v, err) := parseOpt k raw ParseBool in (MkSettings (CPULimit s) (MemLimitMB s) v (ProtectUser s) (ProtectPassword s), err)
        else if String.eqb key "protect_user" then (MkSettings (CPULimit s) (MemLimitMB s) (Protect s) (str raw) (ProtectPassword s), None)
        else if String.eqb key "protect_password" then (MkSettings (CPULimit s) (MemLimitMB s) (Protect s) (ProtectUser s) (str raw), None)
        else (s, None)).
Proof. unfold Set_. by intros -> ->. Qed.

Section Steps.
Context (vals : gmap string string) (at_ : Z) (Hat : at_ ∈ rungs) (ks : list Knob) (s : Settings).
Ltac knob key k :=
  refine (one_knob k ks s _ vals at_ (rung_has k at_ _ Hat) _ _);
  [vm_compute; tauto|change (k_Key k) with key; unfold submitted; intros ->; by destruct s|];
  change (k_Key k) with key; unfold submitted; intros raw ->; rewrite (Set_known s key raw k) by (vm_compute; reflexivity); unfold acceptable, unless_empty; cbn [String.eqb Ascii.eqb Bool.eqb orb].
Lemma cpu_step : let s' := MkSettings (submitted vals "cpu_limit" ParseFloat (CPULimit s)) (MemLimitMB s) (Protect s) (ProtectUser s) (ProtectPassword s) in
  if took "cpu_limit" vals then merge_knobs (cpu_knob :: ks) s vals at_ = merge_knobs ks s' vals at_ else is_ok (merge_knobs (cpu_knob :: ks) s vals at_) = false.
Proof.
  cbv zeta. knob "cpu_limit" cpu_knob.
  pose proof (parseNum_spec usable_float cpu_knob (trim_space raw) ParseFloat (fun v => negb (fltb v f0))) as H. cbv zeta in H.
  destruct (String.eqb _ _ || _); [rewrite H; [done|]|destruct (parseNum _ _ _ _); apply H];
    (intros v; unfold usable_float; rewrite usable_or_zero by done; by destruct (fltb v f0)).
Qed.
Lemma mem_step : let s' := MkSettings (CPULimit s) (submitted vals "mem_limit_mb" Atoi64 (MemLimitMB s)) (Protect s) (ProtectUser s) (ProtectPassword s) in
  if took "mem_limit_mb" vals then merge_knobs (mem_knob :: ks) s vals at_ = merge_knobs ks s' vals at_ else is_ok (merge_knobs (mem_knob :: ks) s vals at_) = false.
Proof.
  cbv zeta. knob "mem_limit_mb" mem_knob.
  pose proof (parseNum_spec usable_int mem_knob (trim_space raw) Atoi64 (fun v => 0 <=? v)) as H. cbv zeta in H.
  destruct (String.eqb _ _ || _); [rewrite H; [done|]|destruct (parseNum _ _ _ _); apply H];
    (intros v; unfold usable_int; rewrite usable_or_zero by done; destruct (Z.ltb_spec v 0), (Z.leb_spec 0 v); (done || lia)).
Qed.
Lemma protect_step : let s' := MkSettings (CPULimit s) (MemLimitMB s) (submitted vals "protect" ParseBool (Protect s)) (ProtectUser s) (ProtectPassword s) in
  if took "protect" vals then merge_knobs (protect_knob :: ks) s vals at_ = merge_knobs ks s' vals at_ else is_ok (merge_knobs (protect_knob :: ks) s vals at_) = false.
Proof.
  cbv zeta. knob "protect" protect_knob. pose proof (parseOpt_spec protect_knob (trim_space raw) ParseBool) as H. cbv zeta in H.
  destruct (String.eqb _ _ || _); [by rewrite H|]. by destruct (parseOpt _ _ _).
Qed.
Lemma user_step : let s' := MkSettings (CPULimit s) (MemLimitMB s) (Protect s) (submitted vals "protect_user" Some (ProtectUser s)) (ProtectPassword s) in
  if took "protect_user" vals then merge_knobs (user_knob :: ks) s vals at_ = merge_knobs ks s' vals at_ else is_ok (merge_knobs (user_knob :: ks) s vals at_) = false.
Proof. cbv zeta. by knob "protect_user" user_knob. Qed.
Lemma password_step : let s' := MkSettings (CPULimit s) (MemLimitMB s) (Protect s) (ProtectUser s) (submitted vals "protect_password" Some (ProtectPassword s)) in
  if took "protect_password" vals then merge_knobs (password_knob :: ks) s vals at_ = merge_knobs ks s' vals at_ else is_ok (merge_knobs (password_knob :: ks) s vals at_) = false.
Proof. cbv zeta. by knob "protect_password" password_knob. Qed.
End Steps.

Definition cascade_keys : list string := ["cpu_limit"; "mem_limit_mb"; "protect"; "protect_user"; "protect_password"].
Lemma acceptable_key key raw : acceptable key raw = true -> key ∈ cascade_keys.
Proof.
  unfold acceptable, cascade_keys. rewrite !elem_of_cons, elem_of_nil. destruct (String.eqb_spec key "cpu_limit"), (String.eqb_spec key "mem_limit_mb"), (String.eqb_spec key "protect"), (String.eqb_spec key "protect_user"), (String.eqb_spec key "protect_password"); try tauto; done.
Qed.
Lemma cascade_known key : key ∈ cascade_keys -> is_set (lookup key) = true /\ key ∉ map k_Key (drop 5 Catalogue).
Proof.
  unfold cascade_keys. intros H. repeat (apply elem_of_cons in H as [->|H]; [split; [vm_compute; reflexivity|apply (bool_decide_eq_false_1 _); vm_compute; reflexivity]|]). by apply elem_of_nil in H.
Qed.
Lemma known_cases key : is_set (lookup key) = true -> key ∈ cascade_keys \/ key ∈ map k_Key (drop 5 Catalogue).
Proof.
  destruct (lookup key) as [k|] eqn:E; [|done]. apply lookup_spec in E as [Hk <-]. intros _. rewrite Catalogue_split in Hk. unfold cascade_keys.
  do 5 (apply elem_of_cons in Hk as [->|Hk]; [left; apply (bool_decide_eq_true_1 _); vm_compute; reflexivity|]). right. apply list_elem_of_fmap. by exists k.
Qed.

(** The loop over the catalogue takes all five fields at once, or fails. *)
Lemma merge_loop s vals at_ : at_ ∈ rungs ->
  ((forall key, key ∈ cascade_keys -> took key vals = true) -> (forall k, k ∈ drop 5 Catalogue -> vals !! k_Key k = None) -> merge_knobs Catalogue s vals at_ = Ok (merged s vals)) /\
  (forall r, merge_knobs Catalogue s vals at_ = Ok r -> r = merged s vals /\ (forall key, key ∈ cascade_keys -> took key vals = true) /\ forall k, k ∈ drop 5 Catalogue -> vals !! k_Key k = None).
Proof.
  intros Hat. rewrite Catalogue_split. split.
  - intros Ht Hf. assert (forall key, key ∈ cascade_keys -> took key vals = true) as Ht' by done. unfold cascade_keys in Ht'.
    pose proof (cpu_step vals at_ Hat) as H1. rewrite Ht in H1 by (apply (bool_decide_eq_true_1 _); vm_compute; reflexivity). rewrite H1.
    pose proof (mem_step vals at_ Hat) as H2. rewrite Ht in H2 by (apply (bool_decide_eq_true_1 _); vm_compute; reflexivity). rewrite H2.
    pose proof (protect_step vals at_ Hat) as H3. rewrite Ht in H3 by (apply (bool_decide_eq_true_1 _); vm_compute; reflexivity). rewrite H3.
    pose proof (user_step vals at_ Hat) as H4. rewrite Ht in H4 by (apply (bool_decide_eq_true_1 _); vm_compute; reflexivity). rewrite H4.
    pose proof (password_step vals at_ Hat) as H5. rewrite Ht in H5 by (apply (bool_decide_eq_true_1 _); vm_compute; reflexivity). rewrite H5.
    rewrite (proj2 (merge_flat _ _ vals at_ Hat flat_tail) Hf). done.
  - intros r H.
    pose proof (cpu_step vals at_ Hat (mem_knob :: protect_knob :: user_knob :: password_knob :: drop 5 Catalogue) s) as H1. destruct (took "cpu_limit" vals) eqn:E1; [rewrite H1 in H|by rewrite H in H1].
    match type of H with merge_knobs (_ :: ?ks) ?s _ _ = _ => pose proof (mem_step vals at_ Hat ks s) as H2 end. destruct (took "mem_limit_mb" vals) eqn:E2; [rewrite H2 in H|by rewrite H in H2].
    match type of H with merge_knobs (_ :: ?ks) ?s _ _ = _ => pose proof (protect_step vals at_ Hat ks s) as H3 end. destruct (took "protect" vals) eqn:E3; [rewrite H3 in H|by rewrite H in H3].
    match type of H with merge_knobs (_ :: ?ks) ?s _ _ = _ => pose proof (user_step vals at_ Hat ks s) as H4 end. destruct (took "protect_user" vals) eqn:E4; [rewrite H4 in H|by rewrite H in H4].
    match type of H with merge_knobs (_ :: ?ks) ?s _ _ = _ => pose proof (password_step vals at_ Hat ks s) as H5 end. destruct (took "protect_password" vals) eqn:E5; [rewrite H5 in H|by rewrite H in H5].
    apply (proj1 (merge_flat _ _ vals at_ Hat flat_tail)) in H as [-> Hf]. split_and!; [done| |done].
    intros key Hk. unfold cascade_keys in Hk. rewrite !elem_of_cons, elem_of_nil in Hk. by destruct Hk as [->|[->|[->|[->|[->|[]]]]]].
Qed.

Lemma Merge_takes s vals at_ : at_ ∈ rungs -> (forall key raw, vals !! key = Some raw -> acceptable key raw = true) -> Check_ (merged s vals) = None ->
  Merge s vals at_ = (merged s vals, None).
Proof.
  intros Hat Hv Hc. unfold Merge. rewrite (proj1 (merge_loop s vals at_ Hat)).
  - destruct (find_first _ _) as [[key raw]|] eqn:E; [|by rewrite Hc]. exfalso. apply find_first_Some in E as [Hin Hl]. change (negb (is_set (lookup key)) = true) in Hl.
    apply elem_of_map_to_list in Hin. apply Hv, acceptable_key, cascade_known in Hin as [Hk _]. by rewrite Hk in Hl.
  - intros key Hk. unfold took. destruct (vals !! key) as [raw|] eqn:E; [by apply Hv|done].
  - intros k Hk. destruct (vals !! k_Key k) as [raw|] eqn:E; [|done]. exfalso. apply Hv, acceptable_key, cascade_known in E as [_ Hn]. apply Hn, list_elem_of_fmap. by exists k.
Qed.

(** A merge at a rung of the cascade takes everything or nothing.  It succeeds
    exactly when every submitted value is one its field takes (a core count
    and a memory limit that are numbers and not negative, a switch that is
    true or false) and user and password are then both there or both not; a
    key of a knob that has no rungs, or of none, is refused.  The result has
    the fields submitted and keeps the others; after a refusal it is the level
    as it was. *)
Theorem Merge_spec s vals at_ : at_ ∈ rungs ->
  let good := (forall key raw, vals !! key = Some raw -> acceptable key raw = true) /\ Check_ (merged s vals) = None in
  (good -> Merge s vals at_ = (merged s vals, None)) /\
  (~ good -> exists e, Merge s vals at_ = (s, Some e)).
Proof.
  intros Hat good. destruct (merge_loop s vals at_ Hat) as [_ Hno]. split.
  - intros [Hv Hc]. by apply Merge_takes.
  - intros Hbad. unfold Merge. destruct (merge_knobs Catalogue s vals at_) as [r|e] eqn:E; [|by eexists].
    destruct (Hno r eq_refl) as (-> & Ht & Hf). destruct (find_first _ _) as [kv|] eqn:Ef; [by eexists|]. destruct (Check_ (merged s vals)) as [e|] eqn:Ec; [by eexists|]. exfalso.
    apply Hbad. split; [|first [exact Ec|done]]. intros key raw Hr. apply find_first_None in Ef. apply elem_of_map_to_list in Hr as Hin.
    pose proof (proj1 (Forall_forall _ _) Ef (key, raw) Hin) as Hl.
    change (negb (is_set (lookup key)) = false) in Hl. apply negb_false_iff in Hl. destruct (known_cases key Hl) as [Hk|Hk].
    + specialize (Ht key Hk). unfold took in Ht. by rewrite Hr in Ht.
    + apply list_elem_of_fmap in Hk as (k & -> & Hk). apply Hf in Hk. congruence.
Qed.
Lemma Merge_spec_witness : let s := MkSettings None (Some 512) None (Some "u") (Some "p") in
  Merge s {["cpu_limit" := " 1.5 "; "mem_limit_mb" := ""]} Org = (MkSettings (Some (S754_finite false 6755399441055744 (-52))) None None (Some "u") (Some "p"), None) /\
  exists e, Merge s {["cpu_limit" := "2"; "protect_user" := ""]} Org = (s, Some e).
Proof.
  cbv zeta. split.
  - etransitivity; [refine (proj1 (Merge_spec _ {["cpu_limit" := " 1.5 "; "mem_limit_mb" := ""]} Org _) _)|vm_compute; reflexivity].
    + apply (bool_decide_eq_true_1 _). vm_compute. reflexivity.
    + split; [|vm_compute; reflexivity]. intros key raw. rewrite lookup_insert_Some, lookup_singleton_Some. intros [[<- <-]|[_ [<- <-]]]; vm_compute; reflexivity.
  - refine (proj2 (Merge_spec _ {["cpu_limit" := "2"; "protect_user" := ""]} Org _) _).
    + apply (bool_decide_eq_true_1 _). vm_compute. reflexivity.
    + intros [_ H]. vm_compute in H. done.
Defined.

(** ** The rows answer *)

Section FlatRows.
Context (cron_ParseStandard : string -> bool) `{Json} (boot : gmap string string).

(** Every history of writes. *)
Inductive written : gmap string string -> Prop :=
  | written_none : written ∅
  | written_set rows key raw rows' : written rows -> SetFlat cron_ParseStandard rows key raw = Ok rows' -> written rows'
  | written_defaults rows vals rows' : written rows -> SetDefaults rows vals = Ok rows' -> written rows'.

(** What a row of a knob holds: nothing, where that means off, or a trimmed
    value the knob takes. *)
Definition stored_ok (k : Knob) (v : string) : Prop :=
  (v = "" /\ k_EmptyOff k = true) \/ (v <> "" /\ trim_space v = v /\ validate cron_ParseStandard k v = None).
Definition floor (k : Knob) : Z := if String.eqb (k_Key k) "observe_max_memory" then 256 else if k_AllowZero k then 0 else 1.

Lemma SetFlat_spec rows key raw rows' : SetFlat cron_ParseStandard rows key raw = Ok rows' ->
  exists k, flat_knob key = Some k /\
    rows' = (if String.eqb (trim_space raw) "" then if k_EmptyOff k then <[key := ""]> rows else delete key rows else <[key := trim_space raw]> rows) /\
    (trim_space raw <> "" -> stored_ok k (trim_space raw)).
Proof.
  unfold SetFlat, CheckFlat, flat_knob. destruct (lookup key) as [k|]; [|done]. destruct (k_Scopes k =? Flat); [|done]. destruct (k_ReadOnly k); [done|].
  destruct (String.eqb_spec (trim_space raw) "") as [E|E].
  - intros Hr. exists k. split_and!; [done| |done]. destruct (k_EmptyOff k); by apply Ok_inj in Hr.
  - destruct (validate _ _ _) as [e|] eqn:Ev; [by destruct (IsInvalid e)|]. intros <-%Ok_inj. exists k. split_and!; [done|done|].
    intros _. right. split_and!; [done|by apply tidy_trim, trim_tidy|done].
Qed.
Lemma flat_knob_spec key k : flat_knob key = Some k <-> k ∈ Catalogue /\ k_Key k = key /\ k_Scopes k = Flat.
Proof.
  unfold flat_knob. destruct (lookup key) as [k'|] eqn:E.
  - apply lookup_spec in E as [Hk <-]. destruct (Z.eqb_spec (k_Scopes k') Flat) as [Hs|Hs]; split; try done.
    + by intros [= <-].
    + intros (Hk' & Ek & _). f_equal. by apply (nodup_key k_Key Catalogue); [apply keys_nodup|..].
    + intros (Hk' & Ek & Hf). by rewrite (nodup_key k_Key Catalogue k k' keys_nodup Hk' Hk Ek) in Hf.
  - split; [done|]. intros (Hk & Ek & _). by rewrite (proj2 (lookup_spec key k)) in E.
Qed.
Lemma defaults_no_knob : flat_knob DefaultsKey = None.
Proof. vm_compute. reflexivity. Qed.

Lemma written_ok rows : written rows -> forall key k v, flat_knob key = Some k -> rows !! key = Some v -> stored_ok k v.
Proof.
  induction 1 as [|rows key raw rows' Hw IH Hs|rows vals rows' Hw IH Hs]; intros key' k v Hk.
  - by rewrite lookup_empty.
  - apply SetFlat_spec in Hs as (k0 & Hk0 & -> & Hok). destruct (String.eqb_spec (trim_space raw) "") as [E|E]; [destruct (k_EmptyOff k0) eqn:Eo|].
    + rewrite lookup_insert_Some. intros [[<- <-]|[_ Hv]]; [left; split; congruence|by eapply IH].
    + rewrite lookup_delete_Some. intros [_ Hv]. by eapply IH.
    + rewrite lookup_insert_Some. intros [[<- <-]|[_ Hv]]; [|by eapply IH]. assert (k = k0) as -> by congruence. by apply Hok.
  - unfold SetDefaults in Hs. destruct (Defaults rows) as [cur|]; [|done]. destruct (Merge _ _ _) as [next [e|]]; [done|]. apply Ok_inj in Hs. subst rows'.
    rewrite lookup_insert_Some. intros [[<- _]|[_ Hv]]; [by rewrite defaults_no_knob in Hk|by eapply IH].
Qed.

(** An int knob's text is a number from its floor up. *)
Lemma validate_int k raw : k_Type k = TInt -> validate cron_ParseStandard k raw = None -> exists n, Atoi64 raw = Some n /\ floor k <= n.
Proof.
  intros Ht. unfold validate, floor. destruct (IsCron _ && _); [done|]. destruct (if String.eqb _ "proxy_custom" then _ else None); [done|]. rewrite Ht.
  destruct (Atoi64 raw) as [n|]; [|done]. destruct (String.eqb _ "observe_max_memory"); cbn [andb]; [destruct (Z.ltb_spec n 256); [done|]; intros; by exists n|].
  unfold usable_int, usable. rewrite Ht. destruct (k_AllowZero k); cbn [andb negb]; [destruct (Z.ltb_spec n 0); [done|]|destruct (Z.ltb_spec n 0), (Z.ltb_spec n 1); cbn; try done]; intros _; exists n; (split; [done|lia]).
Qed.
Lemma Atoi64_bound s n : Atoi64 s = Some n -> min_int <= n <= max_int.
Proof.
  unfold Atoi64. destruct (unsign s) as [neg t]. destruct (String.eqb t ""); [done|]. destruct (decimal t 0); [|done].
  destruct (_ && _) eqn:E; [|done]. intros [= <-]. apply andb_true_iff in E. lia.
Qed.
Lemma int_defaults : Forall (fun k => k_Type k = TInt -> k_EmptyOff k = false /\ exists n, Atoi64 (k_Default k) = Some n /\ (k_Scopes k = Flat -> floor k <= n)) Catalogue.
Proof.
  assert (forallb (fun k => negb (bool_decide (k_Type k = TInt)) || (negb (k_EmptyOff k) && match Atoi64 (k_Default k) with Some n => negb (k_Scopes k =? Flat) || (floor k <=? n) | None => false end)) Catalogue = true) as Hall by (vm_compute; reflexivity).
  apply Forall_forall. intros k Hk%list_elem_of_In Ht. pose proof (proj1 (forallb_forall _ _) Hall k Hk) as Hf. cbv beta in Hf. rewrite (bool_decide_eq_true_2 _ Ht) in Hf. cbn [negb orb] in Hf.
  apply andb_true_iff in Hf as [He%negb_true_iff Hn]. split; [done|]. destruct (Atoi64 _) as [n|]; [|done]. exists n. split; [done|]. intros Hs. rewrite Hs in Hn. cbn in Hn. by apply Z.leb_le.
Qed.
End FlatRows.

(** The install-wide rows, whatever was written before.  A write that is taken
    is read back trimmed; an empty one brings back the boot value or the
    default, or is off where the knob says so; no other knob changes.  And a
    knob that is a whole number always answers one, from the knob's floor up,
    which no history of writes, nor a boot value the knob takes, can undo. *)
Theorem flat_rows_answer cron_ParseStandard `{Json} boot rows : written cron_ParseStandard rows ->
  (forall key raw rows', SetFlat cron_ParseStandard rows key raw = Ok rows' ->
     (forall key', key' <> key -> rows' !! key' = rows !! key') /\
     exists k, flat_knob key = Some k /\
       Get boot rows' key = Ok (if String.eqb (trim_space raw) "" then if k_EmptyOff k then "" else default (k_Default k) (boot !! key) else trim_space raw)) /\
  (forall key k, flat_knob key = Some k -> k_Type k = TInt -> (forall b, boot !! key = Some b -> validate cron_ParseStandard k b = None) ->
     exists n, Int boot rows key = Ok n /\ floor k <= n <= max_int).
Proof.
  intros Hw. split.
  - intros key raw rows' Hs. apply SetFlat_spec in Hs as (k & Hk & -> & _). split.
    + intros key' Hne. destruct (String.eqb _ _); [destruct (k_EmptyOff k)|]; by rewrite ?lookup_insert_ne, ?lookup_delete_ne.
    + exists k. split; [done|]. unfold Get. rewrite Hk. destruct (String.eqb _ _); [destruct (k_EmptyOff k)|]; rewrite ?lookup_insert_eq, ?lookup_delete_eq; try done. by destruct (boot !! key).
  - intros key k Hk Ht Hb. pose proof (proj1 (flat_knob_spec key k) Hk) as (Hin & Ek & Hs). destruct (proj1 (Forall_forall _ _) int_defaults k Hin Ht) as (He & d & Hd & Hfd).
    assert (exists v n, Get boot rows key = Ok v /\ Atoi64 v = Some n /\ floor k <= n) as (v & n & Hg & Hn & Hf).
    { unfold Get. rewrite Hk. destruct (rows !! key) as [v|] eqn:Ev.
      - destruct (written_ok cron_ParseStandard rows Hw key k v Hk Ev) as [[_ Ho]|(_ & _ & Hv)]; [congruence|]. destruct (validate_int _ k v Ht Hv) as (n & ? & ?). by exists v, n.
      - destruct (boot !! key) as [b|]; [|exists (k_Default k), d; split_and!; auto]. destruct (validate_int _ k b Ht (Hb b eq_refl)) as (n & ? & ?). by exists b, n. }
    exists n. unfold Int. rewrite Hg, Hn. pose proof (Atoi64_bound v n Hn). split; [done|lia].
Qed.

(** The server rung survives a merge: what is read back is the merged level,
    as text. *)
Lemma defaults_back `{Json, !JsonLaws} rows cur vals : Defaults rows = Ok cur -> (forall key raw, vals !! key = Some raw -> acceptable key raw = true) ->
  Check_ (merged cur vals) = None -> encodable (merged cur vals) = true ->
  exists rows', SetDefaults rows vals = Ok rows' /\ Defaults rows' = Ok (as_text (merged cur vals)).
Proof.
  intros Hd Hv Hc He. unfold SetDefaults. rewrite Hd, Merge_takes by (done || by left). eexists. split; [done|]. unfold Defaults. rewrite lookup_insert_eq. change (Parse (JSON (merged cur vals)) = Ok (as_text (merged cur vals))).
  unfold JSON, Parse. rewrite He. destruct (json_back _ He) as [Hb Ht]. destruct (String.eqb_spec (trim_space (Marshal (merged cur vals))) ""); [done|]. by rewrite Hb.
Qed.
(** C18. A core count that is NaN or infinite is no negative number, so it is
    taken; but it has no JSON text, so the row is written empty, and every
    default of the server with it: after the write the server rung is read
    back as if nothing had ever been set, protection included. *)
Theorem nan_wipes_the_server_rung `{Json} rows cur raw f : Defaults rows = Ok cur -> Check_ cur = None ->
  ParseFloat (trim_space raw) = Some f -> finite f = false -> fltb f f0 = false ->
  exists rows', SetDefaults rows {["cpu_limit" := raw]} = Ok rows' /\ Defaults rows' = Ok no_settings.
Proof.
  intros Hd Hc Hf Hnf Hneg. assert (String.eqb (trim_space raw) "" = false) as Hne.
  { destruct (String.eqb_spec (trim_space raw) "") as [E|]; [|done]. rewrite E in Hf. vm_compute in Hf. done. }
  assert (merged cur {["cpu_limit" := raw]} = MkSettings (Some f) (MemLimitMB cur) (Protect cur) (ProtectUser cur) (ProtectPassword cur)) as Hm.
  { unfold merged, submitted, unless_empty. rewrite lookup_singleton_eq, Hne, Hf. by rewrite !lookup_singleton_ne by done. }
  unfold SetDefaults. rewrite Hd, Merge_takes; rewrite ?Hm; [|by left| |exact Hc].
  - eexists. split; [done|]. unfold Defaults, JSON. rewrite lookup_insert_eq. cbn [encodable CPULimit]. by rewrite Hnf.
  - intros key v [<- <-]%lookup_singleton_Some. unfold acceptable. cbn [String.eqb Ascii.eqb Bool.eqb]. by rewrite Hne, Hf, Hneg.
Qed.

(** A codec that meets the laws: the bits of a level's code as zeros and ones. *)
Section Codec.
Definition float_code (f : float) : nat * bool * positive * Z :=
  match f with S754_zero s => (0%nat, s, xH, 0) | S754_infinity s => (1%nat, s, xH, 0) | S754_nan => (2%nat, false, xH, 0) | S754_finite s m e => (3%nat, s, m, e) end.
Definition float_decode (c : nat * bool * positive * Z) : float :=
  match c with (0%nat, s, _, _) => S754_zero s | (1%nat, s, _, _) => S754_infinity s | (3%nat, s, m, e) => S754_finite s m e | _ => S754_nan end.
Lemma float_code_decode f : float_decode (float_code f) = f.
Proof. by destruct f. Qed.
Definition level_code (s : Settings) : positive := encode (float_code <$> CPULimit s, MemLimitMB s, Protect s, ProtectUser s, ProtectPassword s).
Definition level_decode (p : positive) : option Settings :=
  (fun c : option (nat * bool * positive * Z) * option Z * option bool * option string * option string =>
     let '(f, m, b, u, w) := c in MkSettings (float_decode <$> f) m b u w) <$> decode p.
Lemma level_code_decode s : level_decode (level_code s) = Some s.
Proof.
  unfold level_decode, level_code. rewrite decode_encode. destruct s as [[f|] m b u w]; cbn; [|done]. by rewrite float_code_decode.
Qed.
Fixpoint bits (p : positive) : string := match p with xH => "" | xO p => String "0" (bits p) | xI p => String "1" (bits p) end.
Fixpoint unbits (s : string) : positive := match s with EmptyString => xH | String "0" s => xO (unbits s) | String _ s => xI (unbits s) end.
Lemma unbits_bits p : unbits (bits p) = p.
Proof. induction p as [p IH|p IH|]; cbn; by rewrite ?IH. Qed.
#[local] Instance ex_json : Json := {
  Marshal s := String "b" (bits (level_code (as_text s)));
  Unmarshal s := match s with String "b" s => level_decode (unbits s) | _ => None end }.
#[local] Instance ex_json_laws : JsonLaws.
Proof.
  constructor. intros s _. cbn [Marshal Unmarshal ex_json]. rewrite unbits_bits, level_code_decode. split; [done|].
  rewrite trim_space_dense; [done|]. cbn [all_bytes]. apply andb_true_iff. split; [done|]. generalize (level_code (as_text s)). intros p. induction p as [p IH|p IH|]; cbn; by rewrite ?IH.
Qed.

Lemma flat_rows_answer_witness : let rows := {["workers" := "4"]} in
  (exists n, Int {["seed_max_gb" := "7"]} rows "workers" = Ok n /\ 1 <= n <= max_int) /\
  exists k, flat_knob "workers" = Some k /\ Get ∅ rows "workers" = Ok "4".
Proof.
  cbv zeta. assert (SetFlat (fun _ => true) ∅ "workers" " 4 " = Ok {["workers" := "4"]}) as Hs by (vm_compute; reflexivity).
  split.
  - refine (proj2 (flat_rows_answer (fun _ => true) {["seed_max_gb" := "7"]} {["workers" := "4"]} (written_set _ ∅ "workers" " 4 " _ (written_none _) Hs)) "workers" (default cpu_knob (lookup "workers")) _ _ _);
      [vm_compute; reflexivity..|]. intros b Hb. vm_compute in Hb. done.
  - destruct (proj1 (flat_rows_answer (fun _ => true) ∅ ∅ (written_none _)) "workers" " 4 " _ Hs) as [_ (k & Hk & Hg)]. exists k. split; [done|exact Hg].
Defined.


(** A protected server whose cores are set to NaN. *)
Lemma nan_wipes_the_server_rung_witness : let rows := {["defaults" := Marshal (MkSettings None None (Some true) (Some "root") (Some "pw"))]} in
  exists rows', SetDefaults rows {["cpu_limit" := " NaN "]} = Ok rows' /\ Defaults rows = Ok (MkSettings None None (Some true) (Some "root") (Some "pw")) /\ Defaults rows' = Ok no_settings.
Proof.
  cbv zeta. assert (Defaults {["defaults" := Marshal (MkSettings None None (Some true) (Some "root") (Some "pw"))]} = Ok (MkSettings None None (Some true) (Some "root") (Some "pw"))) as Hd by (vm_compute; reflexivity).
  destruct (nan_wipes_the_server_rung _ _ " NaN " SpecFloat.S754_nan Hd) as (rows' & Hs & Hr); [vm_compute; reflexivity..|]. exists rows'. exact (conj Hs (conj Hd Hr)).
Defined.
End Codec.

