(* ===== verification/GoPath.v ===== *)
(** * Slash paths: what the sources use of Go's [path] *)
From S2P Require Import Prelude GoStrings.

Definition IsAbs (p : string) : bool := has_prefix p "/".

(** One element of a path onto the elements kept so far, newest first. *)
Definition clean_elem (rooted : bool) (acc : list string) (e : string) : list string :=
  if String.eqb e "" || String.eqb e "." then acc
  else if String.eqb e ".." then
    match acc with
    | [] => if rooted then [] else [".."]
    | x :: rest => if String.eqb x ".." then ".." :: acc else rest
    end
  else e :: acc.
Definition clean_elems (p : string) : list string := rev (fold_left (clean_elem (IsAbs p)) (split "/" p) []).

(** [path.Clean]: the shortest path that names the same place. *)
Definition Clean (p : string) : string :=
  let es := clean_elems p in
  if IsAbs p then "/" +:+ join "/" es
  else match es with [] => "." | _ => join "/" es end.

(** ** Cleaning once is enough *)

(** An element that stays: no separator, not empty, not a dot. *)
Definition elem_ok (e : string) : Prop := e <> "" /\ e <> "." /\ has_byte "/" e = false.

(** What is kept, newest first: dots only at the root of an unrooted path. *)
Inductive kept (rooted : bool) : list string -> Prop :=
  | kept_nil : kept rooted []
  | kept_name e acc : elem_ok e -> e <> ".." -> kept rooted acc -> kept rooted (e :: acc)
  | kept_up acc : rooted = false -> Forall (fun e => e = "..") acc -> kept rooted (".." :: acc).

Lemma kept_dots rooted acc : rooted = false -> Forall (fun e => e = "..") acc -> kept rooted acc.
Proof. intros Hr H. destruct H as [|e acc -> H]; [constructor|by constructor 3]. Qed.

Lemma clean_elem_kept rooted acc e : has_byte "/" e = false -> kept rooted acc -> kept rooted (clean_elem rooted acc e).
Proof.
  intros He Hk. unfold clean_elem. destruct (String.eqb_spec e ""); [done|]. destruct (String.eqb_spec e "."); [done|]. simpl.
  destruct (String.eqb_spec e ".."); [|by constructor 2].
  destruct Hk as [|x acc Hx Hn Hk|acc Hr Hd].
  - destruct rooted; [constructor|by constructor 3].
  - by rewrite (proj2 (String.eqb_neq x "..")).
  - simpl. constructor 3; [done|by constructor].
Qed.

Lemma clean_fold_kept rooted es acc : Forall (fun e => has_byte "/" e = false) es -> kept rooted acc ->
  kept rooted (fold_left (clean_elem rooted) es acc).
Proof. intros H. revert acc. induction H as [|e es He _ IH]; intros acc Hk; simpl; [done|]. by apply IH, clean_elem_kept. Qed.

Lemma kept_elem rooted acc : kept rooted acc -> Forall elem_ok acc.
Proof.
  induction 1 as [|e acc He _ _ IH|acc _ Hd]; constructor; try done.
  eapply Forall_impl; [exact Hd|]. by intros e ->.
Qed.

Lemma kept_again rooted acc : kept rooted acc -> fold_left (clean_elem rooted) (rev acc) [] = acc.
Proof.
  induction 1 as [|e acc (H1 & H2 & _) Hn _ IH|acc -> Hd]; [done| |].
  - simpl. rewrite fold_left_app, IH. simpl. unfold clean_elem.
    by rewrite !(proj2 (String.eqb_neq _ _)) by done.
  - simpl. rewrite fold_left_app. assert (fold_left (clean_elem false) (rev acc) [] = acc) as ->.
    { induction Hd as [|x acc -> Hd IH]; [done|]. simpl. rewrite fold_left_app, IH. simpl. by destruct Hd as [|y ys ->]. }
    by destruct Hd as [|y ys ->].
Qed.

Lemma clean_elems_kept p : kept (IsAbs p) (rev (clean_elems p)).
Proof. unfold clean_elems. rewrite rev_involutive. apply clean_fold_kept; [apply split_no_sep|constructor]. Qed.

(** A rooted path has no way up left in it. *)
Lemma clean_rooted p e : IsAbs p = true -> e ∈ clean_elems p -> elem_ok e /\ e <> "..".
Proof.
  intros Ha He. pose proof (clean_elems_kept p) as H. rewrite Ha in H.
  assert (e ∈ rev (clean_elems p)) as Hr by (apply list_elem_of_In, in_rev; by rewrite rev_involutive; apply list_elem_of_In).
  clear He. induction H as [|x acc Hx Hn Hk IH|acc Hf _]; [by apply not_elem_of_nil in Hr| |done].
  apply elem_of_cons in Hr as [->|Hr]; [done|by apply IH].
Qed.

Lemma fold_clean_skip rooted es acc : fold_left (clean_elem rooted) ("" :: es) acc = fold_left (clean_elem rooted) es acc.
Proof. done. Qed.

Lemma IsAbs_split p : IsAbs p = true -> exists es, split "/" p = "" :: es.
Proof. unfold IsAbs. rewrite has_prefix_spec. intros [t ->]. by eexists. Qed.

Lemma join_abs (e : string) es : elem_ok e -> IsAbs (join "/" (e :: es)) = false.
Proof.
  intros (He & _ & Hs). destruct (IsAbs _) eqn:Ea; [|done]. unfold IsAbs in Ea. apply has_prefix_spec in Ea as [t Et].
  destruct e as [|c e]; [done|]. exfalso. simpl in Hs. apply orb_false_iff in Hs as [Hc _].
  assert (c = "/"%char) as -> by (destruct es; simpl in Et; by injection Et). done.
Qed.

Lemma elems_no_sep p : Forall (fun e => has_byte "/" e = false) (clean_elems p).
Proof.
  pose proof (kept_elem _ _ (clean_elems_kept p)) as H. apply Forall_rev in H. rewrite rev_involutive in H.
  eapply Forall_impl; [exact H|]. by intros e (_ & _ & He).
Qed.

Lemma Clean_abs p : IsAbs (Clean p) = IsAbs p.
Proof.
  unfold Clean. destruct (IsAbs p) eqn:Ea; [done|]. pose proof (kept_elem _ _ (clean_elems_kept p)) as H.
  apply Forall_rev in H. rewrite rev_involutive in H. destruct (clean_elems p) as [|e es]; [done|]. inversion H; subst. by apply join_abs.
Qed.

Lemma Clean_elems p : clean_elems (Clean p) = clean_elems p.
Proof.
  unfold clean_elems at 1. rewrite Clean_abs. pose proof (clean_elems_kept p) as Hk. pose proof (elems_no_sep p) as Hs.
  pose proof (kept_again _ _ Hk) as Hf. rewrite rev_involutive in Hf.
  assert (fold_left (clean_elem (IsAbs p)) (split "/" (Clean p)) [] = rev (clean_elems p)) as ->; [|by rewrite rev_involutive].
  unfold Clean. destruct (IsAbs p) eqn:Ea.
  - change (split "/" ("/" +:+ join "/" (clean_elems p))) with ("" :: split "/" (join "/" (clean_elems p))).
    rewrite fold_clean_skip. destruct (clean_elems p) as [|e es] eqn:Ee; [done|]. by rewrite split_join.
  - destruct (clean_elems p) as [|e es] eqn:Ee; [done|]. by rewrite split_join.
Qed.

Lemma Clean_twice p : Clean (Clean p) = Clean p.
Proof. unfold Clean at 1. by rewrite Clean_elems, Clean_abs. Qed.

(** An absolute path in its cleaned form: no way up, no doubled slash. *)
Definition cleanAbs (p : string) : bool := IsAbs p && String.eqb (Clean p) p.

Lemma cleanAbs_spec p : cleanAbs p = true ->
  p = "/" +:+ join "/" (clean_elems p) /\ Forall (fun e => elem_ok e /\ e <> "..") (clean_elems p).
Proof.
  unfold cleanAbs. rewrite andb_true_iff. intros [Ha Hc]. apply String.eqb_eq in Hc. split.
  - rewrite <-Hc at 1. unfold Clean. by rewrite Ha.
  - apply Forall_forall. intros e He. by apply (clean_rooted p).
Qed.
