(* ===== verification/Sha256.v ===== *)
(** * SHA-256: Go's [crypto/sha256], for the fingerprint a grant is bound to

    FIPS 180-4 over 32-bit words as [Z]. *)
From S2P Require Import Prelude GoStrings.

Definition w32 (x : Z) : Z := Z.land x (2 ^ 32 - 1).
Definition rotr (n x : Z) : Z := Z.lor (Z.shiftr x n) (w32 (Z.shiftl x (32 - n))).
Definition not32 (x : Z) : Z := Z.lxor x (2 ^ 32 - 1).

(** The fractional parts of the square and cube roots of the first primes. *)
Definition sha_init : list Z :=
  [1779033703; 3144134277; 1013904242; 2773480762; 1359893119; 2600822924; 528734635; 1541459225].
Definition sha_k : list Z :=
  [1116352408; 1899447441; 3049323471; 3921009573; 961987163; 1508970993; 2453635748; 2870763221;
   3624381080; 310598401; 607225278; 1426881987; 1925078388; 2162078206; 2614888103; 3248222580;
   3835390401; 4022224774; 264347078; 604807628; 770255983; 1249150122; 1555081692; 1996064986;
   2554220882; 2821834349; 2952996808; 3210313671; 3336571891; 3584528711; 113926993; 338241895;
   666307205; 773529912; 1294757372; 1396182291; 1695183700; 1986661051; 2177026350; 2456956037;
   2730485921; 2820302411; 3259730800; 3345764771; 3516065817; 3600352804; 4094571909; 275423344;
   430227734; 506948616; 659060556; 883997877; 958139571; 1322822218; 1537002063; 1747873779;
   1955562222; 2024104815; 2227730452; 2361852424; 2428436474; 2756734187; 3204031479; 3329325298].

Definition ssig0 (x : Z) : Z := Z.lxor (Z.lxor (rotr 7 x) (rotr 18 x)) (Z.shiftr x 3).
Definition ssig1 (x : Z) : Z := Z.lxor (Z.lxor (rotr 17 x) (rotr 19 x)) (Z.shiftr x 10).
Definition bsig0 (x : Z) : Z := Z.lxor (Z.lxor (rotr 2 x) (rotr 13 x)) (rotr 22 x).
Definition bsig1 (x : Z) : Z := Z.lxor (Z.lxor (rotr 6 x) (rotr 11 x)) (rotr 25 x).
Definition ch (x y z : Z) : Z := Z.lxor (Z.land x y) (Z.land (not32 x) z).
Definition maj (x y z : Z) : Z := Z.lxor (Z.lxor (Z.land x y) (Z.land x z)) (Z.land y z).

(** ** The padded message as 16-word blocks *)

Fixpoint bytes_of (s : string) : list Z := match s with EmptyString => [] | String c s => code c :: bytes_of s end.
Definition be64 (n : Z) : list Z := map (fun i => Z.land (Z.shiftr n (8 * i)) 255) [7; 6; 5; 4; 3; 2; 1; 0].
Definition padded (bs : list Z) : list Z :=
  let n := Z.of_nat (length bs) in
  bs ++ 128 :: replicate (Z.to_nat ((55 - n) mod 64)) 0 ++ be64 (8 * n).
Fixpoint words (bs : list Z) : list Z :=
  match bs with
  | a :: b :: c :: d :: bs => (((a * 256 + b) * 256 + c) * 256 + d) :: words bs
  | _ => []
  end.
Fixpoint blocks (fuel : nat) (ws : list Z) : list (list Z) :=
  match fuel with
  | O => []
  | S fuel => match ws with [] => [] | _ => take 16 ws :: blocks fuel (drop 16 ws) end
  end.

(** ** Compression *)

(** The message schedule, newest word first. *)
Fixpoint schedule (n : nat) (ws : list Z) : list Z :=
  match n with
  | O => ws
  | S n =>
      let w i := nth i ws 0 in
      schedule n (w32 (ssig1 (w 1%nat) + w 6%nat + ssig0 (w 14%nat) + w 15%nat) :: ws)
  end.
Definition sha_round (s : list Z) (kw : Z * Z) : list Z :=
  match s with
  | [a; b; c; d; e; f; g; h] =>
      let t1 := h + bsig1 e + ch e f g + kw.1 + kw.2 in
      [w32 (t1 + bsig0 a + maj a b c); a; b; c; w32 (d + t1); e; f; g]
  | _ => s
  end.
Definition compress (s block : list Z) : list Z :=
  zip_with (fun x y => w32 (x + y)) s (fold_left sha_round (combine sha_k (rev (schedule 48 (rev block)))) s).

Definition sha256 (s : string) : list Z :=
  let ws := words (padded (bytes_of s)) in
  fold_left compress (blocks (length ws) ws) sha_init.

(** [hex.EncodeToString(sum[:6])]. *)
Definition hex6 (sum : list Z) : string :=
  String.concat "" (map (fun i => String (hex_digit (Z.land (Z.shiftr (nth 0 sum 0 * 2 ^ 32 + nth 1 sum 0) (4 * i)) 15)) "")
    [15; 14; 13; 12; 11; 10; 9; 8; 7; 6; 5; 4]).

Example sha256_abc : hex6 (sha256 "abc") = "ba7816bf8f01".
Proof. vm_compute. reflexivity. Qed.
Example sha256_empty : hex6 (sha256 "") = "e3b0c44298fc".
Proof. vm_compute. reflexivity. Qed.
(** Three blocks. *)
Example sha256_long : hex6 (sha256 (String.concat "" (replicate 130 "a"))) = "1e3c4f4750c8".
Proof. vm_compute. reflexivity. Qed.
