(* ===== verification/HostGrants.v ===== *)
(** * Elevated access a stack was granted ([service/internal/leaf/hostgrant/hostgrant.go], [store/host_grants.go])

    A grant is a set of lines, ["<tile-slug> <perm>"]; a stack has one row of
    them, or none. *)
From S2P Require Import Prelude GoStrings Errs Store Rows.

Definition HostPerm : string := "host:".
Definition DevicePerm : string := "device:".
Definition Privileged : string := "privileged".
Definition LAN : string := "lan:".
Definition PortPerm : string := "port:".
Definition NetworkHost : string := "network:host".
Definition Source : string := "src:".
Definition AskPrefix : string := "elevated access: ".

(** ** Sets of lines *)

Definition Line (slug perm : string) : string := slug +:+ " " +:+ perm.
Definition Split (line : string) : string * string := default (line, "") (cut " " line).

Definition Norm (ls : list string) : list string := compact (sort_strings ls).
Definition Has (ls : list string) (line : string) : bool := contains ls line.
Definition ForTile (ls : list string) (slug : string) : list string :=
  List.filter (fun l => String.eqb (Split l).1 slug) ls.
Definition Empty (ls : list string) : bool := match ls with [] => true | _ => false end.
Definition Missing (ls have : list string) : list string := List.filter (fun l => negb (Has have l)) ls.
Definition Union (ls o : list string) : list string := Norm (ls ++ o).

Definition Text (missing : list string) : string := AskPrefix +:+ join ", " missing.
(** [strings.Split(s, ", ")]. *)
Fixpoint split_items (s : string) : list string :=
  match s with
  | EmptyString => [EmptyString]
  | String "," (String " " t) => EmptyString :: split_items t
  | String c t => match split_items t with [] => [String c EmptyString] | x :: xs => String c x :: xs end
  end.
Definition Parse (what : string) : option (list string) :=
  match strip_prefix AskPrefix what with
  | None => None
  | Some rest => Some (Norm (List.filter (fun it => negb (String.eqb it "")) (split_items rest)))
  end.

Definition nl : string := String "010" "".
Definition lines (s : string) : list string :=
  List.filter (fun l => negb (String.eqb l "")) (map trim_space (split "010" s)).

(** ** The rows *)

Record HostGrant := MkGrant { hg_ID : string; hg_StackID : string; hg_Lines : string; hg_ApprovedBy : string; hg_CreatedAt : Z }.
#[export] Instance grant_id : HasId HostGrant := hg_ID.

Definition with_lines (g : HostGrant) (ls : list string) : HostGrant :=
  MkGrant (hg_ID g) (hg_StackID g) (join nl ls) (hg_ApprovedBy g) (hg_CreatedAt g).

Section Grants.
Implicit Types (t : list HostGrant).

(** [stack_id] is UNIQUE. *)
Definition stack_taken t (stack : string) : bool := existsb (fun g => String.eqb (hg_StackID g) stack) t.
Definition create_grant (g : HostGrant) t : res (list HostGrant) :=
  if stack_taken t (hg_StackID g) then Err already_exists else r_create g t.

Definition GetByStack t (stack : string) : res HostGrant :=
  match find_first (fun g => String.eqb (hg_StackID g) stack) t with Some g => Ok g | None => Err ErrNotFound end.

Definition Of t (stack : string) : res (list string) :=
  match GetByStack t stack with
  | Ok g => Ok (Norm (lines (hg_Lines g)))
  | Err e => if is_not_found e then Ok [] else Err e
  end.

Definition Check t (stack : string) (want : list string) : res unit :=
  have <-? Of t stack ;;
  match Missing want have with [] => Ok tt | m => Err (NeedsApproval stack (Text m)) end.

Definition Approve (id : string) (now : Z) (stack user : string) (ask : list string) t : res (list HostGrant) :=
  match GetByStack t stack with
  | Err e =>
      if is_not_found e then
        create_grant (with_lines (MkGrant id stack "" user now) (Union [] ask)) t
      else Err e
  | Ok g =>
      let u := Union (lines (hg_Lines g)) ask in
      r_update (with_lines (MkGrant (hg_ID g) (hg_StackID g) (hg_Lines g) user (hg_CreatedAt g)) u) t
  end.

(** The row with only [ls] left; no row when nothing is. *)
Definition put_lines (g : HostGrant) (ls : list string) t : res (list HostGrant) :=
  match ls with [] => r_delete (hg_ID g) t | _ => r_update (with_lines g ls) t end.

Definition Revoke (stack tileSlug : string) t : res (list HostGrant) :=
  g <-? GetByStack t stack ;;
  let keep := if String.eqb tileSlug "" then []
    else List.filter (fun ln => negb (String.eqb (Split ln).1 tileSlug)) (lines (hg_Lines g)) in
  put_lines g keep t.

Definition Retain (stack tileSlug : string) (keep : list string) t : res (list HostGrant * bool) :=
  match GetByStack t stack with
  | Err e => if is_not_found e then Ok (t, false) else Err e
  | Ok g =>
      let next := List.filter (fun ln => negb (String.eqb (Split ln).1 tileSlug) || contains keep ln) (lines (hg_Lines g)) in
      if Nat.eqb (length next) (length (lines (hg_Lines g))) then Ok (t, false)
      else t' <-? put_lines g next t ;; Ok (t', true)
  end.
End Grants.

(** ** Lists as sets *)

Lemma elem_of_compact {A} `{EqDecision A} (l : list A) x : x ∈ compact l <-> x ∈ l.
Proof.
  induction l as [|y [|z l] IH]; [done|done|]. cbn [compact]. destruct (decide (y = z)) as [->|Hn].
  - rewrite IH. set_solver.
  - rewrite elem_of_cons, IH. set_solver.
Qed.

Definition before (a b : string) : Prop := String.leb a b = true /\ String.leb b a = false.

Lemma compact_before l : StronglySorted (fun a b => String.leb a b = true) l -> StronglySorted before (compact l).
Proof.
  induction 1 as [|x l Hs IH Hx]; [constructor|]. destruct l as [|y l]; [by repeat constructor|].
  change (compact (x :: y :: l)) with (if decide (x = y) then compact (y :: l) else x :: compact (y :: l)).
  destruct (decide (x = y)) as [->|Hn]; [exact IH|]. constructor; [exact IH|].
  apply Forall_forall. intros z Hz. apply (proj1 (elem_of_compact _ _)) in Hz.
  pose proof (proj1 (Forall_forall _ _) Hx z Hz) as Hxz. split; [exact Hxz|].
  destruct (String.leb z x) eqn:Ez; [|done]. exfalso. assert (x = z) as -> by by apply String.leb_antisym.
  apply elem_of_cons in Hz as [->|Hz]; [done|]. apply Hn. apply String.leb_antisym.
  - by apply (proj1 (Forall_forall _ _) Hx y); left.
  - inv Hs as [|? ? _ Hy]. by apply (proj1 (Forall_forall _ _) Hy).
Qed.

Lemma before_unique l1 l2 : StronglySorted before l1 -> StronglySorted before l2 -> (forall x, x ∈ l1 <-> x ∈ l2) -> l1 = l2.
Proof.
  intros H1. revert l2. induction H1 as [|x l1 H1 IH Hx]; intros l2 H2 He.
  { destruct l2 as [|y l2]; [done|]. exfalso. apply (not_elem_of_nil y), He. left. }
  destruct H2 as [|y l2 H2 Hy]; [exfalso; apply (not_elem_of_nil x), He; left|].
  assert (x = y) as ->.
  { assert (y ∈ x :: l1) as [->|Hyx]%elem_of_cons by (apply He; left); [done|].
    assert (x ∈ y :: l2) as [->|Hxy]%elem_of_cons by (apply He; left); [done|].
    apply (proj1 (Forall_forall _ _) Hx) in Hyx as [_ E]. apply (proj1 (Forall_forall _ _) Hy) in Hxy as [E' _]. congruence. }
  f_equal. apply IH; [done|]. intros z. specialize (He z). rewrite !elem_of_cons in He.
  assert (forall l, Forall (before y) l -> y ∉ l) as Hirr.
  { intros l Hl Hi. apply (proj1 (Forall_forall _ _) Hl) in Hi as [E1 E2]. congruence. }
  split; intros Hz.
  - destruct (proj1 He (or_intror Hz)) as [->|]; [by destruct (Hirr _ Hx)|done].
  - destruct (proj2 He (or_intror Hz)) as [->|]; [by destruct (Hirr _ Hy)|done].
Qed.

Lemma Norm_sorted ls : StronglySorted before (Norm ls).
Proof. apply compact_before, sort_strings_sorted. Qed.
Lemma elem_of_Norm ls x : x ∈ Norm ls <-> x ∈ ls.
Proof. unfold Norm, sort_strings. by rewrite elem_of_compact, elem_of_sort. Qed.
#[export] Hint Resolve Norm_sorted : go.

(** A set is its sorted lines. *)
Lemma Norm_same l1 l2 : (forall x, x ∈ l1 <-> x ∈ l2) -> Norm l1 = Norm l2.
Proof. intros H. apply before_unique; [apply Norm_sorted..|]. intros x. by rewrite !elem_of_Norm. Qed.
Lemma Norm_fixed ls : StronglySorted before ls -> Norm ls = ls.
Proof. intros H. apply before_unique; [apply Norm_sorted|done|]. intros x. apply elem_of_Norm. Qed.

Lemma filter_sorted p ls : StronglySorted before ls -> StronglySorted before (List.filter p ls).
Proof.
  induction 1 as [|x l H IH Hx]; [constructor|]. cbn [List.filter]. destruct (p x); [|done]. constructor; [done|].
  apply Forall_forall. intros y [Hy _]%elem_of_filterb. by apply (proj1 (Forall_forall _ _) Hx).
Qed.

Lemma elem_of_Missing ls have x : x ∈ Missing ls have <-> x ∈ ls /\ x ∉ have.
Proof.
  unfold Missing, Has. rewrite elem_of_filterb, negb_true_iff. split; intros [H1 H2]; (split; [done|]).
  - intros Hx. destruct (contains_spec have x); [done|done].
  - by destruct (contains_spec have x).
Qed.

(** ** What is stored reads back *)

Definition line_ok (l : string) : Prop := trim_space l = l /\ l <> "" /\ has_byte "010" l = false.
Definition line_okb (l : string) : bool := String.eqb (trim_space l) l && negb (String.eqb l "") && negb (has_byte "010" l).
Lemma line_okb_ok ls : forallb line_okb ls = true -> Forall line_ok ls.
Proof.
  rewrite forallb_forall, Forall_forall. intros H l Hl. specialize (H l (proj1 (list_elem_of_In _ _) Hl)). unfold line_okb in H.
  rewrite !andb_true_iff, !negb_true_iff, String.eqb_eq, String.eqb_neq in H. by destruct H as [[H1 H2] H3].
Qed.

Lemma lines_join ls : Forall line_ok ls -> lines (join nl ls) = ls.
Proof.
  intros H. unfold lines. destruct ls as [|l ls]; [done|]. unfold nl. rewrite split_join; [|done|].
  2: { eapply Forall_impl; [exact H|]. by intros x (_ & _ & Hx). }
  induction H as [|x xs (Ht & Hn & _) _ IH]; [done|]. cbn [map List.filter].
  by rewrite Ht, (proj2 (String.eqb_neq x "")), IH.
Qed.

Lemma Forall_Norm (P : string -> Prop) ls : Forall P ls -> Forall P (Norm ls).
Proof. rewrite !Forall_forall. intros H x Hx. by apply H, elem_of_Norm. Qed.
Lemma Forall_filterb {A} (P : A -> Prop) p ls : Forall P ls -> Forall P (List.filter p ls).
Proof. rewrite !Forall_forall. intros H x [Hx _]%elem_of_filterb. by apply H. Qed.

(** ** The table *)

(** One row a stack, its lines sorted and clean. *)
Definition grant_ok (g : HostGrant) : Prop := exists ls, hg_Lines g = join nl ls /\ Forall line_ok ls /\ StronglySorted before ls.
Record grants_ok (t : list HostGrant) : Prop := MkGrantsOk {
  go_ids : rows_ok t;
  go_stacks : NoDup (map hg_StackID t);
  go_rows : Forall grant_ok t }.

Lemma GetByStack_ok t stack g : GetByStack t stack = Ok g -> g ∈ t /\ hg_StackID g = stack.
Proof.
  unfold GetByStack. destruct (find_first _ t) as [x|] eqn:E; [|done]. intros <-%Ok_inj.
  apply find_first_Some in E as [Hx E]. split; [done|by apply String.eqb_eq].
Qed.
Lemma GetByStack_in t g : NoDup (map hg_StackID t) -> g ∈ t -> GetByStack t (hg_StackID g) = Ok g.
Proof.
  intros Hk Hg. destruct (GetByStack t (hg_StackID g)) as [x|e] eqn:E.
  - apply GetByStack_ok in E as [Hx Ex]. f_equal. by apply (nodup_key hg_StackID t).
  - unfold GetByStack in E. destruct (find_first _ t) eqn:Ef; [done|]. apply find_first_None in Ef.
    pose proof (proj1 (Forall_forall _ _) Ef g Hg) as Hf. simpl in Hf. by rewrite String.eqb_refl in Hf.
Qed.
Lemma GetByStack_none t stack e : GetByStack t stack = Err e -> e = ErrNotFound /\ stack ∉ map hg_StackID t.
Proof.
  unfold GetByStack. destruct (find_first _ t) as [x|] eqn:E; [done|]. intros [= <-]. split; [done|].
  intros (g & -> & Hg)%list_elem_of_fmap. apply find_first_None in E.
  pose proof (proj1 (Forall_forall _ _) E g Hg) as Hf. simpl in Hf. by rewrite String.eqb_refl in Hf.
Qed.
Lemma GetByStack_missing t stack : stack ∉ map hg_StackID t -> GetByStack t stack = Err ErrNotFound.
Proof.
  intros Hn. destruct (GetByStack t stack) as [g|e] eqn:E; [|by apply GetByStack_none in E as [-> _]].
  apply GetByStack_ok in E as [Hg <-]. destruct Hn. apply list_elem_of_fmap. by exists g.
Qed.

(** What a stack holds. *)
Definition granted (t : list HostGrant) (stack : string) : gset string :=
  match Of t stack with Ok ls => list_to_set ls | Err _ => ∅ end.

Lemma granted_row t g ls : NoDup (map hg_StackID t) -> g ∈ t -> hg_Lines g = join nl ls -> Forall line_ok ls ->
  granted t (hg_StackID g) = list_to_set ls.
Proof.
  intros Hk Hg Hl Hok. unfold granted, Of. rewrite (GetByStack_in t g), Hl, lines_join by done.
  apply set_eq. intros x. by rewrite !elem_of_list_to_set, elem_of_Norm.
Qed.
Lemma granted_none t stack : stack ∉ map hg_StackID t -> granted t stack = ∅.
Proof. intros Hn. unfold granted, Of. by rewrite GetByStack_missing. Qed.

(** A row rewritten. *)
Lemma update_grant t g ls user t' : grants_ok t -> g ∈ t -> Forall line_ok ls -> StronglySorted before ls ->
  r_update (with_lines (MkGrant (hg_ID g) (hg_StackID g) (hg_Lines g) user (hg_CreatedAt g)) ls) t = Ok t' ->
  grants_ok t' /\ map row_id t' = map row_id t /\
  forall s, granted t' s = if String.eqb s (hg_StackID g) then list_to_set ls else granted t s.
Proof.
  intros [Hi Hs Hr] Hg Hok Hls E. set (g' := with_lines _ ls) in E.
  assert (map hg_StackID t' = map hg_StackID t) as Hsame.
  { unfold r_update in E. destruct (is_ok _); [|done]. apply Ok_inj in E as <-. rewrite map_map. apply map_ext_in. intros x Hx.
    apply list_elem_of_In in Hx. destruct (String.eqb_spec (row_id x) (row_id g')) as [Ex|]; [|done].
    by rewrite (nodup_key row_id t x g). }
  assert (grants_ok t') as Hok'.
  { split; [by apply (r_update_rows _ _ _ E)|by rewrite Hsame|]. apply Forall_forall. intros x Hx.
    apply (elem_of_r_update _ _ _ _ E) in Hx as [[-> _]|[Hx _]]; [by exists ls|by apply (proj1 (Forall_forall _ _) Hr)]. }
  split_and!; [done|by apply (r_update_ids _ _ _ E)|]. intros s. destruct (String.eqb_spec s (hg_StackID g)) as [->|Hne].
  - apply (granted_row t' g' ls); [by destruct Hok'| |done|done]. apply (elem_of_r_update _ _ _ _ E). left. split; [done|].
    apply list_elem_of_fmap. by exists g.
  - unfold granted, Of. destruct (GetByStack t s) as [x|e] eqn:Ex.
    + apply GetByStack_ok in Ex as [Hx <-]. rewrite (GetByStack_in t' x); [done|by destruct Hok'|].
      apply (elem_of_r_update _ _ _ _ E). right. split; [done|]. intros Eid. apply Hne. f_equal. by apply (nodup_key row_id t).
    + apply GetByStack_none in Ex as [-> Hn]. rewrite GetByStack_missing; [done|by rewrite Hsame].
Qed.

Lemma delete_grant t g t' : grants_ok t -> g ∈ t -> r_delete (hg_ID g) t = Ok t' ->
  grants_ok t' /\ (forall i, i ∈ map row_id t' -> i ∈ map row_id t) /\
  forall s, granted t' s = if String.eqb s (hg_StackID g) then ∅ else granted t s.
Proof.
  intros [Hi Hs Hr] Hg E. pose proof (r_delete_ok _ _ _ E) as [_ Hin].
  assert (NoDup (map hg_StackID t')) as Hs'.
  { unfold r_delete in E. destruct (is_ok _); [|done]. apply Ok_inj in E as <-. clear Hin Hi Hr Hg. induction t as [|x t IH]; [done|].
    cbn [map] in Hs. apply NoDup_cons in Hs as [Hx Ht]. cbn [List.filter]. destruct (negb _); [|by apply IH]. cbn [map].
    apply NoDup_cons. split; [|by apply IH]. intros (y & Ey & [Hy _]%elem_of_filterb)%list_elem_of_fmap. apply Hx, list_elem_of_fmap. by exists y. }
  split_and!.
  - split; [by apply (r_delete_rows _ _ _ E)|done|]. apply Forall_forall. intros x [Hx _]%Hin. by apply (proj1 (Forall_forall _ _) Hr).
  - intros i (x & -> & [Hx _]%Hin)%list_elem_of_fmap. apply list_elem_of_fmap. by exists x.
  - intros s. destruct (String.eqb_spec s (hg_StackID g)) as [->|Hne].
    + apply granted_none. intros (x & Ex & [Hx Hd]%Hin)%list_elem_of_fmap. apply Hd.
      by rewrite (nodup_key hg_StackID t g x).
    + unfold granted, Of. destruct (GetByStack t s) as [x|e] eqn:Ex.
      * apply GetByStack_ok in Ex as [Hx <-]. rewrite (GetByStack_in t' x); [done..|]. apply Hin. split; [done|].
        intros Eid. apply Hne. f_equal. by apply (nodup_key row_id t).
      * apply GetByStack_none in Ex as [-> Hn]. rewrite GetByStack_missing; [done|].
        intros (x & -> & [Hx _]%Hin)%list_elem_of_fmap. apply Hn, list_elem_of_fmap. by exists x.
Qed.

(** ** Calls against an abstract grant *)

(** The leaf's calls; an approval brings its fresh id and time. *)
Inductive call :=
  | CApprove (id : string) (now : Z) (stack user : string) (ask : list string)
  | CRevoke (stack tileSlug : string)
  | CRetain (stack tileSlug : string) (keep : list string).

(** A call that fails leaves the table. *)
Definition run (c : call) (t : list HostGrant) : list HostGrant :=
  match c with
  | CApprove id now stack user ask => match Approve id now stack user ask t with Ok t' => t' | Err _ => t end
  | CRevoke stack slug => match Revoke stack slug t with Ok t' => t' | Err _ => t end
  | CRetain stack slug keep => match Retain stack slug keep t with Ok (t', _) => t' | Err _ => t end
  end.

(** The contract: a set of lines per stack, grown by approvals alone. *)
Definition spec_run (c : call) (m : string -> gset string) (s : string) : gset string :=
  match c with
  | CApprove _ _ stack _ ask => if String.eqb s stack then m s ∪ list_to_set ask else m s
  | CRevoke stack slug => if String.eqb s stack then filter (fun l => slug <> "" /\ (Split l).1 <> slug) (m s) else m s
  | CRetain stack slug keep => if String.eqb s stack then filter (fun l => (Split l).1 <> slug \/ l ∈ keep) (m s) else m s
  end.

Definition call_ids (c : call) : list string := match c with CApprove id _ _ _ _ => [id] | _ => [] end.
Definition call_ok (c : call) : Prop := match c with CApprove _ _ _ _ ask => Forall line_ok ask | _ => True end.

Lemma stack_taken_spec t s : stack_taken t s = true <-> s ∈ map hg_StackID t.
Proof.
  unfold stack_taken. rewrite existsb_exists, list_elem_of_fmap. split.
  - intros (g & Hg & E%String.eqb_eq). exists g. split; [done|by apply list_elem_of_In].
  - intros (g & -> & Hg). exists g. split; [by apply list_elem_of_In|apply String.eqb_refl].
Qed.

Lemma grant_lines t g : grants_ok t -> g ∈ t -> exists ls, hg_Lines g = join nl ls /\ lines (hg_Lines g) = ls /\
  Forall line_ok ls /\ StronglySorted before ls /\ granted t (hg_StackID g) = list_to_set ls.
Proof.
  intros [Hi Hs Hr] Hg. destruct (proj1 (Forall_forall _ _) Hr g Hg) as (ls & El & Hok & Hls). exists ls.
  split_and!; [done|by rewrite El, lines_join|done|done|by apply (granted_row t g)].
Qed.

Lemma update_is_ok t g (h : HostGrant) : g ∈ t -> hg_ID h = hg_ID g -> exists t', r_update h t = Ok t'.
Proof.
  intros Hg E. unfold r_update. assert (is_ok (r_get t (row_id h)) = true) as ->; [|by eexists].
  apply r_get_is. apply list_elem_of_fmap. by exists g.
Qed.

(** One call refines one step of the contract. *)
Definition refines (t t' : list HostGrant) (c : call) : Prop :=
  grants_ok t' /\ (forall i, i ∈ map row_id t' -> i ∈ map row_id t \/ i ∈ call_ids c) /\
  forall s, granted t' s = spec_run c (granted t) s.

Lemma Approve_refines id now stack user ask t : grants_ok t -> id ∉ map row_id t -> Forall line_ok ask ->
  refines t (run (CApprove id now stack user ask) t) (CApprove id now stack user ask).
Proof.
  intros Hok Hid Hask. unfold run, Approve. destruct (GetByStack t stack) as [g|e] eqn:Eg.
  - apply GetByStack_ok in Eg as [Hg <-]. destruct (grant_lines t g Hok Hg) as (ls & El & Els & Hl & Hs & Hgr). rewrite Els.
    set (u := Union ls ask). assert (Forall line_ok u) as Hu by by apply Forall_Norm, Forall_app.
    destruct (update_is_ok t g (with_lines (MkGrant (hg_ID g) (hg_StackID g) (hg_Lines g) user (hg_CreatedAt g)) u) Hg eq_refl) as [t' Et].
    rewrite Et. apply update_grant in Et as (H1 & H2 & H3); [|done..|apply Norm_sorted]. split_and!; [done|rewrite H2; auto|].
    intros s. rewrite H3. cbn [spec_run]. destruct (String.eqb_spec s (hg_StackID g)) as [->|]; [|done]. rewrite Hgr.
    apply set_eq. intros x. unfold u, Union. rewrite elem_of_list_to_set, elem_of_Norm, elem_of_app. set_solver.
  - apply GetByStack_none in Eg as [-> Hn]. cbn [is_not_found]. change (is_not_found ErrNotFound) with true. cbv iota.
    set (g := with_lines _ _). unfold create_grant. destruct (stack_taken t (hg_StackID g)) eqn:Et; [by apply stack_taken_spec in Et|].
    assert (r_create g t = Ok (t ++ [g])) as Ec.
    { unfold r_create. destruct (is_ok (r_get t (row_id g))) eqn:E; [by apply r_get_is in E|done]. }
    rewrite Ec. destruct Hok as [Hi Hs Hr].
    assert (Forall line_ok (Union [] ask)) as Hu by by apply Forall_Norm.
    assert (NoDup (map hg_StackID (t ++ [g]))) as Hs'.
    { rewrite map_app. apply NoDup_app. split_and!; [done|set_solver|apply NoDup_singleton]. }
    split_and!.
    + split; [by apply (r_create_rows _ _ _ Ec)|done|]. apply Forall_app. split; [done|]. repeat constructor.
      exists (Union [] ask). split_and!; [done|done|apply Norm_sorted].
    + intros i. rewrite map_app, elem_of_app. intros [Hi'|Hi']; [by left|]. right. done.
    + intros s. cbn [spec_run]. destruct (String.eqb_spec s stack) as [->|Hne].
      * change (granted (t ++ [g]) stack) with (granted (t ++ [g]) (hg_StackID g)).
        rewrite (granted_row (t ++ [g]) g (Union [] ask)) by (done || set_solver). rewrite (granted_none t) by done.
        apply set_eq. intros x. unfold Union. rewrite elem_of_list_to_set, elem_of_Norm. set_solver.
      * destruct (decide (s ∈ map hg_StackID t)) as [Hin|Hnin].
        -- apply list_elem_of_fmap in Hin as (y & -> & Hy). unfold granted, Of.
           rewrite (GetByStack_in (t ++ [g]) y), (GetByStack_in t y) by (done || set_solver). done.
        -- rewrite !granted_none; [done|done|]. rewrite map_app. set_solver.
Qed.

Lemma cut_is_ok t g ls : g ∈ t -> exists t', put_lines g ls t = Ok t'.
Proof.
  intros Hg. unfold put_lines. destruct ls as [|l ls]; [|exact (update_is_ok t g (with_lines g (l :: ls)) Hg eq_refl)].
  unfold r_delete. assert (is_ok (r_get t (hg_ID g)) = true) as ->; [|by eexists]. apply r_get_is. apply list_elem_of_fmap. by exists g.
Qed.

(** Cutting a row down to the lines [p] keeps. *)
Lemma cut_refines t g p t' : grants_ok t -> g ∈ t ->
  put_lines g (List.filter p (lines (hg_Lines g))) t = Ok t' ->
  grants_ok t' /\ (forall i, i ∈ map row_id t' -> i ∈ map row_id t) /\
  forall s, granted t' s = if String.eqb s (hg_StackID g) then filter (fun l => p l = true) (granted t s) else granted t s.
Proof.
  intros Hok Hg E. destruct (grant_lines t g Hok Hg) as (ls & El & Els & Hl & Hs & Hgr). rewrite Els in E. unfold put_lines in E.
  assert (forall s, (if String.eqb s (hg_StackID g) then list_to_set (List.filter p ls) else granted t s) =
    (if String.eqb s (hg_StackID g) then filter (fun l => p l = true) (granted t s) else granted t s)) as Hset.
  { intros s. destruct (String.eqb_spec s (hg_StackID g)) as [->|]; [|done]. rewrite Hgr.
    apply set_eq. intros x. rewrite elem_of_list_to_set, elem_of_filterb, elem_of_filter, elem_of_list_to_set. tauto. }
  destruct (List.filter p ls) as [|l ls'] eqn:Ef.
  - apply delete_grant in E as (H1 & H2 & H3); [|done..]. split_and!; [done|done|]. intros s. by rewrite H3, <-Hset.
  - rewrite <-Ef in *. change (with_lines g (List.filter p ls))
      with (with_lines (MkGrant (hg_ID g) (hg_StackID g) (hg_Lines g) (hg_ApprovedBy g) (hg_CreatedAt g)) (List.filter p ls)) in E.
    apply update_grant in E as (H1 & H2 & H3); [|done|done|by apply Forall_filterb|by apply filter_sorted].
    split_and!; [done|by rewrite H2|]. intros s. by rewrite H3, <-Hset.
Qed.

Lemma Revoke_refines stack slug t : grants_ok t -> refines t (run (CRevoke stack slug) t) (CRevoke stack slug).
Proof.
  intros Hok. unfold run, Revoke. destruct (GetByStack t stack) as [g|e] eqn:Eg.
  - apply GetByStack_ok in Eg as [Hg <-]. set (p := fun ln => negb (String.eqb slug "") && negb (String.eqb (Split ln).1 slug)).
    assert ((if String.eqb slug "" then [] else List.filter (fun ln => negb (String.eqb (Split ln).1 slug)) (lines (hg_Lines g))) =
      List.filter p (lines (hg_Lines g))) as ->.
    { unfold p. destruct (String.eqb slug ""); cbn [negb andb]; [|done]. induction (lines _); done. }
    destruct (cut_is_ok t g (List.filter p (lines (hg_Lines g))) Hg) as [t' E]. rewrite E.
    apply cut_refines in E as (H1 & H2 & H3); [|done..]. split_and!; [done|auto|]. intros s. rewrite H3. cbn [spec_run].
    destruct (String.eqb s (hg_StackID g)); [|done]. apply set_eq. intros x. rewrite !elem_of_filter. unfold p.
    by rewrite andb_true_iff, !negb_true_iff, !String.eqb_neq.
  - apply GetByStack_none in Eg as [-> Hn]. split_and!; [done|auto|]. intros s. cbn [spec_run].
    destruct (String.eqb_spec s stack) as [->|]; [|done]. rewrite granted_none by done. set_solver.
Qed.

Lemma filter_length_all {A} (p : A -> bool) l : length (List.filter p l) = length l -> List.filter p l = l.
Proof.
  induction l as [|x l IH]; [done|]. cbn [List.filter]. destruct (p x); cbn [length]; intros H; [f_equal; apply IH; lia|].
  pose proof (List.filter_length_le p l). lia.
Qed.

Lemma Retain_refines stack slug keep t : grants_ok t -> refines t (run (CRetain stack slug keep) t) (CRetain stack slug keep).
Proof.
  intros Hok. unfold run, Retain. destruct (GetByStack t stack) as [g|e] eqn:Eg.
  - apply GetByStack_ok in Eg as [Hg <-]. set (p := fun ln => negb (String.eqb (Split ln).1 slug) || contains keep ln).
    assert (forall m : gset string, filter (fun l => p l = true) m = filter (fun l => (Split l).1 <> slug \/ l ∈ keep) m) as Hp.
    { intros m. apply set_eq. intros x. rewrite !elem_of_filter. unfold p. rewrite orb_true_iff, negb_true_iff, String.eqb_neq.
      by rewrite (reflect_iff _ _ (contains_spec keep x)). }
    destruct (Nat.eqb_spec (length (List.filter p (lines (hg_Lines g)))) (length (lines (hg_Lines g)))) as [El|_].
    + split_and!; [done|auto|]. intros s. cbn [spec_run]. destruct (String.eqb_spec s (hg_StackID g)) as [->|]; [|done].
      destruct (grant_lines t g Hok Hg) as (ls & _ & Els & _ & _ & ->). rewrite Els in El. apply filter_length_all in El.
      rewrite <-Hp, <-El. apply set_eq. intros x. rewrite elem_of_filter, !elem_of_list_to_set, elem_of_filterb. tauto.
    + destruct (cut_is_ok t g (List.filter p (lines (hg_Lines g))) Hg) as [t' E]. rewrite E.
      apply cut_refines in E as (H1 & H2 & H3); [|done..]. split_and!; [done|auto|]. intros s. rewrite H3. cbn [spec_run].
      destruct (String.eqb s (hg_StackID g)); [apply Hp|done].
  - apply GetByStack_none in Eg as [-> Hn]. cbn [is_not_found]. change (is_not_found ErrNotFound) with true. split_and!; [done|auto|]. intros s.
    cbn [spec_run]. destruct (String.eqb_spec s stack) as [->|]; [|done]. rewrite granted_none by done. set_solver.
Qed.

(** ** The text of an ask *)

Lemma split_items_cons c t : c <> ","%char ->
  split_items (String c t) = match split_items t with [] => [String c EmptyString] | x :: xs => String c x :: xs end.
Proof. intros Hn. destruct c as [[] [] [] [] [] [] [] []]; done. Qed.
Lemma split_items_app x s : has_byte "," x = false -> split_items (x +:+ ", " +:+ s) = x :: split_items s.
Proof.
  induction x as [|c x IH]; [done|]. intros H. cbn [has_byte] in H. apply orb_false_iff in H as [Hc Hx]. specialize (IH Hx).
  rewrite app_cons_str, split_items_cons, IH; [done|]. intros ->. done.
Qed.
Lemma split_items_one x : has_byte "," x = false -> split_items x = [x].
Proof.
  induction x as [|c x IH]; [done|]. intros H. cbn [has_byte] in H. apply orb_false_iff in H as [Hc Hx]. specialize (IH Hx).
  rewrite split_items_cons, IH; [done|]. intros ->. done.
Qed.

Lemma split_items_join ls : ls <> [] -> Forall (fun l => has_byte "," l = false) ls -> split_items (join ", " ls) = ls.
Proof.
  intros Hne H. induction H as [|x l Hx H IH]; [done|]. destruct l as [|y l]; [by apply split_items_one|].
  rewrite join_cons by done. by rewrite split_items_app, IH.
Qed.

Lemma Parse_Text ls : Forall (fun l => l <> "" /\ has_byte "," l = false) ls -> Parse (Text ls) = Some (Norm ls).
Proof.
  intros H. unfold Parse, Text. destruct (strip_prefix AskPrefix _) as [rest|] eqn:E.
  2: { assert (strip_prefix AskPrefix (AskPrefix +:+ join ", " ls) = Some (join ", " ls)) by by apply strip_prefix_spec. congruence. }
  apply strip_prefix_spec in E. assert (rest = join ", " ls) as -> by by apply (inj (String.append AskPrefix)). f_equal.
  destruct ls as [|l ls]; [done|]. rewrite split_items_join; [|done|]. 2: { eapply Forall_impl; [exact H|]. by intros x []. }
  f_equal. induction H as [|x xs [Hx _] _ IH]; [done|]. cbn [List.filter]. by rewrite (proj2 (String.eqb_neq x "")), IH.
Qed.

(** [Check] passes exactly when every wanted line was granted; otherwise its
    error names the stack, and its text reads back as what is missing. *)
Lemma Check_cases t stack want : Forall (fun l => l <> "" /\ has_byte "," l = false) want ->
  (Check t stack want = Ok tt /\ list_to_set want ⊆ granted t stack) \/
  (exists what missing, Check t stack want = Err (NeedsApproval stack what) /\ Parse what = Some missing /\
    missing <> [] /\ forall l, l ∈ missing <-> l ∈ want /\ l ∉ granted t stack).
Proof.
  intros Hw. unfold Check, granted. assert (exists have, Of t stack = Ok have) as [have ->].
  { unfold Of. destruct (GetByStack t stack) as [g|e] eqn:E; [by eexists|]. apply GetByStack_none in E as [-> _]. by eexists. }
  destruct (Missing want have) as [|l m] eqn:Em.
  - left. split; [done|]. intros x. rewrite !elem_of_list_to_set. intros Hx. destruct (decide (x ∈ have)) as [|Hn]; [done|].
    exfalso. apply (not_elem_of_nil x). rewrite <-Em. by apply elem_of_Missing.
  - right. exists (Text (l :: m)), (Norm (l :: m)). rewrite <-Em. split_and!; [done| | |].
    + apply Parse_Text. by apply Forall_filterb.
    + intros En. apply (not_elem_of_nil l). rewrite <-En. apply elem_of_Norm. rewrite Em. left.
    + intros x. by rewrite elem_of_Norm, elem_of_Missing, elem_of_list_to_set.
Qed.

Lemma Approve_ok id now stack user ask t : grants_ok t -> id ∉ map row_id t -> exists t', Approve id now stack user ask t = Ok t'.
Proof.
  intros Hok Hid. unfold Approve. destruct (GetByStack t stack) as [g|e] eqn:Eg.
  - apply GetByStack_ok in Eg as [Hg _]. by apply (update_is_ok t g).
  - apply GetByStack_none in Eg as [-> Hn]. change (is_not_found ErrNotFound) with true. cbv iota. unfold create_grant.
    destruct (stack_taken t _) eqn:Et; [by apply stack_taken_spec in Et|]. unfold r_create.
    destruct (is_ok (r_get t _)) eqn:E; [by apply r_get_is in E|by eexists].
Qed.

(** ** Claims *)

(** What [Check] answers, read off the lines a stack holds. *)
Definition spec_check (m : string -> gset string) (stack : string) (want : list string) : res unit :=
  match List.filter (fun l => negb (bool_decide (l ∈ m stack))) want with [] => Ok tt | missing => Err (NeedsApproval stack (Text missing)) end.
Lemma Check_spec t stack want : Check t stack want = spec_check (granted t) stack want.
Proof.
  unfold Check, spec_check, granted. assert (exists have, Of t stack = Ok have) as [have ->].
  { unfold Of. destruct (GetByStack t stack) as [g|e] eqn:E; [by eexists|]. apply GetByStack_none in E as [-> _]. by eexists. }
  assert (Missing want have = List.filter (fun l => negb (bool_decide (l ∈@{gset string} list_to_set have))) want) as ->; [|done].
  unfold Missing, Has, contains. apply filter_ext. intros l. f_equal. apply bool_decide_ext. by rewrite elem_of_list_to_set.
Qed.

(** C9. The grant table refines its contract.  Over any calls, with clean
    lines and fresh ids, a stack holds exactly what was approved for it and
    not taken back since: the union of its approvals, less the lines of a
    revoked tile, less what a [Retain] did not keep.  A check passes exactly
    what a stack holds, and refuses the rest with the lines that are missing,
    in the order they were asked.  No call on one stack moves another's, and
    what is stored is always sorted, unique and clean. *)
Theorem HostGrants_refine cs : Forall call_ok cs -> NoDup (concat (map call_ids cs)) ->
  let t := fold_left (fun t c => run c t) cs [] in
  let m := fold_left (fun m c => spec_run c m) cs (fun _ => ∅) in
  grants_ok t /\ forall s, granted t s = m s /\ forall want, Check t s want = spec_check m s want.
Proof.
  intros Hcs Hids t m. enough (grants_ok t /\ forall s, granted t s = m s) as [H1 H2].
  { split; [done|]. intros s. split; [done|]. intros want. rewrite Check_spec. unfold spec_check. by rewrite H2. }
  subst t m. enough (forall cs (dn : list string) t m, Forall call_ok cs -> NoDup (concat (map call_ids cs)) ->
    (forall i, i ∈ map row_id t -> i ∈ dn) -> (forall i, i ∈ concat (map call_ids cs) -> i ∉ dn) ->
    grants_ok t -> (forall s, granted t s = m s) ->
    let t' := fold_left (fun t c => run c t) cs t in
    grants_ok t' /\ forall s, granted t' s = fold_left (fun m c => spec_run c m) cs m s) as H.
  { apply (H cs [] [] (fun _ => ∅)); [done|done|done|intros i _; apply not_elem_of_nil|by repeat constructor|done]. }
  clear. induction cs as [|c cs IH]; intros dn t m Hcs Hids Hin Hfresh Hok Hm; [by split|]. cbn [fold_left].
  apply Forall_cons in Hcs as [Hc Hcs]. cbn [map concat] in Hids, Hfresh. apply NoDup_app in Hids as (Hids1 & Hids2 & Hids3).
  assert (refines t (run c t) c) as (H1 & H2 & H3).
  { destruct c as [id now stack user ask|stack slug|stack slug keep]; [|by apply Revoke_refines|by apply Retain_refines].
    apply Approve_refines; [done| |done]. intros Hi. apply (Hfresh id); [by left|by apply Hin]. }
  apply (IH (call_ids c ++ dn)); [done|done| | |done|].
  - intros i [Hi|Hi]%H2; rewrite elem_of_app; [right; by apply Hin|by left].
  - intros i Hi. rewrite elem_of_app. intros [Hc'|Hd]; [by apply (Hids2 i)|]. apply (Hfresh i); [rewrite elem_of_app; by right|done].
  - intros s. rewrite H3. destruct c; cbn [spec_run]; by rewrite Hm.
Qed.

(** ** Witnesses *)

Lemma calls_okb_ok cs : forallb (fun c => match c with CApprove _ _ _ _ ask => forallb line_okb ask | _ => true end) cs = true ->
  Forall call_ok cs.
Proof.
  rewrite forallb_forall, Forall_forall. intros H c Hc. specialize (H c (proj1 (list_elem_of_In _ _) Hc)).
  destruct c; [by apply line_okb_ok|done..].
Qed.

#[local] Abbreviation ex_calls := [CApprove "1" 0 "s" "root" ["web privileged"; "db host:/srv:/data"]; CRetain "s" "web" [];
  CApprove "2" 0 "z" "root" ["a lan:10.0.0.1"]; CRevoke "z" ""].
Lemma HostGrants_refine_witness : let t := fold_left (fun t c => run c t) ex_calls [] in
  granted t "s" = {["db host:/srv:/data"]} /\ Check t "s" ["db host:/srv:/data"] = Ok tt /\
  Check t "s" ["web privileged"; "db host:/srv:/data"; "web device:/dev/kvm"] =
    Err (NeedsApproval "s" "elevated access: web privileged, web device:/dev/kvm").
Proof.
  intros t. destruct (HostGrants_refine ex_calls) as [_ H].
  - apply calls_okb_ok. vm_compute. reflexivity.
  - apply (bool_decide_eq_true_1 _). vm_compute. reflexivity.
  - destruct (H "s") as [H1 H2]. split; [etransitivity; [exact H1|vm_compute; reflexivity]|].
    split; (etransitivity; [apply H2|vm_compute; reflexivity]).
Defined.
