(* ===== verification/Registry.v ===== *)
(** * Image references and tag policies ([service/internal/registry/registry.go])

    [ParseRef], [ValidRef] and the tag policies.  The grammar of references
    and of versions is third-party code ([go-containerregistry/pkg/name],
    [golang.org/x/mod/semver]), an argument here. *)
From S2P Require Import Prelude GoStrings Errs Netip.

(** [name.ParseReference] accepts; [semver]'s functions on ["v"] versions. *)
Class Versions := {
  ParseReference : string -> bool;
  IsValid : string -> bool;
  Major : string -> string;
  MajorMinor : string -> string;
  Compare : string -> string -> Z }.

Definition ParseRef (ref : string) : option (string * string * string) :=
  if String.eqb ref "" || has_byte "@" ref then None
  else
    let '(host, rest) :=
      match cut "/" ref with
      | Some (first, after) =>
          if negb (String.eqb first "") && (contains_any ".:" first || String.eqb first "localhost") then (first, after)
          else ("registry-1.docker.io", ref)
      | None => ("registry-1.docker.io", ref)
      end in
    let host := if String.eqb host "docker.io" || String.eqb host "index.docker.io" then "registry-1.docker.io" else host in
    let '(rest, tag) := match cut_last ":" rest with Some (r, t) => (r, t) | None => (rest, "latest") end in
    let rest := if String.eqb host "registry-1.docker.io" && negb (has_byte "/" rest) then "library/" +:+ rest else rest in
    if String.eqb rest "" || String.eqb tag "" then None else Some (host, rest, tag).

Section Policies.
Context `{Versions}.

Definition ValidRef (ref : string) : bool := ParseReference ref && match ParseRef ref with Some _ => true | None => false end.

Definition first_byte (c : string) : ascii := match c with String b _ => b | EmptyString => "000" end.
(** A rule's match on ["v"] versions, or what is not a version. *)
Definition Constraint (c : string) : res (string -> bool) :=
  if String.eqb c "" || String.eqb c "*" then Ok (fun _ => true)
  else
    let op := first_byte c in
    let c := if Ascii.eqb op "^" || Ascii.eqb op "~" then str_drop 1 c else c in
    let base := "v" +:+ trim_prefix c "v" in
    if negb (IsValid base) then Err (Errorf (Sprintf "tag policy: %q is not a version" [AStr c]))
    else if Ascii.eqb op "^" then Ok (fun v => String.eqb (Major v) (Major base) && (0 <=? Compare v base))
    else if Ascii.eqb op "~" then Ok (fun v => String.eqb (MajorMinor v) (MajorMinor base) && (0 <=? Compare v base))
    else Ok (fun v =>
      match length (List.filter (Ascii.eqb ".") (list_ascii_of_string base)) with
      | O => String.eqb (Major v) base
      | 1%nat => String.eqb (MajorMinor v) base
      | _ => Compare v base =? 0
      end).
Definition ValidTagPolicy (policy : string) : bool :=
  is_ok (Constraint (trim_space (trim_prefix (trim_space policy) "semver"))).
End Policies.

(** A grammar that accepts every reference and one version. *)
Definition any_versions : Versions := {|
  ParseReference _ := true; IsValid v := String.eqb v "v1.0.0"; Major _ := "v1"; MajorMinor _ := "v1.0"; Compare _ _ := 0 |}.
