(* ===== verification/TileRow.v ===== *)
(** * A tile's row ([service/internal/store/tiles.go]) *)
From S2P Require Import Prelude GoStrings.

(** One consumer's access to a slice tile of its env. *)
Record SliceAccess := MkSliceAccess { sa_From : string; sa_Access : string }.
#[export] Instance slice_access_eq_dec : EqDecision SliceAccess.
Proof. solve_decision. Defined.

(** The row.  [t_CPULimit] is a [float64], kept as its bits.  Times are instants in nanoseconds. *)
Record Tile := MkTile {
  t_ID : string; t_StackID : string; t_EnvironmentID : string;
  t_Name : string; t_Slug : string; t_Kind : string;
  t_GitURL : string; t_GitBranch : string; t_ImageRef : string;
  t_DockerfilePath : string; t_BuildContext : string; t_WatchPaths : string;
  t_EnvJSON : string; t_BuildArgs : string; t_Volumes : string;
  t_Command : string; t_ContainerPort : Z; t_PublishedPorts : string;
  t_EndpointProtocol : string; t_HealthPath : string;
  t_HealthcheckCmd : string; t_HealthcheckIntervalS : Z; t_HealthcheckTimeoutS : Z;
  t_HealthcheckRetries : Z; t_HealthcheckStartPeriodS : Z;
  t_CPULimit : Z; t_MemLimitMB : Z; t_User : string; t_ShmSizeMB : Z;
  t_Privileged : bool; t_Devices : string; t_Lan : string; t_HostNetwork : bool;
  t_RestartPolicy : string; t_DependsOn : string; t_Files : string; t_SharedNet : string;
  t_Replicas : Z; t_UpdatePolicy : string; t_TagPolicy : string;
  t_Schedule : string; t_Trigger : string; t_Paused : bool; t_TimeoutMinutes : Z;
  t_ProvisionFrom : option string; t_DefaultAccess : option string; t_OnRemove : option string;
  t_SliceAccess : list SliceAccess; t_CreatedAt : Z; t_UpdatedAt : Z }.

(** [store.Tile{}]. *)
Definition zero_tile : Tile :=
  MkTile "" "" "" "" "" "" "" "" "" "" "" "" "" "" "" "" 0 "" "" "" "" 0 0 0 0 0 0 "" 0
    false "" "" false "" "" "" "" 0 "" "" "" "" false 0 None None None [] 0 0.

(** ** The comparisons of a [float64], on its bits *)

Definition f64_zero (b : Z) : bool := Z.land b (2 ^ 63 - 1) =? 0.
Definition f64_nan (b : Z) : bool := (Z.land (Z.shiftr b 52) 2047 =? 2047) && negb (Z.land b (2 ^ 52 - 1) =? 0).
Definition f64_neg (b : Z) : bool := Z.testbit b 63 && negb (f64_nan b) && negb (f64_zero b).
Definition f64_eq (a b : Z) : bool := negb (f64_nan a) && negb (f64_nan b) && ((a =? b) || (f64_zero a && f64_zero b)).

(** ** Writing a row's fields *)

Section Set_.
Context (t : Tile).

(** The columns a save normalises. *)
Definition set_norm (gb df bc ej ba rp up tr : string) (n tm : Z) (da orm : option string) : Tile := {|
   t_ID := t_ID t; t_StackID := t_StackID t; t_EnvironmentID := t_EnvironmentID t; t_Name := t_Name t; t_Slug := t_Slug t; t_Kind := t_Kind t;
   t_GitURL := t_GitURL t; t_GitBranch := gb; t_ImageRef := t_ImageRef t; t_DockerfilePath := df; t_BuildContext := bc; t_WatchPaths := t_WatchPaths t;
   t_EnvJSON := ej; t_BuildArgs := ba; t_Volumes := t_Volumes t; t_Command := t_Command t; t_ContainerPort := t_ContainerPort t;
   t_PublishedPorts := t_PublishedPorts t; t_EndpointProtocol := t_EndpointProtocol t; t_HealthPath := t_HealthPath t;
   t_HealthcheckCmd := t_HealthcheckCmd t; t_HealthcheckIntervalS := t_HealthcheckIntervalS t; t_HealthcheckTimeoutS := t_HealthcheckTimeoutS t;
   t_HealthcheckRetries := t_HealthcheckRetries t; t_HealthcheckStartPeriodS := t_HealthcheckStartPeriodS t; t_CPULimit := t_CPULimit t;
   t_MemLimitMB := t_MemLimitMB t; t_User := t_User t; t_ShmSizeMB := t_ShmSizeMB t; t_Privileged := t_Privileged t; t_Devices := t_Devices t;
   t_Lan := t_Lan t; t_HostNetwork := t_HostNetwork t; t_RestartPolicy := rp; t_DependsOn := t_DependsOn t; t_Files := t_Files t;
   t_SharedNet := t_SharedNet t; t_Replicas := n; t_UpdatePolicy := up; t_TagPolicy := t_TagPolicy t; t_Schedule := t_Schedule t; t_Trigger := tr;
   t_Paused := t_Paused t; t_TimeoutMinutes := tm; t_ProvisionFrom := t_ProvisionFrom t; t_DefaultAccess := da; t_OnRemove := orm;
   t_SliceAccess := t_SliceAccess t; t_CreatedAt := t_CreatedAt t; t_UpdatedAt := t_UpdatedAt t |}.
Definition set_build (gb df bc : string) : Tile :=
  set_norm gb df bc (t_EnvJSON t) (t_BuildArgs t) (t_RestartPolicy t) (t_UpdatePolicy t) (t_Trigger t) (t_Replicas t) (t_TimeoutMinutes t) (t_DefaultAccess t) (t_OnRemove t).
Definition set_blobs (ej ba : string) : Tile :=
  set_norm (t_GitBranch t) (t_DockerfilePath t) (t_BuildContext t) ej ba (t_RestartPolicy t) (t_UpdatePolicy t) (t_Trigger t) (t_Replicas t) (t_TimeoutMinutes t) (t_DefaultAccess t) (t_OnRemove t).
Definition set_policies (rp up : string) : Tile :=
  set_norm (t_GitBranch t) (t_DockerfilePath t) (t_BuildContext t) (t_EnvJSON t) (t_BuildArgs t) rp up (t_Trigger t) (t_Replicas t) (t_TimeoutMinutes t) (t_DefaultAccess t) (t_OnRemove t).
Definition set_replicas (n : Z) : Tile :=
  set_norm (t_GitBranch t) (t_DockerfilePath t) (t_BuildContext t) (t_EnvJSON t) (t_BuildArgs t) (t_RestartPolicy t) (t_UpdatePolicy t) (t_Trigger t) n (t_TimeoutMinutes t) (t_DefaultAccess t) (t_OnRemove t).
Definition set_run (tr : string) (tm : Z) : Tile :=
  set_norm (t_GitBranch t) (t_DockerfilePath t) (t_BuildContext t) (t_EnvJSON t) (t_BuildArgs t) (t_RestartPolicy t) (t_UpdatePolicy t) tr (t_Replicas t) tm (t_DefaultAccess t) (t_OnRemove t).
Definition set_slice (da orm : option string) : Tile :=
  set_norm (t_GitBranch t) (t_DockerfilePath t) (t_BuildContext t) (t_EnvJSON t) (t_BuildArgs t) (t_RestartPolicy t) (t_UpdatePolicy t) (t_Trigger t) (t_Replicas t) (t_TimeoutMinutes t) da orm.
(** The columns that identify a row. *)
Definition set_keys (id st en na sl : string) (ca ua : Z) : Tile := {|
   t_ID := id; t_StackID := st; t_EnvironmentID := en; t_Name := na; t_Slug := sl; t_Kind := t_Kind t; t_GitURL := t_GitURL t;
   t_GitBranch := t_GitBranch t; t_ImageRef := t_ImageRef t; t_DockerfilePath := t_DockerfilePath t; t_BuildContext := t_BuildContext t;
   t_WatchPaths := t_WatchPaths t; t_EnvJSON := t_EnvJSON t; t_BuildArgs := t_BuildArgs t; t_Volumes := t_Volumes t; t_Command := t_Command t;
   t_ContainerPort := t_ContainerPort t; t_PublishedPorts := t_PublishedPorts t; t_EndpointProtocol := t_EndpointProtocol t;
   t_HealthPath := t_HealthPath t; t_HealthcheckCmd := t_HealthcheckCmd t; t_HealthcheckIntervalS := t_HealthcheckIntervalS t;
   t_HealthcheckTimeoutS := t_HealthcheckTimeoutS t; t_HealthcheckRetries := t_HealthcheckRetries t;
   t_HealthcheckStartPeriodS := t_HealthcheckStartPeriodS t; t_CPULimit := t_CPULimit t; t_MemLimitMB := t_MemLimitMB t; t_User := t_User t;
   t_ShmSizeMB := t_ShmSizeMB t; t_Privileged := t_Privileged t; t_Devices := t_Devices t; t_Lan := t_Lan t; t_HostNetwork := t_HostNetwork t;
   t_RestartPolicy := t_RestartPolicy t; t_DependsOn := t_DependsOn t; t_Files := t_Files t; t_SharedNet := t_SharedNet t; t_Replicas := t_Replicas t;
   t_UpdatePolicy := t_UpdatePolicy t; t_TagPolicy := t_TagPolicy t; t_Schedule := t_Schedule t; t_Trigger := t_Trigger t; t_Paused := t_Paused t;
   t_TimeoutMinutes := t_TimeoutMinutes t; t_ProvisionFrom := t_ProvisionFrom t; t_DefaultAccess := t_DefaultAccess t; t_OnRemove := t_OnRemove t;
   t_SliceAccess := t_SliceAccess t; t_CreatedAt := ca; t_UpdatedAt := ua |}.
End Set_.
