(* ===== verification/Docker.v ===== *)
(** * Containers and the health gate ([service/internal/docker/docker.go], [health.go])

    The daemon, its nodes, the clock and the panel's own callbacks are a
    [World] over which the tile and deploy flows run ([Outside]). *)
From S2P Require Import Prelude GoStrings Errs Outside TileRow.

(** ** What a container is made from *)

Record NetAttach := MkNetAttach { n_Name : string; n_Aliases : list string; n_IPv4 : string }.
Record Device := MkDevice { d_Host : string; d_Container : string; d_Perms : string }.
Record Mount := MkMount { m_Volume : string; m_Subpath : string; m_Target : string; m_ReadOnly : bool }.

(** [CPULimit] is a [float64], kept as its bits. *)
Record ContainerSpec := MkSpec {
  s_Name : string; s_Image : string; s_Cmd : list string; s_Env : list string;
  s_Labels : gmap string string; s_Volumes : list string; s_Mounts : list Mount;
  s_Ports : gmap string string; s_AnyIP : bool; s_Networks : list NetAttach;
  s_HostNetwork : bool; s_PidHost : bool; s_CapAdd : list string;
  s_ExtraHosts : list string; s_CapDrop : list string;
  s_CPULimit : Z; s_MemLimitMB : Z; s_PidsLimit : Z; s_User : string; s_ShmSizeMB : Z;
  s_Privileged : bool; s_Devices : list Device; s_Restart : string;
  s_HealthCmd : string; s_HealthIntervalS : Z; s_HealthTimeoutS : Z;
  s_HealthRetries : Z; s_HealthStartPeriodS : Z }.

Definition with_Name (s : ContainerSpec) (name : string) : ContainerSpec :=
  let '(MkSpec _ i c e l v m p a n h ph ca eh cd cpu mem pids u shm pr d r hc hi ht hr hs) := s in
  MkSpec name i c e l v m p a n h ph ca eh cd cpu mem pids u shm pr d r hc hi ht hr hs.
Definition with_Labels (s : ContainerSpec) (labels : gmap string string) : ContainerSpec :=
  let '(MkSpec x i c e _ v m p a n h ph ca eh cd cpu mem pids u shm pr d r hc hi ht hr hs) := s in
  MkSpec x i c e labels v m p a n h ph ca eh cd cpu mem pids u shm pr d r hc hi ht hr hs.
Definition with_Networks (s : ContainerSpec) (ns : list NetAttach) : ContainerSpec :=
  let '(MkSpec x i c e l v m p a _ h ph ca eh cd cpu mem pids u shm pr d r hc hi ht hr hs) := s in
  MkSpec x i c e l v m p a ns h ph ca eh cd cpu mem pids u shm pr d r hc hi ht hr hs.
Definition with_Restart (s : ContainerSpec) (r : string) : ContainerSpec :=
  let '(MkSpec x i c e l v m p a n h ph ca eh cd cpu mem pids u shm pr d _ hc hi ht hr hs) := s in
  MkSpec x i c e l v m p a n h ph ca eh cd cpu mem pids u shm pr d r hc hi ht hr hs.

(** [docker.ContainerSpec{}]. *)
Definition zero_spec : ContainerSpec :=
  MkSpec "" "" [] [] ∅ [] [] ∅ false [] false false [] [] [] 0 0 0 "" 0 false [] "" "" 0 0 0 0.

(** A row of a list, and the curated inspect, as far as a caller here reads. *)
Record Container := MkContainer {
  k_ID : string; k_Name : string; k_Image : string; k_ImageID : string; k_State : string; k_Health : string;
  k_Labels : gmap string string; k_IPs : list string; k_Nets : gmap string string; k_HostNetwork : bool }.
Record Detail := MkDetail {
  dt_ID : string; dt_Name : string; dt_Image : string; dt_State : string; dt_Running : bool; dt_Health : string;
  dt_RestartCount : Z; dt_Mounts : list string; dt_Networks : gmap string string; dt_HostNetwork : bool }.

(** [m[k]] of a [map[string]string]. *)
Definition at_key (m : gmap string string) (k : string) : string := default "" (m !! k).

(** ** The outside of the tile and deploy flows *)

(** A context: the node Docker calls on it go to, and whether it is cut off
    from its parent's cancellation. *)
Record Ctx := MkCtx { c_node : string; c_detached : bool }.
Definition WithNode (c : Ctx) (id : string) : Ctx := MkCtx id (c_detached c).
Definition WithoutCancel (c : Ctx) : Ctx := MkCtx (c_node c) true.

(** The calls.  [EPoll d] is the wait of a [select] on [ctx.Done()] and
    [time.After(d)], [ENow] a reading of the clock. *)
Inductive event :=
  | ENow
  | EPoll (c : Ctx) (d : Z)
  | ENode (envID : string)
  | ETile (id : string)
  | EPin (t : Tile) (network : string)
  | EEarly (c : Ctx) (t : Tile) (id : string) (on : bool)
  | ERun (c : Ctx) (s : ContainerSpec)
  | ECreate (c : Ctx) (s : ContainerSpec)
  | EStart (c : Ctx) (id : string)
  | EStop (c : Ctx) (id : string)
  | ERestart (c : Ctx) (id : string)
  | EStopRemove (c : Ctx) (id : string)
  | EPause (c : Ctx) (id : string)
  | EUnpause (c : Ctx) (id : string)
  | EExec (c : Ctx) (id : string) (cmd : list string)
  | EExecStream (c : Ctx) (id : string) (cmd : list string)
  | EFollow (c : Ctx) (id : string) (tail : Z)
  | ELogs (c : Ctx) (id : string) (tail : Z)
  | EList (c : Ctx) (labels : gmap string string)
  | EInspect (c : Ctx) (id : string)
  | EVipSet (c : Ctx) (vip : string) (replicas lan : list string)
  | EVipRemove (c : Ctx) (vip : string)
  | EPruneFiles (c : Ctx) (tileID : string)
  | ESwap
  | EGrants (stackID : string)
  | ESync (c : Ctx).

(** What answers, given every call before.  [w_run] is the id a create gives,
    [w_done] what [ctx.Err()] reads on a context that can be cancelled. *)
Record World := MkWorld {
  w_ask : list (event * bool) -> event -> option error;
  w_now : list (event * bool) -> Z;
  w_done : list (event * bool) -> option error;
  w_node : list (event * bool) -> string -> string;
  w_tile : list (event * bool) -> string -> Tile;
  w_pin : list (event * bool) -> Tile -> string -> string;
  w_run : list (event * bool) -> ContainerSpec -> string;
  w_exec : list (event * bool) -> string -> string;
  w_logs : list (event * bool) -> string -> string;
  w_list : list (event * bool) -> gmap string string -> list Container;
  w_inspect : list (event * bool) -> string -> Detail;
  w_grants : list (event * bool) -> string -> list string }.

#[export] Instance docker_asks : Asks World event := w_ask.

Abbreviation hist := (Outside.hist event).
Abbreviation St := (Outside.St event unit).
Abbreviation M := (Outside.M (E := event) (S := unit)).

Section Calls.
Context (W : World).

Definition now : M Z := fun st => (log_event ENow true st, Ok (w_now W (past st))).
(** [ctx.Err()]. *)
Definition ctx_Err (c : Ctx) (st : St) : option error := if c_detached c then None else w_done W (past st).

Definition Run (c : Ctx) (s : ContainerSpec) : M string := reads W (ERun c s) (fun h => w_run W h s).
Definition Create (c : Ctx) (s : ContainerSpec) : M string := reads W (ECreate c s) (fun h => w_run W h s).
Definition ListC (c : Ctx) (labels : gmap string string) : M (list Container) := reads W (EList c labels) (fun h => w_list W h labels).
Definition Inspect (c : Ctx) (id : string) : M Detail := reads W (EInspect c id) (fun h => w_inspect W h id).

(** ** The health gate *)

(** What one look at the container says: [Some] to return, [None] to wait. *)
Definition verdict (d : Detail) (start grace finish now1 now2 : Z) : option (res unit) :=
  if 0 <? dt_RestartCount d then Some (Err (Errorf (text "the container restarted during the health check")))
  else if negb (dt_Running d) then Some (Err (Errorf (text "the container exited during the health check")))
  else if String.eqb (dt_Health d) "unhealthy" then Some (Err (Errorf (text "the container reported unhealthy")))
  else if String.eqb (dt_Health d) "healthy" then Some (Ok tt)
  else if String.eqb (dt_Health d) "" && (grace <=? now1 - start) then Some (Ok tt)
  else if finish <? now2 then Some (Err (Errorf (text "the container was not healthy before the deadline")))
  else None.

(** The loop of [Healthy]; [None] when the fuel is out.  The code reads the
    clock only in the cases that compare it; here both readings are taken
    first, and a reading that is not compared decides nothing. *)
Fixpoint healthy_loop (fuel : nat) (c : Ctx) (id : string) (poll grace start finish : Z) : St -> St * option (res unit) := fun st =>
  match fuel with
  | O => (st, None)
  | S fuel =>
      match Inspect c id st with
      | (st, Err e) => (st, Some (Err e))
      | (st, Ok d) =>
          let (st, t1) := (log_event ENow true st, w_now W (past st)) in
          let (st, t2) := (log_event ENow true st, w_now W (past st)) in
          match verdict d start grace finish t1 t2 with
          | Some r => (st, Some r)
          | None =>
              match call W (EPoll c poll) st with
              | (st, Err e) => (st, Some (Err e))
              | (st, Ok _) => healthy_loop fuel c id poll grace start finish st
              end
          end
      end
  end.
End Calls.

Section Healthy.
Context (W : World).

(** [Healthy].  Each turn that waits moves the clock by [poll], so the fuel
    covers the deadline ([Healthy_returns]). *)
Definition out_of_fuel : error := New "docker.Healthy: out of fuel".
Definition healthy_fuel (poll deadline : Z) : nat := (Z.to_nat (deadline / poll) + 2)%nat.
Definition Healthy (c : Ctx) (id : string) (poll grace deadline : Z) : M unit :=
  start <~ now W ;;
  fun st => let '(st, r) := healthy_loop W (healthy_fuel poll deadline) c id poll grace start (start + deadline) st in
            (st, default (Err out_of_fuel) r).
End Healthy.
