(* ===== verification/TileLines.v ===== *)
(** * The lines of a tile's lists ([service/internal/leaf/tile/check.go], from [Lines] on)

    Volumes, published ports, LAN access, devices, config files and
    dependencies are one item per line; each has its parser. *)
From S2P Require Import Prelude GoStrings Errs Slug Netip GoPath Docker.

(** [Lines]: one item per line, blanks dropped. *)
Definition Lines (s : string) : list string :=
  List.filter (fun l => negb (String.eqb l "")) (map trim_space (split "010" s)).

(** ** Volumes *)

Definition MountVolume : string := "volume".
Definition MountHost : string := "host".
Definition MountShare : string := "share".

Record Mount := MkMount { Kind : string; Volume : string; Host : string; Share : string; Sub : string; Path : string; RO : bool }.

Definition hasDotDot (p : string) : bool := contains (split "/" p) "..".

Definition refuse_line (f : string) (a : list arg) : res Mount := Err (Invalidf "" f a).
Definition notMount (l : string) : error :=
  Invalidf "" "%q is not a mount. Write volume:/path, host:/host/path:/path or share:name/sub:/path, each with :ro for read-only" [AStr l].

(** The container side of a line: what is left after the source [what]. *)
Definition mount_at (l : string) (m : Mount) (rest : list string) (what : string) : res Mount :=
  match rest with
  | [p] | [p; _] =>
      if Nat.eqb (length rest) 2 && negb (String.eqb (nth 1 rest "") "ro") then Err (notMount l)
      else if String.eqb p "" then refuse_line "Add a path for %s" [AStr what]
      else if negb (IsAbs p) then refuse_line "Start the path for %s with /" [AStr what]
      else if String.eqb (Clean p) "/" then refuse_line "Mount %s at a path under /, not at / itself" [AStr what]
      else Ok (MkMount (Kind m) (Volume m) (Host m) (Share m) (Sub m) p (Nat.eqb (length rest) 2))
  | _ => Err (notMount l)
  end.

Definition cut_or (sep : ascii) (s : string) : string * string := default (s, "") (cut sep s).

Definition ParseMount (l : string) : res Mount :=
  let parts := split ":" l in
  let p0 := nth 0 parts "" in let p1 := nth 1 parts "" in let n := length parts in
  if Nat.leb 3 n && String.eqb p0 "host" && IsAbs (nth 2 parts "") then
    if has_byte "," l || negb (cleanAbs p1) then
      refuse_line "%q: the host path is absolute, with no .. or // and no commas" [AStr l]
    else mount_at l (MkMount MountHost "" p1 "" "" "" false) (drop 2 parts) p1
  else if Nat.leb 3 n && String.eqb p0 "share" && negb (IsAbs p1) then
    let '(name, sub) := cut_or "/" p1 in
    if negb (Valid name) || has_prefix sub "/" || hasDotDot sub then
      refuse_line "%q is not a share mount. Write share:name/sub/path:/container/path, with :ro for read-only" [AStr l]
    else mount_at l (MkMount MountShare "" "" name (str_drop 1 (Clean ("/" +:+ sub))) "" false) (drop 2 parts) ("share " +:+ name)
  else if Nat.leb 2 n && String.eqb p0 "" && negb (String.eqb p1 "") then
    refuse_line "Pick a volume for %s" [AStr p1]
  else if Nat.ltb n 2 || negb (Valid p0) then Err (notMount l)
  else mount_at l (MkMount MountVolume p0 "" "" "" "" false) (drop 1 parts) p0.

(** [checkMounts]: every refused line, with its number; a container path is
    taken once. *)
Fixpoint checkMounts_from (i : Z) (taken : list string) (ls : list string) : list error :=
  match ls with
  | [] => []
  | l :: ls =>
      match ParseMount l with
      | Err e => Invalid "volumes" "" (Sprintf "%s." [AErr e]) (i + 1) :: checkMounts_from (i + 1) taken ls
      | Ok m =>
          let p := Clean (Path m) in
          if contains taken p then
            Invalid "volumes" "" (Sprintf "Two mounts use %s. Give each its own path." [AStr p]) (i + 1) :: checkMounts_from (i + 1) taken ls
          else checkMounts_from (i + 1) (p :: taken) ls
      end
  end.
Definition checkMounts (v : string) : list error := checkMounts_from 0 [] (Lines v).

(** ** Published ports *)

Definition port (s : string) : bool := match Atoi s with Some n => (0 <? n) && (n <? 65536) | None => false end.
Definition ParsePort (l : string) : res (Z * Z * string) :=
  let bad := Err (Errorf (Sprintf "%q: want hostport:containerport[/udp]" [AStr l])) in
  match cut ":" l with
  | None => bad
  | Some (h, c) =>
      let '(c, p) := cut_or "/" c in
      let proto := if String.eqb p "" then "tcp" else p in
      if negb (port h) || negb (port c) || (negb (String.eqb proto "tcp") && negb (String.eqb proto "udp")) then bad
      else Ok (default 0 (Atoi h), default 0 (Atoi c), proto)
  end.

(** ** LAN access *)

Record LANRule := MkLANRule { lr_Net : Prefix; lr_Port : Z }.

Definition IsSingleIP (p : Prefix) : bool := PrefixValid p && (p_bits p =? BitLen (p_ip p)).
Definition LAN_string (r : LANRule) : string :=
  (if IsSingleIP (lr_Net r) then addr_text (p_ip (lr_Net r)) else prefix_text (lr_Net r)) +:+
  (if lr_Port r =? 0 then "" else ":" +:+ itoa (lr_Port r)).

Definition lanNet (s : string) : option Prefix :=
  match ParsePrefix s with
  | Some pf => Some pf
  | None => match ParseAddr s with Some a => Some (PrefixFrom a (BitLen a)) | None => None end
  end.
Definition bad_lan_line (l : string) : error := Errorf (Sprintf "%q: want an IP or CIDR with an optional :port" [AStr l]).
Definition ParseLAN (l : string) : res LANRule :=
  let '(net, p) :=
    match lanNet l with
    | Some _ => (l, None)
    | None => match cut_last ":" l with Some (n, p) => (n, Some p) | None => (l, None) end
    end in
  match lanNet net with
  | None => Err (bad_lan_line l)
  | Some pf =>
      if negb (Is4 (p_ip pf)) then Err (Errorf (Sprintf "%q: lan takes IPv4 addresses only" [AStr l]))
      else match p with
      | None => Ok (MkLANRule (Masked pf) 0)
      | Some p => if negb (port p) then Err (bad_lan_line l) else Ok (MkLANRule (Masked pf) (default 0 (Atoi p)))
      end
  end.

(** ** Devices, files, dependencies *)

Definition ParseDevice (l : string) : res Device :=
  let parts := split ":" l in
  let host := nth 0 parts "" in
  let cont := if Nat.ltb 1 (length parts) && negb (String.eqb (nth 1 parts "") "") then nth 1 parts "" else host in
  let perms := if Nat.ltb 2 (length parts) then nth 2 parts "" else "rwm" in
  if Nat.ltb 3 (length parts) || has_byte "," l || negb (IsAbs host) || negb (IsAbs cont) || String.eqb perms ""
     || negb (all_bytes (fun c => has_byte c "rwm") perms) then
    Err (Errorf (Sprintf "%q: want /dev/host[:/dev/container[:rwm]], no commas" [AStr l]))
  else Ok (MkDevice host cont perms).

Definition ParseFileMount (l : string) : res (string * string) :=
  let parts := split ":" l in
  let n := length parts in
  if Nat.ltb n 2 || Nat.ltb 3 n || (Nat.eqb n 3 && negb (String.eqb (nth 2 parts "") "template")) then
    Err (Errorf (Sprintf "%q is not a file line: write repo/path:/container/path, with :template to fill in variables" [AStr l]))
  else
    let src := Clean (nth 0 parts "") in let dst := nth 1 parts "" in
    if String.eqb src "." || IsAbs src || String.eqb src ".." || has_prefix src "../" || negb (IsAbs dst) then
      Err (Errorf (Sprintf "%q: the source is a path inside the repo, the target an absolute path" [AStr l]))
    else Ok (src, dst).

Definition ParseDep (l : string) : res (string * string) :=
  let '(s, c) := cut_or ":" l in
  let cond := if String.eqb c "" then "started" else c in
  if negb (Valid s) || negb (contains ["started"; "healthy"; "completed"] cond) then
    Err (Errorf (Sprintf "%q: want tile[:started|healthy|completed]" [AStr l]))
  else Ok (s, cond).

(** ["always"] has three spellings. *)
Definition canonRestart (v : string) : string * bool :=
  if contains [""; "always"; "unless-stopped"] v then ("always", true)
  else if contains ["on-failure"; "no"] v then (v, true)
  else (v, false).

(** ** What a parsed mount can name *)

Lemma mount_at_ok l m rest what m' : mount_at l m rest what = Ok m' -> exists p,
  (rest = [p] /\ RO m' = false \/ rest = [p; "ro"] /\ RO m' = true) /\
  m' = MkMount (Kind m) (Volume m) (Host m) (Share m) (Sub m) p (RO m') /\ IsAbs p = true /\ Clean p <> "/".
Proof.
  unfold mount_at. destruct rest as [|p [|q [|x rest]]]; try done; cbn [length nth Nat.eqb andb];
    [|destruct (String.eqb_spec q "ro") as [->|]; cbn [negb]; [|done]];
    (destruct (String.eqb p ""); [done|]; destruct (IsAbs p) eqn:Ea; cbn [negb]; [|done]; destruct (String.eqb_spec (Clean p) "/"); [done|];
     intros <-%Ok_inj; exists p; cbn [RO Kind Volume Host Share Sub]; auto).
Qed.

Lemma split_back l : l = join ":" (split ":" l).
Proof. symmetry. apply (join_split ":"). Qed.

(** A host line parses to itself: the grant names exactly what is mounted. *)
Lemma ParseMount_host l m : ParseMount l = Ok m -> Kind m = MountHost ->
  l = "host:" +:+ Host m +:+ ":" +:+ Path m +:+ (if RO m then ":ro" else "") /\
  cleanAbs (Host m) = true /\ has_byte "," l = false /\ IsAbs (Path m) = true /\ Clean (Path m) <> "/".
Proof.
  intros E Hk. pose proof (split_back l) as Hl. unfold ParseMount in E.
  destruct (_ && _ && IsAbs _) eqn:E1.
  - apply andb_true_iff in E1 as [[E1 Eh]%andb_true_iff _]. apply Nat.leb_le in E1. apply String.eqb_eq in Eh.
    destruct (has_byte "," l) eqn:Ec; [done|]. destruct (cleanAbs _) eqn:Ea; [|done]. cbn [negb orb] in E.
    apply mount_at_ok in E as (p & Hr & -> & Hp & Hc). cbn [Host Path RO Kind] in *.
    destruct (split ":" l) as [|a [|b rest]]; [done..|]. cbn [nth drop] in *. subst a. split_and!; try done.
    rewrite drop_0 in Hr. rewrite Hl. destruct Hr as [[-> ->]|[-> ->]]; cbn [join]; [by rewrite app_nil_r_str|done].
  - destruct (_ && _ && negb _) eqn:E2.
    { destruct (cut_or _ _) as [n s]. destruct (_ || _); [done|]. apply mount_at_ok in E as (p & _ & Em & _); by rewrite Em in Hk. }
    clear E1 E2. destruct (_ && _ && negb _); [done|]. destruct (_ || _); [done|]. apply mount_at_ok in E as (p & _ & Em & _); by rewrite Em in Hk.
Qed.

Lemma hasDotDot_elems p e : hasDotDot p = false -> e ∈ split "/" p -> e <> "..".
Proof. unfold hasDotDot. destruct (contains_spec (split "/" p) ".."); [done|]. by intros _ He ->. Qed.

(** A share line stays inside its share, a volume line names a slug. *)
Lemma ParseMount_share l m : ParseMount l = Ok m -> Kind m = MountShare ->
  Valid (Share m) = true /\ IsAbs (Sub m) = false /\ (Sub m = "" \/ Forall (fun e => e <> "" /\ e <> "." /\ e <> "..") (split "/" (Sub m))).
Proof.
  intros E Hk. unfold ParseMount in E. destruct (_ && _ && IsAbs _) eqn:E1.
  { destruct (_ || _); [done|]. apply mount_at_ok in E as (p & _ & Em & _); by rewrite Em in Hk. }
  destruct (_ && _ && negb _) eqn:E2.
  - clear E1 E2. destruct (cut_or _ _) as [n s]. destruct (Valid n) eqn:Ev; [|done]. cbn [negb orb] in E. destruct (has_prefix s "/"); [done|].
    destruct (hasDotDot s); [done|]. cbn [orb] in E. apply mount_at_ok in E as (p & _ & -> & _). cbn [Share Sub Kind] in *. split; [done|].
    assert (IsAbs ("/" +:+ s) = true) as Ha by by apply has_prefix_spec; eexists.
    unfold Clean. rewrite Ha. change (str_drop 1 ("/" +:+ join "/" (clean_elems ("/" +:+ s)))) with (join "/" (clean_elems ("/" +:+ s))).
    assert (Forall (fun e => elem_ok e /\ e <> "..") (clean_elems ("/" +:+ s))) as He.
    { apply Forall_forall. intros e He. by apply (clean_rooted ("/" +:+ s)). }
    destruct (clean_elems ("/" +:+ s)) as [|e es] eqn:Ee; [by split; [|left]|]. split.
    + apply join_abs. by inv He as [|? ? [Hx _] _].
    + right. rewrite split_join; [|done|]; (eapply Forall_impl; [exact He|]; by intros x [(? & ? & ?) ?]).
  - clear E1 E2. destruct (_ && _ && negb _); [done|]. destruct (_ || _); [done|]. apply mount_at_ok in E as (p & _ & Em & _); by rewrite Em in Hk.
Qed.
