(* ===== verification/TileCheck.v ===== *)
(** * The checks of a tile's row ([service/internal/leaf/tile/check.go], up to [checkLists])

    What each kind may carry, and the one gate over a finished row. *)
From S2P Require Import Prelude GoStrings Errs Regexp Slug Address GoJson Registry TileRow TileLines.

(** ** Kinds and words *)

Definition Service : string := "service".
Definition Image : string := "image".
Definition Managed : string := "managed".
Definition Cron : string := "cron".
Definition Function_ : string := "function".
Definition Slice : string := "slice".
Definition Read : string := "read".
Definition Write : string := "write".
Definition Keep : string := "keep".
Definition Drop : string := "drop".
Definition Manual : string := "manual".
Definition OnDeploy : string := "on_deploy".
Definition DefaultTimeout : Z := 30.

Definition RunToCompletion (kind : string) : bool := String.eqb kind Cron || String.eqb kind Function_.
Definition Builds (t : Tile) : bool := String.eqb (t_Kind t) Service || (RunToCompletion (t_Kind t) && negb (String.eqb (t_GitURL t) "")).
Definition Pulls (t : Tile) : bool := String.eqb (t_Kind t) Image || (RunToCompletion (t_Kind t) && String.eqb (t_GitURL t) "").

(** ** What a row carries *)

Definition str (s : string) : bool := negb (String.eqb (trim_space s) "").
Definition obj (s : string) : bool := let s := trim_space s in negb (String.eqb s "") && negb (String.eqb s "{}").

(** [fields]: each request key, and whether the row carries it. *)
Definition fields : list (string * (Tile -> bool)) := [
  ("git_url", fun t => str (t_GitURL t));
  ("branch", fun t => str (t_GitBranch t));
  ("dockerfile", fun t => str (t_DockerfilePath t));
  ("build_context", fun t => str (t_BuildContext t));
  ("build_args", fun t => obj (t_BuildArgs t));
  ("watch_paths", fun t => str (t_WatchPaths t));
  ("image", fun t => str (t_ImageRef t));
  ("update_policy", fun t => String.eqb (t_UpdatePolicy t) "auto");
  ("tag_policy", fun t => str (t_TagPolicy t));
  ("command", fun t => str (t_Command t));
  ("port", fun t => negb (t_ContainerPort t =? 0));
  ("published_ports", fun t => str (t_PublishedPorts t));
  ("endpoint_protocol", fun t => str (t_EndpointProtocol t));
  ("health_path", fun t => str (t_HealthPath t));
  ("healthcheck", fun t => negb (String.eqb (t_HealthcheckCmd t) "") || negb (t_HealthcheckIntervalS t =? 0) || negb (t_HealthcheckTimeoutS t =? 0)
     || negb (t_HealthcheckRetries t =? 0) || negb (t_HealthcheckStartPeriodS t =? 0));
  ("user", fun t => str (t_User t));
  ("privileged", fun t => t_Privileged t);
  ("devices", fun t => str (t_Devices t));
  ("lan", fun t => str (t_Lan t));
  ("host_network", fun t => t_HostNetwork t);
  ("files", fun t => str (t_Files t));
  ("volumes", fun t => str (t_Volumes t));
  ("depends_on", fun t => str (t_DependsOn t));
  ("shared_net", fun t => str (t_SharedNet t));
  ("replicas", fun t => 1 <? t_Replicas t);
  ("env", fun t => obj (t_EnvJSON t));
  ("limits", fun t => negb (f64_zero (t_CPULimit t)) || negb (t_MemLimitMB t =? 0));
  ("shm_size_mb", fun t => negb (t_ShmSizeMB t =? 0));
  ("schedule", fun t => str (t_Schedule t));
  ("trigger", fun t => str (t_Trigger t));
  ("paused", fun t => t_Paused t);
  ("timeout_minutes", fun t => negb (t_TimeoutMinutes t =? 0));
  ("provision_from", fun t => match t_ProvisionFrom t with Some _ => true | None => false end);
  ("default_access", fun t => match t_DefaultAccess t with Some _ => true | None => false end);
  ("on_remove", fun t => match t_OnRemove t with Some _ => true | None => false end);
  ("slice_access", fun t => match t_SliceAccess t with [] => false | _ => true end)].

(** [refusals]: the refusals that have words of their own. *)
Definition refusals : list (string * string) := [
  ("schedule", "schedule applies to cron tiles only");
  ("trigger", "run_on_deploy applies to function tiles only");
  ("paused", "only cron tiles have a schedule to pause");
  ("command", "command does not apply to a %s");
  ("port", "a %s has no endpoint; port does not apply");
  ("user", "user applies to service tiles only");
  ("privileged", "privileged applies to service tiles only");
  ("devices", "devices apply to service tiles only");
  ("lan", "lan applies to service and image tiles only");
  ("host_network", "network: host applies to service and image tiles only");
  ("healthcheck", "healthcheck applies to service tiles only");
  ("provision_from", "provision_from applies to slice tiles only");
  ("default_access", "default_access applies to slice tiles only");
  ("on_remove", "on_remove applies to slice tiles only");
  ("slice_access", "slice_access does not apply to a %s")].
Definition assoc {A} (k : string) (m : list (string * A)) : option A := snd <$> List.find (fun p => String.eqb p.1 k) m.
Definition refuse (kind key : string) : error :=
  match assoc key refusals with
  | Some msg => if contains_str msg "%s" then Invalidf key msg [AStr kind] else Invalidf key "%s" [AStr msg]
  | None => Invalidf key "%s tiles do not take %s" [AStr kind; AStr key]
  end.

Definition buildKeys : list string := ["git_url"; "branch"; "dockerfile"; "build_context"; "build_args"; "watch_paths"].
Definition watchKeys : list string := ["image"; "update_policy"; "tag_policy"].
Definition runKeys : list string := ["command"; "port"; "published_ports"; "endpoint_protocol"; "health_path"; "healthcheck"; "user"; "privileged";
  "devices"; "lan"; "host_network"; "files"; "volumes"; "depends_on"; "shared_net"; "replicas"; "env"; "limits"; "shm_size_mb"].
Definition oneShotKeys : list string := ["image"; "command"; "timeout_minutes"; "files"; "volumes"; "depends_on"; "shared_net"; "env"; "limits"; "shm_size_mb"].

(** [Carries]: the one whitelist of what each kind may carry. *)
Definition Carries : list (string * list string) := [
  (Service, buildKeys ++ runKeys ++ ["slice_access"]);
  (Image, watchKeys ++ runKeys ++ ["slice_access"]);
  (Managed, ["image"; "env"; "limits"; "shm_size_mb"; "published_ports"]);
  (Cron, buildKeys ++ oneShotKeys ++ ["schedule"; "paused"; "slice_access"]);
  (Function_, buildKeys ++ oneShotKeys ++ ["trigger"; "slice_access"]);
  (Slice, ["provision_from"; "default_access"; "on_remove"])].

(** ** The checks *)

(** [gitURL]. *)
Definition host_byte (c : ascii) : bool := is_lower c || is_upper c || is_digit c || has_byte c ".-".
Definition path_byte (c : ascii) : bool := host_byte c || Ascii.eqb c "_".
Definition gitURL : re :=
  RCat (RAlt (RCat (RStr "https://") (RCat (RPlus (RChr host_byte)) (RCat (ROpt (RCat (RStr ":") (RPlus (RChr is_digit)))) (RStr "/"))))
             (RCat (RPlus (RChr path_byte)) (RCat (RStr "@") (RCat (RPlus (RChr host_byte)) (RStr ":")))))
       (RCat (RPlus (RChr path_byte)) (RPlus (RCat (RStr "/") (RPlus (RChr path_byte))))).
Definition badGitURL : string := "Use a repository URL: https://host/owner/repo or user@host:owner/repo.".

Definition nz (s d : string) : string := if String.eqb s "" then d else s.
Definition bad_if (b : bool) (key f : string) (a : list arg) : list error := if b then [Invalidf key f a] else [].

Section Checks.
Context `{Versions} (cron_ParseStandard : string -> bool).

(** [checkRun]: the row, and its first fault. *)
Definition checkRun (t : Tile) : Tile * option error :=
  let git := t_GitURL t in
  if negb (String.eqb git "") && negb (String.eqb (t_ImageRef t) "") then (t, Some (Invalidf "image" "Set a Git URL or an image, not both." []))
  else if String.eqb git "" && String.eqb (t_ImageRef t) "" then (t, Some (Invalidf "git_url" "Set a Git URL to build from or an image to run." []))
  else if negb (String.eqb git "") && negb (re_match gitURL git) then (t, Some (Invalidf "git_url" badGitURL []))
  else
    let t := set_run t (t_Trigger t) (if t_TimeoutMinutes t =? 0 then DefaultTimeout else t_TimeoutMinutes t) in
    if String.eqb (t_Kind t) Cron then
      if String.eqb (trim_space (t_Schedule t)) "" then (t, Some (Invalidf "schedule" "Give the cron a schedule, like 0 3 * * *." []))
      else if negb (cron_ParseStandard (t_Schedule t)) then
        (t, Some (Invalidf "schedule" "Not a cron schedule. Use five fields, like 0 3 * * * for 03:00 every day." []))
      else (t, None)
    else
      let t := set_run t (nz (t_Trigger t) Manual) (t_TimeoutMinutes t) in
      if negb (String.eqb (t_Trigger t) Manual) && negb (String.eqb (t_Trigger t) OnDeploy) then
        (t, Some (Invalidf "trigger" "Pick manually or on every deploy." []))
      else (t, None).

Definition one_of (a b : string) (v : option string) : bool :=
  match v with Some v => String.eqb v a || String.eqb v b | None => false end.
Definition checkSlice (t : Tile) : Tile * option error :=
  match t_ProvisionFrom t with
  | None => (t, Some (Invalidf "provision_from" "a slice needs provision_from: <stack>:<env>:<tile>" []))
  | Some pf =>
      if String.eqb (trim_space pf) "" then (t, Some (Invalidf "provision_from" "a slice needs provision_from: <stack>:<env>:<tile>" []))
      else match ParseTarget pf with
      | Err e => (t, Some e)
      | Ok _ =>
          let t := set_slice t (Some (default Write (t_DefaultAccess t))) (t_OnRemove t) in
          if negb (one_of Read Write (t_DefaultAccess t)) then (t, Some (Invalidf "default_access" "default_access must be read or write" []))
          else
            let t := set_slice t (t_DefaultAccess t) (Some (default Keep (t_OnRemove t))) in
            if negb (one_of Keep Drop (t_OnRemove t)) then (t, Some (Invalidf "on_remove" "on_remove must be keep or drop" []))
            else (t, None)
      end
  end.

(** ** Lists and blobs *)

Definition bad_names (m : gmap string string) : list error :=
  match List.filter (fun k => negb (ValidEnvKey k)) (sorted_keys m) with
  | [] => []
  | [n] => [Invalidf "env" "%s is not a variable name. Use letters, digits and _, and start with a letter or _." [AStr n]]
  | ns => [Invalidf "env" "%s are not variable names. Use letters, digits and _, and start with a letter or _." [AStr (join ", " ns)]]
  end.
Definition blob (v : string) : string := if String.eqb (trim_space v) "" then "{}" else v.
Definition check_blob (key v : string) : list error :=
  match unmarshal_strings v with
  | None => [Invalidf key "%s must be a map of names to strings" [AStr key]]
  | Some m => if String.eqb key "env" then bad_names m else []
  end.
(** The first line of a list that does not parse. *)
Fixpoint first_bad {A} (key : string) (parse : string -> res A) (ls : list string) : list error :=
  match ls with
  | [] => []
  | l :: ls => match parse l with Err e => [Invalidf key "%s." [AErr e]] | Ok _ => first_bad key parse ls end
  end.
Definition list_faults (t : Tile) : list error :=
  checkMounts (t_Volumes t) ++
  first_bad "files" ParseFileMount (Lines (t_Files t)) ++
  first_bad "devices" ParseDevice (Lines (t_Devices t)) ++
  first_bad "depends_on" ParseDep (Lines (t_DependsOn t)) ++
  first_bad "published_ports" ParsePort (Lines (t_PublishedPorts t)) ++
  first_bad "lan" ParseLAN (Lines (t_Lan t)).
Definition checkLists (t : Tile) : Tile * list error :=
  let t := set_blobs t (blob (t_EnvJSON t)) (blob (t_BuildArgs t)) in
  (t, check_blob "env" (t_EnvJSON t) ++ check_blob "build_args" (t_BuildArgs t) ++ list_faults t).

(** ** The gate *)

Definition some (e : option error) : list error := match e with Some e => [e] | None => [] end.
Definition not_carried (t : Tile) (allowed : list string) : list error :=
  flat_map (fun f => if snd f t && negb (contains allowed f.1) then [refuse (t_Kind t) f.1] else []) fields.
Definition kind_rules (t : Tile) : Tile * list error :=
  let k := t_Kind t in
  if String.eqb k Service then
    (t, if String.eqb (t_GitURL t) "" then [Invalidf "git_url" "Give the Git URL to build from." []]
        else bad_if (negb (re_match gitURL (t_GitURL t))) "git_url" badGitURL [])
  else if String.eqb k Image then (t, bad_if (String.eqb (t_ImageRef t) "") "image" "Give an image to run, or a Git URL to build instead." [])
  else if RunToCompletion k then let '(t, e) := checkRun t in (t, some e)
  else if String.eqb k Slice then let '(t, e) := checkSlice t in (t, some e)
  else (t, []).
Definition access_fault (a : SliceAccess) : list error :=
  if negb (Valid (sa_From a)) then [Invalidf "slice_access" "from %q is not a slice tile slug" [AStr (sa_From a)]]
  else bad_if (negb (String.eqb (sa_Access a) Read) && negb (String.eqb (sa_Access a) Write)) "slice_access" "%s: access must be read or write" [AStr (sa_From a)].
Definition numbers (t : Tile) : list (string * bool * string) := [
  ("limits.cpu", f64_neg (t_CPULimit t), "Use 0 or more; 0 is no limit.");
  ("limits.memory_mb", t_MemLimitMB t <? 0, "Use 0 or more; 0 is no limit.");
  ("shm_size_mb", t_ShmSizeMB t <? 0, "Use 0 or more.");
  ("healthcheck_interval", t_HealthcheckIntervalS t <? 0, "Use 0 or more.");
  ("healthcheck_timeout", t_HealthcheckTimeoutS t <? 0, "Use 0 or more.");
  ("healthcheck_retries", t_HealthcheckRetries t <? 0, "Use 0 or more.");
  ("healthcheck_start_period", t_HealthcheckStartPeriodS t <? 0, "Use 0 or more.");
  ("replicas", t_Replicas t <? 0, "Use a whole number, 1 or more.");
  ("timeout_minutes", t_TimeoutMinutes t <? 0, "Use 0 or more.");
  ("port", (t_ContainerPort t <? 0) || (65535 <? t_ContainerPort t), "Use a port from 1 to 65535.")].
Definition host_faults (t : Tile) : list error :=
  if t_HostNetwork t then
    bad_if (1 <? t_Replicas t) "replicas" "A tile on the host network runs one replica." [] ++
    bad_if (str (t_PublishedPorts t)) "published_ports" "On the host network the tile binds the server's ports itself: leave server ports empty." [] ++
    bad_if (str (t_Lan t)) "lan" "On the host network the tile already reaches the whole LAN: leave LAN access empty." []
  else [].

(** A build's branch, file and context, where they are blank. *)
Definition build_defaults (t : Tile) : Tile :=
  if Builds t then set_build t (nz (t_GitBranch t) "main") (nz (t_DockerfilePath t) "Dockerfile") (nz (t_BuildContext t) ".") else t.
(** [Validate] after its switch on the kind, [bad] the faults so far. *)
Definition other_rules (t : Tile) (bad : list error) : Tile * option error :=
  let t := build_defaults t in
  let bad := bad ++ flat_map access_fault (t_SliceAccess t) in
  let bad := bad ++ bad_if (negb (String.eqb (t_ImageRef t) "") && negb (ValidRef (t_ImageRef t))) "image"
    "Not an image reference: use a name and tag, like nginx:1.27." [] in
  let bad := bad ++ bad_if (negb (ValidTagPolicy (t_TagPolicy t))) "tag_policy"
    "Use a version rule: ^1.2, ~1.2, 1.2 or *, with an optional semver in front." [] in
  let t := set_policies t (t_RestartPolicy t) (nz (t_UpdatePolicy t) "manual") in
  let bad := bad ++ bad_if (negb (String.eqb (t_UpdatePolicy t) "manual") && negb (String.eqb (t_UpdatePolicy t) "auto")) "update_policy" "Pick manual or auto." [] in
  let '(rp, ok) := canonRestart (t_RestartPolicy t) in
  let t := if ok then set_policies t rp (t_UpdatePolicy t) else t in
  let bad := bad ++ bad_if (negb ok) "restart" "Pick always, on-failure or no." [] in
  let bad := bad ++ bad_if (negb (contains [""; "http"; "https"; "tcp"] (t_EndpointProtocol t))) "endpoint_protocol" "Use http, https or tcp." [] in
  let bad := bad ++ bad_if (str (t_HealthPath t) && negb (has_prefix (trim_space (t_HealthPath t)) "/")) "health_path" "Start the path with /, like /healthz." [] in
  let bad := bad ++ flat_map (fun n => bad_if (snd (fst n)) (fst (fst n)) "%s" [AStr (snd n)]) (numbers t) in
  let t := set_replicas t (if t_Replicas t =? 0 then 1 else t_Replicas t) in
  let bad := bad ++ bad_if ((1 <? t_Replicas t) && str (t_Volumes t)) "replicas"
    "A tile with a volume runs one replica: two writers on one volume corrupt it." [] in
  let bad := bad ++ host_faults t in
  let '(t, b) := checkLists t in
  (t, errors_join (bad ++ some (errors_join b))).

Definition Validate (t : Tile) : Tile * option error :=
  match assoc (t_Kind t) Carries with
  | None => (t, Some (Invalidf "kind" "kind must be service, image, managed, cron, function or slice" []))
  | Some allowed =>
      let bad := not_carried t allowed in
      let '(t, b) := kind_rules t in
      other_rules t (bad ++ b)
  end.
End Checks.
