(* ===== verification/TileValid.v ===== *)
(** * What a saved tile is ([leaf/tile/check.go] [Validate])

    [lawful] says which rows pass, rule by rule, and [norm] what a row that
    passes is stored as; [Validate] is exactly that. *)
From S2P Require Import Prelude GoStrings Errs Regexp Slug Address GoJson Registry TileRow TileLines TileCheck.

Section Valid.
Context `{Versions} (cron_ParseStandard : string -> bool).
#[local] Abbreviation Validate := (Validate cron_ParseStandard).

(** ** The stored form *)

Definition norm (t : Tile) : Tile :=
  let b := Builds t in let run := RunToCompletion (t_Kind t) in let slice := String.eqb (t_Kind t) Slice in
  set_norm t
    (if b then nz (t_GitBranch t) "main" else t_GitBranch t)
    (if b then nz (t_DockerfilePath t) "Dockerfile" else t_DockerfilePath t)
    (if b then nz (t_BuildContext t) "." else t_BuildContext t)
    (blob (t_EnvJSON t)) (blob (t_BuildArgs t))
    (canonRestart (t_RestartPolicy t)).1 (nz (t_UpdatePolicy t) "manual")
    (if String.eqb (t_Kind t) Function_ then nz (t_Trigger t) Manual else t_Trigger t)
    (if t_Replicas t =? 0 then 1 else t_Replicas t)
    (if run && (t_TimeoutMinutes t =? 0) then DefaultTimeout else t_TimeoutMinutes t)
    (if slice then Some (default Write (t_DefaultAccess t)) else t_DefaultAccess t)
    (if slice then Some (default Keep (t_OnRemove t)) else t_OnRemove t).

(** ** The rules *)

(** Where the artifact of a kind comes from, and what starts it. *)
Definition source_ok (t : Tile) : Prop :=
  let git := t_GitURL t in let image := t_ImageRef t in
  if String.eqb (t_Kind t) Service then git <> "" /\ re_match gitURL git = true
  else if String.eqb (t_Kind t) Image then image <> ""
  else if RunToCompletion (t_Kind t) then
    (git = "" /\ image <> "" \/ git <> "" /\ image = "" /\ re_match gitURL git = true) /\
    if String.eqb (t_Kind t) Cron then trim_space (t_Schedule t) <> "" /\ cron_ParseStandard (t_Schedule t) = true
    else t_Trigger t ∈ [""; Manual; OnDeploy]
  else if String.eqb (t_Kind t) Slice then
    (exists pf, t_ProvisionFrom t = Some pf /\ trim_space pf <> "" /\ is_ok (ParseTarget pf) = true) /\
    t_DefaultAccess t ∈ [None; Some Read; Some Write] /\ t_OnRemove t ∈ [None; Some Keep; Some Drop]
  else True.

(** Each line of a list parses. *)
Definition all_parse {A} (parse : string -> res A) (v : string) : Prop := Forall (fun l => is_ok (parse l) = true) (Lines v).
Definition lists_ok (t : Tile) : Prop :=
  checkMounts (t_Volumes t) = [] /\ all_parse ParseFileMount (t_Files t) /\ all_parse ParseDevice (t_Devices t) /\
  all_parse ParseDep (t_DependsOn t) /\ all_parse ParsePort (t_PublishedPorts t) /\ all_parse ParseLAN (t_Lan t).
(** A blob is blank or a map of strings, under names when it is the env. *)
Definition blob_ok (names : bool) (v : string) : Prop :=
  exists m, unmarshal_strings (blob v) = Some m /\ (names = true -> forall k, is_Some (m !! k) -> ValidEnvKey k = true).

Record lawful (t : Tile) : Prop := {
  law_carries : exists allowed, assoc (t_Kind t) Carries = Some allowed /\ forall f, f ∈ fields -> f.2 t = true -> f.1 ∈ allowed;
  law_source : source_ok t;
  law_access : Forall (fun a => Valid (sa_From a) = true /\ (sa_Access a = Read \/ sa_Access a = Write)) (t_SliceAccess t);
  law_image : t_ImageRef t = "" \/ ValidRef (t_ImageRef t) = true;
  law_tag : ValidTagPolicy (t_TagPolicy t) = true;
  law_update : t_UpdatePolicy t ∈ [""; "manual"; "auto"];
  law_restart : (canonRestart (t_RestartPolicy t)).2 = true;
  law_protocol : t_EndpointProtocol t ∈ [""; "http"; "https"; "tcp"];
  law_path : str (t_HealthPath t) = true -> has_prefix (trim_space (t_HealthPath t)) "/" = true;
  law_numbers : Forall (fun n => n.1.2 = false) (numbers t);
  law_writers : 1 < t_Replicas t -> str (t_Volumes t) = false;
  law_host : t_HostNetwork t = true -> t_Replicas t <= 1 /\ str (t_PublishedPorts t) = false /\ str (t_Lan t) = false;
  law_env : blob_ok true (t_EnvJSON t);
  law_args : blob_ok false (t_BuildArgs t);
  law_lists : lists_ok t }.

(** ** Each check is its rule *)

Lemma bad_if_nil b k f a : bad_if b k f a = [] <-> b = false.
Proof. by destruct b. Qed.
Lemma first_bad_nil {A} key (parse : string -> res A) ls : first_bad key parse ls = [] <-> Forall (fun l => is_ok (parse l) = true) ls.
Proof.
  induction ls as [|l ls IH]; cbn [first_bad]; [done|]. rewrite Forall_cons. destruct (parse l); cbn [is_ok]; [rewrite IH; tauto|].
  split; [done|by intros []].
Qed.
Lemma flat_map_nil {A B} (f : A -> list B) xs : flat_map f xs = [] <-> Forall (fun x => f x = []) xs.
Proof. induction xs as [|x xs IH]; cbn; [done|]. by rewrite app_nil, Forall_cons, IH. Qed.
Lemma join_with_None bad b : errors_join (bad ++ some (errors_join b)) = None <-> bad = [] /\ b = [].
Proof. destruct bad, b; cbn; split; try done; by intros []. Qed.
Lemma contains_true (l : list string) x : contains l x = true <-> x ∈ l.
Proof. by destruct (contains_spec l x). Qed.
Lemma nz_id s d : d <> "" -> nz (nz s d) d = nz s d.
Proof. intros Hd. unfold nz. destruct (String.eqb_spec s ""); [by rewrite (proj2 (String.eqb_neq d ""))|]. by rewrite (proj2 (String.eqb_neq s "")). Qed.
Lemma not_carried_nil t allowed : not_carried t allowed = [] <-> forall f, f ∈ fields -> f.2 t = true -> f.1 ∈ allowed.
Proof.
  unfold not_carried. rewrite flat_map_nil, Forall_forall. split; intros Hf f Hin; specialize (Hf f Hin).
  - intros Hs. rewrite Hs in Hf. destruct (contains_spec allowed f.1); [done|by cbn in Hf].
  - destruct (f.2 t); [|done]. cbn [andb]. by rewrite (proj2 (contains_true allowed f.1)) by by apply Hf.
Qed.
Lemma access_nil l : flat_map access_fault l = [] <-> Forall (fun a => Valid (sa_From a) = true /\ (sa_Access a = Read \/ sa_Access a = Write)) l.
Proof.
  rewrite flat_map_nil. apply Forall_proper; [|done]. intros a. unfold access_fault. destruct (Valid (sa_From a)); cbn [negb]; [|by split; [|intros []]].
  rewrite bad_if_nil, andb_false_iff, !negb_false_iff, !String.eqb_eq. tauto.
Qed.
Lemma blob_nil key v : key = "env" \/ key = "build_args" -> check_blob key (blob v) = [] <-> blob_ok (String.eqb key "env") v.
Proof.
  intros Hk. unfold check_blob, blob_ok. destruct (unmarshal_strings (blob v)) as [m|]; [|split; [done|by intros (m & [=] & _)]].
  destruct (String.eqb key "env").
  - assert (bad_names m = [] <-> List.filter (fun k => negb (ValidEnvKey k)) (sorted_keys m) = []) as ->.
    { unfold bad_names. by destruct (List.filter _ _) as [|? []]. }
    assert (forall k, k ∈ sorted_keys m <-> is_Some (m !! k)) as Hks.
    { intros k. unfold sorted_keys, sort_strings. rewrite elem_of_sort, list_elem_of_In, in_map_iff. split.
      - intros ([k' v'] & <- & Hin). apply list_elem_of_In, elem_of_map_to_list in Hin. by exists v'.
      - intros [v' Hv]. exists (k, v'). split; [done|]. by apply list_elem_of_In, elem_of_map_to_list. }
    split.
    + intros Hf. exists m. split; [done|]. intros _ k Hk'%Hks. destruct (ValidEnvKey k) eqn:E; [done|].
      assert (In k (List.filter (fun k => negb (ValidEnvKey k)) (sorted_keys m))) as Hin by (apply List.filter_In; rewrite E; split; [by apply list_elem_of_In|done]).
      by rewrite Hf in Hin.
    + intros (m' & [= <-] & Hv). destruct (List.filter _ _) as [|k ks] eqn:E; [done|].
      assert (In k (List.filter (fun k => negb (ValidEnvKey k)) (sorted_keys m))) as Hin by (rewrite E; by left).
      apply List.filter_In in Hin as [Hin Hn]. rewrite (Hv eq_refl k) in Hn; [done|]. by apply Hks, list_elem_of_In.
  - split; [by exists m|done].
Qed.
Lemma list_nil t : list_faults t = [] <-> lists_ok t.
Proof. unfold list_faults, lists_ok, all_parse. rewrite !app_nil, !first_bad_nil. tauto. Qed.
(** ** The rules of a kind *)

Definition run_source (t : Tile) : Prop :=
  (t_GitURL t = "" /\ t_ImageRef t <> "" \/ t_GitURL t <> "" /\ t_ImageRef t = "" /\ re_match gitURL (t_GitURL t) = true) /\
  if String.eqb (t_Kind t) Cron then trim_space (t_Schedule t) <> "" /\ cron_ParseStandard (t_Schedule t) = true
  else t_Trigger t ∈ [""; Manual; OnDeploy].
Definition norm_run (t : Tile) : Tile :=
  set_run t (if String.eqb (t_Kind t) Cron then t_Trigger t else nz (t_Trigger t) Manual)
    (if t_TimeoutMinutes t =? 0 then DefaultTimeout else t_TimeoutMinutes t).

Lemma trigger_spec s : s ∈ [""; Manual; OnDeploy] <-> s = "" \/ s = Manual \/ s = OnDeploy.
Proof. rewrite !elem_of_cons, elem_of_nil. tauto. Qed.
Lemma checkRun_spec t : match checkRun cron_ParseStandard t with
  | (t1, None) => run_source t /\ t1 = norm_run t
  | (_, Some _) => ~ run_source t
  end.
Proof.
  unfold checkRun, run_source, norm_run. destruct (String.eqb_spec (t_GitURL t) "") as [Eg|Eg]; destruct (String.eqb_spec (t_ImageRef t) "") as [Ei|Ei]; cbn [negb andb].
  4: { intros [[[Hg _]|(_ & Hi & _)] _]; done. }
  1: { intros [[[_ Hi]|(Hg & _)] _]; done. }
  all: try (destruct (re_match gitURL (t_GitURL t)) eqn:Er; cbn [negb]; [|intros [[[Hg _]|(_ & _ & Hr)] _]; congruence]).
  all: cbn [set_run set_norm t_Kind t_Schedule t_Trigger t_TimeoutMinutes]; destruct (String.eqb_spec (t_Kind t) Cron) as [Ek|Ek].
  1, 3: destruct (String.eqb_spec (trim_space (t_Schedule t)) "") as [Es|Es]; cbn [negb]; [by intros [_ [Hs _]]|];
    destruct (cron_ParseStandard (t_Schedule t)) eqn:Ec; cbn [negb]; [split; [split; [tauto|done]|done]|intros [_ [_ Hc]]; congruence].
  all: pose proof (trigger_spec (t_Trigger t)) as Ht; unfold nz; destruct (String.eqb_spec (t_Trigger t) "") as [Et|Et]; cbn [negb andb];
    [cbn; split; [tauto|done]|].
  all: destruct (String.eqb_spec (t_Trigger t) Manual); destruct (String.eqb_spec (t_Trigger t) OnDeploy); cbn [negb andb]; try (split; [tauto|done]); tauto.
Qed.

Definition slice_source (t : Tile) : Prop :=
  (exists pf, t_ProvisionFrom t = Some pf /\ trim_space pf <> "" /\ is_ok (ParseTarget pf) = true) /\
  t_DefaultAccess t ∈ [None; Some Read; Some Write] /\ t_OnRemove t ∈ [None; Some Keep; Some Drop].
Definition norm_slice (t : Tile) : Tile := set_slice t (Some (default Write (t_DefaultAccess t))) (Some (default Keep (t_OnRemove t))).

Lemma one_of_spec a b d v : (d = a \/ d = b) -> one_of a b (Some (default d v)) = true <-> v ∈ [None; Some a; Some b].
Proof.
  intros Hd. rewrite !elem_of_cons, elem_of_nil. cbn. rewrite orb_true_iff, !String.eqb_eq. destruct v as [v|]; cbn; [|tauto].
  split; [intros [->| ->]; tauto|]. intros [|[[= ->]|[[= ->]|[]]]]; [done|tauto|tauto].
Qed.
Lemma checkSlice_spec t : match checkSlice t with
  | (t1, None) => slice_source t /\ t1 = norm_slice t
  | (_, Some _) => ~ slice_source t
  end.
Proof.
  unfold checkSlice, slice_source, norm_slice. destruct (t_ProvisionFrom t) as [pf|] eqn:Ep; [|by intros [(pf & [=] & _) _]].
  destruct (String.eqb_spec (trim_space pf) "") as [Es|Es]; [intros [(pf' & [= <-] & Hs & _) _]; done|].
  destruct (ParseTarget pf) as [a|e] eqn:Et; [|intros [(pf' & [= <-] & _ & Ht) _]; by rewrite Et in Ht].
  assert (exists pf0, Some pf = Some pf0 /\ trim_space pf0 <> "" /\ is_ok (ParseTarget pf0) = true) as Hpf by (exists pf; by rewrite Et).
  cbn [set_slice set_norm t_DefaultAccess t_OnRemove].
  pose proof (one_of_spec Read Write Write (t_DefaultAccess t) (or_intror eq_refl)) as Ha. pose proof (one_of_spec Keep Drop Keep (t_OnRemove t) (or_introl eq_refl)) as Hr.
  destruct (one_of Read Write _); cbn [negb]; [|intros [_ [H1 _]]; by apply Ha in H1].
  destruct (one_of Keep Drop _); cbn [negb]; [|intros [_ [_ H1]]; by apply Hr in H1]. by split; [split; [|split; [apply Ha|apply Hr]]|].
Qed.

Definition norm_kind (t : Tile) : Tile :=
  if RunToCompletion (t_Kind t) then norm_run t else if String.eqb (t_Kind t) Slice then norm_slice t else t.
Lemma kind_rules_spec t : match kind_rules cron_ParseStandard t with
  | (t1, []) => source_ok t /\ t1 = norm_kind t
  | (_, _ :: _) => ~ source_ok t
  end.
Proof.
  unfold kind_rules, source_ok, norm_kind. destruct (String.eqb_spec (t_Kind t) Service) as [->|_].
  { change (RunToCompletion Service) with false. change (String.eqb Service Slice) with false. destruct (String.eqb_spec (t_GitURL t) ""); [by intros []|].
    destruct (re_match gitURL (t_GitURL t)); cbn; [done|by intros []]. }
  destruct (String.eqb_spec (t_Kind t) Image) as [->|_].
  { change (RunToCompletion Image) with false. change (String.eqb Image Slice) with false. destruct (String.eqb_spec (t_ImageRef t) ""); cbn; [tauto|done]. }
  destruct (RunToCompletion (t_Kind t)); [pose proof (checkRun_spec t) as H1; by destruct (checkRun _ t) as [t1 [e|]]|].
  destruct (String.eqb (t_Kind t) Slice); [|done]. pose proof (checkSlice_spec t) as H1. by destruct (checkSlice t) as [t1 [e|]].
Qed.
Lemma norm_kind_eq t : norm_kind t = set_norm t (t_GitBranch t) (t_DockerfilePath t) (t_BuildContext t) (t_EnvJSON t) (t_BuildArgs t)
  (t_RestartPolicy t) (t_UpdatePolicy t) (if String.eqb (t_Kind t) Function_ then nz (t_Trigger t) Manual else t_Trigger t) (t_Replicas t)
  (if RunToCompletion (t_Kind t) && (t_TimeoutMinutes t =? 0) then DefaultTimeout else t_TimeoutMinutes t)
  (if String.eqb (t_Kind t) Slice then Some (default Write (t_DefaultAccess t)) else t_DefaultAccess t)
  (if String.eqb (t_Kind t) Slice then Some (default Keep (t_OnRemove t)) else t_OnRemove t).
Proof.
  unfold norm_kind, norm_run, norm_slice, RunToCompletion. destruct (String.eqb_spec (t_Kind t) Cron) as [Ek|_]; cbn [orb].
  { rewrite Ek. change (String.eqb Cron Function_) with false. change (String.eqb Cron Slice) with false. destruct t. cbn. by destruct (_ =? 0). }
  destruct (String.eqb_spec (t_Kind t) Function_) as [Ek|_].
  { rewrite Ek. change (String.eqb Function_ Slice) with false. destruct t. cbn. by destruct (_ =? 0). }
  destruct (String.eqb (t_Kind t) Slice); by destruct t.
Qed.

(** The rules that do not depend on the kind. *)
Definition plain_faults (t : Tile) : list error :=
  flat_map access_fault (t_SliceAccess t) ++
  bad_if (negb (String.eqb (t_ImageRef t) "") && negb (ValidRef (t_ImageRef t))) "image" "Not an image reference: use a name and tag, like nginx:1.27." [] ++
  bad_if (negb (ValidTagPolicy (t_TagPolicy t))) "tag_policy" "Use a version rule: ^1.2, ~1.2, 1.2 or *, with an optional semver in front." [] ++
  bad_if (negb (String.eqb (nz (t_UpdatePolicy t) "manual") "manual") && negb (String.eqb (nz (t_UpdatePolicy t) "manual") "auto")) "update_policy" "Pick manual or auto." [] ++
  bad_if (negb (canonRestart (t_RestartPolicy t)).2) "restart" "Pick always, on-failure or no." [] ++
  bad_if (negb (contains [""; "http"; "https"; "tcp"] (t_EndpointProtocol t))) "endpoint_protocol" "Use http, https or tcp." [] ++
  bad_if (str (t_HealthPath t) && negb (has_prefix (trim_space (t_HealthPath t)) "/")) "health_path" "Start the path with /, like /healthz." [] ++
  flat_map (fun n => bad_if (snd (fst n)) (fst (fst n)) "%s" [AStr (snd n)]) (numbers t) ++
  bad_if ((1 <? t_Replicas t) && str (t_Volumes t)) "replicas" "A tile with a volume runs one replica: two writers on one volume corrupt it." [] ++
  host_faults t.
Definition list_blob_faults (t : Tile) : list error :=
  check_blob "env" (blob (t_EnvJSON t)) ++ check_blob "build_args" (blob (t_BuildArgs t)) ++ list_faults t.

Lemma one_replica n : (1 <? (if n =? 0 then 1 else n)) = (1 <? n).
Proof. by destruct (Z.eqb_spec n 0) as [->|]. Qed.

(** The rules after the kind's, their faults and what they write. *)
Definition norm_other (t : Tile) : Tile :=
  set_norm t (if Builds t then nz (t_GitBranch t) "main" else t_GitBranch t)
    (if Builds t then nz (t_DockerfilePath t) "Dockerfile" else t_DockerfilePath t)
    (if Builds t then nz (t_BuildContext t) "." else t_BuildContext t)
    (blob (t_EnvJSON t)) (blob (t_BuildArgs t)) (canonRestart (t_RestartPolicy t)).1 (nz (t_UpdatePolicy t) "manual")
    (t_Trigger t) (if t_Replicas t =? 0 then 1 else t_Replicas t) (t_TimeoutMinutes t) (t_DefaultAccess t) (t_OnRemove t).
Lemma build_defaults_eq t : build_defaults t = set_build t (if Builds t then nz (t_GitBranch t) "main" else t_GitBranch t)
    (if Builds t then nz (t_DockerfilePath t) "Dockerfile" else t_DockerfilePath t) (if Builds t then nz (t_BuildContext t) "." else t_BuildContext t).
Proof. unfold build_defaults. destruct (Builds t); [done|]. by destruct t. Qed.
Lemma other_rules_eq t bad : exists t', other_rules t bad = (t', errors_join ((bad ++ plain_faults t) ++ some (errors_join (list_blob_faults t)))) /\
  ((canonRestart (t_RestartPolicy t)).2 = true -> t' = norm_other t).
Proof.
  unfold other_rules. rewrite build_defaults_eq. unfold plain_faults, list_blob_faults, norm_other.
  cbn [set_build set_policies set_norm t_SliceAccess t_ImageRef t_TagPolicy t_RestartPolicy t_UpdatePolicy].
  destruct (canonRestart (t_RestartPolicy t)) as [rp ok]. cbn [fst snd].
  unfold checkLists, numbers, host_faults, list_faults. destruct ok; eexists; (split; [|first [discriminate|intros _; reflexivity]]).
  all: cbn -[bad_if access_fault canonRestart contains str has_prefix trim_space check_blob nz blob checkMounts first_bad
    errors_join f64_neg String.eqb Z.ltb Z.eqb Z.leb Lines ValidRef ValidTagPolicy Builds].
  all: rewrite one_replica, <-!app_assoc; reflexivity.
Qed.
Lemma norm_other_kind t : norm_other (norm_kind t) = norm t.
Proof.
  rewrite norm_kind_eq. unfold norm_other, norm. cbn [set_norm t_GitBranch t_DockerfilePath t_BuildContext t_EnvJSON t_BuildArgs t_RestartPolicy
    t_UpdatePolicy t_Trigger t_Replicas t_TimeoutMinutes t_DefaultAccess t_OnRemove]. reflexivity.
Qed.
Lemma faults_kind t : plain_faults (norm_kind t) = plain_faults t /\ list_blob_faults (norm_kind t) = list_blob_faults t.
Proof.
  unfold norm_kind, norm_run, norm_slice. destruct (RunToCompletion (t_Kind t)) eqn:Er.
  - (* a timeout of zero is no fault, nor is thirty *)
    split; [|reflexivity]. unfold plain_faults, numbers, host_faults.
    cbn [set_run set_norm t_SliceAccess t_ImageRef t_TagPolicy t_UpdatePolicy t_RestartPolicy t_EndpointProtocol t_HealthPath t_CPULimit t_MemLimitMB t_ShmSizeMB
      t_HealthcheckIntervalS t_HealthcheckTimeoutS t_HealthcheckRetries t_HealthcheckStartPeriodS t_Replicas t_TimeoutMinutes t_ContainerPort t_Volumes
      t_HostNetwork t_PublishedPorts t_Lan].
    do 9 f_equal. cbn [flat_map fst snd]. destruct (Z.eqb_spec (t_TimeoutMinutes t) 0) as [->|]; reflexivity.
  - destruct (String.eqb (t_Kind t) Slice); split; reflexivity.
Qed.

Lemma plain_nil t : plain_faults t = [] <->
  Forall (fun a => Valid (sa_From a) = true /\ (sa_Access a = Read \/ sa_Access a = Write)) (t_SliceAccess t) /\
  (t_ImageRef t = "" \/ ValidRef (t_ImageRef t) = true) /\ ValidTagPolicy (t_TagPolicy t) = true /\ t_UpdatePolicy t ∈ [""; "manual"; "auto"] /\
  (canonRestart (t_RestartPolicy t)).2 = true /\ t_EndpointProtocol t ∈ [""; "http"; "https"; "tcp"] /\
  (str (t_HealthPath t) = true -> has_prefix (trim_space (t_HealthPath t)) "/" = true) /\ Forall (fun n => n.1.2 = false) (numbers t) /\
  (1 < t_Replicas t -> str (t_Volumes t) = false) /\
  (t_HostNetwork t = true -> t_Replicas t <= 1 /\ str (t_PublishedPorts t) = false /\ str (t_Lan t) = false).
Proof.
  unfold plain_faults. rewrite !app_nil, access_nil, !bad_if_nil. apply and_iff_compat_l.
  assert (negb (String.eqb (nz (t_UpdatePolicy t) "manual") "manual") && negb (String.eqb (nz (t_UpdatePolicy t) "manual") "auto") = false <->
    t_UpdatePolicy t ∈ [""; "manual"; "auto"]) as ->.
  { rewrite !elem_of_cons, elem_of_nil, andb_false_iff, !negb_false_iff, !String.eqb_eq. unfold nz. destruct (String.eqb_spec (t_UpdatePolicy t) ""); tauto. }
  assert (flat_map (fun n : string * bool * string => bad_if n.1.2 n.1.1 "%s" [AStr n.2]) (numbers t) = [] <-> Forall (fun n => n.1.2 = false) (numbers t)) as ->.
  { rewrite flat_map_nil. apply Forall_proper; [|done]. intros n. apply bad_if_nil. }
  assert (host_faults t = [] <-> (t_HostNetwork t = true -> t_Replicas t <= 1 /\ str (t_PublishedPorts t) = false /\ str (t_Lan t) = false)) as ->.
  { unfold host_faults. destruct (t_HostNetwork t); [|by split]. rewrite !app_nil, !bad_if_nil, Z.ltb_ge. tauto. }
  rewrite <-(contains_true [""; "http"; "https"; "tcp"] (t_EndpointProtocol t)), !andb_false_iff, !negb_false_iff, String.eqb_eq, Z.ltb_ge.
  assert (forall a b : bool, (a = false \/ b = true) <-> (a = true -> b = true)) as Hab by by intros [] []; split; auto; intros []; auto.
  rewrite Hab. assert (t_Replicas t <= 1 \/ str (t_Volumes t) = false <-> (1 < t_Replicas t -> str (t_Volumes t) = false)) as ->; [|tauto].
  split; [intros [|]; [lia|done]|]. intros Hx. destruct (Z.le_gt_cases (t_Replicas t) 1); [by left|right; apply Hx; lia].
Qed.

(** [Validate] is the rules: it accepts exactly the lawful rows, and writes
    their stored form. *)
Lemma Validate_cases t : match Validate t with
  | (t', None) => lawful t /\ t' = norm t
  | (_, Some _) => ~ lawful t
  end.
Proof.
  unfold TileCheck.Validate. destruct (assoc (t_Kind t) Carries) as [allowed|] eqn:Ea; [|intros [(al & Hal & _)]; by rewrite Ea in Hal].
  pose proof (kind_rules_spec t) as Hk. destruct (kind_rules _ t) as [t1 b]. destruct b as [|e b].
  - destruct Hk as [Hs ->]. destruct (other_rules_eq (norm_kind t) (not_carried t allowed ++ [])) as (t' & -> & Ht').
    destruct (faults_kind t) as [-> ->]. rewrite app_nil_r. rewrite norm_other_kind in Ht'.
    destruct (errors_join _) eqn:Ej.
    + intros Hl. assert (errors_join ((not_carried t allowed ++ plain_faults t) ++ some (errors_join (list_blob_faults t))) = None) as Hn; [|by rewrite Hn in Ej].
      apply join_with_None. destruct Hl as [(al & Hal & Hc) _ H1 H2 H3 H4 H5 H6 H7 H8 H9 H10 H11 H12 H13]. rewrite Ea in Hal. injection Hal as <-.
      rewrite app_nil, not_carried_nil, plain_nil. unfold list_blob_faults. rewrite !app_nil, !blob_nil, list_nil by auto. by split_and!.
    + apply join_with_None in Ej as [[Hc Hp]%app_nil Hb]. apply plain_nil in Hp as (H1 & H2 & H3 & H4 & H5 & H6 & H7 & H8 & H9 & H10).
      unfold list_blob_faults in Hb. rewrite !app_nil, !blob_nil, list_nil in Hb by auto. destruct Hb as (H11 & H12 & H13).
      pose proof (proj1 (not_carried_nil t allowed) Hc) as Hc'. split; [|rewrite Ht'; [done|]].
      * constructor; try done. by exists allowed.
      * rewrite norm_kind_eq. exact H5.
  - destruct (other_rules_eq t1 (not_carried t allowed ++ e :: b)) as (t' & -> & _). destruct (errors_join _) eqn:Ej; [by intros []|].
    apply join_with_None in Ej as [[[_ Hb]%app_nil _]%app_nil _]. done.
Qed.
(** ** The stored form is stable *)

Lemma blob_blob v : blob (blob v) = blob v.
Proof. unfold blob. destruct (String.eqb_spec (trim_space v) "") as [|Hn]; [done|]. by rewrite (proj2 (String.eqb_neq _ _) Hn). Qed.
Lemma obj_blob v : obj (blob v) = obj v.
Proof.
  unfold blob. destruct (String.eqb_spec (trim_space v) "") as [Hb|]; [|done]. unfold obj. rewrite Hb. reflexivity.
Qed.
Lemma canonRestart_canon v : canonRestart (canonRestart v).1 = ((canonRestart v).1, (canonRestart v).2).
Proof.
  unfold canonRestart. destruct (contains [""; "always"; "unless-stopped"] v) eqn:E1; [done|]. destruct (contains ["on-failure"; "no"] v) eqn:E2; cbn [fst]; by rewrite E1, E2.
Qed.
Lemma norm_norm t : norm (norm t) = norm t.
Proof.
  set (u := norm t). unfold norm. change (Builds u) with (Builds t). change (t_Kind u) with (t_Kind t). unfold u, norm.
  cbn [set_norm t_GitBranch t_DockerfilePath t_BuildContext t_EnvJSON t_BuildArgs t_RestartPolicy t_UpdatePolicy t_Trigger t_Replicas t_TimeoutMinutes t_DefaultAccess t_OnRemove].
  rewrite !blob_blob, canonRestart_canon, (nz_id _ "manual") by done. unfold set_norm.
  destruct (Builds t); rewrite ?nz_id by done.
  all: destruct (String.eqb (t_Kind t) Function_); rewrite ?nz_id by done.
  all: destruct (String.eqb (t_Kind t) Slice); cbn [default from_option id].
  all: destruct (RunToCompletion (t_Kind t)); cbn [andb].
  all: destruct (Z.eqb_spec (t_Replicas t) 0) as [|Hn]; [|try rewrite (proj2 (Z.eqb_neq _ _) Hn)]; try reflexivity.
  all: destruct (Z.eqb_spec (t_TimeoutMinutes t) 0) as [|Hm]; [|try rewrite (proj2 (Z.eqb_neq _ _) Hm)]; reflexivity.
Qed.

(** What the stored form adds, its kind carries. *)
Lemma kind_carries k allowed : assoc k Carries = Some allowed ->
  (String.eqb k Service || RunToCompletion k = true -> Forall (fun x => x ∈ allowed) ["branch"; "dockerfile"; "build_context"]) /\
  (String.eqb k Function_ = true -> "trigger" ∈ allowed) /\ (RunToCompletion k = true -> "timeout_minutes" ∈ allowed) /\
  (String.eqb k Slice = true -> "default_access" ∈ allowed /\ "on_remove" ∈ allowed).
Proof.
  unfold assoc, Carries. cbn [List.find fst]. unfold RunToCompletion.
  destruct (String.eqb_spec Service k) as [<-|_]; [intros [= <-]; split_and!; try done; intros _; by apply (bool_decide_eq_true_1 _)|].
  destruct (String.eqb_spec Image k) as [<-|_]; [done|]. destruct (String.eqb_spec Managed k) as [<-|_]; [done|].
  destruct (String.eqb_spec Cron k) as [<-|_]; [intros [= <-]; split_and!; try done; intros _; by apply (bool_decide_eq_true_1 _)|].
  destruct (String.eqb_spec Function_ k) as [<-|_]; [intros [= <-]; split_and!; try done; intros _; by apply (bool_decide_eq_true_1 _)|].
  destruct (String.eqb_spec Slice k) as [<-|_]; [intros [= <-]; split_and!; try done; intros _; split; by apply (bool_decide_eq_true_1 _)|done].
Qed.

Lemma norm_carries t allowed f : assoc (t_Kind t) Carries = Some allowed -> f ∈ fields -> f.2 (norm t) = true -> f.2 t = true \/ f.1 ∈ allowed.
Proof.
  intros Ha Hf. destruct (kind_carries _ _ Ha) as (Hb & Ht & Hr & Hs). unfold norm.
  assert (Builds t = true -> Forall (fun x => x ∈ allowed) ["branch"; "dockerfile"; "build_context"]) as Hb'.
  { unfold Builds. intros [H1|[H1 _]%andb_true_iff]%orb_true_iff; apply Hb; rewrite H1; [done|apply orb_true_r]. }
  unfold fields in Hf.
  repeat (apply (proj1 (elem_of_cons _ _ _)) in Hf as [->|Hf]; [cbn [fst snd set_norm t_GitURL t_GitBranch t_ImageRef t_DockerfilePath t_BuildContext t_WatchPaths t_EnvJSON t_BuildArgs
    t_Volumes t_Command t_ContainerPort t_PublishedPorts t_EndpointProtocol t_HealthPath t_HealthcheckCmd t_HealthcheckIntervalS t_HealthcheckTimeoutS t_HealthcheckRetries
    t_HealthcheckStartPeriodS t_CPULimit t_MemLimitMB t_User t_ShmSizeMB t_Privileged t_Devices t_Lan t_HostNetwork t_DependsOn t_Files t_SharedNet t_Replicas t_UpdatePolicy t_TagPolicy
    t_Schedule t_Trigger t_Paused t_TimeoutMinutes t_ProvisionFrom t_DefaultAccess t_OnRemove t_SliceAccess]; first [by left|idtac]|]).
  all: rewrite ?obj_blob; try by left.
  1-3: destruct (Builds t); [|by left]; specialize (Hb' eq_refl); rewrite !Forall_cons in Hb'; intros _; right; tauto.
  - unfold nz. destruct (String.eqb_spec (t_UpdatePolicy t) ""); [done|by left].
  - rewrite one_replica. by left.
  - destruct (String.eqb (t_Kind t) Function_); [intros _; right; by apply Ht|by left].
  - destruct (RunToCompletion (t_Kind t)); [intros _; right; by apply Hr|by left].
  - destruct (String.eqb (t_Kind t) Slice); [intros _; right; by apply Hs|by left].
  - destruct (String.eqb (t_Kind t) Slice); [intros _; right; by apply Hs|by left].
  - by apply not_elem_of_nil in Hf.
Qed.

Lemma source_norm t : source_ok t -> source_ok (norm t).
Proof.
  unfold source_ok. change (t_Kind (norm t)) with (t_Kind t). change (t_GitURL (norm t)) with (t_GitURL t). change (t_ImageRef (norm t)) with (t_ImageRef t).
  change (t_Schedule (norm t)) with (t_Schedule t). change (t_ProvisionFrom (norm t)) with (t_ProvisionFrom t).
  destruct (String.eqb (t_Kind t) Service); [done|]. destruct (String.eqb (t_Kind t) Image); [done|]. destruct (RunToCompletion (t_Kind t)) eqn:Er.
  - intros [H1 H2]. split; [done|]. destruct (String.eqb_spec (t_Kind t) Cron) as [Ec|Hc]; [done|]. unfold norm. cbn [set_norm t_Trigger].
    destruct (String.eqb (t_Kind t) Function_); [|done]. apply trigger_spec. apply trigger_spec in H2. unfold nz. destruct (String.eqb_spec (t_Trigger t) ""); tauto.
  - destruct (String.eqb (t_Kind t) Slice) eqn:Es; [|done]. intros (H1 & H2 & H3). split; [done|]. unfold norm. rewrite Es. cbn [set_norm t_DefaultAccess t_OnRemove].
    split; [rewrite <-(one_of_spec Read Write Write) in H2 by auto|rewrite <-(one_of_spec Keep Drop Keep) in H3 by auto].
    + rewrite <-(one_of_spec Read Write Write) by auto. by destruct (t_DefaultAccess t).
    + rewrite <-(one_of_spec Keep Drop Keep) by auto. by destruct (t_OnRemove t).
Qed.

Lemma numbers_norm t : Forall (fun n => n.1.2 = false) (numbers t) -> Forall (fun n => n.1.2 = false) (numbers (norm t)).
Proof.
  unfold numbers, norm. cbn [set_norm t_CPULimit t_MemLimitMB t_ShmSizeMB t_HealthcheckIntervalS t_HealthcheckTimeoutS t_HealthcheckRetries
    t_HealthcheckStartPeriodS t_Replicas t_TimeoutMinutes t_ContainerPort]. rewrite !Forall_cons. cbn [fst snd].
  intros (H1 & H2 & H3 & H4 & H5 & H6 & H7 & H8 & H9 & H10 & H11). split_and!; try done.
  - by destruct (t_Replicas t =? 0).
  - by destruct (RunToCompletion (t_Kind t) && (t_TimeoutMinutes t =? 0)).
Qed.

Lemma lawful_norm t : lawful t -> lawful (norm t).
Proof.
  intros [(al & Ha & Hc) Hs H1 H2 H3 H4 H5 H6 H7 H8 H9 H10 H11 H12 H13]. constructor; try done.
  - exists al. split; [done|]. intros f Hf Hn. destruct (norm_carries t al f Ha Hf Hn); [by apply Hc|done].
  - by apply source_norm.
  - unfold norm. cbn [set_norm t_UpdatePolicy]. rewrite !elem_of_cons in H4 |- *. unfold nz. destruct (String.eqb_spec (t_UpdatePolicy t) ""); tauto.
  - unfold norm. cbn [set_norm t_RestartPolicy]. by rewrite canonRestart_canon.
  - by apply numbers_norm.
  - unfold norm. cbn [set_norm t_Replicas t_Volumes]. intros Hr. apply H9. apply Z.ltb_lt. rewrite <-one_replica. by apply Z.ltb_lt.
  - unfold norm. cbn [set_norm t_Replicas t_HostNetwork t_PublishedPorts t_Lan]. intros Hh. destruct (H10 Hh) as (H14 & H15 & H16). split_and!; [|done|done].
    destruct (t_Replicas t =? 0); lia.
  - unfold blob_ok, norm in *. cbn [set_norm t_EnvJSON]. by rewrite blob_blob.
  - unfold blob_ok, norm in *. cbn [set_norm t_BuildArgs]. by rewrite blob_blob.
Qed.

Lemma Validate_lawful t : lawful t -> Validate t = (norm t, None).
Proof. intros Hl. pose proof (Validate_cases t) as H1. destruct (Validate t) as [t' [e|]]; [done|]. by destruct H1 as [_ ->]. Qed.
Lemma Validate_accepts t t' : Validate t = (t', None) -> lawful t' /\ norm t' = t'.
Proof.
  intros E. pose proof (Validate_cases t) as H1. rewrite E in H1. destruct H1 as [Hl ->]. split; [by apply lawful_norm|apply norm_norm].
Qed.
End Valid.

(** C12. The gate of a tile's row is its rules.  [Validate] accepts a row
    exactly when it is lawful (its kind carries every field it sets, its
    source fits the kind, and every list, number, word and blob reads), and
    what it then stores is the row's normal form; that row passes again and is
    stored as itself, so a default that was filled in never reads as an edit. *)
Theorem Validate_spec `{Versions} cron t : ((Validate cron t).2 = None <-> lawful cron t) /\
  (lawful cron t -> Validate cron t = (norm t, None) /\ lawful cron (norm t) /\ Validate cron (norm t) = (norm t, None)).
Proof.
  split.
  - pose proof (Validate_cases cron t) as H1. split; [|by intros Hl; rewrite Validate_lawful]. destruct (Validate cron t) as [t' [e|]]; [done|]. by destruct H1.
  - intros Hl. pose proof (lawful_norm cron t Hl) as Hn. split_and!; [by apply Validate_lawful|done|]. rewrite <-(norm_norm t) at 2. by apply Validate_lawful.
Qed.

(** An image tile, as an edit of [t] sends it. *)
Definition ex_image (t : Tile) (ref : string) : Tile := {|
   t_ID := t_ID t; t_StackID := "s1"; t_EnvironmentID := "e1"; t_Name := t_Name t; t_Slug := t_Slug t; t_Kind := Image; t_GitURL := "";
   t_GitBranch := ""; t_ImageRef := ref; t_DockerfilePath := ""; t_BuildContext := ""; t_WatchPaths := ""; t_EnvJSON := "";
   t_BuildArgs := ""; t_Volumes := ""; t_Command := ""; t_ContainerPort := 80; t_PublishedPorts := "8080:80"; t_EndpointProtocol := "";
   t_HealthPath := "/"; t_HealthcheckCmd := ""; t_HealthcheckIntervalS := 0; t_HealthcheckTimeoutS := 0; t_HealthcheckRetries := 0;
   t_HealthcheckStartPeriodS := 0; t_CPULimit := 0; t_MemLimitMB := 0; t_User := ""; t_ShmSizeMB := 0; t_Privileged := false; t_Devices := "/dev/kvm";
   t_Lan := ""; t_HostNetwork := false; t_RestartPolicy := "unless-stopped"; t_DependsOn := ""; t_Files := ""; t_SharedNet := ""; t_Replicas := 0;
   t_UpdatePolicy := ""; t_TagPolicy := ""; t_Schedule := ""; t_Trigger := ""; t_Paused := false; t_TimeoutMinutes := 0; t_ProvisionFrom := None;
   t_DefaultAccess := None; t_OnRemove := None; t_SliceAccess := []; t_CreatedAt := t_CreatedAt t; t_UpdatedAt := t_UpdatedAt t |}.
#[local] Existing Instance any_versions.
Lemma Validate_spec_witness : ~ lawful (fun _ => true) (ex_image zero_tile "a@b") /\
  lawful (fun _ => true) (norm (ex_image zero_tile "nginx")) /\
  Validate (fun _ => true) (norm (ex_image zero_tile "nginx")) = (norm (ex_image zero_tile "nginx"), None).
Proof.
  split; [|refine (proj2 (proj2 (Validate_spec (fun _ => true) (ex_image zero_tile "nginx")) _))].
  - intros Hl. apply (proj2 (proj1 (Validate_spec (fun _ => true) (ex_image zero_tile "a@b")))) in Hl. vm_compute in Hl. discriminate Hl.
  - apply (proj1 (proj1 (Validate_spec (fun _ => true) (ex_image zero_tile "nginx")))). vm_compute. reflexivity.
Defined.
