(* ===== verification/TileDiff.v ===== *)
(** * What an edit of a tile earns ([service/internal/leaf/tile/diff.go]) *)
From S2P Require Import Prelude GoStrings Errs TileRow TileLines TileCheck.

(** [Changed]: the set of keys a write moved. *)
Abbreviation Changed := (gset string).

Definition Any (c : Changed) : bool := bool_decide (c <> ∅).
Definition ProxyOnly (c : Changed) : bool := forallb (fun f => has_prefix f "domain ") (elements c).
Definition moved (c : Changed) (key : string) : bool := bool_decide (key ∈ c).
Definition NeedsBuild (c : Changed) : bool :=
  existsb (moved c) ["source"; "image"; "git_url"; "branch"; "build_context"; "dockerfile"; "build_args"].
Definition NeedsCronReload (c : Changed) : bool := moved c "schedule" || moved c "paused" || moved c "source".

Definition watcherOnly : list string := ["watch_paths"; "update_policy"; "tag_policy"].

Inductive Effect := Route | Redeploy | CronReload.

Definition Effects (kind : string) (c : Changed) : list Effect :=
  if String.eqb kind Slice then []
  else
    let out := if String.eqb kind Cron && NeedsCronReload c then [CronReload] else [] in
    if RunToCompletion kind then out ++ (if NeedsBuild c || moved c "slice_access" then [Redeploy] else [])
    else
      let rest : Changed := c ∖ list_to_set watcherOnly in
      if negb (Any rest) then out
      else if String.eqb kind Managed then out ++ [Redeploy]
      else if ProxyOnly rest then out ++ [Route]
      else out ++ [Route; Redeploy].

Definition deref (s : option string) : string := default "" s.
Definition canonPolicy (v : string) : string := if String.eqb v "" then "manual" else v.

(** [Diff], one key after another; [same] is what [mark] is given. *)
Definition marks (old cur : Tile) : list (string * bool) :=
  let s (f : Tile -> string) := String.eqb (f old) (f cur) in
  let z (f : Tile -> Z) := f old =? f cur in
  let b (f : Tile -> bool) := Bool.eqb (f old) (f cur) in [
  ("source", s t_Kind); ("image", s t_ImageRef); ("git_url", s t_GitURL); ("branch", s t_GitBranch); ("dockerfile", s t_DockerfilePath);
  ("build_context", s t_BuildContext); ("build_args", s t_BuildArgs); ("watch_paths", s t_WatchPaths);
  ("update_policy", s (fun t => canonPolicy (t_UpdatePolicy t))); ("tag_policy", s t_TagPolicy); ("env", s t_EnvJSON); ("volumes", s t_Volumes);
  ("command", s t_Command); ("port", z t_ContainerPort); ("published_ports", s t_PublishedPorts); ("endpoint_protocol", s t_EndpointProtocol);
  ("health_path", s t_HealthPath);
  ("healthcheck", s t_HealthcheckCmd && z t_HealthcheckIntervalS && z t_HealthcheckTimeoutS && z t_HealthcheckRetries && z t_HealthcheckStartPeriodS);
  ("limits", f64_eq (t_CPULimit old) (t_CPULimit cur) && z t_MemLimitMB); ("user", s t_User); ("shm_size_mb", z t_ShmSizeMB);
  ("privileged", b t_Privileged); ("devices", s t_Devices); ("lan", s t_Lan); ("host_network", b t_HostNetwork);
  ("restart", s (fun t => (canonRestart (t_RestartPolicy t)).1)); ("depends_on", s t_DependsOn); ("files", s t_Files); ("shared_net", s t_SharedNet);
  ("replicas", z t_Replicas); ("schedule", s t_Schedule); ("trigger", s t_Trigger); ("paused", b t_Paused); ("timeout_minutes", z t_TimeoutMinutes);
  ("provision_from", s (fun t => deref (t_ProvisionFrom t))); ("default_access", s (fun t => deref (t_DefaultAccess t)));
  ("on_remove", s (fun t => deref (t_OnRemove t))); ("slice_access", bool_decide (t_SliceAccess old = t_SliceAccess cur))].
Definition Diff (old cur : Tile) : Changed :=
  fold_left (fun (c : Changed) (m : string * bool) => if m.2 then c else c ∪ {[m.1]}) (marks old cur) ∅.
