(* ===== verification/TileLeaf.v ===== *)
(** * The tile leaf on its rows ([service/internal/leaf/tile/tile.go])

    Create, update, rename and delete over the table's interface. *)
From S2P Require Import Prelude GoStrings Errs Slug Store Registry TileRow TileLines TileCheck TileDiff.

(** The table [tiles]: a slug is unique in its environment, and an update
    writes every column. *)
#[export] Instance tile_row : SlugRow Tile := {
  rid := t_ID; rparent := t_EnvironmentID; rslug := t_Slug; keep := fun _ n => n;
  keep_id _ _ := eq_refl; keep_parent _ _ := eq_refl; keep_slug _ _ := eq_refl }.

Section Leaf.
Context {St : Type} `{!SlugTable St Tile} `{Versions} (cron_ParseStandard : string -> bool).
#[local] Abbreviation Validate := (Validate cron_ParseStandard).

(** [checkSlug]: derivable, not reserved, free in this environment. *)
Definition checkSlug (st : St) (t : Tile) : option error :=
  if String.eqb (t_Slug t) "" then Some (Invalidf "name" "Give it a name with at least one letter or digit." [])
  else if negb (Valid (t_Slug t)) then Some (Invalidf "name" "Use lower-case letters, digits and single hyphens in the name." [])
  else if Reserved (t_Slug t) then Some (Invalidf "name" "%s is reserved for variable references. Pick another name." [AStr (t_Slug t)])
  else match by_slug st (t_EnvironmentID t) (t_Slug t) with
  | Ok holder => if String.eqb (t_ID holder) (t_ID t) then None
                 else Some (Invalidf "name" "Another tile in this environment is already called %s." [AStr (t_Name holder)])
  | Err e => if is_not_found e then None else Some e
  end.

Definition with_name (t : Tile) (name slug : string) : Tile :=
  set_keys t (t_ID t) (t_StackID t) (t_EnvironmentID t) name slug (t_CreatedAt t) (t_UpdatedAt t).

(** [Create]; [id] is the [uuid.NewString()] it draws and [now] the clock. *)
Definition Create (id : string) (now : Z) (t : Tile) (st : St) : res (St * Tile) :=
  let t := with_name t (trim_space (t_Name t)) (t_Slug t) in
  if String.eqb (t_Name t) "" then Err (Invalidf "name" "a tile needs a name" [])
  else
    let t := with_name t (t_Name t) (if String.eqb (t_Slug t) "" then Make (t_Name t) else t_Slug t) in
    match checkSlug st t with
    | Some e => Err e
    | None =>
        let t := set_keys t id (t_StackID t) (t_EnvironmentID t) (t_Name t) (t_Slug t) now now in
        match Validate t with
        | (_, Some e) => Err e
        | (t, None) => match create t st with Ok st => Ok (st, t) | Err e => Err e end
        end
    end.

(** [Update]: the whole edited row, identity from [old]. *)
Definition Update (now : Z) (old cur : Tile) (extra : list string) (st : St) : res (St * Tile * list Effect) :=
  let cur := set_keys cur (t_ID old) (t_StackID old) (t_EnvironmentID old) (trim_space (t_Name cur)) (t_Slug old) (t_CreatedAt old) (t_UpdatedAt cur) in
  if String.eqb (t_Name cur) "" then Err (Invalidf "name" "a tile needs a name" [])
  else match Validate cur with
  | (_, Some e) => Err e
  | (cur, None) =>
      let c := Diff old cur ∪ list_to_set extra in
      if negb (Any c) && String.eqb (t_Name cur) (t_Name old) then Ok (st, old, [])
      else
        let cur := set_keys cur (t_ID cur) (t_StackID cur) (t_EnvironmentID cur) (t_Name cur) (t_Slug cur) (t_CreatedAt cur) now in
        match update cur st with Ok st => Ok (st, cur, Effects (t_Kind cur) c) | Err e => Err e end
  end.

(** [Rename] moves name and slug together. *)
Definition Rename (now : Z) (t : Tile) (name : string) (st : St) : res (St * Tile) :=
  let t := with_name t (trim_space name) (Make (trim_space name)) in
  match checkSlug st t with
  | Some e => Err e
  | None =>
      let t := set_keys t (t_ID t) (t_StackID t) (t_EnvironmentID t) (t_Name t) (t_Slug t) (t_CreatedAt t) now in
      match update t st with Ok st => Ok (st, t) | Err e => Err e end
  end.

Definition Delete (id : string) (st : St) : res St := delete_row id st.
End Leaf.
