(* ===== verification/Facts.v ===== *)
(** * What a tile's values may read ([flow/deploy/facts.go], [leaf/managed])

    The blocks an env reads, and the tiles of its env as its resolver sees
    them, over the tables: tiers, envs, tiles, params, slices and domains. *)
From S2P Require Import Prelude GoStrings Errs Regexp Slug Store Rows Refs ParamRows Tier Environment GoJson TileRow TileCheck TileLeaf.

(** ** The rows *)

Record Stack := MkStack {
  st_ID : string; st_OrgID : string; st_Name : string; st_Slug : string; st_Description : string; st_Settings : string;
  st_ConfigConnectorID : string; st_ConfigRepo : string; st_ConfigBranch : string; st_ConfigPath : string; st_CreatedAt : Z;
  st_PlacementID : option string }.
Record CustomRecord := MkCustomRecord { cr_ID : string; cr_Name : string; cr_Type : string; cr_Value : string }.
Record DomainRow := MkDomainRow {
  dm_ID : string; dm_TileID : string; dm_Host : string; dm_Path : string; dm_ContainerPort : Z; dm_HTTPS : bool; dm_ForceHTTPS : bool;
  dm_RedirectTo : string; dm_Auto : bool; dm_ResourceID : option string; dm_Position : Z; dm_ProxyJSON : string; dm_RawCaddy : string;
  dm_CreatedAt : Z; dm_Records : list CustomRecord }.
Record Provision := MkProvision {
  pv_ID : string; pv_TileID : string; pv_InstanceID : string; pv_DBName : string; pv_DBUser : string; pv_DBPassword : string;
  pv_Public : bool; pv_CreatedAt : Z }.
Record Binding := MkBinding {
  bd_ID : string; bd_ProvisionID : string; bd_ConsumerTileID : string; bd_Access : string; bd_DBUser : string; bd_DBPassword : string;
  bd_Outputs : string; bd_CreatedAt : Z }.
#[export] Instance provision_id : HasId Provision := pv_ID.

(** ** Param blocks *)

Section Blocks.
Context {StT : Type} `{!SlugTable StT Tier} {StE : Type} `{!SlugTable StE Environment}.
Context (tt : StT) (te : StE) (ps : list Param).

(** The scopes env [e] reads by plain refs, and its tier. *)
Definition ownScopes (e : Environment) (st : Stack) (tiers : list Tier) : Scope * option Scope * string :=
  let env := MkScope "env" (Environment.ID e) in
  if String.eqb (Type' e) Ephemeral then (env, Some (MkScope "org_pr" (st_OrgID st)), "")
  else match tiers with
  | [] => (env, Some (MkScope "org" (st_OrgID st)), "")
  | _ => match find_first (fun t => String.eqb (Tier.Slug t) (Environment.Slug e)) tiers with
         | Some t => (env, Some (MkScope "tier" (Tier.ID t)), Tier.Slug t)
         | None => (env, None, "")
         end
  end.

(** A source no ref reads, and the snapshot with its blocks only. *)
Definition no_source : Source := MkSource ∅ false false false "" "".
Definition ownParams (e : Environment) (st : Stack) (tiers : list Tier) (secrets : bool) : Snapshot :=
  let '(env, org, tier) := ownScopes e st tiers in
  MkSnapshot (Environment.Slug e) (Values ps env secrets)
    (match org with Some sc => Values ps sc secrets | None => ∅ end) tier ∅ ∅ ∅ ∅ no_source ∅.

(** The closure [block]: a locked block carries no values. *)
Definition block (secrets : bool) (other : gmap string Block) (b : string * bool * Scope) : gmap string Block :=
  <[b.1.1 := MkBlock b.1.2 (if b.1.2 then ∅ else Values ps b.2 secrets)]> other.
Definition env_lock (tiers : list Tier) (x : Environment) : bool :=
  match find_first (fun t => String.eqb (Tier.Slug t) (Environment.Slug x)) (rev tiers) with
  | Some t => Tier.Locked t
  | None => Environment.Locked x
  end.
Definition blocks (st : Stack) : list (string * bool * Scope) :=
  let tiers := ListByOrg tt (st_OrgID st) in
  [("stack:pr", false, MkScope "stack_pr" (st_ID st)); ("org:pr", false, MkScope "org_pr" (st_OrgID st))] ++
  map (fun t => ("org:" +:+ Tier.Slug t, Tier.Locked t, MkScope "tier" (Tier.ID t))) tiers ++
  map (fun x => ("stack:" +:+ Environment.Slug x, env_lock tiers x, MkScope "env" (Environment.ID x)))
    (List.filter (fun x => negb (String.eqb (Type' x) Ephemeral)) (List' te (st_ID st))).
Definition with_Other (s : Snapshot) (o : gmap string Block) : Snapshot :=
  MkSnapshot (s_Env s) (EnvParams s) (OrgParams s) (Refs.Tier s) o (ServerParams s) (Stackr s) (Backups s) (Self s) (Tiles s).
Definition ParamSnapshot (e : Environment) (st : Stack) (secrets : bool) : Snapshot :=
  with_Other (ownParams e st (ListByOrg tt (st_OrgID st)) secrets) (fold_left (block secrets) (blocks st) ∅).
End Blocks.

(** ** The tiles of the env *)

Section Snapshot.
Context {StT : Type} `{!SlugTable StT Tier} {StE : Type} `{!SlugTable StE Environment} {StL : Type} `{!SlugTable StL Tile}.
Context (tt : StT) (te : StE) (tl : StL) (ps : list Param) (pvs : list Provision) (bds : list Binding) (dms : list DomainRow).
(** [Domains.ProxyOn], which reads the proxy's address off the daemon, and
    the [LinkHost] callback. *)
Context (ProxyOn : string -> res (string * string)) (LinkHost : option (Environment -> string -> res string)).

(** [Managed.Bound]: the consumer's bindings by slice tile. *)
Fixpoint bound_by (bs : list Binding) (out : gmap string Binding) : res (gmap string Binding) :=
  match bs with
  | [] => Ok out
  | b :: bs => p <-? r_get pvs (bd_ProvisionID b) ;; bound_by bs (<[pv_TileID p := b]> out)
  end.
Definition Bound (consumer : string) : res (gmap string Binding) := bound_by (List.filter (fun b => String.eqb (bd_ConsumerTileID b) consumer) bds) ∅.
Definition binding_outputs (b : Binding) : res (gmap string string) :=
  if String.eqb (bd_Outputs b) "" then Ok ∅
  else match unmarshal_strings (bd_Outputs b) with Some m => Ok m | None => Err (New "json: cannot unmarshal") end.
Definition ManagedNetwork (instanceID : string) : string := "stackr-managed-" +:+ instanceID.

Definition sliceSource (bound : gmap string Binding) (x : Tile) (e : Environment) : res Source :=
  match bound !! t_ID x with
  | None => Ok (MkSource ∅ true false false "" "")
  | Some b =>
      out <-? binding_outputs b ;;
      p <-? r_get pvs (bd_ProvisionID b) ;;
      host <-? match LinkHost with Some f => f e (pv_InstanceID p) | None => Ok "" end ;;
      Ok (MkSource out true false true (if String.eqb host "" then ManagedNetwork (pv_InstanceID p) else "") host)
  end.

Definition tile_domains (id : string) : list DomainRow := List.filter (fun d => String.eqb (dm_TileID d) id) dms.
Definition endpoint (x : Tile) : Source :=
  MkSource (outputs (MkEndpoint (t_Slug x) (t_ContainerPort x) (t_EndpointProtocol x)
    (map (fun d => MkDomain (dm_Host d) (dm_HTTPS d) (negb (String.eqb (dm_RedirectTo d) ""))) (tile_domains (t_ID x))))) false false false "" "".

Definition with_Tiles (s : Snapshot) (self : Source) (m : gmap string Source) : Snapshot :=
  MkSnapshot (s_Env s) (EnvParams s) (OrgParams s) (Refs.Tier s) (Other s) (ServerParams s) (Stackr s) (Backups s) self m.
Definition with_Stackr (s : Snapshot) (m : gmap string string) : Snapshot :=
  MkSnapshot (s_Env s) (EnvParams s) (OrgParams s) (Refs.Tier s) (Other s) (ServerParams s) m (Backups s) (Self s) (Tiles s).

(** The loop over the env's tiles. *)
Fixpoint see_tiles (bound : gmap string Binding) (t : Tile) (e : Environment) (xs : list Tile) (s : Snapshot) : res Snapshot :=
  match xs with
  | [] => Ok s
  | x :: xs =>
      if String.eqb (t_Kind x) TileCheck.Managed then
        see_tiles bound t e xs (with_Tiles s (Self s) (<[t_Slug x := MkSource ∅ false true false "" ""]> (Tiles s)))
      else if String.eqb (t_Kind x) TileCheck.Slice then
        src <-? sliceSource bound x e ;; see_tiles bound t e xs (with_Tiles s (Self s) (<[t_Slug x := src]> (Tiles s)))
      else
        see_tiles bound t e xs (with_Tiles s (if String.eqb (t_ID x) (t_ID t) then endpoint x else Self s) (<[t_Slug x := endpoint x]> (Tiles s)))
  end.
Definition snapshot (t : Tile) (e : Environment) (st : Stack) : res Snapshot :=
  let s := ParamSnapshot tt te ps e st true in
  ip <-? ProxyOn (t_ID t) ;;
  let s := if String.eqb ip.1 "" then s else with_Stackr s {[ProxyIP := ip.1; ProxyCIDR := ip.2]} in
  bound <-? Bound (t_ID t) ;;
  see_tiles bound t e (list_by tl (Environment.ID e)) (with_Tiles s (Self s) ∅).
End Snapshot.

(** ** What is hidden *)

Section Hidden.
Context {StT : Type} `{!SlugTable StT Tier} {StE : Type} `{!SlugTable StE Environment} (tt : StT) (te : StE).

(** Every scope a snapshot of [e] takes a value from. *)
Definition readable (e : Environment) (st : Stack) : list Scope :=
  let '(env, org, _) := ownScopes e st (ListByOrg tt (st_OrgID st)) in
  env :: option_list org ++ map snd (List.filter (fun b => negb b.1.2) (blocks tt te st)).

(** Two tables that agree on what is not [sc]'s. *)
Definition same_but (sc : Scope) (ps ps' : list Param) : Prop := forall s, s <> sc -> ListByScope ps s = ListByScope ps' s.
Lemma ListByKind_scope ps s k : ListByKind ps s k = List.filter (of_kind k) (ListByScope ps s).
Proof.
  unfold ListByKind, ListByScope. induction ps as [|p ps IH]; [done|]. cbn [List.filter]. destruct (in_scope s p); cbn [andb List.filter]; by rewrite IH.
Qed.
Lemma Values_same sc ps ps' s secrets : same_but sc ps ps' -> s <> sc -> Values ps s secrets = Values ps' s secrets.
Proof. intros H Hs. unfold Values, List_. rewrite !ListByKind_scope, (H s Hs). done. Qed.

Lemma blocks_same sc ps ps' secrets bs m : same_but sc ps ps' -> sc ∉ map snd (List.filter (fun b => negb b.1.2) bs) ->
  fold_left (block ps secrets) bs m = fold_left (block ps' secrets) bs m.
Proof.
  intros H. revert m. induction bs as [|[[k l] s] bs IH]; intros m Hn; [done|]. cbn [fold_left List.filter fst snd] in *.
  destruct l; cbn [negb map snd] in Hn; [by apply IH|]. apply not_elem_of_cons in Hn as [Hne Hn].
  unfold block at 2 4. cbn [fst snd]. rewrite (Values_same sc ps ps' s secrets H) by congruence. by apply IH.
Qed.
Lemma ParamSnapshot_same sc ps ps' e st secrets : same_but sc ps ps' -> sc ∉ readable e st -> ParamSnapshot tt te ps e st secrets = ParamSnapshot tt te ps' e st secrets.
Proof.
  unfold readable, ParamSnapshot, ownParams. destruct (ownScopes _ _ _) as [[env org] tier]. intros H Hn. apply not_elem_of_cons in Hn as [Hne Hn].
  apply not_elem_of_app in Hn as [Ho Hn]. rewrite (blocks_same sc ps ps' secrets _ _ H Hn), (Values_same sc ps ps' env secrets H) by congruence. do 2 f_equal.
  destruct org as [s|]; [|done]. apply not_elem_of_cons in Ho as [Ho _]. by rewrite (Values_same sc ps ps' s secrets H) by congruence.
Qed.
End Hidden.

Section Readable.
Context {StT : Type} `{!SlugTable StT Tier, !SlugTableLaws StT Tier} {StE : Type} `{!SlugTable StE Environment, !SlugTableLaws StE Environment} (tt : StT) (te : StE).
Context (Htt : table_ok (tab tt)) (Hte : table_ok (tab te)).

(** The lock an env's block is under: its tier's, or its own off the ladder. *)
Lemma env_lock_cases org x : let tiers := ListByOrg tt org in env_lock tiers x = false ->
  (exists t, t ∈ tiers /\ Tier.Slug t = Environment.Slug x /\ Tier.Locked t = false) \/
  ((forall t, t ∈ tiers -> Tier.Slug t <> Environment.Slug x) /\ Environment.Locked x = false).
Proof.
  intros tiers. unfold env_lock. destruct (find_first _ (rev tiers)) as [t|] eqn:E.
  - apply find_first_Some in E as [Ht Es%String.eqb_eq]. intros Hl. left. exists t. split_and!; [|done|done]. by apply list_elem_of_In, in_rev, list_elem_of_In.
  - apply find_first_None in E. intros Hl. right. split; [|done]. intros t Ht. assert (t ∈ rev tiers) as Hr by (by apply list_elem_of_In, in_rev; rewrite rev_involutive; apply list_elem_of_In). pose proof (proj1 (Forall_forall _ _) E t Hr) as Hf. by apply String.eqb_neq.
Qed.
Lemma tier_slug_inj org t t' : t ∈ ListByOrg tt org -> t' ∈ ListByOrg tt org -> Tier.Slug t = Tier.Slug t' -> t = t'.
Proof.
  intros [H1 O1]%elem_of_ListByOrg [H2 O2]%elem_of_ListByOrg E; [|done..]. destruct Htt as [_ Hc].
  destruct (decide (Tier.ID t = Tier.ID t')) as [Ei|Hne]; [rewrite Ei in H1; congruence|].
  exfalso. apply (Hc _ _ H2). exists (Tier.ID t), t. split_and!; [done|cbn; congruence|cbn; congruence|cbn; congruence].
Qed.

Lemma own_scope_cases e st org tier : (ownScopes e st (ListByOrg tt (st_OrgID st)) = (MkScope "env" (Environment.ID e), org, tier)) ->
  forall sc, org = Some sc ->
  sc = MkScope "org_pr" (st_OrgID st) \/
  (sc = MkScope "org" (st_OrgID st) /\ Type' e <> Ephemeral /\ ListByOrg tt (st_OrgID st) = []) \/
  (exists t, t ∈ ListByOrg tt (st_OrgID st) /\ sc = MkScope "tier" (Tier.ID t) /\ Tier.Slug t = Environment.Slug e /\ Type' e <> Ephemeral).
Proof.
  unfold ownScopes. destruct (String.eqb_spec (Type' e) Ephemeral) as [He|He]; [intros [= <- _] sc [= <-]; by left|].
  destruct (ListByOrg tt (st_OrgID st)) as [|t0 ts] eqn:El; [intros [= <- _] sc [= <-]; right; by left|].
  destruct (find_first _ (t0 :: ts)) as [t|] eqn:E; [|by intros [= <- _] sc [=]]. intros [= <- _] sc [= <-].
  apply find_first_Some in E as [Ht Es%String.eqb_eq]. right. right. by exists t.
Qed.
End Readable.

(** C16. An env reads its own blocks and the unlocked ones of its own stack and
    org, and nothing else: whatever is written in any other scope, every value
    its resolver expands stays the same.  The scopes it reads are its own env's,
    the PR blocks, the org's while it has no tiers, its own tier's, and the
    tiers and static envs whose lock is open; so no PR env reads a tier or the
    org, and the server's params are never read. *)
Theorem blocks_are_isolated {StT : Type} `{!SlugTable StT Tier, !SlugTableLaws StT Tier} {StE : Type}
    `{!SlugTable StE Environment, !SlugTableLaws StE Environment} (tt : StT) (te : StE) e st : table_ok (tab tt) -> table_ok (tab te) ->
  let tiers := ListByOrg tt (st_OrgID st) in
  (forall sc ps ps' secrets w val rr, sc ∉ readable tt te e st -> same_but sc ps ps' ->
     Expand (ParamSnapshot tt te ps e st secrets) w val rr = Expand (ParamSnapshot tt te ps' e st secrets) w val rr) /\
  (forall sc, sc ∈ readable tt te e st ->
     sc = MkScope "env" (Environment.ID e) \/ sc = MkScope "stack_pr" (st_ID st) \/ sc = MkScope "org_pr" (st_OrgID st) \/
     (sc = MkScope "org" (st_OrgID st) /\ Type' e <> Ephemeral /\ tiers = []) \/
     (exists t, t ∈ tiers /\ Tier.OrgID t = st_OrgID st /\ sc = MkScope "tier" (Tier.ID t) /\
        (Tier.Locked t = false \/ (Tier.Slug t = Environment.Slug e /\ Type' e <> Ephemeral))) \/
     (exists x, tab te !! Environment.ID x = Some x /\ Environment.StackID x = st_ID st /\ Type' x <> Ephemeral /\ sc = MkScope "env" (Environment.ID x) /\
        (forall t, t ∈ tiers -> Tier.Slug t = Environment.Slug x -> Tier.Locked t = false) /\
        ((forall t, t ∈ tiers -> Tier.Slug t <> Environment.Slug x) -> Environment.Locked x = false))).
Proof.
  intros Htt Hte tiers. split; [intros sc ps ps' secrets w val rr Hsc Hs; by rewrite (ParamSnapshot_same tt te sc ps ps')|].
  intros sc. unfold readable. destruct (ownScopes e st (ListByOrg tt (st_OrgID st))) as [[env org] tier] eqn:Eo.
  assert (env = MkScope "env" (Environment.ID e)) as ->.
  { revert Eo. unfold ownScopes. destruct (String.eqb _ _); [by intros [= <-]|]. destruct (ListByOrg _ _); [by intros [= <-]|].
    destruct (find_first _ _); by intros [= <-]. }
  intros [->|[Ho|Hb]%elem_of_app]%elem_of_cons; [by left| |].
  - destruct org as [s|]; [|by apply not_elem_of_nil in Ho]. apply list_elem_of_singleton in Ho as ->.
    destruct (own_scope_cases tt e st _ _ Eo s eq_refl) as [->|[H|(t & Ht & -> & Hs & He)]]; [tauto|tauto|].
    do 4 right. left. exists t. split_and!; [done|by apply elem_of_ListByOrg in Ht as [_ Ht]|done|by right].
  - apply list_elem_of_fmap in Hb as ([[k l] s] & -> & [Hb Hl]%elem_of_filterb). cbn [fst snd] in *. apply negb_true_iff in Hl. subst l.
    unfold blocks in Hb. apply elem_of_app in Hb as [Hb|[Hb|Hb]%elem_of_app].
    + rewrite !elem_of_cons, elem_of_nil in Hb. destruct Hb as [[= _ ->]|[[= _ ->]|[]]]; tauto.
    + apply list_elem_of_fmap in Hb as (t & [= _ El ->] & Ht). do 4 right. left. exists t.
      split_and!; [done|by apply elem_of_ListByOrg in Ht as [_ Ht]|done|by left].
    + apply list_elem_of_fmap in Hb as (x & [= _ El ->] & [Hx Hty]%elem_of_filterb). unfold List' in Hx. apply elem_of_sort in Hx.
      apply elem_of_list_by in Hx as [Hx Hst]; [|done]. do 5 right. exists x. apply negb_true_iff, String.eqb_neq in Hty.
      symmetry in El. apply env_lock_cases in El. split_and!; [done|done|done|done| |].
      * intros t Ht Hs. destruct El as [(t' & Ht' & Hs' & Hl)|[Hn _]]; [|by destruct (Hn t Ht)].
        by rewrite (tier_slug_inj tt Htt (st_OrgID st) t t') by (done || congruence).
      * intros Hn. destruct El as [(t' & Ht' & Hs' & _)|[_ Hl]]; [by destruct (Hn t' Ht')|done].
Qed.

(** A PR env of an org whose tier [prod] is locked. *)
#[local] Abbreviation ex_tt := ({["t1" := Tier.MkTier "t1" "o1" "prod" 0 true 1]} : gmap string Tier).
#[local] Abbreviation ex_pr := (MkEnv "e9" "s1" "PR 9" "pr-9" Ephemeral None "{}" "" 0 "net" None "branch" "f" true 3 false "n1" "" "").
#[local] Abbreviation ex_te := ({["e9" := ex_pr]} : gmap string Environment).
#[local] Abbreviation ex_st := (MkStack "s1" "o1" "Shop" "shop" "" "{}" "" "" "" "" 1 None).
#[local] Abbreviation ex_ps v := [MkParam "p1" "tier" "t1" "app" "KEY" SecretKind v 1 1; MkParam "p2" "org_pr" "o1" "app" "KEY" ParamKind "test" 1 1].
Lemma blocks_are_isolated_witness : (Expand (ParamSnapshot ex_tt ex_te (ex_ps "live") ex_pr ex_st true) InEnv "k=${{ org.params.app.KEY }}" NewResolver).1 = Ok "k=test" /\
  Expand (ParamSnapshot ex_tt ex_te (ex_ps "live") ex_pr ex_st true) InEnv "${{ org.params.app[prod].KEY }}" NewResolver =
  Expand (ParamSnapshot ex_tt ex_te (ex_ps "other") ex_pr ex_st true) InEnv "${{ org.params.app[prod].KEY }}" NewResolver.
Proof.
  split; [vm_compute; reflexivity|].
  refine (proj1 (blocks_are_isolated ex_tt ex_te ex_pr ex_st _ _) (MkScope "tier" "t1") (ex_ps "live") (ex_ps "other") true InEnv _ NewResolver _ _).
  - exact (singleton_ok (Tier.MkTier "t1" "o1" "prod" 0 true 1)).
  - exact (singleton_ok ex_pr).
  - apply (bool_decide_eq_false_1 _). vm_compute. reflexivity.
  - intros [k i] Hne. unfold ListByScope. cbn [List.filter]. unfold in_scope. cbn [ p_ScopeKind p_ScopeID sc_Kind sc_ID].
    destruct (String.eqb_spec "tier" k) as [<-|]; [|done]. destruct (String.eqb_spec "t1" i) as [<-|]; [by destruct Hne|done].
Defined.
