(* ===== verification/Cleanup.v ===== *)
(** * The disk sweep ([service/cleanup.go], [service/prune.go], [eachNode] of [service/nodes.go])

    Which releases a sweep must not strand, the images and rows that follow
    from them, and the sweep of every node over the images stackr built, the
    ones it pulled and its own. *)
From S2P Require Import Prelude GoStrings Errs Store Rows ParamRows Environment Facts JobLeaf Releases Nodes Images.

Definition rollbackDepth : nat := 5.
Definition kindPromote : string := "promote".

(** ** Releases to keep *)

Section Kept.
Context {StE : Type} `{!SlugTable StE Environment}.
(** The rows: the orgs' ids, stacks, environments, releases and jobs.
    [env_of] is the [env_id] that [json.Unmarshal] reads in the payload of a
    promote job, if it decodes. *)
Context (orgs : list string) (stacks : list Stack) (te : StE) (d : Tables) (jobs : gmap string Job) (env_of : string -> option string).

Definition stack_ids : list string := flat_map (fun org => map st_ID (List.filter (fun s => String.eqb (st_OrgID s) org) stacks)) orgs.
Definition newest : list string := flat_map (fun s => match Releases.List_ d s with [] => [] | r :: _ => [rl_ID r] end) stack_ids.
Definition all_envs : list Environment := flat_map (List' te) stack_ids.
Definition current (e : Environment) : list string := match Environment.ReleaseID e with Some r => [r] | None => [] end.
Definition first_depth : gmap string (list string) := fold_left (fun m e => <[Environment.ID e := current e]> m) all_envs ∅.
Definition stackOf : gmap string string :=
  fold_left (fun m se => <[Environment.ID se.2 := se.1]> m) (flat_map (fun s => map (pair s) (List' te s)) stack_ids) ∅.
Definition Recent (states : list string) : list Job := ListByState jobs states.
(** One job, newest first: the releases kept for live jobs, and the releases
    each environment was on. *)
Definition job_step (st : gset string * gmap string (list string)) (j : Job) : gset string * gmap string (list string) :=
  match JobLeaf.ReleaseID j with
  | None => st
  | Some r =>
      if Live (j_State j) then ({[r]} ∪ st.1, st.2)
      else if negb (String.eqb (Kind j) kindPromote) then st
      else match env_of (Payload j) with
      | None => st
      | Some env =>
          match st.2 !! env with
          | Some h => if (length h <? rollbackDepth)%nat && negb (contains h r) then (st.1, <[env := h ++ [r]]> st.2) else st
          | None => st
          end
      end
  end.
Definition after_jobs : gset string * gmap string (list string) :=
  fold_left job_step (Recent [Queued; Running; Waiting; Done]) (list_to_set newest, first_depth).
(** The least and the greatest number among [hist], [lo] zero where none is. *)
Definition span (rs : list Release) (hist : list string) : Z * Z :=
  fold_left (fun lh r =>
    if contains hist (rl_ID r) then (if (lh.1 =? 0) || (rl_Number r <? lh.1) then rl_Number r else lh.1, Z.max lh.2 (rl_Number r)) else lh) rs (0, 0).
Definition keepBetween (rels : gset string) (rs : list Release) (hist : list string) : gset string :=
  let '(lo, hi) := span rs hist in
  if lo =? 0 then rels
  else
    let lo := if (length hist =? 1)%nat then lo - 1 else lo in
    fold_left (fun rels r => if (lo <=? rl_Number r) && (rl_Number r <=? hi) then {[rl_ID r]} ∪ rels else rels) rs rels.
Definition keep_env (rels : gset string) (eh : string * list string) : gset string :=
  keepBetween (list_to_set eh.2 ∪ rels) (match stackOf !! eh.1 with Some s => Releases.List_ d s | None => [] end) eh.2.
Definition keptReleases : gset string := fold_left keep_env (map_to_list after_jobs.2) after_jobs.1.
End Kept.

(** ** Every node *)

Definition reachable (n : Node) : bool := negb (String.eqb (nd_Status n) StatusPending || String.eqb (nd_Status n) StatusJoined).
(** The nodes with the state of each one's Docker. *)
Fixpoint visit {W B} (f : W -> W * B * option error) (ns : list (Node * W)) : list (Node * W) * list B * list error :=
  match ns with
  | [] => ([], [], [])
  | (n, w) :: ns =>
      if reachable n then
        let '(w, b, e) := f w in
        let '(ns, bs, es) := visit f ns in
        ((n, w) :: ns, b :: bs, match e with Some e => Wrap (Sprintf "node %s: %w" [AStr (nd_Name n)]) e :: es | None => es end)
      else let '(ns, bs, es) := visit f ns in ((n, w) :: ns, bs, es)
  end.
(** [boot] is the error of reading the controller's row, if any. *)
Definition eachNode {W B} (boot : option error) (f : W -> W * B * option error) (ns : list (Node * W)) : list (Node * W) * list B * option error :=
  match boot with
  | Some e => (ns, [], Some e)
  | None => let '(ns, bs, es) := visit f ns in (ns, bs, join_errs es)
  end.

(** ** The sweeps *)

(** [strings.LastIndex] of a byte. *)
Fixpoint last_index (c : ascii) (s : string) : Z :=
  match s with
  | EmptyString => -1
  | String x s => let i := last_index c s in if 0 <=? i then i + 1 else if Ascii.eqb x c then 0 else -1
  end.
Definition splitTag (ref : string) : string * string * bool :=
  let i := last_index ":" ref in
  if i <=? last_index "/" ref then (ref, "", false) else (str_take (Z.to_nat i) ref, str_drop (Z.to_nat (i + 1)) ref, true).
Definition stackrRepo : string := "stackr.system/" +:+ "stackr".
Definition stackrImageRepos : list string := ["ghcr.io/fyrmforge/stackr"; "localhost:5000/" +:+ stackrRepo].

Section Sweep.
Context {W : Type} `{Daemon W}.
(** The names and image ids of what a node's containers run. *)
Context (containers : W -> res (list (string * string))) (boot : option error).

Definition pinned_images (d : Tables) (id : string) : list string := omap (fun sp => pn_ImageID sp.2) (map_to_list (Pins d id)).
Definition cleanupKeep (rels : gset string) (d : Tables) (ns : list (Node * W)) : res (list string * list string * list string) :=
  let ids := flat_map (pinned_images d) (elements rels) in
  let '(_, cs, e) := eachNode boot (fun w => match containers w with Ok cs => (w, map fst cs, None) | Err e => (w, [], Some e) end) ns in
  match e with Some e => Err e | None => Ok (ids, ImageIDs d, concat cs) end.
(** The part of [runCleanup] on the images stackr built. *)
Definition sweep_built (now : Z) (rels : gset string) (d : Tables) (ns : list (Node * W)) : Tables * list (Node * W) * list string * option error :=
  match cleanupKeep rels d ns with
  | Err e => (d, ns, [], Some e)
  | Ok (keep, pinned, running) =>
      let p := Plan now keep running d in
      let '(ns, gs, e1) := eachNode boot (fun w => let '(w, (removed, freed, e)) := Prune p w in (w, removed, e)) ns in
      let gone := concat gs in
      let '(d, e2) := Settle p pinned gone d in
      (d, ns, gone, join_errs (match e1 with Some e => [e] | None => [] end ++ match e2 with Some e => [e] | None => [] end))
  end.

(** The images stackr pulled that no tile names any more. *)
Definition stale_rows (refs pinned : list string) (d : Tables) : list Image :=
  List.filter (fun r => match im_BuiltAt r with None => true | Some _ => false end && negb (contains refs (im_Ref r)) && negb (contains pinned (im_ID r))) (images d).
Definition drop_tag (st : W * list error) (ref : string) : W * list error :=
  let '(w, e) := RemoveImage ref st.1 in (w, match e with Some e => if is_gone e then st.2 else st.2 ++ [e] | None => st.2 end).
Definition pulled_on (stale : list Image) (w : W) : W * list error * option error :=
  match ListImages ∅ w with
  | Err e => (w, [e], None)
  | Ok ims => (fold_left drop_tag (flat_map (fun r => map (fun _ => im_Ref r) (List.filter (fun im => contains (di_Tags im) (im_Ref r)) ims)) stale) (w, []), None)
  end.
Definition drop_row (d : Tables) (r : Image) : Tables := match i_delete (im_ID r) d with Ok d => d | Err _ => d end.
Definition prunePulledImages (refs : list string) (d : Tables) (ns : list (Node * W)) : Tables * list (Node * W) :=
  match stale_rows refs (ImageIDs d) d with
  | [] => (d, ns)
  | stale =>
      let '(ns, es, _) := eachNode boot (pulled_on stale) ns in
      (match concat es with [] => fold_left drop_row stale d | _ => d end, ns)
  end.

(** stackr's own images of other builds. *)
Definition mine (im : DImage) : list string :=
  List.filter (fun t => match splitTag t with (repo, _, ok) => ok && contains stackrImageRepos repo end) (di_Tags im).
Definition spared (used keep : list string) (im : DImage) : bool :=
  (length (mine im) =? 0)%nat || contains used (di_ID im) || existsb (fun t => contains used t || contains keep t) (di_Tags im).
Definition untag_mine (st : W * (nat * list error)) (t : string) : W * (nat * list error) :=
  let '(w, e) := RemoveImage t st.1 in
  match e with
  | None => (w, (S st.2.1, st.2.2))
  | Some e => if is_gone e then (w, (S st.2.1, st.2.2)) else (w, (st.2.1, st.2.2 ++ [e]))
  end.
Fixpoint prune_stackr (used keep : list string) (ims : list DImage) (w : W) (n : nat) (size : Z) (failed : list error) : W * (nat * Z * list error) :=
  match ims with
  | [] => (w, (n, size, failed))
  | im :: ims =>
      if spared used keep im then prune_stackr used keep ims w n size failed
      else
        let '(w, (gone, fs)) := fold_left untag_mine (mine im) (w, (O, [])) in
        if (gone =? length (di_Tags im))%nat then prune_stackr used keep ims w (S n) (size + di_Size im) (failed ++ fs)
        else prune_stackr used keep ims w n size (failed ++ fs)
  end.
Definition pruneStackrImages (keep : list string) (w : W) : W * (nat * Z * option error) :=
  match containers w with
  | Err e => (w, (O, 0, Some e))
  | Ok cs =>
      match ListImages ∅ w with
      | Err e => (w, (O, 0, Some e))
      | Ok ims => let '(w, (n, size, failed)) := prune_stackr (flat_map (fun c => [c.1; c.2]) cs) keep ims w O 0 [] in (w, (n, size, join_errs failed))
      end
  end.
End Sweep.

(** ** What is kept *)

Definition spans (rs : list Release) (hist : list string) (lo hi : Z) : Prop :=
  (lo = 0 /\ hi = 0 /\ forall r, r ∈ rs -> rl_ID r ∉ hist) \/
  (0 < lo /\ (exists a, a ∈ rs /\ rl_ID a ∈ hist /\ rl_Number a = lo) /\ (exists b, b ∈ rs /\ rl_ID b ∈ hist /\ rl_Number b = hi) /\
   forall r, r ∈ rs -> rl_ID r ∈ hist -> lo <= rl_Number r <= hi).
Lemma span_spec rs hist : (forall r, r ∈ rs -> 0 < rl_Number r) -> spans rs hist (span rs hist).1 (span rs hist).2.
Proof.
  induction rs as [|r rs IH] using rev_ind; intros Hp; [left; split_and!; try done; by intros r ?%elem_of_nil|].
  specialize (IH (fun x Hx => Hp x ltac:(apply elem_of_app; by left))). assert (0 < rl_Number r) as Hr by (apply Hp, elem_of_app; right; by left).
  unfold span. rewrite fold_left_app. cbn [fold_left]. fold (span rs hist). destruct (span rs hist) as [lo hi]. cbn [fst snd] in *. unfold spans. setoid_rewrite elem_of_app. setoid_rewrite list_elem_of_singleton.
  destruct (contains_spec hist (rl_ID r)) as [Hh|Hh]; cbn [fst snd].
  - right. destruct IH as [(-> & -> & Hn)|(H0 & (a & Ha & Hah & Ea) & (b & Hb & Hbh & Eb) & Hall)].
    + cbn [Z.eqb orb]. rewrite Z.max_r by lia. split; [done|]. split; [exists r; auto|]. split; [exists r; auto|]. intros x [Hx| ->] Hxh; [by destruct (Hn x Hx)|lia].
    + assert ((lo =? 0) = false) as -> by lia. cbn [orb]. split; [destruct (rl_Number r <? lo); lia|]. split; [destruct (Z.ltb_spec (rl_Number r) lo); [exists r; auto|exists a; auto]|].
      split; [destruct (Z.max_spec hi (rl_Number r)) as [[_ ->]|[_ ->]]; [exists r; auto|exists b; auto]|].
      intros x [Hx| ->] Hxh; [specialize (Hall x Hx Hxh)|]; destruct (Z.ltb_spec (rl_Number r) lo); lia.
  - destruct IH as [(-> & -> & Hn)|(H0 & (a & Ha & Hah & Ea) & (b & Hb & Hbh & Eb) & Hall)].
    + left. split_and!; [done|done|]. intros x [Hx| ->]; [by apply Hn|done].
    + right. split; [done|]. split; [exists a; auto|]. split; [exists b; auto|]. intros x [Hx| ->] Hxh; [by apply Hall|done].
Qed.
Lemma fold_add (p : Release -> bool) rs (X : gset string) x : x ∈ fold_left (fun rels r => if p r then {[rl_ID r]} ∪ rels else rels) rs X <-> x ∈ X \/ exists r : Release, r ∈ rs /\ p r = true /\ x = rl_ID r.
Proof.
  revert X. induction rs as [|r rs IH]; intros X; cbn [fold_left]; [split; [by left|intros [?|(r & ?%elem_of_nil & _)]]; done|]. rewrite IH. setoid_rewrite elem_of_cons.
  destruct (p r) eqn:E; [rewrite elem_of_union, elem_of_singleton|]; split.
  - intros [[-> |Hx]|(y & Hy & H)]; [right; exists r; auto|by left|right; exists y; auto].
  - intros [Hx|(y & [-> |Hy] & Hp & ->)]; [by left; right|by left; left|right; exists y; auto].
  - intros [Hx|(y & Hy & H)]; [by left|right; exists y; auto].
  - intros [Hx|(y & [-> |Hy] & Hp & ->)]; [by left|congruence|right; exists y; auto].
Qed.
Lemma keepBetween_mono (rels : gset string) rs hist x : x ∈ rels -> x ∈ keepBetween rels rs hist.
Proof. intros Hx. unfold keepBetween. destruct (span rs hist) as [lo hi]. destruct (lo =? 0); [done|]. apply fold_add. by left. Qed.
(** Between two releases of the history, and below the only one. *)
Lemma keepBetween_spec rels rs hist r : (forall r, r ∈ rs -> 0 < rl_Number r) -> r ∈ rs ->
  (exists a b, a ∈ rs /\ b ∈ rs /\ rl_ID a ∈ hist /\ rl_ID b ∈ hist /\ rl_Number a <= rl_Number r <= rl_Number b) \/
  (exists a, hist = [rl_ID a] /\ a ∈ rs /\ rl_Number r = rl_Number a - 1) -> rl_ID r ∈ keepBetween rels rs hist.
Proof.
  intros Hp Hr Hor. pose proof (span_spec rs hist Hp) as Hs. unfold keepBetween. destruct (span rs hist) as [lo hi]. cbn [fst snd] in Hs.
  destruct Hs as [(-> & -> & Hn)|(H0 & _ & _ & Hall)].
  - exfalso. destruct Hor as [(a & b & Ha & _ & Hah & _)|(a & -> & Ha & _)]; apply (Hn a Ha); [done|by left].
  - assert ((lo =? 0) = false) as -> by lia. apply fold_add. right. exists r. split; [done|]. split; [|done]. destruct Hor as [(a & b & Ha & Hb & Hah & Hbh & Hle)|(a & -> & Ha & Hn)].
    + pose proof (Hall a Ha Hah). pose proof (Hall b Hb Hbh). destruct (_ =? 1)%nat; apply andb_true_iff; lia.
    + pose proof (Hall a Ha ltac:(by left)). cbn. apply andb_true_iff. lia.
Qed.

Section KeptFacts.
Context {StE : Type} `{!SlugTable StE Environment, !SlugTableLaws StE Environment}.
Context (orgs : list string) (stacks : list Stack) (te : StE) (d : Tables) (jobs : gmap string Job) (env_of : string -> option string).
Context (Hd : tables_ok d) (Ht : table_ok (tab te)).
#[local] Abbreviation after := (after_jobs orgs stacks te d jobs env_of).
#[local] Abbreviation kept := (keptReleases orgs stacks te d jobs env_of).
(** The releases an environment was on, newest first. *)
Definition history (e : Environment) : list string := default [] (after.2 !! Environment.ID e).
(** An environment the sweep sees. *)
Definition seen (e : Environment) : Prop := tab te !! Environment.ID e = Some e /\ Environment.StackID e ∈ stack_ids orgs stacks.

Lemma elem_of_envs s e : e ∈ List' te s <-> tab te !! Environment.ID e = Some e /\ Environment.StackID e = s.
Proof. unfold List'. rewrite elem_of_sort. exact (elem_of_list_by te s e Ht). Qed.
Lemma elem_of_all_envs e : e ∈ all_envs orgs stacks te <-> seen e.
Proof.
  unfold all_envs, seen. rewrite list_elem_of_In, in_flat_map. split.
  - intros (s & Hs%list_elem_of_In & He%list_elem_of_In%elem_of_envs). destruct He as [He <-]. by split.
  - intros [He Hs]. exists (Environment.StackID e). split; apply list_elem_of_In; [done|]. by apply elem_of_envs.
Qed.
Lemma seen_inj x y : seen x -> seen y -> Environment.ID x = Environment.ID y -> x = y.
Proof. intros [Hx _] [Hy _] E. congruence. Qed.
Lemma first_depth_lookup e : seen e -> first_depth orgs stacks te !! Environment.ID e = Some (current e).
Proof.
  intros He. unfold first_depth. rewrite fold_insert_lookup by (intros x y Hx%elem_of_all_envs Hy%elem_of_all_envs E; by rewrite (seen_inj x y)).
  destruct (find_first _ _) as [x|] eqn:E.
  - apply find_first_Some in E as [Hx%elem_of_all_envs Ei%String.eqb_eq]. by rewrite (seen_inj x e).
  - apply find_first_None in E. apply elem_of_all_envs in He. pose proof (proj1 (Forall_forall _ _) E e He) as Hf. cbv beta in Hf. by rewrite String.eqb_refl in Hf.
Qed.
Lemma stackOf_lookup e : seen e -> stackOf orgs stacks te !! Environment.ID e = Some (Environment.StackID e).
Proof.
  intros He. unfold stackOf. assert (forall se, se ∈ flat_map (fun s => map (pair s) (List' te s)) (stack_ids orgs stacks) -> seen se.2 /\ se.1 = Environment.StackID se.2) as Hse.
  { intros se (s & Hs%list_elem_of_In & Hin%list_elem_of_In)%list_elem_of_In%in_flat_map. apply list_elem_of_fmap in Hin as (x & -> & [Hx Hst]%elem_of_envs). cbn. unfold seen. by rewrite Hst. }
  rewrite fold_insert_lookup.
  - destruct (find_first _ _) as [x|] eqn:E.
    + apply find_first_Some in E as [Hx Ei%String.eqb_eq]. apply Hse in Hx as [Hx ->]. by rewrite (seen_inj x.2 e).
    + exfalso. apply find_first_None in E. pose proof (proj1 (Forall_forall _ _) E (Environment.StackID e, e)) as Hf. cbv beta in Hf. cbn [snd] in Hf. rewrite String.eqb_refl in Hf. discriminate Hf.
      apply list_elem_of_In, in_flat_map. exists (Environment.StackID e). split; apply list_elem_of_In; [apply He|]. apply list_elem_of_fmap. exists e. split; [done|]. apply elem_of_envs. split; [apply He|done].
  - intros x y [Hx Ex]%Hse [Hy Ey]%Hse E. rewrite Ex, Ey. by rewrite (seen_inj _ _ Hx Hy E).
Qed.

(** One job adds to what is kept, and to a history at its end. *)
Lemma job_step_mono st j x : x ∈ st.1 -> x ∈ (job_step env_of st j).1.
Proof. intros Hx. unfold job_step. repeat case_match; cbn [fst]; set_solver. Qed.
Lemma job_step_prefix st j k h : st.2 !! k = Some h -> exists t, (job_step env_of st j).2 !! k = Some (h ++ t) /\
  (t = [] \/ exists r, t = [r] /\ (r ∉ h) /\ (length h < rollbackDepth)%nat /\ JobLeaf.ReleaseID j = Some r /\ Live (j_State j) = false /\ Kind j = kindPromote /\ env_of (Payload j) = Some k).
Proof.
  intros Hk. assert (exists t, st.2 !! k = Some (h ++ t) /\ t = []) as (t0 & H0 & Et) by (exists []; by rewrite app_nil_r). unfold job_step.
  destruct (JobLeaf.ReleaseID j) as [r|]; [|exists t0; auto]. destruct (Live _) eqn:El; [exists t0; auto|]. destruct (String.eqb_spec (Kind j) kindPromote); [|exists t0; auto]. cbn [negb].
  destruct (env_of (Payload j)) as [env|] eqn:Ee; [|exists t0; auto]. destruct (st.2 !! env) as [h'|] eqn:Eh; [|exists t0; auto].
  destruct ((length h' <? rollbackDepth)%nat && negb (contains h' r)) eqn:Ec; [|exists t0; auto]. cbn [snd]. destruct (decide (env = k)) as [->|Hne]; [|rewrite lookup_insert_ne by done; exists t0; auto].
  rewrite lookup_insert_eq. assert (h' = h) as -> by congruence. exists [r]. split; [done|]. right. apply andb_true_iff in Ec as [E1%Nat.ltb_lt E2]. exists r. destruct (contains_spec h r); [done|]. by split_and!.
Qed.
Definition promoted (k : string) (j : Job) (r : string) : Prop :=
  JobLeaf.ReleaseID j = Some r /\ Live (j_State j) = false /\ Kind j = kindPromote /\ env_of (Payload j) = Some k.
Definition newest_sorted (js : list Job) : Prop := StronglySorted (fun a b => newer_first a b = true) js.
Lemma jobs_fold js st k h : newest_sorted js -> st.2 !! k = Some h -> NoDup h -> (length h <= rollbackDepth)%nat -> exists t, (fold_left (job_step env_of) js st).2 !! k = Some (h ++ t) /\
  NoDup (h ++ t) /\ (length (h ++ t) <= rollbackDepth)%nat /\ (forall r, r ∈ t -> exists j, j ∈ js /\ promoted k j r) /\
  forall j r, j ∈ js -> promoted k j r -> r ∈ h ++ t \/ length (h ++ t) = rollbackDepth /\
    forall r', r' ∈ t -> exists j', j' ∈ js /\ promoted k j' r' /\ CreatedAt j <= CreatedAt j'.
Proof.
  revert st h. induction js as [|j js IH]; intros st h Hs Hk Hn Hl; cbn [fold_left]; [exists []; rewrite app_nil_r; split; [done|]; split; [done|]; split; [done|]; split; [intros r Hr; by apply elem_of_nil in Hr|intros j r Hj; by apply elem_of_nil in Hj]|].
  destruct (job_step_prefix st j k h Hk) as (t0 & Ht0 & Hor).
  assert (NoDup (h ++ t0) /\ (length (h ++ t0) <= rollbackDepth)%nat) as [Hn0 Hl0].
  { destruct Hor as [->|(r & -> & Hr & Hlt & _)]; [by rewrite app_nil_r|]. split; [|rewrite length_app; cbn; lia]. apply NoDup_app. split_and!; [done| |apply NoDup_singleton]. intros x Hx Hxr%list_elem_of_singleton. by subst x. }
  apply StronglySorted_inv in Hs as [Hs Hj]. destruct (IH _ _ Hs Ht0 Hn0 Hl0) as (t & H1 & H2 & H3 & H4 & H5). exists (t0 ++ t). rewrite app_assoc. split_and!; [done..| |].
  - intros r [Hr|Hr]%elem_of_app.
    + destruct Hor as [->|(x & -> & _ & _ & Hx)]; [by apply elem_of_nil in Hr|]. apply list_elem_of_singleton in Hr as ->. exists j. split; [by left|done].
    + destruct (H4 r Hr) as (x & Hx & Hp). exists x. split; [by right|done].
  - intros x r [->|Hx]%elem_of_cons Hp.
    2:{ destruct (H5 x r Hx Hp) as [|[Hfl Hnew]]; [by left|right]. split; [done|]. intros r' [Hr'|Hr']%elem_of_app.
        - destruct Hor as [->|(y & -> & _ & _ & Hy)]; [by apply elem_of_nil in Hr'|]. apply list_elem_of_singleton in Hr' as ->. exists j. split; [by left|]. split; [done|].
          pose proof (proj1 (Forall_forall _ _) Hj x Hx) as Hle. unfold newer_first in Hle. lia.
        - destruct (Hnew r' Hr') as (y & Hy & H). exists y. split; [by right|done]. }
    destruct (decide (r ∈ h ++ t0)) as [Hin|Hin]; [left; apply elem_of_app; by left|]. right.
    enough (length (h ++ t0) = rollbackDepth /\ t0 = []) as [Hfull ->].
    { rewrite length_app in H3. assert (t = []) as -> by (apply length_zero_iff_nil; lia). rewrite !app_nil_r in *. split; [done|]. by intros r' ?%elem_of_nil. }
    clear - Hk Ht0 Hp Hin Hl0 Hl. destruct Hp as (Er & El & Ek & Ee). unfold job_step in Ht0. rewrite Er, El, Ek, String.eqb_refl, Ee, Hk in Ht0. cbn [negb] in Ht0.
    destruct (contains_spec h r) as [Hc|Hc]; [destruct Hin; apply elem_of_app; by left|]. rewrite andb_true_r in Ht0. destruct (Nat.ltb_spec (length h) rollbackDepth) as [Hlt|Hlt].
    + cbn [snd] in Ht0. rewrite lookup_insert_eq in Ht0. injection Ht0 as Ht0. apply (app_inv_head h) in Ht0. subst t0. destruct Hin. apply elem_of_app. right. by left.
    + rewrite Hk in Ht0. injection Ht0 as Ht0. assert (t0 = []) as -> by (apply (app_inv_head h); by rewrite app_nil_r). rewrite app_nil_r. split; [lia|done].
Qed.
Lemma Recent_newest states : newest_sorted (Recent jobs states).
Proof. apply sort_sorted; unfold newer_first; intros; lia. Qed.
Lemma jobs_fold_mono js st x : x ∈ st.1 -> x ∈ (fold_left (job_step env_of) js st).1.
Proof. revert st. induction js as [|j js IH]; intros st Hx; [done|]. cbn. by apply IH, job_step_mono. Qed.
Lemma jobs_fold_live js st j r : j ∈ js -> JobLeaf.ReleaseID j = Some r -> Live (j_State j) = true -> r ∈ (fold_left (job_step env_of) js st).1.
Proof.
  revert st. induction js as [|x js IH]; intros st; [by intros ?%elem_of_nil|]. intros [<-|Hj]%elem_of_cons Er El; [|by apply IH]. cbn. apply jobs_fold_mono. unfold job_step. rewrite Er, El. set_solver.
Qed.
Lemma keep_env_mono (X : gset string) eh x : x ∈ X -> x ∈ keep_env orgs stacks te d X eh.
Proof. intros Hx. unfold keep_env. apply keepBetween_mono. set_solver. Qed.
Lemma keep_fold l (X : gset string) x : (x ∈ X \/ exists eh, eh ∈ l /\ forall Y, x ∈ keep_env orgs stacks te d Y eh) -> x ∈ fold_left (keep_env orgs stacks te d) l X.
Proof.
  revert X. induction l as [|eh l IH]; intros X; cbn [fold_left]; [intros [?|(eh & ?%elem_of_nil & _)]; done|]. intros [Hx|(y & [->|Hy]%elem_of_cons & Hall)]; apply IH.
  - left. by apply keep_env_mono.
  - left. apply Hall.
  - right. by exists y.
Qed.
Lemma elem_of_Recent states j : j ∈ Recent jobs states <-> (exists id, jobs !! id = Some j) /\ j_State j ∈ states.
Proof.
  unfold Recent, ListByState. rewrite elem_of_sort, elem_of_filterb, list_elem_of_fmap. split.
  - intros [([id x] & -> & Hx%elem_of_map_to_list) Hc]. split; [by exists id|]. by destruct (contains_spec states (j_State (id, x).2)).
  - intros [[id Hj] Hc]. split; [exists (id, j); split; [done|by apply elem_of_map_to_list]|]. by destruct (contains_spec states (j_State j)).
Qed.
Lemma elem_of_releases s r : rl_ID r ∈ map rl_ID (Releases.List_ d s) <-> exists x, x ∈ releases d /\ rl_StackID x = s /\ rl_ID x = rl_ID r.
Proof.
  unfold Releases.List_. rewrite map_map. cbn. split.
  - intros (x & Ex & Hx%elem_of_sort)%list_elem_of_fmap. apply elem_of_filterb in Hx as [Hx Hs%String.eqb_eq]. by exists x.
  - intros (x & Hx & Hs & Ex). apply list_elem_of_fmap. exists x. split; [done|]. apply elem_of_sort, elem_of_filterb. split; [done|by apply String.eqb_eq].
Qed.
Lemma history_facts e : seen e -> after.2 !! Environment.ID e = Some (history e) /\ (exists t, history e = current e ++ t /\
  (forall r, r ∈ t -> exists j, j ∈ Recent jobs [Queued; Running; Waiting; Done] /\ promoted (Environment.ID e) j r)) /\ NoDup (history e) /\ (length (history e) <= rollbackDepth)%nat /\
  forall j r, j ∈ Recent jobs [Queued; Running; Waiting; Done] -> promoted (Environment.ID e) j r -> r ∈ history e \/ length (history e) = rollbackDepth /\
    forall r', r' ∈ history e -> r' ∈ current e \/ exists j', j' ∈ Recent jobs [Queued; Running; Waiting; Done] /\ promoted (Environment.ID e) j' r' /\ CreatedAt j <= CreatedAt j'.
Proof.
  intros He. unfold history, after_jobs. destruct (jobs_fold (Recent jobs [Queued; Running; Waiting; Done]) (list_to_set (newest orgs stacks d), first_depth orgs stacks te) (Environment.ID e) (current e)) as (t & E & Hn & Hl & Ht2 & Hj).
  - apply Recent_newest.
  - by apply first_depth_lookup.
  - unfold current. destruct (Environment.ReleaseID e); [apply NoDup_singleton|apply NoDup_nil_2].
  - unfold current. destruct (Environment.ReleaseID e); unfold rollbackDepth; cbn; lia.
  - rewrite E. cbn [default]. split; [done|]. split; [by exists t|]. split; [done|]. split; [done|]. intros j r Hjs Hp. destruct (Hj j r Hjs Hp) as [|[Hf Hnew]]; [by left|right].
    split; [done|]. intros r' [Hr'|Hr']%elem_of_app; [by left|right; by apply Hnew].
Qed.
(** A done promote of [e] to [r]. *)
Definition was_on (e : Environment) (j : Job) (r : string) : Prop := (exists id, jobs !! id = Some j) /\ j_State j = Done /\ promoted (Environment.ID e) j r.
Lemma was_on_recent e j r : was_on e j r <-> j ∈ Recent jobs [Queued; Running; Waiting; Done] /\ promoted (Environment.ID e) j r.
Proof.
  unfold was_on. rewrite elem_of_Recent. split.
  - intros (Hid & Hs & Hp). rewrite Hs. split; [split; [done|set_solver]|done].
  - intros ((Hid & Hs) & Hp). split; [done|]. split; [|done]. destruct Hp as (_ & Hl & _). unfold Live in Hl.
    destruct (contains_spec [Queued; Running; Waiting] (j_State j)) as [|Hn]; [done|]. set_solver.
Qed.
Lemma kept_env e x : seen e -> (forall Y, x ∈ keepBetween (list_to_set (history e) ∪ Y) (Releases.List_ d (Environment.StackID e)) (history e)) -> x ∈ kept.
Proof.
  intros He Hx. unfold keptReleases. apply keep_fold. right. exists (Environment.ID e, history e). split; [apply elem_of_map_to_list; by apply history_facts|].
  intros Y. unfold keep_env. cbn [fst snd]. by rewrite stackOf_lookup.
Qed.
Lemma listed x : x ∈ releases d -> exists y, y ∈ Releases.List_ d (rl_StackID x) /\ rl_ID y = rl_ID x /\ rl_Number y = rl_Number x.
Proof.
  intros Hx. unfold Releases.List_. eexists. split; [|split]; [apply list_elem_of_fmap; exists x; split; [done|]; apply elem_of_sort, elem_of_filterb; split; [done|by apply String.eqb_eq]|done|done].
Qed.
Lemma listed_positive s r : r ∈ Releases.List_ d s -> 0 < rl_Number r.
Proof. unfold Releases.List_. intros (x & -> & [Hx _]%elem_of_sort%elem_of_filterb)%list_elem_of_fmap. cbn. by apply (to_positive d Hd). Qed.

Lemma newest_first_is s x : x ∈ releases d -> rl_StackID x = s -> (forall y, y ∈ releases d -> rl_StackID y = s -> rl_Number y <= rl_Number x) ->
  In (rl_ID x) match Releases.List_ d s with [] => [] | r :: _ => [rl_ID r] end.
Proof.
  intros Hx Ex Hmax. unfold Releases.List_. pose proof (sort_sorted newest_first) as Hs. specialize (Hs ltac:(intros a b; unfold newest_first; lia) ltac:(intros a b c; unfold newest_first; lia) (ListByStack d s)).
  pose proof (elem_of_sort newest_first x (ListByStack d s)) as Hin. assert (x ∈ ListByStack d s) as Hl by (apply elem_of_filterb; split; [done|by apply String.eqb_eq]). apply Hin in Hl. clear Hin.
  assert (forall y, y ∈ sort newest_first (ListByStack d s) -> y ∈ releases d /\ rl_StackID y = s) as Hall by (intros y [Hy Ey%String.eqb_eq]%elem_of_sort%elem_of_filterb; done).
  destruct (sort newest_first (ListByStack d s)) as [|r rs]; [by apply elem_of_nil in Hl|]. cbn. left. destruct (Hall r ltac:(by left)) as [Hr Er]. f_equal.
  apply (nodup_key rkey (releases d)); [apply (to_numbers d Hd)|done|done|]. unfold rkey. rewrite Er, Ex. f_equal. apply StronglySorted_inv in Hs as [_ Hs]. specialize (Hmax r Hr Er).
  apply elem_of_cons in Hl as [->|Hl]; [done|]. pose proof (proj1 (Forall_forall _ _) Hs x Hl) as Hle. unfold newest_first in Hle. cbn in Hle. lia.
Qed.

(** C22. What a sweep keeps of an environment: its last five releases, that is
    its current one and the ones its done promotes went to, five distinct ones
    in all, where the promote of one left out is no newer than the promotes of
    those kept; every release of its stack numbered between two of these, and the one below where
    there is no other.  Besides, every release a live job targets and the
    newest of every stack. *)
Theorem kept_releases_reach :
  (forall e, seen e -> NoDup (history e) /\ (length (history e) <= rollbackDepth)%nat /\ current e `prefix_of` history e /\
     (forall r, r ∈ history e -> r ∈ current e \/ exists j, was_on e j r) /\
     (forall j r, was_on e j r -> r ∈ history e \/ length (history e) = rollbackDepth /\
        forall r', r' ∈ history e -> r' ∈ current e \/ exists j', was_on e j' r' /\ CreatedAt j <= CreatedAt j') /\
     (forall r, r ∈ history e -> r ∈ kept) /\
     (forall a b x, a ∈ releases d -> b ∈ releases d -> x ∈ releases d -> rl_StackID a = Environment.StackID e -> rl_StackID b = Environment.StackID e -> rl_StackID x = Environment.StackID e ->
        rl_ID a ∈ history e -> rl_ID b ∈ history e -> rl_Number a <= rl_Number x <= rl_Number b -> rl_ID x ∈ kept) /\
     (forall a x, a ∈ releases d -> x ∈ releases d -> rl_StackID a = Environment.StackID e -> rl_StackID x = Environment.StackID e -> history e = [rl_ID a] -> rl_Number x = rl_Number a - 1 -> rl_ID x ∈ kept)) /\
  (forall id j r, jobs !! id = Some j -> JobLeaf.ReleaseID j = Some r -> Live (j_State j) = true -> r ∈ kept) /\
  (forall s x, s ∈ stack_ids orgs stacks -> x ∈ releases d -> rl_StackID x = s -> (forall y, y ∈ releases d -> rl_StackID y = s -> rl_Number y <= rl_Number x) -> rl_ID x ∈ kept).
Proof.
  split; [|split].
  - intros e He. destruct (history_facts e He) as (_ & (t & Et & Hin) & Hn & Hl & Hj). split; [done|]. split; [done|]. split; [by exists t|]. split; [|split; [|split; [|split]]].
    + intros r Hr. rewrite Et in Hr. apply elem_of_app in Hr as [Hr|Hr]; [by left|right]. destruct (Hin r Hr) as (j & Hjp). exists j. by apply was_on_recent.
    + setoid_rewrite was_on_recent. intros j r [Hjr Hp]. destruct (Hj j r Hjr Hp) as [|[Hf Hnew]]; [by left|right]. split; [done|]. intros r' Hr'.
      destruct (Hnew r' Hr') as [|(j' & H1 & H2 & H3)]; [by left|right; by exists j'].
    + intros r Hr. apply (kept_env e r He). intros Y. apply keepBetween_mono. set_solver.
    + intros a b x Ha Hb Hx Ea Eb Ex Hah Hbh Hle. destruct (listed a Ha) as (a' & Ha' & Eai & Ean), (listed b Hb) as (b' & Hb' & Ebi & Ebn), (listed x Hx) as (x' & Hx' & Exi & Exn).
      rewrite Ea in Ha'. rewrite Eb in Hb'. rewrite Ex in Hx'. apply (kept_env e _ He). intros Y. rewrite <-Exi. apply keepBetween_spec; [apply listed_positive|done|]. left. exists a', b'.
      rewrite Eai, Ebi. split_and!; (done || lia).
    + intros a x Ha Hx Ea Ex Eh Hnum. destruct (listed a Ha) as (a' & Ha' & Eai & Ean), (listed x Hx) as (x' & Hx' & Exi & Exn). rewrite Ea in Ha'. rewrite Ex in Hx'.
      apply (kept_env e _ He). intros Y. rewrite <-Exi. apply keepBetween_spec; [apply listed_positive|done|]. right. exists a'. rewrite Eai. split; [done|]. split; [done|lia].
  - intros id j r Hid Er El. unfold keptReleases. apply keep_fold. left. unfold after_jobs. apply (jobs_fold_live _ _ j r); [|done|done]. apply elem_of_Recent. split; [by exists id|].
    unfold Live in El. destruct (contains_spec [Queued; Running; Waiting] (j_State j)); [set_solver|done].
  - intros s x Hs Hx Ex Hmax. unfold keptReleases. apply keep_fold. left. unfold after_jobs. apply jobs_fold_mono. cbn [fst]. apply elem_of_list_to_set. unfold newest.
    apply list_elem_of_In, in_flat_map. exists s. split; [by apply list_elem_of_In|]. apply newest_first_is; done.
Qed.
End KeptFacts.

(** ** What the sweep spares *)

Lemma visit_at {W B} (f : W -> W * B * option error) ns ns' bs es : visit f ns = (ns', bs, es) -> forall k n w, ns !! k = Some (n, w) ->
  ns' !! k = Some (n, if reachable n then (f w).1.1 else w).
Proof.
  revert ns' bs es. induction ns as [|[n0 w0] ns IH]; intros ns' bs es; [done|]. cbn [visit]. destruct (visit f ns) as [[ns1 bs1] es1]. specialize (IH _ _ _ eq_refl).
  destruct (reachable n0) eqn:Er; [destruct (f w0) as [[w1 b1] e1] eqn:Ef|]; intros [= <- _ _] [|k] n w; cbn; try (by apply IH); intros [= <- <-]; by rewrite Er, ?Ef.
Qed.
Lemma visit_results {W B} (f : W -> W * B * option error) ns ns' bs es b : visit f ns = (ns', bs, es) -> b ∈ bs <-> exists n w, (n, w) ∈ ns /\ reachable n = true /\ (f w).1.2 = b.
Proof.
  revert ns' bs es. induction ns as [|[n0 w0] ns IH]; intros ns' bs es; cbn [visit]; [intros [= _ <- _]; split; [by intros ?%elem_of_nil|by intros (n & w & ?%elem_of_nil & _)]|]. destruct (visit f ns) as [[ns1 bs1] es1]. specialize (IH _ _ _ eq_refl). setoid_rewrite elem_of_cons.
  destruct (reachable n0) eqn:Er; [destruct (f w0) as [[w1 b1] e1] eqn:Ef|]; intros [= _ <- _].
  - rewrite elem_of_cons, IH. split.
    + intros [->|(n & w & Hin & H)]; [exists n0, w0; split; [by left|by rewrite Ef]|exists n, w; auto].
    + intros (n & w & [[= -> ->]|Hin] & Hr & Hb); [left; by rewrite Ef in Hb|right; by exists n, w].
  - rewrite IH. split; [intros (n & w & Hin & H); exists n, w; auto|]. intros (n & w & [[= -> ->]|Hin] & Hr & Hb); [congruence|by exists n, w].
Qed.
Lemma visit_errors {W B} (f : W -> W * B * option error) ns ns' bs n w : visit f ns = (ns', bs, []) -> (n, w) ∈ ns -> reachable n = true -> (f w).2 = None.
Proof.
  revert ns' bs. induction ns as [|[n0 w0] ns IH]; intros ns' bs; cbn [visit]; [by intros _ ?%elem_of_nil|]. destruct (visit f ns) as [[ns1 bs1] es1].
  destruct (reachable n0) eqn:Er; [destruct (f w0) as [[w1 b1] [e1|]] eqn:Ef; [done|]|]; intros [= _ _ ->] [[= -> ->]|Hin]%elem_of_cons Hr; [by rewrite Ef|by apply (IH _ _ eq_refl)|congruence|by apply (IH _ _ eq_refl)].
Qed.

Section Spared.
Context {W : Type} `{DaemonLaws W} (containers : W -> res (list (string * string))) (boot : option error).
Implicit Types (ns : list (Node * W)).

(** An image of a node that is still there after. *)
Definition survives (ns' : list (Node * W)) (k : nat) (m : DImage) : Prop := exists n w', ns' !! k = Some (n, w') /\ m ∈ present w'.
Lemma eachNode_keeps {B} (f : W -> W * B * option error) ns ns' bs e k n w m : eachNode boot f ns = (ns', bs, e) -> ns !! k = Some (n, w) -> (m ∈ present w -> m ∈ present (f w).1.1) -> m ∈ present w -> survives ns' k m.
Proof.
  unfold eachNode. destruct boot; [intros [= <- _ _] Hk _ Hm; by exists n, w|]. destruct (visit f ns) as [[ns1 bs1] es] eqn:Ev. intros [= <- _ _] Hk Hf Hm. pose proof (visit_at f ns ns1 bs1 es Ev k n w Hk) as Hk'.
  eexists n, _. split; [exact Hk'|]. destruct (reachable n); [by apply Hf|done].
Qed.
Lemma cleanupKeep_ok rels d ns keep pinned_ids running : cleanupKeep containers boot rels d ns = Ok (keep, pinned_ids, running) ->
  pinned_ids = ImageIDs d /\ (forall r s p i, r ∈ rels -> Pins d r !! s = Some p -> pn_ImageID p = Some i -> i ∈ keep) /\
  forall n w cs c, (n, w) ∈ ns -> reachable n = true -> containers w = Ok cs -> c ∈ cs -> c.1 ∈ running.
Proof.
  unfold cleanupKeep, eachNode. destruct boot; [done|]. destruct (visit _ ns) as [[ns1 bs1] es] eqn:Ev. destruct (join_errs es); [done|]. intros [= <- <- <-]. split; [done|]. split.
  - intros r s p i Hr Hp Hi. apply list_elem_of_In, in_flat_map. exists r. split; [by apply list_elem_of_In, elem_of_elements|]. apply list_elem_of_In. unfold pinned_images. apply list_elem_of_omap.
    exists (s, p). split; [by apply elem_of_map_to_list|done].
  - intros n w cs c Hin Hr Hc Hcs. apply list_elem_of_In, in_concat. exists (map fst cs). split; apply list_elem_of_In; [|apply list_elem_of_fmap; by exists c].
    apply (visit_results _ _ _ _ _ _ Ev). exists n, w. split; [done|]. split; [done|]. by rewrite Hc.
Qed.
Lemma prune_node p (w : W) m : m ∈ present w -> di_Tags m <> [] -> ((exists x, x ∈ names m /\ x ∈ Keep p) \/ ~ has_labels built_label m) ->
  m ∈ present ((fun w => let '(w, (removed, freed, e)) := Prune p w in (w, removed, e)) w : W * list string * option error).1.1.
Proof.
  intros Hm Ht Hor. cbv beta. destruct (Prune p w) as [w' [[rm fr] e]] eqn:E. cbn. apply (PruneImages_keeps _ _ _ _ _ m E Hm Ht). by rewrite kept_image_spec.
Qed.
Lemma built_digest now keep extra d im : im ∈ images d -> im_ID im ∈ keep -> im_BuiltAt im <> None ->
  (im_Ref im ∈ Keep (Plan now keep extra d)) /\ (im_Digest im ∈ Keep (Plan now keep extra d)) /\ im ∉ drop_rows (Plan now keep extra d).
Proof.
  intros Hi Hk Hb. rewrite !elem_of_Keep, elem_of_drop. destruct (im_BuiltAt im) as [b|] eqn:Eb; [|done].
  assert (verdict now keep extra im = Some true) as Hv by (unfold verdict, plan_keeps; rewrite Eb; cbn; by destruct (contains_spec keep (im_ID im))).
  split; [right; exists im; auto|]. split; [right; exists im; auto|]. intros [_ E]. congruence.
Qed.

(** C21. The sweep of the images stackr built leaves every release and pin as it
    is.  A build a kept release pins keeps its row and, on every node, its
    image; an image some container of some node was made from stays on every
    node; so does an image stackr did not build.  A row that goes was built
    before the grace, is pinned by no release at all, and its image went from
    some node.  (An image without a tag may go with another.) *)
Theorem sweep_spares_kept now rels d ns d' ns' gone e : tables_ok d -> sweep_built containers boot now rels d ns = (d', ns', gone, e) ->
  releases d' = releases d /\ pinned d' = pinned d /\
  (forall r s p im, r ∈ rels -> Pins d r !! s = Some p -> pn_ImageID p = Some (im_ID im) -> im ∈ images d -> im ∈ images d' /\
     forall k n w m, im_BuiltAt im <> None -> ns !! k = Some (n, w) -> m ∈ present w -> di_Tags m <> [] -> (im_Ref im ∈ names m \/ im_Digest im ∈ names m) -> survives ns' k m) /\
  (forall n0 w0 cs c, (n0, w0) ∈ ns -> reachable n0 = true -> containers w0 = Ok cs -> c ∈ cs ->
     forall k n w m, ns !! k = Some (n, w) -> m ∈ present w -> di_Tags m <> [] -> c.1 ∈ names m -> survives ns' k m) /\
  (forall k n w m, ns !! k = Some (n, w) -> m ∈ present w -> di_Tags m <> [] -> ~ has_labels built_label m -> survives ns' k m) /\
  (forall im, im ∈ images d -> im ∉ images d' -> (exists b, im_BuiltAt im = Some b /\ b <= now - Grace) /\ (im_ID im ∉ ImageIDs d) /\
     exists n w m, (n, w) ∈ ns /\ m ∈ present w /\ has_labels built_label m /\ di_ID m = im_Digest im).
Proof.
  intros Hd. unfold sweep_built. destruct (cleanupKeep containers boot rels d ns) as [[[keep ids] running]|ek] eqn:Ek.
  2:{ intros [= <- <- _ _]. assert (forall k n w m, ns !! k = Some (n, w) -> m ∈ present w -> survives ns k m) as Hs by (intros k n w m Hk Hm; by exists n, w). split_and!; try done; intros; try (by eapply Hs); split; [done|intros; by eapply Hs]. }
  apply cleanupKeep_ok in Ek as (-> & Hkeep & Hrun). set (p := Plan now keep running d).
  destruct (eachNode boot _ ns) as [[ns1 gs] e1] eqn:Ee. destruct (Settle p (ImageIDs d) (concat gs) d) as [d1 e2] eqn:Es. intros [= <- <- _ _].
  destruct (settle_ok _ _ _ _ _ _ (fun i Hi => Hi) Es) as (H1 & H2 & H3 & H4). split; [done|]. split; [done|].
  assert (forall k n w m, ns !! k = Some (n, w) -> m ∈ present w -> di_Tags m <> [] -> ((exists x, x ∈ names m /\ x ∈ Keep p) \/ ~ has_labels built_label m) -> survives ns1 k m) as Hsv.
  { intros k n w m Hk Hm Ht Hor. apply (eachNode_keeps _ _ _ _ _ _ _ _ _ Ee Hk); [|done]. intros _. by apply (prune_node p w m). }
  split; [|split; [|split]].
  - intros r s q im Hr Hp Hq Him. pose proof (Hkeep r s q _ Hr Hp Hq) as Hin. split.
    + destruct (decide (im ∈ images d1)) as [|Hn]; [done|]. exfalso. destruct (H4 im Him Hn) as (_ & _ & _ & Hnp & _). apply Hnp, elem_of_ImageIDs.
      apply Pins_some in Hp; [|by apply to_slugs]. destruct Hp as (x & Hx & _ & _ & <-). by exists x.
    + intros k n w m Hb Hk Hm Ht Hor. apply (Hsv k n w m); [done..|]. left. destruct (built_digest now keep running d im Him Hin Hb) as (Hr1 & Hr2 & _).
      destruct Hor as [Ho|Ho]; eexists; by split.
  - intros n0 w0 cs c Hin Hre Hc Hcs k n w m Hk Hm Ht Hcm. apply (Hsv k n w m); [done..|]. left. exists c.1. split; [done|]. apply elem_of_Keep. left. by apply (Hrun n0 w0 cs c).
  - intros k n w m Hk Hm Ht Hno. apply (Hsv k n w m); auto.
  - intros im Him Hn. destruct (H4 im Him Hn) as (j & Hj & Eid & Hnp & Hgone). apply elem_of_drop in Hj as [Hj Hv].
    assert (j = im) as -> by by apply (nodup_key im_ID (images d)); [apply (to_images d Hd)|..]. split; [|split; [done|]].
    + unfold verdict, plan_keeps in Hv. destruct (im_BuiltAt im) as [b|]; [|done]. cbn in Hv. exists b. split; [done|]. injection Hv as Hv. apply orb_false_iff in Hv as [_ Hv]. lia.
    + apply list_elem_of_In, in_concat in Hgone as (g & Hg%list_elem_of_In & Hx%list_elem_of_In). unfold eachNode in Ee. destruct boot; [injection Ee as _ <- _; by apply elem_of_nil in Hg|].
      destruct (visit _ ns) as [[ns2 bs2] es] eqn:Ev. injection Ee as _ -> _. apply (visit_results _ _ _ _ _ _ Ev) in Hg as (n & w & Hin & _ & Eg).
      destruct (Prune p w) as [w' [[rm fr] ep]] eqn:Ep. cbn in Eg. subst g. destruct (PruneImages_removed _ _ _ _ _ _ _ Ep _ Hx) as (m & Hm & Hl & _ & Em). by exists n, w, m.
Qed.
End Spared.

Section Others.
Context {W : Type} `{DaemonLaws W} (containers : W -> res (list (string * string))) (boot : option error).
Implicit Types (ns : list (Node * W)).

Lemma drop_tags_keep refs st (m : DImage) : (forall r, r ∈ refs -> r ∉ names m) -> di_Tags m <> [] -> m ∈ present st.1 -> m ∈ present (fold_left drop_tag refs st).1.
Proof.
  revert st. induction refs as [|r refs IH]; intros st Hr Ht Hm; [done|]. cbn [fold_left]. apply IH; [intros x Hx; apply Hr; by right|done|]. unfold drop_tag.
  pose proof (remove_law st.1 r m Hm (Hr r ltac:(by left)) Ht) as Hm'. destruct (RemoveImage r st.1) as [w e]. by destruct e.
Qed.
Lemma drop_rows_ok stale d : (forall r, r ∈ stale -> im_ID r ∉ ImageIDs d) -> let d' := fold_left drop_row stale d in
  releases d' = releases d /\ pinned d' = pinned d /\ forall i, i ∈ images d -> i ∈ images d' \/ exists r, r ∈ stale /\ im_ID r = im_ID i.
Proof.
  revert d. induction stale as [|r stale IH]; intros d Hn d'; [split; [done|]; split; [done|by left]|]. unfold d'. cbn [fold_left]. clear d'. assert (drop_row d r = match i_delete (im_ID r) d with Ok d => d | Err _ => d end) as -> by done. unfold i_delete.
  destruct (r_delete (im_ID r) (images d)) as [t|] eqn:E; cbn.
  - rewrite (unpin_none (im_ID r) (pinned d)) by (intros p Hp Ep; apply (Hn r ltac:(by left)), elem_of_ImageIDs; by exists p). apply r_delete_ok in E as [_ Hin].
    destruct (IH (MkTables (releases d) (pinned d) t (stack_rows d))) as (H1 & H2 & H3); [intros x Hx; apply Hn; by right|]. cbn [releases pinned images] in *. split; [done|]. split; [done|]. intros i Hi.
    destruct (decide (im_ID i = im_ID r)) as [Ei|Ei]; [right; exists r; split; [by left|done]|]. destruct (H3 i) as [H4|(x & Hx & Ex)]; [apply Hin; by split|by left|right; exists x; split; [by right|done]].
  - destruct (IH d) as (H1 & H2 & H3); [intros x Hx; apply Hn; by right|]. split; [done|]. split; [done|]. intros i Hi. destruct (H3 i Hi) as [H4|(x & Hx & Ex)]; [by left|right; exists x; split; [by right|done]].
Qed.
(** The sweep of pulled images takes the rows no tile names and no pin refers
    to, and their images; pins stay. *)
Theorem prunePulledImages_spares refs d ns d' ns' : tables_ok d -> prunePulledImages boot refs d ns = (d', ns') ->
  releases d' = releases d /\ pinned d' = pinned d /\
  (forall im, im ∈ images d -> (im_BuiltAt im <> None \/ im_Ref im ∈ refs \/ im_ID im ∈ ImageIDs d) -> im ∈ images d') /\
  (forall k n w m, ns !! k = Some (n, w) -> m ∈ present w -> di_Tags m <> [] -> (forall x, x ∈ names m -> x ∉ map im_Ref (stale_rows refs (ImageIDs d) d)) -> survives ns' k m).
Proof.
  intros Hd. unfold prunePulledImages. assert (forall r, r ∈ stale_rows refs (ImageIDs d) d -> r ∈ images d /\ im_BuiltAt r = None /\ (im_Ref r ∉ refs) /\ im_ID r ∉ ImageIDs d) as Hst.
  { intros r [Hr Hb]%elem_of_filterb. destruct (im_BuiltAt r); [done|]. destruct (contains_spec refs (im_Ref r)); [done|]. by destruct (contains_spec (ImageIDs d) (im_ID r)). }
  destruct (stale_rows refs (ImageIDs d) d) as [|r0 rs] eqn:Est; [intros [= <- <-]; split_and!; try done; intros; by eexists _, _|]. rewrite <-Est in Hst |- *. clear Est.
  destruct (eachNode boot _ ns) as [[ns1 es] e] eqn:Ee. intros Heq.
  assert (releases d' = releases d /\ pinned d' = pinned d /\ forall i, i ∈ images d -> i ∈ images d' \/ exists r, r ∈ stale_rows refs (ImageIDs d) d /\ im_ID r = im_ID i) as (H1 & H2 & H3).
  { destruct (concat es); injection Heq as <- _; [apply drop_rows_ok; intros r Hr; by apply Hst|]. split; [done|]. split; [done|by left]. }
  assert (ns' = ns1) as -> by by destruct (concat es); injection Heq as _ <-. split; [done|]. split; [done|]. split.
  - intros im Him Hor. destruct (H3 im Him) as [|(r & Hr & Er)]; [done|]. exfalso. destruct (Hst r Hr) as (Hri & Hb & Hrf & Hp). assert (r = im) as -> by by apply (nodup_key im_ID (images d)); [apply (to_images d Hd)|..].
    destruct Hor as [?|[?|?]]; done.
  - intros k n w m Hk Hm Ht Hx. apply (eachNode_keeps _ _ _ _ _ _ _ _ _ _ Ee Hk); [|done]. intros _. unfold pulled_on. destruct (ListImages ∅ w) as [ims|]; [|done]. apply drop_tags_keep; [|done|done].
    intros r Hr Hrm. apply (Hx r Hrm). apply list_elem_of_In, in_flat_map in Hr as (i & Hi%list_elem_of_In & Hin%list_elem_of_In). apply list_elem_of_fmap in Hin as (_ & -> & _). apply list_elem_of_fmap. by exists i.
Qed.

Lemma untag_mine_keep ts st (m : DImage) : (forall t, t ∈ ts -> t ∉ names m) -> di_Tags m <> [] -> m ∈ present st.1 -> m ∈ present (fold_left untag_mine ts st).1.
Proof.
  revert st. induction ts as [|t ts IH]; intros st Hr Ht Hm; [done|]. cbn [fold_left]. apply IH; [intros x Hx; apply Hr; by right|done|]. unfold untag_mine.
  pose proof (remove_law st.1 t m Hm (Hr t ltac:(by left)) Ht) as Hm'. destruct (RemoveImage t st.1) as [w [e|]]; [|done]. by destruct (is_gone e).
Qed.
(** No image of stackr's own that a container was made from or that is to be
    kept goes, nor any image without a stackr name. *)
Theorem pruneStackrImages_spares keep (w w' : W) r cs m : pruneStackrImages containers keep w = (w', r) -> containers w = Ok cs -> m ∈ present w -> di_Tags m <> [] ->
  spared (flat_map (fun c => [c.1; c.2]) cs) keep m = true -> m ∈ present w'.
Proof.
  unfold pruneStackrImages. intros Hp Hc Hm Ht Hs. rewrite Hc in Hp. destruct (ListImages ∅ w) as [ims|] eqn:El; [|by injection Hp as <- _]. pose proof (Images.list_law w ∅ ims El) as Hl.
  destruct (prune_stackr _ keep ims w 0 0 []) as [w1 [[n size] failed]] eqn:E. injection Hp as <- _. revert E.
  assert (forall im, im ∈ ims -> spared (flat_map (fun c => [c.1; c.2]) cs) keep im = false -> forall t, t ∈ mine im -> t ∉ names m) as Hn.
  { intros im Him Hsp t Ht' Hin. apply Hl in Him as [Him _]. assert (im = m) as ->; [|congruence]. apply (name_law w im m t); [done|done| |done]. apply elem_of_filterb in Ht' as [Ht' _]. by right. }
  clear Hl El Hc Hs. revert w Hm Hn. generalize 0%nat, 0, (@nil error). induction ims as [|im ims IH]; intros n0 z0 f0 w Hm Hn; cbn [prune_stackr]; [by intros [= <- _ _ _]|].
  assert (forall x, x ∈ ims -> spared (flat_map (fun c => [c.1; c.2]) cs) keep x = false -> forall t, t ∈ mine x -> t ∉ names m) as Hn' by (intros x Hx; apply Hn; by right).
  destruct (spared _ keep im) eqn:Es; [by apply IH|]. pose proof (untag_mine_keep (mine im) (w, (0%nat, [])) m (Hn im ltac:(by left) Es) Ht Hm) as Hk.
  destruct (fold_left untag_mine (mine im) (w, (0%nat, []))) as [w2 [gone fs]]. cbn in Hk. destruct (_ =? _)%nat; by apply IH.
Qed.
End Others.

(** ** A daemon *)

Definition old_build : DImage := MkDImage "sha256:0" ["acme/web:c0"] built_label 10.
Definition pinned_build : DImage := MkDImage "sha256:1" ["acme/web:c1"] built_label 10.
Definition pulled : DImage := MkDImage "sha256:2" ["nginx:old"] ∅ 10.
(** Which of the three a node has. *)
Definition SimW : Type := bool * bool * bool.
Definition sim_present (w : SimW) : list DImage :=
  (if w.1.1 then [old_build] else []) ++ (if w.1.2 then [pinned_build] else []) ++ (if w.2 then [pulled] else []).
Definition carries (ls : gmap string string) (im : DImage) : bool := forallb (fun kv => bool_decide (di_Labels im !! kv.1 = Some kv.2)) (map_to_list ls).
Definition sim_remove (ref : string) (w : SimW) : SimW * option error :=
  if negb (existsb (fun im => contains (names im) ref) (sim_present w)) then (w, Some (New "docker.ErrNotFound"))
  else ((w.1.1 && negb (contains (names old_build) ref), w.1.2 && negb (contains (names pinned_build) ref), w.2 && negb (contains (names pulled) ref)), None).
#[export] Instance sim_daemon : Daemon SimW := {
  present := sim_present;
  ListImages ls w := Ok (List.filter (carries ls) (sim_present w));
  RemoveImage := sim_remove;
  Pull _ _ w := (w, None);
  LocalDigest _ _ := Ok "";
  IsConflictErr _ := false }.
Lemma carries_spec ls im : carries ls im = true <-> has_labels ls im.
Proof.
  unfold carries, has_labels. rewrite forallb_forall. split.
  - intros Hf k v Hk. apply (bool_decide_eq_true_1 (di_Labels im !! k = Some v)). apply (Hf (k, v)). by apply list_elem_of_In, elem_of_map_to_list.
  - intros Hh [k v] Hin%list_elem_of_In%elem_of_map_to_list. apply bool_decide_eq_true_2. by apply Hh.
Qed.
Lemma elem_of_sim w m : m ∈ sim_present w <-> (m = old_build /\ w.1.1 = true) \/ (m = pinned_build /\ w.1.2 = true) \/ (m = pulled /\ w.2 = true).
Proof. destruct w as [[[] []] []]; unfold sim_present; cbn; set_solver. Qed.
#[export] Instance sim_laws : DaemonLaws SimW.
Proof.
  constructor.
  - intros w ls l [= <-] im. by rewrite elem_of_filterb, carries_spec.
  - intros w x y n Hx%elem_of_sim Hy%elem_of_sim Hnx Hny. revert Hnx Hny. destruct Hx as [[-> _]|[[-> _]|[-> _]]], Hy as [[-> _]|[[-> _]|[-> _]]]; unfold names; cbn [di_ID di_Tags old_build pinned_build pulled]; set_unfold; intuition congruence.
  - intros w ref im Him Hr _. change (im ∈ sim_present (sim_remove ref w).1). change (im ∈ sim_present w) in Him. unfold sim_remove. destruct (negb _); [done|]. apply elem_of_sim. apply elem_of_sim in Him. cbn [fst snd].
    destruct Him as [[-> E]|[[-> E]|[-> E]]]; [left|right; left|right; right]; (split; [done|]); rewrite E; cbn [andb]; apply negb_true_iff;
      match goal with |- contains ?l ref = false => by destruct (contains_spec l ref) end.
Qed.

Definition ex_row (id ref digest : string) (built : option Z) : Image := MkImage id ref digest built "" "" "" None 1.
Definition ex_tables : Tables :=
  MkTables [MkRelease "r1" "s1" 1 1 "push" "" ""; MkRelease "r2" "s1" 2 2 "push" "" ""]
    [MkReleaseTile "p1" "r2" "web" "acme/web" "main" "c1" (Some "i1") ""; MkReleaseTile "p2" "r2" "proxy" "nginx:old" "" "" None "sha256:2"]
    [ex_row "i0" "acme/web:c0" "sha256:0" (Some 1); ex_row "i1" "acme/web:c1" "sha256:1" (Some 2); ex_row "i2" "nginx:old" "" None] ["s1"].
Lemma ex_tables_ok : tables_ok ex_tables.
Proof.
  constructor; cbn.
  - intros r. rewrite !elem_of_cons, elem_of_nil. intros [->|[->|[]]]; by vm_compute.
  - by apply (bool_decide_unpack _).
  - by apply (bool_decide_unpack _).
  - by apply (bool_decide_unpack _).
  - by apply (bool_decide_unpack _).
  - intros p. rewrite !elem_of_cons, elem_of_nil. intros [->|[->|[]]]; set_solver.
  - by apply (bool_decide_unpack _).
  - by apply (bool_decide_unpack _).
  - intros p i. rewrite !elem_of_cons, elem_of_nil. intros [->|[->|[]]]; [intros [= <-]; set_solver|done].
  - intros r. rewrite !elem_of_cons, elem_of_nil. intros [->|[->|[]]]; set_solver.
Qed.
Definition ex_node : Node := MkNode "n0" "controller" "controller" Controller "" "controller" "" "10.207.255.6" StatusOnline "" "" 1.
Definition ex_ns : list (Node * SimW) := [(ex_node, (true, true, true))].
Lemma sweep_spares_kept_witness : let r := sweep_built (fun _ => Ok []) None (10 * Grace) {["r2"]} ex_tables ex_ns in
  r.1.2 = ["sha256:0"] /\ map im_ID (images r.1.1.1) = ["i1"; "i2"] /\ survives r.1.1.2 0 pinned_build.
Proof.
  cbv zeta. destruct (sweep_built (fun _ => Ok []) None (10 * Grace) {["r2"]} ex_tables ex_ns) as [[[d' ns'] gone] e] eqn:E.
  destruct (sweep_spares_kept (fun _ => Ok []) None (10 * Grace) {["r2"]} ex_tables ex_ns d' ns' gone e ex_tables_ok E) as (_ & _ & Hk & _).
  assert (gone = ["sha256:0"] /\ map im_ID (images d') = ["i1"; "i2"]) as [-> Hi] by (revert E; vm_compute; by intros [= <- <- <- <-]).
  split; [done|]. split; [exact Hi|]. refine (proj2 (Hk "r2" "web" (MkPin "web" "acme/web" "main" "c1" (Some "i1") "") (ex_row "i1" "acme/web:c1" "sha256:1" (Some 2)) _ _ eq_refl _) 0%nat ex_node (true, true, true) pinned_build _ eq_refl _ _ _).
  - set_solver.
  - reflexivity.
  - by right; left.
  - done.
  - by right; left.
  - done.
  - left. by right; left.
Defined.
(** A release that pins a pulled image by its digest does not keep it: its pin
    names no row. *)
Theorem pulled_pin_is_no_shield : exists p, Pins ex_tables "r2" !! "proxy" = Some p /\ pn_Digest p = di_ID pulled /\
  let r := prunePulledImages None [] ex_tables ex_ns in map snd r.2 = [(true, true, false)] /\ map im_ID (images r.1) = ["i0"; "i1"].
Proof. exists (MkPin "proxy" "nginx:old" "" "" None "sha256:2"). by vm_compute. Qed.

Definition ex_env : Environment := MkEnv "e1" "s1" "prod" "prod" Static None "{}" "" 0 "" (Some "r2") "" "" false 1 false "" "" "".
Definition ex_stack : Stack := MkStack "s1" "o1" "Shop" "shop" "" "{}" "" "" "" "" 1 None.
Lemma kept_releases_reach_witness : "r1" ∈ keptReleases ["o1"] [ex_stack] ({["e1" := ex_env]} : gmap string Environment) ex_tables ∅ (fun _ => None).
Proof.
  assert (table_ok (tab ({["e1" := ex_env]} : gmap string Environment))) as Ht.
  { split; intros id r; cbn; rewrite lookup_singleton_Some; intros [<- <-]; [done|]. intros (i & o & Ho & Hne & _). apply lookup_singleton_Some in Ho as [<- <-]. by destruct Hne. }
  destruct (kept_releases_reach ["o1"] [ex_stack] ({["e1" := ex_env]} : gmap string Environment) ex_tables ∅ (fun _ => None) ex_tables_ok Ht) as (He & _).
  assert (seen ["o1"] [ex_stack] ({["e1" := ex_env]} : gmap string Environment) ex_env) as Hs by (split; [reflexivity|by left]).
  destruct (He ex_env Hs) as (_ & _ & _ & _ & _ & _ & _ & Hb).
  refine (Hb (MkRelease "r2" "s1" 2 2 "push" "" "") (MkRelease "r1" "s1" 1 1 "push" "" "") _ _ eq_refl eq_refl _ _).
  - by right; left.
  - by left.
  - by vm_compute.
  - reflexivity.
Defined.
