(* ===== verification/Tiles.v ===== *)
(** * A tile's containers ([service/internal/leaf/tile/world.go], [forward.go])

    The leaf over the [World] of [Docker]: replicas, the pause container that
    holds the tile's virtual address, the container verbs and their guard. *)
From S2P Require Import Prelude GoStrings Errs Outside TileRow Docker.

Definition LabelTile : string := "stackr.tile".
Definition LabelRole : string := "stackr.role".
Definition LabelSystem : string := "stackr.system".
Definition LabelManaged : string := "stackr.managed".
Definition PauseImage : string := "localhost:5000/stackr.system/pause:3.10".

Record Gate := MkGate { g_Poll : Z; g_Grace : Z; g_Deadline : Z }.
Definition Second : Z := 10 ^ 9.
Definition DefaultGate : Gate := MkGate Second (10 * Second) (60 * Second).

(** The leaf: which callbacks are set, and the gate. *)
Record Leaf := MkLeaf { l_Node : bool; l_Early : bool; l_Pin : bool; l_Gate : Gate }.

(** [for ... { if err := f(x); err != nil { return err } }]. *)
Fixpoint each {A} (f : A -> M unit) (xs : list A) : M unit :=
  match xs with [] => ret tt | x :: xs => _ <~ f x ;; each f xs end.
(** A loop that gathers what each turn gives. *)
Fixpoint gather {A B} (f : A -> M (list B)) (xs : list A) : M (list B) :=
  match xs with [] => ret [] | x :: xs => ys <~ f x ;; zs <~ gather f xs ;; ret (ys ++ zs) end.
(** [_ = f(x)] for each. *)
Definition each_quiet {A} (f : A -> event) (W : World) (xs : list A) (st : St) : St :=
  fold_left (fun st x => quiet W (f x) st) xs st.

(** [store.Tile{ID: id}]. *)
Definition tile_of (id : string) : Tile :=
  MkTile id "" "" "" "" "" "" "" "" "" "" "" "" "" "" "" 0 "" "" "" "" 0 0 0 0 0 0 "" 0
    false "" "" false "" "" "" "" 0 "" "" "" "" false 0 None None None [] 0 0.

Section Leaf.
Context (W : World) (l : Leaf).

(** [at], [atTile]. *)
Definition at_env (ctx : Ctx) (envID : string) : M Ctx :=
  if l_Node l then id <~ reads W (ENode envID) (fun h => w_node W h envID) ;; ret (WithNode ctx id)
  else ret ctx.
Definition atTile (ctx : Ctx) (tileID : string) : M Ctx :=
  if String.eqb tileID "" || negb (l_Node l) then ret ctx
  else t <~ reads W (ETile tileID) (fun h => w_tile W h tileID) ;; at_env ctx (t_EnvironmentID t).

Definition early (ctx : Ctx) (t : Tile) (id : string) (on : bool) (st : St) : St :=
  if l_Early l then log_event (EEarly ctx t id on) true st else st.

(** ** Starting a replica *)

Definition replica (t : Tile) (s : ContainerSpec) : ContainerSpec :=
  with_Labels s (<[LabelRole := "replica"]> (<[LabelTile := t_ID t]> (s_Labels s))).

Definition gate (ctx : Ctx) (id : string) (startPeriod : Z) : M unit :=
  Healthy W ctx id (g_Poll (l_Gate l)) (g_Grace (l_Gate l)) (g_Deadline (l_Gate l) + startPeriod).

(** The text after the last newline, cut to 200 bytes. *)
Definition last_line (out : string) : string := default out (last (split "010" out)).
Definition lastWords (ctx : Ctx) (id : string) (e : error) (st : St) : St * error :=
  match reads W (ELogs ctx id 20) (fun h => w_logs W h id) st with
  | (st, Err _) => (st, e)
  | (st, Ok out) =>
      let out := trim_space out in
      if String.eqb out "" then (st, e)
      else (st, Wrap (Sprintf "%s (%w)" [AStr (substring 0 (min (String.length (last_line out)) 200) (last_line out))]) e)
  end.

Definition gated (ctx : Ctx) (t : Tile) (id : string) : M unit := fun st =>
  let st := early ctx t id true st in
  match gate ctx id (t_HealthcheckStartPeriodS t * Second) st with
  | (st, Ok _) => (st, Ok tt)
  | (st, Err e) =>
      let '(st, e) := match ctx_Err W ctx st with None => lastWords ctx id e st | Some _ => (st, e) end in
      let st := early (WithoutCancel ctx) t id false st in
      (quiet W (EStopRemove (WithoutCancel ctx) id) st, Err (Wrap (Sprintf "%s: %w" [AStr (t_Slug t)]) e))
  end.

Definition Start (ctx : Ctx) (t : Tile) (s : ContainerSpec) : M string :=
  ctx <~ at_env ctx (t_EnvironmentID t) ;;
  id <~ Run W ctx (replica t s) ;;
  _ <~ gated ctx t id ;;
  ret id.

Definition CreateReplica (ctx : Ctx) (t : Tile) (s : ContainerSpec) : M string :=
  ctx <~ at_env ctx (t_EnvironmentID t) ;;
  Create W ctx (replica t s).

Definition Launch (ctx : Ctx) (t : Tile) (id : string) : M unit :=
  ctx <~ at_env ctx (t_EnvironmentID t) ;;
  fun st => match call W (EStart ctx id) st with
    | (st, Err e) => (quiet W (EStopRemove (WithoutCancel ctx) id) st, Err (Wrap (Sprintf "%s: %w" [AStr (t_Slug t)]) e))
    | (st, Ok _) => gated ctx t id st
    end.

(** ** Reads *)

Definition tile_role (t : Tile) (role : string) : gmap string string := <[LabelRole := role]> {[LabelTile := t_ID t]}.

Definition Replicas (ctx : Ctx) (t : Tile) : M (list Container) :=
  ctx <~ at_env ctx (t_EnvironmentID t) ;;
  ListC W ctx (tile_role t "replica").

Definition Mounts (ctx : Ctx) (t : Tile) : M (list string) :=
  ctx <~ at_env ctx (t_EnvironmentID t) ;;
  cs <~ Replicas ctx t ;;
  gather (fun c => d <~ Inspect W ctx (k_ID c) ;; ret (dt_Mounts d)) cs.

(** The map of [Addresses]; a later container of the same address wins. *)
Definition address_map (cs : list Container) : gmap string string :=
  fold_left (fun out c =>
    let id := at_key (k_Labels c) LabelTile in
    if negb (String.eqb id "") && String.eqb (k_State c) "running"
    then fold_left (fun out ip => <[ip := id]> out) (k_IPs c) out else out) cs ∅.
Definition Addresses (ctx : Ctx) : M (gmap string string) :=
  ctx <~ at_env ctx "" ;;
  cs <~ ListC W ctx {[LabelManaged := "true"]} ;;
  ret (address_map cs).

(** Container truth: none, running, stopped, degraded, unhealthy. *)
Definition is_running (c : Container) : bool := String.eqb (k_State c) "running".
Definition state_word (cs : list Container) : string :=
  if existsb (fun c => String.eqb (k_Health c) "unhealthy") cs then "unhealthy"
  else let running := length (List.filter is_running cs) in
  if Nat.eqb (length cs) 0 then "none"
  else if Nat.eqb running (length cs) then "running"
  else if Nat.eqb running 0 then "stopped"
  else "degraded".
Definition State (ctx : Ctx) (t : Tile) : M (string * list Container) :=
  cs <~ Replicas ctx t ;; ret (state_word cs, cs).

(** ** The virtual address *)

Definition pause_spec (t : Tile) (network pin : string) : ContainerSpec :=
  with_Networks (with_Labels (with_Restart (with_Name zero_spec ("stackr-pause-" +:+ t_ID t)) "always") (tile_role t "pause"))
    [MkNetAttach network [t_Slug t] pin].
Definition with_Image (s : ContainerSpec) (image : string) : ContainerSpec :=
  let '(MkSpec x _ c e l v m p a n h ph ca eh cd cpu mem pids u shm pr d r hc hi ht hr hs) := s in
  MkSpec x image c e l v m p a n h ph ca eh cd cpu mem pids u shm pr d r hc hi ht hr hs.

(** A new pause container, at its pinned address or where Docker puts it. *)
Definition run_pause (ctx : Ctx) (t : Tile) (network : string) : M string :=
  pin <~ (if l_Pin l then reads W (EPin t network) (fun h => w_pin W h t network) else ret "") ;;
  fun st => match Run W ctx (with_Image (pause_spec t network pin) PauseImage) st with
    | (st, Err e) =>
        if String.eqb pin "" then (st, Err e)
        else Run W ctx (with_Image (pause_spec t network "") PauseImage) st
    | ok => ok
    end.

Definition Pause (ctx : Ctx) (t : Tile) (network : string) : M string :=
  ctx <~ at_env ctx (t_EnvironmentID t) ;;
  cs <~ ListC W ctx (tile_role t "pause") ;;
  id <~ match cs with c :: _ => ret (k_ID c) | [] => run_pause ctx t network end ;;
  d <~ Inspect W ctx id ;;
  if String.eqb (at_key (dt_Networks d) network) "" then
    fail (Errorf (Sprintf "%s: the pause container has no address on %s" [AStr (t_Slug t); AStr network]))
  else ret (at_key (dt_Networks d) network).

(** The address a replica is reached at; none when it does not run. *)
Definition reached (network : string) (d : Detail) : list string :=
  if dt_Running d && negb (String.eqb (at_key (dt_Networks d) network) "") then [at_key (dt_Networks d) network] else [].
Definition set_vip (ctx : Ctx) (vip : string) (ips lan : list string) : M unit :=
  match ips with [] => call W (EVipRemove ctx vip) | _ => call W (EVipSet ctx vip ips lan) end.

Definition Route (ctx : Ctx) (t : Tile) (network : string) (lan : list string) : M unit :=
  ctx <~ at_env ctx (t_EnvironmentID t) ;;
  ip <~ Pause ctx t network ;;
  cs <~ Replicas ctx t ;;
  ips <~ gather (fun c => d <~ Inspect W ctx (k_ID c) ;; ret (reached network d)) cs ;;
  set_vip ctx ip ips lan.

(** [RouteFrom]: the same from rows that carry their networks. *)
Definition from_row (t : Tile) (network : string) (acc : string * list string) (c : Container) : string * list string :=
  if negb (String.eqb (at_key (k_Labels c) LabelTile) (t_ID t)) then acc
  else if String.eqb (at_key (k_Labels c) LabelRole) "pause" then (at_key (k_Nets c) network, snd acc)
  else if String.eqb (at_key (k_Labels c) LabelRole) "replica"
          && (is_running c && negb (String.eqb (at_key (k_Nets c) network) "")) then
    (fst acc, snd acc ++ [at_key (k_Nets c) network])
  else acc.
Definition RouteFrom (ctx : Ctx) (t : Tile) (network : string) (lan : list string) (rows : list Container) : M unit :=
  let '(v, ips) := fold_left (from_row t network) rows ("", []) in
  if String.eqb v "" then
    fail (Errorf (Sprintf "%s: the pause container has no address on %s" [AStr (t_Slug t); AStr network]))
  else set_vip ctx v (sort_strings ips) lan.

(** ** Taking containers away *)

Definition remove (ctx : Ctx) (network : string) (c : Container) : M unit :=
  _ <~ (if String.eqb (at_key (k_Labels c) LabelRole) "pause" then fun st =>
          match Inspect W ctx (k_ID c) st with
          | (st, Err _) => (st, Ok tt)
          | (st, Ok d) =>
              if String.eqb (at_key (dt_Networks d) network) "" then (st, Ok tt)
              else call W (EVipRemove ctx (at_key (dt_Networks d) network)) st
          end
        else ret tt) ;;
  call W (EStopRemove ctx (k_ID c)).

Definition Teardown (ctx : Ctx) (t : Tile) (network : string) : M unit :=
  ctx <~ at_env ctx (t_EnvironmentID t) ;;
  cs <~ ListC W ctx {[LabelTile := t_ID t]} ;;
  _ <~ each (remove ctx network) cs ;;
  fun st => (quiet W (EPruneFiles ctx (t_ID t)) st, Ok tt).

Definition DropPause (ctx : Ctx) (t : Tile) (network : string) : M unit :=
  ctx <~ at_env ctx (t_EnvironmentID t) ;;
  cs <~ ListC W ctx (tile_role t "pause") ;;
  each (remove ctx network) cs.

(** ** The container verbs *)

Definition errSystem : error := New "errSystem".
Definition is_system : error -> bool := is_sentinel "errSystem".
Definition zero_container : Container := MkContainer "" "" "" "" "" "" ∅ [] ∅ false.

Fixpoint find_in (cs : list Container) (tileID id : string) : Container * option error :=
  match cs with
  | [] => (zero_container, Some ErrNotFound)
  | c :: cs =>
      if negb (String.eqb (k_ID c) id) && negb (String.eqb (k_Name c) id) then find_in cs tileID id
      else if negb (String.eqb (at_key (k_Labels c) LabelSystem) "") then (c, Some errSystem)
      else if negb (String.eqb tileID "") && negb (String.eqb (at_key (k_Labels c) LabelTile) tileID) then (c, Some ErrNotFound)
      else (c, None)
  end.
Definition find (ctx : Ctx) (tileID id : string) (st : St) : St * (Container * option error) :=
  match ListC W ctx ∅ st with
  | (st, Err _) => (st, (zero_container, Some errSystem))
  | (st, Ok cs) => (st, find_in cs tileID id)
  end.

Definition systemNames : string := "the panel and proxy containers".
Definition guard (ctx : Ctx) (tileID id verb : string) : M unit := fun st =>
  let '(st, (_, e)) := find ctx tileID id st in
  match e with
  | None => (st, Ok tt)
  | Some e => (st, Err (if is_system e then Conflictf "%s cannot be %s from here" [AStr systemNames; AStr verb] else e))
  end.

Definition Stop (ctx : Ctx) (tileID id : string) : M unit :=
  ctx <~ atTile ctx tileID ;; _ <~ guard ctx tileID id "stopped" ;; call W (EStop ctx id).
Definition StartContainer (ctx : Ctx) (tileID id : string) : M unit :=
  ctx <~ atTile ctx tileID ;; _ <~ guard ctx tileID id "started" ;; call W (EStart ctx id).
Definition Restart (ctx : Ctx) (tileID id : string) : M unit :=
  ctx <~ atTile ctx tileID ;; _ <~ guard ctx tileID id "stopped" ;; call W (ERestart ctx id).
Definition Exec (ctx : Ctx) (tileID id : string) (cmd : list string) : M string :=
  ctx <~ atTile ctx tileID ;; _ <~ guard ctx tileID id "opened a terminal into" ;; reads W (EExec ctx id cmd) (fun h => w_exec W h id).
Definition Terminal (ctx : Ctx) (tileID id : string) (cmd : list string) : M unit :=
  ctx <~ atTile ctx tileID ;; _ <~ guard ctx tileID id "opened a terminal into" ;; call W (EExecStream ctx id cmd).
(** [Follow] and [Logs] only look: any container of the tile. *)
Definition found (ctx : Ctx) (tileID id : string) : M unit := fun st =>
  let '(st, (_, e)) := find ctx tileID id st in (st, match e with None => Ok tt | Some e => Err e end).
Definition Follow (ctx : Ctx) (tileID id : string) (tail : Z) : M unit :=
  ctx <~ atTile ctx tileID ;; _ <~ found ctx tileID id ;; call W (EFollow ctx id tail).
Definition Logs (ctx : Ctx) (tileID id : string) (tail : Z) : M string :=
  ctx <~ atTile ctx tileID ;; _ <~ found ctx tileID id ;; reads W (ELogs ctx id tail) (fun h => w_logs W h id).

Definition Remove (ctx : Ctx) (tileID id : string) : M unit :=
  ctx <~ atTile ctx tileID ;;
  fun st =>
    let '(st, (c, e)) := find ctx tileID id st in
    match e with
    | Some e =>
        if is_system e then
          match Inspect W ctx id st with
          | (st, Ok d) =>
              if dt_Running d then (st, Err (Conflictf "%s cannot be removed while they are running" [AStr systemNames]))
              else call W (EStopRemove ctx id) st
          | (st, Err _) => (st, Err (Conflictf "%s cannot be removed while they are running" [AStr systemNames]))
          end
        else (st, Err e)
    | None => call W (EStopRemove ctx (k_ID c)) (early (WithoutCancel ctx) (tile_of tileID) (k_ID c) false st)
    end.

(** [IP]: where a tunnel reaches the container. *)
Definition IP (ctx : Ctx) (tileID id network : string) : M string :=
  ctx <~ atTile ctx tileID ;;
  _ <~ guard ctx tileID id "tunnelled into" ;;
  d <~ Inspect W ctx id ;;
  if dt_Running d && dt_HostNetwork d then ret "127.0.0.1"
  else if negb (dt_Running d) || String.eqb (at_key (dt_Networks d) network) "" then fail (Conflictf "tile is not running" [])
  else ret (at_key (dt_Networks d) network).

(** ** Freezing and stopping a volume's tiles *)

Definition atFirst (ctx : Ctx) (ts : list Tile) : M Ctx :=
  match ts with [] => ret ctx | t :: _ => at_env ctx (t_EnvironmentID t) end.
Definition running (ctx : Ctx) (ts : list Tile) : M (list string) :=
  gather (fun t => cs <~ Replicas ctx t ;; ret (map k_ID (List.filter is_running cs))) ts.

(** [on] each id in turn; one that fails undoes those done and ends it. *)
Fixpoint all_or_undo (on undo : string -> event) (failed : string) (ids done : list string) : M (list string) := fun st =>
  match ids with
  | [] => (st, Ok done)
  | id :: ids =>
      match call W (on id) st with
      | (st, Err e) => (each_quiet undo W done st, Err (Wrap (Sprintf failed [AStr id]) e))
      | (st, Ok _) => all_or_undo on undo failed ids (done ++ [id]) st
      end
  end.

(** What was frozen or stopped, for [thaw] or [resume] to give back. *)
Definition Freeze (ctx : Ctx) (ts : list Tile) : M (Ctx * list string) :=
  ctx <~ atFirst ctx ts ;;
  ids <~ running ctx ts ;;
  done <~ all_or_undo (EPause ctx) (EUnpause (WithoutCancel ctx)) "pausing %s: %w" ids [] ;;
  ret (ctx, done).
Definition thaw (ctx : Ctx) (done : list string) : St -> St := each_quiet (EUnpause (WithoutCancel ctx)) W done.
Definition Quiesce (ctx : Ctx) (ts : list Tile) : M (Ctx * list string) :=
  ctx <~ atFirst ctx ts ;;
  ids <~ running ctx ts ;;
  done <~ all_or_undo (EStop ctx) (EStart (WithoutCancel ctx)) "stopping %s: %w" ids [] ;;
  ret (ctx, done).
Definition resume (ctx : Ctx) (done : list string) : St -> St := each_quiet (EStart (WithoutCancel ctx)) W done.

Definition Stream (ctx : Ctx) (t : Tile) (cmd : list string) : M unit :=
  ctx <~ at_env ctx (t_EnvironmentID t) ;;
  ids <~ running ctx [t] ;;
  match ids with
  | [] => fail (Conflictf "%s is not running" [AStr (t_Slug t)])
  | id :: _ => call W (EExecStream ctx id cmd)
  end.
End Leaf.
