(* ===== verification/Daemon.v ===== *)
(** * What a daemon and a clock promise, and one that does

    [Clock] and [Ids] are the documented behaviour the theorems on tiles and
    rollouts rely on.  [daemon] is a [World] they hold of: it answers every
    call but those it is told to refuse, lists what it ran and was not told to
    remove, and its clock moves by the polls. *)
From S2P Require Import Prelude GoStrings Errs Outside TileRow Docker Tiles.

(** A clock that does not go back, and a timer that does not fire early. *)
Class Clock (W : World) : Prop := {
  clock_mono h p : w_now W h <= w_now W (p :: h);
  clock_poll h c d : w_now W h + d <= w_now W ((EPoll c d, true) :: h) }.

(** Documented behaviour of the daemon: a container's name is never another's
    nor another container's id, a created container's id was not listed
    before, and no two creates give one id. *)
Class Ids (W : World) : Prop := {
  name_no_id h ls c h1 s : c ∈ w_list W h ls -> k_Name c = w_run W h1 s -> k_ID c = k_Name c;
  name_no_other h ls c h1 ls1 c1 : c ∈ w_list W h ls -> c1 ∈ w_list W h1 ls1 -> k_Name c = k_ID c1 -> k_ID c = k_Name c;
  fresh_id h s h1 ls c : later h1 h -> c ∈ w_list W h1 ls -> k_ID c <> w_run W h s;
  ids_differ h e s h1 s1 : later ((e, true) :: h) h1 -> w_run W h1 s1 <> w_run W h s }.

(** A list by labels shows containers that have them, and a container has the
    labels it was made with. *)
Class Labelled (W : World) : Prop := {
  list_labelled h ls c k v : c ∈ w_list W h ls -> ls !! k = Some v -> at_key (k_Labels c) k = v;
  made_labelled e cx s h1 h ls c : e = ERun cx s \/ e = ECreate cx s -> later ((e, true) :: h1) h -> c ∈ w_list W h ls ->
    k_ID c = w_run W h1 s -> k_Labels c = s_Labels s }.

(** The id of a container made at [h]: as long as the history. *)
Fixpoint marks (n : nat) : string := match n with O => "" | S n => String "x" (marks n) end.
Lemma marks_length n : String.length (marks n) = n.
Proof. induction n; cbn; congruence. Qed.
Definition new_id (h : hist) : string := String "c" (marks (length h)).

(** What is known of the container [id] made of [s]. *)
Definition made_of (id : string) (s : ContainerSpec) (st : string) : Container :=
  MkContainer id id (s_Image s) "" st "" (s_Labels s) ["10.0.0.9"] (list_to_map (map (fun n => (n_Name n, "10.0.0.9")) (s_Networks s))) false.
Definition with_state (id st : string) (c : Container) : Container :=
  if String.eqb (k_ID c) id
  then MkContainer (k_ID c) (k_Name c) (k_Image c) (k_ImageID c) st (k_Health c) (k_Labels c) (k_IPs c) (k_Nets c) (k_HostNetwork c) else c.

(** The containers after [h], [old] being there before. *)
Fixpoint alive (old : list Container) (h : hist) : list Container :=
  match h with
  | [] => old
  | (e, ok) :: h =>
      let cs := alive old h in
      if ok then match e with
        | ERun _ s => cs ++ [made_of (new_id h) s "running"]
        | ECreate _ s => cs ++ [made_of (new_id h) s "created"]
        | EStart _ id => map (with_state id "running") cs
        | EStop _ id => map (with_state id "exited") cs
        | EStopRemove _ id => List.filter (fun c => negb (String.eqb (k_ID c) id)) cs
        | _ => cs
        end else cs
  end.

Definition clock (h : hist) : Z := fold_right (fun p t => match p with (EPoll _ d, true) => Z.max 0 d + t | _ => t end) 0 h.
Definition has_labels (ls : gmap string string) (c : Container) : bool :=
  forallb (fun p => String.eqb (at_key (k_Labels c) p.1) p.2) (map_to_list ls).
Definition look (old : list Container) (h : hist) (id : string) : Detail :=
  match List.find (fun c => String.eqb (k_ID c) id) (alive old h) with
  | Some c => MkDetail id id (k_Image c) (k_State c) (is_running c) "" 0 [] (k_Nets c) false
  | None => MkDetail id id "" "" false "" 0 [] ∅ false
  end.

(** The daemon with [old] running, refusing the calls [no]. *)
Definition daemon (old : list Container) (no : hist -> event -> option error) : World := {|
  w_ask := no; w_now := clock; w_done := fun _ => None; w_node := fun _ _ => "";
  w_tile := fun _ id => tile_of id; w_pin := fun _ _ _ => ""; w_run := fun h _ => new_id h;
  w_exec := fun _ _ => ""; w_logs := fun _ _ => "out of memory"; w_list := fun h ls => List.filter (has_labels ls) (alive old h);
  w_inspect := look old; w_grants := fun _ _ => [] |}.

#[export] Instance daemon_clock old no : Clock (daemon old no).
Proof.
  split.
  - intros h [e ok]. cbn [w_now daemon clock fold_right]. fold (clock h). destruct e; try lia. destruct ok; lia.
  - intros h c d. cbn [w_now daemon clock fold_right]. fold (clock h). lia.
Qed.

(** Before the daemon's own: names equal ids, and ids are short. *)
Definition plain (c : Container) : Prop := k_Name c = k_ID c /\ (String.length (k_ID c) <= 1)%nat /\ k_ID c <> "c".
Class Plain (old : list Container) : Prop := plain_old : Forall plain old.

Lemma alive_ids old h : Plain old -> Forall (fun c => k_Name c = k_ID c /\ ((String.length (k_ID c) <= length h)%nat \/ plain c)) (alive old h).
Proof.
  intros Ho. induction h as [|[e ok] h IH]; cbn [alive].
  { eapply Forall_impl; [exact Ho|]. intros c Hc. split; [by destruct Hc|by right]. }
  assert (Forall (fun c => k_Name c = k_ID c /\ ((String.length (k_ID c) <= length ((e, ok) :: h))%nat \/ plain c)) (alive old h)) as H1.
  { eapply Forall_impl; [exact IH|]. intros c [H1 [H2|H2]]; split; [done|left; cbn [length]; lia|done|by right]. }
  assert (forall s st, k_Name (made_of (new_id h) s st) = k_ID (made_of (new_id h) s st) /\
    ((String.length (k_ID (made_of (new_id h) s st)) <= length ((e, ok) :: h))%nat \/ plain (made_of (new_id h) s st))) as H2.
  { intros s st. split; [done|left]. cbn [made_of k_ID new_id String.length length]. rewrite marks_length. lia. }
  destruct ok; [|exact H1]. destruct e; try exact H1.
  1-2: apply Forall_app; split; [exact H1|]; constructor; [apply H2|constructor].
  1-2: apply Forall_map; eapply Forall_impl; [exact H1|]; intros k Hk; unfold with_state; destruct (String.eqb _ _); [|exact Hk];
    destruct Hk as [Hk1 [Hk2|(Hk2 & Hk3 & Hk4)]]; split; [exact Hk1|by left|exact Hk1|by right].
  apply List.Forall_forall. intros k Hk. apply List.filter_In in Hk as [Hk _]. by apply (proj1 (List.Forall_forall _ _) H1).
Qed.

Lemma listed_ids old no h ls c : Plain old -> c ∈ w_list (daemon old no) h ls ->
  k_Name c = k_ID c /\ ((String.length (k_ID c) <= length h)%nat \/ plain c).
Proof.
  intros Ho Hc. apply list_elem_of_In, List.filter_In in Hc as [Hc _]. by apply (proj1 (List.Forall_forall _ _) (alive_ids old h Ho)).
Qed.

#[export] Instance daemon_ids old no : Plain old -> Ids (daemon old no).
Proof.
  intros Ho. split.
  - intros h ls c h1 s Hc _. by destruct (listed_ids _ _ _ _ _ Ho Hc).
  - intros h ls c h1 ls1 c1 Hc _ _. by destruct (listed_ids _ _ _ _ _ Ho Hc).
  - intros h s h1 ls c [l ->] Hc E. change (w_run _ _ _) with (new_id (l ++ h1)) in E.
    assert (String.length (k_ID c) = S (length (l ++ h1))) as El by (rewrite E; cbn; by rewrite marks_length).
    apply listed_ids in Hc as [_ [Hl|(_ & Hl & Hn)]]; [|rewrite El in Hl|done].
    + rewrite length_app in El. lia.
    + apply Hn. rewrite E. by destruct (l ++ h1) as [|q k]; [|cbn [length] in Hl; lia].
  - intros h e s h1 s1 [l ->] E. change (new_id (l ++ (e, true) :: h) = new_id h) in E. injection E as E.
    apply (f_equal String.length) in E. rewrite !marks_length, length_app in E. cbn [length] in E. lia.
Qed.

Lemma old_id_short old h h1 c : Plain old -> c ∈ alive old h -> (length h <= length h1)%nat -> k_ID c <> new_id h1.
Proof.
  intros Ho Hc Hl E. destruct (proj1 (Forall_forall _ _) (alive_ids old h Ho) c Hc) as [_ [H|(_ & H & Hn)]].
  - rewrite E in H. cbn in H. rewrite marks_length in H. lia.
  - rewrite E in H, Hn. cbn in H. rewrite marks_length in H. destruct h1; [done|cbn in H; lia].
Qed.
Lemma alive_labels old e cx s h1 l c : Plain old -> e = ERun cx s \/ e = ECreate cx s -> c ∈ alive old (l ++ (e, true) :: h1) ->
  k_ID c = new_id h1 -> k_Labels c = s_Labels s.
Proof.
  intros Ho He. revert c. induction l as [|[e2 ok] l IH]; intros c Hc Ei.
  - assert (c ∈ alive old h1 ++ [made_of (new_id h1) s (k_State c)] \/ exists st, c ∈ alive old h1 ++ [made_of (new_id h1) s st]) as [H|[st H]].
    { right. cbn [app alive] in Hc. destruct He as [-> | ->]; by eexists. }
    all: apply elem_of_app in H as [H| ->%list_elem_of_singleton]; [|done]; by destruct (old_id_short old h1 h1 c Ho H ltac:(lia)).
  - cbn [app alive] in Hc. destruct ok; [|by apply IH].
    assert (forall id st, c ∈ map (with_state id st) (alive old (l ++ (e, true) :: h1)) -> k_Labels c = s_Labels s) as Hw.
    { intros id st (x & Ex & Hx)%list_elem_of_fmap. assert (k_ID x = k_ID c /\ k_Labels x = k_Labels c) as [H1 H2].
      { rewrite Ex. unfold with_state. by destruct (String.eqb _ _). }
      rewrite <-H2. apply IH; [done|congruence]. }
    assert (forall s2 st, c ∈ alive old (l ++ (e, true) :: h1) ++ [made_of (new_id (l ++ (e, true) :: h1)) s2 st] -> k_Labels c = s_Labels s) as Hm.
    { intros s2 st [H| ->%list_elem_of_singleton]%elem_of_app; [by apply IH|]. injection Ei as Ei.
      apply (f_equal String.length) in Ei. rewrite !marks_length, length_app in Ei. cbn [length] in Ei. lia. }
    destruct e2; try (by apply IH); try (by eapply Hw); try (by eapply Hm).
    apply elem_of_filterb in Hc as [Hc _]. by apply IH.
Qed.
#[export] Instance daemon_labelled old no : Plain old -> Labelled (daemon old no).
Proof.
  intros Ho. split.
  - intros h ls c k v Hc Hk. apply elem_of_filterb in Hc as [_ Hc]. unfold has_labels in Hc.
    pose proof (proj1 (forallb_forall _ _) Hc (k, v)) as Hf. apply String.eqb_eq. apply Hf. by apply list_elem_of_In, elem_of_map_to_list.
  - intros e cx s h1 h ls c He [l ->] Hc Ei. apply elem_of_filterb in Hc as [Hc _]. by eapply alive_labels.
Qed.

(** One old replica of tile [t1], and nothing refused. *)
Definition ex_old : list Container := [MkContainer "o" "o" "img:1" "" "running" "" (<[LabelRole := "replica"]> {[LabelTile := "t1"]}) [] ∅ false].
#[export] Instance ex_old_plain : Plain ex_old.
Proof. apply Forall_singleton. split_and!; [done|cbn; lia|done]. Qed.
Definition ex_world : World := daemon ex_old (fun _ _ => None).
