(* ===== verification/TilesSafe.v ===== *)
(** * What the tile leaf's calls touch ([leaf/tile/world.go], [docker/health.go]) *)
From S2P Require Import Prelude GoStrings Errs Outside TileRow Docker Tiles Daemon.

(** ** The health gate *)

Section Gate.
Context (W : World).

Lemma reads_cases {A} e (g : hist -> A) (st : St) : reads W e g st =
  match w_ask W (past st) e with None => (log_event e true st, Ok (g (past st))) | Some x => (log_event e false st, Err x) end.
Proof. unfold reads, call, ask, docker_asks. by destruct (w_ask W (past st) e). Qed.
Lemma call_ask e (st : St) : call W e st =
  match w_ask W (past st) e with None => (log_event e true st, Ok tt) | Some x => (log_event e false st, Err x) end.
Proof. done. Qed.

Lemma verdict_waits d start grace finish t1 t2 : verdict d start grace finish t1 t2 = None -> t2 <= finish.
Proof.
  unfold verdict. repeat (match goal with |- (if ?b then _ else _) = _ -> _ => destruct b eqn:?; [done|] end).
  intros _. by apply Z.ltb_ge.
Qed.

Lemma healthy_loop_returns `{!Clock W} c id poll grace start finish : 0 < poll -> forall fuel st,
  finish < w_now W (past st) + Z.of_nat fuel * poll ->
  exists r, (healthy_loop W (S fuel) c id poll grace start finish st).2 = Some r.
Proof.
  intros Hp. induction fuel as [|fuel IH]; intros st Hf.
  - cbn [healthy_loop]. unfold Inspect. rewrite reads_cases. destruct (w_ask W _ _); [by eexists|]. cbn [log_event past].
    destruct (verdict _ _ _ _ _ _) as [r|] eqn:Ev; [by eexists|]. apply verdict_waits in Ev.
    pose proof (clock_mono (past st) (EInspect c id, true)). pose proof (clock_mono ((EInspect c id, true) :: past st) (ENow, true)). lia.
  - remember (S fuel) as n eqn:En. cbn [healthy_loop]. unfold Inspect. rewrite reads_cases. destruct (w_ask W _ _); [by eexists|]. cbn [log_event past].
    destruct (verdict _ _ _ _ _ _) as [r|] eqn:Ev; [by eexists|]. rewrite call_ask. destruct (w_ask W _ _); [by eexists|]. subst n. apply IH.
    cbn [log_event past]. set (h := (ENow, true) :: (ENow, true) :: (EInspect c id, true) :: past st).
    pose proof (clock_mono (past st) (EInspect c id, true)). pose proof (clock_mono ((EInspect c id, true) :: past st) (ENow, true)).
    pose proof (clock_mono ((ENow, true) :: (EInspect c id, true) :: past st) (ENow, true)). pose proof (clock_poll h c poll). subst h.
    lia.
Qed.

Lemma healthy_fuel_enough poll deadline : 0 < poll -> exists n, healthy_fuel poll deadline = S n /\ deadline < Z.of_nat n * poll.
Proof.
  intros Hp. exists (Z.to_nat (deadline / poll) + 1)%nat. split; [unfold healthy_fuel; lia|].
  pose proof (Z.mul_succ_div_gt deadline poll Hp). destruct (Z.leb_spec 0 (deadline / poll)); [nia|].
  assert (deadline < 0) by (apply Z.nle_gt; intros Hd; pose proof (Z.div_pos deadline poll Hd Hp); lia). nia.
Qed.

Lemma healthy_more_fuel c id poll grace start finish n st st' r :
  healthy_loop W n c id poll grace start finish st = (st', Some r) ->
  forall m, (n <= m)%nat -> healthy_loop W m c id poll grace start finish st = (st', Some r).
Proof.
  revert st. induction n as [|n IH]; intros st E m Hm; [done|]. destruct m as [|m]; [lia|]. cbn [healthy_loop] in *.
  destruct (Inspect W c id st) as [st1 [d|e]]; [|done]. destruct (verdict _ _ _ _ _ _); [done|].
  destruct (call W (EPoll c poll) _) as [st2 [u|e]]; [|done]. apply IH; [done|lia].
Qed.

(** What a look at a container must say to let it pass. *)
Definition passes (d : Detail) : bool :=
  (dt_RestartCount d <=? 0) && dt_Running d && (String.eqb (dt_Health d) "healthy" || String.eqb (dt_Health d) "").
(** Between [h0] and [h], [id] was seen to pass. *)
Definition seen_healthy (id : string) (h0 h : hist) : Prop :=
  exists c h1, later h0 h1 /\ later ((EInspect c id, true) :: h1) h /\ passes (w_inspect W h1 id) = true.

Lemma verdict_ok d start grace finish t1 t2 u : verdict d start grace finish t1 t2 = Some (Ok u) ->
  passes d = true /\ (dt_Health d = "healthy" \/ (dt_Health d = "" /\ grace <= t1 - start)).
Proof.
  unfold verdict, passes. destruct (Z.ltb_spec 0 (dt_RestartCount d)); [done|]. destruct (dt_Running d); [|done].
  rewrite (proj2 (Z.leb_le (dt_RestartCount d) 0)) by lia. cbn [negb andb]. destruct (String.eqb_spec (dt_Health d) "unhealthy"); [done|].
  destruct (String.eqb_spec (dt_Health d) "healthy"); [by auto|]. destruct (String.eqb_spec (dt_Health d) ""); cbn [andb orb].
  - destruct (Z.leb_spec grace (t1 - start)); [by auto|]. by destruct (finish <? t2).
  - by destruct (finish <? t2).
Qed.

Lemma healthy_loop_ok c id poll grace start finish n st st' u : healthy_loop W n c id poll grace start finish st = (st', Some (Ok u)) ->
  exists h1 l, past st' = l ++ (EInspect c id, true) :: h1 /\ later (past st) h1 /\ passes (w_inspect W h1 id) = true /\
    (dt_Health (w_inspect W h1 id) = "healthy" \/ (dt_Health (w_inspect W h1 id) = "" /\ grace <= w_now W ((EInspect c id, true) :: h1) - start)).
Proof.
  revert st. induction n as [|n IH]; intros st E; [done|]. cbn [healthy_loop] in E. unfold Inspect in E. rewrite reads_cases in E.
  destruct (w_ask W _ _); [done|]. destruct (verdict _ _ _ _ _ _) as [r|] eqn:Ev.
  - injection E as <- ->. apply verdict_ok in Ev as [Hp Hh]. exists (past st), [(ENow, true); (ENow, true)]. split_and!; [done|apply later_refl|done|done].
  - rewrite call_ask in E. destruct (w_ask W _ _); [done|]. apply IH in E as (h1 & l & E1 & E2 & E3 & E4). exists h1, l. split_and!; [done| |done|done].
    eapply later_trans; [|exact E2]. cbn [past log_event]. by do 4 apply later_cons; apply later_refl.
Qed.

Lemma Healthy_ok c id poll grace deadline st st' u : Healthy W c id poll grace deadline st = (st', Ok u) -> seen_healthy id (past st) (past st').
Proof.
  unfold Healthy, bind, now. destruct (healthy_loop _ _ _ _ _ _ _ _ _) as [st1 [[v|e]|]] eqn:E; intros [= <- _].
  apply healthy_loop_ok in E as (h1 & l & E1 & E2 & Hp & _). exists c, h1. split_and!; [|rewrite E1; apply later_app|done].
  eapply later_trans; [|exact E2]. by apply later_cons, later_refl.
Qed.
End Gate.

(** C8. The health gate answers.  On a clock that moves, with a positive poll,
    the loop ends within the fuel of its deadline and no fuel beyond changes
    its answer; and it lets a container pass only on a look that saw it
    running, never restarted, and healthy, or without a health check for the
    whole grace period. *)
Theorem Healthy_answers W `{!Clock W} c id poll grace deadline st : 0 < poll ->
  let start := w_now W (past st) in
  exists st' r, (forall n, (healthy_fuel poll deadline <= n)%nat ->
      healthy_loop W n c id poll grace start (start + deadline) (log_event ENow true st) = (st', Some r)) /\
    Healthy W c id poll grace deadline st = (st', r) /\
    (r = Ok tt -> exists h1 l, past st' = l ++ (EInspect c id, true) :: h1 /\ passes (w_inspect W h1 id) = true /\
      (dt_Health (w_inspect W h1 id) = "healthy" \/
       (dt_Health (w_inspect W h1 id) = "" /\ start + grace <= w_now W ((EInspect c id, true) :: h1)))).
Proof.
  intros Hp start. destruct (healthy_fuel_enough poll deadline Hp) as (n & En & Hd).
  destruct (healthy_loop_returns W c id poll grace start (start + deadline) Hp n (log_event ENow true st)) as [r Er].
  { pose proof (clock_mono (past st) (ENow, true)). cbn [past log_event]. subst start. lia. }
  destruct (healthy_loop W (S n) c id poll grace start (start + deadline) (log_event ENow true st)) as [st' o] eqn:E. cbn [snd] in Er. subst o.
  exists st', r. split_and!.
  - intros m Hm. rewrite En in Hm. by eapply healthy_more_fuel.
  - unfold Healthy, bind, now. rewrite En. fold start. by rewrite E.
  - intros ->. apply healthy_loop_ok in E as (h1 & l & E1 & _ & E3 & E4). exists h1, l. split_and!; [done|done|].
    destruct E4 as [E4|[E4 E5]]; [by left|right]. split; [done|lia].
Qed.

(** A container without a health check, started on the daemon. *)
Definition ex_run : St := fst (Run ex_world (MkCtx "" false) (with_Name zero_spec "web-1") (MkSt tt [])).
Lemma Healthy_answers_witness : exists st', Healthy ex_world (MkCtx "" false) (new_id []) 1 10 60 ex_run = (st', Ok tt) /\
  exists h1 l, past st' = l ++ (EInspect (MkCtx "" false) (new_id []), true) :: h1 /\ passes (w_inspect ex_world h1 (new_id [])) = true /\
    w_now ex_world ((EInspect (MkCtx "" false) (new_id []), true) :: h1) = 10.
Proof.
  destruct (Healthy_answers ex_world (MkCtx "" false) (new_id []) 1 10 60 ex_run) as (st' & r & H1 & H2 & H3); [lia|].
  exists st'. assert (r = Ok tt) as -> by (apply (f_equal snd) in H2; vm_compute in H2; by rewrite <-H2). split; [exact H2|].
  destruct (H3 eq_refl) as (h1 & l & E1 & E2 & _). eexists _, [(ENow, true); (ENow, true)].
  apply (f_equal fst) in H2. cbn [fst] in H2. subst st'. split_and!; [vm_compute; reflexivity|vm_compute; reflexivity|vm_compute; reflexivity].
Defined.

(** ** What the leaf's calls leave alone *)

(** Everything but what starts, stops, pauses, makes or takes a container,
    the pause container of an address apart. *)
Definition mild (e : event) : bool :=
  match e with
  | ERun _ s => String.eqb (at_key (s_Labels s) LabelRole) "pause"
  | ECreate _ _ | EStart _ _ | EStop _ _ | ERestart _ _ | EStopRemove _ _ | EPause _ _ | EUnpause _ _ | EExec _ _ _ | EExecStream _ _ _ => false
  | _ => true
  end.

Create HintDb leaf.
#[export] Hint Resolve adds_ret adds_fail adds_bind adds_defer adds_call adds_reads adds_quiet adds_log : leaf.

Lemma pause_mild ctx t network pin : mild (ERun ctx (with_Image (pause_spec t network pin) PauseImage)) = true.
Proof. cbn [mild with_Image pause_spec with_Networks with_Labels s_Labels with_Restart with_Name zero_spec]. unfold tile_role, at_key. by rewrite lookup_insert_eq. Qed.

Section Mild.
Context (W : World) (l : Leaf) (P : event * bool -> Prop) (HP : forall e b, mild e = true -> P (e, b)).
#[local] Hint Extern 1 (P (_, _)) => (apply HP; reflexivity) : leaf.

Lemma at_env_adds ctx env : adds P (at_env W l ctx env).
Proof. unfold at_env. destruct (l_Node l); auto with leaf. Qed.
#[local] Hint Resolve at_env_adds : leaf.
Lemma atTile_adds ctx id : adds P (atTile W l ctx id).
Proof. unfold atTile. destruct (_ || _); auto with leaf. Qed.
Lemma early_adds ctx t id on : adds_fn P (early l ctx t id on).
Proof. intros st. unfold early. destruct (l_Early l); [by apply grown_one, HP|apply grown_refl]. Qed.

Lemma healthy_loop_adds c id poll grace start finish n : adds P (healthy_loop W n c id poll grace start finish).
Proof.
  induction n as [|n IH]; intros st; [apply grown_refl|]. cbn [healthy_loop]. unfold Inspect. rewrite reads_cases.
  destruct (w_ask W _ _); [by apply grown_one, HP|].
  assert (grown P (past st) (past (log_event ENow true (log_event ENow true (log_event (EInspect c id) true st))))) as H.
  { apply (grown_trans _ _ _ _ (grown_one _ _ _ (HP (EInspect c id) true eq_refl))).
    apply (grown_trans _ _ _ _ (grown_one _ _ _ (HP ENow true eq_refl))). by apply grown_one, HP. }
  destruct (verdict _ _ _ _ _ _); [exact H|]. rewrite call_ask. destruct (w_ask W _ _).
  - apply (grown_trans _ _ _ _ H). by apply grown_one, HP.
  - apply (grown_trans _ _ _ _ H). apply (grown_trans _ _ _ _ (grown_one _ _ _ (HP (EPoll c poll) true eq_refl))). apply IH.
Qed.

Lemma gate_adds ctx id p : adds P (gate W l ctx id p).
Proof.
  unfold gate, Healthy, bind, now. intros st. set (st1 := log_event ENow true st).
  pose proof (healthy_loop_adds ctx id (g_Poll (l_Gate l)) (g_Grace (l_Gate l)) (w_now W (past st)) (w_now W (past st) + (g_Deadline (l_Gate l) + p))
    (healthy_fuel (g_Poll (l_Gate l)) (g_Deadline (l_Gate l) + p)) st1) as H.
  destruct (healthy_loop _ _ _ _ _ _ _ _ st1) as [st2 r]. apply (grown_trans _ _ _ _ (grown_one _ _ _ (HP ENow true eq_refl))). exact H.
Qed.

Lemma lastWords_adds ctx id e st : grown P (past st) (past (lastWords W ctx id e st).1).
Proof.
  unfold lastWords. pose proof (adds_reads P W (ELogs ctx id 20) (fun h => w_logs W h id) (HP (ELogs ctx id 20) true eq_refl) (HP (ELogs ctx id 20) false eq_refl) st) as H.
  destruct (reads W _ _ st) as [st1 [out|x]]; [by destruct (String.eqb _ _)|done].
Qed.

Lemma Replicas_adds ctx t : adds P (Replicas W l ctx t).
Proof. unfold Replicas, ListC. auto with leaf. Qed.
Lemma gather_adds {A B} (g : A -> M (list B)) xs : (forall x, adds P (g x)) -> adds P (gather g xs).
Proof. intros Hg. induction xs as [|x xs IH]; cbn [gather]; auto with leaf. Qed.
Lemma each_adds {A} (g : A -> M unit) xs : (forall x, x ∈ xs -> adds P (g x)) -> adds P (each g xs).
Proof.
  induction xs as [|x xs IH]; intros Hg; cbn [each]; [apply adds_ret|]. apply adds_bind; [apply Hg; left|]. intros _. apply IH.
  intros y Hy. apply Hg. by right.
Qed.
Lemma run_pause_adds ctx t network : adds P (run_pause W l ctx t network).
Proof.
  unfold run_pause. apply adds_bind; [destruct (l_Pin l); auto with leaf|]. intros pin st. unfold Run.
  pose proof (adds_reads P W (ERun ctx (with_Image (pause_spec t network pin) PauseImage)) (fun h => w_run W h (with_Image (pause_spec t network pin) PauseImage))
    (HP _ true (pause_mild _ _ _ _)) (HP _ false (pause_mild _ _ _ _)) st) as H.
  destruct (reads W _ _ st) as [st1 [id|e]]; [done|]. destruct (String.eqb pin ""); [done|]. eapply grown_trans; [exact H|].
  apply adds_reads; apply HP, pause_mild.
Qed.
Lemma Pause_adds ctx t network : adds P (Pause W l ctx t network).
Proof.
  unfold Pause, ListC, Inspect. apply adds_bind; [auto with leaf|]. intros c. apply adds_bind; [auto with leaf|]. intros cs.
  apply adds_bind; [destruct cs; [apply run_pause_adds|auto with leaf]|]. intros id. apply adds_bind; [auto with leaf|]. intros d.
  destruct (String.eqb _ _); auto with leaf.
Qed.
Lemma set_vip_adds ctx v ips lan : adds P (set_vip W ctx v ips lan).
Proof. unfold set_vip. destruct ips; auto with leaf. Qed.
Lemma Route_adds ctx t network lan : adds P (Route W l ctx t network lan).
Proof.
  unfold Route, Inspect. apply adds_bind; [apply at_env_adds|intros c]. apply adds_bind; [apply Pause_adds|intros ip].
  apply adds_bind; [apply Replicas_adds|intros cs]. apply adds_bind; [apply gather_adds; auto with leaf|intros ips]. apply set_vip_adds.
Qed.

Lemma find_adds ctx tid id st : grown P (past st) (past (find W ctx tid id st).1).
Proof.
  unfold find, ListC. pose proof (adds_reads P W (EList ctx ∅) (fun h => w_list W h ∅) (HP (EList ctx ∅) true eq_refl) (HP (EList ctx ∅) false eq_refl) st) as H.
  by destruct (reads W _ _ st) as [st1 [cs|e]].
Qed.
Lemma guard_adds ctx tid id v : adds P (guard W ctx tid id v).
Proof.
  intros st. unfold guard. pose proof (find_adds ctx tid id st) as H. destruct (find W ctx tid id st) as [st1 [c [e|]]]; done.
Qed.

(** ** What each call may do to a container *)

Lemma gated_adds ctx t id : (forall c b, P (EStopRemove c id, b)) -> adds P (gated W l ctx t id).
Proof.
  intros Hrm st. unfold gated. pose proof (early_adds ctx t id true st) as H0. set (st0 := early l ctx t id true st) in *. clearbody st0.
  pose proof (gate_adds ctx id (t_HealthcheckStartPeriodS t * Second) st0) as H1. destruct (gate _ _ _ _ _ st0) as [st1 [u|e]]; [by eapply grown_trans|].
  assert (grown P (past st1) (past (match ctx_Err W ctx st1 with None => lastWords W ctx id e st1 | Some _ => (st1, e) end).1)) as H2.
  { destruct (ctx_Err W ctx st1); [apply grown_refl|apply lastWords_adds]. }
  destruct (match ctx_Err W ctx st1 with None => _ | Some _ => _ end) as [st2 e2].
  eapply grown_trans; [exact H0|]. eapply grown_trans; [exact H1|]. eapply grown_trans; [exact H2|].
  eapply grown_trans; [apply early_adds|]. by apply adds_quiet.
Qed.
Lemma Stop_adds ctx tid id : (forall c b, P (EStop c id, b)) -> adds P (Stop W l ctx tid id).
Proof. intros H. unfold Stop. apply adds_bind; [apply atTile_adds|intros c]. apply adds_bind; [apply guard_adds|auto with leaf]. Qed.
Lemma StartContainer_adds ctx tid id : (forall c b, P (EStart c id, b)) -> adds P (StartContainer W l ctx tid id).
Proof. intros H. unfold StartContainer. apply adds_bind; [apply atTile_adds|intros c]. apply adds_bind; [apply guard_adds|auto with leaf]. Qed.
Lemma Launch_adds ctx t id : (forall c b, P (EStart c id, b)) -> (forall c b, P (EStopRemove c id, b)) -> adds P (Launch W l ctx t id).
Proof.
  intros Hs Hr. unfold Launch. apply adds_bind; [apply at_env_adds|]. intros c st.
  pose proof (adds_call P W (EStart c id) (Hs _ _) (Hs _ _) st) as H. destruct (call W _ st) as [st1 [u|e]].
  - eapply grown_trans; [exact H|by apply gated_adds].
  - eapply grown_trans; [exact H|]. by apply adds_quiet.
Qed.
Lemma remove_adds ctx network c : (forall b, P (EStopRemove ctx (k_ID c), b)) -> adds P (remove W ctx network c).
Proof.
  intros Hr. unfold remove. apply adds_bind; [|auto with leaf]. destruct (String.eqb _ _); [|apply adds_ret]. intros st. unfold Inspect.
  pose proof (adds_reads P W (EInspect ctx (k_ID c)) (fun h => w_inspect W h (k_ID c)) (HP (EInspect ctx (k_ID c)) true eq_refl) (HP (EInspect ctx (k_ID c)) false eq_refl) st) as H.
  destruct (reads W _ _ st) as [st1 [d|e]]; [|done]. destruct (String.eqb _ _); [done|]. eapply grown_trans; [exact H|]. apply adds_call; by apply HP.
Qed.
Lemma DropPause_adds ctx t network : (forall c x b, P (EStopRemove c x, b)) -> adds P (DropPause W l ctx t network).
Proof.
  intros Hr. unfold DropPause, ListC. apply adds_bind; [apply at_env_adds|]. intros c. apply adds_bind; [auto with leaf|]. intros cs.
  apply each_adds. intros x _. by apply remove_adds.
Qed.

Lemma find_in_ok cs tid id c : find_in cs tid id = (c, None) -> c ∈ cs /\ (k_ID c = id \/ k_Name c = id) /\
  at_key (k_Labels c) LabelSystem = "" /\ (tid = "" \/ at_key (k_Labels c) LabelTile = tid).
Proof.
  induction cs as [|k cs IH]; [done|]. cbn [find_in].
  destruct (String.eqb_spec (k_ID k) id) as [Ei|]; destruct (String.eqb_spec (k_Name k) id) as [En|]; cbn [negb andb].
  4: { intros (H1 & H2 & H3 & H4)%IH. split_and!; [by right|done..]. }
  all: destruct (String.eqb_spec (at_key (k_Labels k) LabelSystem) ""); cbn [negb]; [|done];
    destruct (String.eqb_spec tid ""); cbn [negb andb]; [intros [= <-]; split_and!; [by left|auto..]|];
    destruct (String.eqb_spec (at_key (k_Labels k) LabelTile) tid); cbn [negb]; [intros [= <-]; split_and!; [by left|auto..]|done].
Qed.

Lemma find_found ctx tid id st st' c : find W ctx tid id st = (st', (c, None)) -> exists h,
  c ∈ w_list W h ∅ /\ later (past st) h /\ past st' = (EList ctx ∅, true) :: h /\ (k_ID c = id \/ k_Name c = id) /\
  at_key (k_Labels c) LabelSystem = "" /\ (tid = "" \/ at_key (k_Labels c) LabelTile = tid).
Proof.
  unfold find, ListC. rewrite reads_cases. destruct (w_ask W _ _); [done|]. intros [= <- Ef]. apply find_in_ok in Ef as (H1 & H2 & H3 & H4).
  exists (past st). split_and!; [done|apply later_refl|done..].
Qed.

Lemma set_vip_routed ctx v ips lan st st' u : set_vip W ctx v ips lan st = (st', Ok u) ->
  exists e, past st' = (e, true) :: past st /\ (e = EVipRemove ctx v \/ e = EVipSet ctx v ips lan).
Proof. unfold set_vip. destruct ips; intros ->%call_Ok; cbn [past log_event]; eexists; split; [done|auto|done|auto]. Qed.

(** [Remove] takes the container it names, or the listed one it finds. *)
Lemma Remove_adds ctx tid id : (forall c b, P (EStopRemove c id, b)) ->
  (forall h k c b, k ∈ w_list W h ∅ -> k_ID k = id \/ k_Name k = id -> P (EStopRemove c (k_ID k), b)) -> adds P (Remove W l ctx tid id).
Proof.
  intros Hid Hk. unfold Remove. apply adds_bind; [apply atTile_adds|]. intros c st.
  pose proof (find_adds c tid id st) as H. destruct (find W c tid id st) as [st1 [k [e|]]] eqn:Ef; cbn [fst] in H.
  - destruct (is_system e); [|exact H]. unfold Inspect.
    pose proof (adds_reads P W (EInspect c id) (fun h => w_inspect W h id) (HP (EInspect c id) true eq_refl) (HP (EInspect c id) false eq_refl) st1) as H1.
    destruct (reads W _ _ st1) as [st2 [d|x]]; [|by eapply grown_trans]. destruct (dt_Running d); [by eapply grown_trans|].
    eapply grown_trans; [exact H|]. eapply grown_trans; [exact H1|]. by apply adds_call.
  - apply find_found in Ef as (h & Hin & _ & _ & Hor & _). eapply grown_trans; [exact H|].
    eapply grown_trans; [apply early_adds|]. apply adds_call; by eapply Hk.
Qed.
End Mild.
