(* ===== verification/TileVerbs.v ===== *)
(** * The tile leaf's promises ([leaf/tile/world.go], [forward.go])

    What a container verb may touch, the two ways to route an address, and
    what freezing or stopping a volume's tiles leaves behind. *)
From S2P Require Import Prelude GoStrings Errs Outside TileRow Docker Tiles Daemon TilesSafe.

(** ** The guard of the verbs *)

Inductive verb :=
  | VStop | VStart | VRestart | VRemove | VExec (cmd : list string) | VTerminal (cmd : list string)
  | VFollow (tail : Z) | VLogs (tail : Z) | VIP (network : string).
Definition forget {A} (m : M A) : M unit := fun st => let '(st, r) := m st in (st, match r with Ok _ => Ok tt | Err e => Err e end).
Definition run_verb (W : World) (l : Leaf) (v : verb) (ctx : Ctx) (tid id : string) : M unit :=
  match v with
  | VStop => Stop W l ctx tid id
  | VStart => StartContainer W l ctx tid id
  | VRestart => Restart W l ctx tid id
  | VRemove => Remove W l ctx tid id
  | VExec cmd => forget (Exec W l ctx tid id cmd)
  | VTerminal cmd => Terminal W l ctx tid id cmd
  | VFollow n => Follow W l ctx tid id n
  | VLogs n => forget (Logs W l ctx tid id n)
  | VIP network => forget (IP W l ctx tid id network)
  end.

Section Guard.
Context (W : World) (l : Leaf) (tid x : string) (h0 : hist).

(** Since [h0] a list of the daemon showed [k] for [x], as this tile's and
    not one of the panel's own. *)
Definition shown (k : Container) (h : hist) : Prop :=
  exists c h1, later h0 h1 /\ later ((EList c ∅, true) :: h1) h /\ k ∈ w_list W h1 ∅ /\ (k_ID k = x \/ k_Name k = x) /\
    at_key (k_Labels k) LabelSystem = "" /\ (tid = "" \/ at_key (k_Labels k) LabelTile = tid).
(** Since [h0] the list failed, or showed one of the panel's own for [x]; and
    after that [x] was seen not to run. *)
Definition seen_off (h : hist) : Prop :=
  exists c h1 h2 b, later h0 h1 /\ later ((EList c ∅, b) :: h1) h2 /\
    (b = false \/ exists k, k ∈ w_list W h1 ∅ /\ (k_ID k = x \/ k_Name k = x) /\ at_key (k_Labels k) LabelSystem <> "") /\
    later ((EInspect c x, true) :: h2) h /\ dt_Running (w_inspect W h2 x) = false.
(** What a verb on [x] may do at [h]. *)
Definition guarded (h : hist) (p : event * bool) : Prop :=
  match p.1 with
  | EStart _ y | EStop _ y | ERestart _ y | EExec _ y _ | EExecStream _ y _ | EFollow _ y _ | ELogs _ y _ => y = x /\ exists k, shown k h
  | EStopRemove _ y => (exists k, shown k h /\ y = k_ID k) \/ (y = x /\ seen_off h)
  | ERun _ _ | ECreate _ _ | EPause _ _ | EUnpause _ _ | EVipSet _ _ _ _ | EVipRemove _ _ | EPruneFiles _ _ => False
  | _ => True
  end.
#[local] Abbreviation ok := (steps guarded).

(** Reads of rows and of the daemon's lists. *)
Definition asking (p : event * bool) : Prop :=
  match p.1 with ENode _ | ETile _ | EList _ _ | EInspect _ _ | EEarly _ _ _ _ => True | _ => False end.
Lemma asking_ok h h' : grown asking h h' -> ok h h'.
Proof. apply grown_steps. intros k [e b]. by destruct e. Qed.

Lemma atTile_asking ctx : adds asking (atTile W l ctx tid).
Proof. unfold atTile, at_env. destruct (_ || _); [apply adds_ret|]. apply adds_bind; [by apply adds_reads|]. intros t. destruct (l_Node l); auto with leaf.
  apply adds_bind; [by apply adds_reads|]. intros n. apply adds_ret. Qed.

Lemma find_in_system cs k e : find_in cs tid x = (k, Some e) -> is_system e = true ->
  k ∈ cs /\ (k_ID k = x \/ k_Name k = x) /\ at_key (k_Labels k) LabelSystem <> "".
Proof.
  induction cs as [|c cs IH]; cbn [find_in]; [by intros [= <- <-]|].
  destruct (String.eqb_spec (k_ID c) x) as [Ei|]; destruct (String.eqb_spec (k_Name c) x) as [En|]; cbn [negb andb].
  4: { intros H1 H2. destruct (IH H1 H2) as (H3 & H4 & H5). split_and!; [by right|done..]. }
  all: destruct (String.eqb_spec (at_key (k_Labels c) LabelSystem) ""); cbn [negb];
    [destruct (negb _ && negb _); [by intros [= <- <-]|done]|intros [= <- <-] _; split_and!; [by left|auto|done]].
Qed.

Lemma guard_shown ctx v st st' u : later h0 (past st) -> guard W ctx tid x v st = (st', Ok u) -> exists k, shown k (past st').
Proof.
  intros Hl. unfold guard. destruct (find W ctx tid x st) as [st1 [k [e|]]] eqn:Ef; [done|]. intros [= <- _].
  apply find_found in Ef as (h & H1 & H2 & H3 & H4). exists k, ctx, h. rewrite H3. split_and!; [by eapply later_trans|apply later_refl|done|apply H4..].
Qed.
Lemma guard_asking ctx v : adds asking (guard W ctx tid x v).
Proof.
  intros st. unfold guard, find, ListC. rewrite reads_cases. destruct (w_ask W _ _); [by apply grown_one|].
  destruct (find_in _ _ _) as [k [e|]]; by apply grown_one.
Qed.

Lemma found_shown ctx st st' u : later h0 (past st) -> found W ctx tid x st = (st', Ok u) -> exists k, shown k (past st').
Proof.
  intros Hl. unfold found. destruct (find W ctx tid x st) as [st1 [k [e|]]] eqn:Ef; [done|]. intros [= <- _].
  apply find_found in Ef as (h & H1 & H2 & H3 & H4). exists k, ctx, h. rewrite H3. split_and!; [by eapply later_trans|apply later_refl|done|apply H4..].
Qed.
Lemma found_asking ctx : adds asking (found W ctx tid x).
Proof.
  intros st. unfold found, find, ListC. rewrite reads_cases. destruct (w_ask W _ _); [by apply grown_one|].
  destruct (find_in _ _ _) as [k [e|]]; by apply grown_one.
Qed.

(** A guard, and then what is done with what it let pass. *)
Lemma guard_then {A} (g : Ctx -> M unit) (m : Ctx -> M A) ctx : (forall c, adds asking (g c)) ->
  (forall c st st' u, later h0 (past st) -> g c st = (st', Ok u) -> exists k, shown k (past st')) ->
  (forall c st st' r, (exists k, shown k (past st)) -> m c st = (st', r) -> ok (past st) (past st')) ->
  forall st st' r, later h0 (past st) -> (c <~ atTile W l ctx tid ;; _ <~ g c ;; m c) st = (st', r) -> ok (past st) (past st').
Proof.
  intros Hg Hs Hm st st' r Hl E. unfold bind at 1 in E. pose proof (atTile_asking ctx st) as H1. destruct (atTile _ _ _ _ st) as [st1 [c|e]]; cbn [fst] in H1.
  2: { injection E as <- _. by apply asking_ok. }
  eapply steps_trans; [by apply asking_ok|]. apply grown_later in H1. unfold bind in E. pose proof (Hg c st1) as H2.
  destruct (g c st1) as [st2 [u|e]] eqn:Eg; cbn [fst] in H2.
  - eapply steps_trans; [by apply asking_ok|]. apply Hs in Eg; [|by eapply later_trans]. by eapply Hm.
  - injection E as <- _. by apply asking_ok.
Qed.
Lemma one_call e (st st' : St) r : guarded (past st) (e, true) -> guarded (past st) (e, false) -> call W e st = (st', r) -> ok (past st) (past st').
Proof. intros Ht Hf ->%call_cases. destruct (is_ok r); by apply steps_one. Qed.
Lemma one_read {A} e (g : hist -> A) (st st' : St) r : guarded (past st) (e, true) -> guarded (past st) (e, false) -> reads W e g st = (st', r) -> ok (past st) (past st').
Proof. intros Ht Hf. rewrite reads_cases. destruct (w_ask W _ _); intros [= <- _]; by apply steps_one. Qed.
Lemma forget_run {A} (m : M A) st st' r : forget m st = (st', r) -> exists r', m st = (st', r').
Proof. unfold forget. destruct (m st) as [st1 r1]. intros [= <- _]. by exists r1. Qed.

(** What [Remove] does where the guard does not hold. *)
Lemma off_then c h1 b err (st st' : St) r : later h0 h1 -> past st = (EList c ∅, b) :: h1 ->
  (b = false \/ exists k, k ∈ w_list W h1 ∅ /\ (k_ID k = x \/ k_Name k = x) /\ at_key (k_Labels k) LabelSystem <> "") ->
  match Inspect W c x st with
  | (st, Ok d) => if dt_Running d then (st, Err err) else call W (EStopRemove c x) st
  | (st, Err _) => (st, Err err)
  end = (st', r) -> ok (past st) (past st').
Proof.
  intros Hl Ep Hb. unfold Inspect. rewrite reads_cases. destruct (w_ask W (past st) _).
  { intros [= <- _]. by apply steps_one. }
  destruct (dt_Running _) eqn:Ed; [intros [= <- _]; by apply steps_one|]. intros E.
  eapply steps_trans; [by apply (steps_one _ _ (EInspect c x, true))|]. change (_ :: past st) with (past (log_event (EInspect c x) true st)).
  assert (seen_off (past (log_event (EInspect c x) true st))) as Hoff.
  { exists c, h1, (past st), b. split_and!; [done|rewrite Ep; apply later_refl|done|apply later_refl|done]. }
  eapply one_call; [| |exact E]; by right.
Qed.

Lemma Remove_ok ctx st st' r : later h0 (past st) -> Remove W l ctx tid x st = (st', r) -> ok (past st) (past st').
Proof.
  intros Hl E. unfold Remove, bind in E. pose proof (atTile_asking ctx st) as H1. destruct (atTile _ _ _ _ st) as [st1 [c|e]]; cbn [fst] in H1.
  2: { injection E as <- _. by apply asking_ok. }
  eapply steps_trans; [by apply asking_ok|]. apply grown_later in H1. assert (later h0 (past st1)) as Hl1 by by eapply later_trans. clear H1 Hl st.
  destruct (find W c tid x st1) as [st2 [k o]] eqn:Ef.
  assert (exists b, st2 = log_event (EList c ∅) b st1) as [b Eb].
  { unfold find, ListC in Ef. rewrite reads_cases in Ef. destruct (w_ask W _ _); injection Ef as <- _; by eexists. }
  eapply steps_trans; [by apply (steps_one _ _ (EList c ∅, b))|]. change (_ :: past st1) with (past (log_event (EList c ∅) b st1)). rewrite <-Eb.
  destruct o as [e|].
  - destruct (is_system e) eqn:Es; [|injection E as <- _; apply steps_refl].
    eapply (off_then c (past st1) b _ st2); [done|by rewrite Eb| |exact E].
    unfold find, ListC in Ef. rewrite reads_cases in Ef. destruct (w_ask W _ _); [left; apply (f_equal (fun p => past p.1)) in Ef; rewrite Eb in Ef; by injection Ef|]. right.
    injection Ef as _ Ef. destruct (find_in_system _ _ _ Ef Es) as (H1 & H2 & H3). by exists k.
  - assert (shown k (past st2)) as Hk.
    { apply find_found in Ef as (h & H1 & H2 & H3 & H4). exists c, h. rewrite H3. split_and!; [by eapply later_trans|apply later_refl|done|apply H4..]. }
    set (st3 := early l _ _ _ _ st2) in *. assert (grown asking (past st2) (past st3)) as H3.
    { unfold st3, early. destruct (l_Early l); [by apply grown_one|apply grown_refl]. }
    eapply steps_trans; [by apply asking_ok|]. apply grown_later in H3. destruct Hk as (c1 & h1 & H4 & H5 & H6).
    assert (shown k (past st3)) as Hk by (exists c1, h1; split_and!; [done|by eapply later_trans|apply H6..]).
    eapply one_call; [| |exact E]; left; by exists k.
Qed.
End Guard.

(** C6. A container verb stays in its tile.  Whatever the daemon answers,
    stop, start, restart, terminal, logs and tunnel act on no container but
    the one named, after a list showed it as this tile's and not one of the
    panel's own; and remove takes only a container so shown, or one seen not
    to run after the list showed it as the panel's own or failed. *)
Theorem verbs_stay_in_the_tile W l v ctx tid x st :
  steps (guarded W tid x (past st)) (past st) (past (run_verb W l v ctx tid x st).1).
Proof.
  destruct (run_verb W l v ctx tid x st) as [st' r] eqn:E. revert E. cbn [fst].
  assert (forall v, forall c, adds asking (guard W c tid x v)) as Ha by (intros; apply guard_asking).
  assert (forall v, forall c s s' u, later (past st) (past s) -> guard W c tid x v s = (s', Ok u) -> exists k, shown W tid x (past st) k (past s')) as Hs
    by (intros; by eapply guard_shown).
  pose proof (later_refl (past st)) as Hl. destruct v; cbn [run_verb]; try (intros (r' & E)%forget_run; revert E).
  all: try (eapply guard_then; [apply Ha|apply Hs|intros c s s' q Hk; by apply one_call|exact Hl]).
  - by apply Remove_ok.
  - eapply guard_then; [apply Ha|apply Hs|intros c s s' q Hk; by apply one_read|exact Hl].
  - eapply guard_then; [apply found_asking|intros c s s' u; apply found_shown|intros c s s' q Hk; by apply one_call|exact Hl].
  - eapply guard_then; [apply found_asking|intros c s s' u; apply found_shown|intros c s s' q Hk; by apply one_read|exact Hl].
  - eapply guard_then; [apply Ha|apply Hs| |exact Hl]. intros c s s' q _. unfold Inspect, bind. rewrite reads_cases.
    destruct (w_ask W _ _); [intros [= <- _]; by apply steps_one|]. destruct (_ && _); [|destruct (_ || _)]; intros [= <- _]; by apply steps_one.
Qed.

(** ** Freezing and stopping a volume's tiles *)

(** Only reads of rows and lists. *)
Definition listing (p : event * bool) : Prop := match p.1 with ENode _ | EList _ _ => True | _ => False end.

(** From [h] to [h'], each of the running replicas was ended by [on], or what
    was ended was asked back by [undo], which no cancel reaches. *)
Definition whole_or_undone (W : World) (l : Leaf) (ts : list Tile) (on undo : Ctx -> string -> event) (h h' : hist) (r : res (Ctx * list string)) : Prop :=
  match r with
  | Ok (c, done) => exists st1 st2, grown listing h (past st1) /\ running W l c ts st1 = (st2, Ok done) /\
      h' = rev (map (fun x => (on c x, true)) done) ++ past st2
  | Err _ => grown listing h h' \/ exists c h1 done x undos, grown listing h h1 /\ c_detached (WithoutCancel c) = true /\
      map fst undos = map (undo (WithoutCancel c)) done /\ h' = rev undos ++ (on c x, false) :: rev (map (fun x => (on c x, true)) done) ++ h1
  end.

Section Whole.
Context (W : World) (l : Leaf) (on undo : string -> event) (failed : string).

Lemma each_quiet_past xs st : exists bs, map fst bs = map undo xs /\ past (each_quiet undo W xs st) = rev bs ++ past st.
Proof.
  unfold each_quiet. revert st. induction xs as [|x xs IH]; intros st; [by exists []|]. cbn [fold_left map].
  destruct (IH (quiet W (undo x) st)) as (bs & Hb & ->). unfold quiet. rewrite call_ask. destruct (w_ask W (past st) (undo x)).
  - exists ((undo x, false) :: bs). split; [cbn; by f_equal|]. cbn [rev]. by rewrite <-app_assoc.
  - exists ((undo x, true) :: bs). split; [cbn; by f_equal|]. cbn [rev]. by rewrite <-app_assoc.
Qed.

Lemma all_or_undo_cases ids : forall h1 done st st' r, past st = rev (map (fun x => (on x, true)) done) ++ h1 ->
  all_or_undo W on undo failed ids done st = (st', r) ->
  match r with
  | Ok d => d = done ++ ids /\ past st' = rev (map (fun x => (on x, true)) d) ++ h1
  | Err _ => exists d x bs, map fst bs = map undo d /\ past st' = rev bs ++ (on x, false) :: rev (map (fun x => (on x, true)) d) ++ h1
  end.
Proof.
  induction ids as [|x ids IH]; intros h1 done st st' r Hp; cbn [all_or_undo].
  { intros [= <- <-]. by rewrite app_nil_r. }
  rewrite call_ask. destruct (w_ask W _ _).
  - intros [= <- <-]. destruct (each_quiet_past done (log_event (on x) false st)) as (bs & Hb & ->). exists done, x, bs. split; [done|].
    cbn [past log_event]. by rewrite Hp.
  - intros E. apply (IH h1) in E; [|by cbn [past log_event]; rewrite map_app, rev_app_distr, Hp].
    destruct r; [|done]. by rewrite <-app_assoc in E.
Qed.

Lemma at_env_listing ctx env : adds listing (at_env W l ctx env).
Proof. unfold at_env. destruct (l_Node l); [|apply adds_ret]. apply adds_bind; [by apply adds_reads|]. intros n. apply adds_ret. Qed.
Lemma running_listing ctx ts : adds listing (running W l ctx ts).
Proof.
  unfold running. induction ts as [|t ts IH]; cbn [gather]; [apply adds_ret|]. apply adds_bind.
  - apply adds_bind; [|intros cs; apply adds_ret]. unfold Replicas, ListC. apply adds_bind; [apply at_env_listing|]. intros c. by apply adds_reads.
  - intros ys. apply adds_bind; [exact IH|]. intros zs. apply adds_ret.
Qed.
End Whole.

Lemma all_of_running W l ctx ts on undo failed st st' r :
  (c <~ atFirst W l ctx ts ;; ids <~ running W l c ts ;; d <~ all_or_undo W (on c) (undo (WithoutCancel c)) failed ids [] ;; ret (c, d)) st = (st', r) ->
  whole_or_undone W l ts on undo (past st) (past st') r.
Proof.
  intros E. assert (adds listing (atFirst W l ctx ts)) as Hat by (unfold atFirst; destruct ts; [apply adds_ret|apply at_env_listing]).
  specialize (Hat st). unfold bind in E. destruct (atFirst W l ctx ts st) as [st1 [c|e]]; cbn [fst] in Hat; [|injection E as <- <-; by left].
  pose proof (running_listing W l c ts st1) as H1. destruct (running W l c ts st1) as [st2 [ids|e]] eqn:Er; cbn [fst] in H1.
  2: { injection E as <- <-. left. by eapply grown_trans. }
  destruct (all_or_undo _ _ _ _ ids [] st2) as [st3 [d|e]] eqn:Ea; apply (all_or_undo_cases _ _ _ _ _ (past st2)) in Ea; try done.
  - injection E as <- <-. destruct Ea as [-> ->]. exists st1, st2. by split_and!.
  - injection E as <- <-. destruct Ea as (d & x & bs & H2 & H3). right. exists c, (past st2), d, x, bs. split_and!; [by eapply grown_trans|done..].
Qed.

(** C7. Freezing and stopping are whole or undone.  A freeze, or a stop for a
    cold copy, ends in one of two ways however the daemon fails: every replica
    that ran was frozen or stopped, in order, and it returns those; or it
    fails, and each one it had frozen or stopped was asked back, in a call
    that no cancel reaches, with nothing else touched. *)
Theorem Freeze_Quiesce_whole W l ctx ts st :
  whole_or_undone W l ts EPause EUnpause (past st) (past (Freeze W l ctx ts st).1) (Freeze W l ctx ts st).2 /\
  whole_or_undone W l ts EStop EStart (past st) (past (Quiesce W l ctx ts st).1) (Quiesce W l ctx ts st).2.
Proof. split; apply (all_of_running W l ctx ts _ _ _ st _ _ (surjective_pairing _)). Qed.

(** ** Two ways to route *)

(** The rows of one list of the node say what lists and looks say: the same
    containers under each label, which run, and their addresses.  Reads of
    rows and of the daemon answer. *)
Class OneTruth (W : World) (rows : list Container) : Prop := {
  truth_answers h e : match e with ENode _ | EList _ _ | EInspect _ _ => w_ask W h e = None | _ => True end;
  truth_list h ls : w_list W h ls = List.filter (has_labels ls) rows;
  truth_look h c : c ∈ rows -> dt_Running (w_inspect W h (k_ID c)) = is_running c /\ dt_Networks (w_inspect W h (k_ID c)) = k_Nets c }.

Lemma has_labels_role t role c : has_labels (tile_role t role) c = String.eqb (at_key (k_Labels c) LabelTile) (t_ID t) && String.eqb (at_key (k_Labels c) LabelRole) role.
Proof.
  unfold has_labels, tile_role. apply eq_iff_eq_true. rewrite forallb_forall, andb_true_iff, !String.eqb_eq. split.
  - intros H. assert (forall k v, (<[LabelRole := role]> {[LabelTile := t_ID t]} : gmap string string) !! k = Some v -> at_key (k_Labels c) k = v) as Hat.
    { intros k v Hk. apply elem_of_map_to_list, list_elem_of_In in Hk. specialize (H _ Hk). by apply String.eqb_eq in H. }
    split; apply Hat; [rewrite lookup_insert_ne by discriminate; apply lookup_singleton_eq|apply lookup_insert_eq].
  - intros [H1 H2] [k v] Hk. apply list_elem_of_In, elem_of_map_to_list in Hk. apply String.eqb_eq. cbn.
    apply lookup_insert_Some in Hk as [[<- <-]|[_ Hk]]; [done|]. by apply lookup_singleton_Some in Hk as [<- <-].
Qed.

(** The addresses of the running replicas of [rows]. *)
Definition serving (t : Tile) (network : string) (rows : list Container) : list string :=
  flat_map (fun c => if is_running c && negb (String.eqb (at_key (k_Nets c) network) "") then [at_key (k_Nets c) network] else [])
    (List.filter (has_labels (tile_role t "replica")) rows).

Lemma from_rows t network rows : forall v ips, fold_left (from_row t network) rows (v, ips) =
  (fold_left (fun v c => at_key (k_Nets c) network) (List.filter (has_labels (tile_role t "pause")) rows) v, ips ++ serving t network rows).
Proof.
  unfold serving. induction rows as [|c rows IH]; intros v ips; cbn [fold_left List.filter flat_map]; [by rewrite app_nil_r|].
  rewrite !has_labels_role. unfold from_row at 2. destruct (String.eqb (at_key (k_Labels c) LabelTile) (t_ID t)); cbn [negb andb]; [|apply IH].
  destruct (String.eqb_spec (at_key (k_Labels c) LabelRole) "pause") as [->|]; [apply IH|].
  destruct (String.eqb (at_key (k_Labels c) LabelRole) "replica"); cbn [andb flat_map fst snd]; [|apply IH].
  destruct (is_running c && _); [|apply IH]. rewrite IH. by rewrite <-app_assoc.
Qed.

Section Truth.
Context (W : World) (l : Leaf) (rows : list Container) `{!OneTruth W rows} (ctx : Ctx) (t : Tile) (network : string).

Lemma truth_reads {A} e (g : hist -> A) (st : St) : match e with ENode _ | EList _ _ | EInspect _ _ => True | _ => False end ->
  reads W e g st = (log_event e true st, Ok (g (past st))).
Proof. intros He. rewrite reads_cases. pose proof (truth_answers (past st) e) as H. destruct e; try done; by rewrite H. Qed.

Lemma gather_reached c cs st : (forall k, k ∈ cs -> k ∈ rows) ->
  exists st', gather (fun k => d <~ Inspect W c (k_ID k) ;; ret (reached network d)) cs st =
    (st', Ok (flat_map (fun k => if is_running k && negb (String.eqb (at_key (k_Nets k) network) "") then [at_key (k_Nets k) network] else []) cs)).
Proof.
  revert st. induction cs as [|k cs IH]; intros st Hin; cbn [gather flat_map]; [by exists st|]. unfold bind at 1 2, Inspect. rewrite truth_reads by done.
  unfold ret at 1. destruct (IH (log_event (EInspect c (k_ID k)) true st)) as [st' E]; [intros y Hy; apply Hin; by right|].
  unfold bind at 1. unfold Inspect in E. rewrite E. exists st'. unfold ret. do 3 f_equal. unfold reached.
  by destruct (truth_look (past st) k (Hin k (list_elem_of_here _ _))) as [-> ->].
Qed.
End Truth.

(** Routing from rows is routing.  Where one list of the node tells what
    the daemon tells, and the tile has one pause container, with an address,
    [Route] and [RouteFrom] set the same virtual address to the same replicas
    (RouteFrom sorts them), or both clear it when none runs. *)
Theorem RouteFrom_Route W l rows `{!OneTruth W rows} ctx ctx' t network lan p st :
  List.filter (has_labels (tile_role t "pause")) rows = [p] -> at_key (k_Nets p) network <> "" ->
  let vip := at_key (k_Nets p) network in
  exists c st1 ips, Route W l ctx t network lan st = set_vip W c vip ips lan st1 /\ c_detached c = c_detached ctx /\
    forall st2, exists ips', RouteFrom W ctx' t network lan rows st2 = set_vip W ctx' vip ips' lan st2 /\ ips ≡ₚ ips'.
Proof.
  intros Hp Hv vip. assert (p ∈ rows) as Hin.
  { apply list_elem_of_In, (List.filter_In (has_labels (tile_role t "pause"))). rewrite Hp. by left. }
  assert (forall c s, exists c' s', at_env W l c (t_EnvironmentID t) s = (s', Ok c') /\ c_detached c' = c_detached c) as Hat.
  { intros c s. unfold at_env. destruct (l_Node l); [|by eexists _, _]. unfold bind. rewrite (truth_reads W rows) by done. by eexists _, _. }
  destruct (Hat ctx st) as (c & st1 & E1 & Hd). unfold Route. unfold bind at 1. rewrite E1.
  destruct (Hat c st1) as (c1 & st2 & E2 & _). unfold Pause. unfold bind at 1 2, ListC. rewrite E2. unfold bind at 1. rewrite (truth_reads W rows) by done.
  rewrite truth_list, Hp. unfold bind at 1, ret at 1. unfold bind at 1, Inspect. rewrite (truth_reads W rows) by done.
  cbn [past log_event]. match goal with |- context [w_inspect W ?h _] => destruct (truth_look h p Hin) as [_ ->] end.
  apply String.eqb_neq in Hv. rewrite Hv. unfold ret at 1. set (st3 := log_event (EInspect _ _) true _).
  unfold bind at 1, Replicas, ListC. destruct (Hat c st3) as (c2 & st4 & E4 & _). unfold bind at 1. rewrite E4, (truth_reads W rows) by done.
  rewrite truth_list. unfold bind at 1. destruct (gather_reached W rows network c (List.filter (has_labels (tile_role t "replica")) rows)
    (log_event (EList c2 (tile_role t "replica")) true st4)) as [st5 E5].
  { intros k Hk. by apply list_elem_of_In, List.filter_In in Hk as [Hk%list_elem_of_In _]. }
  unfold Inspect in E5. rewrite E5. exists c, st5, (serving t network rows). split_and!; [done|done|]. intros s.
  exists (sort_strings (serving t network rows)). split; [|symmetry; apply sort_perm].
  unfold RouteFrom. rewrite from_rows, Hp. cbn [fold_left]. by rewrite Hv.
Qed.

(** A tile with its pause container, two replicas that run and one that does not. *)
Definition ex_row (id role state ip : string) : Container :=
  MkContainer id id "img" "" state "" (<[LabelRole := role]> {[LabelTile := "t1"]}) [] {["net" := ip]} false.
Definition ex_rows : list Container :=
  [ex_row "r2" "replica" "running" "10.0.0.7"; ex_row "p" "pause" "running" "10.0.0.2"; ex_row "r1" "replica" "running" "10.0.0.5"; ex_row "r0" "replica" "exited" ""].
Definition ex_truth : World := {|
  w_ask := fun _ _ => None; w_now := clock; w_done := fun _ => None; w_node := fun _ _ => "n1";
  w_tile := fun _ id => tile_of id; w_pin := fun _ _ _ => ""; w_run := fun h _ => new_id h;
  w_exec := fun _ _ => ""; w_logs := fun _ _ => ""; w_list := fun _ ls => List.filter (has_labels ls) ex_rows;
  w_inspect := fun _ id => look ex_rows [] id; w_grants := fun _ _ => [] |}.
#[export] Instance ex_one_truth : OneTruth ex_truth ex_rows.
Proof.
  split; [by intros h []|done|]. intros h c Hc. unfold ex_rows in Hc. repeat (apply (proj1 (elem_of_cons _ _ _)) in Hc as [->|Hc]; [split; vm_compute; reflexivity|]). by apply not_elem_of_nil in Hc.
Qed.

Definition ex_leaf : Leaf := MkLeaf true false false DefaultGate.
Lemma RouteFrom_Route_witness :
  (RouteFrom ex_truth (MkCtx "n1" false) (tile_of "t1") "net" [] ex_rows (MkSt tt [])).1.(past) =
    [(EVipSet (MkCtx "n1" false) "10.0.0.2" ["10.0.0.5"; "10.0.0.7"] [], true)] /\
  List.hd_error (past (Route ex_truth ex_leaf (MkCtx "" false) (tile_of "t1") "net" [] (MkSt tt [])).1) =
    Some (EVipSet (MkCtx "n1" false) "10.0.0.2" ["10.0.0.7"; "10.0.0.5"] [], true) /\
  exists c st1 ips, Route ex_truth ex_leaf (MkCtx "" false) (tile_of "t1") "net" [] (MkSt tt []) = set_vip ex_truth c "10.0.0.2" ips [] st1 /\
    c_detached c = false /\ forall st2, exists ips', RouteFrom ex_truth (MkCtx "n1" false) (tile_of "t1") "net" [] ex_rows st2 =
      set_vip ex_truth (MkCtx "n1" false) "10.0.0.2" ips' [] st2 /\ ips ≡ₚ ips'.
Proof.
  split; [vm_compute; reflexivity|]. split; [vm_compute; reflexivity|].
  apply (RouteFrom_Route ex_truth ex_leaf ex_rows (MkCtx "" false) (MkCtx "n1" false) (tile_of "t1") "net" [] (ex_row "p" "pause" "running" "10.0.0.2")).
  - vm_compute. reflexivity.
  - vm_compute. discriminate.
Defined.
