(* ===== verification/Access.v ===== *)
(** * Host access of a tile ([service/internal/flow/deploy/mount_host.go], [LanLines] and [publishedPorts] of [deploy.go], [spec.go])

    What elevated access a tile's row asks for, as grant lines, and what of it
    a container gets. *)
From S2P Require Import Prelude GoStrings Errs Slug Netip GoPath Sha256 Store Rows HostGrants TileRow Docker TileLines.

Definition roSuffix (m : Mount) : string := if RO m then ":ro" else "".
Definition HostLine (m : Mount) : string := "host:" +:+ Host m +:+ ":" +:+ Path m +:+ roSuffix m.

(** [hex(sha256(image or git URL, NUL, command)[:6])]. *)
Definition tileSource (t : Tile) : string :=
  let src := if String.eqb (t_ImageRef t) "" then "git:" +:+ t_GitURL t else t_ImageRef t in
  hex6 (sha256 (src +:+ String "000" (t_Command t))).

Definition host_perms (l : string) : list string :=
  match ParseMount l with Ok m => if String.eqb (Kind m) MountHost then [HostLine m] else [] | Err _ => [] end.
Definition lan_perms (l : string) : list string :=
  match ParseLAN l with Ok r => [LAN +:+ LAN_string r] | Err _ => [] end.
Definition port_perm (h : Z) (proto : string) : string :=
  PortPerm +:+ itoa h +:+ (if String.eqb proto "udp" then "/udp" else "").
Definition port_perms (l : string) : list string :=
  match ParsePort l with Ok (h, _, proto) => [port_perm h proto] | Err _ => [] end.

Definition tile_perms (t : Tile) : list string :=
  flat_map host_perms (Lines (t_Volumes t)) ++
  map (fun l => DevicePerm +:+ l) (Lines (t_Devices t)) ++
  flat_map lan_perms (Lines (t_Lan t)) ++
  flat_map port_perms (Lines (t_PublishedPorts t)) ++
  (if t_Privileged t then [Privileged] else []) ++
  (if t_HostNetwork t then [NetworkHost] else []).
(** The lines of one tile; the source line goes with any other. *)
Definition tile_lines (t : Tile) : list string :=
  let ps := tile_perms t in
  map (Line (t_Slug t)) (ps ++ match ps with [] => [] | _ => [Source +:+ tileSource t] end).
Definition HostSet (ts : list Tile) : list string := Norm (flat_map tile_lines ts).

(** The perms of the LAN lines [t] asks for and the set holds. *)
Definition LanLines (g : list string) (t : Tile) : list string :=
  map (fun l => (Split l).2)
    (List.filter (fun l => has_prefix (Split l).2 LAN && Has g l) (HostSet [t])).

(** The grants as the flow holds them; [None] is no leaf. *)
Definition checkAccess (grants : option (list HostGrant)) (stack : string) (t : Tile) : res (list string) :=
  match grants with
  | None => Ok []
  | Some tbl => Check tbl stack (HostSet [t]) ;;? Of tbl stack
  end.

Definition hostBind (grants : option (list HostGrant)) (stack : string) (t : Tile) (m : Mount) : res string :=
  match grants with
  | None => Err (Conflictf "%s: host mounts need the grant leaf" [AStr (t_Slug t)])
  | Some tbl =>
      Check tbl stack [Line (t_Slug t) (HostLine m)] ;;?
      Ok (Host m +:+ ":" +:+ Path m +:+ roSuffix m)
  end.

(** ** What the container gets ([spec.go]) *)

(** [publishedPorts]: the map, and a warning for each bad line. *)
Definition bad_published (l : string) : string * list arg :=
  ("skipping bad published port %q (want host:container[/udp])", [AStr l]).
Definition published_line (acc : gmap string string * list (string * list arg)) (l : string) : gmap string string * list (string * list arg) :=
  if has_prefix l "#" then acc
  else match cut ":" l with
  | None => (acc.1, acc.2 ++ [bad_published l])
  | Some (host, cont) =>
      if String.eqb host "" || String.eqb cont "" then (acc.1, acc.2 ++ [bad_published l])
      else
        let proto := (cut_or "/" cont).2 in
        let host := if negb (String.eqb proto "") && negb (String.eqb proto "tcp") then host +:+ "/" +:+ proto else host in
        (<[host := cont]> acc.1, acc.2)
  end.
Definition publishedPorts (s : string) : gmap string string * list (string * list arg) :=
  fold_left published_line (Lines s) (∅, []).

Definition restart (p : string) : string := if String.eqb p "" || String.eqb p "always" then "unless-stopped" else p.

(** [splitCommand] over the runes of the command; [cur] is the word so far. *)
Record Scan := MkScan { argv : list (list Z); cur : list Z; inWord : bool; escaped : bool; quote : Z }.
Definition scan_rune (s : Scan) (r : Z) : Scan :=
  let put := cur s ++ [r] in
  if escaped s then MkScan (argv s) put (inWord s) false (quote s)
  else if (r =? 92) && negb (quote s =? 39) then MkScan (argv s) (cur s) true true (quote s)
  else if negb (quote s =? 0) then
    if r =? quote s then MkScan (argv s) (cur s) (inWord s) false 0 else MkScan (argv s) put (inWord s) false (quote s)
  else if (r =? 39) || (r =? 34) then MkScan (argv s) (cur s) true false r
  else if (r =? 32) || (r =? 9) || (r =? 10) then
    if inWord s then MkScan (argv s ++ [cur s]) [] false false 0 else s
  else MkScan (argv s) put true false 0.
(** [None] is an unterminated quote or escape. *)
Definition split_runes (rs : list Z) : option (list (list Z)) :=
  let s := fold_left scan_rune rs (MkScan [] [] false false 0) in
  if escaped s || negb (quote s =? 0) then None
  else Some (if inWord s then argv s ++ [cur s] else argv s).

Definition splitCommand (s : string) : res (list string) :=
  match split_runes (runes s) with
  | None => Err (Errorf (Sprintf "unterminated quote or escape in %q" [AStr s]))
  | Some ws => Ok (map write_runes ws)
  end.
