(* ===== verification/Shares.v ===== *)
(** * Network shares ([leaf/volume/share.go], [store/shares.go], [flow/deploy/mount_share.go])

    An org's NFS or SMB export is a recipe; a tile line on it becomes a Docker
    volume whose mount options come from the row, and whose name is a hash of
    the recipe, so that the sweeps can tell from rows alone what is stale.
    What the daemon lists and removes is a [Sweeper], which answers given the
    removals before. *)
From S2P Require Import Prelude GoStrings Errs Regexp Slug GoPath Sha256 Store Rows Refs ParamRows Tier Environment TileRow Docker TileLines TileCheck Facts Access.

Definition ShareLabel : string := "stackr.share".
Definition NFS : string := "nfs".
Definition SMB : string := "smb".

Record Share := MkShare {
  sh_ID : string; sh_OrgID : string; sh_Slug : string; sh_Kind : string; sh_Source : string; sh_Options : string;
  sh_User : string; sh_PasswordRef : string; sh_CreatedAt : Z }.
#[export] Instance share_row : SlugRow Share := {
  rid := sh_ID; rparent := sh_OrgID; rslug := sh_Slug; keep := fun _ n => n;
  keep_id := fun _ _ => eq_refl; keep_parent := fun _ _ => eq_refl; keep_slug := fun _ _ => eq_refl }.
Record ShareSpec := MkShareSpec { ss_Slug : string; ss_Kind : string; ss_Source : string; ss_Options : string; ss_User : string; ss_PasswordRef : string }.
Record ShareUse := MkShareUse { su_Share : string; su_Sub : string }.

(** ** The patterns *)

(** [\s] of Go's regexp. *)
Definition space (c : ascii) : bool := has_byte c (String " " (String "009" (String "010" (String "012" (String "013" ""))))).
(** [nfsSource] and [smbSource] with their two groups; no part of a pattern
    may match the separator after it, so the first one is where a group ends. *)
Definition nfsSource (s : string) : option (string * string) :=
  match cut ":" s with
  | Some (host, root) =>
      if negb (String.eqb host "") && all_bytes (fun c => negb (has_byte c ":/,") && negb (space c)) host && IsAbs root && all_bytes (fun c => negb (space c)) root
      then Some (host, root) else None
  | None => None
  end.
Definition smbSource (s : string) : option (string * string) :=
  match strip_prefix "//" s with
  | Some s =>
      match cut "/" s with
      | Some (host, root) =>
          if negb (String.eqb host "") && all_bytes (fun c => negb (has_byte c "/,") && negb (space c)) host &&
             negb (String.eqb root "") && all_bytes (fun c => negb (space c)) root
          then Some (host, "/" +:+ root) else None
      | None => None
      end
  | None => None
  end.
Definition word (c : ascii) : bool := is_upper c || is_lower c || is_digit c || Ascii.eqb c "_".
Definition nameRe : re := RCat (RChr (fun c => is_upper c || is_lower c || Ascii.eqb c "_")) (RStar (RChr word)).
Definition orgRefRe : re :=
  RCat (RStr "${{") (RCat (RStar (RChr space)) (RCat (RStr "org.params.") (RCat nameRe
    (RCat (ROpt (RCat (RStr "[") (RCat (RPlus (RChr (fun c => is_lower c || is_digit c || Ascii.eqb c "-"))) (RStr "]"))))
    (RCat (RStr ".") (RCat nameRe (RCat (RStar (RChr space)) (RStr "}}")))))))).
Definition orgRef (s : string) : bool := re_match orgRefRe s.
Definition plainUser (s : string) : bool := negb (String.eqb s "") && all_bytes (fun c => negb (space c) && negb (Ascii.eqb c ",")) s.
Definition shareOpts (kind : string) : list string :=
  if String.eqb kind NFS then
    ["nfsvers"; "vers"; "ro"; "rw"; "soft"; "hard"; "timeo"; "retrans"; "rsize"; "wsize"; "proto"; "port"; "nolock"; "noatime"; "nconnect"; "sec"; "noresvport"; "actimeo"; "lookupcache"]
  else if String.eqb kind SMB then
    ["vers"; "ro"; "rw"; "uid"; "gid"; "file_mode"; "dir_mode"; "domain"; "sec"; "iocharset"; "noperm"; "nounix"; "cache"; "soft"; "hard"; "rsize"; "wsize"; "actimeo"; "mfsymlinks"; "seal"; "nobrl"; "port"]
  else [].
Definition optValue (s : string) : bool := all_bytes (fun c => is_upper c || is_lower c || is_digit c || has_byte c "._:-") s.

(** ** The recipe *)

(** [strings.Cut(o, "=")]. *)
Definition key_value (o : string) : string * string := match cut "=" o with Some kv => kv | None => (o, "") end.
Definition opt_space : string := String " " (String "009" (String "010" "")).
Definition opt_kept (kind o : string) : bool :=
  negb (String.eqb o "") && negb (contains_any opt_space o) && contains (shareOpts kind) (key_value o).1 && optValue (key_value o).2.
Definition tidyShare (s : Share) : Share :=
  MkShare (sh_ID s) (sh_OrgID s) (sh_Slug s) (sh_Kind s) (sh_Source s)
    (join "," (List.filter (opt_kept (sh_Kind s)) (split "," (sh_Options s)))) (sh_User s) (sh_PasswordRef s) (sh_CreatedAt s).

Definition source_fault (s : ShareSpec) : option error :=
  if String.eqb (ss_Kind s) NFS then
    match nfsSource (ss_Source s) with
    | None => Some (Invalidf "source" "%q: an NFS source is host:/exported/path" [AStr (ss_Source s)])
    | Some _ =>
        if negb (String.eqb (ss_User s) "") || negb (String.eqb (ss_PasswordRef s) "")
        then Some (Invalidf "user" "NFS has no credentials; leave user and password empty" []) else None
    end
  else if String.eqb (ss_Kind s) SMB then
    match smbSource (ss_Source s) with
    | None => Some (Invalidf "source" "%q: an SMB source is //host/share[/path]" [AStr (ss_Source s)])
    | Some _ =>
        if negb (Bool.eqb (String.eqb (ss_User s) "") (String.eqb (ss_PasswordRef s) "")) then Some (Invalidf "user" "user and password go together" [])
        else if negb (String.eqb (ss_User s) "") && negb (plainUser (ss_User s)) && negb (orgRef (ss_User s)) then
          Some (Invalidf "user" "a user is plain text or an ${{ org.params.<collection>.<name> }} ref" [])
        else if negb (String.eqb (ss_PasswordRef s) "") && negb (orgRef (ss_PasswordRef s)) then
          Some (Invalidf "password" "a password is an ${{ org.params.<collection>.<name> }} ref, never the value" [])
        else None
    end
  else Some (Invalidf "kind" "%q: a share is nfs or smb" [AStr (ss_Kind s)]).
Definition own_options : list string := ["type"; "device"; "addr"; "username"; "password"; "user"; "pass"].
Fixpoint option_fault (kind : string) (os : list string) : option error :=
  match os with
  | [] => None
  | o :: os =>
      if String.eqb o "" then option_fault kind os
      else
        let '(k, v) := key_value o in
        if contains own_options k then Some (Invalidf "options" "%s is set by stackr" [AStr k])
        else if negb (contains (shareOpts kind) k) then Some (Invalidf "options" "%s is not an allowed %s option" [AStr k; AStr kind])
        else if negb (optValue v) then Some (Invalidf "options" "%s: the value is letters, digits and . _ : -" [AStr k])
        else option_fault kind os
  end.
Definition CheckShare (s : ShareSpec) : option error :=
  if negb (Valid (ss_Slug s)) then Some (Invalidf "slug" "%q: a share name is lower-case letters, digits and single hyphens" [AStr (ss_Slug s)])
  else match source_fault s with
       | Some e => Some e
       | None => if contains_any opt_space (ss_Options s) then Some (Invalidf "options" "comma-separated mount options, no spaces" [])
                 else option_fault (ss_Kind s) (split "," (ss_Options s))
       end.

(** [path.Join(root, sub)]. *)
Definition Join (root sub : string) : string := if String.eqb sub "" then Clean root else Clean (root +:+ "/" +:+ sub).
Definition plain_sub (sub : string) : bool := String.eqb sub "" || (negb (IsAbs sub) && String.eqb (Clean sub) sub && negb (String.eqb sub "..") && negb (has_prefix sub "../")).
Definition opt_map (type o device : string) : gmap string string := {["type" := type; "o" := o; "device" := device]}.
Definition ShareOpts (s : Share) (sub user password : string) : res (gmap string string) :=
  if negb (plain_sub sub) then Err (Invalidf "volumes" "share %s: %q is not a plain sub path" [AStr (sh_Slug s); AStr sub])
  else if contains_any (String "," (String " " (String "010" ""))) (user +:+ password) then
    Err (Conflictf "share %s: a user or password with a comma or space cannot go in a mount option" [AStr (sh_Slug s)])
  else
    let opts o := if String.eqb (sh_Options s) "" then o else o +:+ "," +:+ sh_Options s in
    if String.eqb (sh_Kind s) NFS then
      match nfsSource (sh_Source s) with
      | None => Err (Conflictf "share %s: %q is not host:/path" [AStr (sh_Slug s); AStr (sh_Source s)])
      | Some (host, root) => Ok (opt_map "nfs" (opts ("addr=" +:+ host)) (":" +:+ Join root sub))
      end
    else if String.eqb (sh_Kind s) SMB then
      match smbSource (sh_Source s) with
      | None => Err (Conflictf "share %s: %q is not //host/share" [AStr (sh_Slug s); AStr (sh_Source s)])
      | Some (host, root) =>
          Ok (opt_map "cifs" (opts (("addr=" +:+ host) +:+ (if String.eqb user "" then "" else ",username=" +:+ user +:+ ",password=" +:+ password)))
                ("//" +:+ host +:+ Join root sub))
      end
    else Err (Conflictf "share %s: kind %q" [AStr (sh_Slug s); AStr (sh_Kind s)]).
Definition ShareVolumeName (s : Share) (sub : string) : string :=
  "stackr-share-" +:+ sh_ID s +:+ "-" +:+
  hex6 (sha256 (String.concat "" (map (fun f => f +:+ String "000" "") [sub; sh_Kind s; sh_Source s; sh_Options s; sh_User s; sh_PasswordRef s]))).

(** ** The rows *)

Section Rows.
Context {St : Type} `{!SlugTable St Share}.
Definition by_slug_order (a b : Share) : bool := String.leb (sh_Slug a) (sh_Slug b).
Definition Shares (t : St) (org : string) : list Share := map tidyShare (sort by_slug_order (list_by t org)).
Definition ShareBySlug (t : St) (org sl : string) : res Share := s <-? by_slug t org sl ;; Ok (tidyShare s).
Definition ShareOf (t : St) (org ref : string) : res Share :=
  match by_slug t org ref with
  | Ok s => Ok (tidyShare s)
  | Err e =>
      if is_not_found e then
        s <-? get t ref ;; if String.eqb (sh_OrgID s) org then Ok (tidyShare s) else Err ErrNotFound
      else Err e
  end.
Definition CreateShare (id : string) (now : Z) (org : string) (sp : ShareSpec) (t : St) : res (Share * St) :=
  match CheckShare sp with
  | Some e => Err e
  | None =>
      match by_slug t org (ss_Slug sp) with
      | Ok _ => Err (Conflictf "this organization already has a share %q" [AStr (ss_Slug sp)])
      | Err e =>
          if is_not_found e then
            let s := MkShare id org (ss_Slug sp) (ss_Kind sp) (ss_Source sp) (ss_Options sp) (ss_User sp) (ss_PasswordRef sp) now in
            t <-? create s t ;; Ok (s, t)
          else Err e
      end
  end.
Definition UpdateShare (s : Share) (sp : ShareSpec) (t : St) : res (Share * St) :=
  let sp := MkShareSpec (sh_Slug s) (ss_Kind sp) (ss_Source sp) (ss_Options sp) (ss_User sp) (ss_PasswordRef sp) in
  match CheckShare sp with
  | Some e => Err e
  | None =>
      let s := MkShare (sh_ID s) (sh_OrgID s) (sh_Slug s) (ss_Kind sp) (ss_Source sp) (ss_Options sp) (ss_User sp) (ss_PasswordRef sp) (sh_CreatedAt s) in
      t <-? update s t ;; Ok (s, t)
  end.
Definition DeleteShare (s : Share) (mountedBy : list string) (t : St) : res St :=
  match mountedBy with
  | [] => delete_row (sh_ID s) t
  | _ => Err (Conflictf "detach the share from %s before deleting it" [AStr (join ", " mountedBy)])
  end.
End Rows.

(** ** The sweeps *)

Record VolumeInfo := MkVolumeInfo { vi_Name : string; vi_Labels : gmap string string }.
Inductive removed := Removed | InUse | NotRemoved (e : error).
Definition is_in_use (r : removed) : bool := match r with InUse => true | _ => false end.
(** The daemon of a node, given the removals asked of it before: its volumes,
    all or those that carry a label, and how a removal ends. *)
Record Sweeper := MkSweeper {
  listed : list string -> option (string * string) -> res (list VolumeInfo);
  remove : list string -> string -> removed }.

Section Sweeps.
Context (D : Sweeper).

(** The removals so far, the volumes still held, and the error that ended it. *)
Record swept := MkSwept { sw_asked : list string; sw_held : list string; sw_err : option error }.
(** The loop over the volumes listed. *)
Fixpoint sweep (stale : VolumeInfo -> bool) (vs : list VolumeInfo) (asked held : list string) : swept :=
  match vs with
  | [] => MkSwept asked held None
  | v :: vs =>
      if negb (stale v) then sweep stale vs asked held
      else match remove D asked (vi_Name v) with
           | InUse => sweep stale vs (asked ++ [vi_Name v]) (held ++ [vi_Name v])
           | NotRemoved e => MkSwept (asked ++ [vi_Name v]) held (Some e)
           | Removed => sweep stale vs (asked ++ [vi_Name v]) held
           end
  end.
(** The names a share's lines need. *)
Definition keep_of (s : Share) (uses : list ShareUse) : list string :=
  map (fun u => ShareVolumeName s (su_Sub u)) (List.filter (fun u => String.eqb (su_Share u) (sh_Slug s)) uses).
Definition labelled (v : VolumeInfo) : bool := match vi_Labels v !! ShareLabel with Some _ => true | None => false end.
(** [shares.ListAll], [uses] by org. *)
Definition ReconcileShares (all : list Share) (usesByOrg : string -> list ShareUse) : swept :=
  let keep := flat_map (fun s => keep_of s (usesByOrg (sh_OrgID s))) (map tidyShare all) in
  match listed D [] None with
  | Err e => MkSwept [] [] (Some e)
  | Ok vs => sweep (fun v => labelled v && negb (contains keep (vi_Name v))) vs [] []
  end.
(** [SweepShares]: share by share, the volumes that carry its id. *)
Fixpoint sweep_each (ss : list Share) (uses : list ShareUse) (asked held : list string) : swept :=
  match ss with
  | [] => MkSwept asked held None
  | s :: ss =>
      match listed D asked (Some (ShareLabel, sh_ID s)) with
      | Err e => MkSwept asked held (Some e)
      | Ok vs =>
          let r := sweep (fun v => negb (contains (keep_of s uses) (vi_Name v))) vs asked held in
          match sw_err r with Some _ => r | None => sweep_each ss uses (sw_asked r) (sw_held r) end
      end
  end.
Definition SweepShares {St} `{!SlugTable St Share} (t : St) (org : string) (uses : list ShareUse) : swept := sweep_each (Shares t org) uses [] [].
End Sweeps.

(** ** A share's volume in a deploy *)

(** [docker.CreateVolume]: name, driver, options and labels. *)
Record VolumeCreate := MkCreate { c_Name : string; c_Driver : string; c_Opts : gmap string string; c_Labels : gmap string string }.
Definition EnsureShare (s : Share) (sub user password : string) : res (string * VolumeCreate) :=
  opts <-? ShareOpts s sub user password ;;
  let name := ShareVolumeName s sub in Ok (name, MkCreate name "local" opts {[ShareLabel := sh_ID s]}).

(** No value of the row is a param of the tile's own env. *)
Definition reads_own_params (v : string) : bool := existsb (fun b => match Parse b with Ok r => bool_decide (rf_Kind r = KindParam) | Err _ => false end) (Refs v).
Section Bind.
Context {St : Type} `{!SlugTable St Share} {StT : Type} `{!SlugTable StT Tier} {StE : Type} `{!SlugTable StE Environment}.
Context (t_shares : St) (tt : StT) (te : StE) (ps : list Param).
(** The bind of a share line and the volume it asks Docker for. *)
Definition shareBind (org : string) (e : Environment) (st : Stack) (t : TileRow.Tile) (m : TileLines.Mount) : res (string * VolumeCreate) :=
  if String.eqb (t_Kind t) TileCheck.Managed then Err (Conflictf "%s: a database on a share corrupts; give it a volume" [AStr (t_Slug t)])
  else match ShareBySlug t_shares org (TileLines.Share m) with
  | Err err => Err (if is_not_found err then Conflictf "%s mounts share %q, which this organization does not have" [AStr (t_Slug t); AStr (TileLines.Share m)] else err)
  | Ok s =>
      let snap := ParamSnapshot tt te ps e st true in
      if existsb reads_own_params [sh_User s; sh_PasswordRef s] then Err (Conflictf "share %s: a share login reads org.params only" [AStr (sh_Slug s)])
      else
        let '(user, rr) := Expand snap InEnv (sh_User s) NewResolver in
        user <-? user ;;
        pass <-? (Expand snap InEnv (sh_PasswordRef s) rr).1 ;;
        made <-? EnsureShare s (Sub m) user pass ;;
        Ok (made.1 +:+ ":" +:+ TileLines.Path m +:+ roSuffix m, made.2)
  end.
End Bind.

(** ** What a mount asks for *)

Lemma split_concat sep s t : split sep (s +:+ String sep t) = split sep s ++ split sep t.
Proof.
  induction s as [|c s IH]; simpl; [by rewrite Ascii.eqb_refl|]. str. simpl. destruct (Ascii.eqb c sep); [by rewrite IH|].
  rewrite IH. destruct (split sep s) as [|x xs] eqn:E; [by destruct (split_nonempty sep s)|done].
Qed.
Lemma kept_unrooted acc e : kept false acc -> e ∈ acc -> e = ".." -> last acc = Some "..".
Proof.
  induction 1 as [|x acc Hx Hn Hk IH|acc _ Hd]; [by intros ?%elem_of_nil| |].
  - intros [->|He]%elem_of_cons ->; [done|]. specialize (IH He eq_refl). by destruct acc.
  - intros _ _. apply last_Some. clear -Hd. induction Hd as [|x acc -> Hd IH]; [by exists []|]. destruct IH as [l ->]. by exists (".." :: l).
Qed.
(** A plain sub path is names only. *)
Lemma plain_sub_elems sub : plain_sub sub = true -> Forall (fun e => elem_ok e /\ e <> "..") (clean_elems sub) /\ IsAbs sub = false.
Proof.
  unfold plain_sub. destruct (String.eqb_spec sub "") as [->|Hne]; [by split; [constructor|]|]. cbn [orb]. rewrite !andb_true_iff, !negb_true_iff.
  intros [[[Ha Hc%String.eqb_eq] Hu%String.eqb_neq] Hp]. split; [|done]. pose proof (clean_elems_kept sub) as Hk. rewrite Ha in Hk.
  pose proof (kept_elem _ _ Hk) as Hok. apply Forall_rev in Hok. rewrite rev_involutive in Hok. apply Forall_forall. intros e He. split; [by apply (proj1 (Forall_forall _ _) Hok)|].
  intros Ee. assert (e ∈ rev (clean_elems sub)) as Hr by (apply list_elem_of_In, in_rev; rewrite rev_involutive; by apply list_elem_of_In).
  pose proof (kept_unrooted _ e Hk Hr Ee) as Hl. unfold Clean in Hc. rewrite Ha in Hc. destruct (clean_elems sub) as [|x xs] eqn:E; [by apply elem_of_nil in He|].
  cbn [rev] in Hl. rewrite last_snoc in Hl. injection Hl as ->. rewrite <-Hc in Hu, Hp. destruct xs as [|y ys]; [done|].
  rewrite join_cons in Hp by done. unfold has_prefix in Hp. cbn in Hp. by destruct (join "/" (y :: ys)).
Qed.
Lemma fold_names es acc : Forall (fun e => elem_ok e /\ e <> "..") es -> fold_left (clean_elem true) es acc = rev es ++ acc.
Proof.
  intros H. revert acc. induction H as [|e es [(H1 & H2 & _) H3] _ IH]; intros acc; [done|]. cbn [fold_left]. rewrite IH. cbn [rev]. rewrite <-app_assoc. f_equal.
  unfold clean_elem. by rewrite !(proj2 (String.eqb_neq _ _)) by done.
Qed.
Lemma plain_split sub : plain_sub sub = true -> sub <> "" -> split "/" sub = clean_elems sub \/ (sub = "." /\ clean_elems sub = []).
Proof.
  intros Hp Hne. pose proof (plain_sub_elems sub Hp) as [_ Ha]. unfold plain_sub in Hp. rewrite (proj2 (String.eqb_neq sub "") Hne) in Hp. cbn [orb] in Hp.
  apply andb_true_iff in Hp as [[[_ Hc%String.eqb_eq]%andb_true_iff _]%andb_true_iff _]. unfold Clean in Hc. rewrite Ha in Hc.
  destruct (clean_elems sub) as [|x xs] eqn:E; [by right|]. left. rewrite <-Hc at 1. apply split_join; [done|]. rewrite <-E. apply elems_no_sep.
Qed.
(** What is joined to a root stays under it. *)
Lemma Join_under root sub : IsAbs root = true -> plain_sub sub = true -> clean_elems (Join root sub) = clean_elems root ++ clean_elems sub /\ IsAbs (Join root sub) = true.
Proof.
  intros Hr Hs. unfold Join. destruct (String.eqb_spec sub "") as [->|Hne]; [by rewrite Clean_elems, Clean_abs, app_nil_r|].
  assert (IsAbs (root +:+ "/" +:+ sub) = true) as Ha.
  { unfold IsAbs in *. apply has_prefix_spec in Hr as [t ->]. by apply has_prefix_spec; eexists; rewrite <-app_assoc_str. }
  rewrite Clean_elems, Clean_abs. split; [|done]. unfold clean_elems at 1 2. rewrite Ha, Hr. change ("/" +:+ sub) with (String "/" sub). rewrite split_concat, fold_left_app.
  pose proof (plain_sub_elems sub Hs) as [Hn _]. destruct (plain_split sub Hs Hne) as [->|[-> He]].
  - rewrite fold_names by done. by rewrite rev_app_distr, rev_involutive.
  - rewrite He, app_nil_r. done.
Qed.

Definition source_of (s : Share) : option (string * string) := if String.eqb (sh_Kind s) NFS then nfsSource (sh_Source s) else smbSource (sh_Source s).
Lemma nfsSource_spec src h r : nfsSource src = Some (h, r) -> src = h +:+ ":" +:+ r /\ h <> "" /\ has_byte "," h = false /\ has_byte "/" h = false /\ IsAbs r = true.
Proof.
  unfold nfsSource. destruct (cut ":" src) as [[h' r']|] eqn:E; [|done]. destruct (_ && _) eqn:Eb; [|done]. intros [= <- <-].
  apply andb_true_iff in Eb as [[[Hh%negb_true_iff%String.eqb_neq Hb]%andb_true_iff Ha]%andb_true_iff _]. pose proof (cut_spec ":" src) as Hc. rewrite E in Hc. destruct Hc as [-> _].
  split_and!; [done|done|by eapply all_bytes_no..|done].
Qed.
Lemma smbSource_spec src h r : smbSource src = Some (h, r) -> src = "//" +:+ h +:+ r /\ h <> "" /\ has_byte "," h = false /\ has_byte "/" h = false /\ IsAbs r = true.
Proof.
  unfold smbSource. destruct (strip_prefix "//" src) as [s|] eqn:Ep; [|done]. destruct (cut "/" s) as [[h' r']|] eqn:E; [|done]. destruct (_ && _) eqn:Eb; [|done]. intros [= <- <-].
  apply andb_true_iff in Eb as [[[Hh%negb_true_iff%String.eqb_neq Hb]%andb_true_iff _]%andb_true_iff _]. pose proof (cut_spec "/" s) as Hc. rewrite E in Hc. destruct Hc as [-> _]. apply strip_prefix_spec in Ep as ->.
  split_and!; [done|done|by eapply all_bytes_no..|done].
Qed.

(** The options that pass, one by one. *)
Definition kept_options (s : Share) : list string := List.filter (opt_kept (sh_Kind s)) (split "," (sh_Options s)).
Lemma kept_spec s : Forall (fun o => opt_kept (sh_Kind s) o = true /\ has_byte "," o = false) (kept_options s).
Proof.
  apply Forall_forall. intros o [Ho Hk]%elem_of_filterb. split; [done|]. by apply (proj1 (Forall_forall _ _) (split_no_sep "," (sh_Options s))).
Qed.
Lemma tidy_options s : sh_Options (tidyShare s) = "" /\ kept_options s = [] \/ sh_Options (tidyShare s) <> "" /\ split "," (sh_Options (tidyShare s)) = kept_options s.
Proof.
  cbn [tidyShare sh_Options]. fold (kept_options s). pose proof (kept_spec s) as Hk. destruct (kept_options s) as [|o os]; [by left|]. right.
  assert (Forall (fun o => has_byte "," o = false) (o :: os)) as Hc by (eapply Forall_impl; [exact Hk|]; by intros x [_ ?]). split; [|by apply split_join].
  inversion Hk as [|? ? [Ho _] _]; subst. unfold opt_kept in Ho. intros E. destruct o as [|c o]; [done|]. destruct os; [done|]. rewrite join_cons in E by done. done.
Qed.
Lemma no_comma_append a x l : has_byte "," a = false -> split "," (if String.eqb x "" then a else a +:+ "," +:+ x) = a :: l <-> (x = "" /\ l = []) \/ (x <> "" /\ split "," x = l).
Proof.
  intros Ha. destruct (String.eqb_spec x "") as [->|Hx].
  - rewrite split_single by done. split; [intros [= <-]; by left|by intros [[_ ->]|[? _]]].
  - change ("," +:+ x) with (String "," x). rewrite split_app by done. split; [intros [= <-]; by right|by intros [[? _]|[_ ->]]].
Qed.
Lemma own_not_kept kind o : opt_kept kind o = true -> (key_value o).1 ∉ own_options.
Proof.
  unfold opt_kept. rewrite !andb_true_iff. intros [[_ Hc] _]. destruct (contains_spec (shareOpts kind) (key_value o).1) as [Hin|]; [|done].
  assert (Forall (fun k => k ∉ own_options) (shareOpts kind)) as Hd; [|by apply (proj1 (Forall_forall _ _) Hd)].
  unfold shareOpts. repeat case_match; [| |constructor]; apply (bool_decide_eq_true_1 _); vm_compute; reflexivity.
Qed.

Definition creds (s : Share) (user password : string) : list string :=
  if String.eqb (sh_Kind s) SMB && negb (String.eqb user "") then ["username=" +:+ user; "password=" +:+ password] else [].
Lemma no_any cs c s : contains_any cs s = false -> has_byte c cs = true -> has_byte c s = false.
Proof. unfold contains_any. rewrite negb_false_iff. intros Hs Hc. apply (all_bytes_no _ _ _ Hs). by rewrite Hc. Qed.

(** The words of an option text that begins with the address. *)
Lemma mount_words s host user password : has_byte "," host = false -> has_byte "," user = false -> has_byte "," password = false ->
  let own := "addr=" +:+ host +:+ (if String.eqb (sh_Kind s) SMB && negb (String.eqb user "") then ",username=" +:+ user +:+ ",password=" +:+ password else "") in
  split "," (if String.eqb (sh_Options (tidyShare s)) "" then own else own +:+ "," +:+ sh_Options (tidyShare s)) = ("addr=" +:+ host) :: creds s user password ++ kept_options s.
Proof.
  intros Hh Hu Hp own. assert (split "," own = ("addr=" +:+ host) :: creds s user password) as Ho.
  { subst own. unfold creds. destruct (_ && _); [|rewrite app_nil_r_str; by apply split_single].
    change (",username=" +:+ user +:+ ",password=" +:+ password) with (String "," ("username=" +:+ user +:+ String "," ("password=" +:+ password))).
    rewrite app_assoc_str, split_app by done. f_equal. rewrite app_assoc_str, split_app by done. f_equal. by apply split_single. }
  destruct (tidy_options s) as [[-> ->]|[Hne Hs]]; [by rewrite app_nil_r|]. rewrite (proj2 (String.eqb_neq _ "") Hne).
  change ("," +:+ sh_Options (tidyShare s)) with (String "," (sh_Options (tidyShare s))). by rewrite split_concat, Ho, Hs.
Qed.

(** C19. A share line mounts what its share names, and nothing a line, an option or
    a password adds.  The device is the share's root or a place below it, with
    no way up left in its path.  The mount options are the address of the
    share's host, the user and password of an SMB share, and those options of
    the row that are on the list for its kind, and no comma of any of them
    adds another; none of the listed ones is one that stackr sets. *)
Theorem share_mount_contained s sub user password m : ShareOpts (tidyShare s) sub user password = Ok m ->
  exists host root, source_of s = Some (host, root) /\ IsAbs root = true /\
  (exists dev, m !! "device" = Some ((if String.eqb (sh_Kind s) NFS then ":" else "//" +:+ host) +:+ dev) /\ IsAbs dev = true /\
     clean_elems dev = clean_elems root ++ clean_elems sub /\ Forall (fun e => e <> "..") (clean_elems dev)) /\
  (exists o, m !! "o" = Some o /\ split "," o = ("addr=" +:+ host) :: creds s user password ++ kept_options s) /\
  Forall (fun o => (key_value o).1 ∈ shareOpts (sh_Kind s) /\ ((key_value o).1 ∉ own_options) /\ optValue (key_value o).2 = true) (kept_options s) /\
  dom m = {["type"; "o"; "device"]}.
Proof.
  unfold ShareOpts, source_of. cbn [sh_Kind sh_Source tidyShare]. destruct (plain_sub sub) eqn:Hs; [|done]. cbn [negb]. destruct (contains_any _ (user +:+ password)) eqn:Ec; [done|].
  assert (has_byte "," user = false /\ has_byte "," password = false) as [Hu Hp] by (apply orb_false_iff; rewrite <-has_byte_app; by eapply no_any).
  assert (Forall (fun o => (key_value o).1 ∈ shareOpts (sh_Kind s) /\ ((key_value o).1 ∉ own_options) /\ optValue (key_value o).2 = true) (kept_options s)) as Hk.
  { eapply Forall_impl; [exact (kept_spec s)|]. intros o [Ho _]. pose proof (own_not_kept _ _ Ho). unfold opt_kept in Ho. apply andb_true_iff in Ho as [[_ Hc]%andb_true_iff Hv].
    destruct (contains_spec (shareOpts (sh_Kind s)) (key_value o).1); done. }
  assert (forall ty o d, dom (opt_map ty o d) = {["type"; "o"; "device"]}) as Hd by (intros; unfold opt_map; rewrite !dom_insert_L, dom_singleton_L; reflexivity).
  assert (forall root, IsAbs root = true -> IsAbs (Join root sub) = true /\ clean_elems (Join root sub) = clean_elems root ++ clean_elems sub /\ Forall (fun e => e <> "..") (clean_elems (Join root sub))) as Hj.
  { intros root Hr. destruct (Join_under root sub Hr Hs) as [He Ha]. split_and!; [done|done|]. apply Forall_forall. intros e Hin. by apply (clean_rooted _ _ Ha). }
  destruct (String.eqb_spec (sh_Kind s) NFS) as [Ek|Ek]; [|destruct (String.eqb_spec (sh_Kind s) SMB) as [Ek'|]; [|done]].
  - destruct (nfsSource (sh_Source s)) as [[host root]|] eqn:E; [|done]. intros <-%Ok_inj. apply nfsSource_spec in E as (_ & _ & Hc & _ & Ha).
    exists host, root. split_and!; [done|done| | |done|by apply Hd].
    + exists (Join root sub). by split; [|apply Hj].
    + eexists. split; [done|]. pose proof (mount_words s host user password Hc Hu Hp) as Hw. rewrite Ek in Hw. cbn in Hw. rewrite app_nil_r_str in Hw. exact Hw.
  - destruct (smbSource (sh_Source s)) as [[host root]|] eqn:E; [|done]. intros <-%Ok_inj. apply smbSource_spec in E as (_ & _ & Hc & _ & Ha).
    exists host, root. split_and!; [done|done| | |done|by apply Hd].
    + exists (Join root sub). split; [by rewrite app_assoc_str|by apply Hj].
    + eexists. split; [done|]. pose proof (mount_words s host user password Hc Hu Hp) as Hw. rewrite Ek' in Hw. cbn [String.eqb Ascii.eqb Bool.eqb andb] in Hw.
      rewrite app_assoc_str in Hw. by destruct (String.eqb user "").
Qed.

(** An NFS share of a subfolder, and an SMB login. *)
#[local] Abbreviation ex_nfs := (MkShare "s1" "o1" "media" NFS "nas.lan:/export/media" "ro,,nfsvers=4.1,addr=1.2.3.4" "" "" 1).
#[local] Abbreviation ex_smb := (MkShare "s2" "o1" "docs" SMB "//nas.lan/docs" "vers=3.0" "bob" "${{ org.params.nas.PASS }}" 1).
#[local] Abbreviation ex_opts := (opt_map "cifs" "addr=nas.lan,username=bob,password=pw,vers=3.0" "//nas.lan/docs/a/b").
Lemma share_mount_contained_witness : ShareOpts (tidyShare ex_smb) "a/b" "bob" "pw" = Ok ex_opts /\
  (exists o, ex_opts !! "o" = Some o /\ split "," o = ["addr=nas.lan"; "username=bob"; "password=pw"; "vers=3.0"]).
Proof.
  assert (ShareOpts (tidyShare ex_smb) "a/b" "bob" "pw" = Ok ex_opts) as H by (vm_compute; reflexivity). split; [exact H|].
  destruct (share_mount_contained ex_smb "a/b" "bob" "pw" _ H) as (host & root & Hs & _ & _ & (o & Ho & Hw) & _). exists o. split; [exact Ho|].
  rewrite Hw. assert (host = "nas.lan") as -> by (vm_compute in Hs; congruence). vm_compute. reflexivity.
Defined.
Example share_options : ShareOpts (tidyShare ex_nfs) "tv" "" "" = Ok (opt_map "nfs" "addr=nas.lan,ro,nfsvers=4.1" ":/export/media/tv") /\
  map (fun sub => is_ok (ShareOpts ex_nfs sub "" "")) ["../x"; "/x"; "a//b"; "a/../b"; ".."] = [false; false; false; false; false].
Proof. by split; vm_compute. Qed.

(** ** What a sweep removes *)

Section Removals.
Context (D : Sweeper).
Definition stale_names (stale : VolumeInfo -> bool) (vs : list VolumeInfo) : list string := map vi_Name (List.filter stale vs).
(** The removals asked are the stale names in their order, up to the first
    that failed; without one, all of them, and held are those in use. *)
Lemma sweep_spec stale vs asked held : let r := sweep D stale vs asked held in
  (exists new rest, sw_asked r = asked ++ new /\ stale_names stale vs = new ++ rest /\ (sw_err r = None -> rest = [])) /\
  (exists h, sw_held r = held ++ h /\ (forall n, n ∈ h -> n ∈ stale_names stale vs /\ exists past, remove D past n = InUse)).
Proof.
  unfold stale_names. revert asked held. induction vs as [|v vs IH]; intros asked held; cbn [sweep List.filter map].
  - split; [exists [], []; by rewrite app_nil_r|exists []; rewrite app_nil_r; split; [done|by intros ? ?%elem_of_nil]].
  - destruct (stale v); cbn [negb map]; [|apply IH]. destruct (remove D asked (vi_Name v)) as [| |e] eqn:Er.
    + destruct (IH (asked ++ [vi_Name v]) held) as [(new & rest & Ha & Hn & He) (h & Hh & Hi)]. split.
      * exists (vi_Name v :: new), rest. rewrite Ha, <-app_assoc. split_and!; [done|by rewrite Hn|done].
      * exists h. split; [done|]. intros n [Hin Hp]%Hi. split; [by right|done].
    + destruct (IH (asked ++ [vi_Name v]) (held ++ [vi_Name v])) as [(new & rest & Ha & Hn & He) (h & Hh & Hi)]. split.
      * exists (vi_Name v :: new), rest. rewrite Ha, <-app_assoc. split_and!; [done|by rewrite Hn|done].
      * exists (vi_Name v :: h). rewrite Hh, <-app_assoc. split; [done|]. intros n [->|[Hin Hp]%Hi]%elem_of_cons; [split; [by left|by exists asked]|split; [by right|done]].
    + cbn [sw_asked sw_held sw_err]. split; [by exists [vi_Name v], (map vi_Name (List.filter stale vs))|]. exists []. rewrite app_nil_r. split; [done|by intros ? ?%elem_of_nil].
Qed.
Lemma sweep_asked stale vs asked held n : n ∈ sw_asked (sweep D stale vs asked held) -> n ∈ asked \/ exists v, v ∈ vs /\ stale v = true /\ vi_Name v = n.
Proof.
  destruct (sweep_spec stale vs asked held) as [(new & rest & -> & Hn & _) _]. rewrite elem_of_app. intros [|Hin]; [by left|right].
  assert (n ∈ stale_names stale vs) as Hs by (rewrite Hn; apply elem_of_app; by left). apply list_elem_of_fmap in Hs as (v & -> & [Hv Hst]%elem_of_filterb). by exists v.
Qed.
Lemma sweep_all stale vs asked held v : sw_err (sweep D stale vs asked held) = None -> v ∈ vs -> stale v = true -> vi_Name v ∈ sw_asked (sweep D stale vs asked held).
Proof.
  destruct (sweep_spec stale vs asked held) as [(new & rest & -> & Hn & He) _]. intros Hr Hv Hs. rewrite (He Hr), app_nil_r in Hn. apply elem_of_app. right.
  rewrite <-Hn. apply list_elem_of_fmap. exists v. split; [done|by apply elem_of_filterb].
Qed.
Lemma sweep_prefix stale vs asked held : exists new, sw_asked (sweep D stale vs asked held) = asked ++ new.
Proof. destruct (sweep_spec stale vs asked held) as [(new & _ & -> & _) _]. by exists new. Qed.

(** A volume's name tells its share: the hash has one length. *)
Lemma hex6_length l : String.length (hex6 l) = 12%nat.
Proof. done. Qed.
Lemma app_inj_len a b x y : String.length x = String.length y -> a +:+ x = b +:+ y -> a = b /\ x = y.
Proof.
  intros Hl. revert b. induction a as [|c a IH]; intros [|d b] E; [done| | |].
  - rewrite app_nil_str in E. subst x. rewrite length_app_str in Hl. cbn in Hl. lia.
  - rewrite app_nil_str in E. subst y. rewrite length_app_str in Hl. cbn in Hl. lia.
  - rewrite !app_cons_str in E. injection E as -> E. by destruct (IH b E) as [-> ->].
Qed.
Lemma ShareVolumeName_id s s' sub sub' : ShareVolumeName s sub = ShareVolumeName s' sub' -> sh_ID s = sh_ID s'.
Proof.
  unfold ShareVolumeName. intros E. apply (inj (String.append "stackr-share-")) in E. rewrite !app_assoc_str in E. apply app_inj_len in E as [E _]; [|by rewrite !hex6_length].
  by apply app_inj_len in E as [E _].
Qed.
End Removals.

(** A use of a share's line claims the volume of its recipe. *)
Definition claims (all : list Share) (usesByOrg : string -> list ShareUse) (n : string) : Prop :=
  exists s u, s ∈ all /\ u ∈ usesByOrg (sh_OrgID s) /\ su_Share u = sh_Slug s /\ n = ShareVolumeName (tidyShare s) (su_Sub u).
Lemma keep_of_spec s uses n : n ∈ keep_of s uses <-> exists u, u ∈ uses /\ su_Share u = sh_Slug s /\ n = ShareVolumeName s (su_Sub u).
Proof.
  unfold keep_of. rewrite list_elem_of_fmap. split.
  - intros (u & -> & [Hu E%String.eqb_eq]%elem_of_filterb). by exists u.
  - intros (u & Hu & E & ->). exists u. split; [done|]. apply elem_of_filterb. by rewrite E, String.eqb_refl.
Qed.
Lemma claims_spec all uses n : contains (flat_map (fun s => keep_of s (uses (sh_OrgID s))) (map tidyShare all)) n = true <-> claims all uses n.
Proof.
  destruct (contains_spec (flat_map (fun s => keep_of s (uses (sh_OrgID s))) (map tidyShare all)) n) as [H|H]; (split; [intros Hc|intros Hc]); try done.
  - apply list_elem_of_In, in_flat_map in H as (s & (s0 & <- & Hs)%in_map_iff & Hn%list_elem_of_In). apply keep_of_spec in Hn as (u & Hu & Eu & ->). exists s0, u. split_and!; try done. by apply list_elem_of_In.
  - destruct Hc as (s & u & Hs & Hu & Eu & ->). destruct H. apply list_elem_of_In, in_flat_map. exists (tidyShare s). split; [apply in_map_iff; exists s; split; [done|by apply list_elem_of_In]|].
    apply list_elem_of_In, keep_of_spec. by exists u.
Qed.

Section OrgSweep.
Context (D : Sweeper) (uses : list ShareUse).
(** What carries a share's label is a volume some recipe of that share named:
    the daemon's label filter, and [EnsureShare] being all that sets it. *)
Definition by_label : Prop := forall past id vs v, listed D past (Some (ShareLabel, id)) = Ok vs -> v ∈ vs -> exists s sub, sh_ID s = id /\ vi_Name v = ShareVolumeName s sub.
Lemma sweep_each_spec ss asked held : let r := sweep_each D ss uses asked held in
  (exists new, sw_asked r = asked ++ new) /\
  (by_label -> forall n, n ∈ sw_asked r -> n ∈ asked \/ exists s s' sub, s ∈ ss /\ sh_ID s' = sh_ID s /\ n = ShareVolumeName s' sub /\ n ∉ keep_of s uses) /\
  (sw_err r = None -> forall s, s ∈ ss -> exists past vs, listed D past (Some (ShareLabel, sh_ID s)) = Ok vs /\ forall v, v ∈ vs -> vi_Name v ∉ keep_of s uses -> vi_Name v ∈ sw_asked r).
Proof.
  revert asked held. induction ss as [|s ss IH]; intros asked held; cbn [sweep_each].
  - split_and!; [exists []; by rewrite app_nil_r|by left|by intros _ s ?%elem_of_nil].
  - destruct (listed D asked _) as [vs|e] eqn:El; [|split_and!; [exists []; by rewrite app_nil_r|by left|done]].
    set (stale := fun v => negb (contains (keep_of s uses) (vi_Name v))). pose proof (sweep_asked D stale vs asked held) as Ha. pose proof (sweep_all D stale vs asked held) as Hall.
    pose proof (sweep_prefix D stale vs asked held) as [new Hp]. set (r := sweep D stale vs asked held) in *.
    assert (forall v, stale v = true <-> vi_Name v ∉ keep_of s uses) as Hst.
    { intros v. subst stale. cbv beta. destruct (contains_spec (keep_of s uses) (vi_Name v)); cbn; split; done. }
    assert (by_label -> forall n, n ∈ sw_asked r -> n ∈ asked \/ exists s0 s' sub, s0 ∈ s :: ss /\ sh_ID s' = sh_ID s0 /\ n = ShareVolumeName s' sub /\ n ∉ keep_of s0 uses) as Hone.
    { intros Hl n [Hn|(v & Hv & Hs%Hst & <-)]%Ha; [by left|right]. destruct (Hl _ _ _ v El Hv) as (s' & sub & Hid & Hn). exists s, s', sub. split_and!; [by left|done|done|done]. }
    destruct (sw_err r) as [e|] eqn:Er; [split_and!; [by exists new|exact Hone|congruence]|].
    destruct (IH (sw_asked r) (sw_held r)) as ([new' Hp'] & Hn' & Hc'). split_and!.
    + exists (new ++ new'). by rewrite Hp', Hp, app_assoc.
    + intros Hl n [Hn|(s0 & s' & sub & Hs0 & H)]%Hn'; [by apply Hone|right; exists s0, s', sub; split; [by right|done]|done].
    + intros He s0 [->|Hs0]%elem_of_cons; [|by apply Hc']. exists asked, vs. split; [done|]. intros v Hv Hk. rewrite Hp'. apply elem_of_app. left. apply Hall; [done|done|by apply Hst].
Qed.
End OrgSweep.

(** The sweeps remove what no row claims, and nothing else.  Reconciling a
    node asks to remove only volumes that carry the share label and that no
    line of any org claims, and when it ends without an error it has asked for
    all of them; sweeping an org never asks for the volume of a line of that
    org, and when it ends without an error it has asked, share by share, for
    every volume of it that no line claims.  A volume said to be held is one a
    container holds. *)
Theorem sweeps_spare_claimed {St} `{!SlugTable St Share, !SlugTableLaws St Share} D :
  (forall all usesByOrg, let r := ReconcileShares D all usesByOrg in
     (forall n, n ∈ sw_asked r -> ~ claims all usesByOrg n /\ exists vs v, listed D [] None = Ok vs /\ v ∈ vs /\ labelled v = true /\ vi_Name v = n) /\
     (sw_err r = None -> forall vs v, listed D [] None = Ok vs -> v ∈ vs -> labelled v = true -> ~ claims all usesByOrg (vi_Name v) -> vi_Name v ∈ sw_asked r) /\
     (forall n, n ∈ sw_held r -> exists past, remove D past n = InUse)) /\
  (forall (t : St) org uses, table_ok (tab t) -> let r := SweepShares D t org uses in
     (by_label D -> forall s u, s ∈ Shares t org -> u ∈ uses -> su_Share u = sh_Slug s -> ShareVolumeName s (su_Sub u) ∉ sw_asked r) /\
     (sw_err r = None -> forall s, s ∈ Shares t org -> exists past vs, listed D past (Some (ShareLabel, sh_ID s)) = Ok vs /\
        forall v, v ∈ vs -> (forall u, u ∈ uses -> su_Share u = sh_Slug s -> vi_Name v <> ShareVolumeName s (su_Sub u)) -> vi_Name v ∈ sw_asked r)).
Proof.
  split.
  - intros all uses. unfold ReconcileShares. destruct (listed D [] None) as [vs|e] eqn:El; [|split_and!; [by intros n ?%elem_of_nil|done|by intros n ?%elem_of_nil]].
    set (stale := fun v => _). assert (forall v, stale v = true <-> labelled v = true /\ ~ claims all uses (vi_Name v)) as Hst.
    { intros v. subst stale. cbv beta. rewrite andb_true_iff, <-claims_spec. destruct (contains _ _); cbn; intuition congruence. }
    split_and!.
    + intros n [?%elem_of_nil|(v & Hv & [Hl Hc]%Hst & <-)]%sweep_asked; [done|]. split; [done|]. by exists vs, v.
    + intros He vs' v [= <-] Hv Hl Hc. apply sweep_all; [done|done|by apply Hst].
    + intros n Hn. destruct (sweep_spec D stale vs [] []) as [_ (h & Hh & Hi)]. rewrite Hh in Hn. by apply Hi in Hn as [_ Hp].
  - intros t org uses Ht. destruct (sweep_each_spec D uses (Shares t org) [] []) as (_ & Hn & Hc). split.
    + intros Hl s u Hs Hu Eu Hin. apply (Hn Hl) in Hin as [?%elem_of_nil|(s0 & s' & sub & Hs0 & Hid & En & Hk)]; [done|].
      apply ShareVolumeName_id in En as Ei. assert (s0 = s) as ->; [|apply Hk, keep_of_spec; by exists u].
      unfold Shares in Hs, Hs0. apply list_elem_of_fmap in Hs as (x & -> & Hx%elem_of_sort), Hs0 as (y & -> & Hy%elem_of_sort). cbn [tidyShare sh_ID] in *.
      apply elem_of_list_by in Hx as [Hx _], Hy as [Hy _]; [|done..]. change (rid x) with (sh_ID x) in Hx. change (rid y) with (sh_ID y) in Hy. rewrite Ei, Hid in Hx. congruence.
    + intros He s Hs. destruct (Hc He s Hs) as (past & vs & El & Hall). exists past, vs. split; [done|]. intros v Hv Hk. apply Hall; [done|].
      intros (u & Hu & Eu & En)%keep_of_spec. by apply (Hk u).
Qed.

(** A node with the volume of a line, that of an older recipe, and a tenant's
    own volume; the daemon lists what was not removed. *)
Definition ex_volumes : list VolumeInfo :=
  [MkVolumeInfo (ShareVolumeName ex_smb "a") {[ShareLabel := "s2"]}; MkVolumeInfo (ShareVolumeName ex_smb "old") {[ShareLabel := "s2"]}; MkVolumeInfo "data" ∅].
Definition ex_sweeper : Sweeper := MkSweeper
  (fun past label => Ok (List.filter (fun v => negb (contains past (vi_Name v)) &&
     match label with Some (k, x) => bool_decide (vi_Labels v !! k = Some x) | None => true end) ex_volumes))
  (fun _ _ => Removed).
Lemma ex_by_label : by_label ex_sweeper.
Proof.
  intros past id vs v <-%Ok_inj [Hv [_ Hl%bool_decide_eq_true]%andb_true_iff]%elem_of_filterb. unfold ex_volumes in Hv. rewrite !elem_of_cons, elem_of_nil in Hv.
  destruct Hv as [->|[->|[->|[]]]]; cbn [vi_Labels vi_Name] in *; [| |by rewrite lookup_empty in Hl]; rewrite lookup_singleton_eq in Hl; injection Hl as <-; by eexists ex_smb, _.
Qed.
#[local] Abbreviation ex_shares := ({["s2" := ex_smb]} : gmap string Share).
Lemma sweeps_spare_claimed_witness : let r := SweepShares ex_sweeper ex_shares "o1" [MkShareUse "docs" "a"] in
  sw_asked r = [ShareVolumeName ex_smb "old"] /\ (ShareVolumeName ex_smb "a" ∉ sw_asked r) /\
  ~ claims [ex_smb] (fun _ => []) (ShareVolumeName ex_smb "old").
Proof.
  cbv zeta. assert (Hr : sw_asked (ReconcileShares ex_sweeper [ex_smb] (fun _ => [])) = map vi_Name (take 2 ex_volumes)) by (vm_compute; reflexivity).
  split; [vm_compute; reflexivity|]. destruct (sweeps_spare_claimed (St := gmap string Share) ex_sweeper) as [Hrec Hsweep]. split.
  - refine (proj1 (Hsweep ex_shares "o1" [MkShareUse "docs" "a"] (singleton_ok ex_smb)) ex_by_label ex_smb (MkShareUse "docs" "a") _ _ eq_refl).
    + apply list_elem_of_In. vm_compute. by left.
    + by left.
  - refine (proj1 (proj1 (Hrec [ex_smb] (fun _ => [])) (ShareVolumeName ex_smb "old") _)). rewrite Hr. right. by left.
Defined.
