(* ===== verification/AccessSafe.v ===== *)
(** * What host access a tile gets is what was granted *)
From S2P Require Import Prelude GoStrings GoTrim Errs Slug Netip GoPath Sha256 Store Rows HostGrants VipFilter TileRow Docker TileLines Access.

(** ** LAN lines *)

Lemma cut_none sep s : has_byte sep s = false -> cut sep s = None.
Proof.
  induction s as [|c s IH]; [done|]. cbn [has_byte cut]. rewrite orb_false_iff. intros [Hc Hs].
  rewrite Ascii.eqb_sym, Hc. by rewrite IH.
Qed.
Lemma cut_last_none sep s : has_byte sep s = false -> cut_last sep s = None.
Proof. intros H. unfold cut_last. by rewrite cut_none by by rewrite has_byte_rev. Qed.

Lemma lanNet_ok s p : lanNet s = Some p -> Is4 (p_ip p) = true -> prefix4 p.
Proof.
  unfold lanNet. destruct (ParsePrefix s) as [q|] eqn:E; [intros [= ->] H4; exact (ParsePrefix_ok _ _ E H4)|].
  destruct (ParseAddr s) as [a|] eqn:Ea; [|done]. intros [= <-] H4. cbn [p_ip PrefixFrom] in H4.
  destruct a as [|x|x z]; [done| |done]. apply ParseAddr_ok in Ea as [Ha _]; [|done]. destruct Ha as (y & [= <-] & Hy).
  split; [by exists x|cbn; lia].
Qed.

(** A parsed LAN line: a masked IPv4 range and a port, 0 for every port. *)
Definition lan_ok (r : LANRule) : Prop := prefix4 (lr_Net r) /\ Masked (lr_Net r) = lr_Net r /\ 0 <= lr_Port r < 65536.

Lemma ParseLAN_ok l r : ParseLAN l = Ok r -> lan_ok r.
Proof.
  unfold ParseLAN. destruct (match lanNet l with Some _ => _ | None => _ end) as [net p].
  destruct (lanNet net) as [pf|] eqn:E; [|done]. destruct (Is4 (p_ip pf)) eqn:E4; [|done]. cbn [negb].
  pose proof (lanNet_ok _ _ E E4) as Hp. destruct p as [p|].
  - destruct (port p) eqn:Epo; [|done]. cbn [negb]. intros <-%Ok_inj. unfold port in Epo. destruct (Atoi p) as [n|]; [|done]. apply andb_true_iff in Epo as [?%Z.ltb_lt ?%Z.ltb_lt]. split_and!; cbn [lr_Net lr_Port];
      [by apply Masked4|by apply Masked_twice|cbn; lia|cbn; lia].
  - intros <-%Ok_inj. split_and!; cbn [lr_Net lr_Port]; [by apply Masked4|by apply Masked_twice|lia..].
Qed.

Lemma net_no c s : all_bytes netchar s = true -> netchar c = false -> has_byte c s = false.
Proof. apply has_byte_all. Qed.

(** The text of a range reads back, as a prefix or as an address. *)
Definition net_text (p : Prefix) : string := if IsSingleIP p then addr_text (p_ip p) else prefix_text p.
Lemma net_text_chars p : prefix4 p -> all_bytes netchar (net_text p) = true.
Proof. intros Hp. unfold net_text. destruct (IsSingleIP p); [by apply addr_netchars; destruct Hp|by apply prefix_netchars]. Qed.

Lemma single_ip p : prefix4 p -> IsSingleIP p = true -> p = MkPrefix (p_ip p) 32 /\ PrefixFrom (p_ip p) 32 = p.
Proof.
  intros [(x & Ex & Hx) Hb]. destruct p as [ip n]. cbn in *. subst ip. unfold IsSingleIP, PrefixValid. cbn. rewrite andb_true_iff, !Z.eqb_eq.
  by intros [_ ->].
Qed.

Lemma net_text_reads p : prefix4 p -> Masked p = p ->
  match prefix_or_addr (net_text p) with Some (inl q) => Masked q = p | Some (inr a) => PrefixFrom a 32 = p | None => False end.
Proof.
  intros Hp Hm. unfold net_text, prefix_or_addr. destruct (IsSingleIP p) eqn:Es.
  - destruct (single_ip p Hp Es) as [_ Hs]. assert (ParsePrefix (addr_text (p_ip p)) = None) as ->.
    { unfold ParsePrefix. rewrite cut_last_none; [done|]. destruct Hp as [(x & -> & Hx) _]. eapply has_byte_all; [apply string4_dotted|done]. }
    destruct Hp as [Ha _]. rewrite ParseAddr_text by done. destruct Ha as (x & Ex & _). rewrite Ex in *. done.
  - rewrite ParsePrefix_text by done. destruct Hp as [(x & -> & _) _]. done.
Qed.

(** Bytes of a word: no white space and no comma. *)
Definition wordc (c : ascii) : bool := dense c && negb (Ascii.eqb "," c).
Lemma netchar_word c : netchar c = true -> wordc c = true.
Proof. destruct c as [[] [] [] [] [] [] [] []]; vm_compute; congruence. Qed.
Lemma digit_word c : is_digit c = true -> wordc c = true.
Proof. destruct c as [[] [] [] [] [] [] [] []]; vm_compute; congruence. Qed.
Lemma word_dense s : all_bytes wordc s = true -> all_bytes dense s = true.
Proof. apply all_bytes_impl. intros c H. by apply andb_true_iff in H as []. Qed.

Lemma itoa_word n : 0 <= n -> all_bytes wordc (itoa n) = true.
Proof. intros Hn. eapply all_bytes_impl; [apply digit_word|by apply itoa_digits]. Qed.
Lemma LAN_string_word r : lan_ok r -> all_bytes wordc (LAN_string r) = true.
Proof.
  intros (Hp & _ & Hr). unfold LAN_string. rewrite all_bytes_app, andb_true_iff. split.
  - eapply all_bytes_impl; [apply netchar_word|by apply net_text_chars].
  - destruct (lr_Port r =? 0); [done|]. change (":" +:+ itoa (lr_Port r)) with (String ":" (itoa (lr_Port r))). cbn [all_bytes].
    by rewrite itoa_word by lia.
Qed.

(** The firewall reads a granted LAN line as the rule the tile wrote. *)
Lemma parseLan_string r : lan_ok r -> parseLan (LAN +:+ LAN_string r) = Ok (MkLan (lr_Net r) (lr_Port r)).
Proof.
  intros Hok. pose proof Hok as (Hp & Hm & Hr). unfold parseLan.
  rewrite trim_space_dense by (by rewrite all_bytes_app, (word_dense _ (LAN_string_word r Hok))).
  assert (trim_prefix (LAN +:+ LAN_string r) "lan:" = LAN_string r) as ->.
  { unfold trim_prefix. rewrite (proj2 (strip_prefix_spec "lan:" (LAN +:+ LAN_string r) (LAN_string r))); done. }
  pose proof (net_text_reads _ Hp Hm) as Ht. unfold LAN_string. fold (net_text (lr_Net r)).
  destruct (Z.eqb_spec (lr_Port r) 0) as [E0|E0].
  - rewrite app_nil_r_str, cut_last_none by (eapply net_no; [by apply net_text_chars|done]).
    destruct (prefix_or_addr _) as [[q|a]|]; [by rewrite Ht, E0|by rewrite Ht, E0|done].
  - change (":" +:+ itoa (lr_Port r)) with (String ":" (itoa (lr_Port r))).
    rewrite cut_last_no by (eapply has_byte_all; [apply itoa_digits; lia|done]). rewrite Atoi_itoa by lia.
    destruct (Z.ltb_spec (lr_Port r) 1); [lia|]. destruct (Z.ltb_spec 65535 (lr_Port r)); [lia|]. cbn [orb].
    destruct (prefix_or_addr _) as [[q|a]|]; [by rewrite Ht|by rewrite Ht|done].
Qed.

(** ** The lines of a set are clean *)

(** Text that is stored, asked for and read back unchanged. *)
Definition plain (s : string) : Prop := tidy s /\ s <> "" /\ has_byte "010" s = false /\ has_byte "," s = false.

Lemma Lines_tidy s l : l ∈ Lines s -> tidy l /\ l <> "" /\ has_byte "010" l = false.
Proof.
  unfold Lines. rewrite elem_of_filterb, negb_true_iff, String.eqb_neq. intros [(x & -> & Hx)%list_elem_of_fmap Hn].
  split_and!; [apply trim_tidy|done|]. apply trim_space_no. by apply (proj1 (Forall_forall _ _) (split_no_sep "010" s)).
Qed.

Lemma all_bytes_of p s : (forall c, p c = false -> has_byte c s = false) -> all_bytes p s = true.
Proof.
  induction s as [|c s IH]; [done|]. intros H. cbn [all_bytes]. apply andb_true_iff. split.
  - destruct (p c) eqn:E; [done|]. apply H in E. cbn [has_byte] in E. by rewrite Ascii.eqb_refl in E.
  - apply IH. intros d Hd. apply H in Hd. cbn [has_byte] in Hd. by apply orb_false_iff in Hd as [_ Hd].
Qed.
Lemma slug_dense s : Valid s = true -> all_bytes dense s = true.
Proof.
  intros Hv. apply all_bytes_of. intros c Hc. apply slug_no_byte; [done| |by intros ->].
  destruct (slug_byte c) eqn:E; [|done]. revert Hc E. destruct c as [[] [] [] [] [] [] [] []]; vm_compute; congruence.
Qed.
Lemma dense_tidy s : all_bytes dense s = true -> tidy s.
Proof. intros H. apply trim_space_tidy. by apply trim_space_dense. Qed.

Lemma plain_line slug p : Valid slug = true -> plain p -> plain (Line slug p).
Proof.
  intros Hv ((H1 & H2) & Hn & Hl & Hc). assert (all_bytes dense slug = true) as Hd by by apply slug_dense.
  assert (slug <> "") as Hne by (intros ->; by vm_compute in Hv). unfold Line, plain. rewrite !has_byte_app, Hl, Hc.
  change (slug +:+ " " +:+ p) with (slug +:+ String " " p). split_and!.
  - split.
    + apply lead_more; [done|done|]. by apply dense_tidy.
    + change (String " " p) with (String " " "" +:+ p). rewrite !rev_str_app, <-app_assoc_str. apply lead_more; [done| |done].
      intros E. apply Hn. by rewrite <-(rev_str_involutive p), E.
  - by destruct slug.
  - change (" " +:+ p) with (String " " p). cbn [has_byte]. by rewrite (Netip.has_byte_all dense "010" slug).
  - by rewrite (slug_no_byte slug ",").
Qed.

(** A row whose device lines parse: what saving a tile checks. *)
Definition devices_ok (t : Tile) : Prop := Forall (fun l => is_ok (ParseDevice l) = true) (Lines (t_Devices t)).

Lemma ParseDevice_no_comma l : is_ok (ParseDevice l) = true -> has_byte "," l = false.
Proof. unfold ParseDevice. intros H. destruct (has_byte "," l); [|done]. by rewrite orb_true_r in H. Qed.

Lemma plain_prefix p s : all_bytes dense p = true -> has_byte "," p = false -> plain s -> lead false (p +:+ s) = 0%nat ->
  plain (p +:+ s).
Proof.
  intros Hd Hc ((H1 & H2) & Hn & Hl & Hcs) Hlead. unfold plain. rewrite !has_byte_app, Hc, Hcs, Hl, (Netip.has_byte_all dense "010" p) by done.
  split_and!; try done.
  - split; [done|]. rewrite rev_str_app. destruct (rev_str p) as [|d q] eqn:E; [by rewrite app_nil_r_str|]. apply lead_more; [| |done].
    + pose proof (all_bytes_rev dense p) as Hr. rewrite E, Hd in Hr. cbn [all_bytes] in Hr. unfold dense in Hr. bsimpl. done.
    + intros Es. apply Hn. by rewrite <-(rev_str_involutive s), Es.
  - by destruct p.
Qed.

Lemma plain_word s : all_bytes wordc s = true -> s <> "" -> plain s.
Proof.
  intros Hw Hn. pose proof (word_dense s Hw) as Hd. split_and!; [by apply dense_tidy|done|by apply (Netip.has_byte_all wordc)|by apply (Netip.has_byte_all wordc)].
Qed.

Lemma hex_digit_word x : wordc (hex_digit (Z.land x 15)) = true.
Proof.
  change 15 with (Z.ones 4). rewrite Z.land_ones by lia. change (2 ^ 4) with 16. pose proof (Z.mod_pos_bound x 16 ltac:(lia)) as H.
  remember (x mod 16) as n eqn:E. clear E.
  assert (forallb (fun i => wordc (hex_digit (Z.of_nat i))) (seq 0 16) = true) as Ha by reflexivity.
  rewrite <-(Z2Nat.id n) by lia. apply (proj1 (forallb_forall _ _) Ha), in_seq. lia.
Qed.
Lemma hex6_word sum : all_bytes wordc (hex6 sum) = true.
Proof.
  unfold hex6. generalize [15; 14; 13; 12; 11; 10; 9; 8; 7; 6; 5; 4]. intros l.
  assert (forall ws, Forall (fun w => all_bytes wordc w = true) ws -> all_bytes wordc (String.concat "" ws) = true) as Hc.
  { induction 1 as [|w ws Hw _ IH]; [done|]. destruct ws as [|v ws]; [done|].
    change (String.concat "" (w :: v :: ws)) with (w +:+ "" +:+ String.concat "" (v :: ws)). by rewrite !all_bytes_app, Hw, IH. }
  apply Hc. apply Forall_forall. intros w (i & -> & _)%list_elem_of_fmap. cbn [all_bytes]. by rewrite hex_digit_word.
Qed.

Lemma ParsePort_ok l h c proto : ParsePort l = Ok (h, c, proto) -> 0 < h < 65536 /\ 0 < c < 65536 /\ (proto = "tcp" \/ proto = "udp").
Proof.
  unfold ParsePort. destruct (cut ":" l) as [[a b]|]; [|done]. destruct (cut_or "/" b) as [c0 p]. unfold port.
  destruct (Atoi a) as [n|]; [|done]. destruct (Z.ltb_spec 0 n); [|done]. destruct (Z.ltb_spec n 65536); [|done]. cbn [andb negb orb].
  destruct (Atoi c0) as [m|]; [|done]. destruct (Z.ltb_spec 0 m); [|done]. destruct (Z.ltb_spec m 65536); [|done]. cbn [andb negb orb].
  set (q := if String.eqb p "" then "tcp" else p). destruct (String.eqb_spec q "tcp") as [->|]; [by intros [= <- <- <-]; auto|].
  destruct (String.eqb_spec q "udp") as [->|]; [by intros [= <- <- <-]; auto|done].
Qed.

Lemma elem_of_flat_map {A B} (f : A -> list B) l x : x ∈ flat_map f l <-> exists y, y ∈ l /\ x ∈ f y.
Proof.
  rewrite list_elem_of_In, in_flat_map. split; intros (y & H1 & H2); exists y; (split; [by apply list_elem_of_In|by apply list_elem_of_In]).
Qed.

(** Every perm of a tile whose devices parse is plain. *)
Lemma tile_perms_plain t : devices_ok t -> Forall plain (tile_perms t).
Proof.
  intros Hdev. unfold tile_perms. rewrite !Forall_app. split_and!; apply Forall_forall; intros p.
  - intros (l & Hl & Hp)%elem_of_flat_map. unfold host_perms in Hp. destruct (ParseMount l) as [m|] eqn:E; [|by apply not_elem_of_nil in Hp].
    destruct (String.eqb_spec (Kind m) MountHost) as [Hk|]; [|by apply not_elem_of_nil in Hp]. apply list_elem_of_singleton in Hp as ->.
    destruct (ParseMount_host l m E Hk) as (Hhl & _ & Hc & _). fold (roSuffix m) in Hhl. fold (HostLine m) in Hhl. rewrite <-Hhl.
    destruct (Lines_tidy _ _ Hl) as (H1 & H2 & H3). done.
  - intros (l & -> & Hl)%list_elem_of_fmap. pose proof (Lines_tidy _ _ Hl) as (H1 & H2 & H3).
    apply plain_prefix; [done|done| |reflexivity]. split_and!; [done..|]. by apply ParseDevice_no_comma, (proj1 (Forall_forall _ _) Hdev).
  - intros (l & Hl & Hp)%elem_of_flat_map. unfold lan_perms in Hp. destruct (ParseLAN l) as [r|] eqn:E; [|by apply not_elem_of_nil in Hp].
    apply list_elem_of_singleton in Hp as ->. apply plain_word; [|done]. rewrite all_bytes_app. by rewrite (LAN_string_word r) by by eapply ParseLAN_ok.
  - intros (l & Hl & Hp)%elem_of_flat_map. unfold port_perms in Hp. destruct (ParsePort l) as [[[h c] proto]|] eqn:E; [|by apply not_elem_of_nil in Hp].
    apply list_elem_of_singleton in Hp as ->. apply ParsePort_ok in E as (Hh & _). apply plain_word; [|done]. unfold port_perm.
    rewrite !all_bytes_app, itoa_word by lia. by destruct (String.eqb proto "udp").
  - destruct (t_Privileged t); [|by intros Hp%not_elem_of_nil]. intros ->%list_elem_of_singleton. by apply plain_word.
  - destruct (t_HostNetwork t); [|by intros Hp%not_elem_of_nil]. intros ->%list_elem_of_singleton. by apply plain_word.
Qed.

Lemma HostSet_plain t : Valid (t_Slug t) = true -> devices_ok t -> Forall plain (HostSet [t]).
Proof.
  intros Hv Hd. apply Forall_Norm. cbn [flat_map]. rewrite app_nil_r. unfold tile_lines. apply Forall_forall.
  intros x (p & -> & Hp)%list_elem_of_fmap. apply plain_line; [done|]. apply elem_of_app in Hp as [Hp|Hp].
  - by apply (proj1 (Forall_forall _ _) (tile_perms_plain t Hd)).
  - destruct (tile_perms t); [by apply not_elem_of_nil in Hp|]. apply list_elem_of_singleton in Hp as ->.
    apply plain_word; [|done]. unfold tileSource. rewrite all_bytes_app. by rewrite hex6_word.
Qed.

(** ** From an ask to a deploy *)

Lemma plain_line_ok ls : Forall plain ls -> Forall line_ok ls.
Proof. intros H. eapply Forall_impl; [exact H|]. intros l (H1 & H2 & H3 & _). split_and!; [by apply tidy_trim|done|done]. Qed.
Lemma plain_ask ls : Forall plain ls -> Forall (fun l => l <> "" /\ has_byte "," l = false) ls.
Proof. intros H. eapply Forall_impl; [exact H|]. by intros l (_ & H2 & _ & H4). Qed.

Lemma Of_sorted tbl stack ls : Of tbl stack = Ok ls -> StronglySorted before ls.
Proof.
  unfold Of. destruct (GetByStack tbl stack) as [g|e] eqn:E.
  - intros <-%Ok_inj. apply Norm_sorted.
  - apply GetByStack_none in E as [-> _]. intros [= <-]. constructor.
Qed.
Lemma Of_total tbl stack : exists ls, Of tbl stack = Ok ls /\ granted tbl stack = list_to_set ls.
Proof.
  assert (exists ls, Of tbl stack = Ok ls) as [ls E]; [|exists ls; split; [done|by unfold granted; rewrite E]].
  unfold Of. destruct (GetByStack tbl stack) as [g|e] eqn:E; [by eexists|]. apply GetByStack_none in E as [-> _]. by eexists.
Qed.

Lemma Check_grants tbl stack want : Check tbl stack want = Ok tt <-> (forall l, l ∈ want -> l ∈ granted tbl stack).
Proof.
  unfold Check. destruct (Of_total tbl stack) as (ls & -> & ->). split.
  - destruct (Missing want ls) as [|x m] eqn:E; [|done]. intros _ l Hl. apply elem_of_list_to_set.
    destruct (decide (l ∈ ls)) as [|Hn]; [done|]. exfalso. apply (not_elem_of_nil l). rewrite <-E. by apply elem_of_Missing.
  - intros H. destruct (Missing want ls) as [|x m] eqn:E; [done|]. exfalso. assert (x ∈ Missing want ls) as Hx by (rewrite E; left).
    apply elem_of_Missing in Hx as [Hx Hn]. apply H in Hx. by apply elem_of_list_to_set in Hx.
Qed.

Lemma checkAccess_ok tbl stack t g : checkAccess (Some tbl) stack t = Ok g ->
  (forall l, l ∈ HostSet [t] -> l ∈ g) /\ Of tbl stack = Ok g.
Proof.
  unfold checkAccess. destruct (Check tbl stack (HostSet [t])) as [[]|e] eqn:E; [|done]. intros Hg. split; [|done].
  pose proof (proj1 (Check_grants _ _ _) E) as H. intros l Hl. apply H in Hl. unfold granted in Hl. rewrite Hg in Hl. by apply elem_of_list_to_set in Hl.
Qed.

Lemma elem_of_HostSet t p : p ∈ tile_perms t -> Line (t_Slug t) p ∈ HostSet [t].
Proof.
  intros Hp. unfold HostSet. apply elem_of_Norm. cbn [flat_map]. rewrite app_nil_r. unfold tile_lines.
  apply list_elem_of_fmap. exists p. split; [done|]. apply elem_of_app. by left.
Qed.
Lemma elem_of_HostSet_source t p : p ∈ tile_perms t -> Line (t_Slug t) (Source +:+ tileSource t) ∈ HostSet [t].
Proof.
  intros Hp. unfold HostSet. apply elem_of_Norm. cbn [flat_map]. rewrite app_nil_r. unfold tile_lines.
  apply list_elem_of_fmap. eexists. split; [reflexivity|]. apply elem_of_app. right.
  destruct (tile_perms t); [by apply not_elem_of_nil in Hp|]. by apply list_elem_of_singleton.
Qed.

(** C10. The approval loop closes.  A deploy whose host access is not covered
    parks with a text; that text, read back and approved, is exactly what was
    missing, and the same deploy then passes.  The approval widens this stack's
    grant by the asked lines and leaves every other stack's as it was. *)
Theorem approval_loop tbl stack t id now user : grants_ok tbl -> Valid (t_Slug t) = true -> devices_ok t -> id ∉ map row_id tbl ->
  (exists g, checkAccess (Some tbl) stack t = Ok g) \/
  exists what ask tbl', checkAccess (Some tbl) stack t = Err (NeedsApproval stack what) /\ Parse what = Some ask /\
    Approve id now stack user ask tbl = Ok tbl' /\
    (forall l, l ∈ ask <-> l ∈ HostSet [t] /\ l ∉ granted tbl stack) /\
    (exists g, checkAccess (Some tbl') stack t = Ok g) /\
    forall s, granted tbl' s = if String.eqb s stack then granted tbl s ∪ list_to_set ask else granted tbl s.
Proof.
  intros Hok Hv Hd Hid. pose proof (HostSet_plain t Hv Hd) as Hpl. unfold checkAccess.
  destruct (Check_cases tbl stack (HostSet [t]) (plain_ask _ Hpl)) as [[E _]|(what & ask & E & Hp & Hne & Hask)].
  { left. rewrite E. destruct (Of_total tbl stack) as (ls & -> & _). by eexists. }
  right. assert (Forall line_ok ask) as Hlo.
  { apply Forall_forall. intros l Hl. apply Hask in Hl as [Hl _]. by apply (proj1 (Forall_forall _ _) (plain_line_ok _ Hpl)). }
  destruct (Approve_refines id now stack user ask tbl Hok Hid Hlo) as (_ & _ & Hgr). unfold run in Hgr.
  destruct (Approve_ok id now stack user ask tbl) as [tbl' Ea]; [done|done|]. rewrite Ea in Hgr.
  exists what, ask, tbl'. rewrite E. split_and!; try done.
  assert (Check tbl' stack (HostSet [t]) = Ok tt) as ->.
  { apply Check_grants. intros l Hl. rewrite Hgr. cbn [spec_run]. rewrite String.eqb_refl. apply elem_of_union.
    destruct (decide (l ∈ granted tbl stack)) as [|Hn]; [by left|]. right. apply elem_of_list_to_set. by apply Hask. }
  destruct (Of_total tbl' stack) as (ls & -> & _). by eexists.
Qed.

(** A perm that starts as a LAN one is one. *)
Lemma lan_perm_only t s : LAN +:+ s ∈ tile_perms t ++ match tile_perms t with [] => [] | _ => [Source +:+ tileSource t] end ->
  LAN +:+ s ∈ flat_map lan_perms (Lines (t_Lan t)).
Proof.
  intros [Hp|Hp]%elem_of_app.
  - unfold tile_perms in Hp. rewrite !elem_of_app in Hp. destruct Hp as [Hp|[Hp|[Hp|[Hp|[Hp|Hp]]]]]; [| |done|..]; exfalso.
    + apply elem_of_flat_map in Hp as (l & _ & Hp). unfold host_perms in Hp. destruct (ParseMount l) as [m|]; [|by apply not_elem_of_nil in Hp].
      destruct (String.eqb _ _); [|by apply not_elem_of_nil in Hp]. by apply list_elem_of_singleton in Hp.
    + by apply list_elem_of_fmap in Hp as (l & E & _).
    + apply elem_of_flat_map in Hp as (l & _ & Hp). unfold port_perms in Hp. destruct (ParsePort l) as [[[h c] p]|]; [|by apply not_elem_of_nil in Hp].
      by apply list_elem_of_singleton in Hp.
    + destruct (t_Privileged t); [by apply list_elem_of_singleton in Hp|by apply not_elem_of_nil in Hp].
    + destruct (t_HostNetwork t); [by apply list_elem_of_singleton in Hp|by apply not_elem_of_nil in Hp].
  - exfalso. destruct (tile_perms t); [by apply not_elem_of_nil in Hp|]. by apply list_elem_of_singleton in Hp.
Qed.

(** What the firewall is told is what the tile wrote and the admin granted:
    every LAN line handed to the virtual address layer was granted for this
    tile, comes from a line of its row, and is read there as that line's rule,
    the same range and port. *)
Theorem Lan_reaches_firewall g t l : l ∈ LanLines g t -> Valid (t_Slug t) = true ->
  exists line r, line ∈ Lines (t_Lan t) /\ ParseLAN line = Ok r /\ Line (t_Slug t) l ∈ g /\
    parseLan l = Ok (MkLan (lr_Net r) (lr_Port r)).
Proof.
  intros (x & -> & Hx)%list_elem_of_fmap Hv. apply elem_of_filterb in Hx as [Hx [Hpre Hg]%andb_true_iff].
  unfold HostSet in Hx. apply (proj1 (elem_of_Norm _ _)) in Hx. cbn [flat_map] in Hx. rewrite app_nil_r in Hx. unfold tile_lines in Hx.
  apply list_elem_of_fmap in Hx as (p & -> & Hp).
  assert (Split (Line (t_Slug t) p) = (t_Slug t, p)) as Es.
  { unfold Split, Line. change (t_Slug t +:+ " " +:+ p) with (t_Slug t +:+ String " " p). by rewrite cut_no by by apply slug_no_byte. }
  rewrite Es in Hpre |- *. cbn [snd] in *. unfold Has in Hg. destruct (contains_spec g (Line (t_Slug t) p)) as [Hg'|]; [|done].
  apply has_prefix_spec in Hpre as [s ->].
  assert (LAN +:+ s ∈ flat_map lan_perms (Lines (t_Lan t))) as Hl by by apply lan_perm_only.
  apply elem_of_flat_map in Hl as (line & Hline & Hl). unfold lan_perms in Hl. destruct (ParseLAN line) as [r|] eqn:E; [|by apply not_elem_of_nil in Hl].
  apply list_elem_of_singleton in Hl. rewrite Hl in *. exists line, r. split_and!; try done. apply parseLan_string. by eapply ParseLAN_ok.
Qed.

(** ** What a container is given, line by line *)

(** A row whose port lines parse: what saving a tile checks. *)
Definition ports_ok (t : Tile) : Prop := Forall (fun l => is_ok (ParsePort l) = true) (Lines (t_PublishedPorts t)).

(** The key a container's port is published under, and the perm it needs. *)
Definition published_for (host : string) (h : Z) (proto : string) : Prop :=
  exists hs, Atoi hs = Some h /\ ((proto = "tcp" /\ host = hs) \/ (proto = "udp" /\ host = hs +:+ "/udp")).

Lemma published_line_parses l acc h c proto : ParsePort l = Ok (h, c, proto) ->
  exists host cont, published_line acc l = (<[host := cont]> acc.1, acc.2) /\ published_for host h proto.
Proof.
  unfold ParsePort, published_line. destruct (has_prefix l "#") eqn:Eh.
  { apply has_prefix_spec in Eh as [x ->]. pose proof (cut_spec ":" ("#" +:+ x)) as Hc. destruct (cut ":" _) as [[a b]|]; [|done].
    destruct Hc as [Hc _]. destruct (cut_or "/" b) as [c0 p]. assert (port a = false) as ->; [|done].
    unfold port. destruct a as [|d a]; [done|]. rewrite app_cons_str in Hc. injection Hc as <- _. done. }
  destruct (cut ":" l) as [[a b]|]; [|done]. destruct (cut_or "/" b) as [c0 p] eqn:Ec.
  destruct (port a) eqn:Ea; [|done]. destruct (port c0) eqn:Ec0; [|done]. cbn [negb orb].
  assert (String.eqb a "" = false) as -> by by (apply String.eqb_neq; intros ->).
  assert (String.eqb b "" = false) as -> by by (apply String.eqb_neq; intros ->; injection Ec as <- <-).
  cbn [orb snd]. unfold port in Ea. destruct (Atoi a) as [n|] eqn:Ean; [|done].
  destruct (String.eqb_spec p "") as [->|Hp]; cbn [negb andb].
  - intros [= <- <- <-]. exists a, b. split; [done|]. exists a. auto.
  - destruct (String.eqb_spec p "tcp") as [->|Hp2]; cbn [negb andb orb].
    + intros [= <- <- <-]. exists a, b. split; [done|]. exists a. auto.
    + destruct (String.eqb_spec p "udp") as [->|]; [|done]. intros [= <- <- <-]. exists (a +:+ "/udp"), b. split; [done|]. exists a. auto.
Qed.

Lemma publishedPorts_parse s : Forall (fun l => is_ok (ParsePort l) = true) (Lines s) -> forall host cont,
  (publishedPorts s).1 !! host = Some cont ->
  exists l h c proto, l ∈ Lines s /\ ParsePort l = Ok (h, c, proto) /\ published_for host h proto.
Proof.
  unfold publishedPorts. intros Hp host cont. enough (forall ls acc, Forall (fun l => is_ok (ParsePort l) = true) ls ->
    (fold_left published_line ls acc).1 !! host = Some cont ->
    acc.1 !! host = Some cont \/ exists l h c proto, l ∈ ls /\ ParsePort l = Ok (h, c, proto) /\ published_for host h proto) as H.
  { intros Hl. by destruct (H (Lines s) (∅, []) Hp Hl). }
  clear. induction ls as [|l ls IH]; intros acc Hls Hl; [by left|]. apply Forall_cons in Hls as [H1 Hls]. cbn [fold_left] in Hl.
  destruct (ParsePort l) as [[[h c] proto]|] eqn:E; [|done].
  destruct (published_line_parses l acc h c proto E) as (k & v & Ek & Hk). apply IH in Hl as [Hl|(l' & h' & c' & p' & Hin & Hr)]; [|right|done].
  - rewrite Ek in Hl. cbn [fst] in Hl. destruct (decide (k = host)) as [->|Hne].
    + right. exists l, h, c, proto. split; [left|done].
    + rewrite lookup_insert_ne in Hl by done. by left.
  - exists l', h', c', p'. split; [by right|done].
Qed.

(** What a tile that passes the check was granted: each port by number and
    protocol, each device by its line, the privileged and host-network flags by
    name; and whenever it asks for anything, the image and command it runs. *)
Lemma checkAccess_covers t tbl stack g : checkAccess (Some tbl) stack t = Ok g ->
  (ports_ok t -> forall host cont, (publishedPorts (t_PublishedPorts t)).1 !! host = Some cont ->
    exists h proto, published_for host h proto /\ Line (t_Slug t) (port_perm h proto) ∈ g) /\
  (forall l, l ∈ Lines (t_Devices t) -> Line (t_Slug t) (DevicePerm +:+ l) ∈ g) /\
  (tile_perms t <> [] -> Line (t_Slug t) (Source +:+ tileSource t) ∈ g).
Proof.
  intros Hok. destruct (checkAccess_ok tbl stack t g Hok) as [Hset _]. split_and!.
  - intros Hports host cont Hl. destruct (publishedPorts_parse _ Hports host cont Hl) as (l & h & c & proto & Hin & E & Hp).
    exists h, proto. split; [done|]. apply Hset, elem_of_HostSet. unfold tile_perms. rewrite !elem_of_app. do 3 right. left.
    apply elem_of_flat_map. exists l. split; [done|]. unfold port_perms. rewrite E. by apply list_elem_of_singleton.
  - intros l Hl. apply Hset, elem_of_HostSet. unfold tile_perms. rewrite !elem_of_app. right. left. apply list_elem_of_fmap. by exists l.
  - intros Hne. destruct (tile_perms t) as [|p ps] eqn:E; [done|]. apply Hset, (elem_of_HostSet_source t p). rewrite E. left.
Qed.

(** ** Witnesses *)

Definition ex_lines (ls : list string) : string := join nl ls.
Definition ex_tile : Tile :=
  MkTile "t" "s" "e" "Web" "web" "service" "" "" "nginx:1" "" "" "" "" "" (ex_lines ["host:/srv/www:/www:ro"; "data:/data"]) "" 80
    (ex_lines ["80:8080"; "53:53/udp"]) "" "" "" 0 0 0 0 0 0 "" 0 true (ex_lines ["/dev/dri"]) (ex_lines ["10.0.0.0/8:443"; "192.168.1.7"]) false
    "" "" "" "" 1 "" "" "" "" false 0 None None None [] 0 0.
Definition ex_table : list HostGrant := [MkGrant "g" "s" (join nl (HostSet [ex_tile])) "root" 0].

Lemma approval_loop_witness : exists what ask tbl', checkAccess (Some []) "s" ex_tile = Err (NeedsApproval "s" what) /\ Parse what = Some ask /\
  Approve "g" 0 "s" "root" ask [] = Ok tbl' /\ exists g, checkAccess (Some tbl') "s" ex_tile = Ok g.
Proof.
  destruct (approval_loop [] "s" ex_tile "g" 0 "root") as [[g H]|(what & ask & tbl' & H1 & H2 & H3 & _ & H4 & _)].
  - repeat constructor.
  - reflexivity.
  - apply (bool_decide_eq_true_1 _). vm_compute. reflexivity.
  - apply not_elem_of_nil.
  - vm_compute in H. discriminate H.
  - exists what, ask, tbl'. split_and!; [exact H1|exact H2|exact H3|exact H4].
Defined.

Lemma Lan_reaches_firewall_witness : exists line r, line ∈ Lines (t_Lan ex_tile) /\ ParseLAN line = Ok r /\
  parseLan "lan:10.0.0.0/8:443" = Ok (MkLan (lr_Net r) (lr_Port r)).
Proof.
  destruct (Lan_reaches_firewall (HostSet [ex_tile]) ex_tile "lan:10.0.0.0/8:443") as (line & r & H1 & H2 & _ & H4).
  - apply (bool_decide_eq_true_1 _). vm_compute. reflexivity.
  - reflexivity.
  - exists line, r. split_and!; [exact H1|exact H2|exact H4].
Defined.
