(* ===== verification/Rollout.v ===== *)
(** * Rolling a tile out ([service/internal/flow/deploy/deploy.go], [spec.go])

    From a tile's resolved facts to its replicas, over the [World] of [Docker]:
    the container of a replica, the overlapping rollout and the one that stops
    first. *)
From S2P Require Import Prelude GoStrings Errs Slug Outside TileRow Docker TileLines TileCheck Access Tiles.

(** ** The container of a replica *)

Record resolved := MkResolved {
  r_name : string; r_image : string; r_pinRef : string; r_env : list string; r_binds : list string;
  r_mounts : list Docker.Mount; r_cmd : list string; r_ports : gmap string string; r_devices : list Device;
  r_privileged : bool; r_hostNet : bool; r_networks : list NetAttach; r_extraHosts : list string;
  r_cpu : Z; r_memMB : Z; r_pids : Z }.

Definition LabelRef : string := "stackr.ref".
Definition or_str (a b : string) : string := if String.eqb a "" then b else a.

Definition spec (t : Tile) (r : resolved) : ContainerSpec := {|
  s_Name := r_name r; s_Image := r_image r; s_Cmd := r_cmd r; s_Env := r_env r;
  s_Labels := {[LabelRef := or_str (r_pinRef r) (r_image r)]}; s_Volumes := r_binds r; s_Mounts := r_mounts r;
  s_Ports := r_ports r; s_AnyIP := false; s_Networks := r_networks r; s_HostNetwork := r_hostNet r; s_PidHost := false;
  s_CapAdd := []; s_ExtraHosts := r_extraHosts r; s_CapDrop := if r_privileged r then [] else ["NET_RAW"];
  s_CPULimit := r_cpu r; s_MemLimitMB := r_memMB r; s_PidsLimit := r_pids r; s_User := t_User t; s_ShmSizeMB := t_ShmSizeMB t;
  s_Privileged := r_privileged r; s_Devices := r_devices r; s_Restart := restart (t_RestartPolicy t);
  s_HealthCmd := t_HealthcheckCmd t;
  s_HealthIntervalS := if negb (String.eqb (t_HealthcheckCmd t) "") && (t_HealthcheckIntervalS t =? 0) then 5 else t_HealthcheckIntervalS t;
  s_HealthTimeoutS := t_HealthcheckTimeoutS t; s_HealthRetries := t_HealthcheckRetries t;
  s_HealthStartPeriodS := t_HealthcheckStartPeriodS t |}.

(** The flow: its tile leaf and which callbacks are set. *)
Record Flow := MkFlow { f_Tiles : Leaf; f_Sync : bool; f_HostGrants : bool }.
Record Env := MkEnv { e_Network : string }.

Section Flow.
Context (W : World) (f : Flow).
#[local] Abbreviation tiles := (f_Tiles f).

(** ** Routing *)

Definition routeVIP (ctx : Ctx) (t : Tile) (e : Env) : M unit :=
  lan <~ (if f_HostGrants f then g <~ reads W (EGrants (t_StackID t)) (fun h => w_grants W h (t_StackID t)) ;; ret (LanLines g t)
          else ret []) ;;
  Route W tiles ctx t (e_Network e) lan.

Definition sync (ctx : Ctx) : M unit := if f_Sync f then call W (ESync ctx) else ret tt.
Definition route (ctx : Ctx) (t : Tile) (e : Env) : M unit :=
  if t_HostNetwork t then _ <~ DropPause W tiles ctx t (e_Network e) ;; sync ctx
  else _ <~ routeVIP ctx t e ;; sync ctx.

(** ** Old replicas *)

(** [err != nil && !errors.Is(err, errs.ErrNotFound)]. *)
Definition unless_gone (m : M unit) : M unit := fun st =>
  match m st with
  | (st, Err e) => if is_not_found e then (st, Ok tt) else (st, Err e)
  | ok => ok
  end.
Definition remove_old (ctx : Ctx) (t : Tile) (cs : list Container) : M unit :=
  each (fun c => unless_gone (Remove W tiles ctx (t_ID t) (k_ID c))) cs.

(** ** With overlap *)

Definition quietly {A} (m : M A) (st : St) : St := fst (m st).
Definition drop_started (ctx : Ctx) (t : Tile) (started : list string) (st : St) : St :=
  fold_left (fun st id => quietly (Remove W tiles (WithoutCancel ctx) (t_ID t) id) st) started st.

(** [n] replicas from number [i] on, after those [started]. *)
Fixpoint start_all (ctx : Ctx) (t : Tile) (r : resolved) (n : nat) (i : Z) (started : list string) : M (list string) := fun st =>
  match n with
  | O => (st, Ok started)
  | S n =>
      match Start W tiles ctx t (with_Name (spec t r) (r_name r +:+ "-" +:+ itoa (i + 1))) st with
      | (st, Err e) => (drop_started ctx t started st, Err e)
      | (st, Ok id) => start_all ctx t r n (i + 1) (started ++ [id]) st
      end
  end.

Definition overlapping (ctx : Ctx) (t : Tile) (e : Env) (r : resolved) (old : list Container) : M unit :=
  _ <~ call W ESwap ;;
  _ <~ start_all ctx t r (Z.to_nat (Z.max (t_Replicas t) 1)) 0 [] ;;
  _ <~ route ctx t e ;;
  match old with
  | [] => ret tt
  | _ => _ <~ remove_old ctx t old ;; route ctx t e
  end.

(** ** Stopping first *)

Definition revive (ctx : Ctx) (t : Tile) (e : Env) (stopped : list Container) (drop : string) (st : St) : St :=
  let ctx := WithoutCancel ctx in
  let st := if String.eqb drop "" then st else quietly (Remove W tiles ctx (t_ID t) drop) st in
  let st := fold_left (fun st c => quietly (StartContainer W tiles ctx (t_ID t) (k_ID c)) st) stopped st in
  quietly (route ctx t e) st.

(** Stop the running ones of [old]; one that fails revives those stopped. *)
Fixpoint stop_old (ctx : Ctx) (t : Tile) (e : Env) (id : string) (old stopped : list Container) : M (list Container) := fun st =>
  match old with
  | [] => (st, Ok stopped)
  | c :: old =>
      if negb (is_running c) then stop_old ctx t e id old stopped st
      else match unless_gone (Stop W tiles ctx (t_ID t) (k_ID c)) st with
        | (st, Err err) => (revive ctx t e stopped id st, Err err)
        | (st, Ok _) => stop_old ctx t e id old (stopped ++ [c]) st
        end
  end.

Definition stopFirst (ctx : Ctx) (t : Tile) (e : Env) (r : resolved) (old : list Container) : M unit :=
  _ <~ call W ESwap ;;
  id <~ CreateReplica W tiles ctx t (with_Name (spec t r) (r_name r +:+ "-1")) ;;
  stopped <~ stop_old ctx t e id old [] ;;
  _ <~ (fun st => match Launch W tiles ctx t id st with
        | (st, Err err) => (revive ctx t e stopped "" st, Err err)
        | ok => ok
        end) ;;
  _ <~ route ctx t e ;;
  _ <~ remove_old ctx t old ;;
  route ctx t e.

Definition overlap (t : Tile) (r : resolved) : bool :=
  negb (String.eqb (t_Kind t) Managed) && match r_binds r with [] => true | _ => false end && negb (r_hostNet r).

Definition rollout (ctx : Ctx) (t : Tile) (e : Env) (r : resolved) : M unit :=
  old <~ Replicas W tiles ctx t ;;
  if overlap t r then overlapping ctx t e r old else stopFirst ctx t e r old.
End Flow.
