(* ===== verification/RolloutSafe.v ===== *)
(** * What a rollout risks ([flow/deploy/deploy.go])

    Theorems over every world: a rollout with overlap touches nothing that ran
    before until its new replicas are up and routed; one that stops first
    never has two writers; and a failure gives back what it stopped. *)
From S2P Require Import Prelude GoStrings Errs Outside TileRow Docker TileLines TileCheck Access Tiles Daemon TilesSafe Rollout.

(** What stops, pauses or takes a container. *)
Definition touches (e : event) : option string :=
  match e with EStop _ x | ERestart _ x | EStopRemove _ x | EPause _ x => Some x | _ => None end.

Section Made.
Context (W : World) (h0 : hist).

(** Since [h0], container [x] was run. *)
Definition made (x : string) (h : hist) : Prop :=
  exists c s h1, later h0 h1 /\ later ((ERun c s, true) :: h1) h /\ w_run W h1 s = x.
Lemma made_later x h h' : later h h' -> made x h -> made x h'.
Proof. intros Hl (c & s & h1 & H1 & H2 & H3). exists c, s, h1. split_and!; [done|by eapply later_trans|done]. Qed.
Lemma seen_later x h h' : later h h' -> seen_healthy W x h0 h -> seen_healthy W x h0 h'.
Proof. intros Hl (c & h1 & H1 & H2 & H3). exists c, h1. split_and!; [done|by eapply later_trans|done]. Qed.
Lemma seen_from x h1 h : later h0 h1 -> seen_healthy W x h1 h -> seen_healthy W x h0 h.
Proof. intros Hl (c & h2 & H1 & H2 & H3). exists c, h2. split_and!; [by eapply later_trans|done|done]. Qed.

(** A new replica that serves: run since [h0] and seen to pass the gate. *)
Definition up (x : string) (h : hist) : Prop := made x h /\ seen_healthy W x h0 h.
Lemma up_later ids h h' : later h h' -> Forall (fun x => up x h) ids -> Forall (fun x => up x h') ids.
Proof. intros Hl H. eapply Forall_impl; [exact H|]. intros x [H1 H2]. split; [by eapply made_later|by eapply seen_later]. Qed.

(** The containers [cs] inspected one after the other, and the addresses the
    running ones of them are reached at. *)
Inductive inspected (c : Ctx) (network : string) : list Container -> list string -> hist -> hist -> Prop :=
  | inspected_nil h : inspected c network [] [] h h
  | inspected_cons k cs ips h h' : inspected c network cs ips ((EInspect c (k_ID k), true) :: h) h' ->
      inspected c network (k :: cs) (reached network (w_inspect W h (k_ID k)) ++ ips) h h'.
(** After [h1] the replicas of [t] were listed and inspected, and [p] made
    their addresses the tile's, or cleared the tile's as no replica has one. *)
Definition routed (t : Tile) (network : string) (h1 h : hist) (p : event * bool) : Prop :=
  exists c cl hl ips vip lan, later h1 hl /\
    inspected c network (w_list W hl (tile_role t "replica")) ips ((EList cl (tile_role t "replica"), true) :: hl) h /\
    p = (match ips with [] => EVipRemove c vip | _ => EVipSet c vip ips lan end, true).
(** [n] new replicas, all different, are up, and after that the tile's
    address was made to follow its replicas. *)
Definition ready (t : Tile) (network : string) (n : nat) (h : hist) : Prop :=
  exists ids h1 h2 p, NoDup ids /\ length ids = n /\ Forall (fun x => up x h1) ids /\ routed t network h1 h2 p /\ later (p :: h2) h.
Lemma ready_later t network n h h' : later h h' -> ready t network n h -> ready t network n h'.
Proof. intros Hl (ids & h1 & h2 & p & H0 & H1 & H2 & H3 & H4). exists ids, h1, h2, p. split_and!; [done..|by eapply later_trans]. Qed.

(** What may be done to a container at [h]. *)
Definition allowed (t : Tile) (network : string) (n : nat) (h : hist) (p : event * bool) : Prop :=
  match touches p.1 with None => True | Some x => made x h \/ ready t network n h end.
End Made.

Lemma mild_untouched e : mild e = true -> touches e = None.
Proof. by destruct e. Qed.

Section Overlap.
Context (W : World) `{!Ids W} (h0 : hist) (rt : Tile) (network : string) (n : nat).
#[local] Abbreviation ok := (steps (allowed W h0 rt network n)).
Definition calm (p : event * bool) : Prop := touches p.1 = None.
Lemma calm_mild e b : mild e = true -> calm (e, b).
Proof. apply mild_untouched. Qed.
Lemma calm_ok h h' : grown calm h h' -> ok h h'.
Proof. apply grown_steps. intros k p Hp. unfold allowed. by rewrite Hp. Qed.

(** Only [x] is touched. *)
Definition only (x : string) (p : event * bool) : Prop := match touches p.1 with None => True | Some y => y = x end.
Lemma only_mild x e b : mild e = true -> only x (e, b).
Proof. intros H. unfold only. cbn [fst]. by rewrite mild_untouched. Qed.
Lemma only_ok x h h' : made W h0 x h -> grown (only x) h h' -> ok h h'.
Proof.
  intros Hm (k & -> & Hk). exists k. split; [done|]. intros l2 p l1 ->. apply Forall_app in Hk as [_ Hk]. inv Hk as [|? ? Hp _].
  unfold allowed, only in *. destruct (touches p.1) as [y|]; [|done]. subst y. left. eapply made_later; [apply later_app|done].
Qed.

Lemma gated_seen l ctx t id st st' u : gated W l ctx t id st = (st', Ok u) -> seen_healthy W id (past st) (past st').
Proof.
  unfold gated. set (st0 := early l ctx t id true st). destruct (gate W l ctx id _ st0) as [st1 [v|e]] eqn:E.
  - intros [= <- _]. apply Healthy_ok in E. eapply seen_from; [|exact E]. unfold st0, early. destruct (l_Early l); [by apply later_cons, later_refl|apply later_refl].
  - destruct (match ctx_Err W ctx st1 with None => _ | Some _ => _ end) as [st2 e2]. by intros [=].
Qed.

Lemma Start_runs l ctx t s st st' r : later h0 (past st) -> Start W l ctx t s st = (st', r) ->
  ok (past st) (past st') /\ forall id, r = Ok id -> up W h0 id (past st') /\ forall x, made W h0 x (past st) -> x <> id.
Proof.
  intros Hl. unfold Start. unfold bind at 1. pose proof (at_env_adds W l calm calm_mild ctx (t_EnvironmentID t) st) as H1.
  destruct (at_env W l ctx (t_EnvironmentID t) st) as [st1 [c|e]]; cbn [fst] in H1; [|intros [= <- <-]; split; [by apply calm_ok|done]].
  unfold bind at 1, Run. rewrite reads_cases. destruct (w_ask W _ _) as [e|].
  { intros [= <- <-]. split; [|done]. apply calm_ok. eapply grown_trans; [exact H1|]. by apply grown_one. }
  set (id := w_run W (past st1) (replica t s)). set (st2 := log_event _ true st1). cbn [past].
  assert (made W h0 id (past st2)) as Hm.
  { exists c, (replica t s), (past st1). split_and!; [by eapply later_trans; [|eapply grown_later]|apply later_refl|done]. }
  assert (ok (past st) (past st2)) as H2.
  { apply calm_ok. eapply grown_trans; [exact H1|]. by apply grown_one. }
  pose proof (gated_adds W l (only id) (only_mild id) c t id (fun _ _ => eq_refl) st2) as H3. unfold bind.
  destruct (gated W l c t id st2) as [st3 [v|e]] eqn:Eg; cbn [fst] in H3; intros [= <- <-].
  all: split; [eapply steps_trans; [exact H2|by eapply only_ok]|]. 2: done.
  intros x [= <-]. pose proof (grown_later _ _ _ H3) as Hl3. split.
  - split; [by eapply made_later|]. apply gated_seen in Eg. eapply seen_from; [|exact Eg]. eapply later_trans; [exact Hl|]. by eapply steps_later.
  - intros y (cy & sy & hy & _ & Hy & <-) E. apply (ids_differ hy (ERun cy sy) sy (past st1) (replica t s)); [|exact (eq_sym E)].
    eapply later_trans; [exact Hy|by eapply grown_later].
Qed.

Lemma Remove_made l ctx tid id st : made W h0 id (past st) -> ok (past st) (past (Remove W l ctx tid id st).1).
Proof.
  intros Hm. apply (only_ok id); [done|]. apply Remove_adds; [apply only_mild|done|]. intros h k c b Hk Hor. unfold only. cbn [fst touches].
  destruct Hor as [E|E]; [done|]. destruct Hm as (c1 & s & h1 & _ & _ & <-). by rewrite (name_no_id h ∅ k h1 s).
Qed.

Lemma drop_started_ok f ctx t started st : Forall (fun id => made W h0 id (past st)) started ->
  ok (past st) (past (drop_started W f ctx t started st)).
Proof.
  unfold drop_started. revert st. induction started as [|id ids IH]; intros st Hm; [apply steps_refl|]. cbn [fold_left].
  apply Forall_cons in Hm as [Hid Hm]. pose proof (Remove_made (f_Tiles f) (WithoutCancel ctx) (t_ID t) id st Hid) as H. unfold quietly at 2.
  eapply steps_trans; [exact H|]. apply IH. eapply Forall_impl; [exact Hm|]. intros x. apply made_later. by eapply steps_later.
Qed.
End Overlap.

(** ** Routing *)

Section Routes.
Context (W : World) (f : Flow) (P : event * bool -> Prop) (HP : forall e b, mild e = true -> P (e, b)).
#[local] Hint Extern 1 (P (_, _)) => (apply HP; reflexivity) : leaf.

Lemma routeVIP_adds ctx t e : adds P (routeVIP W f ctx t e).
Proof.
  unfold routeVIP. apply adds_bind; [destruct (f_HostGrants f); auto with leaf|]. intros lan. by apply Route_adds.
Qed.
Lemma sync_adds ctx : adds P (sync W f ctx).
Proof. unfold sync. destruct (f_Sync f); auto with leaf. Qed.
Lemma route_adds ctx t e : t_HostNetwork t = false -> adds P (route W f ctx t e).
Proof. intros Hn. unfold route. rewrite Hn. apply adds_bind; [apply routeVIP_adds|intros _; apply sync_adds]. Qed.
Lemma remove_old_adds ctx t cs : (forall c x b, P (EStopRemove c x, b)) -> adds P (remove_old W f ctx t cs).
Proof.
  intros Hr. unfold remove_old. apply each_adds. intros c _ st. unfold unless_gone.
  pose proof (Remove_adds W (f_Tiles f) P HP ctx (t_ID t) (k_ID c) (fun _ _ => Hr _ _ _) (fun _ _ _ _ _ _ => Hr _ _ _) st) as H.
  destruct (Remove _ _ _ _ _ st) as [st1 [u|e]]; [done|]. by destruct (is_not_found e).
Qed.

Context (Hrm : forall c x b, P (EStopRemove c x, b)) (Hst : forall c x b, P (EStart c x, b)) (Hsp : forall c x b, P (EStop c x, b)).
Lemma route_adds_all ctx t e : adds P (route W f ctx t e).
Proof.
  destruct (t_HostNetwork t) eqn:Hn; [|by apply route_adds]. unfold route. rewrite Hn.
  apply adds_bind; [by apply DropPause_adds|]. intros _. apply sync_adds.
Qed.
Lemma revive_adds ctx t e ks drop : adds_fn P (revive W f ctx t e ks drop).
Proof.
  intros st. unfold revive, quietly. set (st1 := if String.eqb drop "" then st else _).
  assert (grown P (past st) (past st1)) as H1 by (subst st1; destruct (String.eqb drop ""); [apply grown_refl|by apply Remove_adds]).
  clearbody st1. match goal with |- context [fold_left ?g ks st1] => set (st2 := fold_left g ks st1) end.
  assert (grown P (past st1) (past st2)) as H2.
  { subst st2. clear H1. revert st1. induction ks as [|k ks IH]; intros st1; cbn [fold_left]; [apply grown_refl|].
    eapply grown_trans; [|apply IH]. by apply StartContainer_adds. }
  eapply grown_trans; [exact H1|]. eapply grown_trans; [exact H2|]. apply route_adds_all.
Qed.
Lemma stop_old_adds ctx t e id cs : forall stopped, adds P (stop_old W f ctx t e id cs stopped).
Proof.
  induction cs as [|c cs IH]; intros stopped st; cbn [stop_old]; [apply grown_refl|]. destruct (is_running c); cbn [negb]; [|apply IH].
  pose proof (Stop_adds W (f_Tiles f) P HP ctx (t_ID t) (k_ID c) (fun _ _ => Hsp _ _ _) st) as H. unfold unless_gone.
  destruct (Stop _ _ _ _ _ st) as [st1 [u|err]]; cbn [fst] in H; [eapply grown_trans; [exact H|apply IH]|].
  destruct (is_not_found err); (eapply grown_trans; [exact H|]); [apply IH|apply revive_adds].
Qed.
End Routes.

Lemma any_mild (e : event) (b : bool) : mild e = true -> (fun _ : event * bool => True) (e, b).
Proof. done. Qed.

Lemma bind_past {A B} (m : M A) (k : A -> M B) st st' r : bind m k st = (st', r) ->
  (exists e, m st = (st', Err e) /\ r = Err e) \/ exists a st1, m st = (st1, Ok a) /\ k a st1 = (st', r).
Proof. unfold bind. destruct (m st) as [st1 [a|e]]; [intros E; right; by exists a, st1|intros [= <- <-]; left; by exists e]. Qed.

Lemma run_later {A} (m : M A) st st' r : adds (fun _ => True) m -> m st = (st', r) -> later (past st) (past st').
Proof. intros Hm E. specialize (Hm st). rewrite E in Hm. by eapply grown_later. Qed.

Lemma Inspects_inspected W c network cs st st' ips :
  gather (fun k => d <~ Inspect W c (k_ID k) ;; ret (reached network d)) cs st = (st', Ok ips) -> inspected W c network cs ips (past st) (past st').
Proof.
  revert st ips. induction cs as [|k cs IH]; intros st ips; cbn [gather]; [intros [= <- <-]; constructor|].
  intros (ys & st1 & E1 & E2)%bind_Ok. apply bind_Ok in E1 as (d & st2 & E1 & E3). unfold Inspect in E1. rewrite reads_cases in E1.
  destruct (w_ask W _ _); [done|]. injection E1 as <- <-. injection E3 as <- <-. apply bind_Ok in E2 as (zs & st3 & E2 & E3). injection E3 as <- <-.
  constructor. by apply IH in E2.
Qed.
Lemma route_routed W f ctx t e st st' u : t_HostNetwork t = false -> route W f ctx t e st = (st', Ok u) ->
  exists h2 p, routed W t (e_Network e) (past st) h2 p /\ later (p :: h2) (past st').
Proof.
  intros Hn. unfold route. rewrite Hn. intros (u1 & st1 & E1 & E2)%bind_Ok.
  apply run_later in E2 as Hs; [|by apply sync_adds].
  unfold routeVIP in E1. apply bind_Ok in E1 as (lan & st2 & E3 & E4). unfold Route in E4.
  apply bind_Ok in E4 as (c & st3 & E5 & E4). apply bind_Ok in E4 as (ip & st4 & E6 & E4). apply bind_Ok in E4 as (cs & st5 & E7 & E4).
  apply bind_Ok in E4 as (ips & st6 & E8 & E9).
  apply run_later in E3; [|destruct (f_HostGrants f); auto with leaf]. apply run_later in E5; [|by apply at_env_adds].
  apply run_later in E6; [|by apply Pause_adds]. apply Inspects_inspected in E8.
  unfold Replicas, ListC in E7. apply bind_Ok in E7 as (cl & st7 & E7 & E10). apply run_later in E7; [|by apply at_env_adds].
  rewrite reads_cases in E10. destruct (w_ask W _ _); [done|]. injection E10 as <- <-.
  assert (past st1 = (match ips with [] => EVipRemove c ip | _ => EVipSet c ip ips lan end, true) :: past st6) as Ep.
  { unfold set_vip in E9. by destruct ips; apply call_Ok in E9 as ->. }
  exists (past st6), (match ips with [] => EVipRemove c ip | _ => EVipSet c ip ips lan end, true). split; [|by rewrite <-Ep].
  exists c, cl, (past st7), ips, ip, lan. split_and!; [|exact E8|done]. repeat (eapply later_trans; [eassumption|]). apply later_refl.
Qed.

(** ** With overlap *)

Section Overlapping.
Context (W : World) `{!Ids W} (f : Flow) (h0 : hist) (rt : Tile) (network : string) (n : nat).
#[local] Abbreviation ok := (steps (allowed W h0 rt network n)).

Lemma start_all_runs ctx t r k i started st st' res : later h0 (past st) -> Forall (fun x => up W h0 x (past st)) started ->
  start_all W f ctx t r k i started st = (st', res) ->
  ok (past st) (past st') /\
  forall ids, res = Ok ids -> length ids = (length started + k)%nat /\ Forall (fun x => up W h0 x (past st')) ids /\ (NoDup started -> NoDup ids).
Proof.
  revert i started st. induction k as [|k IH]; intros i started st Hl Hup; cbn [start_all].
  { intros [= <- <-]. split; [apply steps_refl|]. intros ids [= <-]. split_and!; [lia|done|done]. }
  destruct (Start _ _ _ _ _ st) as [st1 [id|e]] eqn:E; apply (Start_runs W h0 rt network n) in E as [H1 Hid]; [|done| |done].
  - intros E. apply IH in E as [H2 Hids]; [| |].
    + split; [by eapply steps_trans|]. intros ids Hr. apply Hids in Hr as (Hlen & Hup' & Hn). rewrite length_app in Hlen. cbn [length] in Hlen.
      split_and!; [lia|done|]. intros Hs. apply Hn, NoDup_app. split_and!; [done| |apply NoDup_singleton].
      intros x Hx ->%list_elem_of_singleton. destruct (Hid id eq_refl) as [_ Hne]. apply (Hne id); [|done].
      by destruct (proj1 (Forall_forall _ _) Hup id Hx).
    + eapply later_trans; [exact Hl|by eapply steps_later].
    + apply Forall_app. split; [eapply up_later; [by eapply steps_later|exact Hup]|]. apply Forall_singleton; by apply Hid.
  - intros [= <- <-]. split; [|done]. eapply steps_trans; [exact H1|]. apply (drop_started_ok W h0 rt network n).
    eapply Forall_impl; [exact Hup|]. intros x [Hm _]. eapply made_later; [by eapply steps_later|exact Hm].
Qed.

Lemma ready_ok h h' : ready W h0 rt network n h -> grown (fun _ => True) h h' -> ok h h'.
Proof.
  intros Hr (l & -> & _). exists l. split; [done|]. intros l2 p l1 _. unfold allowed. destruct (touches p.1); [right|done].
  eapply ready_later; [apply later_app|exact Hr].
Qed.
End Overlapping.

(** C5. A rollout with overlap keeps what ran.  However the daemon answers or
    fails, no container is stopped, restarted, paused or removed unless this
    rollout started it, or as many different new replicas as the tile wants
    were started, each passed the health gate, and after that the tile's
    replicas were listed and inspected and its address was set to where they
    are reached, or cleared because none of them is. *)
Theorem overlap_keeps_old W `{!Ids W} f ctx t e r st st' res : t_HostNetwork t = false -> overlap t r = true ->
  rollout W f ctx t e r st = (st', res) ->
  steps (allowed W (past st) t (e_Network e) (Z.to_nat (Z.max (t_Replicas t) 1))) (past st) (past st').
Proof.
  intros Hn Ho E. unfold rollout in E. rewrite Ho in E. set (n := Z.to_nat _).
  assert (forall h h', grown calm h h' -> steps (allowed W (past st) t (e_Network e) n) h h') as Hcalm by by intros; apply calm_ok.
  apply bind_past in E as [(x & E & ->)|(old & st1 & E1 & E)].
  { apply Hcalm. pose proof (Replicas_adds W (f_Tiles f) calm calm_mild ctx t st) as H. by rewrite E in H. }
  pose proof (Replicas_adds W (f_Tiles f) calm calm_mild ctx t st) as H1. rewrite E1 in H1. cbn [fst] in H1.
  eapply steps_trans; [by apply Hcalm|]. apply grown_later in H1. unfold overlapping in E.
  apply bind_past in E as [(x & E & ->)|(u & st2 & E2 & E)].
  { apply Hcalm. pose proof (adds_call calm W ESwap eq_refl eq_refl st1) as H. by rewrite E in H. }
  pose proof (adds_call calm W ESwap eq_refl eq_refl st1) as H2. rewrite E2 in H2. cbn [fst] in H2.
  eapply steps_trans; [by apply Hcalm|]. apply grown_later in H2. assert (later (past st) (past st2)) as Hl by by eapply later_trans.
  apply bind_past in E as [(x & E & ->)|(ids & st3 & E3 & E)].
  { by destruct (start_all_runs W f (past st) t (e_Network e) n _ _ _ _ _ _ _ _ _ Hl (Forall_nil_2 _) E) as [H _]. }
  destruct (start_all_runs W f (past st) t (e_Network e) n _ _ _ _ _ _ _ _ _ Hl (Forall_nil_2 _) E3) as [H3 Hids]. eapply steps_trans; [exact H3|].
  destruct (Hids ids eq_refl) as (Hlen & Hup & Hnd). cbn [length Nat.add] in Hlen.
  assert (forall st st' r, route W f ctx t e st = (st', r) -> grown calm (past st) (past st')) as Hroute.
  { intros s s' x Es. pose proof (route_adds W f calm calm_mild ctx t e Hn s) as H. by rewrite Es in H. }
  apply bind_past in E as [(x & E & ->)|(v & st4 & E4 & E)]; [by apply Hcalm, (Hroute _ _ _ E)|].
  eapply steps_trans; [by apply Hcalm, (Hroute _ _ _ E4)|].
  assert (ready W (past st) t (e_Network e) n (past st4)) as Hr.
  { apply route_routed in E4 as (h2 & p & L1 & L2); [|done]. exists ids, (past st3), h2, p. split_and!; [apply Hnd, NoDup_nil_2|done..]. }
  destruct old as [|c old]; [injection E as <- <-; apply steps_refl|]. apply (ready_ok W (past st) t (e_Network e) n); [exact Hr|].
  match type of E with ?m st4 = _ => pose proof (adds_bind (fun _ => True) (remove_old W f ctx t (c :: old)) (fun _ => route W f ctx t e)
    (remove_old_adds W f _ any_mild _ _ _ (fun _ _ _ => I)) (fun _ => route_adds W f _ any_mild _ _ _ Hn) st4) as H end.
  by rewrite E in H.
Qed.

(** A tile of two replicas that holds no data, one old replica running. *)
Definition ex_web : Tile :=
  MkTile "t1" "s" "e" "Web" "web" "service" "" "" "img:2" "" "" "" "" "" "" "" 80 "" "" "" "" 0 0 0 0 0 0 "" 0 false "" "" false
    "" "" "" "" 2 "" "" "" "" false 0 None None None [] 0 0.
Definition ex_resolved : resolved := MkResolved "web-j7" "img:2" "" [] [] [] [] ∅ [] false false [MkNetAttach "net" ["web"] ""] [] 0 0 0.
Definition ex_flow : Flow := MkFlow (MkLeaf true true true DefaultGate) true true.
Definition ex_ctx : Ctx := MkCtx "" false.
#[local] Abbreviation ex_rollout := (rollout ex_world ex_flow ex_ctx ex_web (MkEnv "net") ex_resolved (MkSt tt [])).

Lemma overlap_keeps_old_witness : ex_rollout.2 = Ok tt /\ existsb (fun p => match p.1 with EStopRemove _ "o" => p.2 | _ => false end) (past ex_rollout.1) = true /\
  steps (allowed ex_world [] ex_web "net" 2) [] (past ex_rollout.1).
Proof.
  split; [vm_compute; reflexivity|]. split; [vm_compute; reflexivity|].
  apply (overlap_keeps_old ex_world ex_flow ex_ctx ex_web (MkEnv "net") ex_resolved (MkSt tt []) ex_rollout.1 ex_rollout.2); [reflexivity|reflexivity|].
  apply surjective_pairing.
Defined.
