(* ===== verification/TileEdit.v ===== *)
(** * Tiles that are saved ([leaf/tile/tile.go], [diff.go])

    Every call of the leaf keeps the table's rows saved ones, and what an
    update earns is enough for what it changed. *)
From S2P Require Import Prelude GoStrings Errs Slug Store Docker Registry TileRow TileLines TileCheck TileValid TileDiff TileLeaf Access Rollout AccessSafe.

(** ** Saved rows *)

Section Saved.
Context `{Versions} (cron_ParseStandard : string -> bool).

(** A row as the leaf leaves it: lawful, in its stored form, under a name and
    a slug that can be its alias. *)
Record saved (t : Tile) : Prop := {
  saved_lawful : lawful cron_ParseStandard t;
  saved_norm : norm t = t;
  saved_name : t_Name t <> "";
  saved_slug : Valid (t_Slug t) = true;
  saved_free : Reserved (t_Slug t) = false }.

Lemma fields_keys t id st en na sl ca ua f : f ∈ fields -> f.2 (set_keys t id st en na sl ca ua) = f.2 t.
Proof. unfold fields. intros Hf. repeat (apply (proj1 (elem_of_cons _ _ _)) in Hf as [->|Hf]; [reflexivity|]). by apply not_elem_of_nil in Hf. Qed.
Lemma lawful_keys t id st en na sl ca ua : lawful cron_ParseStandard t -> lawful cron_ParseStandard (set_keys t id st en na sl ca ua).
Proof.
  intros [(al & Ha & Hc) H1 H2 H3 H4 H5 H6 H7 H8 H9 H10 H11 H12 H13 H14]. constructor; try assumption.
  exists al. split; [exact Ha|]. intros f Hf. rewrite fields_keys by done. by apply Hc.
Qed.
Lemma norm_keys t id st en na sl ca ua : norm (set_keys t id st en na sl ca ua) = set_keys (norm t) id st en na sl ca ua.
Proof. reflexivity. Qed.
Lemma saved_keys t id st en na sl ca ua : lawful cron_ParseStandard t -> norm t = t -> na <> "" -> Valid sl = true -> Reserved sl = false ->
  saved (set_keys t id st en na sl ca ua).
Proof. intros Hl Hn Hna Hv Hr. constructor; try done; [by apply lawful_keys|]. by rewrite norm_keys, Hn. Qed.

(** What a deploy of a saved row may rely on. *)
Lemma saved_access t : saved t -> ports_ok t /\ devices_ok t /\ Valid (t_Slug t) = true.
Proof. intros [Hl _ _ Hv _]. destruct (law_lists _ _ Hl) as (_ & _ & Hd & _ & Hp & _). by split_and!. Qed.

(** ** The calls *)

Context {St : Type} `{!SlugTable St Tile, !SlugTableLaws St Tile}.
Implicit Types (st : St).

Inductive op :=
  | OCreate (id : string) (now : Z) (t : Tile)
  | OUpdate (now : Z) (old cur : Tile) (extra : list string)
  | ORename (now : Z) (t : Tile) (name : string)
  | ODelete (id : string).
(** A call that is refused leaves the table as it was. *)
Definition do (o : op) st : St :=
  match o with
  | OCreate id now t => match Create cron_ParseStandard id now t st with Ok (st, _) => st | Err _ => st end
  | OUpdate now old cur extra => match Update cron_ParseStandard now old cur extra st with Ok (st, _, _) => st | Err _ => st end
  | ORename now t name => match Rename now t name st with Ok (st, _) => st | Err _ => st end
  | ODelete id => match Delete id st with Ok st => st | Err _ => st end
  end.
(** The row a call edits was once read from the table; it may be stale. *)
Definition edits (seen : list Tile) (o : op) : Prop :=
  match o with OUpdate _ old _ _ => old ∈ seen | ORename _ t _ => t ∈ seen | _ => True end.
(** What comes of a table: calls, and the rows read between them. *)
Inductive reach (st0 : St) : St -> list Tile -> Prop :=
  | reach_start : reach st0 st0 []
  | reach_read st seen id t : reach st0 st seen -> tab st !! id = Some t -> reach st0 st (t :: seen)
  | reach_call st seen o : reach st0 st seen -> edits seen o -> reach st0 (do o st) seen.
Definition rows_saved st : Prop := table_ok (tab st) /\ forall id t, tab st !! id = Some t -> saved t.

Lemma checkSlug_ok st t : checkSlug st t = None -> Valid (t_Slug t) = true /\ Reserved (t_Slug t) = false.
Proof.
  unfold checkSlug. destruct (String.eqb (t_Slug t) ""); [done|]. destruct (Valid (t_Slug t)); cbn [negb]; [|done]. by destruct (Reserved (t_Slug t)).
Qed.
Lemma created st t st' : rows_saved st -> saved t -> create t st = Ok st' -> rows_saved st'.
Proof.
  intros [Hok Hs] Ht E. split; [by eapply create_ok|]. pose proof (create_law st t) as Hl. rewrite E in Hl. destruct Hl as (_ & _ & ->).
  intros id r [[_ <-]|[_ Hr]]%lookup_insert_Some; [done|by eapply Hs].
Qed.
Lemma updated st t st' : rows_saved st -> saved t -> update t st = Ok st' -> rows_saved st'.
Proof.
  intros [Hok Hs] Ht E. split; [by eapply update_ok|]. pose proof (update_law st t) as Hl. rewrite E in Hl. destruct Hl as (o & _ & _ & ->).
  intros id r [[_ <-]|[_ Hr]]%lookup_insert_Some; [done|by eapply Hs].
Qed.

Lemma Validate_ok t v : Validate cron_ParseStandard t = (v, None) -> lawful cron_ParseStandard v /\ norm v = v /\ v = norm t.
Proof.
  intros Ev. pose proof (Validate_cases cron_ParseStandard t) as Hc. rewrite Ev in Hc. destruct Hc as [Hl ->].
  split_and!; [by apply lawful_norm|by apply norm_norm|done].
Qed.
Lemma Create_saved id now t st st' t' : Create cron_ParseStandard id now t st = Ok (st', t') -> saved t' /\ create t' st = Ok st' /\ t_ID t' = id.
Proof.
  unfold Create. cbn [with_name set_keys t_Name t_Slug t_ID t_StackID t_EnvironmentID t_CreatedAt t_UpdatedAt].
  destruct (String.eqb_spec (trim_space (t_Name t)) "") as [|Hn]; [done|]. set (w := with_name (with_name _ _ _) _ _). set (u := set_keys w _ _ _ _ _ _ _).
  destruct (checkSlug st w) eqn:Ec; [done|]. apply checkSlug_ok in Ec as [Hv Hr]. destruct (Validate _ u) as [v [e|]] eqn:Ev; [done|].
  apply Validate_ok in Ev as (Hl & Hnorm & Hnv). destruct (create v st) as [st1|] eqn:E; [|done]. intros [= <- <-].
  split_and!; [constructor|exact E|by rewrite Hnv]; [done|done|by rewrite Hnv|by rewrite Hnv|by rewrite Hnv].
Qed.
Lemma Update_saved now old cur extra st st' t' es : saved old -> Update cron_ParseStandard now old cur extra st = Ok (st', t', es) ->
  saved t' /\ t_ID t' = t_ID old /\ t_EnvironmentID t' = t_EnvironmentID old /\ t_Slug t' = t_Slug old /\ (update t' st = Ok st' \/ st' = st /\ t' = old).
Proof.
  intros Ho. unfold Update. cbn [set_keys t_Name]. set (u := set_keys cur _ _ _ _ _ _ _). destruct (String.eqb_spec (trim_space (t_Name cur)) "") as [|Hn]; [done|].
  destruct (Validate _ u) as [v [e|]] eqn:Ev; [done|].
  apply Validate_ok in Ev as (Hl & Hnorm & Hnv). destruct (negb _ && _); [intros [= <- <- <-]; by split_and!; try right|].
  set (w := set_keys v _ _ _ _ _ _ _). destruct (update w st) as [st1|] eqn:E; [|done]. intros [= <- <- _].
  destruct Ho as [_ _ _ Hv Hr]. subst w. split_and!; [|by rewrite Hnv..|by left].
  apply saved_keys; [done|done|by rewrite Hnv|by rewrite Hnv|by rewrite Hnv].
Qed.
Lemma Rename_saved now t name st st' t' : saved t -> Rename now t name st = Ok (st', t') -> saved t' /\ update t' st = Ok st'.
Proof.
  intros [Hl Hn _ _ _]. unfold Rename, with_name. set (u := set_keys t _ _ _ _ _ _ _). destruct (checkSlug st u) eqn:Ec; [done|]. apply checkSlug_ok in Ec as [Hv Hr].
  destruct (update _ st) as [st1|] eqn:E; [|done]. intros [= <- <-]. split; [|exact E]. cbn [u set_keys t_Slug] in Hv, Hr.
  subst u. apply saved_keys; [by apply lawful_keys|by rewrite norm_keys, Hn| |done|done].
  cbn [set_keys t_Name]. intros Hb. by rewrite Hb in Hv.
Qed.
Lemma do_saved o seen st : edits seen o -> Forall saved seen -> rows_saved st -> rows_saved (do o st).
Proof.
  destruct o as [id now t|now old cur extra|now t name|id]; cbn [do edits]; intros Ho Hseen Hst; try (pose proof (proj1 (Forall_forall _ _) Hseen _ Ho) as Hold).
  - destruct (Create _ _ _ _ _) as [[st1 t1]|] eqn:E; [|done]. apply Create_saved in E as (Hs & E & _). by eapply created.
  - destruct (Update _ _ _ _ _ _) as [[[st1 t1] es]|] eqn:E; [|done]. apply Update_saved in E as (Hs & _ & _ & _ & [E|[-> _]]); [by eapply updated|done|done].
  - destruct (Rename _ _ _ _) as [[st1 t1]|] eqn:E; [|done]. apply Rename_saved in E as [Hs E]; [by eapply updated|done].
  - unfold Delete. destruct (delete_row id st) as [st1|] eqn:E; [|done]. destruct Hst as [Hok Hs]. split; [by eapply delete_ok|].
    pose proof (delete_law st id) as Hl. rewrite E in Hl. destruct Hl as [_ ->]. intros i r [_ Hr]%lookup_delete_Some. by eapply Hs.
Qed.
Lemma reach_saved st0 st seen : rows_saved st0 -> reach st0 st seen -> rows_saved st /\ Forall saved seen.
Proof.
  intros H1. induction 1 as [|st seen id t _ [Hst Hs] Ht|st seen o _ [Hst Hs] Ho].
  - by split.
  - split; [done|]. constructor; [|done]. by eapply Hst.
  - split; [by eapply do_saved|done].
Qed.
End Saved.

(** C13. The table of tiles holds saved rows only.  From a table whose rows are
    saved, any creates, updates, renames and deletes, refused or not, each
    editing whatever row was read at any moment before, leave every row
    lawful, in its stored form, named, under a valid slug that is not reserved
    and that no other tile of its environment has; so a deploy may rely on its
    ports, its devices and its alias without checking them again. *)
Theorem Tile_ops_keep_rows `{Versions} cron {St : Type} `{!SlugTable St Tile, !SlugTableLaws St Tile} (st0 st : St) seen :
  rows_saved cron st0 -> reach cron st0 st seen ->
  table_ok (tab st) /\ forall id t, tab st !! id = Some t -> saved cron t /\ ports_ok t /\ devices_ok t /\ Valid (t_Slug t) = true.
Proof.
  intros H0 Hr. destruct (reach_saved cron st0 st seen H0 Hr) as [[Hok Hs] _]. split; [done|]. intros id t Ht.
  pose proof (Hs _ _ Ht) as Hsv. split; [done|by eapply saved_access].
Qed.

#[local] Abbreviation ex_new := (with_name zero_tile " Web App " "").
#[local] Existing Instance any_versions.
#[local] Abbreviation ex_op := (OCreate "t1" 5 (ex_image ex_new "nginx")).
#[local] Abbreviation ex_tab := (do (fun _ => true) ex_op (∅ : gmap string Tile)).
#[local] Abbreviation ex_row := (default zero_tile (tab ex_tab !! "t1")).
#[local] Abbreviation ex_upd := (OUpdate 9 ex_row (ex_image ex_row "nginx:2") []).
Lemma Tile_ops_keep_rows_witness :
  t_ImageRef (default zero_tile (tab (do (fun _ => true) ex_upd ex_tab) !! "t1")) = "nginx:2" /\
  forall id t, tab (do (fun _ => true) ex_upd ex_tab) !! id = Some t -> saved (fun _ => true) t /\ ports_ok t /\ devices_ok t /\ Valid (t_Slug t) = true.
Proof.
  split; [vm_compute; reflexivity|]. refine (proj2 (Tile_ops_keep_rows (fun _ => true) (∅ : gmap string Tile) (do (fun _ => true) ex_upd ex_tab) [ex_row] _ _)).
  - split; [|intros id t [=]]. split; intros id r [=].
  - apply reach_call; [|constructor]. apply (reach_read _ _ ex_tab [] "t1").
    + apply (reach_call _ _ ∅ []); [apply reach_start|exact I].
    + vm_compute. reflexivity.
Defined.
