(* ===== verification/TileEffects.v ===== *)
(** * What an edit earns is enough ([service/internal/leaf/tile/diff.go], [Update])

    The keys a save moved against the columns a deploy, a run and the
    scheduler read. *)
From S2P Require Import Prelude GoStrings Errs Slug Store Docker Registry TileRow TileLines TileCheck TileValid TileDiff TileLeaf Access Rollout TileEdit.

(** ** The keys of a diff *)

Lemma fold_marks ms c k : k ∈ fold_left (fun (c : Changed) (m : string * bool) => if m.2 then c else c ∪ {[m.1]}) ms c <-> k ∈ c \/ (k, false) ∈ ms.
Proof.
  revert c. induction ms as [|[k' b] ms IH]; intros c; cbn [fold_left fst snd]; [rewrite elem_of_nil; tauto|].
  rewrite IH, elem_of_cons. destruct b.
  - split; [tauto|]. intros [|[[=]|]]; tauto.
  - rewrite elem_of_union, elem_of_singleton. split; [intros [[| ->]|]; tauto|]. intros [|[[= ->]|]]; tauto.
Qed.
Lemma Diff_elem old cur k : k ∈ Diff old cur <-> (k, false) ∈ marks old cur.
Proof. unfold Diff. rewrite fold_marks, elem_of_empty. tauto. Qed.
(** Every mark outside [ks] says the column is the same. *)
Definition kept (ks : string -> bool) (old cur : Tile) : Prop := Forall (fun m => ks m.1 = true \/ m.2 = true) (marks old cur).
Lemma kept_intro (ks : string -> bool) old cur : (forall k, k ∈ Diff old cur -> ks k = true) -> kept ks old cur.
Proof.
  intros H. apply Forall_forall. intros [k []] Hm; cbn [fst snd]; [by right|]. left. by apply H, Diff_elem.
Qed.
Lemma kept_mark ks old cur k b : kept ks old cur -> (k, b) ∈ marks old cur -> ks k = false -> b = true.
Proof. intros H Hm Hk. destruct (proj1 (Forall_forall _ _) H _ Hm) as [E|E]; [|done]. cbn [fst] in E. congruence. Qed.
Lemma kept_word ks old cur k (f : Tile -> string) : kept ks old cur -> (k, String.eqb (f old) (f cur)) ∈ marks old cur -> ks k = false -> f cur = f old.
Proof. intros H Hm Hk. symmetry. apply String.eqb_eq. by eapply kept_mark. Qed.
Lemma kept_size ks old cur k (f : Tile -> Z) : kept ks old cur -> (k, f old =? f cur) ∈ marks old cur -> ks k = false -> f cur = f old.
Proof. intros H Hm Hk. symmetry. apply Z.eqb_eq. by eapply kept_mark. Qed.
Lemma kept_flag ks old cur k (f : Tile -> bool) : kept ks old cur -> (k, Bool.eqb (f old) (f cur)) ∈ marks old cur -> ks k = false -> f cur = f old.
Proof. intros H Hm Hk. symmetry. apply eqb_prop. by eapply kept_mark. Qed.
(** No key of a row is a domain's. *)
Lemma Diff_no_domain old cur k : k ∈ Diff old cur -> has_prefix k "domain " = false.
Proof.
  rewrite Diff_elem. intros Hk. assert (Forall (fun m => has_prefix m.1 "domain " = false) (marks old cur)) as Hf by (repeat constructor).
  exact (proj1 (Forall_forall _ _) Hf _ Hk).
Qed.

(** ** What reads the columns *)

Definition words (t : Tile) : list string := [
  t_Kind t; t_ImageRef t; t_GitURL t; t_GitBranch t; t_DockerfilePath t; t_BuildContext t; t_BuildArgs t; t_EnvJSON t; t_Volumes t; t_Command t;
  t_PublishedPorts t; t_EndpointProtocol t; t_HealthPath t; t_User t; t_Devices t; t_Lan t; t_DependsOn t;
  t_Files t; t_SharedNet t; t_Schedule t; t_Trigger t; deref (t_ProvisionFrom t); deref (t_DefaultAccess t); deref (t_OnRemove t)].
Definition health (t : Tile) : string * list Z := (t_HealthcheckCmd t,
  [t_HealthcheckIntervalS t; t_HealthcheckTimeoutS t; t_HealthcheckRetries t; t_HealthcheckStartPeriodS t]).
Definition sizes (t : Tile) : list Z := [t_ContainerPort t; t_MemLimitMB t; t_ShmSizeMB t; t_Replicas t; t_TimeoutMinutes t].
Definition flags (t : Tile) : list bool := [t_Privileged t; t_HostNetwork t; t_Paused t].
(** The CPU limit is a float64: the two zeros are one limit. *)
Definition same_limit (a b : Z) : Prop := a = b \/ f64_zero a = true /\ f64_zero b = true.
Definition keys_of (t : Tile) : list string := [t_ID t; t_StackID t; t_EnvironmentID t; t_Slug t].
Definition built (t : Tile) : list string := [
  t_Kind t; t_ImageRef t; t_GitURL t; t_GitBranch t; t_BuildContext t; t_DockerfilePath t; t_BuildArgs t].


Ltac at_mark := unfold marks; cbv zeta beta; repeat first [apply list_elem_of_here | apply list_elem_of_further].
Ltac col H := first
  [ eapply (kept_word _ _ _ _ _ H); [at_mark|reflexivity]
  | eapply (kept_size _ _ _ _ _ H); [at_mark|reflexivity]
  | eapply (kept_flag _ _ _ _ _ H); [at_mark|reflexivity]
  | lazymatch goal with |- ?h (?g _) = _ => eapply (kept_word _ _ _ _ (fun t => h (g t)) H); [at_mark|reflexivity] end ].
Ltac each_col tac := repeat (first [reflexivity | apply (f_equal2 (@cons _)); [tac|]]).

Definition build_keys : list string := ["source"; "image"; "git_url"; "branch"; "build_context"; "dockerfile"; "build_args"].
Lemma kept_built ks old cur : kept ks old cur -> (forall k, k ∈ build_keys -> ks k = false) ->
  built cur = built old.
Proof.
  intros Hk Hw. unfold built. each_col ltac:(eapply (kept_word _ _ _ _ _ Hk); [at_mark|apply Hw; at_mark]).
Qed.
Definition watcher (k : string) : bool := contains watcherOnly k.
Lemma kept_words old cur : kept watcher old cur -> words cur = words old.
Proof. intros Hk. unfold words. each_col ltac:(col Hk). Qed.
Lemma kept_sizes old cur : kept watcher old cur -> sizes cur = sizes old /\ flags cur = flags old.
Proof.
  intros Hk. assert (f64_eq (t_CPULimit old) (t_CPULimit cur) && (t_MemLimitMB old =? t_MemLimitMB cur) = true) as Hm.
  { eapply (kept_mark _ _ _ _ _ Hk); [at_mark|reflexivity]. }
  apply andb_true_iff in Hm as [_ Hm%Z.eqb_eq]. split; unfold sizes, flags; each_col ltac:(first [by symmetry | col Hk]).
Qed.
Lemma kept_limit old cur : kept watcher old cur -> same_limit (t_CPULimit cur) (t_CPULimit old).
Proof.
  intros Hk. assert (f64_eq (t_CPULimit old) (t_CPULimit cur) && (t_MemLimitMB old =? t_MemLimitMB cur) = true) as Hm.
  { eapply (kept_mark _ _ _ _ _ Hk); [at_mark|reflexivity]. }
  apply andb_true_iff in Hm as [Hm _]. unfold f64_eq in Hm. apply andb_true_iff in Hm as [_ [Hm%Z.eqb_eq|[H1 H2]%andb_true_iff]%orb_true_iff]; [by left|by right].
Qed.
Lemma kept_health old cur : kept watcher old cur -> health cur = health old.
Proof.
  intros Hk. unfold health.
  assert (String.eqb (t_HealthcheckCmd old) (t_HealthcheckCmd cur) && (t_HealthcheckIntervalS old =? t_HealthcheckIntervalS cur)
    && (t_HealthcheckTimeoutS old =? t_HealthcheckTimeoutS cur) && (t_HealthcheckRetries old =? t_HealthcheckRetries cur)
    && (t_HealthcheckStartPeriodS old =? t_HealthcheckStartPeriodS cur) = true) as Hm.
  { eapply (kept_mark _ _ _ _ _ Hk); [at_mark|reflexivity]. }
  rewrite !andb_true_iff, !Z.eqb_eq, String.eqb_eq in Hm. by destruct Hm as [[[[-> ->] ->] ->] ->].
Qed.
Lemma kept_access old cur : kept watcher old cur -> t_SliceAccess cur = t_SliceAccess old.
Proof.
  intros Hk. symmetry. apply (bool_decide_eq_true_1 _). eapply (kept_mark _ _ _ _ _ Hk); [at_mark|reflexivity].
Qed.
Lemma kept_restart old cur : kept watcher old cur -> t_RestartPolicy old = (canonRestart (t_RestartPolicy old)).1 ->
  t_RestartPolicy cur = (canonRestart (t_RestartPolicy cur)).1 -> t_RestartPolicy cur = t_RestartPolicy old.
Proof.
  intros Hk -> ->. eapply (kept_word _ _ _ _ (fun t => (canonRestart (t_RestartPolicy t)).1) Hk); [at_mark|reflexivity].
Qed.

(** ** From effects back to columns *)

Lemma watcher_spec k : watcher k = true <-> k ∈ watcherOnly.
Proof. unfold watcher. destruct (contains_spec watcherOnly k); split; done. Qed.
Lemma quiet_kept kind c old cur : Diff old cur ⊆ c -> RunToCompletion kind = false -> kind <> Slice -> Redeploy ∉ Effects kind c -> kept watcher old cur.
Proof.
  intros Hc Hr Hs He. unfold Effects in He. rewrite Hr, (proj2 (String.eqb_neq _ _) Hs) in He. cbv zeta in He.
  set (rest := c ∖ list_to_set watcherOnly) in *. apply kept_intro. intros k Hk. apply watcher_spec.
  destruct (decide (k ∈ watcherOnly)) as [|Hw]; [done|exfalso].
  assert (k ∈ rest) as Hin. { apply elem_of_difference. split; [by apply Hc|]. by rewrite elem_of_list_to_set. }
  unfold Any in He. destruct (bool_decide_reflect (rest <> ∅)) as [_|Hn]; cbn [negb] in He; [|apply Hn; intros E; by rewrite E, elem_of_empty in Hin].
  destruct (String.eqb kind Managed) in He; [apply He, elem_of_app; right; constructor|].
  destruct (ProxyOnly rest) eqn:Ep in He; [|apply He, elem_of_app; right; by do 2 constructor].
  assert (has_prefix k "domain " = true) as Hd; [|by rewrite (Diff_no_domain _ _ _ Hk) in Hd].
  apply (proj1 (forallb_forall _ _) Ep), list_elem_of_In. by apply elem_of_elements.
Qed.
Definition not_built (k : string) : bool :=
  negb (contains (build_keys ++ ["slice_access"]) k).
Lemma run_kept kind c old cur : Diff old cur ⊆ c -> RunToCompletion kind = true -> Redeploy ∉ Effects kind c -> kept not_built old cur.
Proof.
  intros Hc Hr He. assert (kind <> Slice) as Hs by (intros ->; discriminate Hr). unfold Effects in He.
  rewrite Hr, (proj2 (String.eqb_neq _ _) Hs) in He. cbv zeta in He. destruct (_ || _) eqn:E in He; [exfalso; apply He, elem_of_app; right; constructor|].
  clear He. apply kept_intro. intros k Hk. apply Hc in Hk. unfold not_built. destruct (contains_spec (build_keys ++ ["slice_access"]) k) as [Hb|]; [exfalso|done].
  apply orb_false_iff in E as [E1 E2]. unfold NeedsBuild in E1. change (existsb (moved c) build_keys = false) in E1.
  assert (moved c k = true) as Hm by (by apply bool_decide_eq_true_2).
  apply elem_of_app in Hb as [Hb|Hb%list_elem_of_singleton]; [|congruence].
  apply not_true_iff_false in E1. apply E1, existsb_exists. exists k. split; [by apply list_elem_of_In|done].
Qed.
Lemma cron_kept c old cur : Diff old cur ⊆ c -> CronReload ∉ Effects Cron c -> kept (fun k => negb (contains ["schedule"; "paused"; "source"] k)) old cur.
Proof.
  intros Hc He. unfold Effects in He. change (String.eqb Cron Slice) with false in He. change (String.eqb Cron Cron) with true in He.
  change (RunToCompletion Cron) with true in He. cbn [andb] in He. destruct (NeedsCronReload c) eqn:E; [exfalso; apply He; constructor|].
  apply kept_intro. intros k Hk. apply Hc in Hk. destruct (contains_spec ["schedule"; "paused"; "source"] k) as [Hb|]; [exfalso|done].
  unfold NeedsCronReload in E. rewrite !orb_false_iff in E. assert (moved c k = true) as Hm by (by apply bool_decide_eq_true_2).
  rewrite !elem_of_cons, elem_of_nil in Hb. destruct E as [[E1 E2] E3]. destruct Hb as [->|[->|[->|[]]]]; congruence.
Qed.

(** What [Update] answers: the row as it was, or the normal form of the edit
    with the effects of a set of keys that holds the whole diff. *)
Lemma Update_cases `{Versions} cron {St : Type} `{!SlugTable St Tile} now old cur extra (st st' : St) t' es :
  Update cron now old cur extra st = Ok (st', t', es) -> st' = st /\ t' = old /\ es = [] \/
  exists c v, Diff old v ⊆ c /\ norm v = v /\ t' = set_keys v (t_ID v) (t_StackID v) (t_EnvironmentID v) (t_Name v) (t_Slug v) (t_CreatedAt v) now /\
    keys_of v = keys_of old /\ es = Effects (t_Kind v) c.
Proof.
  unfold Update. cbn [set_keys t_Name]. set (u := set_keys cur _ _ _ _ _ _ _). destruct (String.eqb (trim_space (t_Name cur)) ""); [done|].
  destruct (Validate cron u) as [v [e|]] eqn:Ev; [done|]. apply Validate_ok in Ev as (_ & Hn & Hv).
  destruct (negb _ && _); [intros [= <- <- <-]; by left|]. destruct (update _ st) as [st1|] eqn:E; [|done]. intros [= _ <- <-]. right.
  exists (Diff old v ∪ list_to_set extra), v. split_and!; [apply union_subseteq_l|done|done|by rewrite Hv|done].
Qed.
Lemma norm_restart t : norm t = t -> t_RestartPolicy t = (canonRestart (t_RestartPolicy t)).1.
Proof. intros Hn. by rewrite <-Hn at 1. Qed.
(** Rows with the same columns are the same container. *)
Lemma same_container t t' : words t' = words t -> sizes t' = sizes t /\ flags t' = flags t -> health t' = health t -> t_RestartPolicy t' = t_RestartPolicy t ->
  (forall r, spec t' r = spec t r /\ overlap t' r = overlap t r) /\ tile_perms t' = tile_perms t.
Proof.
  intros Hw [Hz Hf] Hh Hr. injection Hw as Hk _ _ _ _ _ _ _ Hv _ Hp _ _ Hu Hd Hl _ _ _ _ _ _ _ _.
  injection Hz as _ _ Hs _ _. injection Hf as Hpr Hn _. injection Hh as Hh1 Hh2 Hh3 Hh4 Hh5. split.
  - intros r. split; [|unfold overlap; by rewrite Hk]. unfold spec. by rewrite Hu, Hs, Hr, Hh1, Hh2, Hh3, Hh4, Hh5.
  - unfold tile_perms. by rewrite Hv, Hd, Hl, Hp, Hpr, Hn.
Qed.

(** C14. The effects of an update are enough for what it changed.  When a save
    of a tile that runs all the time earns no redeploy, every column a
    deploy reads is the one it was, the CPU limit as a number: the container of
    a replica, how it would roll out and the host access it asks for stay the
    same.  A save of a
    cron or function without a redeploy leaves what it is built from and what
    slices it gets, and a cron's without a reload leaves its schedule and
    whether it is paused. *)
Theorem Update_effects_suffice `{Versions} cron {St : Type} `{!SlugTable St Tile} now old cur extra (st st' : St) t' es :
  saved cron old -> Update cron now old cur extra st = Ok (st', t', es) ->
  (RunToCompletion (t_Kind t') = false -> t_Kind t' <> Slice -> Redeploy ∉ es ->
     words t' = words old /\ sizes t' = sizes old /\ flags t' = flags old /\ same_limit (t_CPULimit t') (t_CPULimit old) /\
     keys_of t' = keys_of old /\ t_SliceAccess t' = t_SliceAccess old /\
     (forall r, spec t' r = spec old r /\ overlap t' r = overlap old r) /\ HostSet [t'] = HostSet [old]) /\
  (RunToCompletion (t_Kind t') = true -> Redeploy ∉ es -> built t' = built old /\ t_SliceAccess t' = t_SliceAccess old) /\
  (t_Kind t' = Cron -> CronReload ∉ es -> t_Kind old = Cron /\ t_Schedule t' = t_Schedule old /\ t_Paused t' = t_Paused old).
Proof.
  intros [_ Hno _ _ _] [(_ & -> & _)|(c & v & Hc & Hnv & -> & Hkeys & ->)]%Update_cases; [by split_and!; intros; split_and!; first [done | left]|].
  pose proof Hkeys as [= _ _ _ Hsl].
  cbn [set_keys t_Kind]. split_and!.
  - intros Hk Hs He. pose proof (quiet_kept _ _ _ _ Hc Hk Hs He) as Hq. pose proof (kept_words _ _ Hq) as Hw.
    pose proof (kept_sizes _ _ Hq) as Hz. pose proof (kept_health _ _ Hq) as Hh.
    pose proof (kept_restart _ _ Hq (norm_restart _ Hno) (norm_restart _ Hnv)) as Hr.
    destruct (same_container _ _ Hw Hz Hh Hr) as [Hsp Hp]. destruct Hz as [Hz Hf]. split_and!; try done; [by apply kept_limit|by apply kept_access|].
    unfold HostSet. cbn [flat_map]. unfold tile_lines. cbn [set_keys t_Slug]. unfold tileSource. cbn [set_keys t_ImageRef t_GitURL t_Command].
    change (tile_perms (set_keys _ _ _ _ _ _ _ _)) with (tile_perms v). injection Hw as _ Hi Hg _ _ _ _ _ _ Hcm _ _ _ _ _ _ _ _ _ _ _ _ _ _.
    by rewrite Hp, Hsl, Hi, Hg, Hcm.
  - intros Hk He. pose proof (run_kept _ _ _ _ Hc Hk He) as Hq. split.
    + apply (kept_built _ _ _ Hq). intros k Hk'. unfold not_built. destruct (contains_spec (build_keys ++ ["slice_access"]) k) as [|Hn]; [done|].
      exfalso. apply Hn. apply elem_of_app. by left.
    + symmetry. apply (bool_decide_eq_true_1 _). eapply (kept_mark _ _ _ _ _ Hq); [at_mark|reflexivity].
  - intros Hk He. rewrite Hk in He. pose proof (cron_kept _ _ _ Hc He) as Hq. split_and!; [|col Hq|col Hq].
    rewrite <-Hk. symmetry. col Hq.
Qed.

#[local] Existing Instance any_versions.
#[local] Abbreviation ex_old := (norm (with_name (ex_image zero_tile "nginx") "web" "web")).
#[local] Abbreviation ex_run := (Update (fun _ => true) 9 ex_old (set_policies ex_old "" "auto") [] ({["" := ex_old]} : gmap string Tile)).
#[local] Abbreviation ex_answer := (match ex_run with Ok (st, t, es) => (st, t, es) | Err _ => (∅, zero_tile, [Redeploy]) end).
Lemma Update_effects_suffice_witness : ex_answer.2 = [] /\ t_UpdatePolicy ex_answer.1.2 = "auto" /\ HostSet [ex_answer.1.2] = HostSet [ex_old].
Proof.
  split; [vm_compute; reflexivity|]. split; [vm_compute; reflexivity|].
  refine (proj2 (proj2 (proj2 (proj2 (proj2 (proj2 (proj2 (proj1 (Update_effects_suffice (fun _ => true) 9 ex_old (set_policies ex_old "" "auto") []
    ({["" := ex_old]} : gmap string Tile) ex_answer.1.1 ex_answer.1.2 ex_answer.2 _ _) _ _ _)))))))).
  - constructor; [|apply norm_norm|done|vm_compute; reflexivity|vm_compute; reflexivity].
    apply (Validate_accepts (fun _ => true) ex_old ex_old). vm_compute. reflexivity.
  - vm_compute. reflexivity.
  - vm_compute. reflexivity.
  - by vm_compute.
  - vm_compute. intros H. by apply not_elem_of_nil in H.
Defined.
