(* ===== verification/StopFirst.v ===== *)
(** * The rollout of a tile that holds data ([flow/deploy/deploy.go] [stopFirst], [revive])

    Such a tile must not have an old and a new replica on its data at once,
    and must not be left with neither. *)
From S2P Require Import Prelude GoStrings Errs Outside TileRow Docker TileLines TileCheck Access Tiles Daemon TilesSafe Rollout RolloutSafe.

(** ** Who may be running *)

(** No start of [x]. *)
Definition nostart (x : string) (p : event * bool) : Prop := match p.1 with EStart _ y => y <> x | _ => True end.
Lemma nostart_mild x e b : mild e = true -> nostart x (e, b).
Proof. by destruct e. Qed.

Section Writers.
Context (W : World) (tid : string) (h0 : hist).

(** [p] came with an error that says nothing is there. *)
Definition not_there (h : hist) (e : event) : Prop := exists err, w_ask W h e = Some err /\ is_not_found err = true.
(** The answer [p] at [h] that [x] runs no more: it was stopped, or the daemon
    knows of no such container of the tile. *)
Definition says_gone (x : string) (h : hist) (p : event * bool) : Prop :=
  match p with
  | (EStop c y, true) => y = x
  | (EStop c y, false) => y = x /\ not_there h (EStop c y)
  | (EList c ls, true) => exists err, (find_in (w_list W h ls) tid x).2 = Some err /\ is_not_found err = true
  | _ => False
  end.
(** Since [h0] [x] was said to be gone, and not started again. *)
Definition stopped_since (x : string) (h : hist) : Prop :=
  exists h1 p, later h0 h1 /\ says_gone x h1 p /\ grown (nostart x) (p :: h1) h.
(** Since [h0] the panel was told that it has no row of the tile, or of the
    env its node is read from.  The rollout takes that for an answer on the
    container it asked about. *)
Definition rowless (h : hist) : Prop :=
  exists h1 y, later h0 h1 /\ (y = ETile tid \/ exists v, y = ENode v) /\ not_there h1 y /\ later ((y, false) :: h1) h.
Definition gone (x : string) (h : hist) : Prop := stopped_since x h \/ rowless h.

(** Since [h0], or since it was taken away, [x] was not started. *)
Definition unstarted (x : string) (h : hist) : Prop :=
  grown (nostart x) h0 h \/ exists h1 c, later h0 h1 /\ grown (nostart x) ((EStopRemove c x, true) :: h1) h.
(** Since [h0] the daemon refused to take [x] away.  The rollout drops that
    error. *)
Definition refused (x : string) (h : hist) : Prop := exists h1 c, later h0 h1 /\ later ((EStopRemove c x, false) :: h1) h.
Definition idle (x : string) (h : hist) : Prop := unstarted x h \/ refused x h.

Lemma gone_later x h h' : grown (nostart x) h h' -> gone x h -> gone x h'.
Proof.
  intros Hg [(h1 & p & H1 & H2 & H3)|(h1 & y & H1 & H2 & H3 & H4)]; [left|right].
  - exists h1, p. split_and!; [done|done|by eapply grown_trans].
  - exists h1, y. split_and!; [done..|]. eapply later_trans; [exact H4|by eapply grown_later].
Qed.
Lemma idle_later x h h' : grown (nostart x) h h' -> idle x h -> idle x h'.
Proof.
  intros Hg [[H|(h1 & c & H1 & H2)]|(h1 & c & H1 & H2)]; [left; left; by eapply grown_trans|left; right|right]; exists h1, c.
  - split; [done|by eapply grown_trans].
  - split; [done|]. eapply later_trans; [exact H2|by eapply grown_later].
Qed.
Lemma idle_fresh x h : grown (nostart x) h0 h -> idle x h.
Proof. intros H. by left; left. Qed.
(** Asked to go, it is away or the daemon refused. *)
Lemma idle_asked x h1 c b : later h0 h1 -> idle x ((EStopRemove c x, b) :: h1).
Proof.
  intros Hl. destruct b; [left; right|right]; exists h1, c; (split; [done|]); [apply grown_refl|apply later_refl].
Qed.

(** A listed pause container of the tile. *)
Definition a_pause (x : string) (h : hist) : Prop :=
  exists h1 c k, later ((EList c (<[LabelRole := "pause"]> {[LabelTile := tid]}), true) :: h1) h /\
    k ∈ w_list W h1 (<[LabelRole := "pause"]> {[LabelTile := tid]}) /\ k_ID k = x.

(** What the rollout that makes [id] may do at [h]; [olds] ran before. *)
Definition careful (olds : list string) (id : string) (h : hist) (p : event * bool) : Prop :=
  match p.1 with
  | ECreate _ s => w_run W h s = id
  | EStart _ x => (x = id /\ Forall (fun o => gone o h) olds) \/ (x ∈ olds /\ idle id h)
  | EStop _ x => x ∈ olds
  | EStopRemove _ x => x = id \/ seen_healthy W id h0 h \/ a_pause x h
  | ERun _ s => at_key (s_Labels s) LabelRole = "pause"
  | ERestart _ _ | EPause _ _ | EUnpause _ _ | EExec _ _ _ | EExecStream _ _ _ => False
  | _ => True
  end.
End Writers.

Section Careful.
Context (W : World) `{!Ids W} (f : Flow) (t : Tile) (h0 : hist) (olds : list string) (id : string).
#[local] Abbreviation ok := (steps (careful W (t_ID t) h0 olds id)).
#[local] Abbreviation tiles := (f_Tiles f).

Lemma careful_mild h e b : mild e = true -> careful W (t_ID t) h0 olds id h (e, b).
Proof. destruct e; try done. cbn. by intros ->%String.eqb_eq. Qed.
Lemma mild_ok h h' : grown (fun p => mild p.1 = true) h h' -> ok h h'.
Proof. apply grown_steps. intros k [e b] H. by apply careful_mild. Qed.
Lemma run_mild {A} (m : M A) st st' r : adds (fun p => mild p.1 = true) m -> m st = (st', r) -> ok (past st) (past st').
Proof. intros Hm E. apply mild_ok. specialize (Hm st). by rewrite E in Hm. Qed.
Lemma run_grown {A} P (m : M A) st st' r : adds P m -> m st = (st', r) -> grown P (past st) (past st').
Proof. intros Hm E. specialize (Hm st). by rewrite E in Hm. Qed.

(** ** Stopping one *)

Lemma unless_gone_Ok m st st' u : unless_gone m st = (st', Ok u) ->
  m st = (st', Ok tt) \/ exists e, m st = (st', Err e) /\ is_not_found e = true.
Proof.
  unfold unless_gone. destruct (m st) as [st1 [[]|e]] eqn:E; [by intros [= <-]; left|]. destruct (is_not_found e) eqn:En; [|done].
  intros [= <-]. right. by exists e.
Qed.
Lemma unless_gone_Err m st st' e : unless_gone m st = (st', Err e) -> m st = (st', Err e).
Proof. unfold unless_gone. destruct (m st) as [st1 [u|e1]]; [done|]. by destruct (is_not_found e1). Qed.

Lemma reads_Err {A} e (g : hist -> A) (st st' : St) x : reads W e g st = (st', Err x) -> past st' = (e, false) :: past st /\ w_ask W (past st) e = Some x.
Proof. rewrite reads_cases. destruct (w_ask W _ _) as [y|] eqn:E; [|done]. by intros [= <- <-]. Qed.

(** An [atTile] that fails was told so by the rows. *)
Lemma atTile_Err ctx x st st' e : atTile W tiles ctx x st = (st', Err e) ->
  exists h1 y, later (past st) h1 /\ (y = ETile x \/ exists v, y = ENode v) /\ past st' = (y, false) :: h1 /\ w_ask W h1 y = Some e.
Proof.
  unfold atTile. destruct (_ || _); [done|]. unfold bind. destruct (reads W (ETile x) _ st) as [st1 [v|e1]] eqn:E.
  - unfold at_env. destruct (l_Node tiles); [|done]. unfold bind. destruct (reads W (ENode _) _ st1) as [st2 [n|e2]] eqn:E2; [done|].
    intros [= <- <-]. apply reads_Err in E2 as [E2 E3]. rewrite reads_cases in E. destruct (w_ask W (past st) _); [done|]. injection E as <- _.
    eexists _, _. split_and!; [|right; by eexists|exact E2|exact E3]. apply later_cons, later_refl.
  - intros [= <- <-]. apply reads_Err in E as [E1 E2]. eexists _, _. split_and!; [apply later_refl|by left|exact E1|exact E2].
Qed.

Lemma Stop_gone ctx x st st' u : later h0 (past st) -> unless_gone (Stop W tiles ctx (t_ID t) x) st = (st', Ok u) -> gone W (t_ID t) h0 x (past st').
Proof.
  intros Hl E. apply unless_gone_Ok in E as E1. unfold Stop in E1. clear E.
  assert (forall h p, later (past st) h -> past st' = p :: h -> says_gone W (t_ID t) x h p -> gone W (t_ID t) h0 x (past st')) as Hgo.
  { intros h p H1 -> H2. left. exists h, p. split_and!; [by eapply later_trans|done|apply grown_refl]. }
  unfold bind in E1. destruct (atTile W tiles ctx (t_ID t) st) as [st1 [c|e]] eqn:Ea.
  - apply run_later in Ea as Hl1; [|by apply atTile_adds]. unfold guard, find, ListC in E1. rewrite reads_cases in E1.
    destruct (w_ask W (past st1) _) as [x1|] eqn:Ew; [by destruct E1 as [E1|(e & E1 & Hn)]; [done|]; injection E1 as _ <-|].
    destruct (find_in _ _ _) as [k [e1|]] eqn:Ef.
    + destruct E1 as [|(e & E1 & Hn)]; [done|]. injection E1 as <- <-. apply (Hgo _ _ Hl1 eq_refl). cbn [says_gone]. exists e1. split; [by rewrite Ef|].
      by destruct (is_system e1).
    + destruct E1 as [E1|(e & E1 & Hn)]; rewrite call_ask in E1; destruct (w_ask W (past (log_event _ _ _)) (EStop c x)) as [x2|] eqn:Ex; [done| |..|done].
      * injection E1 as <-. eapply Hgo; [|reflexivity|done]. by apply later_cons.
      * injection E1 as <- <-. eapply Hgo; [|reflexivity|]; [by apply later_cons|]. cbn [says_gone]. split; [done|by eexists].
  - destruct E1 as [|(e1 & E1 & Hn)]; [done|]. injection E1 as <- <-. apply atTile_Err in Ea as (h1 & y & H1 & H2 & H3 & H4).
    right. exists h1, y. split_and!; [by eapply later_trans|exact H2|by exists e|]. rewrite H3. apply later_refl.
Qed.

(** ** Routing, giving back, launching *)

Lemma DropPause_ok ctx network st st' r : DropPause W tiles ctx t network st = (st', r) -> ok (past st) (past st').
Proof.
  unfold DropPause, ListC. intros [(x & E & ->)|(c & st1 & E1 & E)]%bind_past; [by eapply run_mild in E; [|by apply at_env_adds]|].
  apply run_mild in E1; [|by apply at_env_adds]. eapply steps_trans; [exact E1|].
  apply bind_past in E as [(x & E & ->)|(cs & st2 & E2 & E)]; [by eapply run_mild in E; [|by apply adds_reads]|].
  rewrite reads_cases in E2. destruct (w_ask W _ _); [done|]. injection E2 as <- <-. eapply steps_trans; [by apply (steps_one _ _ (EList c (tile_role t "pause"), true))|].
  apply (run_grown (fun p => mild p.1 = true \/ exists c x, p.1 = EStopRemove c (k_ID x) /\ x ∈ w_list W (past st1) (tile_role t "pause"))) in E.
  - eapply grown_steps; [|exact E]. intros l [e b] [Hm|(c1 & x & Hx & Hin)]; [by apply careful_mild|]. cbn [fst] in Hx. subst e. right; right.
    exists (past st1), c, x. split_and!; [apply later_app|done|done].
  - apply each_adds. intros x Hx. apply remove_adds; [by left|]. intros b. right. by exists c, x.
Qed.
Lemma route_ok ctx e st st' r : route W f ctx t e st = (st', r) -> ok (past st) (past st').
Proof.
  destruct (t_HostNetwork t) eqn:Hn; [|intros E; eapply run_mild; [|exact E]; by apply route_adds].
  unfold route. rewrite Hn. intros [(x & E & ->)|(u & st1 & E1 & E)]%bind_past; [by apply DropPause_ok in E|].
  eapply steps_trans; [by apply DropPause_ok in E1|]. eapply run_mild; [|exact E]. by apply sync_adds.
Qed.
Lemma route_nostart x ctx e : adds (nostart x) (route W f ctx t e).
Proof.
  destruct (t_HostNetwork t) eqn:Hn; [|apply route_adds; [by intros ??; apply nostart_mild|done]]. unfold route. rewrite Hn.
  apply adds_bind; [apply DropPause_adds; [intros ??; apply nostart_mild|done]|]. intros _. apply sync_adds. intros ??. apply nostart_mild.
Qed.

Context (Hid : exists h s, later h0 h /\ id = w_run W h s) (Hold : forall o, o ∈ olds -> o <> id).

Lemma Remove_id ctx st st' r : Remove W tiles ctx (t_ID t) id st = (st', r) ->
  grown (fun p => mild p.1 = true \/ exists c, p.1 = EStopRemove c id) (past st) (past st').
Proof.
  apply run_grown. apply Remove_adds; [by left|intros c b; right; by exists c|]. intros h k c b Hk Hor. right. exists c. cbn [fst]. f_equal.
  destruct Hor as [E|E]; [done|]. destruct Hid as (h1 & s & _ & ->). by rewrite (name_no_id h ∅ k h1 s).
Qed.
Lemma remove_id_ok h h' : grown (fun p => mild p.1 = true \/ exists c, p.1 = EStopRemove c id) h h' -> ok h h' /\ grown (nostart id) h h'.
Proof.
  intros Hg. split.
  - eapply grown_steps; [|exact Hg]. intros l [e b] [Hm|[c Hc]]; [by apply careful_mild|]. cbn [fst] in Hc. subst e. by left.
  - destruct Hg as (l & -> & Hl). exists l. split; [done|]. eapply Forall_impl; [exact Hl|]. intros [e b] [Hm|[c Hc]]; [by apply nostart_mild|].
    cbn [fst] in Hc. by subst e.
Qed.

Lemma StartContainer_old ctx o st st' r : o ∈ olds -> idle h0 id (past st) -> StartContainer W tiles ctx (t_ID t) o st = (st', r) ->
  ok (past st) (past st') /\ idle h0 id (past st').
Proof.
  intros Ho Hi E. apply (run_grown (fun p => mild p.1 = true \/ exists c, p.1 = EStart c o)) in E.
  2: { apply StartContainer_adds; [by left|]. intros c b. right. by exists c. }
  assert (forall p, (mild p.1 = true \/ exists c, p.1 = EStart c o) -> nostart id p) as Hns.
  { intros [e b] [Hm|[c Hc]]; [by apply nostart_mild|]. cbn [fst] in Hc. subst e. by apply Hold. }
  assert (forall h h', grown (fun p => mild p.1 = true \/ exists c, p.1 = EStart c o) h h' -> grown (nostart id) h h') as Hg.
  { intros h h' (l & -> & Hl). exists l. split; [done|]. eapply Forall_impl; [exact Hl|exact Hns]. }
  split; [|by eapply idle_later; [apply Hg|]]. destruct E as (l & El & Hl). exists l. split; [done|]. intros l2 [e b] l1 E1. subst l.
  apply Forall_app in Hl as [_ Hl]. inv Hl as [|? ? Hp Hl1]. destruct Hp as [Hm|[c Hc]]; [by apply careful_mild|]. cbn [fst] in Hc. subst e. right.
  split; [done|]. eapply idle_later; [|exact Hi]. apply Hg. by exists l1.
Qed.

Lemma revive_ok ctx e stopped drop st : Forall (fun k => k_ID k ∈ olds) stopped -> drop = "" \/ drop = id -> idle h0 id (past st) ->
  ok (past st) (past (revive W f ctx t e stopped drop st)).
Proof.
  intros Hs Hd Hi. unfold revive. set (st1 := if String.eqb drop "" then st else _).
  assert (ok (past st) (past st1) /\ idle h0 id (past st1)) as [H1 Hi1].
  { subst st1. destruct (String.eqb_spec drop ""); [by split; [apply steps_refl|]|]. destruct Hd as [|Hd]; [done|]. rewrite Hd. unfold quietly.
    destruct (Remove W tiles (WithoutCancel ctx) (t_ID t) id st) as [st2 r] eqn:E. apply Remove_id, remove_id_ok in E as [E1 E2].
    split; [exact E1|by eapply idle_later]. }
  clearbody st1. eapply steps_trans; [exact H1|]. clear H1.
  match goal with |- ok _ (past (quietly _ ?s)) => assert (ok (past st1) (past s)) as H2; [|set (st2 := s) in *; clearbody st2] end.
  { clear -Ids0 Hs Hi1 Hold. revert st1 Hi1. induction Hs as [|k ks Hk Hs IH]; intros st1 Hi1; cbn [fold_left]; [apply steps_refl|].
    unfold quietly at 2. destruct (StartContainer _ _ _ _ _ st1) as [st2 r] eqn:E. apply StartContainer_old in E as [H1 H2]; [|done|done].
    eapply steps_trans; [exact H1|]. by apply IH. }
  eapply steps_trans; [exact H2|]. unfold quietly. destruct (route _ _ _ _ _ st2) as [st3 r] eqn:E. by apply route_ok in E.
Qed.
(** ** The loop that stops the old ones *)

Lemma stop_one_grown ctx x st st' r : unless_gone (Stop W tiles ctx (t_ID t) x) st = (st', r) ->
  grown (fun p => mild p.1 = true \/ exists c, p.1 = EStop c x) (past st) (past st').
Proof.
  apply run_grown. intros s. unfold unless_gone.
  pose proof (Stop_adds W tiles (fun p => mild p.1 = true \/ exists c, p.1 = EStop c x) (fun _ _ H => or_introl H) ctx (t_ID t) x) as H.
  assert (adds (fun p => mild p.1 = true \/ exists c, p.1 = EStop c x) (Stop W tiles ctx (t_ID t) x)) as H1 by (apply H; intros c b; right; by exists c).
  specialize (H1 s). destruct (Stop W tiles ctx (t_ID t) x s) as [s1 [u|e]]; [done|]. by destruct (is_not_found e).
Qed.
Lemma stop_one_ok x h h' : x ∈ olds -> grown (fun p => mild p.1 = true \/ exists c, p.1 = EStop c x) h h' -> ok h h' /\ forall y, grown (nostart y) h h'.
Proof.
  intros Hx Hg. split.
  - eapply grown_steps; [|exact Hg]. intros l [e b] [Hm|[c Hc]]; [by apply careful_mild|]. cbn [fst] in Hc. by subst e.
  - intros y. destruct Hg as (l & -> & Hl). exists l. split; [done|]. eapply Forall_impl; [exact Hl|]. intros [e b] [Hm|[c Hc]]; [by apply nostart_mild|].
    cbn [fst] in Hc. by subst e.
Qed.

Lemma stop_old_runs ctx e cs : forall stopped st st' r, later h0 (past st) -> grown (nostart id) h0 (past st) ->
  Forall (fun k => k_ID k ∈ olds) (List.filter is_running cs) -> Forall (fun k => k_ID k ∈ olds) stopped ->
  Forall (fun k => gone W (t_ID t) h0 (k_ID k) (past st)) stopped ->
  stop_old W f ctx t e id cs stopped st = (st', r) ->
  ok (past st) (past st') /\ forall s', r = Ok s' ->
    s' = stopped ++ List.filter is_running cs /\ Forall (fun k => gone W (t_ID t) h0 (k_ID k) (past st')) s' /\ grown (nostart id) h0 (past st').
Proof.
  induction cs as [|c cs IH]; intros stopped st st' r Hl Hi Hr Hs Hg; cbn [stop_old List.filter].
  { intros [= <- <-]. split; [apply steps_refl|]. intros s' [= <-]. by rewrite app_nil_r. }
  cbn [List.filter] in Hr. destruct (is_running c) eqn:Er; cbn [negb]; [|by apply IH]. inv Hr as [|? ? Hc Hcs].
  destruct (unless_gone _ st) as [st1 [u|err]] eqn:E; pose proof (stop_one_grown _ _ _ _ _ E) as (H1 & H2)%(stop_one_ok _ _ _ Hc).
  - intros E1. apply IH in E1 as [H3 H4]; [| | |done| |].
    + split; [by eapply steps_trans|]. intros s' Hs'. destruct (H4 s' Hs') as (-> & H5 & H6). by rewrite <-app_assoc in *.
    + eapply later_trans; [exact Hl|]. by eapply grown_later, (H2 "").
    + by eapply grown_trans, H2.
    + apply Forall_app. split; [exact Hs|by repeat constructor].
    + apply Forall_app. split; [|apply Forall_singleton; by eapply Stop_gone]. eapply Forall_impl; [exact Hg|]. intros k. apply gone_later, H2.
  - intros [= <- <-]. split; [|done]. eapply steps_trans; [exact H1|]. apply revive_ok; [done|by right|apply idle_fresh]. by eapply grown_trans, H2.
Qed.

Lemma quiet_past e (st : St) : exists b, past (quiet W e st) = (e, b) :: past st.
Proof. unfold quiet. rewrite call_ask. destruct (w_ask W (past st) e); by eexists. Qed.

(** A gate that fails takes the container away. *)
Lemma gated_drops ctx x st st' e : gated W tiles ctx t x st = (st', Err e) ->
  exists h1 c b, later (past st) h1 /\ past st' = (EStopRemove c x, b) :: h1.
Proof.
  unfold gated. pose proof (early_adds tiles (fun _ => True) (fun _ _ _ => I) ctx t x true st) as H1.
  set (st1 := early _ _ _ _ _ st) in *. clearbody st1. destruct (gate _ _ _ _ _ st1) as [st2 [u|e1]] eqn:Eg; [done|].
  apply run_later in Eg; [|by apply gate_adds]. assert (later (past st2) (past (match ctx_Err W ctx st2 with None => lastWords W ctx x e1 st2 | Some _ => (st2, e1) end).1)) as H2.
  { destruct (ctx_Err W ctx st2); [apply later_refl|]. by eapply grown_later, (lastWords_adds W (fun _ => True)). }
  destruct (match ctx_Err W ctx st2 with None => _ | Some _ => _ end) as [st3 e2]. cbn [fst] in H2. intros [= <- _].
  pose proof (early_adds tiles (fun _ => True) (fun _ _ _ => I) (WithoutCancel ctx) t x false st3) as H3. set (st4 := early _ _ _ _ _ st3) in *.
  destruct (quiet_past (EStopRemove (WithoutCancel ctx) x) st4) as [b Eb]. exists (past st4), (WithoutCancel ctx), b. split; [|exact Eb].
  apply grown_later in H1, H3. repeat (eapply later_trans; [eassumption|]). apply later_refl.
Qed.
Lemma Launch_drops ctx x st st' e : Launch W tiles ctx t x st = (st', Err e) ->
  grown (nostart x) (past st) (past st') \/ exists h1 c b, later (past st) h1 /\ past st' = (EStopRemove c x, b) :: h1.
Proof.
  unfold Launch. intros [(y & E & _)|(c & st1 & E1 & E)]%bind_past.
  { left. eapply run_grown; [|exact E]. apply at_env_adds. intros ??; apply nostart_mild. }
  apply run_later in E1; [|by apply at_env_adds]. right. rewrite call_ask in E. destruct (w_ask W _ _) as [y|].
  - injection E as <- _. destruct (quiet_past (EStopRemove (WithoutCancel c) x) (log_event (EStart c x) false st1)) as [b Eb].
    eexists _, _, _. split; [|exact Eb]. by apply later_cons.
  - apply gated_drops in E as (h1 & c1 & b & H1 & H2). exists h1, c1, b. split; [|done]. eapply later_trans; [exact E1|].
    eapply later_trans; [|exact H1]. apply later_cons, later_refl.
Qed.
Lemma Launch_seen ctx x st st' u : Launch W tiles ctx t x st = (st', Ok u) -> seen_healthy W x (past st) (past st').
Proof.
  unfold Launch. intros (c & st1 & E1 & E)%bind_Ok. apply run_later in E1; [|by apply at_env_adds]. rewrite call_ask in E.
  destruct (w_ask W _ _); [done|]. apply gated_seen in E. eapply seen_from; [|exact E]. by apply later_cons.
Qed.

(** The events of a launch of the new one. *)
Definition launching (p : event * bool) : Prop := mild p.1 = true \/ (exists c, p.1 = EStart c id) \/ exists c, p.1 = EStopRemove c id.
Lemma launching_nostart o p : o <> id -> launching p -> nostart o p.
Proof. destruct p as [e b]. intros Ho [Hm|[[c Hc]|[c Hc]]]; [by apply nostart_mild| |]; cbn [fst] in Hc; subst e; [|done]. cbn. congruence. Qed.
Lemma launching_ok h h' : later h0 h -> Forall (fun o => gone W (t_ID t) h0 o h) olds -> grown launching h h' -> ok h h'.
Proof.
  intros Hl Ho (l & -> & Hg). exists l. split; [done|]. intros l2 [e b] l1 ->. apply Forall_app in Hg as [_ Hg]. inv Hg as [|? ? Hp Hl1].
  destruct Hp as [Hm|[[c Hc]|[c Hc]]]; [by apply careful_mild| |]; cbn [fst] in Hc; subst e; [|by left]. left. split; [done|].
  apply Forall_forall. intros o Hin. eapply gone_later; [|exact (proj1 (Forall_forall _ _) Ho o Hin)]. exists l1. split; [done|].
  eapply Forall_impl; [exact Hl1|]. intros p. by apply launching_nostart, Hold.
Qed.
Lemma Launch_launching ctx st st' r : Launch W tiles ctx t id st = (st', r) -> grown launching (past st) (past st').
Proof. apply run_grown, Launch_adds; [by left|intros c b; right; left; by exists c|intros c b; right; right; by exists c]. Qed.
Lemma Launch_idle ctx st st' e : later h0 (past st) -> idle h0 id (past st) -> Launch W tiles ctx t id st = (st', Err e) -> idle h0 id (past st').
Proof.
  intros Hl Hi [H|(h1 & c & b & H1 & H2)]%Launch_drops; [by eapply idle_later|]. rewrite H2. apply idle_asked. by eapply later_trans.
Qed.
End Careful.

(** ** The whole rollout *)

Section Rollout.
Context (W : World) `{!Ids W} (f : Flow) (t : Tile) (ctx : Ctx) (e : Env) (rs : resolved).
#[local] Abbreviation tiles := (f_Tiles f).

(** Once the new one was seen healthy, what is left may take the old ones. *)
Lemma healthy_ok h0 olds id h h' : seen_healthy W id h0 h ->
  grown (fun p => mild p.1 = true \/ exists c x, p.1 = EStopRemove c x) h h' -> steps (careful W (t_ID t) h0 olds id) h h'.
Proof.
  intros Hs. apply grown_steps. intros l [ev b] [Hm|(c & x & Hc)]; [by apply careful_mild|]. cbn [fst] in Hc. subst ev. right; left.
  eapply seen_later; [|exact Hs]. apply later_app.
Qed.
Lemma remove_old_grown cs st st' r : remove_old W f ctx t cs st = (st', r) ->
  grown (fun p => mild p.1 = true \/ exists c x, p.1 = EStopRemove c x) (past st) (past st').
Proof. apply run_grown. apply remove_old_adds; [by left|]. intros c x b. right. by exists c, x. Qed.

(** From the stops on, for the new replica [id]. *)
Definition after_create (id : string) (old : list Container) : M unit :=
  stopped <~ stop_old W f ctx t e id old [] ;;
  _ <~ (fun st => match Launch W tiles ctx t id st with
        | (st, Err err) => (revive W f ctx t e stopped "" st, Err err)
        | ok => ok
        end) ;;
  _ <~ route W f ctx t e ;;
  _ <~ remove_old W f ctx t old ;;
  route W f ctx t e.

#[local] Abbreviation ran old := (map k_ID (List.filter is_running old)).

Lemma after_create_ok h0 id old st st' r : later h0 (past st) -> grown (nostart id) h0 (past st) ->
  (exists h s, later h0 h /\ id = w_run W h s) -> (forall o, o ∈ ran old -> o <> id) ->
  after_create id old st = (st', r) -> steps (careful W (t_ID t) h0 (ran old) id) (past st) (past st').
Proof.
  intros Hl Hi Hid Hold E. unfold after_create in E.
  assert (Forall (fun k => k_ID k ∈ ran old) (List.filter is_running old)) as Hran.
  { apply Forall_forall. intros k Hk. apply list_elem_of_In, in_map, list_elem_of_In, Hk. }
  apply bind_past in E as [(x & E & ->)|(stopped & st1 & E1 & E)].
  { by apply (stop_old_runs W f t h0 (ran old) id Hid Hold) in E as [H _]; [|done..]. }
  apply (stop_old_runs W f t h0 (ran old) id Hid Hold) in E1 as [H1 Hs]; [|done..]. eapply steps_trans; [exact H1|].
  destruct (Hs stopped eq_refl) as (Es & Hg & Hi1). cbn [app] in Es. apply steps_later in H1.
  assert (later h0 (past st1)) as Hl1 by by eapply later_trans.
  assert (Forall (fun o => gone W (t_ID t) h0 o (past st1)) (ran old)) as Hgo by (apply Forall_map; by subst stopped).
  apply bind_past in E as [(x & E & ->)|(u & st2 & E2 & E)]; destruct (Launch W tiles ctx t id st1) as [st3 [v|err]] eqn:EL; [done| | |done].
  - injection E as <- _. pose proof (Launch_launching _ _ _ _ _ _ _ _ EL) as H2. eapply steps_trans; [by eapply launching_ok|].
    apply (revive_ok W f t h0 _ id Hid Hold); [by subst stopped|by left|]. eapply Launch_idle; [exact Hl1|by apply idle_fresh|exact EL].
  - injection E2 as <- <-. pose proof (Launch_launching _ _ _ _ _ _ _ _ EL) as H2. eapply steps_trans; [by eapply launching_ok|].
    apply Launch_seen in EL. apply (seen_from W h0 id) in EL; [|done].
    apply bind_past in E as [(x & E & ->)|(u & st4 & E3 & E)]; [by apply (route_ok W f t h0 (ran old) id) in E|].
    apply (route_ok W f t h0 (ran old) id) in E3 as H3. eapply steps_trans; [exact H3|]. apply (seen_later W h0 id _ (past st4)) in EL; [|by eapply steps_later].
    apply bind_past in E as [(x & E & ->)|(u1 & st5 & E4 & E)]; [by apply remove_old_grown in E; eapply healthy_ok|].
    eapply steps_trans; [by eapply healthy_ok, remove_old_grown|]. by eapply route_ok.
Qed.
Lemma Replicas_listed st st1 old : Replicas W tiles ctx t st = (st1, Ok old) ->
  forall k, k ∈ old -> exists h1 ls, later h1 (past st1) /\ k ∈ w_list W h1 ls.
Proof.
  unfold Replicas, ListC. intros (c & st2 & _ & E)%bind_Ok k Hk. rewrite reads_cases in E. destruct (w_ask W _ _); [done|]. injection E as <- <-.
  exists (past st2), (tile_role t "replica"). split; [|done]. apply later_cons, later_refl.
Qed.

(** A create: what it made was not there, and it is all that was made. *)
Lemma CreateReplica_runs h0 olds s st st' r : later h0 (past st) -> CreateReplica W tiles ctx t s st = (st', r) -> exists id,
  steps (careful W (t_ID t) h0 olds id) (past st) (past st') /\ grown (nostart id) (past st) (past st') /\
  (exists h sp, later (past st) h /\ id = w_run W h sp) /\ forall x, r = Ok x -> x = id.
Proof.
  intros Hl. unfold CreateReplica, Create. intros [(x & E & ->)|(c & st1 & E1 & E)]%bind_past.
  { exists (w_run W (past st) s). split_and!; [eapply run_mild; [|exact E]; by apply at_env_adds| |exists (past st), s; by split; [apply later_refl|]|done].
    eapply run_grown; [|exact E]. apply at_env_adds. intros ??; apply nostart_mild. }
  exists (w_run W (past st1) (replica t s)). pose proof (run_mild W t h0 olds (w_run W (past st1) (replica t s)) _ _ _ _ (at_env_adds W tiles _ (fun _ _ H => H) ctx _) E1) as H1.
  assert (grown (nostart (w_run W (past st1) (replica t s))) (past st) (past st1)) as H2.
  { eapply run_grown; [|exact E1]. apply at_env_adds. intros ??; apply nostart_mild. }
  rewrite reads_cases in E. split_and!; [| |exists (past st1), (replica t s); split; [by eapply steps_later|done]|].
  - eapply steps_trans; [exact H1|]. destruct (w_ask W _ _); injection E as <- _; by apply steps_one.
  - eapply grown_trans; [exact H2|]. destruct (w_ask W _ _); injection E as <- _; by apply grown_one.
  - intros x ->. destruct (w_ask W _ _); [done|]. by injection E.
Qed.
End Rollout.

(** C3. One writer at a time.  When a tile that must not run twice at once
    (managed, on a volume or on the host's network) is rolled out, then in
    every order of answers and failures of the daemon: only one replica is
    created; it is started only after every old replica that ran was stopped,
    or the daemon knew of no such container, and it was not started since; an
    old one is started again only while the new one was never started, or after
    it was taken away; and no replica but the new one and the tile's pause
    containers is removed before the new one was seen healthy.  The two answers
    the rollout lets pass are named: a refused removal of the new one
    ([refused]), beside which an old one is started all the same, and a tile or
    an env that has lost its row ([rowless]). *)
Theorem stop_first_one_writer W `{!Ids W} f ctx t e r st st' res : overlap t r = false -> rollout W f ctx t e r st = (st', res) ->
  match Replicas W (f_Tiles f) ctx t st with
  | (st1, Err _) => st' = st1
  | (st1, Ok old) => exists id, steps (careful W (t_ID t) (past st1) (map k_ID (List.filter is_running old)) id) (past st1) (past st')
  end.
Proof.
  intros Ho E. unfold rollout in E. rewrite Ho in E. unfold bind at 1 in E. destruct (Replicas W (f_Tiles f) ctx t st) as [st1 [old|err]] eqn:ER; [|by injection E].
  set (olds := map k_ID (List.filter is_running old)). change (stopFirst W f ctx t e r old) with
    (_ <~ call W ESwap ;; id <~ CreateReplica W (f_Tiles f) ctx t (with_Name (spec t r) (r_name r +:+ "-1")) ;; after_create W f t ctx e id old) in E.
  apply bind_past in E as [(x & E & ->)|(u & st2 & E2 & E)].
  { exists "". eapply run_mild; [|exact E]. by apply adds_call. }
  pose proof (adds_call (fun p => mild p.1 = true) W ESwap eq_refl eq_refl st1) as H2. rewrite E2 in H2. cbn [fst] in H2.
  assert (later (past st1) (past st2)) as Hl by by eapply grown_later.
  apply bind_past in E as [(x & E & ->)|(id & st3 & E3 & E)].
  { destruct (CreateReplica_runs W f t ctx (past st1) olds _ _ _ _ Hl E) as (id & H3 & _). exists id. eapply steps_trans; [|exact H3]. by apply mild_ok. }
  destruct (CreateReplica_runs W f t ctx (past st1) olds _ _ _ _ Hl E3) as (id' & H3 & H4 & (h & sp & H5 & H6) & H7). rewrite <-(H7 id eq_refl) in *. clear H7 id'.
  exists id. eapply steps_trans; [by apply mild_ok|]. eapply steps_trans; [exact H3|].
  eapply (after_create_ok W); [exact (later_trans _ _ _ Hl (steps_later _ _ _ H3))| |exists h, sp; split; [by eapply later_trans|done]| |exact E].
  - eapply grown_trans; [|exact H4]. destruct H2 as (l & -> & H2). exists l. split; [done|]. eapply Forall_impl; [exact H2|]. intros [? ?]. apply nostart_mild.
  - intros o (k & <- & Hk)%list_elem_of_In%in_map_iff. apply List.filter_In in Hk as [Hk _]. apply list_elem_of_In in Hk.
    destruct (Replicas_listed W f t ctx st st1 old ER k Hk) as (h1 & ls & H8 & H9). rewrite H6. apply (fresh_id h sp h1 ls); [|exact H9].
    exact (later_trans _ _ _ H8 (later_trans _ _ _ Hl H5)).
Qed.

(** A database of one replica on a volume: once when all goes well, and once
    when the new replica does not start. *)
Definition ex_db : resolved := MkResolved "db-j8" "img:2" "" [] ["data:/data"] [] [] ∅ [] false false [MkNetAttach "net" ["db"] ""] [] 0 0 0.
Definition ex_broken : World := daemon ex_old (fun _ e => match e with EStart _ "o" => None | EStart _ _ => Some (New "no") | _ => None end).
(** The new replica cannot be looked at, and does not go away. *)
Definition ex_stuck : World := daemon ex_old (fun _ e => match e with EInspect _ x => if String.eqb x "cxxxx" then Some (New "no") else None | EStopRemove _ _ => Some (New "no") | _ => None end).
#[local] Abbreviation ex_roll W := (rollout W ex_flow ex_ctx ex_web (MkEnv "net") ex_db (MkSt tt [])).
Definition ends_stopped (id : string) (h : hist) : bool :=
  existsb (fun p => match p.1 with EStop _ x => String.eqb x id && p.2 | _ => false end) h.
Definition starts (h : hist) : list (string * bool) :=
  omap (fun p => match p.1 with EStart _ x => Some (x, p.2) | _ => None end) (rev h).

Lemma stop_first_one_writer_witness :
  map k_ID (List.filter is_running (w_list ex_stuck (past (ex_roll ex_stuck).1) (tile_role ex_web "replica"))) = ["o"; "cxxxx"] /\
  (ends_stopped "o" (past (ex_roll ex_world).1) = true /\ starts (past (ex_roll ex_world).1) = [("cxxxx", true)]) /\
  (ends_stopped "o" (past (ex_roll ex_broken).1) = true /\ starts (past (ex_roll ex_broken).1) = [("cxxxx", false); ("o", true)]) /\
  match Replicas ex_broken (f_Tiles ex_flow) ex_ctx ex_web (MkSt tt []) with
  | (st1, Err _) => False
  | (st1, Ok old) => exists id, steps (careful ex_broken "t1" (past st1) (map k_ID (List.filter is_running old)) id) (past st1) (past (ex_roll ex_broken).1)
  end.
Proof.
  split; [vm_compute; done|]. split; [vm_compute; done|]. split; [vm_compute; done|].
  pose proof (stop_first_one_writer ex_broken ex_flow ex_ctx ex_web (MkEnv "net") ex_db (MkSt tt []) (ex_roll ex_broken).1 (ex_roll ex_broken).2 eq_refl (surjective_pairing _)) as H.
  exact H.
Defined.
