(* ===== verification/Revive.v ===== *)
(** * A failed rollout gives back what it stopped ([flow/deploy/deploy.go] [stopFirst], [revive]) *)
From S2P Require Import Prelude GoStrings Errs Outside TileRow Docker TileLines TileCheck Access Tiles Daemon TilesSafe Rollout RolloutSafe StopFirst.

(** The reads of rows and of the daemon. *)
Definition looks (e : event) : bool :=
  match e with ENode _ | ETile _ | EList _ _ | EInspect _ _ => true | _ => false end.

(** Every stop that worked is of one of [ids]. *)
Definition stops_only (ids : list string) (p : event * bool) : Prop :=
  match p with (EStop _ x, true) => x ∈ ids | _ => True end.
Lemma stops_only_mild ids e b : mild e = true -> stops_only ids (e, b).
Proof. by destruct e. Qed.
Lemma stops_only_more ids ids' h h' : ids ⊆ ids' -> grown (stops_only ids) h h' -> grown (stops_only ids') h h'.
Proof. intros Hs. apply grown_impl. intros [e b]. destruct e; try done. destruct b; [|done]. apply Hs. Qed.
Lemma stops_none ids h h' : grown (stops_only []) h h' -> grown (stops_only ids) h h'.
Proof. apply stops_only_more, list_subseteq_nil. Qed.

(** Nothing stops or takes [x]. *)
Definition spares (x : string) (p : event * bool) : Prop := touches p.1 <> Some x.
Lemma spares_mild x e b : mild e = true -> spares x (e, b).
Proof. intros H. unfold spares. cbn [fst]. by rewrite mild_untouched. Qed.

(** After [h] the start of [x] was asked for, by a call no cancel reaches. *)
Definition started_again (x : string) (h h' : hist) : Prop :=
  exists c b h1, c_detached c = true /\ later h h1 /\ later ((EStart c x, b) :: h1) h'.
(** After [h] a read failed, or a list of the daemon did not show [x] as a
    container of the tile the panel may start. *)
Definition unseen (W : World) (tid x : string) (h h' : hist) : Prop :=
  (exists ev h1, looks ev = true /\ later h h1 /\ later ((ev, false) :: h1) h') \/
  exists c h1, later h h1 /\ later ((EList c ∅, true) :: h1) h' /\ (find_in (w_list W h1 ∅) tid x).2 <> None.
Definition tried (W : World) (tid x : string) (h h' : hist) : Prop := started_again x h h' \/ unseen W tid x h h'.
Lemma tried_later W tid x h h' h'' : later h' h'' -> tried W tid x h h' -> tried W tid x h h''.
Proof.
  intros Hl [(c & b & h1 & H1 & H2 & H3)|[(ev & h1 & H1 & H2 & H3)|(c & h1 & H1 & H2 & H3)]]; [left|right; left|right; right].
  - exists c, b, h1. split_and!; [done|done|by eapply later_trans].
  - exists ev, h1. split_and!; [done|done|by eapply later_trans].
  - exists c, h1. split_and!; [done|by eapply later_trans|done].
Qed.
Lemma tried_from W tid x h0 h h' : later h0 h -> tried W tid x h h' -> tried W tid x h0 h'.
Proof.
  intros Hl [(c & b & h1 & H1 & H2 & H3)|[(ev & h1 & H1 & H2 & H3)|(c & h1 & H1 & H2 & H3)]]; [left|right; left|right; right].
  - exists c, b, h1. split_and!; [done|by eapply later_trans|done].
  - exists ev, h1. split_and!; [done|by eapply later_trans|done].
  - exists c, h1. split_and!; [by eapply later_trans|done|done].
Qed.

(** What was stopped since [h0], and all of it asked back since. *)
Definition gave_back (W : World) (tid : string) (h0 h : hist) : Prop :=
  exists h1 xs, grown (stops_only xs) h0 h1 /\ grown (stops_only []) h1 h /\ Forall (fun x => tried W tid x h1 h) xs.
(** Since [h0] one replica was created, it was seen healthy, and nothing
    stopped or took it. *)
Definition serves (W : World) (h0 h : hist) : Prop :=
  exists c s h1, later h0 h1 /\ later ((ECreate c s, true) :: h1) h /\ seen_healthy W (w_run W h1 s) h0 h /\
    grown (spares (w_run W h1 s)) h1 h.

Section Revive.
Context (W : World) (f : Flow) (t : Tile) (ctx : Ctx) (e : Env).
#[local] Abbreviation tiles := (f_Tiles f).
#[local] Abbreviation tried := (tried W (t_ID t)).
#[local] Abbreviation gave_back := (gave_back W (t_ID t)).

Lemma StartContainer_tries c x st st' r : c_detached c = true -> StartContainer W tiles c (t_ID t) x st = (st', r) -> tried x (past st) (past st').
Proof.
  intros Hc E. unfold StartContainer in E. apply bind_past in E as [(x1 & E & ->)|(c' & st1 & E1 & E)].
  { apply atTile_Err in E as (h1 & y & H1 & H2 & H3 & _). right; left. exists y, h1. rewrite H3.
    split_and!; [by destruct H2 as [-> |[v ->]]|done|apply later_refl]. }
  assert (c_detached c' = true) as Hc'.
  { unfold atTile in E1. destruct (_ || _); [by injection E1 as _ <-|]. apply bind_Ok in E1 as (v & st2 & _ & E1). unfold at_env in E1.
    destruct (l_Node tiles); [|by injection E1 as _ <-]. apply bind_Ok in E1 as (n & st3 & _ & E1). by injection E1 as _ <-. }
  apply run_later in E1; [|by apply atTile_adds]. unfold guard, find, ListC, bind in E. rewrite reads_cases in E.
  destruct (w_ask W (past st1) _) as [y|].
  { injection E as <- _. right; left. exists (EList c' ∅), (past st1). split_and!; [done|done|apply later_refl]. }
  destruct (find_in _ _ _) as [k [y|]] eqn:Ef.
  - injection E as <- _. right; right. exists c', (past st1). split_and!; [done|apply later_refl|by rewrite Ef].
  - apply call_cases in E. subst st'. left. exists c', (is_ok r), (past (log_event (EList c' ∅) true st1)).
    split_and!; [done|by apply later_cons|apply later_refl].
Qed.

Lemma Stop_stops c x st st' r : unless_gone (Stop W tiles c (t_ID t) x) st = (st', r) ->
  grown (stops_only [x]) (past st) (past st') /\ (is_ok r = false -> grown (stops_only []) (past st) (past st')).
Proof.
  intros E. split.
  { unfold unless_gone in E. pose proof (Stop_adds W tiles (stops_only [x]) (stops_only_mild [x]) c (t_ID t) x) as H.
    assert (forall c b, stops_only [x] (EStop c x, b)) as Hp by (intros c1 []; [by apply list_elem_of_singleton|done]).
    specialize (H Hp st). destruct (Stop _ _ _ _ _ st) as [s1 [u|err]]; [by injection E as <- _|]. destruct (is_not_found err); by injection E as <- _. }
  intros Hr. destruct r as [u|err]; [done|]. apply unless_gone_Err in E. unfold Stop in E. pose proof (stops_only_mild []) as Hm.
  apply bind_past in E as [(x1 & E & _)|(c' & st1 & E1 & E)]; [eapply run_grown; [|exact E]; by apply atTile_adds|].
  eapply grown_trans; [eapply run_grown; [|exact E1]; by apply atTile_adds|].
  apply bind_past in E as [(x1 & E & _)|(v & st2 & E2 & E)]; [eapply run_grown; [|exact E]; by apply guard_adds|].
  eapply grown_trans; [eapply run_grown; [|exact E2]; by apply guard_adds|]. apply call_cases in E. subst st'. by apply grown_one.
Qed.

Lemma route_stops c st : grown (stops_only []) (past st) (past (route W f c t e st).1).
Proof.
  apply (fun H => H st). destruct (t_HostNetwork t) eqn:Hn; [|apply route_adds; [apply stops_only_mild|done]]. unfold route. rewrite Hn.
  apply adds_bind; [apply DropPause_adds; [apply stops_only_mild|done]|]. intros _. apply sync_adds, stops_only_mild.
Qed.

Lemma start_each_again ks st :
  let st' := fold_left (fun st c => quietly (StartContainer W tiles (WithoutCancel ctx) (t_ID t) (k_ID c)) st) ks st in
  grown (stops_only []) (past st) (past st') /\ Forall (fun x => tried x (past st) (past st')) (map k_ID ks).
Proof.
  revert st. induction ks as [|k ks IH]; intros st; cbn [fold_left map]; [split; [apply grown_refl|constructor]|].
  unfold quietly at 2 4. destruct (StartContainer W tiles (WithoutCancel ctx) (t_ID t) (k_ID k) st) as [st1 r] eqn:E. cbn [fst].
  assert (grown (stops_only []) (past st) (past st1)) as H1 by by eapply run_grown; [|exact E]; apply StartContainer_adds; [apply stops_only_mild|].
  destruct (IH st1) as [H3 H4]. apply StartContainer_tries in E; [|done]. split; [by eapply grown_trans|]. constructor.
  - eapply tried_later; [by eapply grown_later|exact E].
  - eapply Forall_impl; [exact H4|]. intros x. apply tried_from. by eapply grown_later.
Qed.

Lemma revive_gives_back stopped drop st :
  grown (stops_only []) (past st) (past (revive W f ctx t e stopped drop st)) /\
  Forall (fun x => tried x (past st) (past (revive W f ctx t e stopped drop st))) (map k_ID stopped).
Proof.
  unfold revive. set (st1 := if String.eqb drop "" then st else _).
  assert (grown (stops_only []) (past st) (past st1)) as H1.
  { subst st1. destruct (String.eqb_spec drop ""); [apply grown_refl|]. unfold quietly. by apply Remove_adds; [apply stops_only_mild|..]. }
  clearbody st1. destruct (start_each_again stopped st1) as [H3 Hf].
  set (st2 := fold_left _ stopped st1) in *. clearbody st2. pose proof (route_stops (WithoutCancel ctx) st2) as H4. unfold quietly.
  split; [eapply grown_trans; [exact H1|by eapply grown_trans]|].
  eapply Forall_impl; [exact Hf|]. intros x Hx. eapply tried_from; [by eapply grown_later|]. eapply tried_later; [by eapply grown_later|exact Hx].
Qed.

Lemma stop_old_gives_back h0 drop cs : forall stopped st st' r, grown (stops_only (map k_ID stopped)) h0 (past st) ->
  stop_old W f ctx t e drop cs stopped st = (st', r) ->
  match r with
  | Ok s' => s' = stopped ++ List.filter is_running cs /\ grown (stops_only (map k_ID s')) h0 (past st')
  | Err _ => gave_back h0 (past st')
  end.
Proof.
  induction cs as [|c cs IH]; intros stopped st st' r Hg; cbn [stop_old List.filter].
  { intros [= <- <-]. by rewrite app_nil_r. }
  destruct (is_running c); cbn [negb]; [|by apply IH]. destruct (unless_gone _ st) as [st1 [u|err]] eqn:E.
  all: apply Stop_stops in E as [H1 H2].
  - intros E. apply IH in E; [by destruct r; [rewrite <-app_assoc in E|]|].
    rewrite map_app. eapply grown_trans; [eapply stops_only_more; [|exact Hg]; set_solver|]. eapply stops_only_more; [|exact H1]. set_solver.
  - intros [= <- <-]. destruct (revive_gives_back stopped drop st1) as [H3 H4]. exists (past st1), (map k_ID stopped). split_and!; [|done|done].
    eapply grown_trans; [exact Hg|]. by apply stops_none, H2.
Qed.

(** ** The new replica is left alone *)

Lemma gated_Ok_mild P c x st st' u : (forall ev b, mild ev = true -> P (ev, b)) -> gated W tiles c t x st = (st', Ok u) -> grown P (past st) (past st').
Proof.
  intros HP. unfold gated. pose proof (early_adds tiles P HP c t x true st) as H. set (st0 := early _ _ _ _ _ st) in *. clearbody st0.
  destruct (gate _ _ _ _ _ st0) as [st1 [v|y]] eqn:E; [|by destruct (match ctx_Err W c st1 with None => _ | Some _ => _ end)].
  intros [= <- _]. eapply grown_trans; [exact H|]. eapply run_grown; [|exact E]. by apply gate_adds.
Qed.
Lemma Launch_Ok_spares c x st st' u : Launch W tiles c t x st = (st', Ok u) -> grown (spares x) (past st) (past st').
Proof.
  unfold Launch. intros (c' & st1 & E1 & E)%bind_Ok. eapply grown_trans; [eapply run_grown; [|exact E1]; apply at_env_adds, spares_mild|].
  rewrite call_ask in E. destruct (w_ask W _ _); [done|]. eapply grown_trans; [by apply (grown_one _ _ (EStart c' x, true))|].
  exact (gated_Ok_mild _ _ _ _ _ _ (spares_mild x) E).
Qed.

Context `{!Ids W, !Labelled W} (cc : Ctx) (s : ContainerSpec) (h1 : hist).
#[local] Abbreviation id := (w_run W h1 (replica t s)).
#[local] Abbreviation born := ((ECreate cc (replica t s), true) :: h1).

Lemma DropPause_spares c network st st' r : later born (past st) -> DropPause W tiles c t network st = (st', r) -> grown (spares id) (past st) (past st').
Proof.
  intros Hl. unfold DropPause, ListC. intros [(x & E & ->)|(c' & st1 & E1 & E)]%bind_past.
  { eapply run_grown; [|exact E]. apply at_env_adds, spares_mild. }
  apply run_later in E1 as Hl1; [|by apply at_env_adds]. eapply grown_trans; [eapply run_grown; [|exact E1]; apply at_env_adds, spares_mild|].
  apply bind_past in E as [(x & E & ->)|(cs & st2 & E2 & E)]; [by eapply run_grown; [|exact E]; apply adds_reads|].
  rewrite reads_cases in E2. destruct (w_ask W _ _); [done|]. injection E2 as <- <-. eapply grown_trans; [by apply (grown_one _ _ (EList c' (tile_role t "pause"), true))|].
  apply (run_grown (spares id)) in E; [exact E|]. apply each_adds. intros k Hk. apply remove_adds; [apply spares_mild|]. intros b. unfold spares. cbn [fst touches]. intros [= Ei].
  pose proof (list_labelled _ _ _ LabelRole "pause" Hk) as H1. unfold tile_role in H1. rewrite lookup_insert_eq in H1. specialize (H1 eq_refl).
  rewrite (made_labelled (ECreate cc (replica t s)) cc (replica t s) h1 (past st1) (tile_role t "pause") k (or_intror eq_refl)) in H1; [|by eapply later_trans|done|done].
  unfold at_key, replica, with_Labels in H1. destruct s. cbn in H1. by rewrite lookup_insert_eq in H1.
Qed.
Lemma route_spares c st st' r : later born (past st) -> route W f c t e st = (st', r) -> grown (spares id) (past st) (past st').
Proof.
  intros Hl. destruct (t_HostNetwork t) eqn:Hn; [|intros E; eapply run_grown; [|exact E]; apply route_adds; [apply spares_mild|done]].
  unfold route. rewrite Hn. intros [(x & E & ->)|(u & st1 & E1 & E)]%bind_past; [by apply DropPause_spares in E|].
  apply DropPause_spares in E1; [|done]. eapply grown_trans; [exact E1|]. eapply run_grown; [|exact E]. apply sync_adds, spares_mild.
Qed.
Lemma remove_old_spares c old st st' r : (forall k, k ∈ old -> exists h ls, k ∈ w_list W h ls /\ k_ID k <> id) ->
  remove_old W f c t old st = (st', r) -> grown (spares id) (past st) (past st').
Proof.
  intros Ho. apply run_grown. unfold remove_old. apply each_adds. intros k Hk st1. unfold unless_gone. destruct (Ho k Hk) as (hk & ls & Hin & Hne).
  pose proof (Remove_adds W tiles (spares id) (spares_mild id) c (t_ID t) (k_ID k)) as H.
  assert (forall c b, spares id (EStopRemove c (k_ID k), b)) as H1 by (intros c1 b; unfold spares; cbn [fst touches]; congruence).
  assert (forall h k2 c b, k2 ∈ w_list W h ∅ -> k_ID k2 = k_ID k \/ k_Name k2 = k_ID k -> spares id (EStopRemove c (k_ID k2), b)) as H2.
  { intros h k2 c1 b Hk2 Hor. unfold spares. cbn [fst touches]. intros [= Ei]. destruct Hor as [E|E]; [congruence|].
    apply (name_no_other h ∅ k2 hk ls k) in E as E2; [|done..]. congruence. }
  specialize (H H1 H2 st1). destruct (Remove _ _ _ _ _ st1) as [st2 [u|err]]; [done|]. by destruct (is_not_found err).
Qed.
Lemma stop_old_spares old st st' s' : Forall (fun k => k_ID k <> id) old -> forall stopped, stop_old W f ctx t e id old stopped st = (st', Ok s') ->
  grown (spares id) (past st) (past st').
Proof.
  intros Ho. revert st. induction Ho as [|k old Hk Ho IH]; intros st stopped; cbn [stop_old]; [intros [= <- _]; apply grown_refl|].
  destruct (is_running k); cbn [negb]; [|apply IH]. destruct (unless_gone _ st) as [st1 [u|err]] eqn:E; [|done].
  intros E2%IH. eapply grown_trans; [|exact E2]. apply stop_one_grown in E. eapply grown_impl; [|exact E].
  intros [ev b] [Hm|[c Hc]]; [by apply spares_mild|]. cbn [fst] in Hc. subst ev. unfold spares. cbn [fst touches]. congruence.
Qed.

Lemma after_create_gives_back h0 old st st' err : later h0 (past st) -> later born (past st) -> grown (spares id) h1 (past st) -> later h0 h1 ->
  (forall k, k ∈ old -> exists h ls, k ∈ w_list W h ls /\ k_ID k <> id) ->
  grown (stops_only []) h0 (past st) -> after_create W f t ctx e id old st = (st', Err err) -> serves W h0 (past st') \/ gave_back h0 (past st').
Proof.
  intros Hl Hb Hsp H01 Ho Hg E. unfold after_create in E.
  apply bind_past in E as [(x & E & _)|(stopped & st1 & E1 & E)]; [right; by apply (stop_old_gives_back h0) in E|].
  apply (stop_old_gives_back h0) in E1 as H1; [|done]. destruct H1 as (-> & Hg1). cbn [app] in *.
  assert (Forall (fun k => k_ID k <> id) old) as Hne by (apply Forall_forall; intros k Hk; by destruct (Ho k Hk) as (? & ? & _ & ?)).
  apply stop_old_spares in E1; [|done]. apply grown_later in E1 as Hl1.
  destruct (Launch W tiles ctx t id st1) as [st2 [v|x]] eqn:EL.
  - left. apply Launch_seen in EL as Hs. apply Launch_Ok_spares in EL as Hp. unfold bind at 1 in E. rewrite EL in E.
    assert (later born (past st2)) as Hb2 by (eapply later_trans; [exact Hb|]; eapply later_trans; [exact Hl1|by eapply grown_later]).
    assert (grown (spares id) (past st2) (past st')) as H2.
    { apply bind_past in E as [(x & E & _)|(u & st3 & E2 & E)]; [by eapply route_spares|].
      apply route_spares in E2; [|done]. eapply grown_trans; [exact E2|]. apply grown_later in E2.
      apply bind_past in E as [(x & E & _)|(u2 & st4 & E3 & E)]; [exact (remove_old_spares _ _ _ _ _ Ho E)|].
      apply (remove_old_spares _ _ _ _ _ Ho) in E3. eapply grown_trans; [exact E3|]. apply grown_later in E3.
      eapply route_spares; [|exact E]. repeat (eapply later_trans; [eassumption|]). apply later_refl. }
    exists cc, (replica t s), h1. split_and!; [done| | |].
    + eapply later_trans; [exact Hb2|by eapply grown_later].
    + eapply seen_later; [by eapply grown_later|]. eapply seen_from; [|exact Hs]. exact (later_trans _ _ _ Hl Hl1).
    + exact (grown_trans _ _ _ _ Hsp (grown_trans _ _ _ _ E1 (grown_trans _ _ _ _ Hp H2))).
  - right. unfold bind at 1 in E. rewrite EL in E. injection E as <- _. pose proof (Launch_launching _ _ _ _ _ _ _ _ EL) as Hla.
    assert (grown (stops_only []) (past st1) (past st2)) as H2.
    { eapply grown_impl; [|exact Hla]. intros [ev b] [Hm|[[c Hc]|[c Hc]]]; [by apply stops_only_mild| |]; cbn [fst] in Hc; by subst ev. }
    destruct (revive_gives_back (List.filter is_running old) "" st2) as [H4 H5].
    exists (past st2), (map k_ID (List.filter is_running old)). split_and!; [|done|done]. eapply grown_trans; [exact Hg1|by apply stops_none].
Qed.
End Revive.


(** Once the new replica does not start, and once all is well but the route
    after it. *)
Definition ex_unrouted : World := daemon ex_old (fun h e => match e with EVipSet _ _ _ _ => Some (New "no") | _ => None end).
#[local] Abbreviation ex_roll W := (rollout W ex_flow ex_ctx ex_web (MkEnv "net") ex_db (MkSt tt [])).
#[local] Abbreviation ex_seen W := (Replicas W (f_Tiles ex_flow) ex_ctx ex_web (MkSt tt [])).
Definition err_of {A} (r : res A) : error := match r with Err e => e | Ok _ => New "" end.
