(* ===== verification/Resolve.v ===== *)
(** * What a replica is made from ([flow/deploy/deploy.go] [resolve], [volumeBind], [depParked])

    From a tile's row to the facts of its container: the access its stack was
    granted, its values, its mounts, its command, ports and devices, its limits
    and its networks.  What the flow is told by Docker and by callbacks are
    arguments, and so are the config files' volume ([mount_files.go]) and the
    engine's part of a managed tile. *)
From S2P Require Import Prelude GoStrings GoTrim Errs Regexp Slug GoPath Sha256 GoNum GoJson Store Rows Refs ParamRows Tier Environment Settings Outside Backup BackupFlow HostGrants Volumes TileRow Docker TileLines TileCheck TileLeaf Facts JobLeaf Access Shares AccessSafe Rollout.

(** ** float64 as the rows keep it *)

Definition sign_bit (s : bool) : Z := if s then 2 ^ 63 else 0.
(** [math.Float64frombits] and [math.Float64bits]. *)
Definition float_of_bits (b : Z) : float :=
  let s := Z.testbit b 63 in let e := Z.land (Z.shiftr b 52) 2047 in let m := Z.land b (2 ^ 52 - 1) in
  if e =? 2047 then if m =? 0 then SpecFloat.S754_infinity s else SpecFloat.S754_nan
  else let '(m, e) := if e =? 0 then (m, -1074) else (m + 2 ^ 52, e - 1075) in
       match m with Zpos p => SpecFloat.S754_finite s p e | _ => SpecFloat.S754_zero s end.
Definition bits_of_float (f : float) : Z :=
  match f with
  | SpecFloat.S754_zero s => sign_bit s
  | SpecFloat.S754_infinity s => sign_bit s + 2047 * 2 ^ 52
  | SpecFloat.S754_nan => 2047 * 2 ^ 52 + 2 ^ 51 + 1
  | SpecFloat.S754_finite s m e => sign_bit s + (if Zpos m <? 2 ^ 52 then Zpos m else (e + 1075) * 2 ^ 52 + (Zpos m - 2 ^ 52))
  end.
Example float_bits : map float_of_bits [0; 4609434218613702656; 13830554455654793216; 1; 9218868437227405312] =
  map (default f0) [Some f0; ParseFloat "1.5"; ParseFloat "-1"; ParseFloat "5e-324"; ParseFloat "Inf"] /\
  map (fun b => bits_of_float (float_of_bits b)) [0; 4609434218613702656; 13830554455654793216; 1; 9218868437227405312; 4503599627370497] =
    [0; 4609434218613702656; 13830554455654793216; 1; 9218868437227405312; 4503599627370497].
Proof. split; vm_compute; reflexivity. Qed.

(** ** The rows and the engine *)

(** The columns of an org row that [resolve] reads. *)
Record Org := MkOrg { o_ID : string; o_Slug : string; o_Settings : string }.
(** [mflow.Container]: what the engine of a managed tile adds. *)
Record Engine := MkEngine { en_Image : string; en_Cmd : list string; en_Env : list string; en_Binds : list string; en_Networks : list NetAttach }.
Definition no_engine : Engine := MkEngine "" [] [] [] [].

Definition short (id : string) : string := str_take 8 id.
Definition set_sorted (s : gset string) : list string := sort_strings (elements s).
Definition envMap (blob : string) : res (gmap string string) :=
  if String.eqb (trim_space blob) "" then Ok ∅
  else match unmarshal_strings blob with Some m => Ok m | None => Err (New "json: cannot unmarshal") end.
(** [domain.Ingress]. *)
Definition IngressNetwork (tileID : string) : string := "stackr-ingress-" +:+ tileID.

(** ** Lists of results *)

Lemma ok_bind {A B} (c : res A) (k : A -> res B) r : match c with Ok x => k x | Err e => Err e end = Ok r -> exists x, c = Ok x /\ k x = Ok r.
Proof. destruct c as [x|e]; [by exists x|done]. Qed.

(** A host mount comes out as the text that was granted. *)
Lemma hostBind_ok tbl stack t m b : hostBind (Some tbl) stack t m = Ok b ->
  HostLine m = "host:" +:+ b /\ Line (t_Slug t) (HostLine m) ∈ granted tbl stack.
Proof.
  unfold hostBind. destruct (Check tbl stack _) as [[]|e] eqn:E; [|done]. intros <-%Ok_inj. split; [done|].
  apply (proj1 (Check_grants _ _ _) E). left.
Qed.

Section Resolve.
(** The tables. *)
Context {StT : Type} `{!SlugTable StT Tier} {StE : Type} `{!SlugTable StE Environment} {StL : Type} `{!SlugTable StL Tile} {StS : Type} `{!SlugTable StS Share}.
Context (tt : StT) (te : StE) (tl : StL) (tsh : StS) (ps : list Param) (pvs : list Provision) (bds : list Binding) (dms : list DomainRow).
Context (vols : list BackupFlow.Volume) (jobs : JobLeaf.Rows) (grants : option (list HostGrant)).
(** The install-wide settings. *)
Context (cron_ParseStandard : string -> bool) {SJ : Settings.Json} (boot flat : gmap string string) (other : Z).
(** The daemon's answers and the callbacks. *)
Context (ProxyOn : string -> res (string * string)) (LinkHost : option (Environment -> string -> res string)).
Context (D : Volumes.Volumes) (Node : option (string -> string -> res string)) (here : string) (share_made : VolumeCreate -> option error).
Context (fileMounts : Tile -> Environment -> Stack -> Resolver -> res (list Docker.Mount * Resolver)).
Context (env_network : Environment -> res string) (shared_network open_ingress : string -> option error) (Remote : option (Environment -> bool)).

(** ** Values and mounts *)

Definition expand (snap : Snapshot) (w : Where) (v : string) (rr : Resolver) : res (string * Resolver) :=
  let '(r, rr) := Expand snap w v rr in v <-? r ;; Ok (v, rr).

(** The env's lines, key by key. *)
Fixpoint env_lines (snap : Snapshot) (env : gmap string string) (ks : list string) (rr : Resolver) : res (list string * Resolver) :=
  match ks with
  | [] => Ok ([], rr)
  | k :: ks =>
      v <-? expand snap InEnv (default "" (env !! k)) rr ;;
      rest <-? env_lines snap env ks v.2 ;;
      Ok ((k +:+ "=" +:+ v.1) :: rest.1, rest.2)
  end.

(** [depParked]: the first dependency whose last job waits on a value. *)
Fixpoint depParked_on (t : Tile) (deps : list string) : option error :=
  match deps with
  | [] => None
  | s :: deps =>
      match by_slug tl (t_EnvironmentID t) s with
      | Err e => if is_not_found e then depParked_on t deps else Some e
      | Ok dt =>
          match Last jobs (t_ID dt) with
          | Some j =>
              match WaitingParam j with
              | Some p => if String.eqb (j_State j) Waiting then Some (Unset p) else depParked_on t deps
              | None => depParked_on t deps
              end
          | None => depParked_on t deps
          end
      end
  end.
Definition depParked (t : Tile) (refDeps : list string) : option error :=
  depParked_on t (refDeps ++ omap (fun l => match ParseDep l with Ok d => Some d.1 | Err _ => None end) (Lines (t_DependsOn t))).

Definition volumeBind (t : Tile) (e : Environment) (m : Mount) : res string :=
  match Volumes.BySlug vols (MkVScope "env" (Environment.ID e)) (TileLines.Volume m) with
  | Err err => Err (if is_not_found err then Conflictf "%s mounts volume %q, which this environment does not declare" [AStr (t_Slug t); AStr (TileLines.Volume m)] else err)
  | Ok v => match (Volumes.Ensure D Node here v).2 with
            | (_, Some err) => Err err
            | (name, None) => Ok (name +:+ ":" +:+ TileLines.Path m +:+ roSuffix m)
            end
  end.
Definition bind_of (o : Org) (e : Environment) (st : Stack) (t : Tile) (m : Mount) : res string :=
  if String.eqb (TileLines.Kind m) MountShare then
    b <-? shareBind tsh tt te ps (o_ID o) e st t m ;; match share_made b.2 with Some err => Err err | None => Ok b.1 end
  else if String.eqb (TileLines.Kind m) MountHost then hostBind grants (st_ID st) t m
  else volumeBind t e m.

(** A line that only expands to a host mount. *)
Definition hidden_host (raw : string) (m : Mount) : bool :=
  String.eqb (TileLines.Kind m) MountHost &&
  match ParseMount raw with Ok rm => negb (String.eqb (TileLines.Kind rm) MountHost) | Err _ => true end.
Fixpoint volume_lines (snap : Snapshot) (o : Org) (e : Environment) (st : Stack) (t : Tile) (ls : list string) (rr : Resolver) : res (list string * Resolver) :=
  match ls with
  | [] => Ok ([], rr)
  | raw :: ls =>
      l <-? expand snap InEnv raw rr ;;
      match ParseMount l.1 with
      | Err err => Err (Invalidf "volumes" "%s" [AErr err])
      | Ok m =>
          if hidden_host raw m then
            Err (Invalidf "volumes" "%s: %q expands to a host mount; write host mounts out literally so they can be granted" [AStr (t_Slug t); AStr raw])
          else
            src <-? bind_of o e st t m ;;
            rest <-? volume_lines snap o e st t ls l.2 ;;
            Ok (src :: rest.1, rest.2)
      end
  end.

Definition command_of (snap : Snapshot) (t : Tile) (def : Engine) (rr : Resolver) : res (list string * Resolver) :=
  if String.eqb (trim_space (t_Command t)) "" then Ok (en_Cmd def, rr)
  else c <-? expand snap InCommand (t_Command t) rr ;; w <-? splitCommand c.1 ;; Ok (w, c.2).

Fixpoint devices_of (ls : list string) : res (list Device) :=
  match ls with [] => Ok [] | l :: ls => d <-? ParseDevice l ;; ds <-? devices_of ls ;; Ok (d :: ds) end.

(** ** Limits *)

Fixpoint parse_levels (blobs : list string) : res (list Settings.Settings) :=
  match blobs with [] => Ok [] | b :: bs => s <-? Settings.Parse b ;; ss <-? parse_levels bs ;; Ok (s :: ss) end.
Definition limits (o : Org) (st : Stack) (e : Environment) (t : Tile) : res (Z * Z * Z) :=
  d <-? Settings.Defaults flat ;;
  ls <-? parse_levels [o_Settings o; st_Settings st; Environment.Settings e] ;;
  let '(cpu, mem) := EffectiveLimits other (Settings.Resolve other (d :: ls)) (float_of_bits (t_CPULimit t)) (t_MemLimitMB t) in
  n <-? Settings.Int boot flat "pids_limit" ;;
  Ok (bits_of_float cpu, mem, n).

(** ** Networks *)

Fixpoint first_err (f : string -> option error) (xs : list string) : option error :=
  match xs with [] => None | x :: xs => match f x with Some e => Some e | None => first_err f xs end end.
Definition networks_of (e : Environment) (t : Tile) (def : Engine) (rr : Resolver) : res (list NetAttach) :=
  net <-? env_network e ;;
  match first_err shared_network (set_sorted (nets rr)) with
  | Some err => Err err
  | None =>
      let joined := MkNetAttach net [] "" :: en_Networks def ++ map (fun n => MkNetAttach n [] "") (set_sorted (nets rr)) in
      if negb (Nat.eqb (length (tile_domains dms (t_ID t))) 0) && match Remote with None => true | Some f => negb (f e) end then
        match open_ingress (t_ID t) with
        | Some err => Err err
        | None => Ok (joined ++ [MkNetAttach (IngressNetwork (t_ID t)) [] ""])
        end
      else Ok joined
  end.

(** ** [resolve] *)

Definition res_of (o : option error) : res unit := match o with Some e => Err e | None => Ok () end.
(** [suffix] is the random end of the name. *)
Definition resolve (t : Tile) (e : Environment) (st : Stack) (o : Org) (def : Engine) (suffix : string) : res resolved :=
  snap <-? snapshot tt te tl ps pvs bds dms ProxyOn LinkHost t e st ;;
  if String.eqb (Type' e) Ephemeral && negb (Empty (HostSet [t])) then
    Err (Conflictf "%s asks for elevated host access; PR envs never get it, so it is not deployed" [AStr (t_Slug t)])
  else
  g <-? checkAccess grants (st_ID st) t ;;
  let privileged := t_Privileged t && Has g (Line (t_Slug t) Privileged) in
  let hostNet := t_HostNetwork t && Has g (Line (t_Slug t) NetworkHost) in
  env <-? envMap (t_EnvJSON t) ;;
  vals <-? env_lines snap env (sorted_keys env) NewResolver ;;
  res_of (depParked t (set_sorted (deps vals.2))) ;;?
  binds <-? volume_lines snap o e st t (Lines (t_Volumes t)) vals.2 ;;
  files <-? (if String.eqb (trim_space (t_Files t)) "" then Ok ([], binds.2) else fileMounts t e st binds.2) ;;
  cmd <-? command_of snap t def files.2 ;;
  devices <-? devices_of (Lines (t_Devices t)) ;;
  lim <-? limits o st e t ;;
  let rr := cmd.2 in
  let made (nets : list NetAttach) := MkResolved ("stackr-" +:+ t_Slug t +:+ "-" +:+ short (t_ID t) +:+ "-" +:+ suffix) "" ""
    (en_Env def ++ vals.1) (en_Binds def ++ binds.1) files.1 cmd.1 (if hostNet then ∅ else (publishedPorts (t_PublishedPorts t)).1)
    devices privileged hostNet nets (set_sorted (hosts rr)) lim.1.1 lim.1.2 lim.2 in
  if hostNet then
    match set_sorted (nets rr) with
    | [] => Ok (made [])
    | _ => Err (Conflictf "%s runs on the host network and cannot join another tile's network" [AStr (t_Slug t)])
    end
  else ns <-? networks_of e t def rr ;; Ok (made ns).

(** ** What the container is given *)

Lemma devices_of_ok ls ds d : devices_of ls = Ok ds -> d ∈ ds -> exists l, l ∈ ls /\ ParseDevice l = Ok d.
Proof.
  revert ds. induction ls as [|l ls IH]; intros ds; cbn [devices_of]; [by intros <-%Ok_inj ?%elem_of_nil|].
  intros (x & Ex & (xs & Exs & <-%Ok_inj)%ok_bind)%ok_bind [->|Hd]%elem_of_cons; [exists l; split; [left|done]|].
  destruct (IH xs Exs Hd) as (l' & ? & ?). exists l'. split; [by right|done].
Qed.
Lemma volumeBind_named t e m b : volumes_ok vols -> volumeBind t e m = Ok b -> IsAbs b = false.
Proof.
  intros Hv. unfold volumeBind. destruct (Volumes.BySlug vols _ _) as [v|err] eqn:E; [|by destruct (is_not_found err)].
  apply BySlug_ok in E as [Hin _]. pose proof (proj1 (Forall_forall _ _) (vo_names _ Hv) v Hin) as Hn. unfold Volumes.Ensure.
  destruct (at_ Node here v) as [n|err]; [|done]. cbn [snd]. destruct (made D n (v_Name v)); [done|]. rewrite Hn. by intros <-%Ok_inj.
Qed.
Lemma shareBind_named org e st t m b : shareBind tsh tt te ps org e st t m = Ok b -> IsAbs b.1 = false.
Proof.
  unfold shareBind. destruct (String.eqb (t_Kind t) _); [done|]. destruct (ShareBySlug _ _ _) as [s|err]; [|by destruct (is_not_found err)].
  destruct (existsb _ _); [done|]. destruct (Expand _ _ (sh_User s) _) as [user rr].
  intros (u & _ & (p & _ & (x & Ex & <-%Ok_inj)%ok_bind)%ok_bind)%ok_bind. unfold EnsureShare in Ex.
  by apply ok_bind in Ex as (o & _ & <-%Ok_inj).
Qed.

(** A mount that reads as a path of the node is a granted host mount. *)
Lemma bind_of_granted tbl o e st t m b : grants = Some tbl -> volumes_ok vols -> bind_of o e st t m = Ok b -> IsAbs b = true ->
  Line (t_Slug t) ("host:" +:+ b) ∈ granted tbl (st_ID st).
Proof.
  intros Hg Hv. unfold bind_of. destruct (String.eqb _ MountShare).
  - intros (x & Ex & Hb)%ok_bind Ha. apply shareBind_named in Ex. destruct (share_made x.2); [done|]. apply Ok_inj in Hb. congruence.
  - destruct (String.eqb _ MountHost).
    + rewrite Hg. intros Hb _. apply hostBind_ok in Hb as [<- H]. done.
    + intros Hb Ha. apply volumeBind_named in Hb; [congruence|done].
Qed.
Lemma volume_lines_binds snap o e st t ls rr r b : volume_lines snap o e st t ls rr = Ok r -> b ∈ r.1 -> exists m, bind_of o e st t m = Ok b.
Proof.
  revert rr r. induction ls as [|raw ls IH]; intros rr r; cbn [volume_lines]; [by intros <-%Ok_inj ?%elem_of_nil|].
  intros (l & _ & H)%ok_bind. destruct (ParseMount l.1) as [m|]; [|done]. destruct (hidden_host raw m); [done|].
  apply ok_bind in H as (src & Es & (rest & Er & <-%Ok_inj)%ok_bind). intros [->|Hb]%elem_of_cons; [by exists m|by eapply IH].
Qed.

(** What of a resolved tile the grants and its row decide. *)
Lemma resolve_parts t e st o def suffix r : resolve t e st o def suffix = Ok r -> exists g snap vols' binds rr rr',
  (String.eqb (Type' e) Ephemeral && negb (Empty (HostSet [t])) = false) /\ checkAccess grants (st_ID st) t = Ok g /\
  r_privileged r = t_Privileged t && Has g (Line (t_Slug t) Privileged) /\
  r_hostNet r = t_HostNetwork t && Has g (Line (t_Slug t) NetworkHost) /\
  volume_lines snap o e st t vols' rr = Ok (binds, rr') /\ r_binds r = en_Binds def ++ binds /\
  (r_ports r = ∅ \/ r_ports r = (publishedPorts (t_PublishedPorts t)).1) /\ devices_of (Lines (t_Devices t)) = Ok (r_devices r).
Proof.
  unfold resolve. intros (snap & _ & H)%ok_bind. destruct (_ && negb _) eqn:Ee; [done|].
  apply ok_bind in H as (g & Eg & (env & _ & (vals & _ & (u & _ & ([binds rr'] & Eb & H)%ok_bind)%ok_bind)%ok_bind)%ok_bind).
  apply ok_bind in H as (files & _ & (cmd & _ & (ds & Ed & (lim & _ & H)%ok_bind)%ok_bind)%ok_bind).
  exists g, snap, (Lines (t_Volumes t)), binds, vals.2, rr'.
  destruct (t_HostNetwork t && _) eqn:Eh; [destruct (set_sorted _); [|done]|apply ok_bind in H as (ns & _ & H)]; apply Ok_inj in H as <-;
    cbn [r_privileged r_hostNet r_binds r_ports r_devices]; split_and!; auto.
Qed.

End Resolve.

(** ** Witness *)

#[local] Instance ex_json : Settings.Json := { Marshal _ := "{}"; Unmarshal _ := Some no_settings }.
#[local] Abbreviation ex_env := (Environment.MkEnv "e" "s" "Prod" "prod" Static None "" "" 0 "net" None "branch" "f" true 3 false "n1" "" "").
#[local] Abbreviation ex_stack := (MkStack "s" "o" "Shop" "shop" "" "" "" "" "" "" 1 None).
#[local] Abbreviation ex_vols := [MkVolume "v" "env" "e" None "data" "stackr-vol-v" None 1 "n1"].
Definition ex_resolved : res resolved :=
  resolve (∅ : gmap string Tier) ({["e" := ex_env]} : gmap string Environment) ({["t" := ex_tile]} : gmap string Tile) (∅ : gmap string Share)
    [] [] [] [] ex_vols (∅ : JobLeaf.Rows) (Some ex_table) ∅ ∅ 0 (fun _ => Ok ("", "")) None
    (MkVolumes (fun _ _ => Ok 5) (fun _ => Ok []) (fun _ _ => None) (fun _ _ => None)) None "n1" (fun _ => None)
    (fun _ _ _ rr => Ok ([], rr)) (fun e => Ok (Network e)) (fun _ => None) (fun _ => None) None
    ex_tile ex_env ex_stack (MkOrg "o" "acme" "") no_engine "ab12".
